(* ===== verification/_CoqProject ===== *)
-Q . S2P
Prelude.v
Text.v
F64.v
Dyadic.v
Event.v
Seal.v
Store.v
Keys.v
Spool.v
Stream.v
Marking.v
Parser.v
Cache.v
Klv.v
Replay.v
AisBits.v
Ttm.v
Ais.v
MavMsg.v
Mavlink.v
Ontology.v
Runtime.v
Adsb.v
Gmti.v
S4586.v
AstField.v
AstWire.v
AstCat.v
Asterix.v
SapientMsg.v
Sapient.v
Http.v
Follow.v
DirWatch.v
SapientWire.v
Ulid.v
Json.v
Egress.v
Generic.v
Relay.v
SapientReport.v
SapientEgress.v
Tak.v
Config.v
Transports.v
Dds.v
Nats.v
Onboard.v
Doctor.v
Xml.v
Cot.v
S4676.v
Connectors.v
Scenario.v
FeedAis.v
FeedMav.v
FeedAst.v
FeedSbs.v
Process.v
Tools.v
FeedSapient.v
FeedMain.v
Emits.v
Programs.v
Up.v
Fixture.v
