(* ===== verification/Prelude.v ===== *)
(** * A verification of the Ajar connectors

    Ajar connectors turn what a sensor or feed sends into signed events. Bytes
    arrive through a transport, a framing cuts them into frames, a connector's
    parser turns a frame into events through the SDK's [EventBuilder], a marking
    stamps the operator's policy tags on them, the SDK seals the canonical bytes
    with Ed25519, and the runtime publishes the envelope, or spools it to disk
    while the broker is away. On the other side a consumer verifies the seal and
    hands on the event; the development sink chains verified envelopes into a
    SQLite table that can be audited later.

    The development follows that path. Every definition that models code is
    preceded by a doc comment naming the source file, the lines and the symbol.

    ** Files and what they model

    - [Prelude]: the outcome type [res] of Rust code (a value, an error, a panic,
      or, in the model only, no fuel left), [safe] (neither of the last two),
      checked indexing and slicing, wrapping integers, big- and little-endian
      values, lemmas on bit operations.
    - [Text]: UTF-8 validity, trimming, splitting and number parsing as [str]
      does them; character boundaries of string slices.
    - [F64]: binary64 arithmetic through the standard library's executable
      [spec_float], conversions, decimal parsing and [{:.n}] formatting.
    - [Event]: rust/ajar-connector/src/builder.rs, error.rs and
      rust/connectors/common/src/identity.rs. [EventBuilder] is a record, each
      setter a function on it, [build] returns the event or the error. The UUID
      generator and the clock are the fields of [Env].
    - [Seal]: seal.rs and consumer.rs of the SDK. The class [Ed25519] holds the
      signature scheme's operations, [Ed25519Laws] the documented facts (a
      signature verifies, is 64 bytes, parses back). The module [Consumer] models
      [process] and [verified_events] on the list of a subscription's messages.
    - [Store]: rust/connectors/sink/src/store.rs and the record loop of main.rs;
      the table is its rows in order with SQLite's AUTOINCREMENT mark. SHA-256
      and the protobuf decoder are section variables.
    - [Keys]: the seed a connector loads (rust/connectors/common/src/key.rs), the
      keys the sink is set up with and [mint] (sink/src/main.rs), and the key given
      to rust/ajar-verify. Key bytes and hexadecimal are the classes [KeyCodec] and
      [Hex] with the laws their crates document.
    - [Spool]: rust/connectors/common/src/spool.rs, on a directory of segment
      files and a cursor file. A write that fails half-way is a parameter of
      [append]; power loss is modelled as files that kept a prefix.
    - [Stream]: rust/connectors/common/src/stream.rs on a reader that yields
      chunks.
    - [Marking]: rust/connectors/common/src/marking.rs.
    - [Parser]: the [FrameParser] trait of runtime.rs as a class, the laws every
      parser promises the runtime ([FrameParserLaws]: an invariant, no panic on
      any bytes, canonical events), and the carry-forward buffer two connectors
      share. Every connector below gives an instance of the laws but AIS, which
      does not satisfy them: see the finding below.
    - [Cache]: the bounded map in order of arrival that AIS and ADS-B keep per
      vessel and per aircraft. [Dyadic]: exact results of [F64]'s arithmetic on
      dyadic numbers.
    - [Klv]: rust/connectors/klv/src/klv.rs.
    - [Replay]: rust/connectors/common/src/replay.rs.
    - [AisBits], [Ttm], [Ais]: rust/connectors/ais-nmea/src: the 6-bit payload
      and the per-vessel caches; own-ship fix and ARPA radar targets; sentences,
      reassembly, messages and events. The clock of [Instant::now()] is a number
      of nanoseconds; trigonometric functions are parameters.
    - [MavMsg], [Mavlink]: rust/connectors/mavlink/src: messages and checksum;
      framing, vehicle cache and events.
    - [Ontology]: rust/connectors/common/src/ontology.rs, over the attributes
      and namespaces the ontology file lists.
    - [Runtime]: the run loop and the drain task of
      rust/connectors/common/src/runtime.rs, two tasks interleaved over one
      spool as a step relation; a step's label says what became of each event.
    - [Adsb]: rust/connectors/adsb/src/adsb.rs, SBS lines. [Gmti]:
      rust/connectors/gmti/src/gmti.rs, STANAG 4607 packets. [S4586]:
      rust/connectors/stanag4586/src/s4586.rs.
    - [AstField], [AstWire], [AstCat], [Asterix]:
      rust/connectors/asterix/src: the length engine (field.rs), the target
      record and field helpers (wire.rs), the UAPs and decoders of the five
      categories (cat010.rs to cat062.rs), and data blocks, radar status and
      events (asterix.rs).
    - [SapientMsg], [Sapient]: the messages of
      rust/connectors/sapient-wire/proto and rust/connectors/sapient/src/sapient.rs:
      what the parser remembers of each node, and the events of detections, status
      reports, registrations and alerts. [SapientWire]: the framing of
      sapient-wire/src/lib.rs and one sensor's connection (sapient/src/dmm.rs).
    - [Xml]: the items quick-xml's reader pulls, and numbers as Rust reads and
      prints them. [Cot]: rust/connectors/tak-cot/src/cot.rs and the sink's
      cot_out.rs, the two ends of Cursor-on-Target. [S4676]:
      rust/connectors/stanag4676/src/s4676.rs, the walk over a message's items and
      the tree a message is.
    - [Json], [Generic]: serde_json's values, and
      rust/connectors/generic/src: the mapping, JSON and delimited records.
    - [Connectors]: every connector but the AIS one, as one family under [Runtime].
      [Emits]: of which entity types the events of each parser are, as a law the
      parsers satisfy one by one. [Programs]: each connector's main.rs: the profile
      it prints or the parser it starts, and the run from there.
    - [Http]: rust/connectors/common/src/http_server.rs: request heads, bodies,
      routing, the connection loop, and what [open] refuses. A connection is the
      bytes that arrive on it; timers, writes and the channel are inputs.
    - [Follow], [DirWatch]: file.rs and dir.rs of rust/connectors/common/src, over
      what each read and each listing finds. [Transports]: tcp.rs, tcp_server.rs,
      exec.rs, serial.rs, ws.rs, rest.rs and mqtt.rs there: how each reconnects and
      what it delivers. The tasks of the TCP server are a step relation.
    - [Config]: config.rs and profile.rs there: the configuration, what [load]
      refuses and the hint it gives, and the profile an operator registers. [Nats]:
      when nats.rs there and the doctor (doctor/src/tls.rs, net.rs) go over TLS.
      [Dds]: dds.rs there: how the payload of a sample is taken out, and the probe.
    - [Onboard]: rust/connectors/up/src: unpacking and checking an onboarding
      packet, the seed and configuration the producer places, the consumer and its
      tap. [Up]: the program: its command line, what it writes and starts, and the
      directory afterwards.
    - [Doctor]: rust/connectors/doctor/src: every check of a run and its status, the
      TLS probe and its diagnosis included, and the connector that then starts.
      What a host finds (files, dials, greetings, certificates) is the record [Host];
      what the product computes from it are the definitions of the files above.
    - [Egress]: rust/connectors/generic-egress/src: acceptance, deduplication, the
      rendering of an event with its label, and the loop. [Relay]: the bounded
      buffer and drain both other egress connectors share, with the laws of a link
      ([LinkLaws]) their theorems are proved against. [Ulid], [SapientReport],
      [SapientEgress]: rust/connectors/sapient-egress/src. [Tak]:
      rust/connectors/tak-egress/src.
    - [Process]: the health endpoint (rust/connectors/common/src/health.rs), the
      profile the SDK publishes, the UDP sockets. [Tools]: rust/ajar-verify, from its
      arguments to the summary it prints, and the runs of rust/conformance. [Fixture]:
      its fixtures as events, and rust/examples/conformance-adapter.
    - [Scenario], [FeedAis], [FeedSbs], [FeedMav], [FeedAst], [FeedSapient],
      [FeedMain]: rust/connectors/feed-synthetic/src: the vessel, aircraft and radar
      it imagines, what it says of them in each format, and the program that sends
      it to its readers.

    A Mutex around a parser's state is a state passed through the call. Log lines
    are left out. A HashMap or a BTreeMap is a [gmap], a VecDeque a list.

    ** What the theorems show

    - Events: [build] is total and every event it yields is canonical; the
      timestamp check is the RFC 3339 grammar.
    - Seals: [verify] inverts [seal]; the verified stream delivers exactly the
      messages that verify, decode and pass the guards.
    - Sink: [audit] accepts exactly the complete signed chains, names the first
      bad record, and two audited stores with one head hold the same envelopes or
      exhibit a collision; what the record loop writes audits intact.
    - Spool: a spool refines a bounded first-in first-out queue; [append], with the
      segments the bound drops, [peek], [advance] and a restart after a crash are
      proved against it ([spool_ok]).
    - Runtime: in every interleaving each event is accounted for exactly once and
      every counter says so. While no write to disk fails half-way, the spool both
      tasks share stays first-in first-out, and a broker that confirms lets it drain
      to the end. No frame stops the loop over any of the connectors
      ([connectors_run]).
    - Framing, captures and HTTP: what a sender writes is read back, however the
      transport cut it; pipelined requests are delivered one by one, and only
      admitted ones reach the runtime.
    - Marking: the operator's level is a floor, never lowered by the wire.
    - Parsers: on any bytes they return without a panic and keep their caches
      bounded ([connectors_run], [ais_total]); encoders written here are
      inverted ([klv_roundtrip], [mav_position], [gmti_roundtrip],
      [asterix_datagram], [s4586_walk]); the checksums detect damage; a
      message in several sentences is put together whatever comes between
      ([ais_reassembly]); a bounded cache reports what a queue of tracks, or a parser
      of its own for each node, would ([adsb_tracks], [sapient_own_node]); binary angles are exact
      ([gmti_angles_exact]); a message read as a stream is the tree it stands for
      ([walk_message]).
    - Transports: what was sent is delivered in order and whole, whatever is lost
      or interleaved between ([tcp_delivers], [tcp_server_delivers], [ws_delivers],
      [file_frames], [dir_delivers], [dmm_connection]); a line still being written
      when it is read is the one exception, and [file_frames] says so.
    - Set-up: [load] never panics, its hint is the nearest name
      ([edit_distance_least]), the profile admits all that may be emitted, and no
      connection is in the clear where TLS is asked for or partly set up
      ([never_in_the_clear]).
    - Onboarding: a minted source is one the sink accepts
      ([minted_source_accepted]), an opened packet is what its key signed
      ([packet_pinned]), whatever ajar-up does with one, to its directory and beyond,
      is warranted by it ([up_warranted]), and a doctor that finds nothing wrong is right about the
      files, the registration, the spool and the connection ([doctor_green]).
    - Programs: what a connector emits in any run is of a type the profile it printed
      admits ([profile_admits]); ajar-verify prints an event only if its seal verified
      ([verify_speaks]), the conformance command succeeds only if every vector does
      ([conformance_verdict]), which for the SDK's adapter is when its own bytes are
      those of the vectors ([adapter_conforms]), and the metrics are those counted ([metrics_scraped]).
    - The synthetic feed: what it says is what the connectors read, field by field
      ([feed_vessel], [feed_airliner], [feed_uav], [feed_radar], [feed_node]), and each
      reader that keeps up gets all of it ([fan_out]).
    - Egress: every message has one counted outcome ([egress_loop]), a rendering
      leaves nothing governed out ([render_keeps]), the registration goes first and
      is accepted before anything else ([registration_first]), the buffers are bounded queues ([reports_in_order],
      [tak_relays_verbatim]), and a track sent as Cursor-on-Target is read back
      ([cot_relay]).
    - Some theorems and examples show behaviour the code or its documents do not
      mean. Panics: a GGA sentence that is not ASCII, a replay speed that is NaN.
      Losses: a torn append and a stale cursor hide spooled records; a frame near
      the bound of the file follower, what a command wrote before an overlong line,
      a mapping under a reserved name and a SAPIENT report with repeated entries
      are dropped. Stalls: a payload too large for a datagram, 64 failed MQTT
      connections. Wrong values: the velocity of another coordinate system, a stale
      time without its zone, epoch milliseconds that wrap, a callsign that keeps the
      entities XML has for its characters. And edits the audit
      cannot see, operator types the boot check refuses, a profile that depends on
      the order of a map. And on the way in: a packet with two TLS files of three
      connects in the clear, one that is refused has replaced the installed files, a
      [mint] that was interrupted never registers its source, a raw key with a space
      in it is refused, and the doctor cuts a record off a spool in use. And on the
      way out: an event whose text holds a line feed forges a line of the summary
      ajar-verify prints, a SAPIENT type set under the options is emitted but not
      asked for, and the domain of an ASTERIX object is asked for as a type.

    ** Fuel

    Loops that are not structural take fuel, always a bound computed from the
    input by the calling definition (the length of the buffer plus one, the
    number of segments plus one); the [safe] theorems prove that it never runs
    out, and the functional theorems conclude [Ok], not "if it returns".

    ** Not modelled

    Code of other crates is a parameter: Ed25519, SHA-256, the protobuf, JSON, TOML
    and XML readers, the time crate, libm's trigonometry, the clock and the random
    generators. Sockets, processes, timers and certificates are inputs, so binding,
    listening, TLS handshakes and standard input, each one call of a library, have no
    definition. The command line of the doctor, the files of the conformance vectors,
    the set-up of logging and the texts of findings and errors are I/O. The other
    examples, and the SDKs in other languages, are left aside. *)

(** This file: outcomes, slices, machine integers and the lemmas on them. *)
From Stdlib Require Import ZArith Lia.
From Stdlib Require Import Strings.String Strings.Ascii.
From stdpp Require Export base list strings gmap pretty.

Local Open Scope Z_scope.

(** * Outcomes of Rust code *)

(** What a call can do: return a value, return an error, panic (index out of
    range, [expect] on [None]), or, in the model only, run out of loop fuel. *)
Inductive res (E A : Type) : Type :=
| Ok (a : A)
| Err (e : E)
| Panic
| NoFuel.
Arguments Ok {E A} a.
Arguments Err {E A} e.
Arguments Panic {E A}.
Arguments NoFuel {E A}.

#[export] Instance res_ret {E} : MRet (res E) := λ A a, Ok a.
#[export] Instance res_bind {E} : MBind (res E) := λ A B f m,
  match m with
  | Ok a => f a
  | Err e => Err e
  | Panic => Panic
  | NoFuel => NoFuel
  end.
#[export] Instance res_map {E} : FMap (res E) := λ A B f m,
  match m with
  | Ok a => Ok (f a)
  | Err e => Err e
  | Panic => Panic
  | NoFuel => NoFuel
  end.

(** The call returns: it neither panics nor runs out of fuel. *)
Definition safe {E A} (m : res E A) : Prop :=
  match m with Ok _ | Err _ => True | Panic | NoFuel => False end.

(** [ok_or] and [ok_or_else]. *)
Definition ok_or {E A} (e : E) (o : option A) : res E A :=
  match o with Some a => Ok a | None => Err e end.

(** [unwrap], [expect] and checked indexing: panic on [None]. *)
Definition or_panic {E A} (o : option A) : res E A :=
  match o with Some a => Ok a | None => Panic end.

(** [map_err]. *)
Definition map_err {E F A} (f : E → F) (m : res E A) : res F A :=
  match m with
  | Ok a => Ok a
  | Err e => Err (f e)
  | Panic => Panic
  | NoFuel => NoFuel
  end.

Definition guard_res {E} (b : bool) (e : E) : res E unit :=
  if b then Ok tt else Err e.

Lemma safe_bind {E A B} (m : res E A) (f : A → res E B) :
  safe m → (∀ a, m = Ok a → safe (f a)) → safe (m ≫= f).
Proof. destruct m; simpl; auto. Qed.

Lemma safe_ok_or {E A} (e : E) (o : option A) : safe (ok_or e o).
Proof. by destruct o. Qed.

Lemma safe_or_panic {E A} (o : option A) : is_Some o → safe (E := E) (or_panic o).
Proof. by intros [a ->]. Qed.

Lemma safe_map_err {E F A} (f : E → F) (m : res E A) : safe m → safe (map_err f m).
Proof. by destruct m. Qed.

Lemma bind_Ok {E A B} (m : res E A) (f : A → res E B) b :
  m ≫= f = Ok b ↔ ∃ a, m = Ok a ∧ f a = Ok b.
Proof.
  split; [destruct m; simpl; naive_solver|].
  by intros (a & -> & Hb).
Qed.

Lemma ok_or_Ok {E A} (e : E) (o : option A) a : ok_or e o = Ok a ↔ o = Some a.
Proof. destruct o; simpl; naive_solver. Qed.

Lemma or_panic_Ok {E A} (o : option A) a : or_panic (E := E) o = Ok a ↔ o = Some a.
Proof. destruct o; simpl; naive_solver. Qed.

Create HintDb rust.
#[export] Hint Resolve safe_ok_or safe_map_err : rust.

(** Split the monadic sequence in a hypothesis [m = Ok b]. *)
Ltac inv_ok :=
  repeat match goal with
  | H : Ok _ = Ok _ |- _ => injection H as H; subst
  | H : (_, _) = (_, _) |- _ => injection H as H; subst
  | H : Err _ = Ok _ |- _ => discriminate H
  | H : Panic = Ok _ |- _ => discriminate H
  | H : NoFuel = Ok _ |- _ => discriminate H
  | H : mret _ = Ok _ |- _ => injection H as H; subst
  | H : _ ≫= _ = Ok _ |- _ => apply bind_Ok in H as (? & ? & ?)
  | H : ok_or _ _ = Ok _ |- _ => apply ok_or_Ok in H
  | H : or_panic _ = Ok _ |- _ => apply or_panic_Ok in H
  end.

(** Case split on the innermost scrutinee of a [match] or [if]. *)
Ltac case_in_goal :=
  match goal with
  | |- context [match ?x with _ => _ end] =>
      lazymatch x with
      | context [match _ with _ => _ end] => fail
      | _ => destruct x eqn:?
      end
  end.
Ltac case_in H :=
  match type of H with
  | context [match ?x with _ => _ end] =>
      lazymatch x with
      | context [match _ with _ => _ end] => fail
      | _ => destruct x eqn:?
      end
  end.

(** Boolean comparisons of integers into propositions. *)
Ltac bool_prop :=
  repeat match goal with
  | H : _ && _ = true |- _ => apply andb_true_iff in H as [? ?]
  | H : _ || _ = false |- _ => apply orb_false_iff in H as [? ?]
  | H : negb _ = true |- _ => apply negb_true_iff in H
  | H : negb _ = false |- _ => apply negb_false_iff in H
  | H : (_ <=? _)%Z = true |- _ => apply Z.leb_le in H
  | H : (_ <=? _)%Z = false |- _ => apply Z.leb_gt in H
  | H : (_ <? _)%Z = true |- _ => apply Z.ltb_lt in H
  | H : (_ <? _)%Z = false |- _ => apply Z.ltb_ge in H
  | H : (_ =? _)%Z = true |- _ => apply Z.eqb_eq in H
  | H : (_ =? _)%Z = false |- _ => apply Z.eqb_neq in H
  | H : (_ <=? _)%nat = true |- _ => apply Nat.leb_le in H
  | H : (_ <=? _)%nat = false |- _ => apply Nat.leb_gt in H
  | H : (_ <? _)%nat = true |- _ => apply Nat.ltb_lt in H
  | H : (_ <? _)%nat = false |- _ => apply Nat.ltb_ge in H
  | H : (_ =? _)%nat = true |- _ => apply Nat.eqb_eq in H
  | H : (_ =? _)%nat = false |- _ => apply Nat.eqb_neq in H
  end.

Lemma ltb_iff a b c d : (a < b ↔ c < d)%Z → (a <? b)%Z = (c <? d)%Z.
Proof. intros. destruct (Z.ltb_spec a b), (Z.ltb_spec c d); try done; lia. Qed.
Lemma leb_iff a b c d : (a ≤ b ↔ c ≤ d)%Z → (a <=? b)%Z = (c <=? d)%Z.
Proof. intros. destruct (Z.leb_spec a b), (Z.leb_spec c d); try done; lia. Qed.
Lemma eqb_iff a b c d : (a = b ↔ c = d)%Z → (a =? b)%Z = (c =? d)%Z.
Proof. intros. destruct (Z.eqb_spec a b), (Z.eqb_spec c d); try done; lia. Qed.

(** Replace a comparison by an equivalent one. *)
Ltac same_cmp a b := replace a with b by (first [apply ltb_iff | apply leb_iff | apply eqb_iff]; lia).

(** * Bytes and slices *)

(** A byte is a [Z] in [0, 256); a slice is a list of them. *)
Abbreviation bytes := (list Z).

Definition byte_ok (b : Z) : Prop := 0 ≤ b < 256.
Definition bytes_ok (l : bytes) : Prop := Forall byte_ok l.

(** [len()] as an integer. *)
Definition zlen {A} (l : list A) : Z := Z.of_nat (length l).
Arguments zlen : simpl never.

(** [data.get(i)]. *)
Definition get {A} (l : list A) (i : Z) : option A :=
  if (0 <=? i) && (i <? zlen l) then l !! Z.to_nat i else None.

(** [data.get(a..b)]. *)
Definition get_range {A} (l : list A) (a b : Z) : option (list A) :=
  if (0 <=? a) && (a <=? b) && (b <=? zlen l)
  then Some (take (Z.to_nat (b - a)) (drop (Z.to_nat a) l))
  else None.

(** [data.get(a..)]. *)
Definition get_from {A} (l : list A) (a : Z) : option (list A) := get_range l a (zlen l).

(** [data[i]] and [data[a..b]], which panic out of range. *)
Definition idx {E A} (l : list A) (i : Z) : res E A := or_panic (get l i).
Definition slice {E A} (l : list A) (a b : Z) : res E (list A) := or_panic (get_range l a b).

Lemma zlen_nonneg {A} (l : list A) : 0 ≤ zlen l.
Proof. unfold zlen. lia. Qed.

Lemma zlen_nil {A} : zlen (@nil A) = 0.
Proof. done. Qed.

Lemma zlen_cons {A} (x : A) l : zlen (x :: l) = 1 + zlen l.
Proof. unfold zlen. simpl length. lia. Qed.

Lemma zlen_app {A} (l k : list A) : zlen (l ++ k) = zlen l + zlen k.
Proof. unfold zlen. rewrite length_app. lia. Qed.

Lemma get_is_Some {A} (l : list A) i : 0 ≤ i < zlen l → is_Some (get l i).
Proof.
  intros H. unfold get.
  replace ((0 <=? i) && (i <? zlen l)) with true by lia.
  apply lookup_lt_is_Some. unfold zlen in H. lia.
Qed.

Lemma get_Some {A} (l : list A) i x :
  get l i = Some x ↔ 0 ≤ i < zlen l ∧ l !! Z.to_nat i = Some x.
Proof.
  unfold get. destruct ((0 <=? i) && (i <? zlen l)) eqn:H.
  - split; [|naive_solver]. intros. split; [lia|done].
  - split; [done|]. intros [? ?]. lia.
Qed.

Lemma get_None {A} (l : list A) i : get l i = None → i < 0 ∨ zlen l ≤ i.
Proof.
  intros H. destruct (decide (0 ≤ i < zlen l)) as [Hr|]; [|lia].
  destruct (get_is_Some l i Hr). congruence.
Qed.

Lemma get_range_is_Some {A} (l : list A) a b :
  0 ≤ a → a ≤ b → b ≤ zlen l → is_Some (get_range l a b).
Proof.
  intros. unfold get_range.
  replace ((0 <=? a) && (a <=? b) && (b <=? zlen l)) with true by lia. eauto.
Qed.

Lemma get_range_Some {A} (l : list A) a b s :
  get_range l a b = Some s ↔
  0 ≤ a ≤ b ∧ b ≤ zlen l ∧ s = take (Z.to_nat (b - a)) (drop (Z.to_nat a) l).
Proof.
  unfold get_range. destruct ((0 <=? a) && (a <=? b) && (b <=? zlen l)) eqn:H.
  - split; [intros [= <-]; repeat split; lia|]. by intros (_ & _ & ->).
  - split; [done|]. lia.
Qed.

Lemma get_range_len {A} (l : list A) a b s : get_range l a b = Some s → zlen s = b - a.
Proof.
  rewrite get_range_Some. intros (? & ? & ->). unfold zlen in *.
  rewrite length_take, length_drop. lia.
Qed.

Lemma get_range_split {A} (l : list A) a b s :
  get_range l a b = Some s →
  l = take (Z.to_nat a) l ++ s ++ drop (Z.to_nat b) l.
Proof.
  rewrite get_range_Some. intros (? & ? & ->).
  rewrite <- (take_drop (Z.to_nat a) l) at 1. f_equal.
  rewrite <- (take_drop (Z.to_nat (b - a)) (drop (Z.to_nat a) l)) at 1. f_equal.
  rewrite drop_drop. f_equal. lia.
Qed.

Lemma get_range_app {A} (p s t : list A) a b :
  zlen p = a → b = a + zlen s → get_range (p ++ s ++ t) a b = Some s.
Proof.
  intros <- ->. apply get_range_Some. rewrite !zlen_app.
  pose proof (zlen_nonneg p). pose proof (zlen_nonneg s). pose proof (zlen_nonneg t).
  repeat split; try lia.
  unfold zlen. rewrite Nat2Z.id, drop_app_length.
  replace (Z.to_nat _) with (length s) by lia. by rewrite take_app_length.
Qed.

Lemma get_at_app {A} (p : list A) b t : get (p ++ b :: t) (zlen p) = Some b.
Proof.
  apply get_Some. rewrite zlen_app, zlen_cons. pose proof (zlen_nonneg p). pose proof (zlen_nonneg t).
  split; [lia|]. unfold zlen. rewrite Nat2Z.id. by apply list_lookup_middle.
Qed.

Lemma get_range_head {A} (s t : list A) b : b = zlen s → get_range (s ++ t) 0 b = Some s.
Proof. intros ->. by apply (get_range_app []). Qed.

Lemma safe_idx {E A} (l : list A) i : 0 ≤ i < zlen l → safe (E := E) (idx l i).
Proof. intros. by apply safe_or_panic, get_is_Some. Qed.

Lemma safe_slice {E A} (l : list A) a b :
  0 ≤ a ≤ b → b ≤ zlen l → safe (E := E) (slice l a b).
Proof. intros. apply safe_or_panic, get_range_is_Some; lia. Qed.

Lemma idx_Ok {E A} (l : list A) i x :
  idx (E := E) l i = Ok x ↔ 0 ≤ i < zlen l ∧ l !! Z.to_nat i = Some x.
Proof. unfold idx. by rewrite or_panic_Ok, get_Some. Qed.

Lemma slice_Ok {E A} (l : list A) a b s :
  slice (E := E) l a b = Ok s ↔ get_range l a b = Some s.
Proof. unfold slice. by rewrite or_panic_Ok. Qed.

#[export] Hint Resolve safe_idx safe_slice : rust.

Lemma bytes_ok_get l i b : bytes_ok l → get l i = Some b → byte_ok b.
Proof.
  intros Hl [_ H]%get_Some. unfold bytes_ok in Hl. rewrite Forall_lookup in Hl. eauto.
Qed.

Lemma bytes_ok_take l n : bytes_ok l → bytes_ok (take n l).
Proof. apply Forall_take. Qed.

Lemma bytes_ok_drop l n : bytes_ok l → bytes_ok (drop n l).
Proof. apply Forall_drop. Qed.

Lemma bytes_ok_range l a b s : bytes_ok l → get_range l a b = Some s → bytes_ok s.
Proof. intros Hl (_ & _ & ->)%get_range_Some. by apply bytes_ok_take, bytes_ok_drop. Qed.

#[export] Hint Resolve bytes_ok_take bytes_ok_drop bytes_ok_range : rust.

(** * Machine integers *)

(** The value of a [w]-bit unsigned result that wrapped. *)
Definition wrap (w x : Z) : Z := x mod 2 ^ w.

(** [AtomicU64::fetch_add]: wrapping. *)
Definition fetch_add (n k : Z) : Z := wrap 64 (n + k).

(** [x as iW] of a [w]-bit unsigned value: two's complement. *)
Definition to_signed (w x : Z) : Z := if x <? 2 ^ (w - 1) then x else x - 2 ^ w.

(** [from_be_bytes] and [from_le_bytes] on any number of bytes. *)
Definition be_val (l : bytes) : Z := fold_left (λ a b, a * 256 + b) l 0.
Definition le_val (l : bytes) : Z := be_val (rev l).

(** [to_be_bytes]: the [n] low bytes of [v], most significant first. *)
Fixpoint be_enc (n : nat) (v : Z) : bytes :=
  match n with
  | O => []
  | S n => (v / 256 ^ Z.of_nat n) mod 256 :: be_enc n v
  end.

Lemma wrap_range w x : 0 ≤ w → 0 ≤ wrap w x < 2 ^ w.
Proof. intros. apply Z.mod_pos_bound. lia. Qed.

Lemma wrap_small w x : 0 ≤ x < 2 ^ w → wrap w x = x.
Proof. intros. by apply Z.mod_small. Qed.

Lemma to_signed_range w x :
  0 < w → 0 ≤ x < 2 ^ w → - 2 ^ (w - 1) ≤ to_signed w x < 2 ^ (w - 1).
Proof.
  intros Hw Hx. unfold to_signed.
  assert (2 ^ w = 2 * 2 ^ (w - 1)) by (rewrite <- Z.pow_succ_r by lia; f_equal; lia).
  destruct (x <? 2 ^ (w - 1)) eqn:?; bool_prop; lia.
Qed.

Lemma to_signed_wrap w v : 0 < w → - 2 ^ (w - 1) ≤ v < 2 ^ (w - 1) → to_signed w (wrap w v) = v.
Proof.
  intros Hw Hv. unfold to_signed, wrap.
  assert (2 ^ w = 2 * 2 ^ (w - 1)) by (rewrite <- Z.pow_succ_r by lia; f_equal; lia).
  destruct (Z.lt_ge_cases v 0).
  - assert (v mod 2 ^ w = v + 2 ^ w) as -> by (rewrite <- (Z.mod_add _ 1), Z.mod_small by lia; lia).
    destruct (Z.ltb_spec (v + 2 ^ w) (2 ^ (w - 1))); lia.
  - rewrite Z.mod_small by lia. destruct (Z.ltb_spec v (2 ^ (w - 1))); lia.
Qed.

Lemma fold_be_val l a :
  fold_left (λ a b, a * 256 + b) l a = a * 256 ^ zlen l + be_val l.
Proof.
  unfold be_val. revert a. induction l as [|b l IH]; intros a; simpl.
  - rewrite zlen_nil. lia.
  - rewrite IH, (IH (0 * 256 + b)). rewrite zlen_cons, Z.pow_add_r by (try apply zlen_nonneg; lia).
    ring.
Qed.

Lemma be_val_cons b l : be_val (b :: l) = b * 256 ^ zlen l + be_val l.
Proof. unfold be_val at 1. simpl. rewrite fold_be_val. ring. Qed.

Lemma be_val_app l k : be_val (l ++ k) = be_val l * 256 ^ zlen k + be_val k.
Proof. unfold be_val at 1. by rewrite fold_left_app, fold_be_val. Qed.

Lemma be_val_range l : bytes_ok l → 0 ≤ be_val l < 256 ^ zlen l.
Proof.
  induction 1 as [|b l Hb Hl IH]; [done|].
  rewrite be_val_cons, zlen_cons, Z.pow_add_r by (try apply zlen_nonneg; lia).
  unfold byte_ok in Hb. nia.
Qed.

Lemma be_val_nonneg l : bytes_ok l → 0 ≤ be_val l.
Proof. apply be_val_range. Qed.

Lemma be_val_lt l n : bytes_ok l → zlen l = n → 0 ≤ be_val l < 256 ^ n.
Proof. intros ? <-. by apply be_val_range. Qed.

Lemma bytes_ok_rev l : bytes_ok l → bytes_ok (rev l).
Proof. unfold bytes_ok. rewrite !Forall_forall. intros H x. rewrite list_elem_of_In, <- in_rev, <- list_elem_of_In. apply H. Qed.

Lemma zlen_rev {A} (l : list A) : zlen (rev l) = zlen l.
Proof. unfold zlen. by rewrite length_rev. Qed.

Lemma le_val_lt l n : bytes_ok l → zlen l = n → 0 ≤ le_val l < 256 ^ n.
Proof. intros. apply be_val_lt; [by apply bytes_ok_rev|by rewrite zlen_rev]. Qed.

Lemma be_enc_length n v : length (be_enc n v) = n.
Proof. induction n; simpl; auto. Qed.

Lemma be_enc_zlen n v : zlen (be_enc n v) = Z.of_nat n.
Proof. unfold zlen. by rewrite be_enc_length. Qed.

Lemma be_enc_ok n v : bytes_ok (be_enc n v).
Proof. induction n; simpl; constructor; auto. apply Z.mod_pos_bound. lia. Qed.

Lemma be_val_enc n v : be_val (be_enc n v) = v mod 256 ^ Z.of_nat n.
Proof.
  induction n as [|n IH]; simpl be_enc.
  - by rewrite Z.mod_1_r.
  - rewrite be_val_cons, IH, be_enc_zlen, Nat2Z.inj_succ, Z.pow_succ_r by lia.
    assert (0 < 256 ^ Z.of_nat n) by lia.
    rewrite (Z.mul_comm 256), Z.rem_mul_r by lia. ring.
Qed.

Lemma be_val_inj l k : bytes_ok l → bytes_ok k → length l = length k → be_val l = be_val k → l = k.
Proof.
  intros Hl. revert k. induction Hl as [|b l Hb Hl IH]; intros [|c k] Hk Hlen; try done.
  inversion Hk as [|?? Hc Hk']; subst. simpl in Hlen. rewrite !be_val_cons. intros Heq.
  assert (zlen l = zlen k) as Hz by (unfold zlen; lia).
  pose proof (be_val_range l Hl). pose proof (be_val_range k Hk').
  rewrite Hz in *. unfold byte_ok in *.
  assert (b = c) as -> by nia. f_equal. apply IH; [done|lia|nia].
Qed.

(** ** Bit operations on bytes *)

Lemma land_range a m w : 0 ≤ w → 0 ≤ m < 2 ^ w → 0 ≤ Z.land a m < 2 ^ w.
Proof.
  intros Hw Hm. split; [apply Z.land_nonneg; lia|].
  destruct (decide (Z.land a m = 0)) as [->|Hne]; [lia|].
  assert (0 ≤ Z.land a m) by (apply Z.land_nonneg; lia).
  apply Z.log2_lt_pow2; [lia|].
  destruct (decide (m = 0)) as [->|]; [by rewrite Z.land_0_r in Hne|].
  apply Z.le_lt_trans with (Z.log2 m); [|apply Z.log2_lt_pow2; lia].
  destruct (Z.le_gt_cases (Z.log2 (Z.land a m)) (Z.log2 m)) as [|Hgt]; [done|].
  assert (Z.testbit (Z.land a m) (Z.log2 (Z.land a m)) = true) as Ht by (apply Z.bit_log2; lia).
  rewrite Z.land_spec, (Z.bits_above_log2 m), andb_false_r in Ht by lia. done.
Qed.

Lemma lxor_range a b w : 0 ≤ w → 0 ≤ a < 2 ^ w → 0 ≤ b < 2 ^ w → 0 ≤ Z.lxor a b < 2 ^ w.
Proof.
  intros Hw Ha Hb.
  assert (0 ≤ Z.lxor a b) by (apply Z.lxor_nonneg; lia). split; [done|].
  rewrite <- (Z.mod_small a (2 ^ w)), <- (Z.mod_small b (2 ^ w)) by lia.
  rewrite <- !Z.land_ones by lia.
  replace (Z.lxor _ _) with (Z.land (Z.lxor a b) (Z.ones w)).
  - rewrite Z.land_ones by lia. apply Z.mod_pos_bound. lia.
  - apply Z.bits_inj'. intros n Hn. rewrite Z.land_spec, !Z.lxor_spec, !Z.land_spec.
    by destruct (Z.testbit a n), (Z.testbit b n), (Z.testbit (Z.ones w) n).
Qed.

Lemma lxor_byte a b : byte_ok a → byte_ok b → byte_ok (Z.lxor a b).
Proof. apply (lxor_range a b 8). lia. Qed.

Lemma shiftr_range a k w : 0 ≤ k ≤ w → 0 ≤ a < 2 ^ w → 0 ≤ Z.shiftr a k < 2 ^ (w - k).
Proof.
  intros Hk Ha. rewrite Z.shiftr_div_pow2 by lia.
  assert (2 ^ w = 2 ^ k * 2 ^ (w - k)) as Hw by (rewrite <- Z.pow_add_r by lia; f_equal; lia).
  split; [apply Z.div_pos; lia|]. apply Z.div_lt_upper_bound; lia.
Qed.

Lemma testbit_high n k i : 0 ≤ k → 0 ≤ n < 2 ^ k → k ≤ i → Z.testbit n i = false.
Proof.
  intros Hk Hn Hi. destruct (decide (n = 0)) as [->|]; [apply Z.bits_0|].
  apply Z.bits_above_log2; [lia|]. assert (Z.log2 n < k); [|lia]. apply Z.log2_lt_pow2; lia.
Qed.

(** A single bit above the value is clear. *)
Lemma land_pow2_low n k : 0 ≤ k → 0 ≤ n < 2 ^ k → Z.land n (2 ^ k) = 0.
Proof.
  intros Hk Hn. apply Z.bits_inj'. intros i Hi. rewrite Z.land_spec, Z.bits_0, Z.pow2_bits_eqb by done.
  destruct (Z.eqb_spec k i); [|by rewrite andb_false_r]. by rewrite (testbit_high n k) by lia.
Qed.

(** Shifting in low bits is multiplying and adding. *)
Lemma lor_shiftl a b k : 0 ≤ k → 0 ≤ b < 2 ^ k → Z.lor (Z.shiftl a k) b = a * 2 ^ k + b.
Proof.
  intros Hk Hb. rewrite Z.shiftl_mul_pow2 by done. symmetry. rewrite Z.add_nocarry_lxor.
  - apply Z.bits_inj'. intros i Hi. rewrite Z.lxor_spec, Z.lor_spec, Z.mul_pow2_bits by done.
    destruct (Z.lt_ge_cases i k).
    + rewrite Z.testbit_neg_r by lia. by destruct (Z.testbit b i).
    + rewrite (testbit_high b k) by lia. by destruct (Z.testbit a (i - k)).
  - apply Z.bits_inj'. intros i Hi. rewrite Z.land_spec, Z.mul_pow2_bits, Z.bits_0 by done.
    destruct (Z.lt_ge_cases i k).
    + by rewrite Z.testbit_neg_r by lia.
    + rewrite (testbit_high b k) by lia. apply andb_false_r.
Qed.

Lemma land_mask n k : 0 ≤ k → Z.land n (2 ^ k - 1) = n mod 2 ^ k.
Proof. intros. rewrite <- Z.land_ones by done. by rewrite Z.ones_equiv, Z.sub_1_r. Qed.

(** * Lists *)

Lemma Forall_app_2 {A} (P : A → Prop) l k : Forall P l → Forall P k → Forall P (l ++ k).
Proof. intros. by apply Forall_app. Qed.

#[export] Hint Resolve Forall_app_2 bytes_ok_rev be_enc_ok : rust.

Lemma bytes_ok_app l k : bytes_ok (l ++ k) ↔ bytes_ok l ∧ bytes_ok k.
Proof. apply Forall_app. Qed.

(** Decide a membership test on concrete bytes in a witness. *)
Definition bytes_okb (l : bytes) : bool := forallb (λ b, (0 <=? b) && (b <? 256)) l.

Lemma bytes_okb_ok l : bytes_okb l = true → bytes_ok l.
Proof.
  unfold bytes_okb, bytes_ok. rewrite forallb_forall, Forall_forall.
  intros H x Hx%list_elem_of_In. specialize (H x Hx). unfold byte_ok. lia.
Qed.

(** A slice that starts past a prefix. *)
Lemma get_range_shift {A} (p l : list A) a b :
  0 ≤ a → get_range (p ++ l) (zlen p + a) (zlen p + b) = get_range l a b.
Proof.
  intros Ha. unfold get_range. rewrite zlen_app.
  assert ((0 <=? zlen p + a) && (zlen p + a <=? zlen p + b) && (zlen p + b <=? zlen p + zlen l)
    = (0 <=? a) && (a <=? b) && (b <=? zlen l)) as ->.
  { pose proof (zlen_nonneg p). f_equal; [f_equal|]; apply leb_iff; lia. }
  destruct (_ && _); [|done]. do 2 f_equal; [lia|]. rewrite drop_app.
  rewrite (drop_ge p), app_nil_l by (unfold zlen; lia). f_equal. unfold zlen. lia.
Qed.
