(* ===== verification/Text.v ===== *)
(** Text as the program handles it: [&str] and [String] as their UTF-8 bytes,
    with the standard-library operations the connectors call on them (UTF-8
    validation, [trim], [split], [find], ASCII case, integer parsing and
    display). String literals and event fields are Rocq [string]s, converted
    with [s2b] and [b2s]. *)
From Stdlib Require Import ZArith Lia.
From Stdlib Require Import Strings.String Strings.Ascii.
From S2P Require Export Prelude.

Local Open Scope Z_scope.

(** * Strings and bytes *)

Definition a2z (a : ascii) : Z := Z.of_N (N_of_ascii a).
Definition z2a (b : Z) : ascii := ascii_of_N (Z.to_N b).

Fixpoint s2b (s : string) : bytes :=
  match s with EmptyString => [] | String a s => a2z a :: s2b s end.

Fixpoint b2s (l : bytes) : string :=
  match l with [] => EmptyString | b :: l => String (z2a b) (b2s l) end.

Lemma z2a_a2z a : z2a (a2z a) = a.
Proof. unfold z2a, a2z. by rewrite N2Z.id, ascii_N_embedding. Qed.

Lemma a2z_z2a b : byte_ok b → a2z (z2a b) = b.
Proof.
  intros [? ?]. unfold z2a, a2z. rewrite N_ascii_embedding by lia. lia.
Qed.

Lemma a2z_ok a : byte_ok (a2z a).
Proof. unfold a2z. split; [lia|]. pose proof (N_ascii_bounded a). lia. Qed.

Lemma s2b_ok s : bytes_ok (s2b s).
Proof. induction s; constructor; auto using a2z_ok. Qed.

Lemma b2s_s2b s : b2s (s2b s) = s.
Proof. induction s; simpl; by rewrite ?z2a_a2z, ?IHs. Qed.

Lemma s2b_b2s l : bytes_ok l → s2b (b2s l) = l.
Proof. induction 1; simpl; [done|]. rewrite a2z_z2a by done. by f_equal. Qed.

Lemma s2b_inj s t : s2b s = s2b t → s = t.
Proof. intros H. by rewrite <- (b2s_s2b s), <- (b2s_s2b t), H. Qed.

Lemma s2b_app s t : s2b (s ++ t)%string = s2b s ++ s2b t.
Proof.
  induction s as [|a s IH]; [done|].
  change (String a s ++ t)%string with (String a (s ++ t)). simpl. by rewrite IH.
Qed.

Lemma b2s_app l k : b2s (l ++ k) = (b2s l ++ b2s k)%string.
Proof. apply s2b_inj. rewrite s2b_app. induction l as [|b l IH]; [done|]. simpl. by rewrite IH. Qed.

Lemma length_s2b s : length (s2b s) = String.length s.
Proof. induction s as [|a s IH]; [done|]. change (S (length (s2b s)) = S (String.length s)). by rewrite IH. Qed.

#[export] Hint Resolve s2b_ok : rust.

(** * Characters *)

Definition is_digit (b : Z) : bool := (48 <=? b) && (b <=? 57).
Definition is_upper (b : Z) : bool := (65 <=? b) && (b <=? 90).
Definition is_lower (b : Z) : bool := (97 <=? b) && (b <=? 122).
Definition is_alnum (b : Z) : bool := is_digit b || is_upper b || is_lower b.
Definition to_upper (b : Z) : Z := if is_lower b then b - 32 else b.
Definition to_lower (b : Z) : Z := if is_upper b then b + 32 else b.
Definition ascii_lower (l : bytes) : bytes := to_lower <$> l.
Definition ascii_upper (l : bytes) : bytes := to_upper <$> l.

(** [u8::is_ascii_whitespace]: space, \t, \n, \f, \r. *)
Definition is_ascii_ws (b : Z) : bool :=
  (b =? 32) || (b =? 9) || (b =? 10) || (b =? 12) || (b =? 13).

(** Unicode [White_Space] in its one-, two- and three-byte UTF-8 encodings. *)
Definition ws1 (b : Z) : bool := (b =? 32) || ((9 <=? b) && (b <=? 13)).
Definition ws2 (b0 b1 : Z) : bool := (b0 =? 0xC2) && ((b1 =? 0x85) || (b1 =? 0xA0)).
Definition ws3 (b0 b1 b2 : Z) : bool :=
  ((b0 =? 0xE1) && (b1 =? 0x9A) && (b2 =? 0x80))
  || ((b0 =? 0xE2) && (b1 =? 0x80)
      && (((0x80 <=? b2) && (b2 <=? 0x8A)) || (b2 =? 0xA8) || (b2 =? 0xA9) || (b2 =? 0xAF)))
  || ((b0 =? 0xE2) && (b1 =? 0x81) && (b2 =? 0x9F))
  || ((b0 =? 0xE3) && (b1 =? 0x80) && (b2 =? 0x80)).

(** * Trimming and splitting *)

(** [str::trim_start] on UTF-8 bytes. *)
Fixpoint trim_start (l : bytes) : bytes :=
  match l with
  | b0 :: t =>
      if ws1 b0 then trim_start t
      else match t with
      | b1 :: t1 =>
          if ws2 b0 b1 then trim_start t1
          else match t1 with
          | b2 :: t2 => if ws3 b0 b1 b2 then trim_start t2 else l
          | [] => l
          end
      | [] => l
      end
  | [] => []
  end.

(** The same from the end: the argument is the reversed text. *)
Fixpoint trim_rev (l : bytes) : bytes :=
  match l with
  | b0 :: t =>
      if ws1 b0 then trim_rev t
      else match t with
      | b1 :: t1 =>
          if ws2 b1 b0 then trim_rev t1
          else match t1 with
          | b2 :: t2 => if ws3 b2 b1 b0 then trim_rev t2 else l
          | [] => l
          end
      | [] => l
      end
  | [] => []
  end.

Definition trim_end (l : bytes) : bytes := rev (trim_rev (rev l)).
Definition trim (l : bytes) : bytes := trim_end (trim_start l).

(** [split_whitespace] on any UTF-8 text; [cur] is the word being read. *)
Definition flush (cur : bytes) (ws : list bytes) : list bytes := match cur with [] => ws | _ => cur :: ws end.
Fixpoint split_whitespace (cur l : bytes) : list bytes :=
  match l with
  | [] => flush cur []
  | b0 :: t =>
      if ws1 b0 then flush cur (split_whitespace [] t)
      else match t with
      | b1 :: t1 =>
          if ws2 b0 b1 then flush cur (split_whitespace [] t1)
          else match t1 with
          | b2 :: t2 =>
              if ws3 b0 b1 b2 then flush cur (split_whitespace [] t2) else split_whitespace (cur ++ [b0]) t
          | [] => split_whitespace (cur ++ [b0]) t
          end
      | [] => split_whitespace (cur ++ [b0]) t
      end
  end.

(** [trim_end_matches] with a set of one-byte characters. *)
Fixpoint drop_while (p : Z → bool) (l : bytes) : bytes :=
  match l with [] => [] | b :: t => if p b then drop_while p t else l end.
Definition trim_end_matches (p : Z → bool) (l : bytes) : bytes := rev (drop_while p (rev l)).

(** [split(c)]: always at least one field. *)
Fixpoint split_on (c : Z) (l : bytes) : list bytes :=
  match l with
  | [] => [[]]
  | b :: t =>
      if b =? c then [] :: split_on c t
      else match split_on c t with
      | [] => [[b]]
      | f :: fs => (b :: f) :: fs
      end
  end.

(** [split_whitespace]: the non-empty runs between whitespace (ASCII here: the
    texts it is applied to are digits and spaces). *)
Fixpoint words (l : bytes) : list bytes :=
  match l with
  | [] => []
  | b :: t =>
      if ws1 b then words t
      else match t with
      | [] => [[b]]
      | b1 :: _ =>
          if ws1 b1 then [b] :: words t
          else match words t with
          | [] => [[b]]
          | w :: ws => (b :: w) :: ws
          end
      end
  end.

(** [find(c)] and [rfind(c)]. *)
Fixpoint find_byte (c : Z) (l : bytes) : option Z :=
  match l with
  | [] => None
  | b :: t => if b =? c then Some 0 else Z.succ <$> find_byte c t
  end.
Definition rfind_byte (c : Z) (l : bytes) : option Z :=
  (λ k, zlen l - 1 - k) <$> find_byte c (rev l).

Fixpoint strip_prefix (p l : bytes) : option bytes :=
  match p, l with
  | [], _ => Some l
  | a :: p, b :: l => if a =? b then strip_prefix p l else None
  | _ :: _, [] => None
  end.
Definition starts_with (p l : bytes) : bool := bool_decide (is_Some (strip_prefix p l)).
Definition strip_suffix (p l : bytes) : option bytes :=
  (λ r, rev r) <$> strip_prefix (rev p) (rev l).
Definition ends_with (p l : bytes) : bool := bool_decide (is_Some (strip_suffix p l)).

(** [replace(['_', '-'], " ")]. *)
Definition dashes_to_spaces (l : bytes) : bytes :=
  (λ b, if (b =? 95) || (b =? 45) then 32 else b) <$> l.

(** [contains(c)]. *)
Definition has_byte (c : Z) (l : bytes) : bool := existsb (Z.eqb c) l.

(** * UTF-8 *)

Definition cont (b : Z) : bool := (0x80 <=? b) && (b <=? 0xBF).
Definition lead2 (b : Z) : bool := (0xC2 <=? b) && (b <=? 0xDF).
(** The first two bytes of a three-byte and of a four-byte sequence. *)
Definition pair3 (b0 b1 : Z) : bool :=
  ((b0 =? 0xE0) && (0xA0 <=? b1) && (b1 <=? 0xBF))
  || ((0xE1 <=? b0) && (b0 <=? 0xEC) && cont b1)
  || ((b0 =? 0xED) && (0x80 <=? b1) && (b1 <=? 0x9F))
  || ((0xEE <=? b0) && (b0 <=? 0xEF) && cont b1).
Definition pair4 (b0 b1 : Z) : bool :=
  ((b0 =? 0xF0) && (0x90 <=? b1) && (b1 <=? 0xBF))
  || ((0xF1 <=? b0) && (b0 <=? 0xF3) && cont b1)
  || ((b0 =? 0xF4) && (0x80 <=? b1) && (b1 <=? 0x8F)).

(** [str::from_utf8(..).is_ok()]. *)
Fixpoint utf8_valid (l : bytes) : bool :=
  match l with
  | [] => true
  | b0 :: t =>
      if b0 <? 128 then utf8_valid t
      else match t with
      | [] => false
      | b1 :: t1 =>
          if lead2 b0 && cont b1 then utf8_valid t1
          else match t1 with
          | [] => false
          | b2 :: t2 =>
              if pair3 b0 b1 && cont b2 then utf8_valid t2
              else match t2 with
              | [] => false
              | b3 :: t3 => pair4 b0 b1 && cont b2 && cont b3 && utf8_valid t3
              end
          end
      end
  end.

(** U+FFFD. *)
Definition replacement : bytes := [0xEF; 0xBF; 0xBD].

(** [String::from_utf8_lossy]: each maximal prefix of a valid sequence that is
    cut short becomes one U+FFFD. *)
Fixpoint utf8_lossy (l : bytes) : bytes :=
  match l with
  | [] => []
  | b0 :: t =>
      if b0 <? 128 then b0 :: utf8_lossy t
      else match t with
      | [] => replacement
      | b1 :: t1 =>
          if lead2 b0 then
            if cont b1 then b0 :: b1 :: utf8_lossy t1 else replacement ++ utf8_lossy t
          else if pair3 b0 b1 then
            match t1 with
            | [] => replacement
            | b2 :: t2 =>
                if cont b2 then b0 :: b1 :: b2 :: utf8_lossy t2
                else replacement ++ utf8_lossy t1
            end
          else if pair4 b0 b1 then
            match t1 with
            | [] => replacement
            | b2 :: t2 =>
                if cont b2 then
                  match t2 with
                  | [] => replacement
                  | b3 :: t3 =>
                      if cont b3 then b0 :: b1 :: b2 :: b3 :: utf8_lossy t3
                      else replacement ++ utf8_lossy t2
                  end
                else replacement ++ utf8_lossy t1
            end
          else replacement ++ utf8_lossy t
      end
  end.

(** * Integers *)

(** The value of ASCII digits in [radix], [None] on a digit out of range. *)
Definition digit_val (radix b : Z) : option Z :=
  let v := if is_digit b then b - 48
           else if is_lower b then b - 87
           else if is_upper b then b - 55 else radix in
  if v <? radix then Some v else None.

Fixpoint digits_val (radix acc : Z) (l : bytes) : option Z :=
  match l with
  | [] => Some acc
  | b :: t => d ← digit_val radix b; digits_val radix (acc * radix + d) t
  end.

(** [from_str_radix] of an unsigned type whose values are below [bound]: an
    optional [+], then at least one digit, no overflow. *)
Definition parse_uint (radix bound : Z) (l : bytes) : option Z :=
  let l := match l with 43 :: t => t | _ => l end in
  match l with
  | [] => None
  | _ => v ← digits_val radix 0 l; if v <? bound then Some v else None
  end.

Definition parse_u8 : bytes → option Z := parse_uint 10 256.
Definition parse_u64 : bytes → option Z := parse_uint 10 (2 ^ 64).

(** Decimal digits of a non-negative integer, [fuel] bounding their number. *)
Fixpoint dec_digits (fuel : nat) (z : Z) (acc : bytes) : bytes :=
  match fuel with
  | O => acc
  | S fuel =>
      let acc := 48 + z mod 10 :: acc in
      if z <? 10 then acc else dec_digits fuel (z / 10) acc
  end.
Definition dec_nat (z : Z) : bytes := dec_digits (S (Z.to_nat (Z.log2 z))) z [].

(** [Display] of an integer. *)
Definition show_bytes (z : Z) : bytes :=
  if z <? 0 then 45 :: dec_nat (- z) else dec_nat z.
Definition show (z : Z) : string := b2s (show_bytes z).

(** [{:02x}]. *)
Definition hex_digit (n : Z) : Z := if n <? 10 then 48 + n else 87 + n.
Definition hex2 (b : Z) : bytes := [hex_digit (b / 16); hex_digit (b mod 16)].

(** [{:0w$}] of a non-negative integer. *)
Definition pad_zeros (w : nat) (l : bytes) : bytes := replicate (w - length l) 48 ++ l.

(** * Lemmas *)

Lemma drop_while_suffix p l : ∃ k, l = k ++ drop_while p l ∧ Forall (λ b, p b = true) k.
Proof.
  induction l as [|b l (k & Hk & Hp)]; simpl; [by exists []|].
  destruct (p b) eqn:Hb.
  - exists (b :: k). split; [by rewrite Hk at 1|by constructor].
  - by exists [].
Qed.

Lemma split_on_ne c l : split_on c l ≠ [].
Proof. destruct l; simpl; [done|]. destruct (_ =? _); [done|]. by destruct (split_on c l). Qed.

Lemma find_byte_Some c l k :
  find_byte c l = Some k → 0 ≤ k < zlen l ∧ l !! Z.to_nat k = Some c.
Proof.
  revert k. induction l as [|b l IH]; intros k; simpl; [done|].
  rewrite zlen_cons. destruct (b =? c) eqn:Hb; bool_prop.
  - intros [= <-]. pose proof (zlen_nonneg l). subst. split; [lia|done].
  - intros (j & Hj & ->)%fmap_Some. apply IH in Hj as [? Hl].
    split; [lia|]. by replace (Z.to_nat (Z.succ j)) with (S (Z.to_nat j)) by lia.
Qed.

Lemma find_byte_app c v t : c ∉ v → find_byte c (v ++ c :: t) = Some (zlen v).
Proof.
  induction v as [|b v IH]; intros Hv; simpl.
  - by rewrite Z.eqb_refl.
  - rewrite not_elem_of_cons in Hv. destruct Hv as [Hb Hv].
    destruct (b =? c) eqn:E; bool_prop; [congruence|]. rewrite IH by done. simpl.
    rewrite zlen_cons. f_equal. lia.
Qed.


Lemma rfind_byte_Some c l k :
  rfind_byte c l = Some k → 0 ≤ k < zlen l.
Proof.
  unfold rfind_byte. intros (j & Hj & ->)%fmap_Some.
  apply find_byte_Some in Hj as [? _]. rewrite zlen_rev in *. lia.
Qed.

Lemma rfind_byte_at c l k : rfind_byte c l = Some k → get l k = Some c.
Proof.
  unfold rfind_byte. intros (j & Hj & ->)%fmap_Some. apply find_byte_Some in Hj as [Hr Hl].
  rewrite zlen_rev in Hr. apply get_Some. split; [lia|].
  assert (rev l = reverse l) as E by (unfold reverse; apply rev_alt). rewrite E in Hl.
  rewrite reverse_lookup in Hl by (unfold zlen in *; lia). rewrite <- Hl. f_equal. unfold zlen in *. lia.
Qed.

Lemma rfind_byte_app c a x : c ∉ x → rfind_byte c (a ++ c :: x) = Some (zlen a).
Proof.
  intros Hx. unfold rfind_byte. rewrite rev_app_distr. cbn [rev]. rewrite <- app_assoc. cbn [app].
  rewrite find_byte_app by (intros Hc; apply Hx; by apply list_elem_of_In, in_rev, list_elem_of_In).
  cbn [fmap option_fmap option_map]. rewrite zlen_app, zlen_cons, zlen_rev. f_equal. lia.
Qed.

Lemma strip_prefix_Some p l r : strip_prefix p l = Some r ↔ l = p ++ r.
Proof.
  revert l. induction p as [|a p IH]; intros l; simpl; [naive_solver|].
  destruct l as [|b l]; [naive_solver|].
  destruct (a =? b) eqn:Hab; bool_prop; [|naive_solver].
  rewrite IH. subst. naive_solver.
Qed.

Lemma starts_with_spec p l : starts_with p l = true ↔ ∃ r, l = p ++ r.
Proof.
  unfold starts_with. rewrite bool_decide_eq_true. unfold is_Some.
  split; intros [r Hr]; exists r; by apply strip_prefix_Some.
Qed.

Lemma digits_val_nonneg radix acc l v :
  0 ≤ radix → 0 ≤ acc → digits_val radix acc l = Some v → 0 ≤ v.
Proof.
  intros Hr. revert acc. induction l as [|b l IH]; intros acc Ha; simpl; [naive_solver|].
  intros (d & Hd & Hv)%bind_Some. revert Hv. apply IH.
  assert (0 ≤ d); [|nia].
  unfold digit_val, is_digit, is_lower, is_upper in Hd.
  repeat case_in Hd; bool_prop; simplify_eq; lia.
Qed.

Lemma parse_uint_range radix bound l v :
  0 ≤ radix → parse_uint radix bound l = Some v → 0 ≤ v < bound.
Proof.
  intros Hr. unfold parse_uint. destruct (match l with 43 :: t => t | _ => l end) as [|b t]; [done|].
  intros (w & Hw & Hv)%bind_Some. destruct (w <? bound) eqn:?; simplify_eq.
  bool_prop. split; [|done]. eapply digits_val_nonneg; [..|exact Hw]; lia.
Qed.

Lemma trim_start_suffix l : ∃ k, l = k ++ trim_start l.
Proof.
  assert (∀ n l, (length l < n)%nat → ∃ k, l = k ++ trim_start l) as H; [|apply (H (S (length l))); lia].
  clear l. induction n as [|n IH]; intros l Hl; [lia|].
  destruct l as [|b0 [|b1 [|b2 t2]]]; simpl in *.
  - by exists [].
  - destruct (ws1 b0); [by exists [b0]|by exists []].
  - destruct (ws1 b0).
    { destruct (IH [b1]) as [k Hk]; [simpl; lia|]. exists (b0 :: k). simpl in *. congruence. }
    destruct (ws2 b0 b1); [by exists [b0; b1]|by exists []].
  - destruct (ws1 b0).
    { destruct (IH (b1 :: b2 :: t2)) as [k Hk]; [simpl; lia|]. exists (b0 :: k). simpl in *. congruence. }
    destruct (ws2 b0 b1).
    { destruct (IH (b2 :: t2)) as [k Hk]; [simpl; lia|]. exists (b0 :: b1 :: k). simpl in *. congruence. }
    destruct (ws3 b0 b1 b2); [|by exists []].
    destruct (IH t2) as [k Hk]; [simpl; lia|]. exists (b0 :: b1 :: b2 :: k). simpl in *. congruence.
Qed.

Lemma Forall_suffix {A} (P : A → Prop) k l m : l = k ++ m → Forall P l → Forall P m.
Proof. intros -> H. by apply Forall_app in H as []. Qed.

Lemma trim_rev_suffix l : ∃ k, l = k ++ trim_rev l.
Proof.
  assert (∀ n l, (length l < n)%nat → ∃ k, l = k ++ trim_rev l) as H; [|apply (H (S (length l))); lia].
  clear l. induction n as [|n IH]; intros l Hl; [lia|].
  destruct l as [|b0 [|b1 [|b2 t2]]]; simpl in *.
  - by exists [].
  - destruct (ws1 b0); [by exists [b0]|by exists []].
  - destruct (ws1 b0).
    { destruct (IH [b1]) as [k Hk]; [simpl; lia|]. exists (b0 :: k). simpl in *. congruence. }
    destruct (ws2 b1 b0); [by exists [b0; b1]|by exists []].
  - destruct (ws1 b0).
    { destruct (IH (b1 :: b2 :: t2)) as [k Hk]; [simpl; lia|]. exists (b0 :: k). simpl in *. congruence. }
    destruct (ws2 b1 b0).
    { destruct (IH (b2 :: t2)) as [k Hk]; [simpl; lia|]. exists (b0 :: b1 :: k). simpl in *. congruence. }
    destruct (ws3 b2 b1 b0); [|by exists []].
    destruct (IH t2) as [k Hk]; [simpl; lia|]. exists (b0 :: b1 :: b2 :: k). simpl in *. congruence.
Qed.

(** [trim] returns a contiguous part of its argument. *)
Lemma trim_infix l : ∃ k m, l = k ++ trim l ++ m.
Proof.
  destruct (trim_start_suffix l) as [k Hk].
  destruct (trim_rev_suffix (rev (trim_start l))) as [m Hm].
  exists k, (rev m). unfold trim, trim_end. rewrite Hk at 1. f_equal.
  apply (f_equal (@rev Z)) in Hm. by rewrite rev_involutive, rev_app_distr in Hm.
Qed.

Lemma bytes_ok_trim l : bytes_ok l → bytes_ok (trim l).
Proof.
  intros H. destruct (trim_infix l) as (k & m & Hl). rewrite Hl in H.
  unfold bytes_ok in *. by rewrite !Forall_app in H; destruct H as (? & ? & ?).
Qed.

#[export] Hint Resolve bytes_ok_trim : rust.

Example split_ex : split_on 44 (s2b "a,,b") = [s2b "a"; []; s2b "b"].
Proof. reflexivity. Qed.
Example trim_ex : b2s (trim (s2b "  ab c ")) = "ab c"%string.
Proof. reflexivity. Qed.
Example parse_ex : parse_u8 (s2b "256") = None ∧ parse_u8 (s2b "+25") = Some 25.
Proof. by split. Qed.
Example show_ex : show 1200 = "1200"%string ∧ show (-7) = "-7"%string ∧ show 0 = "0"%string.
Proof. by repeat split. Qed.

(** ** Display and parse are inverse *)

Lemma digits_val_app radix acc l k :
  digits_val radix acc (l ++ k) = v ← digits_val radix acc l; digits_val radix v k.
Proof.
  revert acc. induction l as [|b l IH]; intros acc; simpl; [done|].
  destruct (digit_val radix b) as [d|]; simpl; [apply IH|done].
Qed.

Lemma digit_val_dec d : 0 ≤ d < 10 → digit_val 10 (48 + d) = Some d.
Proof.
  intros H. unfold digit_val, is_digit.
  replace ((48 <=? 48 + d) && (48 + d <=? 57)) with true by lia.
  replace (48 + d - 48) with d by lia. by replace (d <? 10) with true by lia.
Qed.

Lemma dec_digits_acc fuel z acc : dec_digits fuel z acc = dec_digits fuel z [] ++ acc.
Proof.
  revert z acc. induction fuel as [|fuel IH]; intros z acc; simpl; [done|].
  destruct (z <? 10); [done|]. rewrite IH, (IH _ [_]), <- app_assoc. done.
Qed.

Lemma dec_digits_val fuel z :
  0 ≤ z < 10 ^ Z.of_nat fuel → (0 < fuel)%nat → digits_val 10 0 (dec_digits fuel z []) = Some z.
Proof.
  revert z. induction fuel as [|fuel IH]; intros z Hz Hf; [lia|]. simpl.
  destruct (z <? 10) eqn:Hs; bool_prop.
  - rewrite Z.mod_small by lia. simpl digits_val. by rewrite digit_val_dec by lia.
  - rewrite dec_digits_acc, digits_val_app.
    rewrite Nat2Z.inj_succ, Z.pow_succ_r in Hz by lia.
    destruct fuel as [|fuel]; [change (10 ^ Z.of_nat 0) with 1 in Hz; lia|].
    assert (0 ≤ z / 10) by (apply Z.div_pos; lia).
    assert (z / 10 < 10 ^ Z.of_nat (S fuel)) by (apply Z.div_lt_upper_bound; lia).
    rewrite IH by lia. cbn [mbind option_bind digits_val].
    rewrite digit_val_dec by (apply Z.mod_pos_bound; lia). cbn [mbind option_bind digits_val]. f_equal.
    pose proof (Z.div_mod z 10). lia.
Qed.

Lemma dec_digits_shape fuel z :
  0 ≤ z → (0 < fuel)%nat →
  dec_digits fuel z [] ≠ [] ∧ Forall (λ b, is_digit b = true) (dec_digits fuel z []).
Proof.
  revert z. induction fuel as [|fuel IH]; intros z Hz Hf; [lia|]. simpl.
  assert (is_digit (48 + z mod 10) = true) as Hd.
  { pose proof (Z.mod_pos_bound z 10). unfold is_digit. lia. }
  destruct (z <? 10) eqn:Hs; [split; [done|by constructor]|].
  rewrite dec_digits_acc. split; [by destruct (dec_digits fuel (z / 10) [])|].
  apply Forall_app. split; [|by constructor].
  destruct fuel as [|fuel]; [constructor|]. apply IH; [|lia]. apply Z.div_pos; lia.
Qed.

Lemma dec_fuel z : 0 ≤ z → z < 10 ^ Z.of_nat (S (Z.to_nat (Z.log2 z))).
Proof.
  intros Hz. destruct (decide (z = 0)) as [->|]; [done|].
  pose proof (Z.log2_nonneg z). pose proof (Z.log2_spec z ltac:(lia)) as [_ H1].
  rewrite Nat2Z.inj_succ, Z2Nat.id by lia.
  eapply Z.lt_le_trans; [exact H1|]. apply Z.pow_le_mono_l. lia.
Qed.

Lemma show_bytes_val z : 0 ≤ z → digits_val 10 0 (show_bytes z) = Some z.
Proof.
  intros Hz. unfold show_bytes, dec_nat. replace (z <? 0) with false by lia.
  apply dec_digits_val; [|lia]. split; [done|by apply dec_fuel].
Qed.

Lemma show_bytes_digits z :
  0 ≤ z → show_bytes z ≠ [] ∧ Forall (λ b, is_digit b = true) (show_bytes z).
Proof.
  intros Hz. unfold show_bytes, dec_nat. replace (z <? 0) with false by lia.
  apply dec_digits_shape; lia.
Qed.

Lemma parse_show bound z : 0 ≤ z < bound → parse_uint 10 bound (show_bytes z) = Some z.
Proof.
  intros Hz. destruct (show_bytes_digits z) as [Hn Hd]; [lia|].
  pose proof (show_bytes_val z ltac:(lia)) as Hv. unfold parse_uint.
  destruct (show_bytes z) as [|b t]; [done|]. inversion Hd as [|? ? Hb Ht]; subst.
  assert (match b :: t with 43 :: t0 => t0 | _ => b :: t end = b :: t) as ->.
  { unfold is_digit in Hb. destruct (decide (b = 43)) as [->|Hne]; [done|].
    destruct b as [|p|p]; try done. repeat (destruct p as [p|p|]; try done). }
  rewrite Hv. simpl. by replace (z <? bound) with true by lia.
Qed.

Lemma digit_not_ws b : is_digit b = true → ws1 b = false.
Proof. unfold is_digit, ws1. lia. Qed.

Lemma words_digits_nil l :
  l ≠ [] → Forall (λ b, is_digit b = true) l → words l = [l].
Proof.
  induction l as [|b l IH]; intros Hn Hd; [done|]. inversion Hd as [|? ? Hb Hl]; subst. simpl.
  rewrite (digit_not_ws b) by done. destruct l as [|b1 l]; [done|].
  inversion Hl; subst. rewrite (digit_not_ws b1) by done. by rewrite IH.
Qed.

Lemma words_digits l k :
  l ≠ [] → Forall (λ b, is_digit b = true) l → words (l ++ 32 :: k) = l :: words k.
Proof.
  induction l as [|b l IH]; intros Hn Hd; [done|]. inversion Hd as [|? ? Hb Hl]; subst. simpl.
  rewrite (digit_not_ws b) by done. destruct l as [|b1 l]; [done|].
  change ((b1 :: l) ++ 32 :: k) with (b1 :: (l ++ 32 :: k)) in *. cbn beta iota.
  inversion Hl; subst. rewrite (digit_not_ws b1) by done. by rewrite IH.
Qed.

(** ASCII text is UTF-8. *)
Lemma utf8_ascii l : Forall (λ b, 0 ≤ b < 128) l → utf8_valid l = true.
Proof.
  induction 1 as [|b l Hb Hl IH]; [done|]. simpl. by replace (b <? 128) with true by lia.
Qed.

(** ** String slicing *)

(** [is_char_boundary]. *)
Definition char_boundary (l : bytes) (i : Z) : bool :=
  (i =? 0) || (i =? zlen l) || match get l i with Some b => negb (cont b) | None => false end.

(** [&s[a..b]]: panics out of range and inside a character. *)
Definition str_slice {E} (l : bytes) (a b : Z) : res E bytes :=
  if char_boundary l a && char_boundary l b then slice l a b else Panic.

(** [s.get(a..b)]. *)
Definition str_get (l : bytes) (a b : Z) : option bytes :=
  if char_boundary l a && char_boundary l b then get_range l a b else None.

Lemma utf8_head_not_cont b t : utf8_valid (b :: t) = true → cont b = false.
Proof.
  simpl. unfold cont, lead2, pair3, pair4. intros H. destruct (b <? 128) eqn:Hb; [lia|].
  destruct t as [|b1 t1]; [discriminate H|]. 
  match type of H with (if ?c then _ else _) = _ => destruct c eqn:H2; [lia|] end.
  destruct t1 as [|b2 t2]; [done|].
  match type of H with (if ?c then _ else _) = _ => destruct c eqn:H3; [lia|] end.
  destruct t2 as [|b3 t3]; [done|]. lia.
Qed.

Lemma utf8_tail b t : b < 128 → utf8_valid (b :: t) = true → utf8_valid t = true.
Proof. intros Hb. simpl. by replace (b <? 128) with true by lia. Qed.

Lemma char_boundary_1 b t : b < 128 → utf8_valid (b :: t) = true → char_boundary (b :: t) 1 = true.
Proof.
  intros Hb Hu. apply (utf8_tail b t Hb) in Hu. unfold char_boundary. destruct t as [|b1 t].
  - done.
  - apply utf8_head_not_cont in Hu. unfold get. rewrite !zlen_cons. pose proof (zlen_nonneg t).
    replace ((0 <=? 1) && (1 <? 1 + (1 + zlen t))) with true by lia. simpl. rewrite Hu. by rewrite orb_true_r.
Qed.

(** An ASCII byte starts a character, and so does what follows it. *)
Lemma char_boundary_ascii l i b : get l i = Some b → b < 128 → char_boundary l i = true.
Proof. intros Hg Hb. unfold char_boundary. rewrite Hg. unfold cont. lia. Qed.

Lemma char_boundary_end l : char_boundary l (zlen l) = true.
Proof. unfold char_boundary. rewrite Z.eqb_refl. by rewrite orb_true_r. Qed.

Lemma char_boundary_all_ascii l i : Forall (λ b, 0 ≤ b < 128) l → 0 ≤ i ≤ zlen l → char_boundary l i = true.
Proof.
  intros Hl Hi. destruct (decide (i = zlen l)) as [->|]; [apply char_boundary_end|].
  destruct (get_is_Some l i) as [b Hb]; [lia|]. apply (char_boundary_ascii l i b Hb).
  apply get_Some in Hb as [_ Hb]. rewrite Forall_lookup in Hl. apply (Hl _ _ Hb).
Qed.

(** In UTF-8 no ASCII byte is followed by a continuation byte; the fact
    survives taking any part of the text. *)
Fixpoint chars_apart (l : bytes) : Prop :=
  match l with
  | a :: ((b :: _) as t) => (128 ≤ a ∨ cont b = false) ∧ chars_apart t
  | _ => True
  end.

Lemma utf8_chars_apart l : utf8_valid l = true → chars_apart l.
Proof.
  assert (∀ n l, (length l < n)%nat → utf8_valid l = true → chars_apart l) as H; [|apply (H (S (length l))); lia].
  clear l. induction n as [|n IH]; intros l Hl Hu; [lia|].
  destruct l as [|b0 t]; [done|]. destruct (Z.lt_ge_cases b0 128) as [Hb|Hb].
  - pose proof (utf8_tail _ _ Hb Hu) as Ht. destruct t as [|b1 t1]; [done|].
    split; [right; by eapply utf8_head_not_cont|]. apply IH; [simpl in *; lia|done].
  - simpl in Hu. replace (b0 <? 128) with false in Hu by lia. destruct t as [|b1 t1]; [done|].
    unfold lead2, pair3, pair4 in Hu.
    match type of Hu with (if ?c then _ else _) = _ => destruct c eqn:H2 end.
    { assert (128 ≤ b1) by (unfold cont in H2; lia). split; [by left|].
      destruct t1 as [|b2 t2]; [done|]. split; [by left|]. apply IH; [simpl in *; lia|done]. }
    destruct t1 as [|b2 t2]; [done|].
    match type of Hu with (if ?c then _ else _) = _ => destruct c eqn:H3 end.
    { assert (128 ≤ b1 ∧ 128 ≤ b2) as [? ?] by (unfold cont in H3; lia). do 2 (split; [by left|]).
      destruct t2 as [|b3 t3]; [done|]. split; [by left|]. apply IH; [simpl in *; lia|done]. }
    destruct t2 as [|b3 t3]; [done|]. bool_prop.
    assert (128 ≤ b1 ∧ 128 ≤ b2 ∧ 128 ≤ b3) as (? & ? & ?) by (unfold cont in *; lia). do 3 (split; [by left|]).
    destruct t3 as [|b4 t4]; [done|]. split; [by left|]. apply IH; [simpl in *; lia|done].
Qed.

Lemma chars_apart_infix k l m : chars_apart (k ++ l ++ m) → chars_apart l.
Proof.
  induction k as [|a k IH]; simpl.
  - induction l as [|a l IH]; [done|]. destruct l as [|b l]; [done|].
    simpl in *. intros [? H]. split; [done|]. by apply IH.
  - intros H. apply IH. destruct (k ++ l ++ m); [done|]. by destruct H.
Qed.

Lemma char_boundary_after b t : b < 128 → chars_apart (b :: t) → char_boundary (b :: t) 1 = true.
Proof.
  intros Hb Hc. unfold char_boundary. destruct t as [|b1 t]; [done|].
  destruct Hc as [[?|Hc] _]; [lia|]. unfold get. rewrite !zlen_cons. pose proof (zlen_nonneg t).
  replace ((0 <=? 1) && (1 <? 1 + (1 + zlen t))) with true by lia. simpl. rewrite Hc. by rewrite orb_true_r.
Qed.

(** ** Pieces and plain text *)

(** A separator byte ends the part before it. *)
Lemma split_on_app c a l : Forall (λ b, b ≠ c) a → split_on c (a ++ c :: l) = a :: split_on c l.
Proof.
  induction 1 as [|b a Hb Ha IH]; cbn [app split_on]; [by rewrite Z.eqb_refl|].
  rewrite (proj2 (Z.eqb_neq b c) Hb), IH. done.
Qed.

Lemma split_on_id d v : Forall (λ b, b ≠ d) v → split_on d v = [v].
Proof. induction 1 as [|b v Hb Hv IH]; [done|]. cbn [split_on]. rewrite (proj2 (Z.eqb_neq b d)) by done. by rewrite IH. Qed.

(** ASCII without spaces. *)
Definition solid (l : bytes) : Prop := Forall (λ b, ws1 b = false ∧ b < 128) l.

Lemma trim_solid_app l k : solid l → l ≠ [] → trim_start (l ++ k) = l ++ k.
Proof.
  intros Hl Hn. destruct l as [|b0 l]; [done|]. apply Forall_cons in Hl as [[H0 ?] Hl]. cbn [app trim_start]. rewrite H0.
  destruct (l ++ k) as [|b1 [|b2 m]]; [done|..]; (replace (ws2 b0 b1) with false by (unfold ws2; lia)); [done|].
  by replace (ws3 b0 b1 b2) with false by (unfold ws3; lia).
Qed.

Lemma trim_rev_solid l : solid l → trim_rev l = l.
Proof.
  intros Hl. destruct l as [|b0 [|b1 [|b2 l]]]; [done|..]; cbn [trim_rev]; repeat (apply Forall_cons in Hl as [[? ?] Hl]);
    repeat match goal with H : ws1 ?b = false |- _ => rewrite H; clear H end; try done.
  - by replace (ws2 b1 b0) with false by (unfold ws2; lia).
  - replace (ws2 b1 b0) with false by (unfold ws2; lia). by replace (ws3 b2 b1 b0) with false by (unfold ws3; lia).
Qed.

Lemma trim_plain l : solid l → trim l = l.
Proof.
  intros Hl. unfold trim, trim_end. destruct l as [|b l]; [done|]. rewrite <- (app_nil_r (b :: l)), trim_solid_app, app_nil_r by done.
  rewrite trim_rev_solid by (by apply Forall_rev). apply rev_involutive.
Qed.

(** A line without spaces is trimmed to what stands before its end. *)
Lemma trim_line l : solid l → l ≠ [] → trim (l ++ [13; 10]) = l.
Proof.
  intros Hl Hn. unfold trim, trim_end. rewrite trim_solid_app by done. rewrite rev_app_distr.
  change (rev [13; 10] ++ rev l) with (10 :: 13 :: rev l). cbn [trim_rev]. change (ws1 10) with true. change (ws1 13) with true.
  rewrite trim_rev_solid by (by apply Forall_rev). apply rev_involutive.
Qed.
