(* ===== verification/F64.v ===== *)
(** IEEE 754 binary64 (and the binary32 values that widen to it) as the program
    computes with them: the standard library's executable [spec_float] with
    round-to-nearest-even, conversions from integers and bit patterns, decimal
    parsing, remainder, and the [{:.n}] formatting of [std::fmt]. NaN carries no
    payload in this model; no operation of the program looks at one. *)
From Stdlib Require Import ZArith Lia.
From Stdlib Require Import Strings.String.
From Stdlib Require Export Floats.SpecFloat.
From S2P Require Export Prelude Text.

Local Open Scope Z_scope.

Abbreviation f64 := spec_float.

#[export] Instance f64_eq_dec : EqDecision f64.
Proof. solve_decision. Defined.

Definition prec64 : Z := 53.
Definition emax64 : Z := 1024.

(** * Arithmetic and comparison *)

Definition f_add : f64 → f64 → f64 := SFadd prec64 emax64.
Definition f_sub : f64 → f64 → f64 := SFsub prec64 emax64.
Definition f_mul : f64 → f64 → f64 := SFmul prec64 emax64.
Definition f_div : f64 → f64 → f64 := SFdiv prec64 emax64.
Definition f_sqrt : f64 → f64 := SFsqrt prec64 emax64.
Definition f_neg : f64 → f64 := SFopp.
Definition f_abs : f64 → f64 := SFabs.
Definition f_eqb : f64 → f64 → bool := SFeqb.
Definition f_ltb : f64 → f64 → bool := SFltb.
Definition f_leb : f64 → f64 → bool := SFleb.

Definition f_zero : f64 := S754_zero false.

(** [is_finite]. *)
Definition is_finite (x : f64) : bool :=
  match x with S754_zero _ | S754_finite _ _ _ => true | _ => false end.

(** [(a..=b).contains(&x)]. *)
Definition in_range (a b x : f64) : bool := f_leb a x && f_leb x b.

(** [n as f64] of an integer. *)
Definition f_of_Z (n : Z) : f64 := binary_normalize prec64 emax64 n 0 false.

(** The value of a decimal literal [n / d], both exact: one correct rounding. *)
Definition f_ratio (n d : Z) : f64 := f_div (f_of_Z n) (f_of_Z d).

Arguments in_range : simpl never.
Arguments f_of_Z : simpl never.
Arguments f_ratio : simpl never.
Arguments f_add : simpl never.
Arguments f_sub : simpl never.
Arguments f_mul : simpl never.
Arguments f_div : simpl never.
Arguments f_sqrt : simpl never.
Arguments f_leb : simpl never.
Arguments f_ltb : simpl never.

(** * Bit patterns *)

(** [from_bits] with [mw] mantissa bits and [ew] exponent bits, before rounding
    to binary64: sign, significand and exponent. *)
Definition f_of_bits (mw ew : Z) (bits : Z) : f64 :=
  let s := Z.testbit bits (mw + ew) in
  let m := bits mod 2 ^ mw in
  let e := (bits / 2 ^ mw) mod 2 ^ ew in
  let bias := 2 ^ (ew - 1) - 1 in
  if e =? 2 ^ ew - 1 then if m =? 0 then S754_infinity s else S754_nan
  else if e =? 0 then
    match m with
    | Zpos p => binary_round prec64 emax64 s p (1 - bias - mw)
    | _ => S754_zero s
    end
  else match m + 2 ^ mw with
    | Zpos p => binary_round prec64 emax64 s p (e - bias - mw)
    | _ => S754_nan
    end.
Definition f64_of_bits : Z → f64 := f_of_bits 52 11.
(** [f32::from_bits(..) as f64]: every binary32 value is a binary64 value. *)
Definition f32_of_bits : Z → f64 := f_of_bits 23 8.

(** * Remainder and angles *)

(** [%]: exact, the sign of the dividend. *)
Definition f_rem (x y : f64) : f64 :=
  match x, y with
  | S754_nan, _ | _, S754_nan | S754_infinity _, _ | _, S754_zero _ => S754_nan
  | _, S754_infinity _ => x
  | S754_zero _, _ => x
  | S754_finite sx mx ex, S754_finite _ my ey =>
      let e := Z.min ex ey in
      let r := (Zpos mx * 2 ^ (ex - e)) mod (Zpos my * 2 ^ (ey - e)) in
      binary_normalize prec64 emax64 (if sx then - r else r) e sx
  end.

(** [rem_euclid]. *)
Definition rem_euclid (x y : f64) : f64 :=
  let r := f_rem x y in
  if f_ltb r f_zero then f_add r (f_abs y) else r.

Definition PI : f64 := S754_finite false 7074237752028440 (-51).
(** [to_degrees] multiplies by the rounded constant [180 / PI]. *)
Definition to_degrees (x : f64) : f64 := f_mul x (f_div (f_of_Z 180) PI).

(** [to_radians] multiplies by the rounded constant [PI / 180]. *)
Definition to_radians (x : f64) : f64 := f_mul x (f_div PI (f_of_Z 180)).

(** [trunc] towards zero as an integer, saturated to [lo, hi]; NaN is 0. *)
Definition f_to_Z (lo hi : Z) (x : f64) : Z :=
  match x with
  | S754_zero _ | S754_nan => 0
  | S754_infinity s => if s then lo else hi
  | S754_finite s m e =>
      let a := if 0 <=? e then Zpos m * 2 ^ e else Zpos m / 2 ^ (- e) in
      Z.max lo (Z.min hi (if s then - a else a))
  end.

(** [round]: to the nearest integer, halves away from zero. *)
Definition f_round (x : f64) : f64 :=
  match x with
  | S754_finite s m e =>
      if 0 <=? e then x
      else
        let d := 2 ^ (- e) in
        let a := (2 * Zpos m + d) / (2 * d) in
        binary_normalize prec64 emax64 (if s then - a else a) 0 s
  | _ => x
  end.

(** * Formatting *)

(** [n / d] rounded to an integer, ties to even. *)
Definition div_half_even (n d : Z) : Z :=
  let q := n / d in
  let r := n mod d in
  if 2 * r <? d then q
  else if d <? 2 * r then q + 1
  else if Z.even q then q else q + 1.

(** [format!("{:.p}", x)]: the exact value rounded half to even at [p]
    decimals; the sign of a negative zero is printed. *)
Definition fmt_fixed (p : nat) (x : f64) : string :=
  let body (s : bool) (n d : Z) :=
    let v := div_half_even (n * 10 ^ Z.of_nat p) d in
    let ip := show_bytes (v / 10 ^ Z.of_nat p) in
    let fp := pad_zeros p (show_bytes (v mod 10 ^ Z.of_nat p)) in
    b2s ((if s then [45] else []) ++ ip ++ match p with O => [] | S _ => 46 :: fp end) in
  match x with
  | S754_nan => "NaN"%string
  | S754_infinity s => if s then "-inf"%string else "inf"%string
  | S754_zero s => body s 0 1
  | S754_finite s m e =>
      if 0 <=? e then body s (Zpos m * 2 ^ e) 1 else body s (Zpos m) (2 ^ (- e))
  end.

(** * Parsing *)

(** The correctly rounded value of [m * 10^e], with magnitudes far outside the
    format decided before any power is computed. *)
Definition f_of_decimal (s : bool) (m e : Z) : f64 :=
  if m =? 0 then S754_zero s
  else
    let nd := zlen (show_bytes m) in
    if 310 <? e + nd then S754_infinity s
    else if e + nd <? -330 then S754_zero s
    else
      match m with
      | Zpos p =>
          if 0 <=? e then binary_normalize prec64 emax64 (if s then - (m * 10 ^ e) else m * 10 ^ e) 0 s
          else
            let '(mz, ez, lz) := SFdiv_core_binary prec64 emax64 m 0 (10 ^ (- e)) 0 in
            binary_round_aux prec64 emax64 s mz ez lz
      | _ => S754_zero s
      end.

Fixpoint span_digits (l : bytes) : bytes * bytes :=
  match l with
  | b :: t => if is_digit b then let '(d, r) := span_digits t in (b :: d, r) else ([], l)
  | [] => ([], [])
  end.

Definition take_sign (l : bytes) : bool * bytes :=
  match l with
  | 45 :: t => (true, t)
  | 43 :: t => (false, t)
  | _ => (false, l)
  end.

Definition digits_Z (l : bytes) : Z := fold_left (λ a b, a * 10 + (b - 48)) l 0.

(** The exponent part: nothing, or [e] or [E], a sign and digits to the end. *)
Definition parse_exp (l : bytes) : option Z :=
  match l with
  | [] => Some 0
  | b :: t =>
      if (b =? 101) || (b =? 69) then
        let '(s, t) := take_sign t in
        let '(d, r) := span_digits t in
        match d, r with
        | _ :: _, [] =>
            (* more than twenty digits is out of range either way *)
            let v := if zlen d <? 20 then digits_Z d else 10 ^ 20 in
            Some (if s then - v else v)
        | _, _ => None
        end
      else None
  end.

(** [str::parse::<f64>().ok()]. *)
Definition parse_f64 (l : bytes) : option f64 :=
  let '(s, t) := take_sign l in
  let low := to_lower <$> t in
  if bool_decide (low = s2b "inf") || bool_decide (low = s2b "infinity") then Some (S754_infinity s)
  else if bool_decide (low = s2b "nan") then Some S754_nan
  else
    let '(ip, r) := span_digits t in
    let '(fp, r) := match r with 46 :: r' => span_digits r' | _ => ([], r) end in
    match ip ++ fp with
    | [] => None
    | ds => x ← parse_exp r; Some (f_of_decimal s (digits_Z ds) (x - zlen fp))
    end.

(** libm's functions, of unspecified precision. *)
Class Trig := { sin : f64 → f64; cos : f64 → f64; asin : f64 → f64; atan2 : f64 → f64 → f64; hypot : f64 → f64 → f64 }.

(** * Facts *)

Lemma f_ltb_nan_l x : f_ltb S754_nan x = false.
Proof. done. Qed.

Lemma in_range_not_nan a b x : in_range a b x = true → x ≠ S754_nan.
Proof. intros H ->. unfold in_range, f_leb, SFleb in H. by destruct a. Qed.

(** A value inside finite bounds is finite. *)
Lemma in_range_finite a b x :
  is_finite a = true → is_finite b = true → in_range a b x = true → is_finite x = true.
Proof.
  unfold in_range, f_leb, SFleb. intros Ha Hb H.
  destruct x as [s|s| |s m e]; [done| |by destruct a|done].
  destruct s, a as [?|[]| |? ? ?], b as [?|[]| |? ? ?]; done.
Qed.

Lemma f_to_Z_range lo hi x : lo ≤ 0 ≤ hi → lo ≤ f_to_Z lo hi x ≤ hi.
Proof. intros H. unfold f_to_Z. destruct x as [| [] | |[] m e]; try lia; destruct (0 <=? e); lia. Qed.

Example f_of_Z_ex : f_of_Z (2 ^ 53 + 1) = f_of_Z (2 ^ 53).
Proof. by vm_compute. Qed.
Example fmt_ex :
  fmt_fixed 1 (f_ratio 35 100) = "0.3"%string ∧ fmt_fixed 0 (f_ratio 5 2) = "2"%string
  ∧ fmt_fixed 2 (f_neg (f_ratio 1234567 1000)) = "-1234.57"%string
  ∧ fmt_fixed 1 (f_neg f_zero) = "-0.0"%string ∧ fmt_fixed 3 (f_ratio 1 16) = "0.062"%string.
Proof. by vm_compute. Qed.
Example parse_f64_ex :
  parse_f64 (s2b "-12.5e1") = Some (f_of_Z (-125)) ∧ parse_f64 (s2b ".") = None
  ∧ parse_f64 (s2b "0.1") = Some (f_ratio 1 10) ∧ parse_f64 (s2b "1e400") = Some (S754_infinity false).
Proof. by vm_compute. Qed.
Example f32_ex : f32_of_bits 0x3FC00000 = f_ratio 3 2 ∧ f64_of_bits 0x3FF8000000000000 = f_ratio 3 2.
Proof. by vm_compute. Qed.
Example rem_ex : rem_euclid (f_of_Z (-90)) (f_of_Z 360) = f_of_Z 270.
Proof. by vm_compute. Qed.
