(* ===== verification/Dyadic.v ===== *)
(** Exact binary64 arithmetic: a dyadic number [n * 2^e] with at most 53
    significant bits is a float, and the operations whose result is such a number
    round nothing. *)
From Stdlib Require Import ZArith Lia.
From S2P Require Export F64.

Local Open Scope Z_scope.

(** * Digits *)

Definition bits (p : positive) : Z := Zpos (digits2_pos p).

Lemma bits_log2 p : bits p = Z.log2 (Zpos p) + 1.
Proof.
  unfold bits. induction p as [p IH|p IH|]; [| |done]; cbn [digits2_pos]; rewrite Pos2Z.inj_succ, IH.
  - change (Zpos p~1) with (2 * Zpos p + 1). by rewrite Z.log2_succ_double.
  - change (Zpos p~0) with (2 * Zpos p). by rewrite Z.log2_double.
Qed.

Lemma bits_pos p : 0 < bits p.
Proof. done. Qed.

Lemma bits_le p k : 0 ≤ k → Zpos p < 2 ^ k → bits p ≤ k.
Proof.
  intros Hk Hp. rewrite bits_log2. enough (Z.log2 (Zpos p) < k) by lia. by apply Z.log2_lt_pow2.
Qed.

Lemma bits_shift p j : 0 ≤ j → Z.log2 (Zpos p * 2 ^ j) + 1 = bits p + j.
Proof. intros. rewrite Z.log2_mul_pow2, bits_log2 by lia. lia. Qed.

Lemma bits_bounds p : 2 ^ (bits p - 1) ≤ Zpos p < 2 ^ bits p.
Proof. rewrite bits_log2, Z.add_simpl_r. pose proof (Z.log2_spec (Zpos p) eq_refl). by rewrite <- Z.add_1_r in H. Qed.

Lemma Zdigits2_pos z : 0 < z → Zdigits2 z = Z.log2 z + 1.
Proof. intros. destruct z as [|p|p]; try done. apply bits_log2. Qed.

(** [p * 2^j]. *)
Definition scale (p : positive) (j : Z) : positive := Z.to_pos (Zpos p * 2 ^ j).

Lemma scale_val p j : 0 ≤ j → Zpos (scale p j) = Zpos p * 2 ^ j.
Proof. intros. unfold scale. rewrite Z2Pos.id; [done|]. pose proof (Z.pow_pos_nonneg 2 j). lia. Qed.

(** * Rounding nothing *)

Lemma iter_shr n : ∀ z, 0 ≤ z →
  SpecFloat.iter_pos shr_1 n (Build_shr_record (z * 2 ^ Zpos n) false false) = Build_shr_record z false false.
Proof.
  assert (∀ z, 0 ≤ z → shr_1 (Build_shr_record (2 * z) false false) = Build_shr_record z false false) as H1
    by (intros [|p|p] ?; done || lia).
  assert (∀ k, 0 ≤ k → ∀ z, 0 ≤ z → 0 ≤ z * 2 ^ k) as Hnn
    by (intros; apply Z.mul_nonneg_nonneg; [done|apply Z.pow_nonneg; lia]).
  induction n as [n IH|n IH|]; intros z Hz; cbn [SpecFloat.iter_pos].
  - assert (z * 2 ^ Zpos n~1 = 2 * (z * 2 ^ Zpos n * 2 ^ Zpos n)) as ->.
    { change (Zpos n~1) with (2 * Zpos n + 1). replace (2 * Zpos n + 1) with (1 + Zpos n + Zpos n) by lia.
      rewrite !Z.pow_add_r by lia. ring. }
    rewrite H1 by (apply Hnn; [lia|apply Hnn; lia]). rewrite IH by (apply Hnn; lia). by apply IH.
  - assert (z * 2 ^ Zpos n~0 = z * 2 ^ Zpos n * 2 ^ Zpos n) as ->.
    { change (Zpos n~0) with (2 * Zpos n). replace (2 * Zpos n) with (Zpos n + Zpos n) by lia.
      rewrite !Z.pow_add_r by lia. ring. }
    rewrite IH by (apply Hnn; lia). by apply IH.
  - change (2 ^ 1) with 2. rewrite Z.mul_comm. by apply H1.
Qed.

Lemma shr_fexp_exact M E j :
  bits M = 53 → 0 ≤ j → -1074 ≤ E →
  shr_fexp prec64 emax64 (Zpos M * 2 ^ j) (E - j) loc_Exact = (Build_shr_record (Zpos M) false false, E).
Proof.
  intros HM Hj HE. unfold shr_fexp. cbn [shr_record_of_loc].
  assert (0 < Zpos M * 2 ^ j) by (pose proof (Z.pow_pos_nonneg 2 j); lia).
  rewrite Zdigits2_pos, bits_shift, HM by lia.
  assert (fexp prec64 emax64 (53 + j + (E - j)) - (E - j) = j) as ->.
  { unfold fexp, emin, prec64, emax64. lia. }
  destruct j as [|p|p]; [| |lia]; cbn [shr].
  - by rewrite Z.mul_1_r, Z.sub_0_r.
  - rewrite iter_shr by lia. by rewrite Z.sub_add.
Qed.

Lemma round_aux_exact s M E j :
  bits M = 53 → 0 ≤ j → -1074 ≤ E ≤ 971 →
  binary_round_aux prec64 emax64 s (Zpos M * 2 ^ j) (E - j) loc_Exact = S754_finite s M E.
Proof.
  intros HM Hj HE. unfold binary_round_aux. rewrite shr_fexp_exact by (done || lia).
  cbn [shr_m loc_of_shr_record round_nearest_even].
  pose proof (shr_fexp_exact M E 0 HM) as H. rewrite Z.mul_1_r, Z.sub_0_r in H. rewrite H by lia.
  cbn [shr_m]. by rewrite (proj2 (Z.leb_le E (emax64 - prec64))) by (unfold emax64, prec64; lia).
Qed.

(** * Dyadic floats *)

(** The normal float of [n * 2^e], [n] of at most 53 bits. *)
Definition mant (n : positive) : positive := scale n (53 - bits n).
Definition expo (n : positive) (e : Z) : Z := e - (53 - bits n).

Definition fits (n e : Z) : Prop := Z.abs n < 2 ^ 53 ∧ -900 ≤ e ≤ 900.

(** [x] is exactly [n * 2^e]. *)
Definition rep (x : f64) (n e : Z) : Prop :=
  fits n e ∧
  match n with
  | Z0 => ∃ s, x = S754_zero s
  | Zpos p => x = S754_finite false (mant p) (expo p e)
  | Zneg p => x = S754_finite true (mant p) (expo p e)
  end.

Lemma fits_bits p e : fits (Zpos p) e → 0 < bits p ≤ 53.
Proof. intros [Hp _]. split; [apply bits_pos|]. apply bits_le; [done|]. exact Hp. Qed.

Lemma mant_val p : bits p ≤ 53 → Zpos (mant p) = Zpos p * 2 ^ (53 - bits p).
Proof. intros. apply scale_val. lia. Qed.

Lemma mant_bits p : bits p ≤ 53 → bits (mant p) = 53.
Proof. intros. rewrite bits_log2, mant_val, bits_shift by lia. lia. Qed.

(** What any normal positive significand and exponent with that value round to. *)
Lemma round_dyadic s m e p e' :
  bits p ≤ 53 → -900 ≤ e' ≤ 900 → 53 ≤ bits m → -3000 ≤ e →
  Zpos m * 2 ^ (e + 3000) = Zpos p * 2 ^ (e' + 3000) →
  binary_round_aux prec64 emax64 s (Zpos m) e loc_Exact = S754_finite s (mant p) (expo p e').
Proof.
  intros Hp He' Hm He Hv. pose proof (bits_pos p). pose proof (mant_val p Hp) as HM. pose proof (mant_bits p Hp) as HMb.
  assert (Zpos m * 2 ^ (e + 3000) = Zpos (mant p) * 2 ^ (expo p e' + 3000)) as Hv'.
  { rewrite Hv, HM. unfold expo. rewrite <- Z.mul_assoc, <- Z.pow_add_r by lia. do 2 f_equal. lia. }
  assert (e ≤ expo p e') as Hle.
  { destruct (Z.le_gt_cases e (expo p e')) as [|Hgt]; [done|]. exfalso.
    pose proof (bits_bounds m) as [Hm1 _]. pose proof (bits_bounds (mant p)) as [_ HM2]. rewrite HMb in HM2.
    assert (2 ^ 52 ≤ 2 ^ (bits m - 1)) by (apply Z.pow_le_mono_r; lia).
    replace (e + 3000) with (1 + (e - 1 - expo p e') + (expo p e' + 3000)) in Hv' by lia.
    rewrite !Z.pow_add_r, Z.mul_assoc in Hv' by (unfold expo in *; lia).
    apply Z.mul_reg_r in Hv'; [|apply Z.pow_nonzero; unfold expo in *; lia].
    pose proof (Z.pow_pos_nonneg 2 (e - 1 - expo p e') ltac:(lia) ltac:(lia)).
    change (2 ^ 53) with (2 * 2 ^ 52) in HM2. change (2 ^ 1) with 2 in Hv'. nia. }
  assert (Zpos m = Zpos (mant p) * 2 ^ (expo p e' - e)) as ->.
  { replace (expo p e' + 3000) with ((expo p e' - e) + (e + 3000)) in Hv' by lia.
    rewrite (Z.pow_add_r 2 (expo p e' - e)), Z.mul_assoc in Hv' by lia. apply Z.mul_reg_r in Hv'; [done|]. apply Z.pow_nonzero; lia. }
  pose proof (round_aux_exact s (mant p) (expo p e') (expo p e' - e) HMb ltac:(lia) ltac:(unfold expo; lia)) as Hr.
  by replace (expo p e' - (expo p e' - e)) with e in Hr by lia.
Qed.

(** The same through [binary_round], for a significand of any length. *)
Lemma binary_round_dyadic s m e p e' :
  bits p ≤ 53 → -900 ≤ e' ≤ 900 → -2000 ≤ e →
  Zpos m * 2 ^ (e + 3000) = Zpos p * 2 ^ (e' + 3000) →
  binary_round prec64 emax64 s m e = S754_finite s (mant p) (expo p e').
Proof.
  intros Hp He' He Hv. unfold binary_round.
  assert (bits m + e = bits p + e') as Hb.
  { rewrite !bits_log2. pose proof (f_equal Z.log2 Hv) as Hl. rewrite !Z.log2_mul_pow2 in Hl by lia. lia. }
  fold (bits m). assert (fexp prec64 emax64 (bits m + e) = expo p e') as ->
    by (unfold fexp, emin, expo, prec64, emax64; pose proof (bits_pos p); lia).
  unfold shl_align. destruct (expo p e' - e) as [|d|d] eqn:Hd; [apply round_dyadic; unfold expo in *; lia..|].
  assert (Zpos (Pos.iter xO m d) = Zpos m * 2 ^ Zpos d) as Hm.
  { rewrite Z.mul_comm. exact (shift_pos_correct d m). }
  apply round_dyadic; try done.
  - rewrite bits_log2, Hm, bits_shift by lia. unfold expo in *. lia.
  - unfold expo in *. pose proof (bits_pos p). lia.
  - rewrite Hm, <- Hv. rewrite <- Z.mul_assoc, <- Z.pow_add_r by (unfold expo in *; pose proof (bits_pos p); lia).
    do 2 f_equal. lia.
Qed.

(** * The operations *)

Lemma rep_of_Z n : Z.abs n < 2 ^ 53 → rep (f_of_Z n) n 0.
Proof.
  intros Hn. split; [split; [done|lia]|]. unfold f_of_Z, binary_normalize.
  destruct n as [|p|p]; [by eexists| |]; apply binary_round_dyadic; try lia; by apply bits_le.
Qed.

Lemma rep_finite x n e : rep x n e → is_finite x = true.
Proof. intros [_ H]. destruct n; [destruct H as [? ->]|rewrite H..]; done. Qed.

Lemma mant_mul p q e f r :
  fits (Zpos p) e → fits (Zpos q) f → Zpos r = Zpos p * Zpos q → fits (Zpos r) (e + f) →
  ∀ s, binary_round_aux prec64 emax64 s (Zpos (mant p * mant q)) (expo p e + expo q f) loc_Exact
       = S754_finite s (mant r) (expo r (e + f)).
Proof.
  intros Hp Hq Hr Hf s. pose proof (fits_bits _ _ Hp). pose proof (fits_bits _ _ Hq). pose proof (fits_bits _ _ Hf).
  pose proof (mant_val p ltac:(lia)) as Mp. pose proof (mant_val q ltac:(lia)) as Mq.
  destruct Hp as [_ Hp], Hq as [_ Hq], Hf as [_ Hf].
  apply round_dyadic; [lia|done| | |].
  - rewrite bits_log2, Pos2Z.inj_mul. pose proof (Z.log2_mul_below (Zpos (mant p)) (Zpos (mant q)) ltac:(lia) ltac:(lia)).
    pose proof (mant_bits p ltac:(lia)) as B1. pose proof (mant_bits q ltac:(lia)) as B2. rewrite bits_log2 in B1, B2. lia.
  - unfold expo. lia.
  - rewrite Pos2Z.inj_mul, Mp, Mq, Hr.
    assert (e + f + 3000 = (53 - bits p) + (53 - bits q) + (expo p e + expo q f + 3000)) as -> by (unfold expo; lia).
    assert (0 ≤ expo p e + expo q f + 3000) as Hx by (unfold expo; lia).
    set (x := expo p e + expo q f + 3000) in *. clearbody x.
    rewrite !Z.pow_add_r by lia. ring.
Qed.

Lemma rep_mul x y n m e f : rep x n e → rep y m f → fits (n * m) (e + f) → rep (f_mul x y) (n * m) (e + f).
Proof.
  intros [Hn Hx] [Hm Hy] Hf. split; [done|].
  destruct n as [|p|p]; [destruct Hx as [sx ->]; rewrite Z.mul_0_l..| |].
  - destruct m as [|q|q]; [destruct Hy as [? ->]|rewrite Hy..]; by eexists.
  - rewrite Hx. destruct m as [|q|q]; [destruct Hy as [? ->]; rewrite Z.mul_0_r; by eexists|rewrite Hy..]; by apply mant_mul.
  - rewrite Hx. destruct m as [|q|q]; [destruct Hy as [? ->]; rewrite Z.mul_0_r; by eexists|rewrite Hy..]; by apply mant_mul.
Qed.

Lemma bits_pow2 k : 0 ≤ k → bits (scale 1 k) = k + 1.
Proof. intros. rewrite bits_log2, scale_val, bits_shift by lia. change (bits 1) with 1. lia. Qed.

Lemma mant_pow2 k : 0 ≤ k < 53 → mant (scale 1 k) = 4503599627370496%positive.
Proof.
  intros Hk. pose proof (bits_pow2 k ltac:(lia)) as Hb.
  apply (inj Zpos). rewrite mant_val, scale_val, Hb by lia.
  rewrite <- Z.mul_assoc, <- Z.pow_add_r by lia. replace (k + (53 - (k + 1))) with 52 by lia. done.
Qed.

(** Division by a power of two. *)
Lemma rep_div_pow2 x n e k :
  rep x n e → 0 ≤ k < 53 → fits n (e - k) → rep (f_div x (f_of_Z (2 ^ k))) n (e - k).
Proof.
  intros [Hn Hx] Hk Hf. split; [done|].
  destruct (rep_of_Z (2 ^ k)) as [Hk2 Hy].
  { rewrite Z.abs_eq by (apply Z.pow_nonneg; lia). apply Z.pow_lt_mono_r; lia. }
  assert (2 ^ k = Zpos (scale 1 k)) as E by (rewrite scale_val by lia; lia). rewrite E in Hy.
  pose proof (bits_pow2 k ltac:(lia)) as Hb.
  rewrite E, Hy, mant_pow2 by lia. set (ey := expo (scale 1 k) 0).
  assert (ey = k - 52) as Hey by (unfold ey, expo; lia).
  assert (∀ p s, fits (Zpos p) e → fits (Zpos p) (e - k) →
    f_div (S754_finite s (mant p) (expo p e)) (S754_finite false 4503599627370496 ey) = S754_finite s (mant p) (expo p (e - k))) as Hd.
  { intros p s [Hp1 Hp2] [_ Hp3]. pose proof (fits_bits p e (conj Hp1 Hp2)). pose proof (mant_bits p ltac:(lia)) as HM.
    unfold f_div, SFdiv, SFdiv_core_binary. cbn [Zdigits2]. fold (bits (mant p)). rewrite HM.
    change (digits2_pos 4503599627370496) with 53%positive.
    assert (Z.min (fexp prec64 emax64 (53 + expo p e - (53 + ey))) (expo p e - ey) = expo p e - ey - 53) as ->
      by (unfold fexp, emin, expo, prec64, emax64 in *; lia).
    replace (expo p e - ey - (expo p e - ey - 53)) with 53 by lia.
    rewrite Z.shiftl_mul_pow2 by lia.
    pose proof (Z_div_exact_full_2 (Zpos (mant p) * 2 ^ 53) 4503599627370496) as _.
    rewrite xorb_false_r.
    change (Z.pos 4503599627370496) with (2 ^ 52). replace (Zpos (mant p) * 2 ^ 53) with (Zpos (mant p) * 2 * 2 ^ 52) by lia.
    assert (Z.div_eucl (Zpos (mant p) * 2 * 2 ^ 52) (2 ^ 52) = (Zpos (mant p) * 2, 0)) as ->.
    { pose proof (Z.div_mul (Zpos (mant p) * 2) (2 ^ 52) ltac:(lia)) as Hq.
      pose proof (Z.mod_mul (Zpos (mant p) * 2) (2 ^ 52) ltac:(lia)) as Hr.
      unfold Z.div, Z.modulo in Hq, Hr. destruct (Z.div_eucl _ _). by subst. }
    change (new_location (2 ^ 52) 0) with loc_Exact.
    pose proof (round_aux_exact s (mant p) (expo p (e - k)) 1 HM ltac:(lia)) as Hr.
    change (2 ^ 1) with 2 in Hr. replace (expo p (e - k) - 1) with (expo p e - ey - 53) in Hr by (unfold expo; lia).
    apply Hr. unfold expo. lia. }
  destruct n as [|p|p]; [destruct Hx as [sx ->]; by eexists| |]; rewrite Hx; by apply Hd.
Qed.

(** * Comparison *)

(** The value, scaled to an integer. *)
Definition val (n e : Z) : Z := n * 2 ^ (e + 1000).

Lemma mant_range p : bits p ≤ 53 → 2 ^ 52 ≤ Zpos (mant p) < 2 ^ 53.
Proof. intros Hp. pose proof (bits_bounds (mant p)) as H. by rewrite mant_bits in H. Qed.

Lemma val_mant p e : fits (Zpos p) e → val (Zpos p) e = Zpos (mant p) * 2 ^ (expo p e + 1000).
Proof.
  intros Hf. pose proof (fits_bits _ _ Hf). destruct Hf as [_ He]. unfold val. rewrite mant_val by lia.
  assert (e + 1000 = (53 - bits p) + (expo p e + 1000)) as -> by (unfold expo; lia).
  rewrite Z.pow_add_r by (unfold expo; lia). ring.
Qed.

Lemma pos_compare p q e f :
  fits (Zpos p) e → fits (Zpos q) f →
  match expo p e ?= expo q f with Lt => Lt | Gt => Gt | Eq => Pos.compare_cont Eq (mant p) (mant q) end
  = (val (Zpos p) e ?= val (Zpos q) f).
Proof.
  intros Hp Hq. rewrite !val_mant by done. pose proof (fits_bits _ _ Hp). pose proof (fits_bits _ _ Hq).
  assert (∀ m m' a b : Z, 2 ^ 52 ≤ m < 2 ^ 53 → 2 ^ 52 ≤ m' < 2 ^ 53 → 0 ≤ a → a < b → m * 2 ^ a < m' * 2 ^ b) as Hlt.
  { intros m m' a b Hm Hm' Ha Hab. replace b with (1 + (b - a - 1) + a) by lia. rewrite !Z.pow_add_r by lia.
    pose proof (Z.pow_pos_nonneg 2 a ltac:(lia) Ha). pose proof (Z.pow_pos_nonneg 2 (b - a - 1) ltac:(lia) ltac:(lia)).
    change (2 ^ 53) with (2 * 2 ^ 52) in *. change (2 ^ 1) with 2. rewrite Z.mul_assoc.
    apply Z.mul_lt_mono_pos_r; [done|]. nia. }
  pose proof (mant_range p ltac:(lia)). pose proof (mant_range q ltac:(lia)).
  destruct Hp as [_ Hp], Hq as [_ Hq].
  destruct (Z.compare_spec (expo p e) (expo q f)) as [->|Hl|Hl]; symmetry.
  - change (Pos.compare_cont Eq (mant p) (mant q)) with (Zpos (mant p) ?= Zpos (mant q)).
    symmetry. apply Zmult_compare_compat_r, Z.lt_gt, Z.pow_pos_nonneg; unfold expo; lia.
  - apply Z.compare_lt_iff, Hlt; unfold expo in *; lia.
  - apply Z.compare_gt_iff, Hlt; unfold expo in *; lia.
Qed.

Lemma val_pos p e : fits (Zpos p) e → 0 < val (Zpos p) e.
Proof. intros [_ He]. unfold val. pose proof (Z.pow_pos_nonneg 2 (e + 1000)). lia. Qed.

Lemma val_neg p e : val (Zneg p) e = - val (Zpos p) e.
Proof. unfold val. lia. Qed.

Lemma fits_neg p e : fits (Zneg p) e → fits (Zpos p) e.
Proof. done. Qed.

Lemma rep_compare x y n m e f : rep x n e → rep y m f → SFcompare x y = Some (val n e ?= val m f).
Proof.
  intros [Hn Hx] [Hm Hy].
  destruct n as [|p|p]; [destruct Hx as [sx ->]|rewrite Hx..];
    (destruct m as [|q|q]; [destruct Hy as [sy ->]|rewrite Hy..]); cbn [SFcompare]; f_equal;
    repeat match goal with H : fits (Zneg _) _ |- _ => apply fits_neg in H end;
    rewrite ?val_neg;
    repeat match goal with H : fits (Zpos ?p) ?e |- _ =>
      lazymatch goal with _ : 0 < val (Zpos p) e |- _ => fail | _ => pose proof (val_pos p e H) end end;
    try (change (val 0 e) with 0); try (change (val 0 f) with 0);
    try (symmetry; first [apply Z.compare_eq_iff | apply Z.compare_lt_iff | apply Z.compare_gt_iff]; lia).
  - by apply pos_compare.
  - rewrite Z.compare_opp, <- (pos_compare q p f e) by done.
    rewrite (Z.compare_antisym (expo p e) (expo q f)).
    destruct (expo p e ?= expo q f) eqn:E; cbn [CompOpp]; try done.
    symmetry. apply Pos.compare_antisym.
Qed.

Lemma rep_leb x y n m e f : rep x n e → rep y m f → f_leb x y = (val n e <=? val m f).
Proof. intros Hx Hy. unfold f_leb, SFleb. rewrite (rep_compare _ _ _ _ _ _ Hx Hy). unfold Z.leb. by destruct (_ ?= _). Qed.

Lemma rep_ltb x y n m e f : rep x n e → rep y m f → f_ltb x y = (val n e <? val m f).
Proof. intros Hx Hy. unfold f_ltb, SFltb. rewrite (rep_compare _ _ _ _ _ _ Hx Hy). unfold Z.ltb. by destruct (_ ?= _). Qed.

(** * Addition and subtraction *)

Lemma shl_align_val m e e' : e' ≤ e → Zpos (fst (shl_align m e e')) = Zpos m * 2 ^ (e - e').
Proof.
  intros He. unfold shl_align. destruct (e' - e) as [|d|d] eqn:Hd; [|lia|]; cbn [fst].
  - replace (e - e') with 0 by lia. lia.
  - replace (e - e') with (Zpos d) by lia. rewrite Z.mul_comm. exact (shift_pos_correct d m).
Qed.

Lemma normalize_rep d e n g :
  fits n g → -1000 ≤ e → d * 2 ^ (e + 1000) = n * 2 ^ (g + 1000) → rep (binary_normalize prec64 emax64 d e false) n g.
Proof.
  intros Hf He Hv. pose proof Hf as [Hn Hg]. split; [done|].
  pose proof (Z.pow_pos_nonneg 2 (e + 1000) ltac:(lia) ltac:(lia)).
  pose proof (Z.pow_pos_nonneg 2 (g + 1000) ltac:(lia) ltac:(lia)).
  assert (∀ p q s, Zpos p * 2 ^ (e + 1000) = Zpos q * 2 ^ (g + 1000) → Zpos q < 2 ^ 53 →
    binary_round prec64 emax64 s p e = S754_finite s (mant q) (expo q g)) as Hb.
  { intros p q s Hpq Hq. apply binary_round_dyadic; [by apply bits_le|done|lia|].
    replace (e + 3000) with (e + 1000 + 2000) by lia. replace (g + 3000) with (g + 1000 + 2000) by lia.
    rewrite (Z.pow_add_r 2 (e + 1000)), (Z.pow_add_r 2 (g + 1000)) by lia. by rewrite !Z.mul_assoc, Hpq. }
  unfold binary_normalize. destruct d as [|p|p], n as [|q|q]; try (exfalso; nia); [by eexists|..]; apply Hb; lia.
Qed.

Lemma rep_val_eq x n e m g : rep x n e → fits m g → val n e = val m g → rep x m g.
Proof.
  intros [Hn Hx] Hm Hv. split; [done|].
  assert (∀ p q, fits (Zpos p) e → fits (Zpos q) g → val (Zpos p) e = val (Zpos q) g → mant p = mant q ∧ expo p e = expo q g) as H.
  { intros p q Hp Hq Hpq. pose proof (pos_compare p q e g Hp Hq) as Hc. rewrite Hpq, Z.compare_refl in Hc.
    destruct (Z.compare_spec (expo p e) (expo q g)) as [He|?|?]; try done. split; [|done].
    by apply Pos.compare_eq. }
  destruct n as [|p|p], m as [|q|q]; rewrite ?val_neg in Hv; try done;
    repeat match goal with H : fits (Zneg _) _ |- _ => apply fits_neg in H end;
    repeat match goal with H : fits (Zpos ?p) ?e |- _ =>
      lazymatch goal with _ : 0 < val (Zpos p) e |- _ => fail | _ => pose proof (val_pos p e H) end end;
    try (exfalso; unfold val in *; lia).
  all: edestruct (H p q) as [E1 E2]; [done|done|lia|]; by rewrite Hx, E1, E2.
Qed.

Lemma rep_opp x n e : rep x n e → rep (SFopp x) (- n) e.
Proof.
  intros [[Hn He] Hx]. split; [split; [by rewrite Z.abs_opp|done]|].
  destruct n; [destruct Hx as [? ->]; by eexists|rewrite Hx..]; done.
Qed.

Lemma rep_add x y n m r e f g :
  rep x n e → rep y m f → fits r g → val n e + val m f = val r g → rep (f_add x y) r g.
Proof.
  intros Hx Hy Hr Hv. destruct (decide (n = 0)) as [->|Hn0].
  { destruct Hx as [Hfx [sx ->]]. change (val 0 e) with 0 in Hv. rewrite Z.add_0_l in Hv.
    pose proof (rep_val_eq _ _ _ _ _ Hy Hr Hv) as [_ Hy']. destruct Hy as [_ Hy]. split; [done|].
    destruct r as [|p|p]; [destruct Hy' as [s ->]; by destruct sx, s; eexists|rewrite Hy'; done..]. }
  destruct (decide (m = 0)) as [->|Hm0].
  { destruct Hy as [Hfy [sy ->]]. change (val 0 f) with 0 in Hv. rewrite Z.add_0_r in Hv.
    pose proof (rep_val_eq _ _ _ _ _ Hx Hr Hv) as [_ Hx']. split; [done|].
    destruct r as [|p|p]; [destruct Hx' as [s ->]; by destruct sy, s; eexists|rewrite Hx'; done..]. }
  assert (∀ n e x, rep x n e → n ≠ 0 → ∃ s p, x = S754_finite s (mant p) (expo p e) ∧ fits (Zpos p) e ∧ n = cond_Zopp s (Zpos p)) as Hs.
  { intros k i z [Hf Hz] Hk. destruct k as [|p|p]; [done|exists false, p|exists true, p]; by split_and!. }
  destruct (Hs _ _ _ Hx Hn0) as (s & p & -> & Hp & ->), (Hs _ _ _ Hy Hm0) as (t & q & -> & Hq & ->).
  unfold f_add, SFadd. pose proof (fits_bits _ _ Hp). pose proof (fits_bits _ _ Hq).
  set (ez := Z.min (expo p e) (expo q f)).
  assert (-960 ≤ ez) as Hez by (destruct Hp as [_ ?], Hq as [_ ?]; unfold ez, expo; lia).
  apply normalize_rep; [done|lia|]. rewrite !shl_align_val by lia.
  change (r * 2 ^ (g + 1000)) with (val r g). rewrite <- Hv.
  assert (∀ s p e, fits (Zpos p) e → ez ≤ expo p e →
    cond_Zopp s (Zpos (mant p) * 2 ^ (expo p e - ez)) * 2 ^ (ez + 1000) = val (cond_Zopp s (Zpos p)) e) as Hc.
  { intros u k i Hk Hle. assert (Zpos (mant k) * 2 ^ (expo k i - ez) * 2 ^ (ez + 1000) = val (Zpos k) i) as Hu.
    { rewrite val_mant by done. rewrite <- Z.mul_assoc, <- Z.pow_add_r by lia. do 2 f_equal. lia. }
    destruct u; cbn [cond_Zopp]; [|done]. change (- Zpos k) with (Zneg k). rewrite val_neg. lia. }
  rewrite Z.mul_add_distr_r, !Hc by (done || lia). done.
Qed.

Lemma rep_sub x y n m r e f g :
  rep x n e → rep y m f → fits r g → val n e - val m f = val r g → rep (f_sub x y) r g.
Proof.
  intros Hx Hy Hr Hv. assert (f_sub x y = f_add x (SFopp y)) as ->.
  { destruct Hx as [_ Hx], Hy as [_ Hy].
    destruct n; [destruct Hx as [sx ->]|rewrite Hx..]; (destruct m; [destruct Hy as [sy ->]|rewrite Hy..]); try done;
      try (by destruct sx, sy); unfold f_sub, f_add, SFsub, SFadd; cbn [SFopp negb cond_Zopp]; f_equal; lia. }
  eapply rep_add; [done|by apply rep_opp|done|]. rewrite <- Hv. unfold val. lia.
Qed.

(** Between two integers. *)
Lemma rep_in_range a b x n e :
  Z.abs a < 2 ^ 53 → Z.abs b < 2 ^ 53 → rep x n e → val a 0 ≤ val n e ≤ val b 0 →
  in_range (f_of_Z a) (f_of_Z b) x = true.
Proof.
  intros Ha Hb Hx Hv. unfold in_range.
  rewrite (rep_leb _ _ _ _ _ _ (rep_of_Z a Ha) Hx), (rep_leb _ _ _ _ _ _ Hx (rep_of_Z b Hb)).
  apply andb_true_iff. split; apply Z.leb_le; lia.
Qed.
