(* ===== verification/Event.v ===== *)
(** The canonical event and its builder
    (rust/ajar-connector/src/builder.rs, error.rs and contract/event.proto),
    with the boot-time and per-event helpers of identity.rs. *)
From Stdlib Require Import ZArith Lia.
From Stdlib Require Import Strings.String Strings.Ascii.
From Stdlib Require Export Sorted.
From S2P Require Export F64.

Local Open Scope Z_scope.

(** * Keys in order *)

(** [String]'s [Ord]: bytewise lexicographic. *)
Definition key_leb (a b : string * string) : bool := String.leb a.1 b.1.
Definition key_le (a b : string * string) : Prop := key_leb a b = true.
Definition key_lt (a b : string * string) : Prop := String.compare a.1 b.1 = Lt.

Lemma ascii_compare_refl a : Ascii.compare a a = Eq.
Proof. apply N.compare_refl. Qed.

Lemma string_compare_refl s : String.compare s s = Eq.
Proof. induction s as [|a s IH]; simpl; [done|]. by rewrite ascii_compare_refl. Qed.

Lemma string_compare_trans s t u c :
  String.compare s t = c → String.compare t u = c → String.compare s u = c.
Proof.
  revert t u. induction s as [|a s IH]; intros [|b t] [|d u]; simpl; try (destruct c; done).
  unfold Ascii.compare.
  destruct (N.compare_spec (N_of_ascii a) (N_of_ascii b)) as [Hab|Hab|Hab];
    destruct (N.compare_spec (N_of_ascii b) (N_of_ascii d)) as [Hbd|Hbd|Hbd];
    destruct (N.compare_spec (N_of_ascii a) (N_of_ascii d)) as [Had|Had|Had];
    try (destruct c; done); try lia; eauto.
Qed.

Lemma key_leb_trans a b c : key_le a b → key_le b c → key_le a c.
Proof.
  unfold key_le, key_leb, String.leb.
  destruct (String.compare a.1 b.1) eqn:Hab; [| |done];
    destruct (String.compare b.1 c.1) eqn:Hbc; try done; intros _ _.
  - by rewrite (string_compare_trans _ _ _ _ Hab Hbc).
  - apply String.compare_eq_iff in Hab. by rewrite Hab, Hbc.
  - apply String.compare_eq_iff in Hbc. by rewrite <- Hbc, Hab.
  - by rewrite (string_compare_trans _ _ _ _ Hab Hbc).
Qed.

Lemma key_lt_trans a b c : key_lt a b → key_lt b c → key_lt a c.
Proof. apply string_compare_trans. Qed.

Lemma key_lt_ne a b : key_lt a b → a.1 ≠ b.1.
Proof. unfold key_lt. intros H He. by rewrite He, string_compare_refl in H. Qed.

Lemma key_le_lt a b : key_le a b → a.1 ≠ b.1 → key_lt a b.
Proof.
  unfold key_le, key_leb, key_lt, String.leb.
  destruct (String.compare a.1 b.1) eqn:H; [|done|done].
  intros _ Hne. by apply String.compare_eq_iff in H.
Qed.

(** [sort_by(|a, b| a.0.cmp(&b.0))]: a stable sort. *)
Fixpoint insert_key (x : string * string) (l : list (string * string)) : list (string * string) :=
  match l with
  | [] => [x]
  | y :: l => if key_leb x y then x :: y :: l else y :: insert_key x l
  end.
Fixpoint sort_keys (l : list (string * string)) : list (string * string) :=
  match l with [] => [] | x :: l => insert_key x (sort_keys l) end.

(** The first key two neighbours share, as [windows(2)] finds it. *)
Fixpoint first_dup (l : list (string * string)) : option string :=
  match l with
  | a :: ((b :: _) as t) => if String.eqb a.1 b.1 then Some a.1 else first_dup t
  | _ => None
  end.

Lemma insert_key_perm x l : insert_key x l ≡ₚ x :: l.
Proof.
  induction l as [|y l IH]; simpl; [done|]. destruct (key_leb x y); [done|].
  rewrite IH. apply perm_swap.
Qed.

Lemma sort_keys_perm l : sort_keys l ≡ₚ l.
Proof. induction l as [|x l IH]; simpl; [done|]. by rewrite insert_key_perm, IH. Qed.

Lemma insert_key_sorted x l : StronglySorted key_le l → StronglySorted key_le (insert_key x l).
Proof.
  induction 1 as [|y l Hl IH Hy]; simpl; [by repeat constructor|].
  destruct (key_leb x y) eqn:Hxy.
  - constructor; [by constructor|]. constructor; [done|].
    eapply Forall_impl; [exact Hy|]. intros z. by apply key_leb_trans.
  - constructor; [done|].
    assert (key_le y x) by (destruct (String.leb_total x.1 y.1) as [H|H];
      [unfold key_leb in Hxy; congruence|done]).
    rewrite insert_key_perm. by constructor.
Qed.

Lemma sort_keys_sorted l : StronglySorted key_le (sort_keys l).
Proof. induction l; simpl; [constructor|by apply insert_key_sorted]. Qed.

(** Sorted without equal neighbours is strictly sorted, and conversely. *)
Lemma first_dup_None l :
  StronglySorted key_le l → first_dup l = None → StronglySorted key_lt l.
Proof.
  induction 1 as [|a l Hl IH Ha]; [constructor|].
  destruct l as [|b l]; [intros; repeat constructor|].
  simpl. destruct (String.eqb_spec a.1 b.1) as [|Hne]; [done|]. intros Hd.
  specialize (IH Hd). constructor; [done|].
  assert (key_lt a b) by (apply key_le_lt; [by inversion Ha|done]).
  constructor; [done|]. inversion IH as [|? ? _ Hb]; subst.
  eapply Forall_impl; [exact Hb|]. intros z. by apply key_lt_trans.
Qed.

Lemma first_dup_Some l k :
  first_dup l = Some k → ∃ p v w q, l = p ++ (k, v) :: (k, w) :: q.
Proof.
  induction l as [|a [|b l] IH]; simpl; try done.
  destruct (String.eqb_spec a.1 b.1) as [He|Hne].
  - intros [= <-]. exists [], a.2, b.2, l. destruct a, b; simpl in *. by subst.
  - intros (p & v & w & q & Hl)%IH. exists (a :: p), v, w, q. by rewrite Hl.
Qed.

Lemma strictly_sorted_NoDup l : StronglySorted key_lt l → NoDup l.*1.
Proof.
  induction 1 as [|a l Hl IH Ha]; simpl; constructor; [|done].
  intros (b & Hb & Hin)%list_elem_of_fmap. rewrite Forall_forall in Ha.
  by apply (key_lt_ne a b); [apply Ha|].
Qed.

(** A list has a duplicate key exactly when its sort has equal neighbours. *)
Lemma sort_keys_dup l : first_dup (sort_keys l) = None ↔ NoDup l.*1.
Proof.
  split.
  - intros H%first_dup_None; [|apply sort_keys_sorted].
    apply strictly_sorted_NoDup in H. by rewrite (sort_keys_perm l) in H.
  - intros H. destruct (first_dup (sort_keys l)) as [k|] eqn:Hd; [|done].
    apply first_dup_Some in Hd as (p & v & w & q & Hs).
    rewrite <- (sort_keys_perm l), Hs, fmap_app in H. simpl in H.
    apply NoDup_app in H as (_ & _ & H). apply NoDup_cons in H as [H _].
    destruct H. left.
Qed.

(** Two strictly sorted lists with the same elements are equal. *)
Lemma strictly_sorted_unique l k :
  StronglySorted key_lt l → StronglySorted key_lt k → l ≡ₚ k → l = k.
Proof.
  intros Hl. revert k. induction Hl as [|a l Hl IH Ha]; intros k Hk Hp.
  - by apply Permutation_nil in Hp.
  - destruct Hk as [|b k Hk Hb]; [by apply Permutation_sym, Permutation_nil in Hp|].
    assert (a = b) as ->.
    { assert (a ∈ b :: k) as Hin by (rewrite <- Hp; left).
      assert (b ∈ a :: l) as Hin' by (rewrite Hp; left).
      apply elem_of_cons in Hin as [|Hin]; [done|].
      apply elem_of_cons in Hin' as [|Hin']; [done|].
      rewrite Forall_forall in Ha, Hb. specialize (Ha b Hin'). specialize (Hb a Hin).
      pose proof (key_lt_trans _ _ _ Ha Hb) as Hc.
      unfold key_lt in Hc. by rewrite string_compare_refl in Hc. }
    f_equal. apply IH; [done|]. by apply Permutation_cons_inv in Hp.
Qed.

(** * Data *)

(** [rust/ajar-connector/contract/event.proto:79-83] *)
Record GeoPoint := mkGeoPoint {
  latitude : f64;
  longitude : f64;
  altitude_m : f64
}.

(** [rust/ajar-connector/contract/event.proto:72-77] *)
Record Attribute := mkAttribute { key : string; value : string }.

(** The generated message type of the contract, field for field. *)
Record Event := mkEvent {
  schema_version : string;
  ev_id : string;
  ev_source_id : string;
  ev_entity_type : string;
  ev_timestamp : string;
  received_at : string;
  ev_location : option GeoPoint;
  ev_payload : bytes;
  ev_policy_tags : list string;
  ev_confidence : f64;
  ev_attributes : list Attribute;
  ev_metadata : list Attribute
}.

(** @src rust/ajar-connector/src/error.rs 6-48 BuildError *)
Inductive BuildError :=
| MissingField (name : string)
| DuplicateAttributeKey (k : string)
| TooManyAttributes (count max : Z)
| DuplicateMetadataKey (k : string)
| TooManyMetadata (count max : Z)
| TooManyPolicyTags (count max : Z)
| UnnamespacedEntityType (t : string)
| ConfidenceOutOfRange (c : f64)
| InvalidTimestamp (t : string)
| InvalidLocation (lat lon : f64).

(** @src rust/ajar-connector/src/builder.rs 8-13 MAX_ATTRIBUTES *)
Definition MAX_ATTRIBUTES : Z := 128.
Definition MAX_METADATA : Z := 128.
Definition MAX_POLICY_TAGS : Z := 64.
(** @src rust/ajar-connector/src/builder.rs 15-15 SCHEMA_VERSION *)
Definition SCHEMA_VERSION : string := "v1".

(** @src rust/ajar-connector/src/builder.rs 17-37 EventBuilder *)
Record EventBuilder := mkBuilder {
  source_id : string;
  entity_type : string;
  id : option string;
  timestamp : option string;
  location : option GeoPoint;
  payload : bytes;
  policy_tags : list string;
  confidence : f64;
  attributes : list (string * string);
  metadata : list (string * string);
  strict_entity_namespace : bool
}.

(** * The setters *)

(** @src rust/ajar-connector/src/builder.rs 39-56 EventBuilder::new *)
Definition builder_new (src ty : string) : EventBuilder :=
  mkBuilder src ty None None None [] [] f_zero [] [] true.

(** @src rust/ajar-connector/src/builder.rs 58-63 EventBuilder::id *)
Definition set_id (v : string) (b : EventBuilder) : EventBuilder :=
  mkBuilder (source_id b) (entity_type b) (Some v) (timestamp b) (location b) (payload b)
    (policy_tags b) (confidence b) (attributes b) (metadata b) (strict_entity_namespace b).

(** @src rust/ajar-connector/src/builder.rs 71-75 EventBuilder::timestamp *)
Definition set_timestamp (v : string) (b : EventBuilder) : EventBuilder :=
  mkBuilder (source_id b) (entity_type b) (id b) (Some v) (location b) (payload b)
    (policy_tags b) (confidence b) (attributes b) (metadata b) (strict_entity_namespace b).

(** What the environment supplies at a call: the UUIDv7 [new_id] draws, the
    formatted wall clock [now] reads, and [Instant::now()] in nanoseconds. *)
Record Env := mkEnv { env_uuid : string; env_now : string; env_clock : Z }.

(** @src rust/ajar-connector/src/builder.rs 65-69 EventBuilder::new_id *)
Definition new_id (env : Env) : EventBuilder → EventBuilder := set_id (env_uuid env).
(** @src rust/ajar-connector/src/builder.rs 77-86 EventBuilder::now *)
Definition now (env : Env) : EventBuilder → EventBuilder := set_timestamp (env_now env).

(** @src rust/ajar-connector/src/builder.rs 88-96 EventBuilder::location *)
Definition set_location (lat lon alt : f64) (b : EventBuilder) : EventBuilder :=
  mkBuilder (source_id b) (entity_type b) (id b) (timestamp b) (Some (mkGeoPoint lat lon alt))
    (payload b) (policy_tags b) (confidence b) (attributes b) (metadata b)
    (strict_entity_namespace b).

(** @src rust/ajar-connector/src/builder.rs 98-103 EventBuilder::payload *)
Definition set_payload (v : bytes) (b : EventBuilder) : EventBuilder :=
  mkBuilder (source_id b) (entity_type b) (id b) (timestamp b) (location b) v
    (policy_tags b) (confidence b) (attributes b) (metadata b) (strict_entity_namespace b).

(** @src rust/ajar-connector/src/builder.rs 105-109 EventBuilder::policy_tag *)
Definition policy_tag (v : string) (b : EventBuilder) : EventBuilder :=
  mkBuilder (source_id b) (entity_type b) (id b) (timestamp b) (location b) (payload b)
    (policy_tags b ++ [v]) (confidence b) (attributes b) (metadata b) (strict_entity_namespace b).

(** @src rust/ajar-connector/src/builder.rs 111-115 EventBuilder::confidence *)
Definition set_confidence (v : f64) (b : EventBuilder) : EventBuilder :=
  mkBuilder (source_id b) (entity_type b) (id b) (timestamp b) (location b) (payload b)
    (policy_tags b) v (attributes b) (metadata b) (strict_entity_namespace b).

(** @src rust/ajar-connector/src/builder.rs 117-122 EventBuilder::attribute *)
Definition attribute (k v : string) (b : EventBuilder) : EventBuilder :=
  mkBuilder (source_id b) (entity_type b) (id b) (timestamp b) (location b) (payload b)
    (policy_tags b) (confidence b) (attributes b ++ [(k, v)]) (metadata b)
    (strict_entity_namespace b).

(** @src rust/ajar-connector/src/builder.rs 124-131 EventBuilder::metadata *)
Definition add_metadata (k v : string) (b : EventBuilder) : EventBuilder :=
  mkBuilder (source_id b) (entity_type b) (id b) (timestamp b) (location b) (payload b)
    (policy_tags b) (confidence b) (attributes b) (metadata b ++ [(k, v)])
    (strict_entity_namespace b).

(** @src rust/ajar-connector/src/builder.rs 133-137 EventBuilder::allow_unnamespaced_entity_type *)
Definition allow_unnamespaced_entity_type (b : EventBuilder) : EventBuilder :=
  mkBuilder (source_id b) (entity_type b) (id b) (timestamp b) (location b) (payload b)
    (policy_tags b) (confidence b) (attributes b) (metadata b) false.

(** [if let Some(v) = o { b = f(v)(b) }]. *)
Definition on_some {A} (o : option A) (f : A → EventBuilder → EventBuilder)
    (b : EventBuilder) : EventBuilder :=
  match o with Some v => f v b | None => b end.
Definition on_true (c : bool) (f : EventBuilder → EventBuilder) (b : EventBuilder) : EventBuilder :=
  if c then f b else b.

(** @src rust/connectors/common/src/identity.rs 8-9 MAX_ALT_ID_LEN *)
Definition MAX_ALT_ID_LEN : Z := 128.

(** @src rust/connectors/common/src/identity.rs 11-32 GovernedIdentity::identity *)
Definition identity (standard i : string) (b : EventBuilder) : EventBuilder :=
  if String.eqb i "" || (MAX_ALT_ID_LEN <? Z.of_nat (String.length i)) then b
  else attribute "alt_id_standard" standard (attribute "alt_id" i b).

(** * Timestamps *)

Section rfc3339.
Context {E : Type}.
Variable b : bytes.

Definition rfc_d (i : Z) : bool := match get b i with Some x => is_digit x | None => false end.
Definition rfc_c (i ch : Z) : bool := bool_decide (get b i = Some ch).

(** The [u32] fold, with the subtraction and the multiplication checked. *)
Fixpoint rfc_fold (acc : Z) (l : bytes) : res E Z :=
  match l with
  | [] => Ok acc
  | x :: l =>
      if (x <? 48) || (2 ^ 32 <=? acc * 10 + (x - 48)) then Panic
      else rfc_fold (acc * 10 + (x - 48)) l
  end.
Definition rfc_num (i n : Z) : res E Z := s ← slice b i (i + n); rfc_fold 0 s.

Definition rfc_digits (i : Z) (n : nat) : bool :=
  forallb (λ k, rfc_d (i + Z.of_nat k)) (seq 0 n).

(** The [while d(i)] loop. *)
Fixpoint rfc_skip (fuel : nat) (i : Z) : res E Z :=
  match fuel with
  | O => NoFuel
  | S fuel => if rfc_d i then rfc_skip fuel (i + 1) else Ok i
  end.

(** The zone designator at [i], to the end of the text. *)
Definition rfc_zone (i : Z) : res E bool :=
  match get b i with
  | None => Ok false
  | Some z =>
      if (z =? 90) || (z =? 122) then Ok (i + 1 =? zlen b)
      else if (z =? 43) || (z =? 45) then
        if rfc_digits (i + 1) 2 && rfc_c (i + 3) 58 && rfc_digits (i + 4) 2
           && (i + 6 =? zlen b)
        then h ← rfc_num (i + 1) 2;
             if h <=? 23 then m ← rfc_num (i + 4) 2; Ok (m <=? 59) else Ok false
        else Ok false
      else Ok false
  end.

(** The optional fraction at 19, then the zone. *)
Definition rfc_tail : res E bool :=
  fr ← (if rfc_c 19 46
        then j ← rfc_skip (S (length b)) 20; Ok (if j =? 20 then None else Some j)
        else Ok (Some 19));
  match fr with
  | None => Ok false
  | Some i => rfc_zone i
  end.

(** @src rust/ajar-connector/src/builder.rs 228-293 is_rfc3339 *)
Definition is_rfc3339 : res E bool :=
  if zlen b <? 20 then Ok false
  else if negb (rfc_digits 0 4 && rfc_c 4 45 && rfc_digits 5 2 && rfc_c 7 45 && rfc_digits 8 2
    && (rfc_c 10 84 || rfc_c 10 116) && rfc_digits 11 2 && rfc_c 13 58 && rfc_digits 14 2
    && rfc_c 16 58 && rfc_digits 17 2)
  then Ok false
  else
    mo ← rfc_num 5 2; da ← rfc_num 8 2; ho ← rfc_num 11 2; mi ← rfc_num 14 2; se ← rfc_num 17 2;
    if negb ((1 <=? mo) && (mo <=? 12) && (1 <=? da) && (da <=? 31)
      && (ho <=? 23) && (mi <=? 59) && (se <=? 60))
    then Ok false
    else
      rfc_tail.
End rfc3339.

(** @src rust/ajar-connector/src/builder.rs 295-307 is_namespaced *)
Definition is_namespaced (ty : string) : bool :=
  let b := s2b ty in
  match strip_prefix (s2b "mim:") b with
  | Some rest => negb (bool_decide (rest = [])) && negb (has_byte 58 rest)
  | None =>
      match strip_prefix (s2b "x:") b with
      | Some rest =>
          (* [splitn(2, ':')]: up to the first colon, then everything after it *)
          match find_byte 58 rest with
          | Some k =>
              let vendor := take (Z.to_nat k) rest in
              let t := drop (Z.to_nat (k + 1)) rest in
              negb (bool_decide (vendor = [])) && negb (bool_decide (t = []))
              && negb (has_byte 58 t)
          | None => false
          end
      | None => false
      end
  end.

(** * Building *)

Definition location_ok (l : GeoPoint) : bool :=
  is_finite (latitude l) && is_finite (longitude l) && is_finite (altitude_m l)
  && in_range (f_of_Z (-90)) (f_of_Z 90) (latitude l)
  && in_range (f_of_Z (-180)) (f_of_Z 180) (longitude l).

Definition to_attrs (l : list (string * string)) : list Attribute :=
  (λ kv, mkAttribute kv.1 kv.2) <$> l.

(** @src rust/ajar-connector/src/builder.rs 139-226 EventBuilder::build *)
Definition build (b : EventBuilder) : res BuildError Event :=
  i ← ok_or (MissingField "id") (id b);
  ts ← ok_or (MissingField "timestamp") (timestamp b);
  ok ← is_rfc3339 (s2b ts);
  guard_res ok (InvalidTimestamp ts) ;;
  match location b with
  | Some l => guard_res (location_ok l) (InvalidLocation (latitude l) (longitude l))
  | None => Ok tt
  end ;;
  guard_res (negb (String.eqb (source_id b) "")) (MissingField "source_id") ;;
  guard_res (negb (String.eqb (entity_type b) "")) (MissingField "entity_type") ;;
  guard_res (negb (strict_entity_namespace b && negb (is_namespaced (entity_type b))))
    (UnnamespacedEntityType (entity_type b)) ;;
  guard_res (in_range f_zero (f_of_Z 1) (confidence b)) (ConfidenceOutOfRange (confidence b)) ;;
  guard_res (zlen (policy_tags b) <=? MAX_POLICY_TAGS)
    (TooManyPolicyTags (zlen (policy_tags b)) MAX_POLICY_TAGS) ;;
  guard_res (zlen (attributes b) <=? MAX_ATTRIBUTES)
    (TooManyAttributes (zlen (attributes b)) MAX_ATTRIBUTES) ;;
  guard_res (zlen (metadata b) <=? MAX_METADATA)
    (TooManyMetadata (zlen (metadata b)) MAX_METADATA) ;;
  let attrs := sort_keys (attributes b) in
  match first_dup attrs with
  | Some k => Err (DuplicateAttributeKey k)
  | None =>
      let meta := sort_keys (metadata b) in
      match first_dup meta with
      | Some k => Err (DuplicateMetadataKey k)
      | None =>
          Ok (mkEvent SCHEMA_VERSION i (source_id b) (entity_type b) ts "" (location b) (payload b)
                (policy_tags b) (confidence b) (to_attrs attrs) (to_attrs meta))
      end
  end.

(** * The timestamp grammar *)

Definition two_digits (lo hi : Z) (l : bytes) : Prop :=
  ∃ x y, l = [x; y] ∧ is_digit x = true ∧ is_digit y = true
    ∧ lo ≤ (x - 48) * 10 + (y - 48) ≤ hi.

Definition rfc_fraction (l : bytes) : Prop :=
  l = [] ∨ ∃ ds, l = 46 :: ds ∧ ds ≠ [] ∧ Forall (λ x, is_digit x = true) ds.

Definition rfc_offset (l : bytes) : Prop :=
  l = [90] ∨ l = [122]
  ∨ ∃ sg h m, l = sg :: h ++ 58 :: m ∧ (sg = 43 ∨ sg = 45) ∧ two_digits 0 23 h ∧ two_digits 0 59 m.

(** [YYYY-MM-DDThh:mm:ss[.frac](Z|+hh:mm|-hh:mm)] with in-range components. *)
Definition Rfc3339 (l : bytes) : Prop :=
  ∃ y0 y1 y2 y3 mo da t ho mi se fr z,
    l = [y0; y1; y2; y3; 45] ++ mo ++ 45 :: da ++ t :: ho ++ 58 :: mi ++ 58 :: se ++ fr ++ z
    ∧ Forall (λ x, is_digit x = true) [y0; y1; y2; y3]
    ∧ two_digits 1 12 mo ∧ two_digits 1 31 da ∧ (t = 84 ∨ t = 116)
    ∧ two_digits 0 23 ho ∧ two_digits 0 59 mi ∧ two_digits 0 60 se
    ∧ rfc_fraction fr ∧ rfc_offset z.

Lemma get_cons {A} (x : A) l i :
  get (x :: l) i = if i =? 0 then Some x else if i <? 0 then None else get l (i - 1).
Proof.
  unfold get. rewrite zlen_cons.
  destruct (i =? 0) eqn:H0; bool_prop.
  { subst. pose proof (zlen_nonneg l). by replace (0 <? 1 + zlen l) with true by lia. }
  destruct (i <? 0) eqn:H1; bool_prop.
  { by replace (0 <=? i) with false by lia. }
  replace (0 <=? i) with true by lia. replace (0 <=? i - 1) with true by lia.
  same_cmp (i <? 1 + zlen l) (i - 1 <? zlen l). simpl.
  by replace (Z.to_nat i) with (S (Z.to_nat (i - 1))) by lia.
Qed.

Lemma get_nil {A} i : get (@nil A) i = None.
Proof. by destruct i. Qed.

Lemma get_drop {A} (l : list A) i k : 0 ≤ i ≤ zlen l → 0 ≤ k → get l (i + k) = get (drop (Z.to_nat i) l) k.
Proof.
  intros Hi Hk. unfold get, zlen in *. rewrite length_drop, lookup_drop.
  replace (0 <=? i + k) with true by lia. replace (0 <=? k) with true by lia. simpl.
  same_cmp (i + k <? Z.of_nat (length l)) (k <? Z.of_nat (length l - Z.to_nat i)).
  by replace (Z.to_nat (i + k)) with (Z.to_nat i + Z.to_nat k)%nat by lia.
Qed.

Lemma zlen_drop {A} (l : list A) i : 0 ≤ i ≤ zlen l → zlen (drop (Z.to_nat i) l) = zlen l - i.
Proof. unfold zlen. rewrite length_drop. lia. Qed.

Lemma get_range_drop {A} (l : list A) i a n :
  0 ≤ i ≤ zlen l → 0 ≤ a → get_range l (i + a) (i + a + n) = get_range (drop (Z.to_nat i) l) a (a + n).
Proof.
  intros Hi Ha. unfold get_range. rewrite zlen_drop by done. rewrite drop_drop.
  replace (0 <=? i + a) with true by lia. replace (0 <=? a) with true by lia.
  same_cmp (i + a <=? i + a + n) (a <=? a + n).
  same_cmp (i + a + n <=? zlen l) (a + n <=? zlen l - i).
  replace (i + a + n - (i + a)) with (a + n - a) by lia.
  by replace (Z.to_nat (i + a)) with (Z.to_nat i + Z.to_nat a)%nat by lia.
Qed.

(** The scanner at offset [i] is the scanner on the rest of the text. *)
Section rfc_shift.
Context {E : Type}.
Variables (b : bytes) (i : Z).
Hypothesis Hi : 0 ≤ i ≤ zlen b.
Let r := drop (Z.to_nat i) b.

Lemma rfc_d_shift k : 0 ≤ k → rfc_d b (i + k) = rfc_d r k.
Proof. intros. unfold rfc_d. by rewrite get_drop. Qed.

Lemma rfc_c_shift k ch : 0 ≤ k → rfc_c b (i + k) ch = rfc_c r k ch.
Proof. intros. unfold rfc_c. by rewrite get_drop. Qed.

Lemma rfc_digits_shift k n : 0 ≤ k → rfc_digits b (i + k) n = rfc_digits r k n.
Proof.
  intros Hk. unfold rfc_digits.
  enough (∀ l, forallb (λ j : nat, rfc_d b (i + k + Z.of_nat j)) l
             = forallb (λ j : nat, rfc_d r (k + Z.of_nat j)) l) as H.
  { apply H. }
  induction l as [|j l IH]; simpl; [done|].
  by rewrite IH, <- Z.add_assoc, rfc_d_shift by lia.
Qed.

Lemma rfc_num_shift k n : 0 ≤ k → rfc_num (E := E) b (i + k) n = rfc_num r k n.
Proof. intros. unfold rfc_num, slice. by rewrite get_range_drop. Qed.

Lemma rfc_zone_shift : rfc_zone (E := E) b i = rfc_zone r 0.
Proof.
  unfold rfc_zone. rewrite <- (Z.add_0_r i) at 1. rewrite get_drop by lia. fold r.
  destruct (get r 0) as [z|]; [|done].
  rewrite rfc_c_shift, !rfc_digits_shift by lia.
  assert (zlen r = zlen b - i) as Hr by (by apply zlen_drop).
  same_cmp (i + 1 =? zlen b) (0 + 1 =? zlen r).
  same_cmp (i + 6 =? zlen b) (0 + 6 =? zlen r).
  rewrite !rfc_num_shift by lia. done.
Qed.
End rfc_shift.

Lemma span_digits_spec l d r :
  span_digits l = (d, r) →
  l = d ++ r ∧ Forall (λ x, is_digit x = true) d ∧ (∀ x, head r = Some x → is_digit x = false).
Proof.
  revert d r. induction l as [|b l IH]; simpl; [by intros d r [= <- <-]|].
  intros d r. destruct (is_digit b) eqn:Hb.
  - destruct (span_digits l) as [d' r'] eqn:Hs. intros [= <- <-].
    destruct (IH _ _ eq_refl) as (-> & Hd & Hr). repeat split; [by constructor|done].
  - intros [= <- <-]. repeat split; [by constructor|]. by intros x [= <-].
Qed.

Lemma rfc_skip_span {E} (b : bytes) fuel i :
  0 ≤ i ≤ zlen b → zlen b - i < Z.of_nat fuel →
  rfc_skip (E := E) b fuel i = Ok (i + zlen (span_digits (drop (Z.to_nat i) b)).1).
Proof.
  revert i. induction fuel as [|fuel IH]; intros i Hi Hf; [lia|]. simpl rfc_skip.
  rewrite <- (Z.add_0_r i) at 1. rewrite rfc_d_shift by lia. unfold rfc_d.
  destruct (drop (Z.to_nat i) b) as [|x r] eqn:Hd.
  - rewrite get_nil. simpl. by rewrite (Z.add_0_r i : i + zlen (@nil Z) = i).
  - rewrite get_cons. simpl.
    destruct (is_digit x) eqn:Hx; [|simpl; by rewrite (Z.add_0_r i : i + zlen (@nil Z) = i)].
    assert (drop (Z.to_nat (i + 1)) b = r) as Hd'.
    { replace (Z.to_nat (i + 1)) with (Z.to_nat i + 1)%nat by lia.
      by rewrite <- drop_drop, Hd. }
    pose proof (zlen_drop b i Hi) as Hz. rewrite Hd, zlen_cons in Hz.
    pose proof (zlen_nonneg r).
    rewrite IH, Hd' by lia. destruct (span_digits r) as [d r']. simpl.
    rewrite zlen_cons. f_equal. lia.
Qed.

(** ** Two-digit fields *)

Definition val2 (x y : Z) : Z := (x - 48) * 10 + (y - 48).

Lemma two_digits_2 lo hi x y :
  two_digits lo hi [x; y] ↔ is_digit x && is_digit y = true ∧ lo ≤ val2 x y ≤ hi.
Proof.
  unfold two_digits, val2. rewrite andb_true_iff. split.
  - intros (x' & y' & [= -> ->] & ? & ? & ?). done.
  - intros ([? ?] & ?). by exists x, y.
Qed.

Lemma rfc_fold2 {E} x y :
  is_digit x && is_digit y = true → rfc_fold (E := E) 0 [x; y] = Ok (val2 x y).
Proof.
  unfold is_digit, val2. intros H. bool_prop. simpl.
  replace (x <? 48) with false by lia. replace (2 ^ 32 <=? _) with false by lia. simpl.
  replace (y <? 48) with false by lia. by replace (2 ^ 32 <=? _) with false by lia.
Qed.

(** ** The zone designator *)

Lemma rfc_zone_spec {E} (r : bytes) :
  ∃ v, rfc_zone (E := E) r 0 = Ok v ∧ (v = true ↔ rfc_offset r).
Proof.
  unfold rfc_zone. destruct r as [|z r].
  { exists false. split; [done|]. split; [done|].
    intros [?|[?|(sg & h & m & ? & _)]]; done. }
  rewrite get_cons. change (0 =? 0) with true. cbv iota. rewrite !Z.add_0_l.
  destruct ((z =? 90) || (z =? 122)) eqn:Hz.
  { eexists. split; [done|]. rewrite zlen_cons. destruct r as [|y r].
    - split; [|done]. intros _. unfold rfc_offset. apply orb_true_iff in Hz as [?|?]; bool_prop; subst; auto.
    - rewrite zlen_cons. pose proof (zlen_nonneg r). replace (1 =? 1 + (1 + zlen r)) with false by lia.
      split; [done|]. intros [?|[?|(sg & h & m & [= -> ?] & Hs & _)]]; try done.
      apply orb_true_iff in Hz. lia. }
  destruct ((z =? 43) || (z =? 45)) eqn:Hs.
  2: { exists false. split; [done|]. split; [done|].
    intros [[= -> ->]|[[= -> ->]|(sg & h & m & [= -> ->] & [-> | ->] & _)]]; done. }
  destruct (decide (length r = 5%nat)) as [Hl|Hl].
  2: { exists false.
    assert (zlen (z :: r) ≠ 6) as Hz6 by (rewrite zlen_cons; unfold zlen; lia).
    replace (6 =? zlen (z :: r)) with false by lia. rewrite !andb_false_r.
    split; [done|]. split; [done|].
    intros [[= -> ->]|[[= -> ->]|(sg & h & m & [= -> ->] & _ & (? & ? & -> & _) & (? & ? & -> & _))]]; done. }
  destruct r as [|h0 [|h1 [|c [|m0 [|m1 [|? ?]]]]]]; try done. clear Hl.
  assert (rfc_num (E := E) [z; h0; h1; c; m0; m1] 1 2 = rfc_fold 0 [h0; h1]) as -> by done.
  assert (rfc_num (E := E) [z; h0; h1; c; m0; m1] 4 2 = rfc_fold 0 [m0; m1]) as -> by done.
  assert (rfc_offset [z; h0; h1; c; m0; m1] ↔
    c = 58 ∧ two_digits 0 23 [h0; h1] ∧ two_digits 0 59 [m0; m1]) as Hoff.
  { split.
    - intros [?|[?|(sg & h & m & E1 & _ & (x & y & -> & Hh) & Hm)]]; try done.
      simpl in E1. injection E1 as <- <- <- -> <-. split_and!; [done| |done]. by exists h0, h1.
    - intros (-> & Hh & Hm). right. right. exists z, [h0; h1], [m0; m1].
      split_and!; [done| |done..]. apply orb_true_iff in Hs. lia. }
  setoid_rewrite Hoff. setoid_rewrite two_digits_2.
  unfold rfc_digits, rfc_d, rfc_c. rewrite !get_cons. simpl. rewrite !andb_true_r.
  destruct (is_digit h0 && is_digit h1) eqn:Hh; simpl; [|exists false; naive_solver].
  case_bool_decide as Hc; simpl; [injection Hc as ->|exists false; naive_solver].
  destruct (is_digit m0 && is_digit m1) eqn:Hm; simpl; [|exists false; naive_solver].
  pose proof (rfc_fold2 (E := E) h0 h1 Hh) as E1. pose proof (rfc_fold2 (E := E) m0 m1 Hm) as E2.
  simpl in E1, E2. rewrite E1. simpl.
  assert (0 ≤ val2 h0 h1 ∧ 0 ≤ val2 m0 m1) as [? ?].
  { unfold is_digit, val2 in *. bool_prop. lia. }
  destruct (val2 h0 h1 <=? 23) eqn:Hv; bool_prop; [|exists false; split; [done|naive_solver lia]].
  rewrite E2. simpl. eexists. split; [done|]. rewrite Z.leb_le. naive_solver lia.
Qed.

Lemma span_digits_app d r :
  Forall (λ x, is_digit x = true) d → (∀ x, head r = Some x → is_digit x = false) →
  span_digits (d ++ r) = (d, r).
Proof.
  induction 1 as [|x d Hx Hd IH]; intros Hr; simpl.
  - destruct r as [|y r]; [done|]. simpl. by rewrite (Hr y eq_refl).
  - by rewrite Hx, IH.
Qed.

Lemma rfc_offset_head z x : rfc_offset z → head z = Some x → is_digit x = false.
Proof. by intros [->|[->|(sg & h & m & -> & [-> | ->] & _)]] [= <-]. Qed.

Lemma rfc_offset_not_dot t : ¬ rfc_offset (46 :: t).
Proof.
  intros [H|[H|(sg & h & m & H & Hs & _)]]; try done.
  injection H as <- _. destruct Hs; lia.
Qed.

Lemma rfc_tail_spec {E} (b : bytes) :
  19 ≤ zlen b →
  ∃ v, rfc_tail (E := E) b = Ok v ∧
    (v = true ↔ ∃ fr z, drop 19 b = fr ++ z ∧ rfc_fraction fr ∧ rfc_offset z).
Proof.
  intros Hb. unfold rfc_tail.
  pose proof (rfc_c_shift b 19 ltac:(lia) 0 46 ltac:(lia)) as Hs0.
  change (19 + 0) with 19 in Hs0. change (Z.to_nat 19) with 19%nat in Hs0.
  rewrite Hs0. clear Hs0. unfold rfc_c. case_bool_decide as Hc.
  - destruct (drop 19 b) as [|x t] eqn:Hd; [by rewrite get_nil in Hc|].
    rewrite get_cons in Hc. injection Hc as ->.
    assert (zlen b = 19 + (1 + zlen t)) as Hz.
    { pose proof (zlen_drop b 19) as Hz. change (Z.to_nat 19) with 19%nat in Hz. rewrite Hd, zlen_cons in Hz. lia. }
    pose proof (zlen_nonneg t).
    assert (drop 20 b = t) as Hd' by (change 20%nat with (19 + 1)%nat; by rewrite <- drop_drop, Hd).
    rewrite rfc_skip_span by (unfold zlen in *; lia). change (Z.to_nat 20) with 20%nat. rewrite Hd'.
    destruct (span_digits t) as [d r] eqn:Hs. apply span_digits_spec in Hs as (-> & Hdig & Hr).
    simpl. destruct d as [|x d].
    + exists false. split; [done|]. split; [done|].
      intros (fr & z & E1 & [->|(ds & -> & Hne & Hds)] & Hz').
      * simpl in E1. subst z. by apply rfc_offset_not_dot in Hz'.
      * simpl in E1. injection E1 as ->. destruct ds as [|y ds]; [done|].
        inversion Hds; subst. by rewrite (Hr y eq_refl) in *.
    + pose proof (zlen_nonneg d). rewrite zlen_cons.
      replace (20 + (1 + zlen d) =? 20) with false by lia. simpl.
      rewrite rfc_zone_shift by (rewrite Hz, zlen_app, zlen_cons; pose proof (zlen_nonneg r); lia).
      assert (drop (Z.to_nat (20 + (1 + zlen d))) b = r) as ->.
      { replace (Z.to_nat (20 + (1 + zlen d))) with (20 + length (x :: d))%nat by (unfold zlen; simpl; lia).
        by rewrite <- drop_drop, Hd', drop_app_length. }
      destruct (rfc_zone_spec (E := E) r) as (v & -> & Hv). exists v. split; [done|]. rewrite Hv. split.
      * intros Ho. exists (46 :: x :: d), r. split_and!; [done|right; by exists (x :: d)|done].
      * intros (fr & z & E1 & [->|(ds & -> & Hne & Hds)] & Hz').
        { simpl in E1. subst z. by apply rfc_offset_not_dot in Hz'. }
        injection E1 as E1.
        assert (span_digits (x :: d ++ r) = span_digits (ds ++ z)) as E2 by (by rewrite <- E1).
        rewrite (span_digits_app ds z Hds) in E2 by (intros; by eapply rfc_offset_head).
        change (x :: d ++ r) with ((x :: d) ++ r) in E2.
        rewrite span_digits_app in E2 by done. by injection E2 as _ ->.
  - simpl. rewrite rfc_zone_shift by lia. change (Z.to_nat 19) with 19%nat.
    destruct (rfc_zone_spec (E := E) (drop 19 b)) as (v & -> & Hv).
    exists v. split; [done|]. rewrite Hv. split.
    + intros Ho. exists [], (drop 19 b). split_and!; [done|by left|done].
    + intros (fr & z & E1 & [->|(ds & -> & Hne & Hds)] & Hz'); [by rewrite E1|].
      destruct Hc. by rewrite E1.
Qed.

Lemma rfc_num_at {E} (p : bytes) x y t i :
  zlen p = i → rfc_num (E := E) (p ++ x :: y :: t) i 2 = rfc_fold 0 [x; y].
Proof.
  intros Hi. unfold rfc_num, slice.
  pose proof (get_range_app p [x; y] t i (i + 2) Hi eq_refl) as H.
  simpl app in H. by rewrite H.
Qed.

Lemma get_at {A} (l : list A) i x : 0 ≤ i → l !! Z.to_nat i = Some x → get l i = Some x.
Proof.
  intros Hi Hl. apply get_Some. split; [|done]. apply lookup_lt_Some in Hl. unfold zlen. lia.
Qed.

(** The fixed nineteen bytes and what they must hold. *)
Section rfc_fixed.
Variables (y0 y1 y2 y3 s0 m0 m1 s1 d0 d1 t h0 h1 s2 n0 n1 s3 e0 e1 : Z) (r : bytes).
Let b := [y0; y1; y2; y3; s0; m0; m1; s1; d0; d1; t; h0; h1; s2; n0; n1; s3; e0; e1] ++ r.

Lemma rfc3339_fixed :
  Rfc3339 b ↔
  ((is_digit y0 && is_digit y1 && is_digit y2 && is_digit y3) = true
   ∧ s0 = 45 ∧ s1 = 45 ∧ (t = 84 ∨ t = 116) ∧ s2 = 58 ∧ s3 = 58)
  ∧ (two_digits 1 12 [m0; m1] ∧ two_digits 1 31 [d0; d1] ∧ two_digits 0 23 [h0; h1]
     ∧ two_digits 0 59 [n0; n1] ∧ two_digits 0 60 [e0; e1])
  ∧ ∃ fr z, r = fr ++ z ∧ rfc_fraction fr ∧ rfc_offset z.
Proof.
  split.
  - intros (a0 & a1 & a2 & a3 & mo & da & t' & ho & mi & se & fr & z & E1 & Hd & Hmo & Hda & Ht & Hho & Hmi & Hse & Hfr & Hz).
    pose proof Hmo as (? & ? & -> & _). pose proof Hda as (? & ? & -> & _).
    pose proof Hho as (? & ? & -> & _). pose proof Hmi as (? & ? & -> & _).
    pose proof Hse as (? & ? & -> & _). injection E1. intros. subst.
    rewrite !Forall_cons in Hd. destruct Hd as (-> & -> & -> & -> & _).
    split_and!; try done. by exists fr, z.
  - intros ((Hd & -> & -> & Ht & -> & ->) & (? & ? & ? & ? & ?) & fr & z & Hr & Hfr & Hz).
    bool_prop. exists y0, y1, y2, y3, [m0; m1], [d0; d1], t, [h0; h1], [n0; n1], [e0; e1], fr, z.
    split_and!; try done; [by unfold b; rewrite Hr|by repeat constructor].
Qed.

Lemma rfc_fixed_num {E} :
  rfc_num (E := E) b 5 2 = rfc_fold 0 [m0; m1] ∧ rfc_num (E := E) b 8 2 = rfc_fold 0 [d0; d1]
  ∧ rfc_num (E := E) b 11 2 = rfc_fold 0 [h0; h1] ∧ rfc_num (E := E) b 14 2 = rfc_fold 0 [n0; n1]
  ∧ rfc_num (E := E) b 17 2 = rfc_fold 0 [e0; e1].
Proof.
  split_and!.
  - by apply (rfc_num_at [y0; y1; y2; y3; s0]).
  - by apply (rfc_num_at [y0; y1; y2; y3; s0; m0; m1; s1]).
  - by apply (rfc_num_at [y0; y1; y2; y3; s0; m0; m1; s1; d0; d1; t]).
  - by apply (rfc_num_at [y0; y1; y2; y3; s0; m0; m1; s1; d0; d1; t; h0; h1; s2]).
  - by apply (rfc_num_at [y0; y1; y2; y3; s0; m0; m1; s1; d0; d1; t; h0; h1; s2; n0; n1; s3]).
Qed.

Lemma rfc_fixed_shape :
  (rfc_digits b 0 4 && rfc_c b 4 45 && rfc_digits b 5 2 && rfc_c b 7 45 && rfc_digits b 8 2
   && (rfc_c b 10 84 || rfc_c b 10 116) && rfc_digits b 11 2 && rfc_c b 13 58 && rfc_digits b 14 2
   && rfc_c b 16 58 && rfc_digits b 17 2) = true ↔
  ((is_digit y0 && is_digit y1 && is_digit y2 && is_digit y3) = true
   ∧ s0 = 45 ∧ s1 = 45 ∧ (t = 84 ∨ t = 116) ∧ s2 = 58 ∧ s3 = 58)
  ∧ is_digit m0 && is_digit m1 = true ∧ is_digit d0 && is_digit d1 = true
  ∧ is_digit h0 && is_digit h1 = true ∧ is_digit n0 && is_digit n1 = true
  ∧ is_digit e0 && is_digit e1 = true.
Proof.
  unfold rfc_digits, rfc_d, rfc_c, b. cbn [seq forallb app].
  repeat match goal with |- context [get ?l ?i] => rewrite (get_at l i _ ltac:(lia) eq_refl) end.
  rewrite !andb_true_r, !andb_true_iff, orb_true_iff, !bool_decide_eq_true.
  assert (∀ p q : Z, Some p = Some q ↔ p = q) as Hs by naive_solver.
  rewrite !Hs. tauto.
Qed.
End rfc_fixed.

Lemma is_rfc3339_spec {E} (b : bytes) :
  ∃ v, is_rfc3339 (E := E) b = Ok v ∧ (v = true ↔ Rfc3339 b).
Proof.
  unfold is_rfc3339. destruct (zlen b <? 20) eqn:Hl; bool_prop.
  { exists false. split; [done|]. split; [done|].
    intros (a0 & a1 & a2 & a3 & mo & da & t' & ho & mi & se & fr & z & -> & _ & Hmo & Hda & _ & Hho & Hmi & Hse & _ & Hz).
    destruct Hmo as (? & ? & -> & _), Hda as (? & ? & -> & _), Hho as (? & ? & -> & _),
      Hmi as (? & ? & -> & _), Hse as (? & ? & -> & _).
    assert (0 < zlen z) by (destruct z; [by destruct Hz as [?|[?|(? & ? & ? & ? & _)]]
      |rewrite zlen_cons; pose proof (zlen_nonneg z0); lia]).
    repeat (rewrite zlen_cons in Hl || rewrite zlen_app in Hl).
    change (zlen (@nil Z)) with 0 in Hl. pose proof (zlen_nonneg fr). lia. }
  assert (∃ p r, b = p ++ r ∧ length p = 19%nat) as (p & r & -> & Hp).
  { exists (take 19 b), (drop 19 b). rewrite take_drop, length_take. unfold zlen in Hl. split; [done|lia]. }
  do 19 (destruct p as [|? p]; [done|]). destruct p; [|done]. clear Hp.
  match goal with |- ∃ v, (if negb ?c then _ else _) = _ ∧ _ =>
    destruct c eqn:Hshape; cbn [negb] end.
  2: { exists false. split; [reflexivity|]. split; [done|]. rewrite rfc3339_fixed.
    intros (Hs & Hd & _). apply not_true_iff_false in Hshape. destruct Hshape.
    rewrite rfc_fixed_shape. rewrite !two_digits_2 in Hd. naive_solver. }
  rewrite rfc_fixed_shape in Hshape. destruct Hshape as (Hs & H1 & H2 & H3 & H4 & H5).
  edestruct rfc_fixed_num as (E1 & E2 & E3 & E4 & E5).
  rewrite E1, E2, E3, E4, E5, !rfc_fold2 by done. clear E1 E2 E3 E4 E5. cbn [mbind res_bind].
  match goal with |- context [rfc_tail ?b] => destruct (rfc_tail_spec (E := E) b) as (v & Hv & Ht) end.
  { rewrite zlen_app. unfold zlen at 1. simpl. pose proof (zlen_nonneg r). lia. }
  rewrite Hv. setoid_rewrite rfc3339_fixed. setoid_rewrite two_digits_2.
  match goal with |- ∃ _, (if negb ?c then _ else _) = _ ∧ _ =>
    destruct c eqn:Hc; cbn [negb]; [exists v|exists false] end; (split; [reflexivity|]).
  - rewrite Ht. bool_prop. unfold is_digit, val2 in *. naive_solver lia.
  - split; [done|]. intros (_ & ((_ & ?) & (_ & ?) & (_ & ?) & (_ & ?) & (_ & ?)) & _).
    apply not_true_iff_false in Hc. destruct Hc. rewrite !andb_true_iff, !Z.leb_le. lia.
Qed.

(** ** Entity types *)

(** [mim:<type>] or [x:<vendor>:<type>], every part non-empty and colon-free. *)
Definition Namespaced (ty : bytes) : Prop :=
  (∃ t, ty = s2b "mim:" ++ t ∧ t ≠ [] ∧ 58 ∉ t)
  ∨ (∃ v t, ty = s2b "x:" ++ v ++ 58 :: t ∧ v ≠ [] ∧ t ≠ [] ∧ 58 ∉ v ∧ 58 ∉ t).

Lemma has_byte_spec c l : has_byte c l = true ↔ c ∈ l.
Proof.
  unfold has_byte. rewrite existsb_exists. split.
  - intros (x & Hx & E). bool_prop. subst. by apply list_elem_of_In.
  - intros H%list_elem_of_In. exists c. split; [done|]. lia.
Qed.

Lemma find_byte_split c l k :
  find_byte c l = Some k →
  l = take (Z.to_nat k) l ++ c :: drop (Z.to_nat (k + 1)) l ∧ c ∉ take (Z.to_nat k) l.
Proof.
  revert k. induction l as [|b l IH]; intros k; simpl; [done|].
  destruct (b =? c) eqn:Hb; bool_prop.
  - intros [= <-]. subst. split; [done|]. apply not_elem_of_nil.
  - intros (j & Hj & ->)%fmap_Some. pose proof (find_byte_Some _ _ _ Hj) as [Hr _].
    destruct (IH j Hj) as [Hl Hn].
    replace (Z.to_nat (Z.succ j + 1)) with (S (Z.to_nat (j + 1))) by lia.
    replace (Z.to_nat (Z.succ j)) with (S (Z.to_nat j)) by lia. simpl.
    split; [by f_equal|]. rewrite not_elem_of_cons. split; [congruence|done].
Qed.

Lemma find_byte_None c l : find_byte c l = None → c ∉ l.
Proof.
  induction l as [|b l IH]; simpl; [intros; apply not_elem_of_nil|].
  destruct (b =? c) eqn:E; bool_prop; [done|]. intros H%fmap_None.
  rewrite not_elem_of_cons. split; [congruence|auto].
Qed.

Lemma is_namespaced_spec ty : is_namespaced ty = true ↔ Namespaced (s2b ty).
Proof.
  unfold is_namespaced, Namespaced. generalize (s2b ty). clear ty. intros l.
  destruct (strip_prefix (s2b "mim:") l) as [r|] eqn:Hm.
  - apply strip_prefix_Some in Hm as ->.
    rewrite andb_true_iff, !negb_true_iff, bool_decide_eq_false.
    rewrite <- not_true_iff_false, has_byte_spec. split.
    + intros [? ?]. left. by exists r.
    + intros [(t & E & ? & ?)|(v & t & E & _)]; [|done].
      apply app_inv_head in E as ->. done.
  - assert (∀ t, l ≠ s2b "mim:" ++ t) as Hn.
    { intros t ->. by rewrite (proj2 (strip_prefix_Some _ _ t)) in Hm. }
    destruct (strip_prefix (s2b "x:") l) as [r|] eqn:Hx.
    2: { split; [done|]. intros [(t & ? & _)|(v & t & -> & _)]; [by destruct (Hn t)|].
      by rewrite (proj2 (strip_prefix_Some _ _ (v ++ 58 :: t))) in Hx. }
    apply strip_prefix_Some in Hx as ->.
    destruct (find_byte 58 r) as [k|] eqn:Hk.
    + pose proof (find_byte_split _ _ _ Hk) as [Hr Hv].
      rewrite !andb_true_iff, !negb_true_iff, !bool_decide_eq_false.
      rewrite <- not_true_iff_false, has_byte_spec. split.
      * intros ([? ?] & ?). right. exists (take (Z.to_nat k) r), (drop (Z.to_nat (k + 1)) r).
        split_and!; try done. by rewrite <- Hr.
      * intros [(t & E & _)|(v & t & E & ? & ? & ? & ?)]; [by destruct (Hn t)|].
        apply app_inv_head in E as ->. rewrite find_byte_app in Hk by done. injection Hk as <-.
        unfold zlen. rewrite Nat2Z.id, take_app_length.
        replace (Z.to_nat _) with (length v + 1)%nat by lia.
        rewrite <- drop_drop, drop_app_length. done.
    + apply find_byte_None in Hk. split; [done|].
      intros [(t & E & _)|(v & t & E & _)]; [by destruct (Hn t)|].
      apply app_inv_head in E as ->. destruct Hk. set_solver.
Qed.

(** ** The built event *)

(** What the contract requires of a builder before an event can exist. *)
Record builder_valid (b : EventBuilder) (i ts : string) : Prop := {
  bv_id : id b = Some i;
  bv_ts : timestamp b = Some ts;
  bv_rfc : Rfc3339 (s2b ts);
  bv_loc : ∀ l, location b = Some l → location_ok l = true;
  bv_source : source_id b ≠ ""%string;
  bv_type : entity_type b ≠ ""%string;
  bv_ns : strict_entity_namespace b = true → Namespaced (s2b (entity_type b));
  bv_conf : in_range f_zero (f_of_Z 1) (confidence b) = true;
  bv_tags : zlen (policy_tags b) ≤ MAX_POLICY_TAGS;
  bv_attrs : zlen (attributes b) ≤ MAX_ATTRIBUTES;
  bv_meta : zlen (metadata b) ≤ MAX_METADATA;
  bv_attr_keys : NoDup (attributes b).*1;
  bv_meta_keys : NoDup (metadata b).*1
}.

(** The event such a builder stands for. *)
Definition built (b : EventBuilder) (i ts : string) : Event :=
  mkEvent SCHEMA_VERSION i (source_id b) (entity_type b) ts "" (location b) (payload b)
    (policy_tags b) (confidence b) (to_attrs (sort_keys (attributes b)))
    (to_attrs (sort_keys (metadata b))).

Lemma guard_res_Ok {E} c (e : E) u : guard_res c e = Ok u ↔ c = true.
Proof. destruct u, c; naive_solver. Qed.

Lemma build_valid b i ts : builder_valid b i ts → build b = Ok (built b i ts).
Proof.
  intros [Hi Ht Hr Hl Hs Hty Hns Hc Hta Ha Hm Hak Hmk]. unfold build.
  rewrite Hi, Ht. simpl.
  destruct (is_rfc3339_spec (E := BuildError) (s2b ts)) as (v & -> & Hv).
  rewrite (proj2 Hv Hr). simpl.
  assert (match location b with
    | Some l => guard_res (location_ok l) (InvalidLocation (latitude l) (longitude l))
    | None => Ok tt end = Ok tt) as ->.
  { destruct (location b) as [l|]; [|done]. by rewrite (Hl l). }
  simpl. apply String.eqb_neq in Hs, Hty. rewrite Hs, Hty. simpl.
  assert (negb (strict_entity_namespace b && negb (is_namespaced (entity_type b))) = true) as ->.
  { destruct (strict_entity_namespace b); [|done]. by rewrite (proj2 (is_namespaced_spec _)) by auto. }
  rewrite Hc. apply Z.leb_le in Hta, Ha, Hm. rewrite Hta, Ha, Hm. simpl.
  by rewrite (proj2 (sort_keys_dup _) Hak), (proj2 (sort_keys_dup _) Hmk).
Qed.

Lemma build_Ok b e : build b = Ok e → ∃ i ts, builder_valid b i ts ∧ e = built b i ts.
Proof.
  unfold build. intros H. inv_ok.
  repeat match goal with H : guard_res _ _ = Ok _ |- _ => apply guard_res_Ok in H end.
  repeat case_in_goal; repeat match goal with
  | H : match first_dup ?l with _ => _ end = Ok _ |- _ => destruct (first_dup l) eqn:?; [discriminate H|]
  end. inv_ok.
  match goal with H : is_rfc3339 _ = Ok ?v |- _ =>
    destruct (is_rfc3339_spec (E := BuildError) (s2b x0)) as (v' & Hv' & Hspec); rewrite H in Hv' end.
  injection Hv' as <-. exists x, x0. split; [|done].
  repeat match goal with H : first_dup _ = None |- _ => apply sort_keys_dup in H end.
  bool_prop. split; try done.
  - by apply Hspec.
  - intros l E. rewrite E in *. by apply guard_res_Ok in H3.
  - by apply String.eqb_neq.
  - by apply String.eqb_neq.
  - intros E. apply is_namespaced_spec. rewrite E in *. by destruct (is_namespaced (entity_type b)).
Qed.

(** What each error says is wrong with the builder. *)
Definition violates (b : EventBuilder) (e : BuildError) : Prop :=
  match e with
  | MissingField n =>
      (n = "id" ∧ id b = None) ∨ (n = "timestamp" ∧ timestamp b = None)
      ∨ (n = "source_id" ∧ source_id b = "") ∨ (n = "entity_type" ∧ entity_type b = "")
  | InvalidTimestamp t => timestamp b = Some t ∧ ¬ Rfc3339 (s2b t)
  | InvalidLocation la lo =>
      ∃ l, location b = Some l ∧ latitude l = la ∧ longitude l = lo ∧ location_ok l = false
  | UnnamespacedEntityType t =>
      t = entity_type b ∧ strict_entity_namespace b = true ∧ ¬ Namespaced (s2b t)
  | ConfidenceOutOfRange c => c = confidence b ∧ in_range f_zero (f_of_Z 1) c = false
  | TooManyPolicyTags n m => n = zlen (policy_tags b) ∧ m = MAX_POLICY_TAGS ∧ m < n
  | TooManyAttributes n m => n = zlen (attributes b) ∧ m = MAX_ATTRIBUTES ∧ m < n
  | TooManyMetadata n m => n = zlen (metadata b) ∧ m = MAX_METADATA ∧ m < n
  | DuplicateAttributeKey k => ∃ v w l, attributes b ≡ₚ (k, v) :: (k, w) :: l
  | DuplicateMetadataKey k => ∃ v w l, metadata b ≡ₚ (k, v) :: (k, w) :: l
  end%string.

Lemma first_dup_perm l k :
  first_dup (sort_keys l) = Some k → ∃ v w q, l ≡ₚ (k, v) :: (k, w) :: q.
Proof.
  intros (p & v & w & q & H)%first_dup_Some. exists v, w, (p ++ q).
  rewrite <- (sort_keys_perm l), H. by rewrite !Permutation_middle.
Qed.

(** The failing branch of a check is an error that names it. *)
Ltac fails := right; eexists; split; [reflexivity|]; simpl.

Lemma build_returns b : (∃ e, build b = Ok e) ∨ (∃ e, build b = Err e ∧ violates b e).
Proof.
  unfold build.
  destruct (id b) eqn:?; simpl; [|fails; auto].
  destruct (timestamp b) as [ts|] eqn:Hts; simpl; [|fails; auto].
  destruct (is_rfc3339_spec (E := BuildError) (s2b ts)) as (v & -> & Hv). simpl.
  destruct v; simpl; [|fails; split; [done|]; intros ?%Hv; done].
  destruct (location b) as [l|] eqn:Hl; simpl;
    [destruct (location_ok l) eqn:Hlo; simpl; [|fails; eauto 10]|];
    clear Hl; repeat match goal with
    | |- context [guard_res (negb (?s =? "")%string) _] =>
        destruct (String.eqb_spec s ""); simpl; [fails; naive_solver|]
    | |- context [guard_res (negb (?s && negb ?n)) _] =>
        destruct s eqn:?; simpl; [destruct n eqn:Hns; simpl; [|fails;
          split_and!; try done; intros ?%is_namespaced_spec; congruence]|]
    | |- context [guard_res (in_range ?a ?b ?c) _] =>
        destruct (in_range a b c) eqn:?; simpl; [|fails; done]
    | |- context [guard_res (?a <=? ?b) _] =>
        destruct (a <=? b) eqn:?; simpl; [|fails; bool_prop; done]
    | |- context [match first_dup ?l with _ => _ end] =>
        destruct (first_dup l) eqn:?; [fails; by apply first_dup_perm|]
    end; left; eauto.
Qed.

Lemma build_safe b : safe (build b).
Proof. by destruct (build_returns b) as [[? ->]|(? & -> & _)]. Qed.

#[export] Hint Resolve build_safe : rust.

(** The canonical shape every signed event must have. *)
Record Canonical (e : Event) : Prop := {
  can_version : schema_version e = "v1"%string;
  can_received : received_at e = ""%string;
  can_source : ev_source_id e ≠ ""%string;
  can_type : ev_entity_type e ≠ ""%string;
  can_ts : Rfc3339 (s2b (ev_timestamp e));
  can_loc : ∀ l, ev_location e = Some l → location_ok l = true;
  can_conf : in_range f_zero (f_of_Z 1) (ev_confidence e) = true;
  can_tags : zlen (ev_policy_tags e) ≤ 64;
  can_attrs : zlen (ev_attributes e) ≤ 128;
  can_meta : zlen (ev_metadata e) ≤ 128;
  can_attr_sorted :
    StronglySorted (λ a b, String.compare (key a) (key b) = Lt) (ev_attributes e);
  can_meta_sorted :
    StronglySorted (λ a b, String.compare (key a) (key b) = Lt) (ev_metadata e)
}.

Lemma to_attrs_sorted l :
  StronglySorted key_lt l → StronglySorted (λ a b, String.compare (key a) (key b) = Lt) (to_attrs l).
Proof.
  induction 1 as [|x l Hl IH Hx]; simpl; constructor; [done|].
  apply Forall_fmap. eapply Forall_impl; [exact Hx|done].
Qed.

Lemma to_attrs_sort_length l : zlen (to_attrs (sort_keys l)) = zlen l.
Proof. unfold zlen, to_attrs. by rewrite length_fmap, sort_keys_perm. Qed.

Lemma built_canonical b i ts : builder_valid b i ts → Canonical (built b i ts).
Proof.
  intros [? ? ? ? ? ? ? ? ? ? ? ? ?].
  split; simpl; rewrite ?to_attrs_sort_length; try done;
    apply to_attrs_sorted, first_dup_None; (apply sort_keys_sorted || by apply sort_keys_dup).
Qed.

(** * Properties *)

(** the hand-rolled timestamp check accepts exactly the RFC 3339 grammar
    with in-range components, and never panics or runs past its input. *)
Theorem rfc3339_correct (b : bytes) :
  ∃ v, is_rfc3339 (E := BuildError) b = Ok v ∧ (v = true ↔ Rfc3339 b).
Proof. apply is_rfc3339_spec. Qed.

(** [build] is total: a builder that meets the contract yields exactly the
    event it stands for, and every other builder yields an error naming a
    requirement it breaks. *)
Theorem build_total b :
  (∃ i ts, builder_valid b i ts ∧ build b = Ok (built b i ts))
  ∨ ((∀ i ts, ¬ builder_valid b i ts) ∧ ∃ e, build b = Err e ∧ violates b e).
Proof.
  destruct (build_returns b) as [[e He]|(e & He & Hv)].
  - destruct (build_Ok b e He) as (i & ts & Hv & ->). left. eauto.
  - right. split; [|eauto]. intros i ts Hb%build_valid. congruence.
Qed.

(** C1: no event leaves the builder in a non-canonical shape: version [v1], an
    empty [received_at], limits respected, a finite in-range position, and
    attribute and metadata keys strictly increasing. *)
Theorem build_canonical b e : build b = Ok e → Canonical e.
Proof. intros (i & ts & Hv & ->)%build_Ok. by apply built_canonical. Qed.

(** the order in which attributes and metadata were added does not reach
    the event: builders that differ only by it build the same event. *)
Theorem build_order_irrelevant b b' e :
  attributes b ≡ₚ attributes b' → metadata b ≡ₚ metadata b' →
  b' = mkBuilder (source_id b) (entity_type b) (id b) (timestamp b) (location b) (payload b)
         (policy_tags b) (confidence b) (attributes b') (metadata b') (strict_entity_namespace b) →
  build b = Ok e → build b' = Ok e.
Proof.
  intros Ha Hm Hb' (i & ts & Hv & ->)%build_Ok.
  assert (builder_valid b' i ts) as Hv'.
  { destruct Hv as [? ? ? ? ? ? ? ? ? ? ? ? ?]. rewrite Hb'. split; simpl; try done; unfold zlen in *;
      by rewrite <- ?Ha, <- ?Hm. }
  rewrite (build_valid b' i ts Hv'). f_equal.
  assert (∀ l k, l ≡ₚ k → NoDup l.*1 → sort_keys l = sort_keys k) as Hs.
  { intros l k Hp Hn. assert (NoDup k.*1) by (by rewrite <- Hp).
    apply strictly_sorted_unique; try (apply first_dup_None; [apply sort_keys_sorted|by apply sort_keys_dup]).
    by rewrite !sort_keys_perm. }
  unfold built. rewrite (Hs _ _ Ha) by apply Hv. rewrite (Hs _ _ Hm) by apply Hv.
  by rewrite Hb'.
Qed.

(** * Witnesses *)

Definition ex_builder (kvs : list (string * string)) : EventBuilder :=
  mkBuilder "sensor-1" "mim:aircraft" (Some "id-1"%string) (Some "2026-06-10T08:00:00.5+02:00"%string)
    (Some (mkGeoPoint (f_of_Z 25) (f_of_Z 51) (f_of_Z 10600))) [1; 2] ["class:secret"%string]
    (f_ratio 98 100) kvs [] true.

Lemma build_canonical_witness :
  ∃ e, build (ex_builder [("speed", "110"); ("heading", "225")]%string) = Ok e ∧ Canonical e.
Proof.
  eexists. split; [vm_compute; reflexivity|].
  apply (build_canonical (ex_builder [("speed", "110"); ("heading", "225")]%string)).
  vm_compute; reflexivity.
Defined.

Lemma build_order_irrelevant_witness :
  ∃ e, build (ex_builder [("heading", "225"); ("speed", "110")]%string) = Ok e.
Proof.
  eexists.
  apply (build_order_irrelevant (ex_builder [("speed", "110"); ("heading", "225")]%string)).
  - apply perm_swap.
  - reflexivity.
  - reflexivity.
  - vm_compute; reflexivity.
Defined.
