(* ===== verification/Seal.v ===== *)
(** The seal envelope and what reads it: rust/ajar-connector/src/seal.rs,
    canonical.rs, lib.rs and consumer.rs. Ed25519 and the protobuf codec are
    third-party code: the class and the section variables below. *)
From Stdlib Require Import ZArith Lia.
From Stdlib Require Import Strings.String.
From S2P Require Export Event.

Local Open Scope Z_scope.

(** * The signature scheme *)

(** What the program uses of [ed25519_dalek]. *)
Class Ed25519 := {
  skey : Type;
  vkey : Type;
  signature : Type;
  verifying_key : skey → vkey;
  sign : skey → bytes → signature;
  sig_to_bytes : signature → bytes;
  sig_from_slice : bytes → option signature;
  vk_verify : vkey → bytes → signature → bool
}.

(** Its documented behaviour: a signature is 64 bytes, survives its byte form,
    and verifies under the matching key. *)
Class Ed25519Laws (C : Ed25519) := {
  sig_len : ∀ s, zlen (sig_to_bytes s) = 64;
  sig_roundtrip : ∀ s, sig_from_slice (sig_to_bytes s) = Some s;
  sign_verifies : ∀ k m, vk_verify (verifying_key k) m (sign k m) = true
}.

(** @src rust/ajar-connector/src/seal.rs 11-12 SEAL_SIGNATURE_LEN *)
Definition SEAL_SIGNATURE_LEN : Z := 64.

(** @src rust/ajar-connector/src/seal.rs 14-32 SealError *)
Inductive SealError :=
| SealTruncated (len : Z)
| MalformedSignature
| Unverified.

Section seal.
Context `{C : Ed25519}.

(** @src rust/ajar-connector/src/seal.rs 34-54 seal *)
Definition seal (canonical : bytes) (k : skey) : bytes :=
  sig_to_bytes (sign k canonical) ++ canonical.

(** @src rust/ajar-connector/src/seal.rs 56-94 verify *)
Definition verify (sealed : bytes) (k : vkey) : res SealError bytes :=
  if zlen sealed <? SEAL_SIGNATURE_LEN then Err (SealTruncated (zlen sealed))
  else
    let prefix := take (Z.to_nat SEAL_SIGNATURE_LEN) sealed in
    let canonical := drop (Z.to_nat SEAL_SIGNATURE_LEN) sealed in
    s ← ok_or MalformedSignature (sig_from_slice prefix);
    guard_res (vk_verify k canonical s) Unverified ;;
    Ok canonical.

#[global] Arguments verify : simpl never.

Lemma verify_Ok sealed k c :
  verify sealed k = Ok c ↔
  ∃ s, zlen sealed = 64 + zlen c ∧ sealed = take 64 sealed ++ c
    ∧ sig_from_slice (take 64 sealed) = Some s ∧ vk_verify k c s = true.
Proof.
  unfold verify, SEAL_SIGNATURE_LEN. change (Z.to_nat 64) with 64%nat.
  split.
  - intros H. destruct (zlen sealed <? 64) eqn:Hl; [done|]. bool_prop. inv_ok.
    match goal with H : guard_res _ _ = Ok _ |- _ => apply guard_res_Ok in H end.
    exists x. rewrite take_drop. split_and!; try done.
    unfold zlen in *. rewrite length_drop. lia.
  - intros (s & Hz & Hs & Hp & Hv). pose proof (zlen_nonneg c).
    replace (zlen sealed <? 64) with false by lia. rewrite Hp. simpl.
    assert (drop 64 sealed = c) as ->; [|by rewrite Hv].
    rewrite Hs at 1. apply drop_app_length'. rewrite length_take. unfold zlen in *. lia.
Qed.

Lemma verify_safe sealed k : safe (verify sealed k).
Proof.
  unfold verify. case_in_goal; [done|].
  apply safe_bind; [apply safe_ok_or|]. intros s _.
  by destruct (vk_verify _ _ _).
Qed.

Lemma verify_seal {L : Ed25519Laws C} m k : verify (seal m k) (verifying_key k) = Ok m.
Proof.
  assert (length (sig_to_bytes (sign k m)) = 64%nat) as Hl.
  { pose proof (sig_len (sign k m)). unfold zlen in *. lia. }
  assert (take 64 (seal m k) = sig_to_bytes (sign k m)) as Ht by (by apply take_app_length').
  apply verify_Ok. exists (sign k m). rewrite Ht. split_and!; try done.
  - unfold seal. by rewrite zlen_app, sig_len.
  - apply sig_roundtrip.
  - apply sign_verifies.
Qed.
End seal.

#[export] Hint Resolve verify_safe : rust.

(** * The verified stream *)

Module Consumer.

(** @src rust/ajar-connector/src/consumer.rs 42-52 Delivery *)
Record Delivery := mkDelivery { event : Event; del_payload : bytes; subject : string }.

(** @src rust/ajar-connector/src/consumer.rs 54-64 Guards *)
Record Guards := mkGuards { skip_source_ids : gset string; skip_derived : bool }.

(** @src rust/ajar-connector/src/consumer.rs 66-75 Stats *)
Record Stats := mkStats { accepted : Z; rejected : Z; skipped : Z }.

(** The parts of [async_nats::Message] the stream reads. *)
Record Message := mkMessage { msg_payload : bytes; msg_subject : string }.

Section consumer.
Context `{C : Ed25519}.
Variable decode : bytes → option Event.

Definition guarded (g : Guards) (e : Event) : bool :=
  bool_decide (ev_source_id e ∈ skip_source_ids g)
  || (skip_derived g && existsb (λ a, String.eqb (key a) "model") (ev_attributes e)).

(** @src rust/ajar-connector/src/consumer.rs 89-124 process *)
Definition process (m : Message) (egress_key : vkey) (g : Guards) (s : Stats) :
    Stats * option Delivery :=
  match verify (msg_payload m) egress_key with
  | Ok canonical =>
      match decode canonical with
      | None => (mkStats (accepted s) (fetch_add (rejected s) 1) (skipped s), None)
      | Some e =>
          if guarded g e then (mkStats (accepted s) (rejected s) (fetch_add (skipped s) 1), None)
          else (mkStats (fetch_add (accepted s) 1) (rejected s) (skipped s),
                Some (mkDelivery e (ev_payload e) (msg_subject m)))
      end
  | _ => (mkStats (accepted s) (fetch_add (rejected s) 1) (skipped s), None)
  end.

(** @src rust/ajar-connector/src/consumer.rs 77-87 verified_events *)
Fixpoint verified_events (ms : list Message) (k : vkey) (g : Guards) (s : Stats) :
    Stats * list Delivery :=
  match ms with
  | [] => (s, [])
  | m :: ms =>
      let '(s, d) := process m k g s in
      let '(s, ds) := verified_events ms k g s in
      (s, match d with Some d => d :: ds | None => ds end)
  end.

(** The message carries a verified, decodable event outside the guards. *)
Definition deliverable (k : vkey) (g : Guards) (m : Message) (e : Event) : Prop :=
  ∃ c, verify (msg_payload m) k = Ok c ∧ decode c = Some e ∧ guarded g e = false.

Lemma process_delivery m k g s s' d :
  process m k g s = (s', Some d) →
  deliverable k g m (event d) ∧ del_payload d = ev_payload (event d) ∧ subject d = msg_subject m.
Proof.
  unfold process, deliverable. destruct (verify (msg_payload m) k) as [c|?| |] eqn:Hv; [|naive_solver..].
  destruct (decode c) as [e|] eqn:Hd; [|naive_solver].
  destruct (guarded g e) eqn:Hg; [naive_solver|]. intros [= <- <-]. simpl. eauto 10.
Qed.

Lemma process_drop m k g s s' :
  process m k g s = (s', None) → ∀ e, ¬ deliverable k g m e.
Proof.
  unfold process, deliverable. intros H e (c & Hv & Hd & Hg). by rewrite Hv, Hd, Hg in H.
Qed.

Definition total (s : Stats) : Z := accepted s + rejected s + skipped s.

Lemma process_counts m k g s s' d :
  process m k g s = (s', d) → total s' mod 2 ^ 64 = (total s + 1) mod 2 ^ 64.
Proof.
  unfold process, total, fetch_add, wrap.
  destruct (verify (msg_payload m) k) as [c|?| |]; [|intros [= <- <-]; simpl..];
    [destruct (decode c) as [e|]; [destruct (guarded g e)|]; intros [= <- <-]; simpl| | |];
    Z.to_euclidean_division_equations; lia.
Qed.

Lemma process_accepted m k g s s' d :
  process m k g s = (s', d) →
  accepted s' mod 2 ^ 64 = (accepted s + match d with Some _ => 1 | None => 0 end) mod 2 ^ 64.
Proof.
  unfold process, fetch_add, wrap.
  destruct (verify (msg_payload m) k) as [c|?| |]; [|intros [= <- <-]; simpl; f_equal; lia..].
  destruct (decode c) as [e|]; [destruct (guarded g e)|]; intros [= <- <-]; simpl;
    rewrite ?Z.mod_mod by lia; f_equal; lia.
Qed.

(** C9: the stream yields one delivery for every message whose seal verifies
    under the egress key, whose bytes decode and which no guard skips, and
    nothing else; the payload and subject are that message's own; every message
    is counted exactly once (modulo the counters' width), and [accepted] counts
    the deliveries. *)
Theorem verified_events_correct ms k g s s' ds :
  verified_events ms k g s = (s', ds) →
  (∀ d, d ∈ ds ↔ ∃ m, m ∈ ms ∧ deliverable k g m (event d)
     ∧ del_payload d = ev_payload (event d) ∧ subject d = msg_subject m)
  ∧ accepted s' mod 2 ^ 64 = (accepted s + zlen ds) mod 2 ^ 64
  ∧ total s' mod 2 ^ 64 = (total s + zlen ms) mod 2 ^ 64.
Proof.
  revert s s' ds. induction ms as [|m ms IH]; intros s s' ds; simpl.
  - intros [= <- <-]. rewrite !(Z.add_0_r _ : _ + zlen [] = _). split; [set_solver|done].
  - destruct (process m k g s) as [s1 d] eqn:Hp.
    destruct (verified_events ms k g s1) as [s2 ds'] eqn:Hr. intros [= <- <-].
    destruct (IH _ _ _ Hr) as (Hd & Ha & Ht).
    apply process_counts in Hp as Hc. apply process_accepted in Hp as Hpa.
    rewrite zlen_cons. split_and!.
    + intros x. destruct d as [d|].
      * apply process_delivery in Hp as (H1 & H2 & H3). rewrite elem_of_cons, Hd. split.
        { intros [->|(m0 & ? & ?)]; [exists m; split; [left|done]|exists m0; split; [by right|done]]. }
        intros (m0 & [->|Hm]%elem_of_cons & Hx & Hpl & Hs); [left|right; by exists m0].
        destruct Hx as (c & Hv & Hdc & Hg), H1 as (c' & Hv' & Hdc' & Hg').
        destruct x, d; simpl in *. congruence.
      * pose proof (process_drop _ _ _ _ _ Hp) as Hn. rewrite Hd. split.
        { intros (m0 & ? & ?). exists m0. split; [by right|done]. }
        intros (m0 & [->|Hm]%elem_of_cons & Hx & ?); [by destruct (Hn (event x))|by exists m0].
    + rewrite Ha, <- Z.add_mod_idemp_l, Hpa, Z.add_mod_idemp_l by lia. f_equal.
      destruct d; rewrite ?zlen_cons; lia.
    + rewrite Ht, <- Z.add_mod_idemp_l, Hc, Z.add_mod_idemp_l by lia. f_equal. lia.
Qed.
End consumer.
End Consumer.

(** * Properties of the seal *)

(** [verify] inverts [seal], and whatever envelope it accepts is a 64-byte
    signature that verifies over exactly the bytes returned; it never panics. *)
Theorem seal_verify {C : Ed25519} {L : Ed25519Laws C} :
  (∀ m k, verify (seal m k) (verifying_key k) = Ok m)
  ∧ (∀ sealed k c, verify sealed k = Ok c ↔
      ∃ s, zlen sealed = 64 + zlen c ∧ sealed = take 64 sealed ++ c
        ∧ sig_from_slice (take 64 sealed) = Some s ∧ vk_verify k c s = true)
  ∧ (∀ sealed k, verify sealed k = Err (SealTruncated (zlen sealed)) ↔ zlen sealed < 64)
  ∧ (∀ sealed k, safe (verify sealed k)).
Proof.
  split_and!; [apply verify_seal|apply verify_Ok| |apply verify_safe].
  intros sealed k. unfold verify, SEAL_SIGNATURE_LEN.
  destruct (zlen sealed <? 64) eqn:Hl; bool_prop; [done|].
  split; [|lia]. destruct (sig_from_slice _); simpl; [|done]. by destruct (vk_verify _ _ _).
Qed.

(** * A concrete scheme for the witnesses *)

(** A checksum repeated 64 times: enough structure for the laws to hold and
    for concrete envelopes to be sealed, verified and refused. *)
Definition toy_sum (m : bytes) : Z := fold_left (λ a b, (a * 31 + b) mod 256) m 7.
Definition toy : Ed25519 := {|
  skey := Z; vkey := Z; signature := Z;
  verifying_key := λ k, k;
  sign := λ k m, (k + toy_sum m) mod 256;
  sig_to_bytes := λ s, replicate 64 s;
  sig_from_slice := λ l, if zlen l =? 64 then head l else None;
  vk_verify := λ k m s, s =? (k + toy_sum m) mod 256
|}.
Definition toy_laws : Ed25519Laws toy.
Proof. split; [done|done|intros k m; apply Z.eqb_refl]. Defined.

Lemma seal_verify_witness : @verify toy (@seal toy [1; 2; 3] 5) 5 = Ok [1; 2; 3].
Proof. exact (proj1 (@seal_verify toy toy_laws) [1; 2; 3] 5). Defined.

Definition ex_event (src : string) : Event :=
  mkEvent "v1" "id-1" src "mim:aircraft" "2026-06-10T08:00:00Z" "" None [9] [] f_zero [] [].
(** A codec for two events, told apart by their first byte. *)
Definition toy_decode (l : bytes) : option Event :=
  match l with
  | [1] => Some (ex_event "a"%string)
  | [2] => Some (ex_event "b"%string)
  | _ => None
  end.

Lemma verified_events_correct_witness :
  let ms := [Consumer.mkMessage (@seal toy [1] 5) "s"%string; Consumer.mkMessage [0] "s"%string;
             Consumer.mkMessage (@seal toy [2] 5) "t"%string] in
  let g := Consumer.mkGuards {[ "b"%string ]} false in
  let d := Consumer.mkDelivery (ex_event "a"%string) [9] "s"%string in
  @Consumer.verified_events toy toy_decode ms 5 g (Consumer.mkStats 0 0 0)
    = (Consumer.mkStats 1 1 1, [d])
  ∧ ∃ m, m ∈ ms ∧ @Consumer.deliverable toy toy_decode 5 g m (Consumer.event d).
Proof.
  intros ms g d. split; [vm_compute; reflexivity|].
  destruct (@Consumer.verified_events_correct toy toy_decode ms 5 g (Consumer.mkStats 0 0 0)
    (Consumer.mkStats 1 1 1) [d]) as [H _]; [vm_compute; reflexivity|].
  destruct (proj1 (H d)) as (m & Hm & Hd & _); [left|]. exists m. split; assumption.
Defined.
