(* ===== verification/Store.v ===== *)
(** The sink's hash-chained store of verified events
    (rust/connectors/sink/src/store.rs and the record loop of main.rs). The
    SQLite table is the list of its rows in [seq] order plus the AUTOINCREMENT
    high-water mark; each operation is the SQL statement the code runs on it.
    SHA-256 and the protobuf decoder are parameters. *)
From Stdlib Require Import ZArith Lia.
From Stdlib Require Import Strings.String.
From S2P Require Export Seal.

Local Open Scope Z_scope.

(** @src rust/connectors/sink/src/store.rs 20-21 GENESIS *)
Definition GENESIS : bytes := replicate 32 0.

(** @src rust/connectors/sink/src/store.rs 86-99 CREATE TABLE record *)
Record Row := mkRow {
  row_seq : Z;
  row_received_at : string;
  row_source_id : string;
  row_event_id : string;
  row_entity_type : string;
  row_timestamp : string;
  row_latitude : option f64;
  row_longitude : option f64;
  row_altitude_m : option f64;
  row_sealed : bytes;
  row_prev_hash : bytes;
  row_record_hash : bytes
}.

(** @src rust/connectors/sink/src/store.rs 23-25 Store *)
Record Store := mkStore { rows : list Row; last_rowid : Z }.

(** A database just created. *)
Definition empty_store : Store := mkStore [] 0.

(** @src rust/connectors/sink/src/store.rs 27-31 Appended *)
Record Appended := mkAppended { app_seq : Z; app_record_hash : bytes }.

(** @src rust/connectors/sink/src/store.rs 33-44 Audit *)
Inductive Audit :=
| Intact (records : Z) (head : bytes)
| Broken (seq : Z) (reason : string).

(** @src rust/connectors/sink/src/store.rs 46-55 Refusal *)
Inductive Refusal :=
| Undecodable
| UnregisteredSource (source : string)
| Signature (e : SealError).

(** What a store operation can fail with: a stored hash of the wrong width, or
    the statement refused by the table's constraints. *)
Inductive StoreError := BadStoredHash (len : Z) | Constraint.

Section store.
Context `{C : Ed25519}.
Variable sha256 : bytes → bytes.
Variable decode : bytes → option Event.
Implicit Types keys : gmap string vkey.

(** @src rust/connectors/sink/src/store.rs 241-246 link *)
Definition link (prev sealed : bytes) : bytes := sha256 (prev ++ sealed).

(** @src rust/connectors/sink/src/store.rs 108-120 Store::head *)
Definition store_head (s : Store) : res StoreError bytes :=
  match last (rows s) with
  | None => Ok GENESIS
  | Some r =>
      if zlen (row_record_hash r) =? 32 then Ok (row_record_hash r)
      else Err (BadStoredHash (zlen (row_record_hash r)))
  end.

(** @src rust/connectors/sink/src/store.rs 122-126 Store::count *)
Definition count (s : Store) : Z := zlen (rows s).

(** @src rust/connectors/sink/src/store.rs 137-175 Store::append *)
Definition append (s : Store) (sealed : bytes) (e : Event) (at_ : string) :
    res StoreError (Store * Appended) :=
  prev ← store_head s;
  let record_hash := link prev sealed in
  let loc := ev_location e in
  (* the UNIQUE index on record_hash, and the largest rowid *)
  if existsb (λ r, bool_decide (row_record_hash r = record_hash)) (rows s)
     || (2 ^ 63 - 1 <=? last_rowid s)
  then Err Constraint
  else
    let seq := last_rowid s + 1 in
    let row := mkRow seq at_ (ev_source_id e) (ev_id e) (ev_entity_type e) (ev_timestamp e)
      (latitude <$> loc) (longitude <$> loc) (altitude_m <$> loc) sealed prev record_hash in
    Ok (mkStore (rows s ++ [row]) seq, mkAppended seq record_hash).

(** @src rust/connectors/sink/src/store.rs 177-238 Store::audit *)
Fixpoint audit_rows keys (rs : list Row) (expected_prev : bytes) (expected_seq records : Z) : Audit :=
  match rs with
  | [] => Intact records expected_prev
  | r :: rs =>
      if negb (row_seq r =? expected_seq) then
        Broken expected_seq ("record " +:+ show expected_seq +:+ " is missing (next stored is "
          +:+ show (row_seq r) +:+ ")")
      else if negb (bool_decide (row_prev_hash r = expected_prev)) then
        Broken (row_seq r) "previous-hash does not match the record before it"
      else
        let recomputed := link expected_prev (row_sealed r) in
        if negb (bool_decide (row_record_hash r = recomputed)) then
          Broken (row_seq r) "record hash does not match its stored bytes"
        else match keys !! row_source_id r with
        | None => Broken (row_seq r) ("no verifying key configured for source " +:+ row_source_id r)
        | Some k =>
            match verify (row_sealed r) k with
            | Ok _ => audit_rows keys rs recomputed (expected_seq + 1) (records + 1)
            | _ => Broken (row_seq r) ("signature does not verify for source " +:+ row_source_id r)
            end
        end
  end.
Definition audit keys (s : Store) : Audit := audit_rows keys (rows s) GENESIS 1 0.

(** @src rust/connectors/sink/src/store.rs 248-261 accept *)
Definition accept keys (sealed : bytes) : res Refusal Event :=
  e ← ok_or Undecodable (decode (drop (Z.to_nat (Z.min SEAL_SIGNATURE_LEN (zlen sealed))) sealed));
  k ← ok_or (UnregisteredSource (ev_source_id e)) (keys !! ev_source_id e);
  map_err Signature (verify sealed k) ;;
  Ok e.

(** @src rust/connectors/sink/src/main.rs 175-219 run *)
Fixpoint record_all keys (ms : list (bytes * string)) (s : Store) (accepted refused : Z) :
    res StoreError (Store * Z * Z) :=
  match ms with
  | [] => Ok (s, accepted, refused)
  | (sealed, received_at) :: ms =>
      match accept keys sealed with
      | Ok e =>
          '(s, _) ← append s sealed e received_at;
          record_all keys ms s (accepted + 1) refused
      | _ => record_all keys ms s accepted (refused + 1)
      end
  end.

(** * What an intact chain is *)

(** [chain keys p n rs h]: the rows continue a chain whose last hash is [p] and
    whose next sequence number is [n], and end it at [h]. *)
Inductive chain keys : bytes → Z → list Row → bytes → Prop :=
| chain_nil p n : chain keys p n [] p
| chain_cons p n r rs h k c :
    row_seq r = n → row_prev_hash r = p → row_record_hash r = link p (row_sealed r) →
    keys !! row_source_id r = Some k → verify (row_sealed r) k = Ok c →
    chain keys (row_record_hash r) (n + 1) rs h →
    chain keys p n (r :: rs) h.

Lemma audit_rows_intact keys rs p n m k h :
  audit_rows keys rs p n m = Intact k h ↔ chain keys p n rs h ∧ k = m + zlen rs.
Proof.
  revert p n m. induction rs as [|r rs IH]; intros p n m; simpl.
  - change (zlen (@nil Row)) with 0. rewrite Z.add_0_r. split.
    + intros [= <- <-]. split; [constructor|done].
    + intros [H ->]. by inversion H.
  - rewrite zlen_cons. split.
    + intros H. destruct (row_seq r =? n) eqn:Hs; [|done]. case_bool_decide as Hp; [|done].
      case_bool_decide as Hh; [|done]. simpl in H.
      destruct (keys !! row_source_id r) as [key|] eqn:Hk; [|done].
      destruct (verify (row_sealed r) key) as [c| | |] eqn:Hv; try done.
      apply IH in H as [Hc ->]. bool_prop. split; [|lia].
      econstructor; try done. by rewrite Hh.
    + intros [H ->]. inversion H as [|? ? ? ? ? key c Hs Hp Hh Hk Hv Hc]; subst.
      rewrite Z.eqb_refl. rewrite !bool_decide_eq_true_2 by done. simpl. rewrite Hk, Hv.
      apply IH. rewrite <- Hh. split; [done|lia].
Qed.

Lemma audit_intact keys s k h :
  audit keys s = Intact k h ↔ chain keys GENESIS 1 (rows s) h ∧ k = zlen (rows s).
Proof. unfold audit. by rewrite audit_rows_intact, Z.add_0_l. Qed.

Lemma chain_app keys p n rs rs' h :
  chain keys p n (rs ++ rs') h ↔ ∃ m, chain keys p n rs m ∧ chain keys m (n + zlen rs) rs' h.
Proof.
  revert p n. induction rs as [|r rs IH]; intros p n; simpl.
  - change (zlen (@nil Row)) with 0. rewrite Z.add_0_r. split; [intros; exists p; split; [constructor|done]|].
    intros (m & Hm & H). by inversion Hm; subst.
  - rewrite zlen_cons, Z.add_assoc. split.
    + intros H. inversion H as [|? ? ? ? ? ? ? ? ? ? ? ? Hr]; subst.
      apply IH in Hr as (m & ? & ?). exists m. split; [|done]. by econstructor.
    + intros (m & H & H'). inversion H; subst. econstructor; try done. apply IH. eauto.
Qed.

Lemma chain_last keys p n rs r h :
  chain keys p n (rs ++ [r]) h →
  ∃ m, chain keys p n rs m ∧ h = link m (row_sealed r) ∧ row_record_hash r = h ∧ row_prev_hash r = m.
Proof.
  intros (m & Hm & H)%chain_app. exists m. inversion H; subst.
  match goal with H : chain _ _ _ [] _ |- _ => inversion H; subst end. done.
Qed.

(** The head of a non-empty chain is the last stored hash, of a block's width. *)
Lemma chain_head keys p n rs h :
  chain keys p n rs h → match last rs with None => h = p | Some r => row_record_hash r = h end.
Proof.
  induction rs as [|r rs _] using rev_ind; intros H; [by inversion H|].
  rewrite last_snoc. by apply chain_last in H as (? & _ & _ & ? & _).
Qed.

Section laws.
Hypothesis sha256_len : ∀ m, zlen (sha256 m) = 32.

Lemma chain_head_len keys p n rs h : zlen p = 32 → chain keys p n rs h → zlen h = 32.
Proof.
  intros Hp H. induction rs as [|r rs _] using rev_ind; [by inversion H; subst|].
  apply chain_last in H as (m & _ & -> & _). apply sha256_len.
Qed.

Lemma store_head_chain keys s h : chain keys GENESIS 1 (rows s) h → store_head s = Ok h.
Proof.
  intros H. unfold store_head. pose proof (chain_head _ _ _ _ _ H) as Hh.
  assert (zlen h = 32) by (eapply chain_head_len; [|done]; done).
  destruct (last (rows s)); subst; [|done]. rewrite H0. done.
Qed.

(** Appending a record whose seal verifies extends the chain by it. *)
Lemma append_chain keys s sealed e at_ h k c s' a :
  chain keys GENESIS 1 (rows s) h → last_rowid s = zlen (rows s) →
  keys !! ev_source_id e = Some k → verify sealed k = Ok c →
  append s sealed e at_ = Ok (s', a) →
  chain keys GENESIS 1 (rows s') (link h sealed) ∧ last_rowid s' = zlen (rows s')
  ∧ (row_sealed <$> rows s') = (row_sealed <$> rows s) ++ [sealed]
  ∧ app_seq a = zlen (rows s) + 1 ∧ app_record_hash a = link h sealed.
Proof.
  intros Hc Hl Hk Hv. unfold append. rewrite (store_head_chain _ _ _ Hc). simpl.
  case_in_goal; [done|]. intros [= <- <-]. simpl. rewrite Hl.
  split_and!; try done.
  - apply chain_app. exists h. split; [done|]. econstructor; simpl; try done; [lia|constructor].
  - rewrite zlen_app. change (zlen [_]) with 1. done.
  - by rewrite fmap_app.
Qed.

Lemma verify_prefix sealed k c : verify sealed k = Ok c → c = drop 64 sealed ∧ 64 ≤ zlen sealed.
Proof.
  intros (s & Hz & Hs & _ & _)%verify_Ok. pose proof (zlen_nonneg c).
  assert (length (take 64 sealed) = 64%nat) by (rewrite length_take; unfold zlen in *; lia).
  split; [|lia]. rewrite Hs. by rewrite drop_app_length'.
Qed.

Lemma accept_Ok keys sealed e :
  accept keys sealed = Ok e ↔
  ∃ k c, keys !! ev_source_id e = Some k ∧ verify sealed k = Ok c ∧ decode c = Some e.
Proof.
  unfold accept, SEAL_SIGNATURE_LEN. split.
  - intros H. inv_ok. destruct (verify sealed x0) as [c| | |] eqn:Hv; try done.
    exists x0, c. destruct (verify_prefix _ _ _ Hv) as [-> ?]. split_and!; try done.
    by replace (Z.min 64 (zlen sealed)) with 64 in * by lia.
  - intros (k & c & Hk & Hv & Hd). destruct (verify_prefix _ _ _ Hv) as [-> ?].
    replace (Z.min 64 (zlen sealed)) with 64 by lia. change (Z.to_nat 64) with 64%nat.
    rewrite Hd. simpl. rewrite Hk. simpl. by rewrite Hv.
Qed.

Definition accepts keys (m : bytes) : bool :=
  match accept keys m with Ok _ => true | _ => false end.

Lemma record_all_refused keys sealed at_ ms s acc refu :
  accepts keys sealed = false →
  record_all keys ((sealed, at_) :: ms) s acc refu = record_all keys ms s acc (refu + 1).
Proof. unfold accepts. simpl. by destruct (accept keys sealed). Qed.

Lemma accepts_true keys m : accepts keys m = true → ∃ e, accept keys m = Ok e.
Proof. unfold accepts. destruct (accept keys m); naive_solver. Qed.

Lemma record_all_chain keys ms s h acc refu s' acc' refu' :
  chain keys GENESIS 1 (rows s) h → last_rowid s = zlen (rows s) →
  record_all keys ms s acc refu = Ok (s', acc', refu') →
  ∃ h', chain keys GENESIS 1 (rows s') h' ∧ last_rowid s' = zlen (rows s')
    ∧ (row_sealed <$> rows s') = (row_sealed <$> rows s)
        ++ filter (λ m, Is_true (accepts keys m)) (ms.*1)
    ∧ acc' + refu' = acc + refu + zlen ms
    ∧ acc' - acc = zlen (rows s') - zlen (rows s).
Proof.
  revert s h acc refu. induction ms as [|[sealed at_] ms IH]; intros s h acc refu Hc Hl.
  - intros [= <- <- <-]. exists h. rewrite app_nil_r. change (zlen (@nil (bytes * string))) with 0.
    split_and!; try done; lia.
  - rewrite zlen_cons. change (((sealed, at_) :: ms).*1) with (sealed :: ms.*1).
    destruct (accepts keys sealed) eqn:Ha.
    + destruct (accepts_true _ _ Ha) as [e He]. simpl. rewrite He. intros H. inv_ok. destruct x as [s1 a].
      destruct (proj1 (accept_Ok _ _ _) He) as (k & c & Hk & Hv & _).
      destruct (append_chain _ _ _ _ _ _ _ _ _ _ Hc Hl Hk Hv H) as (Hc1 & Hl1 & Hs1 & _).
      destruct (IH _ _ _ _ Hc1 Hl1 H0) as (h' & ? & ? & Hs & ? & ?).
      exists h'. assert (zlen (rows s1) = zlen (rows s) + 1) as Hz.
      { apply (f_equal zlen) in Hs1. rewrite zlen_app in Hs1. change (zlen [sealed]) with 1 in Hs1.
        unfold zlen in *. by rewrite !length_fmap in Hs1. }
      split_and!; try done; [|lia..].
      rewrite Hs, Hs1, filter_cons_True by (by rewrite Ha). rewrite <- app_assoc. reflexivity.
    + rewrite record_all_refused by done. intros H.
      destruct (IH _ _ _ _ Hc Hl H) as (h' & ? & ? & ? & ? & ?).
      exists h'. split_and!; try done; [|lia]. rewrite filter_cons_False by (rewrite Ha; intros []). done.
Qed.

(** A row of each list whose different hash inputs have one hash. *)
Definition collision (rs rs' : list Row) : Prop :=
  ∃ r r', r ∈ rs ∧ r' ∈ rs' ∧ row_prev_hash r ++ row_sealed r ≠ row_prev_hash r' ++ row_sealed r'
    ∧ link (row_prev_hash r) (row_sealed r) = link (row_prev_hash r') (row_sealed r').

(** Two chains of one length with one head hold the same sealed bytes, unless
    two of their links collide. *)
Lemma chain_injective keys keys' rs rs' h :
  length rs = length rs' → chain keys GENESIS 1 rs h → chain keys' GENESIS 1 rs' h →
  (row_sealed <$> rs) = (row_sealed <$> rs') ∨ collision rs rs'.
Proof.
  revert rs' h. induction rs as [|r rs IH] using rev_ind; intros rs' h Hl H H'.
  - destruct rs'; [by left|done].
  - destruct rs' as [|r' rs' _] using rev_ind; [rewrite length_app in Hl; simpl in Hl; lia|].
    rewrite !length_app in Hl. simpl in Hl.
    apply chain_last in H as (m & Hm & Hh & _ & Hp). apply chain_last in H' as (m' & Hm' & Hh' & _ & Hp').
    destruct (decide (m ++ row_sealed r = m' ++ row_sealed r')) as [He|Hne].
    + assert (zlen m = 32) by (eapply chain_head_len; [|done]; done).
      assert (zlen m' = 32) by (eapply chain_head_len; [|done]; done).
      apply app_inj_1 in He as [-> He]; [|unfold zlen in *; lia].
      destruct (IH rs' m') as [Hs|(x & x' & Hx & Hx' & Hc)]; [lia|done..| |].
      * left. rewrite !fmap_app, Hs. simpl. by rewrite He.
      * right. exists x, x'. rewrite !elem_of_app. auto.
    + right. exists r, r'. rewrite !elem_of_app, !list_elem_of_singleton, Hp, Hp'. split_and!; auto. congruence.
Qed.

(** A row either continues the chain or is where the audit stops. *)
Lemma link_ok_dec keys p n r :
  (∃ k c, row_seq r = n ∧ row_prev_hash r = p ∧ row_record_hash r = link p (row_sealed r)
    ∧ keys !! row_source_id r = Some k ∧ verify (row_sealed r) k = Ok c)
  ∨ (¬ (∃ k c, row_seq r = n ∧ row_prev_hash r = p ∧ row_record_hash r = link p (row_sealed r)
        ∧ keys !! row_source_id r = Some k ∧ verify (row_sealed r) k = Ok c)
     ∧ ∀ rs m b reason, audit_rows keys (r :: rs) p n m = Broken b reason → b = n).
Proof.
  simpl. destruct (Z.eqb_spec (row_seq r) n) as [Hs|Hs]; [|right; split; [intros (?&?&?&?&?&?&?); congruence|by intros ? ? ? ? [= <-]]].
  case_bool_decide as Hp; [|right; split; [intros (?&?&?&?&?&?&?); congruence|intros ? ? ? ? [= <-]; done]].
  case_bool_decide as Hh; [|right; split; [intros (?&?&?&?&?&?&?); congruence|intros ? ? ? ? [= <-]; done]]. simpl.
  destruct (keys !! row_source_id r) as [k|] eqn:Hk;
    [|right; split; [intros (?&?&?&?&?&?&?); congruence|intros ? ? ? ? [= <-]; done]].
  destruct (verify (row_sealed r) k) as [c| | |] eqn:Hv;
    [left; eauto 10|right; split; [intros (?&?&?&?&?&?&?); congruence|intros ? ? ? ? [= <-]; done]..].
Qed.

Lemma audit_rows_app keys rs rs' p n k m :
  chain keys p n rs m →
  audit_rows keys (rs ++ rs') p n k = audit_rows keys rs' m (n + zlen rs) (k + zlen rs).
Proof.
  intros H. revert k. induction H as [p n|p n r rs h key c Hs Hp Hh Hk Hv Hc IH]; intros k; simpl.
  - change (zlen (@nil Row)) with 0. by rewrite !Z.add_0_r.
  - rewrite Hs, Z.eqb_refl, Hp, Hh, !bool_decide_eq_true_2, Hk, Hv by done. simpl.
    rewrite <- Hh, IH, zlen_cons. f_equal; lia.
Qed.

(** The columns the audit selects. *)
Definition audited (r : Row) : Z * string * bytes * bytes * bytes :=
  (row_seq r, row_source_id r, row_sealed r, row_prev_hash r, row_record_hash r).

Lemma audit_rows_audited keys f rs p n m :
  (∀ r, audited (f r) = audited r) → audit_rows keys (f <$> rs) p n m = audit_rows keys rs p n m.
Proof.
  intros Hf. revert p n m. induction rs as [|r rs IH]; intros p n m; [done|].
  rewrite fmap_cons. cbn [audit_rows]. pose proof (Hf r) as H. unfold audited in H. injection H as -> -> -> -> ->.
  repeat case_match; auto.
Qed.

(** * Properties *)

(** C5: the audit reports [Intact] exactly on a complete chain: sequence numbers
    1, 2, 3, ... with no gap, every link the hash of the one before and the
    stored bytes, every signature valid under its source's registered key; the
    count and head it reports are those of the chain. *)
Theorem audit_iff_chain keys s k h :
  audit keys s = Intact k h ↔ chain keys GENESIS 1 (rows s) h ∧ k = zlen (rows s).
Proof. apply audit_intact. Qed.

(** a refusal names the first bad record: everything before it is an intact
    chain, and no chain continues through it. *)
Theorem audit_broken_first keys s n reason :
  audit keys s = Broken n reason →
  ∃ p r q m, rows s = p ++ r :: q ∧ chain keys GENESIS 1 p m ∧ n = zlen p + 1
    ∧ ∀ h, ¬ chain keys GENESIS 1 (p ++ [r]) h.
Proof.
  unfold audit. enough (∀ rs p0 n0 m0, audit_rows keys rs p0 n0 m0 = Broken n reason →
    ∃ p r q m, rs = p ++ r :: q ∧ chain keys p0 n0 p m ∧ n = n0 + zlen p
      ∧ ∀ h, ¬ chain keys p0 n0 (p ++ [r]) h) as H.
  { intros Hb. destruct (H _ _ _ _ Hb) as (p & r & q & m & ? & ? & ? & ?).
    exists p, r, q, m. split_and!; try done. lia. }
  intros rs. induction rs as [|r rs IH]; intros p0 n0 m0; simpl; [done|].
  intros H.
  pose proof (link_ok_dec keys p0 n0 r) as [(k & c & Hs & Hp & Hh & Hk & Hv)|[Hn Hb]].
  - rewrite Hs, Z.eqb_refl, Hp, Hh, !bool_decide_eq_true_2, Hk, Hv in H by done. simpl in H.
    destruct (IH _ _ _ H) as (p & r' & q & m & -> & Hc & -> & Hno).
    exists (r :: p), r', q, m. rewrite zlen_cons. split_and!; try done; [|lia|].
    + econstructor; try done. by rewrite Hh.
    + intros h Hch. inversion Hch as [|? ? ? ? ? ? ? ? ? ? ? ? Hr]; subst.
      apply (Hno h). by rewrite <- Hh.
  - exists [], r, rs, p0. split_and!; [done|constructor| |].
    + change (zlen (@nil Row)) with 0. rewrite Z.add_0_r. by eapply Hb.
    + intros h Hch. simpl in Hch. inversion Hch; subst. apply Hn. eauto 10.
Qed.

(** a store cannot be rewritten behind a known head: two stores that audit
    intact with the same number of records and the same head hold the same
    envelopes in the same order, or a link of the one and a link of the other
    are a SHA-256 collision. *)
Theorem audit_tamper_evident keys keys' s s' k h :
  audit keys s = Intact k h → audit keys' s' = Intact k h →
  (row_sealed <$> rows s) = (row_sealed <$> rows s') ∨ collision (rows s) (rows s').
Proof.
  intros [Hc Hk]%audit_intact [Hc' Hk']%audit_intact.
  eapply chain_injective; [|exact Hc|exact Hc']. unfold zlen in *. lia.
Qed.

(** C35: the record loop, started on a new database, leaves a store that audits
    intact: it holds exactly the envelopes that were accepted, in arrival
    order, and every message is counted as accepted or refused. *)
Theorem record_all_intact keys ms s acc refu :
  record_all keys ms empty_store 0 0 = Ok (s, acc, refu) →
  (∃ h, audit keys s = Intact acc h)
  ∧ (row_sealed <$> rows s) = filter (λ m, Is_true (accepts keys m)) ms.*1
  ∧ acc + refu = zlen ms.
Proof.
  intros H. destruct (record_all_chain keys ms empty_store GENESIS 0 0 s acc refu) as
    (h & Hc & Hl & Hs & Ht & Ha); [constructor|done|done|].
  change (zlen (rows empty_store)) with 0 in Ha. split_and!; [|done|lia].
  exists h. apply audit_intact. split; [done|lia].
Qed.

(** an envelope is accepted exactly when the source named inside it has a
    registered key and the seal verifies under that key over the very bytes the
    event is read from. *)
Theorem accept_sound_complete keys sealed e :
  accept keys sealed = Ok e ↔
  ∃ k c, keys !! ev_source_id e = Some k ∧ verify sealed k = Ok c ∧ decode c = Some e.
Proof. apply accept_Ok. Qed.

(** what the audit cannot see: delete the newest records, and what is left of
    an intact store still audits intact; edit any column but the five the audit
    reads (the position, the identity, the time a query would return), and the
    verdict does not change. *)
Theorem audit_blind_spots keys s :
  (∀ k h n, audit keys s = Intact k h → 0 ≤ n ≤ k →
     ∃ h', audit keys (mkStore (take (Z.to_nat n) (rows s)) (last_rowid s)) = Intact n h')
  ∧ (∀ f, (∀ r, audited (f r) = audited r) → audit keys (mkStore (f <$> rows s) (last_rowid s)) = audit keys s).
Proof.
  split.
  - intros k h n [Hc ->]%audit_intact Hn. rewrite <- (take_drop (Z.to_nat n) (rows s)) in Hc.
    apply chain_app in Hc as (m & Hm & _). exists m. apply audit_intact. split; [done|].
    simpl. unfold zlen in *. rewrite length_take. lia.
  - intros f Hf. by apply audit_rows_audited.
Qed.

(** but it shows as soon as the sink records again: [AUTOINCREMENT] does
    not reuse a number, so the next row leaves a gap the audit names. *)
Theorem truncation_caught_later keys s k h n sealed e at_ s' a :
  audit keys s = Intact k h → last_rowid s = k → 0 ≤ n < k →
  append (mkStore (take (Z.to_nat n) (rows s)) (last_rowid s)) sealed e at_ = Ok (s', a) →
  ∃ reason, audit keys s' = Broken (n + 1) reason.
Proof.
  intros [Hc ->]%audit_intact Hl Hn Ha.
  rewrite <- (take_drop (Z.to_nat n) (rows s)) in Hc. apply chain_app in Hc as (m & Hm & _).
  unfold append in Ha. rewrite (store_head_chain keys (mkStore (take (Z.to_nat n) (rows s)) (last_rowid s)) m Hm) in Ha. simpl in Ha.
  case_in Ha; [done|]. injection Ha as <- _. unfold audit. simpl.
  assert (zlen (take (Z.to_nat n) (rows s)) = n) as Hz by (unfold zlen in *; rewrite length_take; lia).
  rewrite (audit_rows_app keys _ _ _ _ 0 m Hm), Hz. simpl.
  replace (last_rowid s + 1 =? 1 + n) with false by lia. simpl.
  eexists. f_equal. lia.
Qed.
End laws.
End store.

(** * A concrete hash for the witnesses *)

Definition toy_hash (m : bytes) : bytes := be_enc 32 (fold_left (λ a b, (a * 257 + b + 1) mod 2 ^ 256) m 1).
Lemma toy_hash_len m : zlen (toy_hash m) = 32.
Proof. apply be_enc_zlen. Qed.

Definition ex_keys : gmap string Z := {[ "a"%string := 5; "b"%string := 6 ]}.
Definition ex_stream : list (bytes * string) :=
  [(@seal toy [1] 5, "t1"%string); ([7], "t2"%string); (@seal toy [2] 6, "t3"%string);
   (@seal toy [2] 5, "t4"%string)].
Definition ex_store : Store :=
  match record_all (C := toy) toy_hash toy_decode ex_keys ex_stream empty_store 0 0 with
  | Ok (s, _, _) => s
  | _ => empty_store
  end.
Definition ex_head : bytes := match audit (C := toy) toy_hash ex_keys ex_store with Intact _ h => h | _ => [] end.

Lemma record_all_intact_witness :
  (∃ h, audit (C := toy) toy_hash ex_keys ex_store = Intact 2 h)
  ∧ (row_sealed <$> rows ex_store) = [@seal toy [1] 5; @seal toy [2] 6].
Proof.
  destruct (record_all_intact (C := toy) toy_hash toy_decode toy_hash_len ex_keys ex_stream ex_store 2 2)
    as (H & Hs & _); [vm_compute; reflexivity|]. split; [exact H|]. rewrite Hs. vm_compute. reflexivity.
Defined.

(** The same envelopes under rows whose metadata was changed. *)
Definition ex_store' : Store :=
  mkStore ((λ r, mkRow (row_seq r) "later" (row_source_id r) "x" "y" "z" None None None (row_sealed r)
                   (row_prev_hash r) (row_record_hash r)) <$> rows ex_store) 7.

Lemma audit_tamper_evident_witness :
  (row_sealed <$> rows ex_store) = (row_sealed <$> rows ex_store') ∨ collision toy_hash (rows ex_store) (rows ex_store').
Proof.
  apply (audit_tamper_evident (C := toy) toy_hash toy_hash_len ex_keys ex_keys ex_store ex_store' 2 ex_head);
    vm_compute; reflexivity.
Defined.

Lemma audit_broken_first_witness :
  ∃ p r q m, rows (mkStore (drop 1 (rows ex_store)) 2) = p ++ r :: q
    ∧ chain (C := toy) toy_hash ex_keys GENESIS 1 p m ∧ 1 = zlen p + 1
    ∧ ∀ h, ¬ chain (C := toy) toy_hash ex_keys GENESIS 1 (p ++ [r]) h.
Proof.
  apply (audit_broken_first (C := toy) toy_hash ex_keys (mkStore (drop 1 (rows ex_store)) 2) 1
    "record 1 is missing (next stored is 2)"%string). vm_compute. reflexivity.
Defined.

Lemma audit_blind_spots_witness :
  (∃ h', audit (C := toy) toy_hash ex_keys (mkStore (take 1 (rows ex_store)) 2) = Intact 1 h')
  ∧ audit (C := toy) toy_hash ex_keys (mkStore ((λ r, mkRow (row_seq r) "later" (row_source_id r) "x" "y" "z" None None
      None (row_sealed r) (row_prev_hash r) (row_record_hash r)) <$> rows ex_store) (last_rowid ex_store))
    = audit (C := toy) toy_hash ex_keys ex_store.
Proof.
  destruct (audit_blind_spots (C := toy) toy_hash ex_keys ex_store) as [H1 H2]. split.
  - apply (H1 2 ex_head 1); [vm_compute; reflexivity|lia].
  - by apply H2.
Defined.

Lemma truncation_caught_later_witness :
  ∃ reason s', audit (C := toy) toy_hash ex_keys s' = Broken 2 reason.
Proof.
  destruct (append toy_hash (mkStore (take 1 (rows ex_store)) 2) (@seal toy [2] 6)
    (ex_event "b"%string) "t5"%string) as [[s' a]| | |] eqn:Ha; [|vm_compute in Ha; discriminate Ha..].
  destruct (truncation_caught_later (C := toy) toy_hash toy_hash_len ex_keys ex_store 2 ex_head 1
    (@seal toy [2] 6) (ex_event "b"%string) "t5"%string s' a) as [r Hr];
    [vm_compute; reflexivity|reflexivity|lia|exact Ha|]. exists r, s'. exact Hr.
Defined.
