(* ===== verification/Keys.v ===== *)
(** Key files and what registers a source: the seed of a connector
    (rust/connectors/common/src/key.rs), the keys a sink is set up with and [mint]
    (rust/connectors/sink/src/main.rs), and the key and seal check of
    rust/ajar-verify/src/main.rs. The hex crate is a parameter with its documented
    behaviour. *)
From Stdlib Require Import ZArith Lia.
From Stdlib Require Import Strings.String.
From S2P Require Export Store.

Local Open Scope Z_scope.

(** * Keys as bytes *)

(** [SigningKey::from_bytes], [VerifyingKey::from_bytes] and [to_bytes]. *)
Class KeyCodec (C : Ed25519) := {
  sk_from_bytes : bytes → skey;
  vk_from_bytes : bytes → option vkey;
  vk_to_bytes : vkey → bytes
}.

(** A verifying key is 32 bytes, and is read back from them. *)
Class KeyCodecLaws {C : Ed25519} (K : KeyCodec C) := {
  vk_len : ∀ v, zlen (vk_to_bytes v) = 32;
  vk_bytes : ∀ v, bytes_ok (vk_to_bytes v);
  vk_roundtrip : ∀ v, vk_from_bytes (vk_to_bytes v) = Some v
}.

(** The hex crate: [encode] in lower case, [decode] in either. *)
Class Hex := { hex_encode : bytes → bytes; hex_decode : bytes → option bytes }.
Definition lower_hex (c : Z) : Prop := 48 ≤ c ≤ 57 ∨ 97 ≤ c ≤ 102.
Class HexLaws (H : Hex) := {
  hex_roundtrip : ∀ b, bytes_ok b → hex_decode (hex_encode b) = Some b;
  hex_lower : ∀ b, bytes_ok b → Forall lower_hex (hex_encode b);
  hex_len : ∀ b, zlen (hex_encode b) = 2 * zlen b;
  hex_case : ∀ s, hex_decode (ascii_lower s) = hex_decode s
}.

(** [<[u8; 32]>::try_from]. *)
Definition exactly (n : Z) (b : bytes) : option bytes := if zlen b =? n then Some b else None.

Inductive KeyError := Unreadable | NotHex | NotLength | NotAKey | NameUnreadable.

Section keys.
Context `{C : Ed25519} `{K : !KeyCodec C} `{H : Hex}.

(** @src rust/connectors/common/src/key.rs 6-33 load *)
Definition load_key (file : option bytes) : res KeyError skey :=
  raw ← ok_or Unreadable file;
  seed ← match exactly 32 raw with
         | Some seed => Ok seed
         | None => b ← ok_or NotHex (hex_decode (trim (utf8_lossy raw))); ok_or NotLength (exactly 32 b)
         end;
  Ok (sk_from_bytes seed).

(** @src rust/connectors/sink/src/main.rs 98-102 decode_key *)
Definition decode_key (hex_key : bytes) : res KeyError vkey :=
  raw ← ok_or NotHex (hex_decode (trim hex_key));
  b ← ok_or NotLength (exactly 32 raw);
  ok_or NotAKey (vk_from_bytes b).

(** [Path::file_stem] and [Path::extension] of a file name. *)
Definition stem_of (name : string) : string :=
  match rfind_byte 46 (s2b name) with Some k => if k =? 0 then name else b2s (take (Z.to_nat k) (s2b name)) | None => name end.
Definition extension_of (name : string) : option string :=
  match rfind_byte 46 (s2b name) with Some k => if k =? 0 then None else Some (b2s (drop (Z.to_nat (k + 1)) (s2b name))) | None => None end.

(** The [sources] table, in any order. *)
Fixpoint table_keys (sources : list (string * bytes)) (keys : gmap string vkey) : res KeyError (gmap string vkey) :=
  match sources with
  | [] => Ok keys
  | (source, hex_key) :: sources => k ← decode_key hex_key; table_keys sources (<[source := k]> keys)
  end.

(** The files of the directory, in the order [read_dir] lists them; one that is not
    a text is not read. *)
Fixpoint file_keys (entries : list (string * bytes)) (keys : gmap string vkey) : res KeyError (gmap string vkey) :=
  match entries with
  | [] => Ok keys
  | (name, contents) :: entries =>
      if bool_decide (extension_of name = Some "pub"%string) then
        guard_res (utf8_valid (s2b name)) NameUnreadable ;;
        guard_res (utf8_valid contents) Unreadable ;;
        k ← decode_key contents;
        file_keys entries (<[stem_of name := k]> keys)
      else file_keys entries keys
  end.

(** @src rust/connectors/sink/src/main.rs 68-95 Config::keys *)
Definition sink_keys (sources : list (string * bytes)) (sources_dir : option (list (string * bytes))) : res KeyError (gmap string vkey) :=
  keys ← table_keys sources ∅;
  match sources_dir with None => Ok keys | Some entries => file_keys entries keys end.

(** @src rust/connectors/sink/src/main.rs 251-282 mint *)
Definition mint (source_id : string) (fresh : bytes) (dir : gmap string bytes) : gmap string bytes :=
  let seed_path := (source_id ++ ".seed")%string in
  let pub_path := (source_id ++ ".pub")%string in
  match dir !! seed_path with
  | Some _ => dir
  | None => <[pub_path := hex_encode (vk_to_bytes (verifying_key (sk_from_bytes fresh)))]> (<[seed_path := fresh]> dir)
  end.

(** @src rust/ajar-verify/src/main.rs 103-117 parse_key *)
Definition parse_key (raw : bytes) : res KeyError vkey :=
  let trimmed := filter (λ b, is_ascii_ws b = false) raw in
  b ← (if zlen trimmed =? 64 then b ← ok_or NotHex (hex_decode trimmed); ok_or NotHex (exactly 32 b)
       else if zlen trimmed =? 32 then Ok trimmed
       else Err NotLength);
  ok_or NotAKey (vk_from_bytes b).

End keys.

(** * What a registered key admits *)


Lemma utf8_lossy_ascii l : Forall (λ b, 0 ≤ b < 128) l → utf8_lossy l = l.
Proof. induction 1 as [|b l Hb Hl IH]; [done|]. cbn [utf8_lossy]. replace (b <? 128) with true by lia. by rewrite IH. Qed.

Lemma lower_hex_text l : Forall lower_hex l → trim l = l ∧ ascii_lower l = l ∧ utf8_valid l = true ∧ utf8_lossy l = l.
Proof.
  intros Hl. unfold lower_hex in Hl. split_and!.
  - apply trim_plain. eapply Forall_impl; [exact Hl|]. intros b Hb. cbn in Hb. unfold ws1. lia.
  - unfold ascii_lower. rewrite <- (list_fmap_id l) at 2. apply list_fmap_ext. intros i b Hb. apply (Forall_lookup_1 _ _ _ _ Hl) in Hb.
    unfold to_lower, is_upper. cbn in Hb |- *. case_match; [lia|done].
  - apply utf8_ascii. eapply Forall_impl; [exact Hl|]. intros b Hb. cbn in Hb. lia.
  - apply utf8_lossy_ascii. eapply Forall_impl; [exact Hl|]. intros b Hb. cbn in Hb. lia.
Qed.

(** A name with an extension, and every name that has one. *)
Lemma named s x : s ≠ ""%string → 46 ∉ s2b x → stem_of (s ++ "." ++ x) = s ∧ extension_of (s ++ "." ++ x) = Some x.
Proof.
  intros Hs Hx. unfold stem_of, extension_of. rewrite !s2b_app. change (s2b "." ++ s2b x) with (46 :: s2b x). rewrite rfind_byte_app by done.
  destruct (zlen (s2b s) =? 0) eqn:E; [apply Z.eqb_eq in E; destruct s; [done|]; cbn in E; rewrite zlen_cons in E; pose proof (zlen_nonneg (s2b s)); lia|].
  split.
  - rewrite take_app_length' by (unfold zlen; lia). apply b2s_s2b.
  - replace (Z.to_nat (zlen (s2b s) + 1)) with (S (length (s2b s))) by (unfold zlen; lia).
    rewrite drop_app_ge by lia. replace (S (length (s2b s)) - length (s2b s))%nat with 1%nat by lia. change (drop 1 (46 :: s2b x)) with (s2b x). by rewrite b2s_s2b.
Qed.

Lemma name_parts n x : extension_of n = Some x → n = (stem_of n ++ "." ++ x)%string.
Proof.
  unfold extension_of, stem_of. destruct (rfind_byte 46 (s2b n)) as [k|] eqn:E; [|done]. destruct (k =? 0); [done|]. intros [= <-].
  pose proof (rfind_byte_Some _ _ _ E) as Hk. apply rfind_byte_at in E. rewrite <- (b2s_s2b n) at 1.
  rewrite <- (b2s_s2b "."), <- !b2s_app. f_equal. change (s2b "." ++ drop (Z.to_nat (k + 1)) (s2b n)) with (46 :: drop (Z.to_nat (k + 1)) (s2b n)).
  apply get_Some in E as [_ E]. replace (Z.to_nat (k + 1)) with (S (Z.to_nat k)) by lia. symmetry. by apply take_drop_middle.
Qed.

Section laws.
Context `{C : Ed25519} `{CL : !Ed25519Laws C} `{K : !KeyCodec C} `{KL : !KeyCodecLaws K} `{H : Hex} `{HL : !HexLaws H}.
Implicit Types keys : gmap string vkey.

Lemma decode_key_hex v text : ascii_lower (trim text) = hex_encode (vk_to_bytes v) → decode_key text = Ok v.
Proof.
  intros Ht. unfold decode_key. rewrite <- hex_case, Ht, hex_roundtrip by apply vk_bytes. cbn [ok_or mbind res_bind].
  unfold exactly. rewrite vk_len. cbn. by rewrite vk_roundtrip.
Qed.

Lemma vk_text v : let t := hex_encode (vk_to_bytes v) in ascii_lower (trim t) = t ∧ utf8_valid t = true.
Proof. cbv zeta. destruct (lower_hex_text (hex_encode (vk_to_bytes v))) as (-> & -> & Hu & _); [apply hex_lower, vk_bytes|done]. Qed.

(** A file says what it says whatever files are read with it. *)
Lemma file_keys_found entries : ∀ keys m, NoDup entries.*1 → file_keys entries keys = Ok m →
  (∀ s text, s ≠ ""%string → ((s ++ ".pub")%string, text) ∈ entries → ∃ v, decode_key text = Ok v ∧ m !! s = Some v)
  ∧ (∀ s, (∀ text, ((s ++ ".pub")%string, text) ∉ entries) → m !! s = keys !! s).
Proof.
  induction entries as [|[name contents] entries IH]; intros keys m Hn Hf.
  { cbn in Hf. injection Hf as <-. split; [|done]. intros s text _ Hin. by apply elem_of_nil in Hin. }
  cbn [fmap list_fmap] in Hn. apply NoDup_cons in Hn as [Hname Hn]. cbn [file_keys] in Hf. case_bool_decide as He.
  - apply bind_Ok in Hf as (_ & _ & Hf). apply bind_Ok in Hf as (_ & _ & Hf). apply bind_Ok in Hf as (k & Hk & Hf).
    destruct (IH _ _ Hn Hf) as [H1 H2]. pose proof (name_parts _ _ He) as Hp. change ("." ++ "pub")%string with ".pub"%string in Hp. split.
    + intros s text Hs [[= Hsn ->]|Hin]%elem_of_cons; [|by apply H1].
      assert (stem_of name = s) as Hst by (rewrite <- Hsn; apply (named s "pub"); [done|apply (bool_decide_eq_true_1 (_ ∉ _)); vm_compute; reflexivity]).
      exists k. split; [done|]. rewrite H2; [by rewrite Hst, lookup_insert_eq|].
      intros t Hin. apply Hname. rewrite <- Hsn. by apply (list_elem_of_fmap_2 fst _ (_, t)).
    + intros s Hs. rewrite H2 by (intros text Hin; apply (Hs text); by right).
      rewrite lookup_insert_ne; [done|]. intros <-. apply (Hs contents). rewrite <- Hp. by left.
  - destruct (IH _ _ Hn Hf) as [H1 H2]. split.
    + intros s text Hs [[= Hsn ->]|Hin]%elem_of_cons; [|by apply H1]. destruct He. rewrite <- Hsn.
      apply (named s "pub"); [done|]. apply (bool_decide_eq_true_1 (_ ∉ _)); vm_compute; reflexivity.
    + intros s Hs. apply H2. intros text Hin. apply (Hs text). by right.
Qed.
End laws.

(** * Properties *)

Section registered.
Context `{C : Ed25519} `{CL : !Ed25519Laws C} `{K : !KeyCodec C} `{KL : !KeyCodecLaws K} `{H : Hex} `{HL : !HexLaws H}.
Variable decode : bytes → option Event.

(** A source whose registered key is that of the seed. *)
Lemma registered_accepts (keys : gmap string vkey) k canonical e :
  keys !! ev_source_id e = Some (verifying_key k) → decode canonical = Some e → accept decode keys (seal canonical k) = Ok e.
Proof. intros Hk Hd. apply accept_Ok. exists (verifying_key k), canonical. split_and!; [done|apply verify_seal|done]. Qed.

(** C22: a source just minted is registered: once the sink has read the directory, in
    whatever order it lists the files, it accepts every event sealed with the seed the
    connector loads from it under the source's name; and minting again changes nothing. *)
Theorem minted_source_accepted source_id fresh dir table entries keys :
  source_id ≠ ""%string → zlen fresh = 32 → dir !! (source_id ++ ".seed")%string = None →
  entries ≡ₚ map_to_list (mint source_id fresh dir) → sink_keys table (Some entries) = Ok keys →
  (∃ k, load_key (mint source_id fresh dir !! (source_id ++ ".seed")%string) = Ok k
    ∧ ∀ canonical e, decode canonical = Some e → ev_source_id e = source_id → accept decode keys (seal canonical k) = Ok e)
  ∧ ∀ again, mint source_id again (mint source_id fresh dir) = mint source_id fresh dir.
Proof.
  intros Hs Hz Hd He Hk. assert ((source_id ++ ".seed")%string ≠ (source_id ++ ".pub")%string) as Hne by (intros E%(f_equal s2b); rewrite !s2b_app in E; by apply app_inv_head in E).
  assert (mint source_id fresh dir !! (source_id ++ ".seed")%string = Some fresh) as Hseed
    by (unfold mint; rewrite Hd; by rewrite lookup_insert_ne, lookup_insert_eq).
  split; [|intros again; unfold mint at 1; by rewrite Hseed].
  exists (sk_from_bytes fresh). split.
  - rewrite Hseed. unfold load_key, exactly. cbn [ok_or mbind res_bind]. by rewrite Hz.
  - intros canonical e Hdec <-. apply registered_accepts; [|done].
    unfold sink_keys in Hk. apply bind_Ok in Hk as (m0 & _ & Hk).
    destruct (file_keys_found entries m0 keys) as [Hfound _]; [rewrite He; apply NoDup_fst_map_to_list|done|].
    destruct (Hfound (ev_source_id e) (hex_encode (vk_to_bytes (verifying_key (sk_from_bytes fresh))))) as (v & Hv & ->); [done| |].
    + rewrite He. apply elem_of_map_to_list. unfold mint. rewrite Hd. by rewrite lookup_insert_eq.
    + rewrite (decode_key_hex (verifying_key (sk_from_bytes fresh))) in Hv by apply vk_text. by injection Hv as ->.
Qed.

(** the key of ajar-verify, given as raw bytes, is read only if no byte of it
    happens to be an ASCII space; given in hex it is always read. *)
Theorem verify_key_forms v :
  parse_key (hex_encode (vk_to_bytes v)) = Ok v
  ∧ parse_key (vk_to_bytes v) = if existsb is_ascii_ws (vk_to_bytes v) then Err NotLength else Ok v.
Proof.
  assert (∀ l, existsb is_ascii_ws l = false → filter (λ b, is_ascii_ws b = false) l = l) as Hkeep.
  { induction l as [|b l IH]; [done|]. cbn [existsb]. intros [Hb Hl]%orb_false_iff. rewrite filter_cons_True by done. by rewrite IH. }
  assert (∀ l, existsb is_ascii_ws l = true → zlen (filter (λ b, is_ascii_ws b = false) l) < zlen l) as Hdrop.
  { induction l as [|b l IH]; [done|]. cbn [existsb]. intros Hb. rewrite filter_cons, zlen_cons. case_decide as Hd.
    - rewrite Hd in Hb. rewrite zlen_cons. apply IH in Hb. lia.
    - pose proof (length_filter (λ b, is_ascii_ws b = false) l). unfold zlen. lia. }
  pose proof (vk_len v) as Hv. split; unfold parse_key.
  - rewrite Hkeep.
    2: { apply not_true_iff_false. rewrite existsb_exists. intros (b & Hb%list_elem_of_In & Hw). pose proof (hex_lower (vk_to_bytes v) (vk_bytes v)) as Hl.
         rewrite Forall_forall in Hl. specialize (Hl b Hb). unfold lower_hex in Hl. unfold is_ascii_ws in Hw. lia. }
    rewrite hex_len, Hv. rewrite hex_roundtrip by apply vk_bytes. unfold exactly. cbn [ok_or mbind res_bind].
    change (2 * 32 =? 64) with true. rewrite Hv. cbn -[vk_from_bytes vk_to_bytes]. by rewrite vk_roundtrip.
  - destruct (existsb is_ascii_ws (vk_to_bytes v)) eqn:E.
    + apply Hdrop in E. rewrite Hv in E. pose proof (zlen_nonneg (filter (λ b, is_ascii_ws b = false) (vk_to_bytes v))).
      replace (_ =? 64) with false by lia. by replace (_ =? 32) with false by lia.
    + rewrite Hkeep, Hv by done. cbn. by rewrite vk_roundtrip.
Qed.
End registered.

(** * Witnesses *)

(** A toy scheme with two keys, its key bytes, and hexadecimal. *)
Definition toy2 : Ed25519 := {|
  skey := Z; vkey := bool; signature := Z;
  verifying_key := Z.odd;
  sign := λ k m, (Z.b2z (Z.odd k) + toy_sum m) mod 256;
  sig_to_bytes := λ s, replicate 64 s;
  sig_from_slice := head;
  vk_verify := λ k m s, s =? (Z.b2z k + toy_sum m) mod 256
|}.
Definition toy2_laws : Ed25519Laws toy2.
Proof. split; [done|done|intros k m; apply Z.eqb_refl]. Defined.

Definition toy2_codec : KeyCodec toy2 := {|
  sk_from_bytes := λ b, default 0 (head b) : @skey toy2;
  vk_from_bytes := λ b, Some (bool_decide (head b = Some 1)) : option (@vkey toy2);
  vk_to_bytes := λ v : @vkey toy2, replicate 32 (Z.b2z v)
|}.
Definition toy2_codec_laws : KeyCodecLaws toy2_codec.
Proof.
  split; [done| |by intros []].
  intros v. apply Forall_replicate. split; destruct v; done.
Defined.

Fixpoint unhex (l : bytes) : option bytes :=
  match l with
  | [] => Some []
  | a :: b :: l => x ← digit_val 16 a; y ← digit_val 16 b; rest ← unhex l; Some (16 * x + y :: rest)
  | _ => None
  end.
Definition hex_real : Hex := {| hex_encode := λ b, concat (hex2 <$> b); hex_decode := unhex |}.

Lemma hex_digit_val n : 0 ≤ n < 16 → digit_val 16 (hex_digit n) = Some n ∧ lower_hex (hex_digit n).
Proof.
  intros Hn. unfold hex_digit, lower_hex, digit_val, is_digit, is_lower, is_upper. destruct (n <? 10) eqn:E.
  - replace ((48 <=? 48 + n) && (48 + n <=? 57)) with true by lia. split; [|lia]. case_match; [f_equal|]; lia.
  - replace ((48 <=? 87 + n) && (87 + n <=? 57)) with false by lia. replace ((97 <=? 87 + n) && (87 + n <=? 122)) with true by lia.
    split; [|lia]. repeat case_match; try (f_equal; lia); lia.
Qed.

Lemma nibbles b : 0 ≤ b < 256 →
  (digit_val 16 (hex_digit (b / 16)) = Some (b / 16) ∧ lower_hex (hex_digit (b / 16)))
  ∧ digit_val 16 (hex_digit (b mod 16)) = Some (b mod 16) ∧ lower_hex (hex_digit (b mod 16)).
Proof. intros Hb. split; apply hex_digit_val; Z.div_mod_to_equations; lia. Qed.

Lemma digit_val_case b : digit_val 16 (to_lower b) = digit_val 16 b.
Proof. unfold digit_val, to_lower, is_digit, is_lower, is_upper. repeat (case_match; try lia); try done; f_equal; lia. Qed.

Definition hex_real_laws : HexLaws hex_real.
Proof.
  split; cbn [hex_encode hex_decode hex_real].
  - induction 1 as [|b l Hb Hl IH]; [done|]. unfold byte_ok in Hb. cbn [fmap list_fmap concat hex2 app unhex].
    destruct (nibbles b Hb) as [[-> _] [-> _]].
    cbn [mbind option_bind]. rewrite IH. cbn [mbind option_bind]. f_equal. f_equal. Z.div_mod_to_equations; lia.
  - induction 1 as [|b l Hb Hl IH]; [constructor|]. unfold byte_ok in Hb. cbn [fmap list_fmap concat hex2 app].
    destruct (nibbles b Hb) as [[_ H1] [_ H2]]. constructor; [done|by constructor].
  - intros b. induction b as [|b l IH]; [done|]. cbn [fmap list_fmap concat hex2 app]. rewrite !zlen_cons, IH. lia.
  - intros s. enough (∀ n s, (length s < n)%nat → unhex (ascii_lower s) = unhex s) as Hn by (apply (Hn (S (length s))); lia).
    clear s. induction n as [|n IH]; intros s Hl; [lia|]. destruct s as [|a [|b l]]; [done|done|]. cbn in Hl. cbn [ascii_lower fmap list_fmap unhex]. rewrite !digit_val_case.
    change (to_lower <$> l) with (ascii_lower l). by rewrite IH by lia.
Defined.

Definition ex_seed : bytes := seqZ 1 32.
Definition ex_minted : gmap string bytes := @mint toy2 toy2_codec hex_real "radar-1" ex_seed ∅.

Definition ex_registered : gmap string bool := {["radar-1"%string := true]}.

Lemma minted_source_accepted_witness :
  (∃ k, @load_key toy2 toy2_codec hex_real (ex_minted !! "radar-1.seed"%string) = Ok k
    ∧ ∀ canonical e, toy_decode canonical = Some e → ev_source_id e = "radar-1"%string → @accept toy2 toy_decode ex_registered (@seal toy2 canonical k) = Ok e)
  ∧ ∀ again, @mint toy2 toy2_codec hex_real "radar-1" again ex_minted = ex_minted.
Proof.
  apply (@minted_source_accepted toy2 toy2_laws toy2_codec toy2_codec_laws hex_real hex_real_laws toy_decode "radar-1" ex_seed ∅ [] (map_to_list ex_minted) ex_registered);
    [done|vm_compute; reflexivity|vm_compute; reflexivity|reflexivity|vm_compute; reflexivity].
Defined.

(** A key a byte of which is a space is refused as raw bytes. *)
Example raw_key_with_a_space : @parse_key toy2 toy2_codec hex_real (32 :: replicate 31 1) = Err NotLength.
Proof. vm_compute. reflexivity. Qed.

(** [mint] stopped between its two writes: the next one keeps the seed and writes no
    key, and the sink knows nothing of the source. *)
Example mint_interrupted :
  let dir := {["radar-1.seed"%string := ex_seed]} in
  @mint toy2 toy2_codec hex_real "radar-1" (seqZ 2 32) dir = dir
  ∧ @sink_keys toy2 toy2_codec hex_real [] (Some (map_to_list dir)) = Ok ∅.
Proof. split; vm_compute; reflexivity. Qed.
