(* ===== verification/Spool.v ===== *)
(** The store-and-forward disk spool (rust/connectors/common/src/spool.rs). The
    spool directory is the list of its segment files in sequence order plus the
    cursor file; operations are state-passing functions on the spool and its
    directory. Files are read and removed without fault; the one write that can
    fail half-way, [append]'s, takes the number of bytes that reached the file. *)
From Stdlib Require Import ZArith Lia.
From Stdlib Require Import Strings.String Sorted.
From S2P Require Export Text.

Local Open Scope Z_scope.

(** * Data *)

(** @src rust/connectors/common/src/spool.rs 44-45 SEGMENT_BYTES *)
Definition SEGMENT_BYTES : Z := 4 * 1024 * 1024.

(** @src rust/connectors/common/src/spool.rs 47-53 Record *)
Record Record_ := mkRecord { event_id : bytes; sealed : bytes }.

(** @src rust/connectors/common/src/spool.rs 55-60 Cursor *)
Record Cursor := mkCursor { seg : Z; offset : Z }.

#[export] Instance Record_eq_dec : EqDecision Record_.
Proof. solve_decision. Defined.
#[export] Instance Cursor_eq_dec : EqDecision Cursor.
Proof. solve_decision. Defined.

(** The segment files, in ascending order of sequence number. *)
Abbreviation Disk := (list (Z * bytes)).

(** @src rust/connectors/common/src/spool.rs 62-74 Spool *)
Record Spool := mkSpool {
  max_bytes : Z;
  disk : Disk;
  cursor_file : option bytes;
  head_seq : Z;
  head_len : Z;
  cursor : Cursor;
  dropped_segments : Z
}.

(** What an operation reports when the file system refuses it. *)
Inductive SpoolError := IoError | NotThere.

(** * The directory *)

Fixpoint file (d : Disk) (n : Z) : option bytes :=
  match d with
  | [] => None
  | (m, b) :: d => if m =? n then Some b else file d n
  end.

(** [OpenOptions::create(true)]: an empty file unless there is one. *)
Fixpoint create (d : Disk) (n : Z) : Disk :=
  match d with
  | [] => [(n, [])]
  | (m, b) :: d' =>
      if m =? n then d else if n <? m then (n, []) :: d else (m, b) :: create d' n
  end.

(** [append(true)] writes go to the end of the file. *)
Definition write_end (d : Disk) (n : Z) (bs : bytes) : Disk :=
  (λ f : Z * bytes, if f.1 =? n then (f.1, f.2 ++ bs) else f) <$> d.

Definition set_file (d : Disk) (n : Z) (bs : bytes) : Disk :=
  (λ f : Z * bytes, if f.1 =? n then (f.1, bs) else f) <$> d.

(** @src rust/connectors/common/src/spool.rs 260-273 existing_segments *)
Definition existing_segments (d : Disk) : list Z := d.*1.

(** @src rust/connectors/common/src/spool.rs 241-252 Spool::depth_bytes *)
Definition depth_bytes (d : Disk) : Z := foldr Z.add 0 ((λ f, zlen f.2) <$> d).

(** * Records *)

(** @src rust/connectors/common/src/spool.rs 133-138 Spool::append *)
Definition enc_record (r : Record_) : bytes :=
  be_enc 4 (wrap 32 (zlen (event_id r))) ++ be_enc 4 (wrap 32 (zlen (sealed r)))
  ++ event_id r ++ sealed r.

(** @src rust/connectors/common/src/spool.rs 275-290 read_record *)
Definition read_record (data : bytes) (off : Z) : option (Record_ * Z) :=
  rest ← get_from data off;
  if zlen rest <? 8 then None
  else
    i ← get_range rest 0 4;
    p ← get_range rest 4 8;
    let id_len := be_val i in
    let payload_len := be_val p in
    let total := 8 + id_len + payload_len in
    if (2 ^ 64 <=? total) || (zlen rest <? total) then None
    else
      i ← get_range rest 8 (8 + id_len);
      if utf8_valid i then
        s ← get_range rest (8 + id_len) total;
        Some (mkRecord i s, off + total)
      else None.

(** @src rust/connectors/common/src/spool.rs 292-315 read_record_at *)
Definition read_record_at (f : option bytes) (off : Z) : res SpoolError (option (Record_ * Z)) :=
  match f with
  | None => Err IoError
  | Some data =>
      let remaining := Z.max 0 (zlen data - off) in
      if remaining <? 8 then Ok None
      else
        head ← slice data off (off + 8);
        i ← slice head 0 4; p ← slice head 4 8;
        let total := 8 + be_val i + be_val p in
        if remaining <? total then Ok None
        else
          rest ← slice data (off + 8) (off + total);
          Ok ((λ rn : Record_ * Z, (rn.1, off + rn.2)) <$> read_record (head ++ rest) 0)
  end.

(** The end of the last whole record, from [off] on. *)
Fixpoint whole_end (fuel : nat) (data : bytes) (off : Z) : res SpoolError Z :=
  match fuel with
  | O => NoFuel
  | S fuel =>
      match read_record data off with
      | Some (_, next) => whole_end fuel data next
      | None => Ok off
      end
  end.

(** @src rust/connectors/common/src/spool.rs 317-332 truncate_torn_tail *)
Definition truncate_torn_tail (d : Disk) (n : Z) : res SpoolError Disk :=
  match file d n with
  | None => Ok d
  | Some data =>
      off ← whole_end (S (length data)) data 0;
      Ok (if off <? zlen data then set_file d n (take (Z.to_nat off) data) else d)
  end.

(** @src rust/connectors/common/src/spool.rs 334-341 read_cursor *)
Definition read_cursor (f : option bytes) : option Cursor :=
  t ← f;
  if utf8_valid t then
    match words t with
    | a :: b :: _ =>
        s ← parse_u64 a;
        o ← parse_u64 b;
        Some (mkCursor s o)
    | _ => None
    end
  else None.

(** @src rust/connectors/common/src/spool.rs 343-350 write_cursor *)
Definition write_cursor (c : Cursor) : option bytes :=
  Some (show_bytes (seg c) ++ 32 :: show_bytes (offset c)).

(** * Operations *)

(** @src rust/connectors/common/src/spool.rs 84-125 Spool::open *)
Definition open (max : Z) (d : Disk) (cf : option bytes) : res SpoolError Spool :=
  let segs := existing_segments d in
  let c := default (mkCursor (default 0 (head segs)) 0) (read_cursor cf) in
  d ← match last segs with Some n => truncate_torn_tail d n | None => Ok d end;
  let head_seq := default 0 (last segs) in
  let d := create d head_seq in
  Ok (mkSpool max d cf head_seq (default 0 (zlen <$> file d head_seq)) c 0).

(** @src rust/connectors/common/src/spool.rs 144-156 Spool::rotate *)
Definition rotate (s : Spool) : Spool :=
  mkSpool (max_bytes s) (create (disk s) (head_seq s + 1)) (cursor_file s) (head_seq s + 1) 0
    (cursor s) (dropped_segments s).

(** @src rust/connectors/common/src/spool.rs 158-184 Spool::enforce_bound *)
Fixpoint enforce_bound (fuel : nat) (s : Spool) (dropped : bool) : Spool * res SpoolError bool :=
  match fuel with
  | O => (s, NoFuel)
  | S fuel =>
      let segs := existing_segments (disk s) in
      if (depth_bytes (disk s) <=? max_bytes s) || (zlen segs <=? 1) then (s, Ok dropped)
      else match segs with
      | [] => (s, Panic)
      | oldest :: _ =>
          let c := if seg (cursor s) <=? oldest then mkCursor (oldest + 1) 0 else cursor s in
          enforce_bound fuel
            (mkSpool (max_bytes s) (filter (λ f : Z * bytes, f.1 ≠ oldest) (disk s)) (cursor_file s)
              (head_seq s) (head_len s) c (dropped_segments s + 1)) true
      end
  end.

(** @src rust/connectors/common/src/spool.rs 127-142 Spool::append *)
Definition append (fault : option nat) (s : Spool) (id sealed : bytes) :
    Spool * res SpoolError bool :=
  let s := if SEGMENT_BYTES <=? head_len s then rotate s else s in
  let buf := enc_record (mkRecord id sealed) in
  let written := match fault with Some n => take n buf | None => buf end in
  let d := write_end (disk s) (head_seq s) written in
  match fault with
  | Some _ =>
      (mkSpool (max_bytes s) d (cursor_file s) (head_seq s) (head_len s) (cursor s)
         (dropped_segments s), Err IoError)
  | None =>
      enforce_bound (S (length d))
        (mkSpool (max_bytes s) d (cursor_file s) (head_seq s) (head_len s + zlen buf) (cursor s)
          (dropped_segments s)) false
  end.

Definition set_cursor (s : Spool) (c : Cursor) : Spool :=
  mkSpool (max_bytes s) (disk s) (cursor_file s) (head_seq s) (head_len s) c (dropped_segments s).

Fixpoint peek_loop (fuel : nat) (s : Spool) : Spool * res SpoolError (option (Cursor * Record_)) :=
  match fuel with
  | O => (s, NoFuel)
  | S fuel =>
      let c := cursor s in
      let next := set_cursor s (mkCursor (seg c + 1) 0) in
      match read_record_at (file (disk s) (seg c)) (offset c) with
      | Ok (Some (r, _)) => (s, Ok (Some (c, r)))
      | Ok None => if seg c <? head_seq s then peek_loop fuel next else (s, Ok None)
      | Err _ => if seg c <? head_seq s then peek_loop fuel next else (s, Ok None)
      | Panic => (s, Panic)
      | NoFuel => (s, NoFuel)
      end
  end.

(** @src rust/connectors/common/src/spool.rs 186-219 Spool::peek *)
Definition peek (s : Spool) : Spool * res SpoolError (option (Cursor * Record_)) :=
  peek_loop (S (Z.to_nat (head_seq s - seg (cursor s)))) s.

(** @src rust/connectors/common/src/spool.rs 221-239 Spool::advance *)
Definition advance (s : Spool) (at_ : Cursor) : Spool * res SpoolError unit :=
  match read_record_at (file (disk s) (seg at_)) (offset at_) with
  | Ok (Some (_, next)) =>
      let c := mkCursor (seg at_) next in
      (mkSpool (max_bytes s) (filter (λ f : Z * bytes, ¬ f.1 < seg c) (disk s)) (write_cursor c)
        (head_seq s) (head_len s) c (dropped_segments s), Ok tt)
  | Ok None => (s, Err NotThere)
  | Err e => (s, Err e)
  | Panic => (s, Panic)
  | NoFuel => (s, NoFuel)
  end.

(** * The queue a spool stands for *)

(** A record whose lengths fit the header and whose id is text. *)
Definition rec_ok (r : Record_) : Prop :=
  zlen (event_id r) < 2 ^ 32 ∧ zlen (sealed r) < 2 ^ 32 ∧ utf8_valid (event_id r) = true
  ∧ bytes_ok (event_id r) ∧ bytes_ok (sealed r).

Definition encs (rs : list Record_) : bytes := concat (enc_record <$> rs).

(** The records of a segment from an offset on. *)
Fixpoint records (fuel : nat) (data : bytes) (off : Z) : list Record_ :=
  match fuel with
  | O => []
  | S fuel => match read_record data off with
              | Some (r, next) => r :: records fuel data next
              | None => []
              end
  end.
Definition records_from (data : bytes) (off : Z) : list Record_ := records (S (length data)) data off.

Arguments enc_record : simpl never.
Arguments encs : simpl never.
Arguments read_record : simpl never.

(** Everything from a cursor on, oldest first. *)
Definition contents (d : Disk) (c : Cursor) : list Record_ :=
  d ≫= λ f, if f.1 <? seg c then []
            else records_from f.2 (if f.1 =? seg c then offset c else 0).

(** [off] is a record boundary of the segment, with the records [rs] after it. *)
Definition boundary (data : bytes) (off : Z) (rs : list Record_) : Prop :=
  ∃ before, Forall rec_ok (before ++ rs) ∧ data = encs (before ++ rs) ∧ off = zlen (encs before).

(** Reading from [c] yields exactly [l]. *)
Definition reads (d : Disk) (c : Cursor) (l : list Record_) : Prop :=
  contents d c = l ∧ 0 ≤ seg c ∧ ∀ data, file d (seg c) = Some data → ∃ rs, boundary data (offset c) rs.

(** The cursor a restart would recover. *)
Definition recovered (d : Disk) (cf : option bytes) : Cursor :=
  default (mkCursor (default 0 (head (existing_segments d))) 0) (read_cursor cf).

(** The spool holds the queue [l]: the head segment is the newest, every
    segment is whole records, and both the live cursor and the one a restart
    would recover read exactly [l]. *)
Record spool_ok (s : Spool) (l : list Record_) : Prop := {
  so_sorted : StronglySorted Z.lt (disk s).*1;
  so_head : ∃ d hd, disk s = d ++ [(head_seq s, hd)] ∧ head_len s = zlen hd;
  so_segs : Forall (λ f, 0 ≤ f.1 ∧ ∃ rs, boundary f.2 0 rs) (disk s);
  so_cursor : reads (disk s) (cursor s) l;
  so_le : seg (cursor s) ≤ head_seq s;
  so_recovered : reads (disk s) (recovered (disk s) (cursor_file s)) l;
  so_recovered_le : seg (recovered (disk s) (cursor_file s)) ≤ head_seq s
}.

(** The directory right after a record is written: in a segment of its own when
    the newest is full, else at the end of the newest. *)
Definition with_record (s : Spool) (r : Record_) : Disk :=
  if SEGMENT_BYTES <=? head_len s then disk s ++ [(head_seq s + 1, enc_record r)]
  else write_end (disk s) (head_seq s) (enc_record r).

(** More than one segment, and more bytes than the bound allows. *)
Definition too_big (max : Z) (d : Disk) : Prop := (1 < length d)%nat ∧ max < depth_bytes d.

(** ** Records and their encoding *)

Lemma zlen_enc_record r : zlen (enc_record r) = 8 + zlen (event_id r) + zlen (sealed r).
Proof. unfold enc_record. rewrite !zlen_app, !be_enc_zlen. lia. Qed.

Lemma be_val_len n : 0 ≤ n < 2 ^ 32 → be_val (be_enc 4 (wrap 32 n)) = n.
Proof.
  intros. rewrite be_val_enc, wrap_small by done. change (256 ^ Z.of_nat 4) with (2 ^ 32).
  by apply Z.mod_small.
Qed.

Lemma get_from_app {A} (p t : list A) : get_from (p ++ t) (zlen p) = Some t.
Proof.
  unfold get_from. rewrite <- (app_nil_r (p ++ t)), <- app_assoc.
  apply get_range_app; [done|]. rewrite app_nil_r. apply zlen_app.
Qed.

Lemma read_record_enc p r t :
  rec_ok r → read_record (p ++ enc_record r ++ t) (zlen p) = Some (r, zlen p + zlen (enc_record r)).
Proof.
  intros (Hi & Hs & Hu & _ & _). unfold read_record. rewrite get_from_app. cbn [mbind option_bind].
  rewrite zlen_enc_record. unfold enc_record. rewrite <- !app_assoc.
  pose proof (zlen_nonneg (event_id r)). pose proof (zlen_nonneg (sealed r)).
  pose proof (zlen_nonneg t).
  rewrite !zlen_app, !be_enc_zlen. change (Z.of_nat 4) with 4.
  replace (_ <? 8) with false by lia.
  rewrite get_range_head by (rewrite ?be_enc_zlen; done). cbn [mbind option_bind].
  rewrite (get_range_app (be_enc 4 (wrap 32 (zlen (event_id r)))) (be_enc 4 _) _ 4 8)
    by (rewrite ?be_enc_zlen; lia). cbn [mbind option_bind].
  rewrite !be_val_len by lia.
  replace (_ || _) with false by lia.
  rewrite (app_assoc (be_enc 4 _)), (get_range_app (be_enc 4 _ ++ be_enc 4 _) (event_id r) _ 8 (8 + zlen (event_id r)))
    by (rewrite ?zlen_app, ?be_enc_zlen; lia).
  cbn [mbind option_bind]. rewrite Hu.
  rewrite (app_assoc _ (event_id r)), (get_range_app (_ ++ event_id r) (sealed r) t
    (8 + zlen (event_id r)) (8 + zlen (event_id r) + zlen (sealed r)))
    by (rewrite ?zlen_app, ?be_enc_zlen; lia).
  by destruct r.
Qed.

Lemma read_record_len data off r next :
  read_record data off = Some (r, next) → off + 8 ≤ next ≤ zlen data ∧ 0 ≤ off.
Proof.
  unfold read_record. intros (rest & Hr & H)%bind_Some. unfold get_from in Hr.
  apply get_range_len in Hr as Hl. apply get_range_Some in Hr as (Hr & _ & _).
  case_in H; [done|]. apply bind_Some in H as (i & Hi & H). apply bind_Some in H as (p & Hp & H).
  case_in H; [done|]. apply bind_Some in H as (i' & Hi' & H). case_in H; [|done].
  apply bind_Some in H as (s & Hs & [= <- <-]). bool_prop.
  apply get_range_Some in Hi' as (? & ? & _). apply get_range_Some in Hs as (? & ? & _). lia.
Qed.

(** The bounded read of one record is the parse of the whole file. *)
Lemma get_from_Some {A} (l : list A) off : 0 ≤ off ≤ zlen l → get_from l off = Some (drop (Z.to_nat off) l).
Proof.
  intros. unfold get_from. apply get_range_Some. split_and!; try lia.
  rewrite take_ge; [done|]. rewrite length_drop. unfold zlen in *. lia.
Qed.

Lemma get_range_drop0 {A} (l : list A) off n :
  0 ≤ off ≤ zlen l → 0 ≤ n → get_range l off (off + n) = get_range (drop (Z.to_nat off) l) 0 n.
Proof.
  intros Ho Hn. unfold get_range. rewrite !Z.sub_0_r, drop_0.
  assert (zlen (drop (Z.to_nat off) l) = zlen l - off) as -> by (unfold zlen in *; rewrite length_drop; lia).
  replace (off + n - off) with n by lia.
  by replace ((0 <=? off) && (off <=? off + n) && (off + n <=? zlen l))
    with ((0 <=? 0) && (0 <=? n) && (n <=? zlen l - off)) by lia.
Qed.

Lemma read_record_drop data off :
  0 ≤ off ≤ zlen data →
  read_record data off =
    (λ rn : Record_ * Z, (rn.1, off + rn.2)) <$> read_record (drop (Z.to_nat off) data) 0.
Proof.
  intros Ho. unfold read_record. rewrite get_from_Some by done.
  rewrite get_from_Some by (split; [lia|apply zlen_nonneg]). rewrite drop_0. cbn [mbind option_bind].
  generalize (drop (Z.to_nat off) data). intros rest.
  case_in_goal; [done|]. destruct (get_range rest 0 4) as [i|]; [|done].
  destruct (get_range rest 4 8) as [p|]; [|done]. cbn [mbind option_bind].
  case_in_goal; [done|]. destruct (get_range rest 8 _) as [i'|]; [|done]. cbn [mbind option_bind].
  destruct (utf8_valid i'); [|done]. destruct (get_range rest _ _) as [s|]; [|done]. done.
Qed.

(** A parse looks only at the record's own bytes. *)
Lemma read_record_take rest n :
  0 ≤ n ≤ zlen rest → 8 ≤ n →
  (∀ i p, get_range rest 0 4 = Some i → get_range rest 4 8 = Some p → n = 8 + be_val i + be_val p) →
  (∀ i, get_range rest 0 4 = Some i → 0 ≤ be_val i) →
  (∀ p, get_range rest 4 8 = Some p → 0 ≤ be_val p) →
  read_record (take (Z.to_nat n) rest) 0 = read_record rest 0.
Proof.
  intros Hn H8 Ht Hi0 Hp0. unfold read_record.
  rewrite !get_from_Some by (split; [lia|apply zlen_nonneg]). rewrite !drop_0. cbn [mbind option_bind].
  assert (zlen (take (Z.to_nat n) rest) = n) as Hz by (unfold zlen in *; rewrite length_take; lia).
  rewrite Hz. replace (n <? 8) with false by lia. replace (zlen rest <? 8) with false by lia.
  assert (∀ a b, 0 ≤ a → b ≤ n → get_range (take (Z.to_nat n) rest) a b = get_range rest a b) as Hg.
  { intros a b Ha Hb. unfold get_range. rewrite Hz.
    replace (b <=? n) with (b <=? zlen rest) by lia. case_in_goal; [|done]. f_equal.
    rewrite skipn_firstn_comm, take_take. f_equal. lia. }
  rewrite !Hg by lia. destruct (get_range rest 0 4) as [i|] eqn:Hi; [|done].
  destruct (get_range rest 4 8) as [p|] eqn:Hp; [|done]. cbn [mbind option_bind].
  specialize (Ht _ _ eq_refl eq_refl). specialize (Hi0 _ eq_refl). specialize (Hp0 _ eq_refl).
  replace (n <? 8 + be_val i + be_val p) with false by lia.
  replace (zlen rest <? 8 + be_val i + be_val p) with false by lia.
  case_in_goal; [done|]. rewrite !Hg by lia. done.
Qed.

Lemma read_record_at_spec data off :
  bytes_ok data → 0 ≤ off → read_record_at (Some data) off = Ok (read_record data off).
Proof.
  intros Hb Ho. unfold read_record_at. case_in_goal; bool_prop.
  { unfold read_record. destruct (get_from data off) as [rest|] eqn:Hr; [|done]. cbn [mbind option_bind].
    apply get_range_len in Hr. by replace (zlen rest <? 8) with true by lia. }
  rewrite read_record_drop by lia. set (rest := drop (Z.to_nat off) data).
  assert (zlen rest = zlen data - off) as Hz by (unfold rest, zlen in *; rewrite length_drop; lia).
  assert (bytes_ok rest) as Hbr by (by apply bytes_ok_drop).
  destruct (get_range_is_Some data off (off + 8)) as [h Hh]; [lia..|].
  rewrite (proj2 (slice_Ok _ _ _ _) Hh). cbn [mbind res_bind].
  rewrite get_range_drop0 in Hh by lia. fold rest in Hh.
  assert (zlen h = 8) as Hzh by (by apply get_range_len in Hh).
  apply get_range_Some in Hh as (_ & _ & Eh). rewrite drop_0 in Eh. change (Z.to_nat (8 - 0)) with 8%nat in Eh.
  assert (∀ a b, 0 ≤ a → b ≤ 8 → get_range h a b = get_range rest a b) as Hg.
  { intros a b Ha Hb'. unfold get_range. rewrite Hzh, Eh.
    replace (b <=? 8) with true by lia. replace (b <=? zlen rest) with true by lia. case_in_goal; [|done]. f_equal.
    rewrite skipn_firstn_comm, take_take. f_equal. lia. }
  destruct (get_range_is_Some rest 0 4) as [i Hi]; [lia..|].
  destruct (get_range_is_Some rest 4 8) as [p Hp]; [lia..|].
  rewrite (proj2 (slice_Ok h 0 4 i)) by (by rewrite Hg by lia). cbn [mbind res_bind].
  rewrite (proj2 (slice_Ok h 4 8 p)) by (by rewrite Hg by lia). cbn [mbind res_bind].
  assert (0 ≤ be_val i) by (apply be_val_nonneg; eauto with rust).
  assert (0 ≤ be_val p) by (apply be_val_nonneg; eauto with rust).
  case_in_goal; bool_prop.
  { f_equal. unfold read_record. rewrite get_from_Some by lia. change (Z.to_nat 0) with 0%nat. rewrite drop_0.
    cbn [mbind option_bind]. replace (zlen rest <? 8) with false by lia. rewrite Hi, Hp. cbn [mbind option_bind].
    replace (zlen rest <? _) with true by lia. by rewrite orb_true_r. }
  destruct (get_range_is_Some data (off + 8) (off + (8 + be_val i + be_val p))) as [t Ht]; [lia..|].
  rewrite (proj2 (slice_Ok _ _ _ _) Ht). cbn [mbind res_bind]. do 2 f_equal.
  apply get_range_Some in Ht as (_ & _ & Et).
  assert (h ++ t = take (Z.to_nat (8 + be_val i + be_val p)) rest) as ->.
  { rewrite Eh, Et. replace (Z.to_nat (off + 8)) with (Z.to_nat off + 8)%nat by lia. rewrite <- drop_drop.
    fold rest. replace (Z.to_nat (8 + be_val i + be_val p)) with (8 + Z.to_nat (be_val i + be_val p))%nat by lia.
    rewrite <- (take_take_drop rest 8). do 2 f_equal. lia. }
  apply read_record_take; [lia|lia|by intros; simplify_eq|intros; by simplify_eq..].
Qed.

(** ** Segments *)

Lemma encs_app rs rs' : encs (rs ++ rs') = encs rs ++ encs rs'.
Proof. unfold encs. by rewrite fmap_app, concat_app. Qed.

Lemma encs_snoc rs r : encs (rs ++ [r]) = encs rs ++ enc_record r.
Proof. rewrite encs_app. unfold encs at 2. simpl. by rewrite app_nil_r. Qed.

Lemma encs_ok rs : Forall rec_ok rs → bytes_ok (encs rs).
Proof.
  induction 1 as [|r rs (? & ? & _ & Hi & Hs) Hr IH]; [constructor|].
  change (encs (r :: rs)) with (enc_record r ++ encs rs). apply bytes_ok_app. split; [|done].
  unfold enc_record. rewrite !bytes_ok_app. split_and!; try done; apply be_enc_ok.
Qed.

Lemma encs_len rs : (8 * length rs ≤ length (encs rs))%nat.
Proof.
  induction rs as [|r rs IH]; [simpl; lia|]. change (encs (r :: rs)) with (enc_record r ++ encs rs).
  rewrite length_app. pose proof (zlen_enc_record r). pose proof (zlen_nonneg (event_id r)).
  pose proof (zlen_nonneg (sealed r)). unfold zlen in *. simpl length. lia.
Qed.

Lemma read_record_end p : read_record p (zlen p) = None.
Proof.
  unfold read_record. rewrite <- (app_nil_r p) at 1. by rewrite get_from_app.
Qed.

Lemma records_encs fuel p rs :
  Forall rec_ok rs → (length rs < fuel)%nat → records fuel (p ++ encs rs) (zlen p) = rs.
Proof.
  revert fuel p. induction rs as [|r rs IH]; intros fuel p Hr Hf; (destruct fuel as [|fuel]; [simpl in Hf; lia|]).
  - simpl. unfold encs. simpl. by rewrite app_nil_r, read_record_end.
  - inversion Hr; subst. simpl. change (encs (r :: rs)) with (enc_record r ++ encs rs).
    rewrite read_record_enc by done. f_equal.
    rewrite app_assoc, <- zlen_app. apply IH; [done|simpl in Hf; lia].
Qed.

Lemma boundary_split data off rs :
  boundary data off rs → ∃ p, data = p ++ encs rs ∧ off = zlen p ∧ Forall rec_ok rs.
Proof.
  intros (b & Hr & -> & ->). exists (encs b). rewrite encs_app. split_and!; try done.
  by apply Forall_app in Hr as [].
Qed.

Lemma boundary_records data off rs : boundary data off rs → records_from data off = rs.
Proof.
  intros (p & -> & -> & Hr)%boundary_split. apply records_encs; [done|].
  pose proof (encs_len rs). rewrite length_app. lia.
Qed.

Lemma boundary_ok data off rs : boundary data off rs → bytes_ok data ∧ 0 ≤ off.
Proof. intros (b & Hr & -> & ->). split; [by apply encs_ok|apply zlen_nonneg]. Qed.

Lemma boundary_read data off rs :
  boundary data off rs →
  match rs with
  | [] => read_record data off = None
  | r :: rs' => ∃ next, read_record data off = Some (r, next) ∧ boundary data next rs'
  end.
Proof.
  intros (b & Hr & -> & ->). destruct rs as [|r rs].
  - rewrite app_nil_r. apply read_record_end.
  - exists (zlen (encs (b ++ [r]))). split.
    + rewrite encs_snoc, zlen_app, encs_app. change (encs (r :: rs)) with (enc_record r ++ encs rs).
      apply read_record_enc. apply Forall_app in Hr as [_ Hr]. by inversion Hr.
    + exists (b ++ [r]). by rewrite <- app_assoc.
Qed.

Lemma boundary_snoc data off rs r :
  boundary data off rs → rec_ok r → boundary (data ++ enc_record r) off (rs ++ [r]).
Proof.
  intros (b & Hr & -> & ->) Ho. exists b. rewrite !app_assoc, encs_snoc. split_and!; try done.
  apply Forall_app. split; [done|by constructor].
Qed.

Lemma boundary_start data off rs : boundary data off rs → ∃ rs', boundary data 0 rs'.
Proof. intros (b & Hr & -> & _). by exists (b ++ rs), []. Qed.

Lemma boundary_nil : boundary [] 0 [].
Proof. exists []. split_and!; [constructor|done|done]. Qed.

Lemma whole_end_encs fuel p rs torn :
  Forall rec_ok rs → (length rs < fuel)%nat →
  (∀ p, read_record (p ++ torn) (zlen p) = None) →
  whole_end fuel (p ++ encs rs ++ torn) (zlen p) = Ok (zlen (p ++ encs rs)).
Proof.
  intros Hr Hf Ht. revert fuel p Hf. induction Hr as [|r rs Ho Hr IH]; intros fuel p Hf;
    (destruct fuel as [|fuel]; [simpl in Hf; lia|]).
  - simpl. by rewrite Ht, app_nil_r.
  - change (encs (r :: rs)) with (enc_record r ++ encs rs). cbn [whole_end]. rewrite <- app_assoc.
    rewrite read_record_enc by done. rewrite <- zlen_app, (app_assoc p), IH by (simpl in Hf; lia).
    by rewrite <- app_assoc.
Qed.

(** A record cut short is no record. *)
Lemma torn_unreadable r n p :
  rec_ok r → (n < length (enc_record r))%nat → read_record (p ++ take n (enc_record r)) (zlen p) = None.
Proof.
  intros (Hi & Hs & Hu & _ & _) Hn. unfold read_record. rewrite get_from_app. cbn [mbind option_bind].
  assert (zlen (take n (enc_record r)) = Z.of_nat n) as Hz by (unfold zlen; rewrite length_take; lia).
  rewrite Hz. case_in_goal; [done|]. bool_prop.
  pose proof (zlen_enc_record r) as Hl. pose proof (zlen_nonneg (event_id r)). pose proof (zlen_nonneg (sealed r)).
  assert (∀ a b, 0 ≤ a → b ≤ 8 → get_range (take n (enc_record r)) a b = get_range (enc_record r) a b) as Hg.
  { intros a b Ha Hb. unfold get_range. rewrite Hz, Hl.
    replace (b <=? Z.of_nat n) with true by lia.
    replace (b <=? 8 + zlen (event_id r) + zlen (sealed r)) with true by lia.
    case_in_goal; [|done]. f_equal. rewrite skipn_firstn_comm, take_take. f_equal. lia. }
  rewrite !Hg by lia.
  assert (get_range (enc_record r) 0 4 = Some (be_enc 4 (wrap 32 (zlen (event_id r))))) as ->
    by (by apply get_range_head; rewrite be_enc_zlen).
  assert (get_range (enc_record r) 4 8 = Some (be_enc 4 (wrap 32 (zlen (sealed r))))) as ->
    by (apply (get_range_app (be_enc 4 _)); by rewrite be_enc_zlen).
  cbn [mbind option_bind].
  rewrite !be_val_len by lia. unfold zlen in Hl at 1.
  replace (Z.of_nat n <? _) with true by lia. by rewrite orb_true_r.
Qed.

(** ** Directories and cursors *)

Definition chunk (f : Z * bytes) (c : Cursor) : list Record_ :=
  if f.1 <? seg c then [] else records_from f.2 (if f.1 =? seg c then offset c else 0).

Lemma contents_cons f d c : contents (f :: d) c = chunk f c ++ contents d c.
Proof. done. Qed.

Lemma contents_app d d' c : contents (d ++ d') c = contents d c ++ contents d' c.
Proof. induction d as [|f d IH]; [done|]. cbn [app]. by rewrite !contents_cons, IH, app_assoc. Qed.

Lemma contents_ext d c c' : Forall (λ f, chunk f c = chunk f c') d → contents d c = contents d c'.
Proof.
  induction 1 as [|f d Hf Hd IH]; [done|]. by rewrite !contents_cons, Hf, IH.
Qed.

Lemma contents_below d c : Forall (λ f, f.1 < seg c) d → contents d c = [].
Proof.
  induction 1 as [|f d Hf Hd IH]; [done|]. rewrite contents_cons, IH. unfold chunk.
  by replace (f.1 <? seg c) with true by lia.
Qed.

(** Segments after the cursor's are read whole. *)
Lemma contents_above d c c' :
  Forall (λ f, seg c < f.1) d → Forall (λ f, seg c' < f.1 ∨ (seg c' = f.1 ∧ offset c' = 0)) d →
  contents d c = contents d c'.
Proof.
  intros H H'. apply contents_ext. rewrite Forall_forall in *. intros f Hf.
  specialize (H f Hf). specialize (H' f Hf). unfold chunk.
  replace (f.1 <? seg c) with false by lia. replace (f.1 <? seg c') with false by lia.
  replace (f.1 =? seg c) with false by lia. destruct H' as [H'|[H' H0]].
  - by replace (f.1 =? seg c') with false by lia.
  - replace (f.1 =? seg c') with true by lia. by rewrite H0.
Qed.

Lemma sorted_cons_inv n b (d : Disk) :
  StronglySorted Z.lt ((n, b) :: d).*1 → Forall (λ f, n < f.1) d ∧ StronglySorted Z.lt d.*1.
Proof. intros H. inversion H as [|? ? Hs Hf]; subst. split; [exact (proj1 (Forall_fmap _ _ _) Hf)|exact Hs]. Qed.

Lemma sorted_app_inv (d d' : Disk) :
  StronglySorted Z.lt (d ++ d').*1 →
  StronglySorted Z.lt d.*1 ∧ StronglySorted Z.lt d'.*1 ∧ Forall (λ f, Forall (λ g, f.1 < g.1) d') d.
Proof.
  induction d as [|[n b] d IH]; intros H; [repeat split; [constructor|done|constructor]|].
  apply (sorted_cons_inv n b (d ++ d')) in H as [Hf H]. destruct (IH H) as (H1 & H2 & H3).
  apply Forall_app in Hf as [Hf Hf']. split_and!; [|done|by constructor].
  simpl. constructor; [done|]. by apply Forall_fmap.
Qed.

Lemma sorted_snoc (d : Disk) h hd :
  StronglySorted Z.lt d.*1 → Forall (λ f, f.1 < h) d → StronglySorted Z.lt (d ++ [(h, hd)]).*1.
Proof.
  induction d as [|[n b] d IH]; intros Hs Hf; [repeat constructor|].
  apply sorted_cons_inv in Hs as [Hn Hs]. inversion Hf; subst. simpl. constructor; [by apply IH|].
  rewrite fmap_app. apply Forall_app. split; [by apply Forall_fmap|by repeat constructor].
Qed.

Lemma sorted_snoc_inv (d : Disk) h hd :
  StronglySorted Z.lt (d ++ [(h, hd)]).*1 → StronglySorted Z.lt d.*1 ∧ Forall (λ f, f.1 < h) d.
Proof.
  intros (H & _ & Hf)%sorted_app_inv. split; [done|].
  eapply Forall_impl; [exact Hf|]. intros f Hg. by inversion Hg.
Qed.

Lemma file_split d n data :
  StronglySorted Z.lt d.*1 → file d n = Some data →
  ∃ d1 d2, d = d1 ++ (n, data) :: d2 ∧ Forall (λ f, f.1 < n) d1 ∧ Forall (λ f, n < f.1) d2.
Proof.
  induction d as [|[m b] d IH]; simpl; [done|]. intros Hs Hf.
  apply (sorted_cons_inv m b d) in Hs as [Hm Hs].
  destruct (m =? n) eqn:E; bool_prop.
  - injection Hf as <-. subst. by exists [], d.
  - destruct (IH Hs Hf) as (d1 & d2 & -> & H1 & H2). exists ((m, b) :: d1), d2.
    split_and!; [done| |done]. constructor; [|done].
    apply Forall_app in Hm as [_ Hm]. by inversion Hm.
Qed.

Lemma file_app d d' n : file (d ++ d') n = match file d n with Some b => Some b | None => file d' n end.
Proof. induction d as [|[m b] d IH]; simpl; [done|]. by destruct (m =? n). Qed.

Lemma file_other d n : Forall (λ f, f.1 ≠ n) d → file d n = None.
Proof.
  induction 1 as [|[m b] d Hm Hd IH]; [done|]. simpl in *. by replace (m =? n) with false by lia.
Qed.

Lemma file_snoc d h hd n :
  Forall (λ f, f.1 < h) d → file (d ++ [(h, hd)]) n = if n =? h then Some hd else file d n.
Proof.
  intros Hf. rewrite file_app. simpl. destruct (n =? h) eqn:E; bool_prop.
  - subst. rewrite file_other; [by rewrite Z.eqb_refl|]. eapply Forall_impl; [exact Hf|]. simpl. lia.
  - replace (h =? n) with false by lia. by destruct (file d n).
Qed.

Lemma file_None d n : file d n = None → Forall (λ f, f.1 ≠ n) d.
Proof.
  induction d as [|[m b] d IH]; simpl; [constructor|]. destruct (m =? n) eqn:E; [done|]. bool_prop.
  intros H. constructor; [done|auto].
Qed.

Lemma map_snoc (g : Z * bytes → Z * bytes) d h hd :
  Forall (λ f, f.1 < h) d → (∀ f, f.1 ≠ h → g f = f) → g <$> (d ++ [(h, hd)]) = d ++ [g (h, hd)].
Proof.
  intros Hf Hg. rewrite fmap_app. f_equal. induction Hf as [|f d Hf Hd IH]; [done|].
  rewrite fmap_cons, IH, Hg by lia. done.
Qed.

Lemma write_end_snoc d h hd bs :
  Forall (λ f, f.1 < h) d → write_end (d ++ [(h, hd)]) h bs = d ++ [(h, hd ++ bs)].
Proof.
  intros Hf. unfold write_end. rewrite map_snoc; [|done|].
  - simpl. by rewrite Z.eqb_refl.
  - intros f Hn. by replace (f.1 =? h) with false by lia.
Qed.

Lemma set_file_snoc d h hd bs :
  Forall (λ f, f.1 < h) d → set_file (d ++ [(h, hd)]) h bs = d ++ [(h, bs)].
Proof.
  intros Hf. unfold set_file. rewrite map_snoc; [|done|].
  - simpl. by rewrite Z.eqb_refl.
  - intros f Hn. by replace (f.1 =? h) with false by lia.
Qed.

Lemma create_above d n : Forall (λ f, f.1 < n) d → create d n = d ++ [(n, [])].
Proof.
  induction 1 as [|[m b] d Hm Hd IH]; [done|]. simpl in *.
  replace (m =? n) with false by lia. replace (n <? m) with false by lia. by rewrite IH.
Qed.

Lemma create_there d h hd : Forall (λ f, f.1 < h) d → create (d ++ [(h, hd)]) h = d ++ [(h, hd)].
Proof.
  induction 1 as [|[m b] d Hm Hd IH]; simpl in *; [by rewrite Z.eqb_refl|].
  replace (m =? h) with false by lia. replace (h <? m) with false by lia. by rewrite IH.
Qed.

(** ** How each change of the directory changes what a cursor reads *)

Definition segs_ok (d : Disk) : Prop := Forall (λ f, 0 ≤ f.1 ∧ ∃ rs, boundary f.2 0 rs) d.

Lemma reads_write d h hd c l r :
  Forall (λ f, f.1 < h) d → segs_ok (d ++ [(h, hd)]) → seg c ≤ h → rec_ok r →
  reads (d ++ [(h, hd)]) c l → reads (d ++ [(h, hd ++ enc_record r)]) c (l ++ [r]).
Proof.
  intros Hd Hs Hc Ho (Hl & H0 & Hf).
  assert (∃ rs, boundary hd (if h =? seg c then offset c else 0) rs) as [rs Hb].
  { destruct (h =? seg c) eqn:E; bool_prop.
    - apply Hf. subst. by rewrite file_snoc, Z.eqb_refl.
    - apply Forall_app in Hs as [_ Hs]. inversion Hs as [|? ? [_ H]]; subst. done. }
  split_and!.
  - rewrite <- Hl, !contents_app, <- app_assoc. f_equal. unfold contents. simpl. rewrite !app_nil_r.
    replace (h <? seg c) with false by lia. rewrite (boundary_records _ _ _ Hb).
    apply boundary_records. by apply boundary_snoc.
  - done.
  - intros data. rewrite file_snoc by done. destruct (seg c =? h) eqn:E; bool_prop.
    + intros [= <-]. replace (h =? seg c) with true in Hb by lia. exists (rs ++ [r]). by apply boundary_snoc.
    + intros Hd'. apply Hf. rewrite file_snoc by done. by replace (seg c =? h) with false by lia.
Qed.

Lemma reads_create d n c l :
  Forall (λ f, f.1 < n) d → seg c < n → reads d c l → reads (d ++ [(n, [])]) c l.
Proof.
  intros Hd Hc (Hl & H0 & Hf). split_and!; [|done|].
  - rewrite contents_app, Hl. unfold contents. simpl.
    replace (n <? seg c) with false by lia. replace (n =? seg c) with false by lia.
    rewrite (boundary_records _ _ _ boundary_nil). by rewrite !app_nil_r.
  - intros data. rewrite file_snoc by done. replace (seg c =? n) with false by lia. apply Hf.
Qed.

Lemma file_elem d n b : StronglySorted Z.lt d.*1 → (n, b) ∈ d → file d n = Some b.
Proof.
  induction d as [|[m b'] d IH]; intros Hs Hin; [by apply elem_of_nil in Hin|].
  apply (sorted_cons_inv m b' d) in Hs as [Hm Hs]. simpl.
  apply elem_of_cons in Hin as [[= <- <-]|Hin]; [by rewrite Z.eqb_refl|].
  rewrite Forall_forall in Hm. specialize (Hm _ Hin). simpl in Hm.
  replace (m =? n) with false by lia. auto.
Qed.

Lemma file_boundary d c :
  StronglySorted Z.lt d.*1 → (∀ data, file d (seg c) = Some data → ∃ rs, boundary data (offset c) rs) →
  Forall (λ f, f.1 = seg c → ∃ rs, boundary f.2 (offset c) rs) d.
Proof.
  intros Hs Hf. apply Forall_forall. intros [m b] Hin E. simpl in *. subst.
  apply Hf. by apply file_elem.
Qed.

(** Reading from a boundary yields no more than reading everything. *)
Lemma contents_le d c c' :
  segs_ok d → Forall (λ f, f.1 = seg c → ∃ rs, boundary f.2 (offset c) rs) d →
  Forall (λ f, seg c' < f.1 ∨ (seg c' = f.1 ∧ offset c' = 0)) d →
  (length (contents d c) ≤ length (contents d c'))%nat.
Proof.
  intros Hs Hb Hc. induction Hs as [|[m b] d [_ [rs Hr]] Hs IH]; [done|].
  inversion Hb as [|? ? Hm Hb']; subst. inversion Hc as [|? ? Hm' Hc']; subst.
  rewrite !contents_cons, !length_app. specialize (IH Hb' Hc').
  enough (length (chunk (m, b) c) ≤ length (chunk (m, b) c'))%nat by lia.
  simpl in *. unfold chunk. simpl. replace (m <? seg c') with false by lia.
  assert ((if m =? seg c' then offset c' else 0) = 0) as -> by (destruct (m =? seg c') eqn:?; lia).
  destruct (m <? seg c); [simpl; lia|]. destruct (m =? seg c) eqn:E; bool_prop; [|done].
  destruct (Hm E) as [rs' (p & Ho & -> & Hp)].
  rewrite (boundary_records _ 0 (p ++ rs')) by (by exists []).
  rewrite (boundary_records _ _ rs') by (by exists p). rewrite length_app. lia.
Qed.

(** Dropping the oldest segment drops what only it held. *)
Definition survivors (n : Z) (d : Disk) (l : list Record_) : list Record_ :=
  drop (length l - length (contents d (mkCursor (n + 1) 0))) l.

Lemma reads_all n d :
  Forall (λ f, n < f.1) d → 0 ≤ n → segs_ok d →
  ∀ c, (seg c ≤ n ∨ c = mkCursor (n + 1) 0) → 0 ≤ seg c →
  reads d c (contents d (mkCursor (n + 1) 0)).
Proof.
  intros Hd Hn Hs c Hc Hc0. assert (Forall (λ f, n + 1 < f.1 ∨ n + 1 = f.1 ∧ 0 = 0) d) as Hd'.
  { eapply Forall_impl; [exact Hd|]. simpl. lia. }
  split_and!; [|done|].
  - destruct Hc as [Hc| ->]; [|done]. apply contents_above; [|done].
    eapply Forall_impl; [exact Hd|]. simpl. lia.
  - intros data Hf. destruct Hc as [Hc| ->].
    + exfalso. rewrite file_other in Hf; [done|]. eapply Forall_impl; [exact Hd|]. simpl. lia.
    + simpl in *. clear -Hs Hf. induction Hs as [|[m b] d [_ H] Hs IH]; simpl in Hf; [done|].
      destruct (m =? n + 1); [by injection Hf as <-|auto].
Qed.

Lemma reads_drop n b d c l :
  StronglySorted Z.lt ((n, b) :: d).*1 → segs_ok ((n, b) :: d) → reads ((n, b) :: d) c l →
  (seg c ≤ n → reads d (mkCursor (n + 1) 0) (survivors n d l)) ∧ reads d c (survivors n d l).
Proof.
  intros [Hd Hsd]%sorted_cons_inv Hs (Hl & H0 & Hf). inversion Hs as [|? ? [Hn _] Hs']; subst.
  unfold survivors. rewrite contents_cons, length_app.
  destruct (Z.le_gt_cases (seg c) n) as [Hc|Hc].
  - assert (contents d c = contents d (mkCursor (n + 1) 0)) as E.
    { apply contents_above; eapply Forall_impl; try exact Hd; simpl; lia. }
    rewrite E. replace (_ + _ - _)%nat with (length (chunk (n, b) c)) by lia.
    rewrite drop_app_length. split; [intros _|]; apply reads_all; auto; simpl; lia.
  - split; [lia|].
    assert (chunk (n, b) c = []) as -> by (unfold chunk; simpl; by replace (n <? seg c) with true by lia).
    simpl. simpl in Hf. replace (n =? seg c) with false in Hf by lia.
    pose proof (contents_le d c (mkCursor (n + 1) 0) Hs' (file_boundary _ _ Hsd Hf)) as Hle.
    rewrite (proj2 (Nat.sub_0_le _ _)); [by rewrite drop_0|]. apply Hle.
    eapply Forall_impl; [exact Hd|]. simpl. lia.
Qed.

(** The cursor moves to the next segment once nothing is left in its own. *)
Lemma reads_next d c l :
  StronglySorted Z.lt d.*1 → segs_ok d → reads d c l →
  (∀ data, file d (seg c) = Some data → read_record data (offset c) = None) →
  reads d (mkCursor (seg c + 1) 0) l.
Proof.
  intros Hsd Hs (<- & H0 & Hf) Hn. split_and!; [|simpl; lia|].
  - apply contents_ext, Forall_forall. intros [m b] Hin. unfold chunk. simpl.
    destruct (m =? seg c) eqn:E; bool_prop.
    + subst. replace (seg c <? seg c + 1) with true by lia. replace (seg c <? seg c) with false by lia.
      assert (file d (seg c) = Some b) as Hfb by (by apply file_elem).
      unfold records_from. simpl. by rewrite (Hn _ Hfb).
    + replace (m <? seg c + 1) with (m <? seg c) by (apply ltb_iff; lia). destruct (m <? seg c); [done|].
      f_equal. by destruct (m =? seg c + 1).
  - simpl. intros data Hd. clear -Hs Hd.
    induction Hs as [|[m b] d [_ H] Hs IH]; simpl in Hd; [done|].
    destruct (m =? seg c + 1); [by injection Hd as <-|auto].
Qed.

(** Reading at the cursor gives the queue's first record. *)
Lemma reads_first d c l data :
  StronglySorted Z.lt d.*1 → reads d c l → file d (seg c) = Some data →
  bytes_ok data ∧ 0 ≤ offset c ∧
  ∀ r next, read_record data (offset c) = Some (r, next) →
    ∃ l', l = r :: l' ∧ reads d (mkCursor (seg c) next) l'.
Proof.
  intros Hsd (<- & H0 & Hf) Hd. destruct (Hf _ Hd) as [rs Hb].
  pose proof (boundary_ok _ _ _ Hb) as [? ?]. split_and!; [done..|]. intros r next Hr.
  apply boundary_read in Hb as Hb'. destruct rs as [|r' rs]; [congruence|].
  destruct Hb' as (next' & Hr' & Hb'). rewrite Hr in Hr'. injection Hr' as <- <-.
  destruct (file_split _ _ _ Hsd Hd) as (d1 & d2 & -> & Hlo & Hhi).
  assert (∀ o, contents (d1 ++ (seg c, data) :: d2) (mkCursor (seg c) o)
    = records_from data o ++ contents d2 (mkCursor (seg c) 0)) as Ho.
  { intros o. rewrite contents_app, contents_cons, contents_below by done. simpl. unfold chunk. simpl.
    rewrite Z.ltb_irrefl, Z.eqb_refl. f_equal. apply contents_above; [done|].
    eapply Forall_impl; [exact Hhi|]. simpl. auto. }
  exists (rs ++ contents d2 (mkCursor (seg c) 0)). destruct c as [n o]. simpl in *. split; [|split_and!].
  - by rewrite Ho, (boundary_records _ _ _ Hb).
  - by rewrite Ho, (boundary_records _ _ _ Hb').
  - done.
  - intros data' Hd'. simpl in Hd'. rewrite Hd in Hd'. injection Hd' as <-. eauto.
Qed.

Lemma reads_trim d c l :
  reads d c l → reads (filter (λ f : Z * bytes, ¬ f.1 < seg c) d) c l.
Proof.
  intros (<- & H0 & Hf). split_and!; [|done|].
  - clear. induction d as [|f d IH]; [done|]. rewrite filter_cons. destruct (decide (¬ f.1 < seg c)) as [H|H].
    + by rewrite !contents_cons, IH.
    + rewrite contents_cons, IH. unfold chunk. by replace (f.1 <? seg c) with true by lia.
  - intros data Hd. apply Hf. clear Hf. induction d as [|[m b] d IH]; [done|]. rewrite filter_cons in Hd.
    simpl in *. destruct (decide (¬ m < seg c)) as [H|H]; simpl in *.
    + by destruct (m =? seg c); auto.
    + replace (m =? seg c) with false by lia. auto.
Qed.

(** From the start of the oldest segment on, everything is read. *)
Lemma reads_head n d :
  Forall (λ f, n < f.1) d → 0 ≤ n → StronglySorted Z.lt d.*1 → segs_ok d → d ≠ [] →
  reads d (mkCursor (default 0 (head (existing_segments d))) 0) (contents d (mkCursor (n + 1) 0)).
Proof.
  intros Hn H0 Hs Hg Hne. destruct d as [|[m b] d]; [done|].
  change (default 0 (head (existing_segments ((m, b) :: d)))) with m.
  inversion Hn as [|? ? Hm Hn']; subst. simpl in Hm. inversion Hg as [|? ? [? [rs Hr]] _]; subst.
  split_and!; [|simpl in *; lia|].
  - apply contents_ext, Forall_forall. intros [m' b'] Hin. unfold chunk. simpl.
    assert (m ≤ m') as Hmm.
    { apply elem_of_cons in Hin as [[= <- <-]|Hin]; [done|].
      apply (sorted_cons_inv m b d) in Hs as [Hs _]. rewrite Forall_forall in Hs.
      specialize (Hs _ Hin). simpl in Hs. lia. }
    replace (m' <? m) with false by lia. replace (m' <? n + 1) with false by lia.
    destruct (m' =? m), (m' =? n + 1); done.
  - simpl. rewrite Z.eqb_refl. intros data [= <-]. eauto.
Qed.

Lemma filter_sorted (P : Z * bytes → Prop) `{∀ f, Decision (P f)} d :
  StronglySorted Z.lt d.*1 → StronglySorted Z.lt (filter P d).*1.
Proof.
  induction d as [|[m b] d IH]; [done|]. intros [Hm Hs]%sorted_cons_inv. rewrite filter_cons.
  case_decide; [|auto]. simpl. constructor; [auto|]. apply Forall_fmap.
  apply Forall_forall. intros f [_ Hin]%list_elem_of_filter. rewrite Forall_forall in Hm. by apply Hm.
Qed.

Lemma filter_ne_head n b d :
  Forall (λ f, n < f.1) d → filter (λ f : Z * bytes, f.1 ≠ n) ((n, b) :: d) = d.
Proof.
  intros Hd. rewrite filter_cons. case_decide as H; [done|].
  induction Hd as [|f d Hf Hd IH]; [done|]. rewrite filter_cons. case_decide; [by f_equal|lia].
Qed.

Lemma recovered_app d d' cf : d ≠ [] → recovered (d ++ d') cf = recovered d cf.
Proof. by destruct d. Qed.

Lemma recovered_map (g : Z * bytes → Z * bytes) d cf :
  (∀ f, (g f).1 = f.1) → recovered (g <$> d) cf = recovered d cf.
Proof. intros Hg. unfold recovered, existing_segments. destruct d as [|f d]; [done|]. simpl. by rewrite Hg. Qed.

Lemma write_end_recovered d n bs cf : recovered (write_end d n bs) cf = recovered d cf.
Proof. apply recovered_map. intros f. by destruct (f.1 =? n). Qed.

Lemma rotate_ok s l : spool_ok s l → spool_ok (rotate s) l.
Proof.
  intros [Hs (d & hd & Hd & Hl) Hg Hc Hle Hr Hrl]. unfold rotate. rewrite Hd in *.
  apply sorted_snoc_inv in Hs as Hs'. destruct Hs' as [Hsd Hf].
  assert (Forall (λ f, f.1 < head_seq s + 1) (d ++ [(head_seq s, hd)])) as Ha.
  { apply Forall_app. split; [eapply Forall_impl; [exact Hf|]; simpl; lia|]. repeat constructor. simpl. lia. }
  assert (0 ≤ head_seq s) as H0.
  { apply Forall_app in Hg as [_ Hg]. inversion Hg as [|? ? [? _] _]; subst. done. }
  rewrite create_above by done.
  split; simpl; rewrite ?create_above by done.
  - by apply sorted_snoc.
  - exists (d ++ [(head_seq s, hd)]), []. done.
  - apply Forall_app. split; [done|]. repeat constructor; simpl; [lia|]. exists []. apply boundary_nil.
  - apply reads_create; [done|lia|done].
  - lia.
  - rewrite recovered_app by (by destruct d). apply reads_create; [done|lia|done].
  - rewrite recovered_app by (by destruct d). lia.
Qed.

(** ** A record a drain has peeked at, while others append *)

Definition readable (s : Spool) (c : Cursor) (r : Record_) : Prop :=
  ∃ next, read_record_at (file (disk s) (seg c)) (offset c) = Ok (Some (r, next)).

(** The cursor is still at the record, or the bound took its segment away
    since [d0] segments had been dropped. *)
Definition held (d0 : Z) (s : Spool) (c : Cursor) (r : Record_) : Prop :=
  (cursor s = c ∧ readable s c r)
  ∨ (file (disk s) (seg c) = None ∧ seg c < head_seq s ∧ d0 < dropped_segments s).

Lemma readable_file s c r : readable s c r → is_Some (file (disk s) (seg c)).
Proof. intros [next H]. destruct (file (disk s) (seg c)); [eauto|done]. Qed.

Lemma get_range_extend {A} (l k : list A) a b x : get_range l a b = Some x → get_range (l ++ k) a b = Some x.
Proof.
  rewrite !get_range_Some, zlen_app. intros (? & ? & ->). pose proof (zlen_nonneg k). unfold zlen in *.
  split_and!; try lia. rewrite drop_app_le by lia. rewrite take_app_le; [done|]. rewrite length_drop. lia.
Qed.

Lemma read_record_extend data k off x : read_record data off = Some x → read_record (data ++ k) off = Some x.
Proof.
  unfold read_record, get_from. intros H. destruct (get_range data off (zlen data)) as [rest|] eqn:Hr; [|done].
  assert (get_range (data ++ k) off (zlen (data ++ k)) = Some (rest ++ k)) as ->.
  { apply get_range_Some in Hr as (? & _ & ->). apply get_range_Some. rewrite zlen_app.
    pose proof (zlen_nonneg k). split_and!; try lia. unfold zlen in *.
    rewrite drop_app_le by lia. rewrite !take_ge; [done|..]; rewrite ?length_app, length_drop; lia. }
  cbn [mbind option_bind] in *. rewrite zlen_app. pose proof (zlen_nonneg k).
  destruct (zlen rest <? 8) eqn:H8; [done|]. replace (zlen rest + zlen k <? 8) with false by lia.
  destruct (get_range rest 0 4) as [i|] eqn:Hi; [|done]. rewrite (get_range_extend _ k _ _ _ Hi). cbn [mbind option_bind] in *.
  destruct (get_range rest 4 8) as [p|] eqn:Hp; [|done]. rewrite (get_range_extend _ k _ _ _ Hp). cbn [mbind option_bind] in *.
  destruct (_ || _) eqn:Ht in H; [done|]. replace (_ || _) with false by lia.
  destruct (get_range rest 8 _) as [id|] eqn:Hid; [|done]. rewrite (get_range_extend _ k _ _ _ Hid). cbn [mbind option_bind] in *.
  destruct (utf8_valid id); [|done].
  destruct (get_range rest (8 + be_val i) _) as [sl|] eqn:Hs; [|done]. by rewrite (get_range_extend _ k _ _ _ Hs).
Qed.

Lemma file_write_end d n bs m :
  file (write_end d n bs) m = (λ b, if m =? n then b ++ bs else b) <$> file d m.
Proof.
  induction d as [|[k b] d IH]; [done|]. simpl. destruct (Z.eqb_spec k m) as [->|Hne].
  - destruct (m =? n); simpl; rewrite Z.eqb_refl; done.
  - destruct (k =? n); simpl; (replace (k =? m) with false by lia); exact IH.
Qed.

Lemma held_rotate d0 s l c r : spool_ok s l → held d0 s c r → held d0 (rotate s) c r.
Proof.
  intros Hok. pose proof Hok as [Hs (d & hd & Hd & Hl) Hg Hc Hle Hr Hrl].
  assert (Forall (λ f, f.1 < head_seq s + 1) (disk s)) as Ha.
  { rewrite Hd in *. apply sorted_snoc_inv in Hs as [_ Hf]. apply Forall_app.
    split; [eapply Forall_impl; [exact Hf|]; simpl; lia|]. repeat constructor. simpl. lia. }
  unfold held, readable, rotate. cbn [cursor disk head_seq dropped_segments]. rewrite create_above, file_app by done.
  intros [[Hcu Hrd]|(Hf & Hlt & Hdr)].
  - left. split; [done|]. destruct Hrd as [next Hrd]. exists next. by destruct (file (disk s) (seg c)).
  - right. rewrite Hf. simpl. replace (head_seq s + 1 =? seg c) with false by lia. split_and!; [done|lia|done].
Qed.

Lemma held_write d0 s l c r n bs s' :
  spool_ok s l → bytes_ok bs → held d0 s c r → disk s' = write_end (disk s) n bs → cursor s' = cursor s →
  head_seq s' = head_seq s → dropped_segments s' = dropped_segments s → held d0 s' c r.
Proof.
  intros [Hs _ Hg Hc _ _ _] Hbs Hh Hd Hcu Hhs Hdr. unfold held, readable in *. rewrite Hd, Hcu, Hhs, Hdr, file_write_end.
  destruct Hh as [[<- [next Hrd]]|(Hf & ? & ?)]; [left|right; by rewrite Hf]. split; [done|]. exists next.
  destruct (file (disk s) (seg (cursor s))) as [data|] eqn:Hf; [|done].
  cbn [fmap option_fmap option_map]. destruct (seg (cursor s) =? n) eqn:E; [|done].
  destruct (reads_first _ _ _ _ Hs Hc Hf) as (Hb & Ho & _). rewrite read_record_at_spec in Hrd by done.
  injection Hrd as Hrd. rewrite read_record_at_spec; [|apply bytes_ok_app; by split|done].
  by rewrite (read_record_extend _ bs _ _ Hrd).
Qed.

(** Dropping the oldest segment leaves the held record alone or takes it away. *)
Lemma held_evict d0 s n b d hd c r s' :
  StronglySorted Z.lt (disk s).*1 → disk s = (n, b) :: d ++ [(head_seq s, hd)] → seg (cursor s) ≤ head_seq s →
  d0 ≤ dropped_segments s →
  held d0 s c r → disk s' = d ++ [(head_seq s, hd)] → head_seq s' = head_seq s →
  cursor s' = (if seg (cursor s) <=? n then mkCursor (n + 1) 0 else cursor s) →
  dropped_segments s' = dropped_segments s + 1 → held d0 s' c r.
Proof.
  intros Hs Hd Hle H0 Hh Hd' Hhs Hcu Hdr. rewrite Hd in Hs. apply sorted_cons_inv in Hs as [Hn _].
  assert (n < head_seq s) as Hns by (apply Forall_app in Hn as [_ Hn]; by inversion Hn).
  unfold held, readable in *. rewrite Hd', Hhs, Hcu, Hdr. rewrite Hd in Hh. simpl in Hh.
  destruct (Z.eqb_spec n (seg c)) as [->|Hne].
  - right. split_and!; [|lia|lia]. apply file_other. eapply Forall_impl; [exact Hn|]. simpl. lia.
  - destruct Hh as [[<- Hrd]|(Hf & ? & ?)]; [|right; split_and!; [done|lia|lia]].
    destruct (Z.leb_spec (seg (cursor s)) n).
    + exfalso. destruct Hrd as [next Hrd].
      rewrite file_other in Hrd; [done|]. eapply Forall_impl; [exact Hn|]. simpl. lia.
    + by left.
Qed.

(** What is readable in a segment that goes away goes away with it. *)
Lemma evicted_readable s l n b d c r :
  spool_ok s l → disk s = (n, b) :: d → cursor s = c → readable s c r → seg c ≤ n →
  (length (contents d (mkCursor (n + 1) 0)) < length l)%nat.
Proof.
  intros [Hs _ _ Hc _ _ _] Hd <- Hrd Hle. destruct (readable_file _ _ _ Hrd) as [data Hf].
  destruct Hrd as [next Hrd]. rewrite Hf in Hrd. destruct (reads_first _ _ _ _ Hs Hc Hf) as (Hb & Ho & _).
  rewrite read_record_at_spec in Hrd by done. injection Hrd as Hrd.
  destruct Hc as (<- & H0 & Hbd). destruct (Hbd _ Hf) as [rs Hr].
  rewrite Hd in *. apply sorted_cons_inv in Hs as [Hn Hsd].
  assert (seg (cursor s) = n) as E.
  { destruct (Z.eq_dec (seg (cursor s)) n) as [|Hne]; [done|exfalso]. simpl in Hf.
    replace (n =? seg (cursor s)) with false in Hf by lia.
    rewrite file_other in Hf; [done|]. eapply Forall_impl; [exact Hn|]. simpl. lia. }
  rewrite contents_cons, length_app. unfold chunk. cbn [fst snd].
  replace (n <? seg (cursor s)) with false by lia. rewrite E, Z.eqb_refl.
  simpl in Hf. rewrite E, Z.eqb_refl in Hf. injection Hf as ->.
  rewrite (boundary_records _ _ _ Hr). apply boundary_read in Hr. destruct rs; [congruence|].
  rewrite (contents_above d (cursor s) (mkCursor (n + 1) 0)); [simpl; lia|rewrite E; done|].
  eapply Forall_impl; [exact Hn|]. cbn. intros f ?. destruct (Z.eq_dec (n + 1) f.1); [by right|left; lia].
Qed.

(** A directory in order, shrunk by its oldest segments while it is too big. *)
Lemma enforce_bound_evicts fuel s dropped :
  StronglySorted Z.lt (disk s).*1 → (length (disk s) < fuel)%nat →
  ∃ s' n, enforce_bound fuel s dropped = (s', Ok (dropped || bool_decide (0 < n)%nat))
    ∧ disk s' = drop n (disk s) ∧ dropped_segments s' = dropped_segments s + Z.of_nat n
    ∧ (∀ j, (j < n)%nat → too_big (max_bytes s) (drop j (disk s)))
    ∧ ¬ too_big (max_bytes s) (drop n (disk s)).
Proof.
  revert s dropped. induction fuel as [|fuel IH]; intros s dropped Hs Hf; [lia|].
  cbn [enforce_bound]. unfold existing_segments. case_in_goal.
  - exists s, 0%nat. rewrite bool_decide_false, orb_false_r by lia.
    split; [done|]. split; [done|]. split; [lia|]. split; [lia|]. rewrite drop_0. unfold too_big. unfold zlen in *. rewrite length_fmap in *. lia.
  - destruct (disk s) as [|[n b] d] eqn:Hd; rewrite ?Hd in *; [by rewrite orb_true_r in Heqb|].
    apply sorted_cons_inv in Hs as [Hn Hs]. cbn [fmap list_fmap fst].
    rewrite filter_ne_head by done.
    match goal with |- context [enforce_bound fuel ?s _] => set (s1 := s) end.
    assert (length (disk s1) < fuel)%nat as Hf1 by (subst s1; cbn [disk length] in *; lia).
    destruct (IH s1 true Hs Hf1) as (s' & k & -> & H1 & H2 & H3 & H4).
    exists s', (S k). rewrite (bool_decide_true (0 < S k)%nat), orb_true_r by lia. split_and!; try done.
    + subst s1. cbn [dropped_segments] in H2. lia.
    + intros [|j] Hj; [|apply H3; lia]. rewrite drop_0. bool_prop. unfold too_big, zlen in *.
      rewrite length_fmap in *. lia.
Qed.

(** In any directory it ends, says whether it dropped a segment, and only counts up. *)
Lemma enforce_bound_count fuel s dropped :
  (length (disk s) < fuel)%nat →
  ∃ s', enforce_bound fuel s dropped = (s', Ok (dropped || (dropped_segments s <? dropped_segments s')))
    ∧ dropped_segments s ≤ dropped_segments s'.
Proof.
  revert s dropped. induction fuel as [|fuel IH]; intros s dropped Hf; [lia|].
  cbn [enforce_bound]. unfold existing_segments. case_in_goal.
  - exists s. by rewrite Z.ltb_irrefl, orb_false_r.
  - destruct (disk s) as [|[n b] d] eqn:Hd; rewrite ?Hd in *; [by rewrite orb_true_r in Heqb|]. cbn [fmap list_fmap fst].
    match goal with |- context [enforce_bound fuel ?s _] => set (s1 := s) end.
    destruct (IH s1 true) as (s' & -> & H1).
    { cbn [disk s1]. rewrite filter_cons_False by (cbn; tauto).
      pose proof (length_filter (λ f : Z * bytes, f.1 ≠ n) d). cbn in Hf. lia. }
    subst s1. cbn [dropped_segments] in H1. exists s'.
    replace (dropped_segments s <? dropped_segments s') with true by lia. rewrite orb_true_r. split; [done|lia].
Qed.

Lemma append_count s id data :
  ∃ s', append None s id data = (s', Ok (dropped_segments s <? dropped_segments s'))
    ∧ dropped_segments s ≤ dropped_segments s'.
Proof.
  unfold append. cbn zeta. set (s0 := if _ <=? _ then _ else _).
  assert (dropped_segments s0 = dropped_segments s) as <- by (unfold s0; by destruct (_ <=? _)).
  match goal with |- context [enforce_bound ?f ?s _] => destruct (enforce_bound_count f s false) as (s' & -> & ?) end;
    [cbn [disk]; lia|]. by exists s'.
Qed.

Lemma peek_dropped s : dropped_segments (peek s).1 = dropped_segments s.
Proof.
  unfold peek. generalize (S (Z.to_nat (head_seq s - seg (cursor s)))). intros fuel.
  revert s. induction fuel as [|fuel IH]; intros s; [done|]. cbn [peek_loop].
  destruct (read_record_at _ _) as [[[? ?]|]| | |]; try done; destruct (_ <? _); try done; by rewrite IH.
Qed.

Lemma advance_dropped s c : dropped_segments (advance s c).1 = dropped_segments s.
Proof. unfold advance. by destruct (read_record_at _ _) as [[[? ?]|]| | |]. Qed.

Lemma enforce_bound_ok fuel s l dropped :
  spool_ok s l → (length (disk s) ≤ fuel)%nat →
  ∃ s' dropped' k, enforce_bound fuel s dropped = (s', Ok dropped')
    ∧ spool_ok s' (drop k l)
    ∧ max_bytes s' = max_bytes s ∧ (zlen (disk s') = 1 ∨ depth_bytes (disk s') ≤ max_bytes s)
    ∧ dropped' = dropped || (dropped_segments s <? dropped_segments s')
    ∧ dropped_segments s ≤ dropped_segments s'
    ∧ (dropped_segments s' = dropped_segments s → s' = s ∧ k = 0%nat)
    ∧ head_seq s' = head_seq s
    ∧ (∀ Q, Forall Q (disk s) → Forall Q (disk s'))
    ∧ (∀ d0 c r, d0 ≤ dropped_segments s → held d0 s c r → held d0 s' c r)
    ∧ (∀ c r, cursor s = c → readable s c r → (cursor s' = c ∧ readable s' c r) ∨ (0 < k)%nat).
Proof.
  revert s l dropped. induction fuel as [|fuel IH]; intros s l dropped Hok Hf.
  { destruct Hok as [_ (d & hd & Hd & _) _ _ _ _ _]. rewrite Hd, length_app in Hf. simpl in Hf. lia. }
  simpl. case_in_goal.
  - exists s, dropped, 0%nat. split_and!; try done.
    + apply orb_true_iff in Heqb as [H|H]; bool_prop; [by right|left].
      destruct Hok as [_ (d & hd & Hd & _) _ _ _ _ _]. unfold existing_segments, zlen in *.
      rewrite length_fmap in H. rewrite Hd, length_app in *. simpl in *. lia.
    + by rewrite Z.ltb_irrefl, orb_false_r.
    + intros c r <- ?. by left.
  - bool_prop. pose proof Hok as Hok'. destruct Hok as [Hs (d & hd & Hd & Hl) Hg Hc Hle Hr Hrl].
    destruct d as [|[n b] d]; [unfold existing_segments in *; rewrite Hd in *; simpl in *; done|].
    simpl in Hd. destruct s as [mx dk cf hs hl c dr]. simpl in *. subst dk.
    set (d' := d ++ [(hs, hd)]) in *. simpl.
    apply (sorted_cons_inv n b d') in Hs as Hs'. destruct Hs' as [Hn Hsd].
    rewrite filter_ne_head by done.
    inversion Hg as [|? ? [Hn0 _] Hg']; subst. simpl in Hn0.
    assert (n < hs) as Hns by (apply Forall_app in Hn as [_ Hn]; by inversion Hn).
    destruct (reads_drop n b d' c l Hs Hg Hc) as [Hc1 Hc2].
    destruct (reads_drop n b d' _ l Hs Hg Hr) as [Hr1 Hr2].
    match goal with |- context [enforce_bound fuel ?s _] => set (s1 := s) end.
    assert (spool_ok s1 (survivors n d' l)) as Hok1.
    { split; simpl; try done.
      - by exists d, hd.
      - destruct (seg c <=? n) eqn:E; bool_prop; auto.
      - destruct (seg c <=? n) eqn:E; bool_prop; simpl; lia.
      - unfold recovered in *. destruct (read_cursor cf) as [p|]; simpl in *; [done|].
        destruct (Hr1 ltac:(lia)) as (<- & _ & _).
        apply (reads_head n); try done. unfold d'. by destruct d.
      - unfold recovered in *. destruct (read_cursor cf) as [p|]; simpl in *; [done|].
        unfold d'. destruct d as [|[m ?] ?]; simpl; [lia|]. apply Forall_app in Hn as [Hn _].
        apply (sorted_cons_inv m) in Hsd as [Hsd _]. apply Forall_app in Hsd as [_ Hsd].
        inversion Hsd; subst. simpl in *. lia. }
    destruct (IH s1 _ true Hok1) as (s' & dr' & k & -> & H1 & H2 & H3 & H4 & H5 & H6 & H7 & H8 & H9 & H10).
    { simpl in *. lia. }
    simpl in *. exists s', dr', (length l - length (contents d' (mkCursor (n + 1) 0)) + k)%nat. split_and!; try done.
    + unfold survivors in H1. by rewrite drop_drop in H1.
    + rewrite H4. replace (dr <? dropped_segments s') with true by lia. by rewrite orb_true_r.
    + lia.
    + lia.
    + intros Q HQ. apply H8. by inversion HQ.
    + intros d0 c0 r0 Hd0 Hh. apply H9; [simpl; lia|].
      by eapply (held_evict d0 (mkSpool mx ((n, b) :: d') cf hs _ c dr) n b d hd).
    + intros c0 r0 <- Hrd. destruct (Z.leb_spec (seg c) n) as [Hcn|Hcn].
      * pose proof (evicted_readable _ _ n b d' _ r0 Hok' eq_refl eq_refl Hrd Hcn). right. lia.
      * destruct (H10 c r0) as [Hl'|Hl']; [by unfold s1; cbn [cursor]; replace (seg c <=? n) with false by lia| |by left|right; lia].
        destruct Hrd as [next Hrd]. exists next. cbn in Hrd |- *. by replace (n =? seg c) with false in Hrd by lia.
Qed.

(** Every segment's length fits the cursor file's [u64]. *)
Definition sizes_ok (s : Spool) : Prop := Forall (λ f, zlen f.2 < 2 ^ 64) (disk s).

Lemma sizes_rotate s : sizes_ok s → sizes_ok (rotate s).
Proof.
  unfold sizes_ok, rotate. cbn [disk]. generalize (head_seq s + 1). intros n Hs.
  induction Hs as [|[m b] d Hb Hd IH]; simpl; [by repeat constructor|].
  destruct (m =? n); [by constructor|]. destruct (n <? m); by repeat (constructor; [done|]).
Qed.

Lemma append_ok s l id data :
  spool_ok s l → rec_ok (mkRecord id data) →
  ∃ s' dropped k, append None s id data = (s', Ok dropped)
    ∧ spool_ok s' (drop k (l ++ [mkRecord id data]))
    ∧ (zlen (disk s') = 1 ∨ depth_bytes (disk s') ≤ max_bytes s)
    ∧ (dropped = false → k = 0%nat ∧ dropped_segments s' = dropped_segments s)
    ∧ (dropped_segments s' = dropped_segments s → k = 0%nat)
    ∧ dropped_segments s ≤ dropped_segments s'
    ∧ head_seq s ≤ head_seq s' ≤ head_seq s + 1
    ∧ (sizes_ok s → sizes_ok s')
    ∧ (∀ d0 c r, d0 ≤ dropped_segments s → held d0 s c r → held d0 s' c r)
    ∧ (∀ c r, cursor s = c → readable s c r → (cursor s' = c ∧ readable s' c r) ∨ (0 < k)%nat).
Proof.
  intros Hok Hr. set (s0 := if SEGMENT_BYTES <=? head_len s then rotate s else s).
  assert (spool_ok s0 l) as Hok0 by (unfold s0; case_in_goal; [by apply rotate_ok|done]).
  assert (max_bytes s0 = max_bytes s) as Hm by (unfold s0; by destruct (_ <=? _)).
  assert (dropped_segments s0 = dropped_segments s) as Hd0 by (unfold s0; by destruct (_ <=? _)).
  unfold append. fold s0. cbn zeta.
  pose proof Hok0 as [Hs (d & hd & Hd & Hl) Hg Hc Hle Hrd Hrl].
  pose proof Hs as Hs'. rewrite Hd in Hs'. apply sorted_snoc_inv in Hs' as [Hsd Hf].
  set (s1 := mkSpool _ _ _ _ _ _ _).
  assert (spool_ok s1 (l ++ [mkRecord id data])) as Hok1.
  { split; simpl; rewrite ?write_end_recovered; try done; rewrite ?Hd, ?write_end_snoc by done;
      rewrite Hd in Hg, Hc, Hrd.
    - by apply sorted_snoc.
    - exists d, (hd ++ enc_record (mkRecord id data)). split; [done|]. rewrite zlen_app. lia.
    - apply Forall_app in Hg as [Hg1 Hg2]. apply Forall_app. split; [done|]. constructor; [|constructor].
      inversion Hg2 as [|? ? [? [rs Hb]] _]; subst. split; [done|]. exists (rs ++ [mkRecord id data]).
      by apply boundary_snoc.
    - by apply reads_write.
    - apply reads_write; try done. by rewrite Hd in Hrl.
  }
  destruct (enforce_bound_ok (S (length (write_end (disk s0) (head_seq s0) (enc_record (mkRecord id data)))))
    s1 _ false Hok1) as (s' & dr & k & -> & H1 & H2 & H3 & H4 & H5 & H6 & H7 & H8 & H9 & H10); [simpl; lia|].
  simpl in H4, H5, H6, H7. rewrite Hd0 in *.
  assert (head_seq s ≤ head_seq s0 ≤ head_seq s + 1) as Hhs by (unfold s0; destruct (_ <=? _); simpl; lia).
  exists s', dr, k. split; [done|]. split; [done|]. split; [simpl in H3; by rewrite Hm in H3|]. split; [|split].
  { intros ->. destruct (Z.ltb_spec (dropped_segments s) (dropped_segments s')); [done|]. split; [apply H6|]; lia. }
  { intros He. by apply H6. }
  split; [done|]. split; [by rewrite H7|]. split.
  - intros Hz. apply H8. simpl. rewrite Hd, write_end_snoc by done.
    assert (Forall (λ f, zlen f.2 < 2 ^ 64) (disk s0)) as Hz0 by (unfold s0; destruct (_ <=? _); [by apply sizes_rotate|done]).
    assert (head_len s0 < 2 ^ 24) as Hhl.
    { unfold s0, SEGMENT_BYTES. destruct (Z.leb_spec (4 * 1024 * 1024) (head_len s)); simpl; lia. }
    rewrite Hd in Hz0. apply Forall_app in Hz0 as [Hz1 _]. apply Forall_app. split; [done|]. constructor; [|constructor].
    cbn [snd]. rewrite zlen_app, zlen_enc_record. destruct Hr as (Hr1 & Hr2 & _). cbn [event_id sealed] in *. lia.
  - assert (∀ d0 c r, held d0 s c r → held d0 s1 c r) as Hw.
    { intros d0 c r Hh. apply (held_write d0 s0 l c r (head_seq s0) (enc_record (mkRecord id data))); try done.
      + rewrite <- (app_nil_r (enc_record _)). apply (encs_ok [mkRecord id data]).
        by constructor.
      + unfold s0. destruct (_ <=? _); [by eapply held_rotate|done]. }
    split; [intros d0 c r Hdd Hh; apply H9; [simpl; lia|by apply Hw]|].
    intros c r Hcu Hrd'. destruct (Hw (dropped_segments s) c r) as [[? ?]|(_ & _ & Hlt)]; [by left|by apply H10|].
    simpl in Hlt. lia.
Qed.

Lemma write_end_keys d n bs : (write_end d n bs).*1 = d.*1.
Proof. unfold write_end. rewrite <- list_fmap_compose. apply list_fmap_ext. intros ? f _. cbn. by destruct (_ =? _). Qed.

Lemma append_evicts s l id data :
  spool_ok s l →
  ∃ s' n, append None s id data = (s', Ok (bool_decide (0 < n)%nat))
    ∧ disk s' = drop n (with_record s (mkRecord id data))
    ∧ (∀ j, (j < n)%nat → too_big (max_bytes s) (drop j (with_record s (mkRecord id data))))
    ∧ ¬ too_big (max_bytes s) (drop n (with_record s (mkRecord id data)))
    ∧ dropped_segments s' = dropped_segments s + Z.of_nat n.
Proof.
  intros Hok. unfold append, with_record. set (s0 := if SEGMENT_BYTES <=? head_len s then rotate s else s). cbn zeta.
  assert (spool_ok s0 l) as [Hs0 (d0 & hd0 & Hd0 & _) _ _ _ _ _]
    by (unfold s0; case_in_goal; [by apply rotate_ok|done]).
  pose proof Hok as [Hs (d & hd & Hd & _) _ _ _ _ _].
  set (dk := if SEGMENT_BYTES <=? head_len s then _ ++ _ else _).
  assert (write_end (disk s0) (head_seq s0) (enc_record (mkRecord id data)) = dk) as <-.
  { unfold s0, dk. destruct (_ <=? _); [|done]. unfold rotate. cbn [disk head_seq].
    rewrite Hd in *. apply sorted_snoc_inv in Hs as [_ Hf].
    assert (Forall (λ f, f.1 < head_seq s + 1) (d ++ [(head_seq s, hd)])).
    { apply Forall_app. split; [eapply Forall_impl; [exact Hf|]; simpl; lia|]. repeat constructor. simpl. lia. }
    by rewrite create_above, write_end_snoc. }
  assert (max_bytes s0 = max_bytes s) as Hm by (unfold s0; by destruct (_ <=? _)).
  assert (dropped_segments s0 = dropped_segments s) as Hds by (unfold s0; by destruct (_ <=? _)).
  rewrite <- Hm, <- Hds.
  match goal with |- context [enforce_bound ?f ?s _] => destruct (enforce_bound_evicts f s false) as (s' & n & -> & H1 & H2 & H3 & H4) end.
  - cbn [disk]. by rewrite write_end_keys.
  - cbn [disk]. lia.
  - exists s', n. by split_and!.
Qed.

Lemma peek_loop_ok fuel s l :
  spool_ok s l → (Z.to_nat (head_seq s - seg (cursor s)) < fuel)%nat →
  ∃ c, spool_ok (set_cursor s c) l ∧
    peek_loop fuel s = (set_cursor s c, Ok (match l with [] => None | r :: _ => Some (c, r) end))
    ∧ ∀ r l', l = r :: l' →
        ∃ next, read_record_at (file (disk s) (seg c)) (offset c) = Ok (Some (r, next)).
Proof.
  revert s. induction fuel as [|fuel IH]; intros s Hok Hf; [lia|].
  assert (set_cursor s (cursor s) = s) as Hid by (by destruct s).
  pose proof Hok as [Hs (d & hd & Hd & Hl) Hg Hc Hle Hr Hrl].
  assert (∀ data, file (disk s) (seg (cursor s)) = Some data → bytes_ok data ∧ 0 ≤ offset (cursor s)) as Hb.
  { intros data Hfd. by destruct (reads_first _ _ _ _ Hs Hc Hfd) as (? & ? & _). }
  simpl. assert (seg (cursor s) < head_seq s →
    (∀ data, file (disk s) (seg (cursor s)) = Some data → read_record data (offset (cursor s)) = None) →
    ∃ c, spool_ok (set_cursor s c) l ∧ peek_loop fuel (set_cursor s (mkCursor (seg (cursor s) + 1) 0))
      = (set_cursor s c, Ok (match l with [] => None | r :: _ => Some (c, r) end))
    ∧ ∀ r l', l = r :: l' →
        ∃ next, read_record_at (file (disk s) (seg c)) (offset c) = Ok (Some (r, next))) as Hnext.
  { intros Hlt Hn. destruct (IH (set_cursor s (mkCursor (seg (cursor s) + 1) 0))) as (c & Hc' & Hp & Hp').
    - split; simpl; try done; [eauto|by apply reads_next|lia].
    - simpl. lia.
    - exists c. by destruct s. }
  assert (seg (cursor s) = head_seq s → file (disk s) (seg (cursor s)) = Some hd) as Hh.
  { intros ->. rewrite Hd in Hs. apply sorted_snoc_inv in Hs as [_ Hfl].
    by rewrite Hd, file_snoc, Z.eqb_refl. }
  destruct (file (disk s) (seg (cursor s))) as [data|] eqn:Hfd.
  - destruct (Hb _ eq_refl) as [? ?]. rewrite read_record_at_spec by done.
    destruct (reads_first _ _ _ _ Hs Hc Hfd) as (_ & _ & Hfirst).
    destruct (read_record data (offset (cursor s))) as [[r next]|] eqn:Hrr.
    + destruct (Hfirst _ _ eq_refl) as (l' & -> & _). exists (cursor s). rewrite Hid.
      split_and!; try done. intros r0 l0 [= <- <-]. exists next. rewrite Hfd.
      by rewrite read_record_at_spec, Hrr.
    + case_in_goal; bool_prop; [apply Hnext; [done|naive_solver]|].
      exists (cursor s). rewrite Hid. split; [done|]. destruct l as [|r l]; [split; [done|intros ? ? [=]]|]. exfalso.
      (* at the head with nothing after it, the queue is empty *)
      destruct Hc as (Hcl & _ & Hcb). destruct (Hcb _ Hfd) as [rs Hbd].
      apply boundary_read in Hbd as Hbr. destruct rs as [|r' rs]; [|destruct Hbr as (? & ? & _); congruence].
      rewrite Hd in Hs. apply sorted_snoc_inv in Hs as [_ Hfl].
      assert (seg (cursor s) = head_seq s) as E by lia. rewrite Hd, contents_app, contents_below in Hcl
        by (by rewrite E). unfold contents in Hcl. simpl in Hcl. rewrite <- E, Z.ltb_irrefl, Z.eqb_refl, app_nil_r in Hcl.
      specialize (Hh E). injection Hh as <-. by rewrite (boundary_records _ _ _ Hbd) in Hcl.
  - simpl. case_in_goal; bool_prop; [apply Hnext; done|].
    assert (seg (cursor s) = head_seq s) as E by lia. by specialize (Hh E).
Qed.

Lemma write_cursor_read c :
  0 ≤ seg c < 2 ^ 64 → 0 ≤ offset c < 2 ^ 64 → read_cursor (write_cursor c) = Some c.
Proof.
  intros Hs Ho. unfold read_cursor, write_cursor. cbn [mbind option_bind].
  destruct (show_bytes_digits (seg c)) as [Hsn Hsd]; [lia|].
  destruct (show_bytes_digits (offset c)) as [Hon Hod]; [lia|].
  rewrite utf8_ascii.
  - rewrite words_digits, words_digits_nil by done. unfold parse_u64.
    rewrite !parse_show by done. by destruct c.
  - apply Forall_app. split; [|constructor; [lia|]]; (eapply Forall_impl; [eassumption|]);
      unfold is_digit; simpl; lia.
Qed.

Lemma advance_ok s r l :
  spool_ok s (r :: l) → seg (cursor s) < 2 ^ 64 → Forall (λ f, zlen f.2 < 2 ^ 64) (disk s) →
  (∃ next, read_record_at (file (disk s) (seg (cursor s))) (offset (cursor s)) = Ok (Some (r, next))) →
  ∃ s', advance s (cursor s) = (s', Ok tt) ∧ spool_ok s' l
    ∧ dropped_segments s' = dropped_segments s ∧ head_seq s' = head_seq s ∧ (sizes_ok s → sizes_ok s').
Proof.
  intros [Hs (d & hd & Hd & Hl) Hg Hc Hle Hr Hrl] Hs64 Ho64 [next Hrr]. unfold advance. rewrite Hrr.
  eexists. split; [done|]. split; [|split; [done|split; [done|]]].
  2: { intros Hz. unfold sizes_ok in *. apply Forall_forall. intros f [_ Hin]%list_elem_of_filter.
       rewrite Forall_forall in Hz. by apply Hz. }
  destruct (file (disk s) (seg (cursor s))) as [data|] eqn:Hf; [|done].
  destruct (reads_first _ _ _ _ Hs Hc Hf) as (Hbo & Ho & Hfirst).
  rewrite read_record_at_spec in Hrr by done. injection Hrr as Hrr.
  destruct (Hfirst _ _ Hrr) as (l' & [= <-] & Hl').
  pose proof (read_record_len _ _ _ _ Hrr) as [Hnl _].
  destruct Hc as (_ & Hc0 & _).
  assert (zlen data < 2 ^ 64) as Hd64.
  { destruct (file_split _ _ _ Hs Hf) as (d1 & d2 & E & _). rewrite E in Ho64.
    apply Forall_app in Ho64 as [_ Ho64]. by inversion Ho64. }
  assert (recovered (filter (λ f : Z * bytes, ¬ f.1 < seg (cursor s)) (disk s))
    (write_cursor (mkCursor (seg (cursor s)) next)) = mkCursor (seg (cursor s)) next) as Erec.
  { unfold recovered. by rewrite write_cursor_read by (simpl; lia). }
  split; cbn [disk cursor_file cursor head_seq head_len seg]; rewrite ?Erec; try done.
  - by apply filter_sorted.
  - exists (filter (λ f : Z * bytes, ¬ f.1 < seg (cursor s)) d), hd. split; [|done].
    rewrite Hd, filter_app. f_equal. rewrite filter_cons_True; [done|]. simpl. lia.
  - apply Forall_forall. intros f [_ Hin]%list_elem_of_filter. rewrite Forall_forall in Hg. by apply Hg.
  - by apply reads_trim in Hl'.
  - by apply reads_trim in Hl'.
Qed.

(** What is readable at the cursor is the head of the queue. *)
Lemma readable_head s l r : spool_ok s l → readable s (cursor s) r → ∃ l', l = r :: l'.
Proof.
  intros [Hs _ _ Hc _ _ _] [next Hrd].
  destruct (file (disk s) (seg (cursor s))) as [data|] eqn:Hf; [|done].
  destruct (reads_first _ _ _ _ Hs Hc Hf) as (Hb & Ho & Hfirst).
  rewrite read_record_at_spec in Hrd by done. injection Hrd as Hrd.
  destruct (Hfirst _ _ Hrd) as (l' & -> & _). eauto.
Qed.

Lemma peek_ok s l :
  spool_ok s l →
  ∃ c, spool_ok (set_cursor s c) l
    ∧ peek s = (set_cursor s c, Ok (match l with [] => None | r :: _ => Some (c, r) end))
    ∧ ∀ r l', l = r :: l' → readable (set_cursor s c) c r.
Proof.
  intros Hok. destruct (peek_loop_ok (S (Z.to_nat (head_seq s - seg (cursor s)))) s l Hok)
    as (c & Hc & Hp & Hr); [lia|]. by exists c.
Qed.

Lemma whole_end_segment data rs torn :
  boundary data 0 rs → (∀ p, read_record (p ++ torn) (zlen p) = None) →
  whole_end (S (length (data ++ torn))) (data ++ torn) 0 = Ok (zlen data).
Proof.
  intros (p & Hr & -> & Hz) Ht. rewrite encs_app in *. pose proof (zlen_nonneg (encs p)).
  assert (encs p = []) as -> by (destruct (encs p); [done|]; unfold zlen in *; simpl in *; lia).
  simpl app. apply Forall_app in Hr as [_ Hr].
  pose proof (whole_end_encs (S (length (encs rs ++ torn))) [] rs torn Hr) as H'. apply H'; [|done].
  pose proof (encs_len rs). rewrite length_app. lia.
Qed.

(** What a crash can leave of a spool: the same files, with the record being
    appended cut short at the end of the newest segment. *)
Definition crashed (d : Disk) (h : Z) (torn : bytes) : Disk := write_end d h torn.

Lemma open_ok s l max r n :
  spool_ok s l → rec_ok r → (n < length (enc_record r))%nat →
  ∃ s', open max (crashed (disk s) (head_seq s) (take n (enc_record r))) (cursor_file s) = Ok s'
    ∧ spool_ok s' l ∧ disk s' = disk s ∧ max_bytes s' = max.
Proof.
  intros [Hs (d & hd & Hd & Hl) Hg Hc Hle Hr Hrl] Hro Hn. unfold open, crashed, existing_segments.
  set (torn := take n (enc_record r)).
  assert (∀ p, read_record (p ++ torn) (zlen p) = None) as Ht by (intros p; by apply torn_unreadable).
  pose proof Hs as Hs'. rewrite Hd in Hs'. apply sorted_snoc_inv in Hs' as [Hsd Hf].
  rewrite Hd, write_end_snoc by done.
  assert ((d ++ [(head_seq s, hd ++ torn)]).*1 = d.*1 ++ [head_seq s]) as Ek by (by rewrite fmap_app).
  rewrite Ek, last_snoc. unfold truncate_torn_tail. rewrite file_snoc, Z.eqb_refl by done.
  assert (∃ rs, boundary hd 0 rs) as [rs Hb].
  { rewrite Hd in Hg. apply Forall_app in Hg as [_ Hg]. inversion Hg as [|? ? [_ H] _]; subst. done. }
  rewrite (whole_end_segment _ _ _ Hb Ht). cbn [mbind res_bind default].
  set (d1 := if zlen hd <? _ then _ else _).
  assert (d1 = d ++ [(head_seq s, hd)]) as ->.
  { unfold d1. rewrite zlen_app. case_in_goal; bool_prop.
    - rewrite set_file_snoc by done. unfold zlen. by rewrite Nat2Z.id, take_app_length.
    - assert (torn = []) as -> by (destruct torn; [done|]; rewrite zlen_cons in *; pose proof (zlen_nonneg torn); lia).
      by rewrite app_nil_r. }
  rewrite create_there by done. rewrite file_snoc, Z.eqb_refl by done.
  eexists. split; [done|]. split; [|done].
  assert (default (mkCursor (default 0 (head (d.*1 ++ [head_seq s]))) 0) (read_cursor (cursor_file s))
    = recovered (disk s) (cursor_file s)) as ->.
  { unfold recovered, existing_segments. by rewrite Hd, fmap_app. }
  split; simpl; rewrite <- ?Hd; try done. exists d, hd. by rewrite Hd.
Qed.

(** * Properties *)

(** C6: appending to a spool that holds the queue [l] leaves it holding
    [l ++ [r]] less its oldest records. The record is written first; then the
    oldest segments go, one by one, each only while the directory is over the
    bound and has another segment, until it is not. A segment dropped is counted
    and reported, and while none is, no record goes. *)
Theorem spool_append s l id data :
  spool_ok s l → rec_ok (mkRecord id data) →
  ∃ s' n k, append None s id data = (s', Ok (bool_decide (0 < n)%nat))
    ∧ spool_ok s' (drop k (l ++ [mkRecord id data]))
    ∧ disk s' = drop n (with_record s (mkRecord id data))
    ∧ (∀ j, (j < n)%nat → too_big (max_bytes s) (drop j (with_record s (mkRecord id data))))
    ∧ ¬ too_big (max_bytes s) (disk s')
    ∧ dropped_segments s' = dropped_segments s + Z.of_nat n
    ∧ (n = 0%nat → k = 0%nat).
Proof.
  intros Hok Hr. destruct (append_ok s l id data Hok Hr) as (s' & dr & k & Ha & Hok' & _ & _ & Hk & _).
  destruct (append_evicts s l id data Hok) as (s2 & n & Ha2 & Hd & Hb & Hnb & Hc).
  rewrite Ha in Ha2. injection Ha2 as <- ->. exists s', n, k. rewrite Hd. split_and!; try done.
  intros ->. apply Hk. lia.
Qed.

(** C7: draining is first-in first-out: [peek] returns the queue's first record
    byte for byte and loses nothing, and [advance] at the returned cursor
    removes exactly that record; on an empty queue [peek] returns [None]. *)
Theorem spool_drain s l :
  spool_ok s l → head_seq s < 2 ^ 64 → Forall (λ f, zlen f.2 < 2 ^ 64) (disk s) →
  ∃ c, spool_ok (set_cursor s c) l
    ∧ match l with
      | [] => peek s = (set_cursor s c, Ok None)
      | r :: l' => peek s = (set_cursor s c, Ok (Some (c, r)))
          ∧ ∃ s', advance (set_cursor s c) c = (s', Ok tt) ∧ spool_ok s' l'
      end.
Proof.
  intros Hok Hs Hd. destruct (peek_ok s l Hok) as (c & Hc & Hp & Hr). exists c. split; [done|].
  destruct l as [|r l]; [done|]. split; [done|].
  destruct (advance_ok (set_cursor s c) r l) as (s' & ? & ? & _); [done| |done|by apply (Hr r l)|by exists s'].
  pose proof (so_le _ _ Hc). simpl in *. lia.
Qed.

(** C8: a restart after a crash loses nothing: whatever part of a record was
    being written is cut off, and the reopened spool holds the same queue. *)
Theorem spool_reopen s l max r n :
  spool_ok s l → rec_ok r → (n < length (enc_record r))%nat →
  ∃ s', open max (crashed (disk s) (head_seq s) (take n (enc_record r))) (cursor_file s) = Ok s'
    ∧ spool_ok s' l ∧ disk s' = disk s ∧ max_bytes s' = max.
Proof. apply open_ok. Qed.

(** reading one record through a seek and two bounded reads is the same as
    parsing the whole segment at that offset, and never panics. *)
Theorem read_record_at_parses data off :
  bytes_ok data → 0 ≤ off → read_record_at (Some data) off = Ok (read_record data off).
Proof. apply read_record_at_spec. Qed.

(** * Witnesses and faults *)

Lemma open_empty max : ∃ s, open max [] None = Ok s ∧ spool_ok s [].
Proof.
  eexists. split; [done|].
  assert (segs_ok [(0, [])]) as Hs.
  { constructor; [|constructor]. split; [done|]. exists []. apply boundary_nil. }
  assert (reads [(0, [])] (mkCursor 0 0) []) as Hr.
  { split_and!; [done|done|]. simpl. intros data [= <-]. exists []. apply boundary_nil. }
  split; try done; [by repeat constructor|by exists [], []].
Qed.

Definition ex_spool : Spool := mkSpool 100 [(0, [])] None 0 0 (mkCursor 0 0) 0.
Lemma ex_spool_ok : spool_ok ex_spool [].
Proof. destruct (open_empty 100) as (s & [= <-] & Hs). exact Hs. Qed.

Definition ex_rec (b : Z) : Record_ := mkRecord (s2b "id") [b; 0xFF].
Lemma ex_rec_ok b : byte_ok b → rec_ok (ex_rec b).
Proof. intros H. split_and!; try done; [apply (s2b_ok "id")|]. constructor; [done|]. constructor; [by split|constructor]. Qed.

Lemma spool_append_witness :
  ∃ s' n k, append None ex_spool (s2b "id") [7; 0xFF] = (s', Ok (bool_decide (0 < n)%nat))
    ∧ spool_ok s' (drop k [ex_rec 7]) ∧ n = 0%nat ∧ k = 0%nat.
Proof.
  destruct (spool_append ex_spool [] (s2b "id") [7; 0xFF] ex_spool_ok) as (s' & n & k & H & Hok & _ & Hn & _ & _ & Hk).
  - by apply ex_rec_ok.
  - assert (n = 0%nat) as E.
    { destruct n as [|n]; [reflexivity|exfalso]. destruct (Hn 0%nat) as [Hl _]; [lia|]. revert Hl. vm_compute. lia. }
    exists s', n, k. split; [exact H|]. split; [exact Hok|]. split; [exact E|exact (Hk E)].
Defined.

Definition ex_spool1 : Spool := (append None ex_spool (s2b "id") [7; 0xFF]).1.
Lemma ex_spool1_ok : spool_ok ex_spool1 [ex_rec 7].
Proof.
  destruct (append_ok ex_spool [] (s2b "id") [7; 0xFF] ex_spool_ok) as (s' & dr & k & H & Hok & _ & Hk & _);
    [by apply ex_rec_ok|].
  unfold ex_spool1. rewrite H. vm_compute in H. injection H as <- <-.
  destruct (Hk eq_refl) as [-> _]. exact Hok.
Qed.

Lemma spool_drain_witness :
  ∃ c, peek ex_spool1 = (set_cursor ex_spool1 c, Ok (Some (c, ex_rec 7)))
    ∧ ∃ s', advance (set_cursor ex_spool1 c) c = (s', Ok tt) ∧ spool_ok s' [].
Proof.
  destruct (spool_drain ex_spool1 [ex_rec 7] ex_spool1_ok) as (c & _ & H).
  - vm_compute. reflexivity.
  - assert (disk ex_spool1 = [(0, enc_record (ex_rec 7))]) as -> by (vm_compute; reflexivity).
    constructor; [vm_compute; reflexivity|constructor].
  - exists c. exact H.
Defined.

Lemma spool_reopen_witness :
  ∃ s', open 100 (crashed (disk ex_spool1) 0 (take 9 (enc_record (ex_rec 8)))) None = Ok s'
    ∧ spool_ok s' [ex_rec 7].
Proof.
  destruct (spool_reopen ex_spool1 [ex_rec 7] 100 (ex_rec 8) 9 ex_spool1_ok) as (s' & H & Hok & _).
  - by apply ex_rec_ok.
  - vm_compute. lia.
  - exists s'. split; [exact H|exact Hok].
Defined.

Lemma read_record_at_parses_witness :
  read_record_at (Some (enc_record (ex_rec 8))) 0 = Ok (Some (ex_rec 8, 12)).
Proof.
  rewrite read_record_at_parses; [vm_compute; reflexivity| |lia].
  apply bytes_okb_ok. vm_compute. reflexivity.
Defined.

(** a write that fails half-way (a full disk) leaves its bytes in the middle of
    the segment: [append] cuts nothing off, and the record appended after it,
    reported stored, cannot be read: a record made of the torn bytes and its
    first bytes is drained in its place. *)
Theorem failed_append_hides_later_records :
  ∃ s1 s2, append (Some 9%nat) ex_spool1 (s2b "id") [8; 0xFF] = (s1, Err IoError)
    ∧ append None s1 (s2b "id") [9; 0xFF] = (s2, Ok false)
    ∧ contents (disk s2) (cursor s2) = [ex_rec 7; mkRecord [105; 0] [0; 0]].
Proof. do 2 eexists. split_and!; [vm_compute; reflexivity..]. Qed.

(** the cursor file is synced and the segments are not: after a power cut the
    cursor can lie past the end of its segment, [open] keeps it, and what is
    appended next is never drained. *)
Theorem cursor_past_the_end :
  ∃ s1 s2, open 100 [(0, [])] (write_cursor (mkCursor 0 12)) = Ok s1
    ∧ append None s1 (s2b "id") [9; 0xFF] = (s2, Ok false)
    ∧ (peek s2).2 = Ok None.
Proof. do 2 eexists. split_and!; [vm_compute; reflexivity..]. Qed.
