(* ===== verification/Stream.v ===== *)
(** Framing over byte streams (rust/connectors/common/src/stream.rs). The reader
    is the list of chunks its [fill_buf] calls will return, each non-empty, the
    stream ending after the last; how the transport cut the stream into chunks
    must not matter. *)
From Stdlib Require Import ZArith Lia.
From S2P Require Export Text.

Local Open Scope Z_scope.

(** @src rust/connectors/common/src/config.rs 359-372 Framing *)
Inductive Framing := Line | LengthDelimited | LengthU32le.

Inductive FrameError := UnexpectedEof | InvalidData.

#[export] Instance FrameError_eq_dec : EqDecision FrameError.
Proof. solve_decision. Defined.

(** [consume n]: [n] bytes of the current chunk are used. *)
Definition consume (n : Z) (chunks : list bytes) : list bytes :=
  match chunks with
  | [] => []
  | c :: cs => match drop (Z.to_nat n) c with [] => cs | c' => c' :: cs end
  end.

(** @src rust/connectors/common/src/stream.rs 61-73 copy_bounded *)
Definition copy_bounded (cap : Z) (buf : bytes) (overflow : bool) (src : bytes) : bytes * bool :=
  let room := Z.max 0 (cap - zlen buf) in
  if room <? zlen src then (buf ++ take (Z.to_nat room) src, true)
  else (buf ++ src, overflow).

(** The [loop] of [read_line]: what the buffer holds, whether the line ran over
    it, and whether the stream ended before anything was read. *)
Fixpoint read_line_loop (fuel : nat) (cap : Z) (chunks : list bytes) (buf : bytes) (overflow : bool) :
    list bytes * res FrameError (bytes * bool) :=
  match fuel with
  | O => (chunks, NoFuel)
  | S fuel =>
      match chunks with
      | [] =>
          if (zlen buf =? 0) && negb overflow then ([], Err UnexpectedEof) else ([], Ok (buf, overflow))
      | chunk :: _ =>
          match find_byte 10 chunk with
          | Some pos =>
              let '(buf, overflow) := copy_bounded cap buf overflow (take (Z.to_nat pos) chunk) in
              (consume (pos + 1) chunks, Ok (buf, overflow))
          | None =>
              let '(buf, overflow) := copy_bounded cap buf overflow chunk in
              read_line_loop fuel cap (consume (zlen chunk) chunks) buf overflow
          end
      end
  end.

(** @src rust/connectors/common/src/stream.rs 14-59 read_line *)
Definition read_line (cap : Z) (chunks : list bytes) : list bytes * res FrameError bytes :=
  let '(chunks', r) := read_line_loop (S (length chunks)) cap chunks [] false in
  (chunks', '(buf, overflow) ← r;
            guard_res (negb overflow) InvalidData ;;
            Ok (trim_end_matches (Z.eqb 13) buf)).

(** [read_exact]: [n] bytes, or the end of the stream with everything read. *)
Fixpoint read_exact (n : nat) (chunks : list bytes) : list bytes * res FrameError bytes :=
  match chunks with
  | [] => ([], match n with O => Ok [] | S _ => Err UnexpectedEof end)
  | c :: cs =>
      if (n <=? length c)%nat then (consume (Z.of_nat n) chunks, Ok (take n c))
      else let '(cs, r) := read_exact (n - length c) cs in (cs, (λ d, c ++ d) <$> r)
  end.

(** @src rust/connectors/common/src/stream.rs 75-91 read_payload *)
Definition read_payload (cap : Z) (n : Z) (chunks : list bytes) : list bytes * res FrameError bytes :=
  if cap <? n then (chunks, Err InvalidData) else read_exact (Z.to_nat n) chunks.

(** @src rust/connectors/common/src/stream.rs 93-114 read_frame *)
Definition read_frame (f : Framing) (cap : Z) (chunks : list bytes) : list bytes * res FrameError bytes :=
  let prefixed (n : nat) (val : bytes → Z) :=
    let '(chunks, r) := read_exact n chunks in
    match r with
    | Ok len => read_payload cap (val len) chunks
    | Err e => (chunks, Err e)
    | Panic => (chunks, Panic)
    | NoFuel => (chunks, NoFuel)
    end in
  match f with
  | Line => read_line cap chunks
  | LengthDelimited => prefixed 2%nat be_val
  | LengthU32le => prefixed 4%nat le_val
  end.

(** * The same on an unchunked stream *)

Definition strip_cr (l : bytes) : bytes := trim_end_matches (Z.eqb 13) l.

(** One line of [input], and what is left. *)
Definition line_of (cap : Z) (input : bytes) : bytes * res FrameError bytes :=
  let fit (l rest : bytes) := (rest, if zlen l <=? cap then Ok (strip_cr l) else Err InvalidData) in
  match find_byte 10 input with
  | Some pos => fit (take (Z.to_nat pos) input) (drop (Z.to_nat (pos + 1)) input)
  | None => match input with [] => ([], Err UnexpectedEof) | _ => fit input [] end
  end.

Definition exact_of (n : nat) (input : bytes) : bytes * res FrameError bytes :=
  if (n <=? length input)%nat then (drop n input, Ok (take n input)) else ([], Err UnexpectedEof).

Definition prefixed_of (cap : Z) (n : nat) (val : bytes → Z) (input : bytes) :
    bytes * res FrameError bytes :=
  match exact_of n input with
  | (rest, Ok len) => if cap <? val len then (rest, Err InvalidData) else exact_of (Z.to_nat (val len)) rest
  | r => r
  end.

Definition frame_of (f : Framing) (cap : Z) (input : bytes) : bytes * res FrameError bytes :=
  match f with
  | Line => line_of cap input
  | LengthDelimited => prefixed_of cap 2 be_val input
  | LengthU32le => prefixed_of cap 4 le_val input
  end.

(** Every chunk [fill_buf] returns before the end is non-empty. *)
Definition chunks_ok (chunks : list bytes) : Prop := Forall (λ c, c ≠ []) chunks.

Lemma consume_ok n chunks : chunks_ok chunks → chunks_ok (consume n chunks).
Proof.
  destruct 1 as [|c cs Hc Hcs]; simpl; [constructor|].
  destruct (drop (Z.to_nat n) c) eqn:E; [done|]. by constructor.
Qed.

Lemma consume_concat n c cs : concat (consume n (c :: cs)) = drop (Z.to_nat n) c ++ concat cs.
Proof. simpl. by destruct (drop (Z.to_nat n) c). Qed.

Lemma find_byte_app_None c l k :
  find_byte c l = None → find_byte c (l ++ k) = (λ p, zlen l + p) <$> find_byte c k.
Proof.
  induction l as [|b l IH]; simpl.
  - intros _. by destruct (find_byte c k).
  - destruct (b =? c); [done|]. intros H%fmap_None. rewrite (IH H). rewrite zlen_cons.
    destruct (find_byte c k); simpl; f_equal. lia.
Qed.

Lemma find_byte_app_Some c l k p : find_byte c l = Some p → find_byte c (l ++ k) = Some p.
Proof.
  revert p. induction l as [|b l IH]; intros p; simpl; [done|]. destruct (b =? c); [done|].
  intros (q & Hq & ->)%fmap_Some. by rewrite (IH q Hq).
Qed.

(** The buffer is the line so far, cut at its capacity, and [overflow] records
    that it was cut. *)
Definition buffered (cap : Z) (line buf : bytes) (overflow : bool) : Prop :=
  buf = take (Z.to_nat cap) line ∧ overflow = (cap <? zlen line).

Lemma buffered_copy cap line buf overflow src :
  0 ≤ cap → buffered cap line buf overflow →
  let '(buf', o') := copy_bounded cap buf overflow src in buffered cap (line ++ src) buf' o'.
Proof.
  intros Hc [-> ->]. unfold copy_bounded, buffered.
  pose proof (zlen_nonneg line). pose proof (zlen_nonneg src). rewrite zlen_app.
  assert (zlen (take (Z.to_nat cap) line) = Z.min cap (zlen line)) as Hz
    by (unfold zlen; rewrite length_take; lia).
  rewrite Hz. case_in_goal; bool_prop.
  - split; [|lia]. rewrite take_app. f_equal. f_equal. unfold zlen in *. lia.
  - split; [|apply ltb_iff; lia]. rewrite take_app. f_equal. symmetry. apply take_ge. unfold zlen in *. lia.
Qed.

Lemma read_line_loop_ok fuel cap chunks line buf overflow :
  0 ≤ cap → chunks_ok chunks → buffered cap line buf overflow → (length chunks < fuel)%nat →
  let whole := line ++ concat chunks in
  find_byte 10 line = None →
  ∃ chunks', chunks_ok chunks' ∧
    read_line_loop fuel cap chunks buf overflow =
      (chunks', match find_byte 10 whole with
                | Some pos =>
                    let l := take (Z.to_nat pos) whole in Ok (take (Z.to_nat cap) l, cap <? zlen l)
                | None =>
                    if bool_decide (whole = []) then Err UnexpectedEof
                    else Ok (take (Z.to_nat cap) whole, cap <? zlen whole)
                end)
    ∧ concat chunks' = match find_byte 10 whole with
                       | Some pos => drop (Z.to_nat (pos + 1)) whole
                       | None => []
                       end.
Proof.
  intros Hc. revert fuel line buf overflow. induction chunks as [|c cs IH]; intros fuel line buf overflow Hok Hb Hf whole Hn;
    (destruct fuel as [|fuel]; [simpl in Hf; lia|]).
  - unfold whole. simpl. rewrite app_nil_r, Hn. destruct Hb as [-> ->].
    exists []. split_and!; [constructor| |done].
    pose proof (zlen_nonneg line).
    assert (zlen (take (Z.to_nat cap) line) = Z.min cap (zlen line)) as Hz
      by (unfold zlen; rewrite length_take; lia).
    rewrite Hz. destruct line as [|b line].
    + by replace (_ && _) with true by (change (zlen (@nil Z)) with 0; lia).
    + rewrite zlen_cons in *. pose proof (zlen_nonneg line).
      by replace (_ && _) with false by lia.
  - inversion Hok as [|? ? Hce Hcs]; subst. simpl. unfold whole. simpl concat.
    destruct (find_byte 10 c) as [pos|] eqn:Hp.
    + destruct (find_byte_Some _ _ _ Hp) as [Hr _].
      pose proof (buffered_copy cap line buf overflow (take (Z.to_nat pos) c) Hc Hb) as Hcp.
      destruct (copy_bounded _ _ _ _) as [buf' o']. destruct Hcp as [-> ->].
      rewrite (find_byte_app_None _ _ _ Hn), (find_byte_app_Some _ _ _ _ Hp). simpl.
      exists (consume (pos + 1) (c :: cs)). split_and!; [by apply consume_ok| |].
      * simpl. repeat f_equal.
        -- rewrite take_app_ge by (unfold zlen; lia). f_equal. rewrite take_app_le by (unfold zlen in *; lia).
           f_equal. unfold zlen. lia.
        -- rewrite take_app_ge by (unfold zlen; lia). f_equal. rewrite take_app_le by (unfold zlen in *; lia).
           f_equal. unfold zlen. lia.
      * rewrite consume_concat. rewrite drop_app_ge by (unfold zlen; lia).
        rewrite drop_app_le by (unfold zlen in *; lia). do 2 f_equal. unfold zlen. lia.
    + pose proof (buffered_copy cap line buf overflow c Hc Hb) as Hcp.
      destruct (copy_bounded _ _ _ _) as [buf' o'].
      assert (drop (Z.to_nat (zlen c)) c = []) as ->.
      { unfold zlen. rewrite Nat2Z.id. apply drop_all. }
      destruct (IH fuel (line ++ c) buf' o' Hcs Hcp) as (chunks' & H1 & H2 & H3).
      * simpl in Hf. lia.
      * by rewrite (find_byte_app_None _ _ _ Hn), Hp.
      * exists chunks'. by rewrite <- app_assoc in H2, H3.
Qed.

Lemma read_line_spec cap chunks :
  0 ≤ cap → chunks_ok chunks →
  ∃ chunks', chunks_ok chunks' ∧ read_line cap chunks = (chunks', (line_of cap (concat chunks)).2)
    ∧ concat chunks' = (line_of cap (concat chunks)).1.
Proof.
  intros Hc Hok.
  destruct (read_line_loop_ok (S (length chunks)) cap chunks [] [] false Hc Hok) as (chunks' & H1 & H2 & H3).
  - split; [by rewrite take_nil|]. symmetry. apply Z.ltb_ge. done.
  - lia.
  - done.
  - exists chunks'. split; [done|]. unfold read_line. rewrite H2. simpl in *. unfold line_of.
    assert (∀ l : bytes, (guard_res (negb (cap <? zlen l)) InvalidData ;;
      Ok (trim_end_matches (Z.eqb 13) (take (Z.to_nat cap) l)))
      = if zlen l <=? cap then Ok (strip_cr l) else Err InvalidData) as Hl.
    { intros l. destruct (Z.ltb_spec cap (zlen l)), (Z.leb_spec (zlen l) cap); try lia; [done|].
      simpl. unfold strip_cr. rewrite take_ge; [done|]. unfold zlen in *. lia. }
    destruct (find_byte 10 (concat chunks)) as [pos|]; simpl.
    + split; [|done]. f_equal. apply Hl.
    + destruct (concat chunks) as [|b l] eqn:E; [done|]. rewrite bool_decide_eq_false_2 by done.
      split; [|done]. f_equal. apply Hl.
Qed.

Lemma read_exact_spec n chunks :
  chunks_ok chunks →
  ∃ chunks', chunks_ok chunks' ∧ read_exact n chunks = (chunks', (exact_of n (concat chunks)).2)
    ∧ concat chunks' = (exact_of n (concat chunks)).1.
Proof.
  intros Hok. revert n. induction Hok as [|c cs Hc Hcs IH]; intros n.
  - exists []. split; [constructor|]. by destruct n.
  - simpl read_exact. unfold exact_of. simpl concat. rewrite length_app.
    destruct (Nat.leb_spec n (length c)) as [Hn|Hn].
    + exists (consume (Z.of_nat n) (c :: cs)). split; [apply consume_ok; by constructor|].
      rewrite consume_concat, Nat2Z.id. destruct (Nat.leb_spec n (length c + length (concat cs))); [|lia].
      cbn [fst snd]. rewrite drop_app_le, take_app_le by lia. unfold consume. by rewrite Nat2Z.id.
    + destruct (IH (n - length c)%nat) as (chunks' & H1 & -> & H3). exists chunks'. split; [done|].
      rewrite H3. unfold exact_of.
      destruct (Nat.leb_spec (n - length c) (length (concat cs))),
        (Nat.leb_spec n (length c + length (concat cs))); try lia; simpl; [|done].
      rewrite (drop_app_ge c), (take_app_ge c) by lia. done.
Qed.

Lemma read_frame_spec f cap chunks :
  0 ≤ cap → chunks_ok chunks →
  ∃ chunks', chunks_ok chunks' ∧ read_frame f cap chunks = (chunks', (frame_of f cap (concat chunks)).2)
    ∧ concat chunks' = (frame_of f cap (concat chunks)).1.
Proof.
  intros Hc Hok. destruct f; [by apply read_line_spec| |]; simpl; unfold prefixed_of;
    (match goal with |- context [read_exact ?n chunks] =>
      destruct (read_exact_spec n chunks Hok) as (cs & Hcs & -> & Hr);
      destruct (exact_of n (concat chunks)) as [rest [len|e| |]] eqn:He; simpl in *; subst; eauto end);
    unfold read_payload; case_in_goal; eauto;
    (match goal with Hk : chunks_ok ?k |- context [read_exact ?n ?k] =>
      destruct (read_exact_spec n k Hk) as (cs' & Hcs' & -> & Hr'); eauto end).
Qed.

(** Reading frame after frame until the stream ends. *)
Fixpoint read_all (fuel : nat) (f : Framing) (cap : Z) (chunks : list bytes) :
    list (res FrameError bytes) :=
  match fuel with
  | O => []
  | S fuel =>
      match read_frame f cap chunks with
      | (_, Err UnexpectedEof) => []
      | (chunks, r) => r :: read_all fuel f cap chunks
      end
  end.

Lemma read_all_chunks fuel f cap chunks chunks' :
  0 ≤ cap → chunks_ok chunks → chunks_ok chunks' → concat chunks = concat chunks' →
  read_all fuel f cap chunks = read_all fuel f cap chunks'.
Proof.
  intros Hc. revert chunks chunks'. induction fuel as [|fuel IH]; intros chunks chunks' H H' He; [done|].
  simpl. destruct (read_frame_spec f cap chunks Hc H) as (k & Hk & -> & Er).
  destruct (read_frame_spec f cap chunks' Hc H') as (k' & Hk' & -> & Er'). rewrite He in *.
  rewrite <- Er' in Er. destruct (frame_of f cap (concat chunks')).2 as [b|[]| |]; [|done|..];
    f_equal; by apply IH.
Qed.

(** ** Lines *)

Definition line_ok (cap : Z) (l : bytes) : Prop := 10 ∉ l ∧ zlen l ≤ cap ∧ last l ≠ Some 13.

Lemma strip_cr_id l : last l ≠ Some 13 → strip_cr l = l.
Proof.
  intros H. unfold strip_cr, trim_end_matches. destruct l as [|b l _] using rev_ind; [done|].
  rewrite rev_unit. cbn [drop_while]. rewrite last_snoc in H.
  destruct (13 =? b) eqn:E; bool_prop; [by subst|]. by rewrite <- rev_unit, rev_involutive.
Qed.

Lemma line_of_line cap l k : line_ok cap l → line_of cap (l ++ 10 :: k) = (k, Ok l).
Proof.
  intros (Hn & Hz & Hcr). unfold line_of. rewrite find_byte_app by done.
  assert (Z.to_nat (zlen l) = length l) as -> by (unfold zlen; lia).
  assert (Z.to_nat (zlen l + 1) = length l + 1)%nat as -> by (unfold zlen; lia).
  rewrite take_app_length. replace (zlen l <=? cap) with true by lia.
  rewrite strip_cr_id by done. f_equal. by rewrite <- drop_drop, drop_app_length.
Qed.

(** What a sender writes for each framing. *)
Definition enc_frame (f : Framing) (l : bytes) : bytes :=
  match f with
  | Line => l ++ [10]
  | LengthDelimited => be_enc 2 (zlen l) ++ l
  | LengthU32le => rev (be_enc 4 (zlen l)) ++ l
  end.

Definition frame_ok (f : Framing) (cap : Z) (l : bytes) : Prop :=
  match f with
  | Line => line_ok cap l
  | LengthDelimited => zlen l ≤ cap ∧ zlen l < 2 ^ 16
  | LengthU32le => zlen l ≤ cap ∧ zlen l < 2 ^ 32
  end.

Lemma exact_of_app l k : exact_of (length l) (l ++ k) = (k, Ok l).
Proof.
  unfold exact_of. rewrite length_app. destruct (Nat.leb_spec (length l) (length l + length k)); [|lia].
  by rewrite drop_app_length, take_app_length.
Qed.

Lemma prefixed_of_app cap n val p l k :
  length p = n → val p = zlen l → zlen l ≤ cap → prefixed_of cap n val (p ++ l ++ k) = (k, Ok l).
Proof.
  intros <- Hv Hz. unfold prefixed_of. rewrite exact_of_app, Hv. replace (cap <? zlen l) with false by lia.
  unfold zlen. rewrite Nat2Z.id. apply exact_of_app.
Qed.

Lemma frame_of_enc f cap l k : frame_ok f cap l → frame_of f cap (enc_frame f l ++ k) = (k, Ok l).
Proof.
  destruct f; cbn [frame_of enc_frame frame_ok]; intros H; rewrite <- app_assoc.
  - by apply line_of_line.
  - pose proof (zlen_nonneg l). apply prefixed_of_app; [by rewrite be_enc_length| |lia].
    rewrite be_val_enc. apply Z.mod_small. change (256 ^ Z.of_nat 2) with (2 ^ 16). lia.
  - pose proof (zlen_nonneg l). apply prefixed_of_app; [by rewrite length_rev, be_enc_length| |lia].
    unfold le_val. rewrite rev_involutive, be_val_enc.
    apply Z.mod_small. change (256 ^ Z.of_nat 4) with (2 ^ 32). lia.
Qed.

Lemma read_all_frames f cap ls chunks :
  0 ≤ cap → chunks_ok chunks → Forall (frame_ok f cap) ls → concat chunks = concat (enc_frame f <$> ls) →
  ∀ fuel, (length ls < fuel)%nat → read_all fuel f cap chunks = Ok <$> ls.
Proof.
  intros Hc Hok Hl. revert chunks Hok. induction Hl as [|l ls Hl Hls IH]; intros chunks Hok He fuel Hf;
    (destruct fuel as [|fuel]; [simpl in Hf; lia|]); simpl read_all;
    destruct (read_frame_spec f cap chunks Hc Hok) as (k & Hk & -> & Er); rewrite He in *.
  - by destruct f.
  - change (concat (enc_frame f <$> l :: ls)) with (enc_frame f l ++ concat (enc_frame f <$> ls)) in *.
    rewrite frame_of_enc in * by done. simpl. f_equal. apply IH; [done|done|simpl in Hf; lia].
Qed.

(** * Properties *)

(** framing does not depend on how the transport cut the stream: each read
    returns what the framing defines on the concatenated bytes and leaves
    exactly the bytes after it, oversize lines included. *)
Theorem read_frame_chunking f cap chunks :
  0 ≤ cap → chunks_ok chunks →
  ∃ chunks', chunks_ok chunks' ∧ read_frame f cap chunks = (chunks', (frame_of f cap (concat chunks)).2)
    ∧ concat chunks' = (frame_of f cap (concat chunks)).1.
Proof. apply read_frame_spec. Qed.

(** frames survive the wire: whatever frames a sender writes, in whatever
    chunks they arrive, the source returns exactly those, in order, then ends. *)
Theorem read_all_roundtrip f cap ls chunks :
  0 ≤ cap → chunks_ok chunks → Forall (frame_ok f cap) ls → concat chunks = concat (enc_frame f <$> ls) →
  read_all (S (length ls)) f cap chunks = Ok <$> ls.
Proof. intros. apply read_all_frames; try done. lia. Qed.

Lemma read_frame_chunking_witness :
  ∃ chunks', read_frame Line 4 [[97; 98]; [13; 10; 99]] = (chunks', Ok [97; 98]) ∧ concat chunks' = [99].
Proof.
  destruct (read_frame_chunking Line 4 [[97; 98]; [13; 10; 99]]) as (c & _ & H & H').
  - lia.
  - by repeat constructor.
  - exists c. split; [exact H|exact H'].
Defined.

Lemma read_all_roundtrip_witness :
  read_all 3 LengthDelimited 10 [[0]; [2; 7]; [8; 0; 0]] = [Ok [7; 8]; Ok []].
Proof.
  apply (read_all_roundtrip LengthDelimited 10 [[7; 8]; []] [[0]; [2; 7]; [8; 0; 0]]).
  - lia.
  - by repeat constructor.
  - constructor; [|constructor; [|constructor]]; vm_compute; by split.
  - reflexivity.
Defined.
