(* ===== verification/Marking.v ===== *)
(** Security marking (rust/connectors/common/src/marking.rs): the operator's
    [[marking]] block, validated once and stamped on every event before it is
    sealed. *)
From Stdlib Require Import ZArith Lia.
From Stdlib Require Import Strings.String.
From S2P Require Export Event.

Local Open Scope Z_scope.

(** @src rust/connectors/common/src/marking.rs 10-18 LEVELS *)
Definition LEVELS : list string :=
  ["unclassified"; "restricted"; "confidential"; "secret"; "top-secret"]%string.

(** @src rust/connectors/common/src/marking.rs 20-22 MAX_CONFIG_TAGS *)
Definition MAX_CONFIG_TAGS : Z := 16.

(** @src rust/connectors/common/src/marking.rs 24-38 MarkingConfig *)
Record MarkingConfig := mkMarkingConfig {
  classification : option string;
  releasable_to : list string;
  policy : option string;
  caveats : list string
}.

(** @src rust/connectors/common/src/marking.rs 40-62 MarkingError *)
Inductive MarkingError :=
| Empty
| UnknownLevel (s : string)
| BadToken (field value : string)
| TooMany (n : Z).

(** @src rust/connectors/common/src/marking.rs 64-69 Marking *)
Record Marking := mkMarking { tags : list string }.

Definition one_of (l : bytes) (names : list string) : bool :=
  existsb (λ n, bool_decide (l = s2b n)) names.

(** @src rust/connectors/common/src/marking.rs 147-161 classification_level *)
Definition classification_level (raw : bytes) : option string :=
  let lower := dashes_to_spaces (ascii_lower (trim raw)) in
  if one_of lower ["unclassified"; "unclass"; "u"]%string then LEVELS !! 0%nat
  else if one_of lower ["restricted"; "r"]%string then LEVELS !! 1%nat
  else if one_of lower ["confidential"; "c"]%string then LEVELS !! 2%nat
  else if one_of lower ["secret"; "s"]%string then LEVELS !! 3%nat
  else if one_of lower ["top secret"; "topsecret"; "ts"]%string then LEVELS !! 4%nat
  else None.

(** [iter().position(p)]. *)
Fixpoint position {A} (p : A → bool) (l : list A) : option nat :=
  match l with
  | [] => None
  | x :: l => if p x then Some 0%nat else S <$> position p l
  end.

(** @src rust/connectors/common/src/marking.rs 163-166 rank *)
Definition rank (level : string) : nat := default 0%nat (position (String.eqb level) LEVELS).

(** @src rust/connectors/common/src/marking.rs 198-214 token *)
Definition token (field raw : string) : res MarkingError string :=
  let t := ascii_upper (trim (s2b raw)) in
  let ok := negb (bool_decide (t = [])) && (zlen t <=? 32)
            && forallb (λ b, is_alnum b || (b =? 45) || (b =? 95)) t in
  if ok then Ok (b2s t) else Err (BadToken field raw).

(** The [push] closure: no tag twice. *)
Definition push_tag (ts : list string) (t : string) : list string :=
  if bool_decide (t ∈ ts) then ts else ts ++ [t].

Fixpoint push_tokens (prefix field : string) (raws : list string) (ts : list string) :
    res MarkingError (list string) :=
  match raws with
  | [] => Ok ts
  | raw :: raws => t ← token field raw; push_tokens prefix field raws (push_tag ts (prefix +:+ t))
  end.

(** @src rust/connectors/common/src/marking.rs 72-100 Marking::from_config *)
Definition from_config (cfg : MarkingConfig) : res MarkingError Marking :=
  ts ← match classification cfg with
       | Some level =>
           c ← ok_or (UnknownLevel level) (classification_level (s2b level));
           Ok (push_tag [] ("class:" +:+ c))
       | None => Ok []
       end;
  ts ← match policy cfg with
       | Some p => push_tokens "policy:" "policy" [p] ts
       | None => Ok ts
       end;
  ts ← push_tokens "rel:" "releasable_to" (releasable_to cfg) ts;
  ts ← push_tokens "caveat:" "caveats" (caveats cfg) ts;
  if bool_decide (ts = []) then Err Empty
  else if MAX_CONFIG_TAGS <? zlen ts then Err (TooMany (zlen ts))
  else Ok (mkMarking ts).

Definition class_of (t : string) : option bytes := strip_prefix (s2b "class:") (s2b t).

(** [find_map]. *)
Fixpoint find_map {A B} (f : A → option B) (l : list A) : option B :=
  match l with
  | [] => None
  | x :: l => match f x with Some y => Some y | None => find_map f l end
  end.

(** The level a tag states, when it is a class tag with a known one. *)
Definition ranked (t : string) : option string := class_of t ≫= classification_level.
Definition is_ranked (t : string) : bool := bool_decide (is_Some (ranked t)).

Definition with_tags (e : Event) (ts : list string) : Event :=
  mkEvent (schema_version e) (ev_id e) (ev_source_id e) (ev_entity_type e) (ev_timestamp e)
    (received_at e) (ev_location e) (ev_payload e) ts (ev_confidence e) (ev_attributes e)
    (ev_metadata e).

(** The operator's floor. *)
Definition floor_of (m : Marking) : option string :=
  find_map class_of (tags m) ≫= classification_level.

Definition highest (floor : string) (ts : list string) : string :=
  fold_left (λ a b, if (rank a <? rank b)%nat then b else a) (omap ranked ts) floor.

(** @src rust/connectors/common/src/marking.rs 106-138 Marking::apply *)
Definition apply (m : Marking) (e : Event) : Event :=
  let ts := ev_policy_tags e in
  let ts :=
    match floor_of m with
    | Some floor =>
        let high := highest floor ts in
        let at_ := default 0%nat (position is_ranked ts) in
        let ts := filter (λ t, is_ranked t = false) ts in
        let at_ := Nat.min at_ (length ts) in
        take at_ ts ++ ("class:" +:+ high) :: drop at_ ts
    | None => ts
    end in
  with_tags e (fold_left push_tag (filter (λ t, class_of t = None) (tags m)) ts).

(** @src rust/connectors/common/src/marking.rs 168-196 wire_classification *)
Definition wire_classification (raw : bytes) (policy_id : option string) : list string :=
  let upper := dashes_to_spaces (ascii_upper (trim raw)) in
  if bool_decide (upper = []) then []
  else
    let '(level, named) :=
      if bool_decide (upper = s2b "COSMIC TOP SECRET") then (Some "top-secret", Some "NATO")
      else match strip_prefix (s2b "NATO ") upper with
      | Some rest => (classification_level rest, Some "NATO")
      | None => (classification_level upper, None)
      end%string in
    let level := default "top-secret"%string level in
    let pol := match p ← policy_id; match token "policy" p with Ok t => Some t | _ => None end with
               | Some t => Some t
               | None => named
               end in
    ("class:" +:+ level)%string :: match pol with Some p => [("policy:" +:+ p)%string] | None => [] end.

Example level_ex :
  classification_level (s2b " Top_Secret ") = Some "top-secret"%string
  ∧ classification_level (s2b "cosmic") = None ∧ rank "secret" = 3%nat.
Proof. by vm_compute. Qed.

(** * Lemmas *)

Lemma s2b_str_app s t : s2b (s +:+ t) = s2b s ++ s2b t.
Proof. apply s2b_app. Qed.

Lemma classification_level_canonical raw c : classification_level raw = Some c → c ∈ LEVELS.
Proof.
  unfold classification_level. intros H. repeat (case_in H; [injection H as <-; set_solver|]). done.
Qed.

(** A canonical level reads back as itself, and levels have distinct ranks. *)
Lemma canonical_level c : c ∈ LEVELS → classification_level (s2b c) = Some c.
Proof. unfold LEVELS. rewrite !elem_of_cons, elem_of_nil. intros [->|[->|[->|[->|[->|[]]]]]]; done. Qed.

Lemma rank_inj c d : c ∈ LEVELS → d ∈ LEVELS → rank c = rank d → c = d.
Proof.
  unfold LEVELS. rewrite !elem_of_cons, !elem_of_nil.
  intros [->|[->|[->|[->|[->|[]]]]]] [->|[->|[->|[->|[->|[]]]]]]; vm_compute; done.
Qed.

Lemma class_of_class c : class_of ("class:" +:+ c) = Some (s2b c).
Proof. unfold class_of. rewrite s2b_str_app. by apply strip_prefix_Some. Qed.

Lemma ranked_class c : c ∈ LEVELS → ranked ("class:" +:+ c) = Some c.
Proof. intros H. unfold ranked. rewrite class_of_class. simpl. by apply canonical_level. Qed.

Lemma ranked_canonical t c : ranked t = Some c → c ∈ LEVELS.
Proof. intros (raw & _ & H)%bind_Some. by eapply classification_level_canonical. Qed.

Lemma is_ranked_true t : is_ranked t = true ↔ ∃ c, ranked t = Some c.
Proof. unfold is_ranked. by rewrite bool_decide_eq_true. Qed.

Lemma is_ranked_false t : is_ranked t = false ↔ ranked t = None.
Proof.
  unfold is_ranked. rewrite bool_decide_eq_false. destruct (ranked t); split; try done.
  intros H. destruct H. eauto.
Qed.

Lemma floor_canonical m f : floor_of m = Some f → f ∈ LEVELS.
Proof. intros (raw & _ & H)%bind_Some. by eapply classification_level_canonical. Qed.

(** The fold picks a level no lower than the floor or any stated level, and
    one of those. *)
Lemma highest_spec floor ts :
  let h := highest floor ts in
  (h = floor ∨ ∃ t, t ∈ ts ∧ ranked t = Some h) ∧ (rank floor ≤ rank h)%nat
  ∧ ∀ t c, t ∈ ts → ranked t = Some c → (rank c ≤ rank h)%nat.
Proof.
  unfold highest. revert floor. induction ts as [|t ts IH]; intros floor; cbn zeta.
  - split_and!; [by left|done|]. intros t c H. by apply elem_of_nil in H.
  - change (omap ranked (t :: ts)) with
      (match ranked t with Some c => c :: omap ranked ts | None => omap ranked ts end).
    destruct (ranked t) as [c|] eqn:Hc; cbn [fold_left].
    + set (f' := if (rank floor <? rank c)%nat then c else floor).
      destruct (IH f') as (H1 & H2 & H3).
      assert (rank floor ≤ rank f' ∧ rank c ≤ rank f')%nat as [? ?].
      { unfold f'. destruct (Nat.ltb_spec (rank floor) (rank c)); lia. }
      split_and!.
      * destruct H1 as [->|(t' & ? & ?)]; [|right; exists t'; split; [by right|done]].
        unfold f'. destruct (_ <? _)%nat; [right; exists t; split; [left|done]|by left].
      * lia.
      * intros t' c' [->|Ht]%elem_of_cons Hc'; [rewrite Hc in Hc'; injection Hc' as <-; lia|eauto].
    + destruct (IH floor) as (H1 & H2 & H3). split_and!; [|done|].
      * destruct H1 as [->|(t' & ? & ?)]; [by left|right; exists t'; split; [by right|done]].
      * intros t' c' [->|Ht]%elem_of_cons Hc'; [congruence|eauto].
Qed.

Lemma highest_canonical floor ts : floor ∈ LEVELS → highest floor ts ∈ LEVELS.
Proof.
  intros Hf. destruct (highest_spec floor ts) as ([->|(t & _ & Ht)] & _); [done|].
  by eapply ranked_canonical.
Qed.

(** A lone class tag at or above the floor is what the fold picks. *)
Lemma highest_one floor c ts ts' :
  floor ∈ LEVELS → c ∈ LEVELS → (rank floor ≤ rank c)%nat →
  omap ranked ts = [] → omap ranked ts' = [] →
  highest floor (ts ++ ("class:" +:+ c) :: ts') = c.
Proof.
  intros Hf Hc Hr H H'. unfold highest. rewrite omap_app, H.
  change (omap ranked (("class:" +:+ c) :: ts')) with (match ranked ("class:" +:+ c) with
    Some c => c :: omap ranked ts' | None => omap ranked ts' end).
  rewrite ranked_class, H' by done. simpl. destruct (Nat.ltb_spec (rank floor) (rank c)); [done|].
  apply rank_inj; [done|done|lia].
Qed.

Lemma push_tag_sub ts t : push_tag ts t = ts ∨ push_tag ts t = ts ++ [t].
Proof. unfold push_tag. case_bool_decide; auto. Qed.

Lemma push_all_spec k ts :
  ∃ added, fold_left push_tag k ts = ts ++ added ∧ (∀ t, t ∈ added → t ∈ k ∧ t ∉ ts)
    ∧ (∀ t, t ∈ k → t ∈ ts ++ added) ∧ NoDup added ∧ (length added ≤ length k)%nat.
Proof.
  revert ts. induction k as [|x k IH]; intros ts; simpl.
  - exists []. rewrite app_nil_r. split_and!; try done; try apply NoDup_nil_2; intros t H; by apply elem_of_nil in H.
  - unfold push_tag at 2. case_bool_decide as Hx.
    + destruct (IH ts) as (a & -> & H1 & H2 & H3 & H4). exists a. split_and!; try done; [| |lia].
      * intros t Ht. destruct (H1 t Ht). split; [by right|done].
      * intros t [->|Ht]%elem_of_cons; [apply elem_of_app; by left|auto].
    + destruct (IH (ts ++ [x])) as (a & -> & H1 & H2 & H3 & H4). exists (x :: a).
      rewrite <- app_assoc. simpl in *. split_and!; try done; [| | |lia].
      * intros t [->|Ht]%elem_of_cons; [split; [left|done]|]. destruct (H1 t Ht). split; [by right|set_solver].
      * intros t [->|Ht]%elem_of_cons; [set_solver|]. specialize (H2 t Ht). set_solver.
      * apply NoDup_cons. split; [|done]. intros Hin. destruct (H1 x Hin). set_solver.
Qed.

Lemma push_all_id k ts : (∀ t, t ∈ k → t ∈ ts) → fold_left push_tag k ts = ts.
Proof.
  induction k as [|x k IH]; intros H; [done|]. simpl. unfold push_tag at 2.
  rewrite bool_decide_eq_true_2 by (apply H; left). apply IH. intros t Ht. apply H. by right.
Qed.

Lemma unranked_omap ts : Forall (λ t, is_ranked t = false) ts → omap ranked ts = [].
Proof. induction 1 as [|t ts Ht Hts IH]; [done|]. simpl. apply is_ranked_false in Ht. by rewrite Ht. Qed.

Lemma unranked_filter ts : Forall (λ t, is_ranked t = false) ts → filter (λ t, is_ranked t = false) ts = ts.
Proof. induction 1 as [|t ts Ht Hts IH]; [done|]. by rewrite filter_cons_True, IH. Qed.

Lemma position_app ts t ts' :
  Forall (λ t, is_ranked t = false) ts → is_ranked t = true →
  position is_ranked (ts ++ t :: ts') = Some (length ts).
Proof. induction 1 as [|x ts Hx Hts IH]; intros Ht; simpl; [by rewrite Ht|]. by rewrite Hx, IH. Qed.

Lemma Forall_filter_tags (ts : list string) :
  Forall (λ t, is_ranked t = false) (filter (λ t, is_ranked t = false) ts).
Proof. apply Forall_forall. by intros t [? _]%list_elem_of_filter. Qed.

Lemma not_class_unranked t : class_of t = None → is_ranked t = false.
Proof. intros H. apply is_ranked_false. unfold ranked. by rewrite H. Qed.

(** The tags [apply] leaves: the operator's level where the wire's class tag
    was, the other wire tags in their order, and the missing operator tags. *)
Lemma apply_tags m e floor :
  floor_of m = Some floor →
  let wire := filter (λ t, is_ranked t = false) (ev_policy_tags e) in
  let h := highest floor (ev_policy_tags e) in
  ∃ at_ added, (at_ ≤ length wire)%nat
    ∧ ev_policy_tags (apply m e) = (take at_ wire ++ ("class:" +:+ h) :: drop at_ wire) ++ added
    ∧ Forall (λ t, is_ranked t = false) added
    ∧ (∀ t, t ∈ tags m → class_of t = None → t ∈ ev_policy_tags (apply m e))
    ∧ (∀ t, t ∈ added → t ∈ tags m) ∧ (length added < length (tags m))%nat.
Proof.
  intros Hf wire h. unfold apply. rewrite Hf. fold wire h. simpl.
  set (at_ := Nat.min _ (length wire)).
  destruct (push_all_spec (filter (λ t, class_of t = None) (tags m))
    (take at_ wire ++ ("class:" +:+ h) :: drop at_ wire)) as (a & -> & H1 & H2 & _ & H4).
  exists at_, a. split_and!; [unfold at_; lia|done| | | |].
  - apply Forall_forall. intros t Ht. destruct (H1 t Ht) as [[? _]%list_elem_of_filter _].
    by apply not_class_unranked.
  - intros t Ht Hc. apply H2. by apply list_elem_of_filter.
  - intros t Ht. by destruct (H1 t Ht) as [[_ ?]%list_elem_of_filter _].
  - assert (∃ t, t ∈ tags m ∧ class_of t ≠ None) as (t & Ht & Hc).
    { unfold floor_of in Hf. clear -Hf. induction (tags m) as [|t l IH]; simpl in Hf; [done|].
      destruct (class_of t) eqn:E; [exists t; split; [left|congruence]|].
      destruct (IH Hf) as (t' & ? & ?). exists t'. split; [by right|done]. }
    pose proof (length_filter_lt (λ t, class_of t = None) (tags m) t Ht Hc). lia.
Qed.

Lemma filter_unranked_app ts ts' :
  filter (λ t, is_ranked t = false) (ts ++ ts')
  = filter (λ t, is_ranked t = false) ts ++ filter (λ t, is_ranked t = false) ts'.
Proof. apply filter_app. Qed.

Lemma unranked_split ts at_ : Forall (λ t, is_ranked t = false) ts →
  Forall (λ t, is_ranked t = false) (take at_ ts) ∧ Forall (λ t, is_ranked t = false) (drop at_ ts).
Proof. intros H. by split; [apply Forall_take|apply Forall_drop]. Qed.

Lemma is_ranked_class h : h ∈ LEVELS → is_ranked ("class:" +:+ h) = true.
Proof. intros H. apply is_ranked_true. exists h. by apply ranked_class. Qed.

Lemma apply_unchanged m e : apply m e = with_tags e (ev_policy_tags (apply m e)).
Proof. done. Qed.

(** A tag list [apply] has nothing to add to. *)
Lemma apply_again m e :
  ev_policy_tags (apply m (apply m e)) = ev_policy_tags (apply m e).
Proof.
  destruct (floor_of m) as [floor|] eqn:Hf.
  - destruct (apply_tags m e floor Hf) as (at_ & added & Ha & Ht & Hu & Hm & _ & _).
    set (wire := filter (λ t, is_ranked t = false) (ev_policy_tags e)) in *.
    set (h := highest floor (ev_policy_tags e)) in *.
    assert (h ∈ LEVELS) as Hh by (apply highest_canonical; by eapply floor_canonical).
    assert (rank floor ≤ rank h)%nat as Hr by apply (highest_spec floor (ev_policy_tags e)).
    destruct (unranked_split wire at_ (Forall_filter_tags _)) as [Hw1 Hw2].
    unfold apply at 1. rewrite Hf. cbn [ev_policy_tags with_tags]. rewrite Ht.
    rewrite <- (app_assoc (take at_ wire)). cbn [app].
    rewrite highest_one; try done; [|by eapply floor_canonical|by apply unranked_omap|];
      [|rewrite omap_app, !unranked_omap by done; done].
    rewrite position_app by (done || by apply is_ranked_class). cbn [default].
    rewrite filter_unranked_app, filter_cons_False, filter_unranked_app, !unranked_filter
      by (done || by rewrite is_ranked_class).
    assert (length (take at_ wire) = at_) as Hl by (rewrite length_take; lia).
    unfold Datatypes.id. rewrite Nat.min_l by (rewrite !length_app; lia).
    rewrite take_app_length, drop_app_length. apply push_all_id.
    intros t [Hc Hin]%list_elem_of_filter. specialize (Hm t Hin Hc). rewrite Ht in Hm.
    by rewrite <- (app_assoc (take at_ wire)) in Hm.
  - unfold apply at 1. rewrite Hf. cbn [ev_policy_tags with_tags]. apply push_all_id.
    intros t Ht. unfold apply. rewrite Hf. cbn [ev_policy_tags with_tags].
    destruct (push_all_spec (filter (λ t, class_of t = None) (tags m)) (ev_policy_tags e))
      as (a & -> & _ & H2 & _). by apply H2.
Qed.

(** ** Configurations *)

Lemma push_tokens_Ok prefix field raws ts ts' :
  push_tokens prefix field raws ts = Ok ts' →
  ∃ added, ts' = ts ++ added ∧ (NoDup ts → NoDup ts')
    ∧ (∀ t, t ∈ added → ∃ s, t = prefix +:+ s)
    ∧ (∀ raw, raw ∈ raws → ∃ s, token field raw = Ok s ∧ prefix +:+ s ∈ ts').
Proof.
  revert ts. induction raws as [|raw raws IH]; intros ts; simpl.
  - intros [= <-]. exists []. rewrite app_nil_r. split_and!; try done; intros t H; by apply elem_of_nil in H.
  - intros H. inv_ok. destruct (IH _ H0) as (a & -> & H1 & H2 & H3).
    unfold push_tag in *. case_bool_decide as Hx.
    + exists a. split_and!; try done. intros r [->|Hr]%elem_of_cons; [|auto].
      exists x. split; [done|]. apply elem_of_app. by left.
    + exists ((prefix +:+ x) :: a). rewrite <- (app_assoc ts) in *. split_and!; try done.
      * intros Hn. apply H1. apply NoDup_app. split_and!; [done| |apply NoDup_singleton].
        intros t Ht ->%list_elem_of_singleton. done.
      * intros t [->|Ht]%elem_of_cons; [eauto|auto].
      * intros r [->|Hr]%elem_of_cons; [|by apply H3].
        exists x. split; [done|]. simpl. set_solver.
Qed.

Lemma find_map_none {A B} (f : A → option B) l : (∀ x, x ∈ l → f x = None) → find_map f l = None.
Proof.
  induction l as [|x l IH]; intros H; [done|]. simpl. rewrite (H x) by left. apply IH.
  intros y Hy. apply H. by right.
Qed.

Lemma find_map_app {A B} (f : A → option B) l k :
  find_map f (l ++ k) = match find_map f l with Some y => Some y | None => find_map f k end.
Proof. induction l as [|x l IH]; [done|]. simpl. by destruct (f x). Qed.

Lemma not_class prefix s :
  prefix = "policy:"%string ∨ prefix = "rel:"%string ∨ prefix = "caveat:"%string →
  class_of (prefix +:+ s) = None.
Proof. unfold class_of. rewrite s2b_str_app. by intros [->|[->| ->]]. Qed.

(** A validated marking: what was asked for, no tag twice, at most sixteen. *)
Record marking_ok (cfg : MarkingConfig) (m : Marking) : Prop := {
  mo_nodup : NoDup (tags m);
  mo_some : tags m ≠ [];
  mo_max : zlen (tags m) ≤ MAX_CONFIG_TAGS;
  mo_floor : floor_of m = c ← classification cfg; classification_level (s2b c);
  mo_class : is_Some (classification cfg) → is_Some (floor_of m);
  mo_rel : ∀ r, r ∈ releasable_to cfg → ∃ t, token "releasable_to" r = Ok t ∧ ("rel:" +:+ t)%string ∈ tags m;
  mo_policy : ∀ p, policy cfg = Some p → ∃ t, token "policy" p = Ok t ∧ ("policy:" +:+ t)%string ∈ tags m;
  mo_caveats : ∀ c, c ∈ caveats cfg → ∃ t, token "caveats" c = Ok t ∧ ("caveat:" +:+ t)%string ∈ tags m
}.

Lemma from_config_ok cfg m : from_config cfg = Ok m → marking_ok cfg m.
Proof.
  unfold from_config. intros H. apply bind_Ok in H as (t1 & H1 & H).
  apply bind_Ok in H as (t2 & H2 & H). apply bind_Ok in H as (t3 & H3 & H).
  apply bind_Ok in H as (t4 & H4 & H). case_bool_decide as Hne; [done|].
  destruct (MAX_CONFIG_TAGS <? zlen t4) eqn:Hmax; [done|]. injection H as <-. bool_prop.
  assert (NoDup t1 ∧ find_map class_of t1 ≫= classification_level
            = (c ← classification cfg; classification_level (s2b c))
          ∧ (is_Some (classification cfg) → is_Some (find_map class_of t1 ≫= classification_level)))
    as (N1 & F1 & C1).
  { destruct (classification cfg) as [c|]; inv_ok.
    - change (push_tag [] ("class:" +:+ x)) with ["class:" +:+ x].
      cbn [find_map mbind option_bind]. rewrite H, class_of_class. cbn [mbind option_bind].
      rewrite canonical_level by (by eapply classification_level_canonical).
      split_and!; [apply NoDup_singleton|done|eauto].
    - split_and!; [apply NoDup_nil_2|done|by intros []]. }
  assert (∃ a2, t2 = t1 ++ a2 ∧ NoDup t2 ∧ (∀ t, t ∈ a2 → class_of t = None)
    ∧ ∀ p, policy cfg = Some p → ∃ t, token "policy" p = Ok t ∧ ("policy:" +:+ t)%string ∈ t2) as (a2 & -> & N2 & K2 & P2).
  { destruct (policy cfg) as [p|].
    - apply push_tokens_Ok in H2 as (a & -> & Hn & Hk & Hp). exists a. split_and!; [done|auto| |].
      + intros t [s ->]%Hk. apply not_class. auto.
      + intros p' [= <-]. apply Hp. left.
    - injection H2 as <-. exists []. rewrite app_nil_r. split_and!; try done. intros t Ht. by apply elem_of_nil in Ht. }
  apply push_tokens_Ok in H3 as (a3 & -> & N3 & K3 & P3).
  apply push_tokens_Ok in H4 as (a4 & -> & N4 & K4 & P4).
  assert (floor_of (mkMarking (((t1 ++ a2) ++ a3) ++ a4)) = find_map class_of t1 ≫= classification_level) as Hfl.
  { unfold floor_of. simpl. rewrite <- !app_assoc, find_map_app. destruct (find_map class_of t1); [done|].
    rewrite find_map_none; [done|]. intros t. rewrite !elem_of_app. intros [Ht|[[s ->]%K3|[s ->]%K4]]; [auto|..];
      apply not_class; auto. }
  split; rewrite ?Hfl; try done; simpl; auto.
  - intros r Hr. destruct (P3 r Hr) as (t & ? & ?). exists t. split; [done|]. apply elem_of_app. by left.
  - intros p Hp. destruct (P2 p Hp) as (t & ? & ?). exists t. split; [done|].
    apply elem_of_app. left. apply elem_of_app. by left.
Qed.

(** * Properties *)

(** the configured level is a floor: after stamping, an event carries
    exactly one recognised class tag, at the highest of the operator's level and
    every level the wire stated; the wire's other tags are kept in order, the
    operator's other tags are all there, and nothing but the tags changed. *)
Theorem apply_floor m e floor :
  floor_of m = Some floor →
  let h := highest floor (ev_policy_tags e) in
  let ts := ev_policy_tags (apply m e) in
  filter (λ t, is_ranked t = true) ts = [("class:" +:+ h)%string]
  ∧ (rank floor ≤ rank h)%nat
  ∧ (∀ t c, t ∈ ev_policy_tags e → ranked t = Some c → (rank c ≤ rank h)%nat)
  ∧ filter (λ t, is_ranked t = false) (ev_policy_tags e) `prefix_of` filter (λ t, is_ranked t = false) ts
  ∧ (∀ t, t ∈ tags m → class_of t = None → t ∈ ts)
  ∧ zlen ts ≤ zlen (ev_policy_tags e) + zlen (tags m)
  ∧ apply m e = with_tags e ts.
Proof.
  intros Hf h ts. destruct (apply_tags m e floor Hf) as (at_ & added & Ha & Ht & Hu & Hm & _ & Hl).
  fold h in Ht. fold ts in Ht, Hm. set (wire := filter _ (ev_policy_tags e)) in *.
  destruct (highest_spec floor (ev_policy_tags e)) as (_ & Hr & Hw). fold h in Hr, Hw.
  assert (is_ranked ("class:" +:+ h) = true) as Hh.
  { apply is_ranked_class, highest_canonical. by eapply floor_canonical. }
  destruct (unranked_split wire at_ (Forall_filter_tags _)) as [Hw1 Hw2].
  assert (∀ l, Forall (λ t, is_ranked t = false) l → filter (λ t, is_ranked t = true) l = []) as Hnone.
  { intros l Hl'. induction Hl' as [|x l Hx Hl' IH]; [done|]. by rewrite filter_cons_False by (by rewrite Hx). }
  split_and!; try done.
  - rewrite Ht, !filter_app, filter_cons_True, !Hnone by done. done.
  - rewrite Ht. rewrite !filter_unranked_app, filter_cons_False, !unranked_filter by (done || by rewrite Hh).
    exists added. by rewrite take_drop.
  - rewrite Ht. unfold zlen. rewrite !length_app. simpl. rewrite length_take, length_drop.
    pose proof (length_filter (λ t, is_ranked t = false) (ev_policy_tags e)). fold wire in H. lia.
Qed.

(** stamping twice is stamping once. *)
Theorem apply_idempotent m e : apply m (apply m e) = apply m e.
Proof. rewrite apply_unchanged, apply_again. by rewrite apply_unchanged at 2. Qed.

(** a [[marking]] block that validates yields every tag it asks for, once,
    at least one and at most sixteen, with the stated level as the floor. *)
Theorem from_config_correct cfg m : from_config cfg = Ok m → marking_ok cfg m.
Proof. apply from_config_ok. Qed.

(** a label on the wire is never under-stated: an empty one yields nothing,
    and any other yields one recognised class tag, [top-secret] unless the label
    (without a NATO prefix) is the name of another level. *)
Theorem wire_classification_safe raw p :
  match wire_classification raw p with
  | [] => ascii_upper (trim raw) = []
  | t :: ts => ∃ l, ranked t = Some l ∧ t = ("class:" +:+ l)%string ∧ Forall (λ t, is_ranked t = false) ts
      ∧ (l ≠ "top-secret"%string →
          classification_level (dashes_to_spaces (ascii_upper (trim raw))) = Some l
          ∨ ∃ rest, dashes_to_spaces (ascii_upper (trim raw)) = s2b "NATO " ++ rest
              ∧ classification_level rest = Some l)
  end.
Proof.
  unfold wire_classification. case_bool_decide as He.
  { unfold dashes_to_spaces in He. by apply fmap_nil_inv in He. }
  set (upper := dashes_to_spaces _) in *.
  match goal with |- context [let '(a, b) := ?x in _] => destruct x as [level named] eqn:Hx end.
  assert (default "top-secret"%string level ∈ LEVELS) as Hl.
  { destruct level as [l|]; simpl; [|unfold LEVELS; set_solver].
    repeat case_in Hx; simplify_eq; try (by eapply classification_level_canonical). unfold LEVELS. set_solver. }
  exists (default "top-secret"%string level). split_and!.
  - by apply ranked_class.
  - done.
  - match goal with |- Forall _ (match ?q with _ => _ end) => destruct q end; [|constructor].
    constructor; [|constructor]. apply not_class_unranked, not_class. auto.
  - intros Hne. destruct level as [l|]; [|by destruct Hne].
    change (default "top-secret"%string (Some l)) with l in *.
    revert Hx. case_bool_decide; [intros [= <- <-]; done|].
    destruct (strip_prefix (s2b "NATO ") upper) as [rest|] eqn:Hs; intros Hx; [right|left; congruence].
    apply strip_prefix_Some in Hs. exists rest. split; [done|]. congruence.
Qed.

(** * Witnesses *)

Definition ex_marking : Marking := mkMarking ["class:restricted"; "policy:NATO"; "rel:GBR"]%string.
Definition ex_marked : Event :=
  with_tags (built (ex_builder []) "i" "t") ["a"; "class:Secret"; "rel:GBR"]%string.

Lemma apply_floor_witness :
  ev_policy_tags (apply ex_marking ex_marked) = ["a"; "class:secret"; "rel:GBR"; "policy:NATO"]%string
  ∧ filter (λ t, is_ranked t = true) (ev_policy_tags (apply ex_marking ex_marked)) = ["class:secret"%string].
Proof.
  split; [vm_compute; reflexivity|].
  destruct (apply_floor ex_marking ex_marked "restricted"%string) as [H _]; [vm_compute; reflexivity|].
  exact H.
Defined.

Lemma from_config_correct_witness :
  marking_ok (mkMarkingConfig (Some "Restricted"%string) ["gbr"%string] (Some "nato"%string) []) ex_marking.
Proof. apply from_config_correct. vm_compute. reflexivity. Defined.
