(* ===== verification/Parser.v ===== *)
(** What the connectors share: the operator's enrichment
    (rust/connectors/common/src/config.rs), the [FrameParser] interface the
    runtime drives (rust/connectors/common/src/runtime.rs), and lemmas on parsers
    that build events. *)
From Stdlib Require Import ZArith Lia.
From Stdlib Require Import Strings.String.
From S2P Require Export Event.

Local Open Scope Z_scope.

(** @src rust/connectors/common/src/config.rs 194-206 Enrichment *)
Record Enrichment := mkEnrichment { hostility : option string }.

(** One [Env] per event a call builds: the ids and clock readings in order. *)
Abbreviation Envs := (nat → Env).

(** @src rust/connectors/common/src/runtime.rs 22-32 FrameParser *)
Class FrameParser := {
  fp_state : Type;
  fp_error : Type;
  fp_parse : Envs → fp_state → bytes → fp_state * res fp_error (list Event)
}.

(** What a connector's parser promises the runtime: on any bytes off the wire
    it returns, keeps its own invariant, and yields only canonical events. *)
Class FrameParserLaws (P : FrameParser) := {
  fp_inv : fp_state → Prop;
  fp_safe : ∀ envs s frame, fp_inv s → bytes_ok frame →
    safe (fp_parse envs s frame).2 ∧ fp_inv (fp_parse envs s frame).1;
  fp_canonical : ∀ envs s frame es, fp_inv s → bytes_ok frame →
    (fp_parse envs s frame).2 = Ok es → Forall Canonical es
}.

Lemma build_all_canonical {E} (f : BuildError → E) b e :
  map_err f (build b) = Ok e → Canonical e.
Proof.
  destruct (build b) as [e'| | |] eqn:H; try done. intros [= ->].
  destruct (build_Ok b e H) as (i & ts & Hv & ->). by apply built_canonical.
Qed.

Lemma safe_build {E} (f : BuildError → E) b : safe (map_err f (build b)).
Proof. apply safe_map_err, build_safe. Qed.

#[export] Hint Resolve safe_build : rust.

(** * Frames carried until the next event *)

Definition total_bytes (ls : list bytes) : Z := foldr Z.add 0 (zlen <$> ls).

Lemma total_bytes_cons l ls : total_bytes (l :: ls) = zlen l + total_bytes ls.
Proof. done. Qed.

Lemma total_bytes_app ls ls' : total_bytes (ls ++ ls') = total_bytes ls + total_bytes ls'.
Proof. induction ls as [|l ls IH]; [done|]. cbn [app]. rewrite !total_bytes_cons. lia. Qed.

Lemma total_bytes_nonneg ls : 0 ≤ total_bytes ls.
Proof. induction ls as [|l ls IH]; [done|]. rewrite total_bytes_cons. pose proof (zlen_nonneg l). lia. Qed.

Section carried.
Variables max_frames max_bytes : Z.

(** The [while] loop both carry-forward buffers run: drop the oldest frames
    while over either cap; the frames, their bytes, the drop flag and the number
    dropped. *)
Fixpoint shed (pend : list bytes) (n : Z) (flag : bool) (dropped : Z) : list bytes * Z * bool * Z :=
  match pend with
  | [] => ([], n, flag, dropped)
  | old :: rest =>
      if (max_frames <? zlen pend) || (max_bytes <? n)
      then shed rest (n - zlen old) true (dropped + 1)
      else (pend, n, flag, dropped)
  end.

(** Within both caps, the byte count exact. *)
Definition carried_ok (pend : list bytes) (n : Z) : Prop :=
  n = total_bytes pend ∧ zlen pend ≤ max_frames ∧ n ≤ max_bytes.

Lemma carried_nil : 0 ≤ max_frames → 0 ≤ max_bytes → carried_ok [] 0.
Proof. intros. by split_and!. Qed.

Lemma shed_spec pend n flag dropped :
  0 ≤ max_frames → 0 ≤ max_bytes → n = total_bytes pend →
  let '(pend', n', flag', k) := shed pend n flag dropped in
  carried_ok pend' n' ∧ dropped ≤ k ∧ pend = take (Z.to_nat (k - dropped)) pend ++ pend'
  ∧ flag' = flag || (dropped <? k).
Proof.
  intros Hf Hm. revert n flag dropped. induction pend as [|old rest IH]; intros n flag dropped Hn; simpl.
  - rewrite Hn, Z.sub_diag, Z.ltb_irrefl, orb_false_r. split_and!; [by apply carried_nil|lia|done..].
  - destruct (_ || _) eqn:Hc.
    + specialize (IH (n - zlen old) true (dropped + 1)). destruct (shed rest _ _ _) as [[[p' n'] f'] k].
      destruct IH as (H1 & H2 & H3 & H5); [rewrite Hn, total_bytes_cons; lia|].
      split; [done|]. split; [lia|]. split.
      * replace (Z.to_nat (k - dropped)) with (S (Z.to_nat (k - (dropped + 1)))) by lia. simpl. by f_equal.
      * rewrite H5. replace (dropped <? k) with true by lia. by rewrite orb_true_r.
    + rewrite Z.sub_diag, Z.ltb_irrefl, orb_false_r. bool_prop. split_and!; try done; lia.
Qed.

(** Nothing is dropped while the frames fit. *)
Lemma shed_fits pend n flag k : zlen pend ≤ max_frames → n ≤ max_bytes → shed pend n flag k = (pend, n, flag, k).
Proof. intros. destruct pend as [|x l]; [done|]. cbn [shed]. by replace (_ || _) with false by lia. Qed.
End carried.

(** Prove [safe] of a monadic sequence step by step. *)
Ltac safe_step :=
  match goal with
  | |- safe (Ok _) => exact I
  | |- safe (Err _) => exact I
  | |- safe (mret _) => exact I
  | |- safe (_ ≫= _) => apply safe_bind; [|intros ? ?]
  | |- safe (map_err _ _) => apply safe_map_err
  | |- safe (ok_or _ _) => apply safe_ok_or
  | |- safe (guard_res ?b _) => destruct b; exact I
  | |- safe (build _) => apply build_safe
  | |- safe (match ?x with _ => _ end) => destruct x eqn:?
  | |- safe (let '(_, _) := ?x in _) => destruct x eqn:?
  end.
Ltac safe_tac := repeat safe_step; eauto with rust.
