(* ===== verification/Cache.v ===== *)
(** The bounded caches keyed by a vessel or aircraft
    (rust/connectors/ais-nmea/src/ais/cache.rs, rust/connectors/adsb/src/adsb.rs):
    a map beside the queue of its keys in order of arrival, the oldest leaving a
    full cache. *)
From Stdlib Require Import ZArith Lia.
From S2P Require Export Prelude.

Local Open Scope Z_scope.

(** A [HashMap] and the [VecDeque] of its keys. *)
Record Cache (K V : Type) `{Countable K} := mkCache { cmap : gmap K V; order : list K }.
Arguments mkCache {K V _ _} _ _.
Arguments cmap {K V _ _} _.
Arguments order {K V _ _} _.

Section cache.
Context `{Countable K} {V : Type}.
Variable cap : Z.
Implicit Types (c : Cache K V) (k : K) (v d : V).

Definition empty_cache : Cache K V := mkCache ∅ [].

(** The oldest key leaves a full cache. *)
(** @src rust/connectors/adsb/src/adsb.rs 121-125 StateCache::entry *)
Definition make_room c : Cache K V :=
  if cap <=? zlen (order c) then
    match order c with
    | oldest :: rest => mkCache (delete oldest (cmap c)) rest
    | [] => c
    end
  else c.

(** The entry of a key, made with the default where there is none. *)
(** @src rust/connectors/adsb/src/adsb.rs 118-130 StateCache::entry *)
Definition cache_entry d k c : Cache K V * V :=
  let c :=
    match cmap c !! k with
    | Some _ => c
    | None => let c := make_room c in mkCache (cmap c) (order c ++ [k])
    end in
  match cmap c !! k with
  | Some v => (c, v)
  | None => (mkCache (<[k := d]> (cmap c)) (order c), d)
  end.

(** A write through the reference [cache_entry] returned. *)
Definition put k v c : Cache K V := mkCache (<[k := v]> (cmap c)) (order c).

(** The eviction order lists exactly the cached keys, once each, and there are
    never more than the cap. *)
Definition cache_ok c : Prop :=
  NoDup (order c) ∧ (∀ k, k ∈ order c ↔ is_Some (cmap c !! k)) ∧ zlen (order c) ≤ cap.

Hypothesis cap_pos : 0 < cap.

Lemma empty_cache_ok : cache_ok empty_cache.
Proof.
  split_and!; [apply NoDup_nil_2| |by apply Z.lt_le_incl]. intros k. simpl. rewrite lookup_empty. split.
  - intros Hk. by apply elem_of_nil in Hk.
  - by intros [].
Qed.

Lemma make_room_ok c :
  cache_ok c → cache_ok (make_room c) ∧ zlen (order (make_room c)) < cap
    ∧ ∀ k, cmap c !! k = None → cmap (make_room c) !! k = None.
Proof.
  intros (Hn & Hm & Hl). unfold make_room. destruct (Z.leb_spec cap (zlen (order c))) as [Hc|Hc]; [|by split_and!].
  destruct c as [mp [|o os]]; simpl in *; [change (zlen (@nil K)) with 0 in *; lia|].
  rewrite zlen_cons in *. apply NoDup_cons in Hn as [Ho Hn]. split_and!; [split_and!; simpl| |]; simpl.
  - done.
  - intros k. destruct (decide (k = o)) as [->|Hne].
    + rewrite lookup_delete_eq. split; [done|by intros []].
    + rewrite lookup_delete_ne by done. rewrite <- Hm, elem_of_cons. naive_solver.
  - lia.
  - lia.
  - intros k Hk. destruct (decide (k = o)) as [->|]; [apply lookup_delete_eq|by rewrite lookup_delete_ne].
Qed.

Lemma cache_entry_ok d k c :
  cache_ok c →
  cache_ok (cache_entry d k c).1 ∧ (cache_entry d k c).2 = default d (cmap c !! k)
  ∧ cmap (cache_entry d k c).1 !! k = Some (default d (cmap c !! k)).
Proof.
  intros Hc. unfold cache_entry. destruct (cmap c !! k) as [v|] eqn:Hv; [by rewrite Hv|].
  destruct (make_room_ok c Hc) as ((Hn & Hm & Hl) & Hr & Hnone). specialize (Hnone k Hv).
  simpl. rewrite Hnone. simpl. split_and!; [split_and!| |]; simpl.
  - apply NoDup_app. split_and!; [done| |apply NoDup_singleton].
    intros x Hx ->%list_elem_of_singleton. apply Hm in Hx as [? Hx]. congruence.
  - intros x. rewrite elem_of_app, list_elem_of_singleton. destruct (decide (x = k)) as [->|Hne].
    + rewrite lookup_insert_eq. split; [eauto|auto].
    + rewrite lookup_insert_ne by done. rewrite <- Hm. naive_solver.
  - rewrite zlen_app. change (zlen [k]) with 1. lia.
  - done.
  - apply lookup_insert_eq.
Qed.

(** [cache_entry] adds nothing but the key asked for, with the default. *)
Lemma cache_entry_lookup d k c x v :
  cmap (cache_entry d k c).1 !! x = Some v → cmap c !! x = Some v ∨ v = d.
Proof.
  unfold cache_entry. destruct (cmap c !! k) as [w|] eqn:Hw; [rewrite Hw; by left|].
  assert (∀ x y, cmap (make_room c) !! x = Some y → cmap c !! x = Some y) as Hmr.
  { unfold make_room. intros y z. case_in_goal; [|done]. destruct (order c) as [|o os]; [done|]. simpl.
    intros Hd. destruct (decide (y = o)) as [->|Hne];
      [by rewrite lookup_delete_eq in Hd|by rewrite lookup_delete_ne in Hd]. }
  simpl. destruct (cmap (make_room c) !! k) as [w|] eqn:Hw'; simpl; [left; by apply Hmr|].
  destruct (decide (x = k)) as [->|Hne]; [rewrite lookup_insert_eq; right; congruence|].
  rewrite lookup_insert_ne by done. left. by apply Hmr.
Qed.

Lemma put_ok k v w c : cache_ok c → cmap c !! k = Some w → cache_ok (put k v c).
Proof.
  intros (Hn & Hm & Hl) Hw. split_and!; [done| |done]. intros x. simpl.
  destruct (decide (x = k)) as [->|Hne].
  - rewrite lookup_insert_eq. split; [eauto|]. intros _. apply Hm. eauto.
  - by rewrite lookup_insert_ne, <- Hm.
Qed.

Lemma entry_put_ok d v k c : cache_ok c → cache_ok (put k v (cache_entry d k c).1).
Proof. intros Hc. destruct (cache_entry_ok d k c Hc) as (? & _ & ?). by eapply put_ok. Qed.

(** A property of all values survives a write of one that has it. *)
Lemma entry_put_Forall (P : V → Prop) d v k c :
  P d → P v → map_Forall (λ _, P) (cmap c) → map_Forall (λ _, P) (cmap (put k v (cache_entry d k c).1)).
Proof.
  intros Hd Hv Hc. apply map_Forall_insert_2; [done|]. intros x w Hw.
  apply cache_entry_lookup in Hw as [Hw| ->]; [by apply (Hc x)|done].
Qed.

(** A write to a key: in place, or, for a new key, after room was made for it. *)
Lemma entry_put_room d v k c :
  cache_ok c →
  cmap (put k v (cache_entry d k c).1)
  = <[k := v]> (match cmap c !! k with Some _ => cmap c | None => cmap (make_room c) end)
  ∧ order (put k v (cache_entry d k c).1)
    = match cmap c !! k with Some _ => order c | None => order (make_room c) ++ [k] end.
Proof.
  intros Hc. unfold cache_entry. destruct (cmap c !! k) as [w|] eqn:Hw; [by rewrite Hw|].
  destruct (make_room_ok c Hc) as (_ & _ & Hn). cbn [cmap]. rewrite (Hn k Hw). cbn [fst put cmap order].
  by rewrite insert_insert_eq.
Qed.

(** While no more keys than the cap have come, nothing is evicted. *)
Lemma entry_put_fits d v k c :
  cache_ok c → (zlen (order c) < cap ∨ is_Some (cmap c !! k)) →
  cmap (put k v (cache_entry d k c).1) = <[k := v]> (cmap c)
  ∧ order (put k v (cache_entry d k c).1)
    = match cmap c !! k with Some _ => order c | None => order c ++ [k] end.
Proof.
  intros Hc Hf. unfold cache_entry. destruct (cmap c !! k) as [w|] eqn:Hw; [by rewrite Hw|].
  unfold make_room. rewrite (proj2 (Z.leb_gt _ _)) by (destruct Hf as [?|[]]; [lia|done]). simpl. rewrite Hw. simpl.
  by rewrite insert_insert_eq.
Qed.
End cache.
