(* ===== verification/Klv.v ===== *)
(** The STANAG 4609 / MISB ST 0601 connector (rust/connectors/klv/src/klv.rs).
    The formatting of a Unix time as RFC 3339 is the [time] crate's: a
    parameter. *)
From Stdlib Require Import ZArith Lia.
From Stdlib Require Import Strings.String.
From S2P Require Export Parser.

Local Open Scope Z_scope.

(** @src rust/connectors/klv/src/klv.rs 11-14 UAS_LS_KEY *)
Definition UAS_LS_KEY : bytes :=
  [0x06; 0x0e; 0x2b; 0x34; 0x02; 0x0b; 0x01; 0x01; 0x0e; 0x01; 0x03; 0x01; 0x01; 0x00; 0x00; 0x00].

(** @src rust/connectors/klv/src/klv.rs 16-29 KlvError *)
Inductive KlvError := NotUasLs | Truncated | BadLength | BadChecksum | Build (e : BuildError).

(** @src rust/connectors/klv/src/klv.rs 31-49 UasMetadata *)
Record UasMetadata := mkUas {
  timestamp : option string;
  tail_number : option string;
  designation : option string;
  mission_id : option string;
  heading_deg : option f64;
  pitch_deg : option f64;
  roll_deg : option f64;
  lat : f64;
  lon : f64;
  alt_m : option f64;
  ls_version : option Z;
  raw : bytes
}.

(** @src rust/connectors/klv/src/klv.rs 183-191 bcc_16 *)
Fixpoint bcc_from (i sum : Z) (l : bytes) : Z :=
  match l with
  | [] => sum
  | b :: l => bcc_from (i + 1) (wrap 16 (sum + Z.shiftl b (8 * ((i + 1) mod 2)))) l
  end.
Definition bcc_16 (l : bytes) : Z := bcc_from 0 0 l.

Fixpoint ber_bytes (n : nat) (buf : bytes) (pos len : Z) : res KlvError (Z * Z) :=
  match n with
  | O => Ok (len, pos)
  | S n =>
      b ← ok_or Truncated (get buf pos);
      ber_bytes n buf (pos + 1) (Z.lor (Z.shiftl len 8) b)
  end.

(** @src rust/connectors/klv/src/klv.rs 193-210 read_ber_len *)
Definition read_ber_len (buf : bytes) (pos : Z) : res KlvError (Z * Z) :=
  b0 ← ok_or Truncated (get buf pos);
  let pos := pos + 1 in
  if Z.land b0 0x80 =? 0 then Ok (b0, pos)
  else
    let n := Z.land b0 0x7f in
    if (n =? 0) || (4 <? n) then Err BadLength
    else ber_bytes (Z.to_nat n) buf pos 0.

(** @src rust/connectors/klv/src/klv.rs 212-222 read_ber_oid_tag *)
Fixpoint read_ber_oid_tag (fuel : nat) (buf : bytes) (pos tag : Z) : res KlvError (Z * Z) :=
  match fuel with
  | O => NoFuel
  | S fuel =>
      b ← ok_or Truncated (get buf pos);
      let tag := Z.lor (wrap 32 (Z.shiftl tag 7)) (Z.land b 0x7f) in
      if Z.land b 0x80 =? 0 then Ok (tag, pos + 1) else read_ber_oid_tag fuel buf (pos + 1) tag
  end.

(** @src rust/connectors/klv/src/klv.rs 224-238 be_u16 be_i16 be_i32 be_u64 *)
Definition be_u (n : Z) (v : bytes) : option Z := if zlen v =? n then Some (be_val v) else None.
Definition be_i (n : Z) (v : bytes) : option Z := to_signed (8 * n) <$> be_u n v.

(** @src rust/connectors/klv/src/klv.rs 240-244 i32_angle *)
Definition i32_angle (v half_deg : Z) : option f64 :=
  if v =? - 2 ^ 31 then None else Some (f_div (f_mul (f_of_Z v) (f_of_Z half_deg)) (f_of_Z (2 ^ 31 - 1))).

(** @src rust/connectors/klv/src/klv.rs 246-250 i16_scaled *)
Definition i16_scaled (v half_deg : Z) : option f64 :=
  if v =? - 2 ^ 15 then None else Some (f_div (f_mul (f_of_Z v) (f_of_Z half_deg)) (f_of_Z (2 ^ 15 - 1))).

(** @src rust/connectors/klv/src/klv.rs 252-255 ascii *)
Definition ascii (v : bytes) : option string :=
  let s := trim (utf8_lossy v) in
  if bool_decide (s = []) then None else Some (b2s s).

Section klv.
(** [OffsetDateTime::from_unix_timestamp_nanos(..).format(&Rfc3339)]. *)
Variable format_unix_nanos : Z → option string.

(** The fields read so far, with the position kept apart as the code does. *)
Record Items := mkItems { meta : UasMetadata; it_lat : option f64; it_lon : option f64 }.

Definition empty_meta : UasMetadata :=
  mkUas None None None None None None None f_zero f_zero None None [].
Definition no_items : Items := mkItems empty_meta None None.

Definition set_meta (i : Items) (m : UasMetadata) : Items := mkItems m (it_lat i) (it_lon i).

(** @src rust/connectors/klv/src/klv.rs 96-116 KlvParser::parse_set *)
Definition item (tag : Z) (val : bytes) (i : Items) : Items :=
  let '(mkUas ts tn de mi h p r la lo al ls rw) := meta i in
  if tag =? 2 then
    set_meta i (mkUas (us ← be_u 8 val; format_unix_nanos (us * 1000)) tn de mi h p r la lo al ls rw)
  else if tag =? 3 then set_meta i (mkUas ts tn de (ascii val) h p r la lo al ls rw)
  else if tag =? 4 then set_meta i (mkUas ts (ascii val) de mi h p r la lo al ls rw)
  else if tag =? 5 then
    set_meta i (mkUas ts tn de mi
      ((λ v, f_div (f_mul (f_of_Z v) (f_of_Z 360)) (f_of_Z 65535)) <$> be_u 2 val) p r la lo al ls rw)
  else if tag =? 6 then
    set_meta i (mkUas ts tn de mi h (v ← be_i 2 val; i16_scaled v 20) r la lo al ls rw)
  else if tag =? 7 then
    set_meta i (mkUas ts tn de mi h p (v ← be_i 2 val; i16_scaled v 50) la lo al ls rw)
  else if tag =? 10 then set_meta i (mkUas ts tn (ascii val) mi h p r la lo al ls rw)
  else if tag =? 13 then mkItems (meta i) (v ← be_i 4 val; i32_angle v 90) (it_lon i)
  else if tag =? 14 then mkItems (meta i) (it_lat i) (v ← be_i 4 val; i32_angle v 180)
  else if tag =? 15 then
    set_meta i (mkUas ts tn de mi h p r la lo
      ((λ v, f_add (f_of_Z (-900)) (f_div (f_mul (f_of_Z v) (f_of_Z 19900)) (f_of_Z 65535))) <$> be_u 2 val)
      ls rw)
  else if tag =? 65 then set_meta i (mkUas ts tn de mi h p r la lo al (head val) rw)
  else i.

(** The [while p < total] loop. *)
Fixpoint items (fuel : nat) (frame : bytes) (total p : Z) (i : Items) : res KlvError Items :=
  match fuel with
  | O => NoFuel
  | S fuel =>
      if p <? total then
        '(tag, p) ← read_ber_oid_tag (S (length frame)) frame p 0;
        '(len, p) ← read_ber_len frame p;
        let vend := p + len in
        if total <? vend then Err Truncated
        else val ← slice frame p vend; items fuel frame total vend (item tag val i)
      else Ok i
  end.

(** @src rust/connectors/klv/src/klv.rs 118-124 KlvParser::parse_set *)
Definition finish (i : Items) (pkt : bytes) : option UasMetadata :=
  match it_lat i, it_lon i with
  | Some la, Some lo =>
      let '(mkUas ts tn de mi h p r _ _ al ls _) := meta i in
      Some (mkUas ts tn de mi h p r la lo al ls pkt)
  | _, _ => None
  end.

(** @src rust/connectors/klv/src/klv.rs 64-125 KlvParser::parse_set *)
Definition parse_set (frame : bytes) : res KlvError (option UasMetadata) :=
  if zlen frame <? 17 then Err NotUasLs
  else
    k ← slice frame 0 16;
    if negb (bool_decide (k = UAS_LS_KEY)) then Err NotUasLs
    else
      '(set_len, pos) ← read_ber_len frame 16;
      let total := pos + set_len in
      if 2 ^ 64 <=? total then Err BadLength
      else if (zlen frame <? total) || (total <? pos + 2) then Err Truncated
      else
        pkt ← slice frame 0 total;
        c0 ← idx pkt (total - 2); c1 ← idx pkt (total - 1);
        body ← slice pkt 0 (total - 2);
        if negb (bcc_16 body =? be_val [c0; c1]) then Err BadChecksum
        else
          i ← items (S (length frame)) frame total pos no_items;
          Ok (finish i pkt).

(** @src rust/connectors/klv/src/klv.rs 51-62 KlvParser *)
Record KlvParser := mkKlvParser { source_id : string; enrichment : Enrichment }.

(** @src rust/connectors/klv/src/klv.rs 127-161 KlvParser::base_builder *)
Definition base_builder (env : Env) (self : KlvParser) (m : UasMetadata) : EventBuilder :=
  let b := builder_new (source_id self) "mim:aircraft" in
  let b := set_payload (raw m) (set_location (lat m) (lon m) (default f_zero (alt_m m)) (new_id env b)) in
  let b := on_some (match tail_number m with Some t => Some t | None => designation m end)
             (add_metadata "source_uid") b in
  let b := on_some (tail_number m) (add_metadata "tail_number") b in
  let b := on_some (mission_id m) (add_metadata "mission_id") b in
  let b := on_some (ls_version m) (λ v, add_metadata "uas_ls_version" (show v)) b in
  let b := on_some (hostility (enrichment self)) (attribute "hostility") b in
  let b := on_some (designation m) (attribute "platform_designation") b in
  let b := on_some (heading_deg m) (λ d, attribute "heading" (fmt_fixed 1 d)) b in
  let b := on_some (pitch_deg m) (λ d, attribute "pitch" (fmt_fixed 1 d)) b in
  on_some (roll_deg m) (λ d, attribute "roll" (fmt_fixed 1 d)) b.

(** @src rust/connectors/klv/src/klv.rs 163-166 KlvParser::to_event_at *)
Definition to_event_at (env : Env) (self : KlvParser) (m : UasMetadata) (observed : string) :
    res KlvError Event :=
  map_err Build (build (set_timestamp observed (base_builder env self m))).

(** @src rust/connectors/klv/src/klv.rs 168-181 KlvParser::parse *)
Definition parse (envs : Envs) (self : KlvParser) (frame : bytes) : res KlvError (list Event) :=
  o ← parse_set frame;
  match o with
  | None => Ok []
  | Some m =>
      let b := base_builder (envs 0%nat) self m in
      let b := match timestamp m with
               | Some ts => set_timestamp ts b
               | None => now (envs 0%nat) b
               end in
      e ← map_err Build (build b);
      Ok [e]
  end.

(** * Lemmas *)

Lemma read_ber_oid_tag_spec fuel buf pos tag :
  0 ≤ pos ≤ zlen buf → zlen buf - pos < Z.of_nat fuel →
  match read_ber_oid_tag fuel buf pos tag with
  | Ok (_, p) => pos < p ≤ zlen buf
  | Err _ => True
  | _ => False
  end.
Proof.
  revert pos tag. induction fuel as [|fuel IH]; intros pos tag Hp Hf; [lia|]. simpl.
  destruct (get buf pos) as [b|] eqn:Hg; [|done]. apply get_Some in Hg as [? _]. simpl.
  destruct (Z.land b 128 =? 0); [lia|].
  specialize (IH (pos + 1) (Z.lor (wrap 32 (Z.shiftl tag 7)) (Z.land b 127))).
  destruct (read_ber_oid_tag fuel buf _ _) as [[t p]| | |]; try lia; apply IH; lia.
Qed.

Lemma ber_bytes_spec n buf pos len :
  0 ≤ pos ≤ zlen buf → bytes_ok buf → 0 ≤ len →
  match ber_bytes n buf pos len with
  | Ok (l, p) => pos ≤ p ≤ zlen buf ∧ 0 ≤ l
  | Err _ => True
  | _ => False
  end.
Proof.
  intros Hp Hb. revert pos len Hp. induction n as [|n IH]; intros pos len Hp Hl; [simpl; lia|]. simpl.
  destruct (get buf pos) as [b|] eqn:Hg; [|done]. pose proof (bytes_ok_get _ _ _ Hb Hg) as [? ?].
  apply get_Some in Hg as [? _]. simpl.
  assert (0 ≤ Z.lor (Z.shiftl len 8) b) as Hl' by (apply Z.lor_nonneg; split; [apply Z.shiftl_nonneg|]; lia).
  specialize (IH (pos + 1) _ ltac:(lia) Hl'). destruct (ber_bytes n buf _ _) as [[l p]| | |]; lia.
Qed.

Lemma read_ber_len_spec buf pos :
  0 ≤ pos ≤ zlen buf → bytes_ok buf →
  match read_ber_len buf pos with
  | Ok (l, p) => pos < p ≤ zlen buf ∧ 0 ≤ l
  | Err _ => True
  | _ => False
  end.
Proof.
  intros Hp Hb. unfold read_ber_len. destruct (get buf pos) as [b|] eqn:Hg; [|done].
  pose proof (bytes_ok_get _ _ _ Hb Hg) as [? ?]. apply get_Some in Hg as [? _]. simpl.
  destruct (Z.land b 128 =? 0); [lia|]. case_in_goal; [done|].
  pose proof (ber_bytes_spec (Z.to_nat (Z.land b 127)) buf (pos + 1) 0 ltac:(lia) Hb ltac:(lia)).
  destruct (ber_bytes _ _ _ _) as [[l p]| | |]; try done. lia.
Qed.

Lemma items_safe fuel frame total p i :
  0 ≤ p ≤ total → 0 ≤ total ≤ zlen frame → bytes_ok frame → total - p < Z.of_nat fuel →
  safe (items fuel frame total p i).
Proof.
  revert p i. induction fuel as [|fuel IH]; intros p i Hp Ht Hb Hf; cbn [items].
  { lia. }
  destruct (Z.ltb_spec p total) as [Hlt|]; [|done].
  pose proof (read_ber_oid_tag_spec (S (length frame)) frame p 0 ltac:(lia)) as Htag.
  destruct (read_ber_oid_tag _ frame p 0) as [[tag p1]| | |]; cbn [mbind res_bind];
    [|done|exfalso; apply Htag; unfold zlen; lia..].
  specialize (Htag ltac:(unfold zlen; lia)).
  pose proof (read_ber_len_spec frame p1 ltac:(lia) Hb) as Hlen.
  destruct (read_ber_len frame p1) as [[len p2]| | |]; simpl; try done.
  destruct (Z.ltb_spec total (p2 + len)); [done|].
  apply safe_bind; [apply safe_slice; lia|]. intros val _. apply IH; try done; lia.
Qed.

Lemma parse_set_safe frame : bytes_ok frame → safe (parse_set frame).
Proof.
  intros Hb. unfold parse_set. destruct (Z.ltb_spec (zlen frame) 17); [done|].
  apply safe_bind; [apply safe_slice; lia|]. intros k _. case_in_goal; [done|].
  pose proof (read_ber_len_spec frame 16 ltac:(lia) Hb) as Hl.
  destruct (read_ber_len frame 16) as [[n pos]| | |]; cbn [mbind res_bind]; try done.
  case_in_goal; [done|]. case_in_goal; [done|]. bool_prop.
  apply safe_bind; [apply safe_slice; lia|]. intros pkt Hpkt%slice_Ok%get_range_len.
  apply safe_bind; [apply safe_idx; lia|]. intros c0 _.
  apply safe_bind; [apply safe_idx; lia|]. intros c1 _.
  apply safe_bind; [apply safe_slice; lia|]. intros body _. case_in_goal; [done|].
  apply safe_bind; [|done]. apply items_safe; try lia; [done|]. unfold zlen in *. lia.
Qed.

Lemma parse_safe envs self frame : bytes_ok frame → safe (parse envs self frame).
Proof.
  intros Hb. unfold parse. apply safe_bind; [by apply parse_set_safe|].
  intros [m|] _; [|done]. apply safe_bind; [apply safe_build|done].
Qed.

Lemma parse_canonical envs self frame es : parse envs self frame = Ok es → Forall Canonical es.
Proof.
  unfold parse. intros H. apply bind_Ok in H as ([m|] & _ & H); [|by injection H as <-].
  apply bind_Ok in H as (e & He & [= <-]). constructor; [|constructor].
  by eapply build_all_canonical.
Qed.

(** ** The encoder the parser inverts *)

Definition enc_len (n : Z) : bytes := if n <? 128 then [n] else 0x84 :: be_enc 4 n.

(** A tag in BER-OID: base 128, most significant group first, the top bit set on
    every group but the last. *)
Fixpoint oid_high (n : nat) (t : Z) : bytes :=
  match n with
  | O => []
  | S n' => (0x80 + (t / 128 ^ Z.of_nat n) mod 128) :: oid_high n' t
  end.
Definition oid_groups (t : Z) : nat :=
  if t <? 2 ^ 7 then 0%nat else if t <? 2 ^ 14 then 1%nat else if t <? 2 ^ 21 then 2%nat
  else if t <? 2 ^ 28 then 3%nat else 4%nat.
Definition enc_tag (t : Z) : bytes := oid_high (oid_groups t) t ++ [t mod 128].

Definition enc_item (tv : Z * bytes) : bytes := enc_tag tv.1 ++ enc_len (zlen tv.2) ++ tv.2.
Definition enc_items (its : list (Z * bytes)) : bytes := concat (enc_item <$> its).

(** Everything before the checksum value, then the set with it. *)
Definition enc_head (its : list (Z * bytes)) : bytes :=
  UAS_LS_KEY ++ enc_len (zlen (enc_items its) + 4) ++ enc_items its ++ [1; 2].
Definition enc_set (its : list (Z * bytes)) : bytes := enc_head its ++ be_enc 2 (bcc_16 (enc_head its)).

(** A tag of 32 bits and a value of a length the encoder can write. *)
Definition item_ok (tv : Z * bytes) : Prop := 0 ≤ tv.1 < 2 ^ 32 ∧ zlen tv.2 < 2 ^ 32 ∧ bytes_ok tv.2.

Definition read_items (its : list (Z * bytes)) (i : Items) : Items :=
  fold_left (λ i tv, item tv.1 tv.2 i) its i.

(** ** What the items say *)

(** The ST 0601 items the connector maps, by their meaning; a mapped number in a
    field of the wrong length; and any other item. *)
Inductive Item :=
| Time (us : Z)
| Mission (text : bytes)
| Tail (text : bytes)
| Designation (text : bytes)
| Heading (v : Z)
| Pitch (v : Z)
| Roll (v : Z)
| Lat (v : Z)
| Lon (v : Z)
| Alt (v : Z)
| Version (val : bytes)
| Misfit (tag : Z) (val : bytes)
| Other (tag : Z) (val : bytes).

(** Tag and value on the wire. *)
Definition written (i : Item) : Z * bytes :=
  match i with
  | Time us => (2, be_enc 8 us)
  | Mission t => (3, t)
  | Tail t => (4, t)
  | Heading v => (5, be_enc 2 v)
  | Pitch v => (6, be_enc 2 (v mod 2 ^ 16))
  | Roll v => (7, be_enc 2 (v mod 2 ^ 16))
  | Designation t => (10, t)
  | Lat v => (13, be_enc 4 (v mod 2 ^ 32))
  | Lon v => (14, be_enc 4 (v mod 2 ^ 32))
  | Alt v => (15, be_enc 2 v)
  | Version b => (65, b)
  | Misfit tag val | Other tag val => (tag, val)
  end.

(** The numeric tags, with the length of their value. *)
Definition widths : list (Z * Z) := [(2, 8); (5, 2); (6, 2); (7, 2); (13, 4); (14, 4); (15, 2)].

Definition writable (i : Item) : Prop :=
  match i with
  | Time us => 0 ≤ us < 2 ^ 64
  | Heading v | Alt v => 0 ≤ v < 2 ^ 16
  | Pitch v | Roll v => - 2 ^ 15 ≤ v < 2 ^ 15
  | Lat v | Lon v => - 2 ^ 31 ≤ v < 2 ^ 31
  | Mission t | Tail t | Designation t | Version t => zlen t < 2 ^ 32 ∧ bytes_ok t
  | Misfit tag val => (∃ w, (tag, w) ∈ widths ∧ zlen val ≠ w) ∧ zlen val < 2 ^ 32 ∧ bytes_ok val
  | Other tag val =>
      0 ≤ tag < 2 ^ 32 ∧ tag ∉ [2; 3; 4; 5; 6; 7; 10; 13; 14; 15; 65] ∧ zlen val < 2 ^ 32 ∧ bytes_ok val
  end.

(** The last item that speaks of a field decides it. *)
Fixpoint latest {A} (f : Item → option (option A)) (its : list Item) : option A :=
  match its with
  | [] => None
  | i :: its =>
      match f i with
      | Some v => if existsb (λ j, bool_decide (is_Some (f j))) its then latest f its else v
      | None => latest f its
      end
  end.

(** A number over a range of ±[half], or of no value at the lowest code. *)
Definition ranged (half w v : Z) : option f64 :=
  if v =? - 2 ^ (w - 1) then None
  else Some (f_div (f_mul (f_of_Z v) (f_of_Z half)) (f_of_Z (2 ^ (w - 1) - 1))).

Definition text_of (t : bytes) : option string :=
  match trim (utf8_lossy t) with [] => None | s => Some (b2s s) end.

(** A field read by one of the numeric items, or spoilt by a misfit. *)
Definition numeric {A} (tag : Z) (f : Item → option (option A)) (i : Item) : option (option A) :=
  match i with
  | Misfit t _ => if t =? tag then Some None else None
  | _ => f i
  end.

Definition said_time (i : Item) : option (option string) :=
  numeric 2 (λ i, match i with Time us => Some (format_unix_nanos (us * 1000)) | _ => None end) i.
Definition said_heading (i : Item) : option (option f64) :=
  numeric 5 (λ i, match i with
    | Heading v => Some (Some (f_div (f_mul (f_of_Z v) (f_of_Z 360)) (f_of_Z 65535))) | _ => None end) i.
Definition said_pitch (i : Item) : option (option f64) :=
  numeric 6 (λ i, match i with Pitch v => Some (ranged 20 16 v) | _ => None end) i.
Definition said_roll (i : Item) : option (option f64) :=
  numeric 7 (λ i, match i with Roll v => Some (ranged 50 16 v) | _ => None end) i.
Definition said_lat (i : Item) : option (option f64) :=
  numeric 13 (λ i, match i with Lat v => Some (ranged 90 32 v) | _ => None end) i.
Definition said_lon (i : Item) : option (option f64) :=
  numeric 14 (λ i, match i with Lon v => Some (ranged 180 32 v) | _ => None end) i.
Definition said_alt (i : Item) : option (option f64) :=
  numeric 15 (λ i, match i with
    | Alt v => Some (Some (f_add (f_of_Z (-900)) (f_div (f_mul (f_of_Z v) (f_of_Z 19900)) (f_of_Z 65535))))
    | _ => None end) i.
Definition said_mission (i : Item) : option (option string) :=
  match i with Mission t => Some (text_of t) | _ => None end.
Definition said_tail (i : Item) : option (option string) :=
  match i with Tail t => Some (text_of t) | _ => None end.
Definition said_designation (i : Item) : option (option string) :=
  match i with Designation t => Some (text_of t) | _ => None end.
Definition said_version (i : Item) : option (option Z) :=
  match i with Version [] => Some None | Version (b :: _) => Some (Some b) | _ => None end.

(** The metadata a set says: nothing without a latitude and a longitude. *)
Definition said (its : list Item) (set : bytes) : option UasMetadata :=
  match latest said_lat its, latest said_lon its with
  | Some la, Some lo =>
      Some {| timestamp := latest said_time its; tail_number := latest said_tail its;
              designation := latest said_designation its; mission_id := latest said_mission its;
              heading_deg := latest said_heading its; pitch_deg := latest said_pitch its;
              roll_deg := latest said_roll its; lat := la; lon := lo; alt_m := latest said_alt its;
              ls_version := latest said_version its; raw := set |}
  | _, _ => None
  end.

Lemma latest_unsaid {A} (f : Item → option (option A)) its :
  existsb (λ j, bool_decide (is_Some (f j))) its = false → latest f its = None.
Proof.
  induction its as [|i its IH]; [done|]. cbn. intros [H ?]%orb_false_iff. apply bool_decide_eq_false in H.
  destruct (f i); [by destruct H|auto].
Qed.

Lemma latest_snoc {A} (f : Item → option (option A)) its i :
  latest f (its ++ [i]) = match f i with Some v => v | None => latest f its end.
Proof.
  induction its as [|j its IH]; [cbn; by destruct (f i)|]. cbn [app latest]. rewrite existsb_app, IH. cbn [existsb].
  rewrite orb_false_r. destruct (f j), (f i); cbn; rewrite ?orb_true_r, ?orb_false_r; try done.
  all: by rewrite ?bool_decide_true by done; rewrite ?orb_true_r.
Qed.

Lemma ber_bytes_enc n p v t len :
  0 ≤ len →
  ber_bytes n (p ++ be_enc n v ++ t) (zlen p) len
  = Ok (len * 256 ^ Z.of_nat n + v mod 256 ^ Z.of_nat n, zlen p + Z.of_nat n).
Proof.
  revert p len. induction n as [|n IH]; intros p len Hl.
  - simpl. rewrite Z.mod_1_r. do 2 f_equal; lia.
  - cbn [ber_bytes be_enc app]. rewrite get_at_app. cbn [ok_or mbind res_bind].
    set (b := (v / 256 ^ Z.of_nat n) mod 256).
    assert (byte_ok b) as Hb by (apply Z.mod_pos_bound; lia).
    rewrite lor_shiftl by (change (2 ^ 8) with 256; unfold byte_ok in Hb; lia).
    assert (p ++ b :: be_enc n v ++ t = (p ++ [b]) ++ be_enc n v ++ t) as -> by (by rewrite <- app_assoc).
    assert (zlen p + 1 = zlen (p ++ [b])) as -> by (rewrite zlen_app, zlen_cons; change (zlen (@nil Z)) with 0; lia).
    unfold byte_ok in Hb. rewrite IH by lia. rewrite zlen_app, zlen_cons. change (zlen (@nil Z)) with 0.
    rewrite Nat2Z.inj_succ, Z.pow_succ_r by lia. change (2 ^ 8) with 256.
    assert (0 < 256 ^ Z.of_nat n) by lia.
    do 2 f_equal; [|lia]. rewrite (Z.mul_comm 256 (256 ^ _)), Z.rem_mul_r by lia. fold b. ring.
Qed.

Lemma enc_len_zlen n : zlen (enc_len n) = if n <? 128 then 1 else 5.
Proof. unfold enc_len. destruct (n <? 128); done. Qed.

Lemma read_ber_len_enc p n t :
  0 ≤ n < 2 ^ 32 → read_ber_len (p ++ enc_len n ++ t) (zlen p) = Ok (n, zlen p + zlen (enc_len n)).
Proof.
  intros Hn. rewrite enc_len_zlen. unfold read_ber_len, enc_len. destruct (Z.ltb_spec n 128).
  - cbn [app]. rewrite get_at_app. cbn [ok_or mbind res_bind].
    change 128 with (2 ^ 7). by rewrite land_pow2_low by lia.
  - cbn [app]. rewrite get_at_app. cbn [ok_or mbind res_bind].
    change (Z.land 132 128 =? 0) with false. change (Z.land 132 127) with 4. cbn [orb].
    change ((4 =? 0) || (4 <? 4)) with false. cbv iota.
    assert (p ++ 132 :: be_enc 4 n ++ t = (p ++ [132]) ++ be_enc 4 n ++ t) as -> by (by rewrite <- app_assoc).
    assert (zlen p + 1 = zlen (p ++ [132])) as -> by (rewrite zlen_app; done).
    change (Z.to_nat 4) with 4%nat. rewrite ber_bytes_enc by lia. rewrite zlen_app. change (zlen [132]) with 1.
    do 2 f_equal; [|lia]. change (256 ^ Z.of_nat 4) with (2 ^ 32). rewrite Z.mod_small by lia. lia.
Qed.

Lemma oid_group_bits g : 0 ≤ g < 128 →
  Z.land (128 + g) 128 =? 0 = false ∧ Z.land (128 + g) 127 = g.
Proof.
  intros Hg. assert (∀ n : nat, (n < 128)%nat → (Z.land (128 + Z.of_nat n) 128 =? 0 = false) ∧ Z.land (128 + Z.of_nat n) 127 = Z.of_nat n) as H.
  { intros n Hn. do 128 (destruct n as [|n]; [by vm_compute|]). lia. }
  specialize (H (Z.to_nat g)). rewrite Z2Nat.id in H by lia. apply H. lia.
Qed.

Lemma oid_last_bits g : 0 ≤ g < 128 → Z.land g 128 = 0 ∧ Z.land g 127 = g.
Proof.
  intros Hg. split; [by apply (land_pow2_low g 7)|].
  pose proof (land_mask g 7 ltac:(lia)) as H. change (2 ^ 7 - 1) with 127 in H. rewrite H. by apply Z.mod_small.
Qed.

Lemma read_oid_enc n : ∀ fuel p t rest,
  0 ≤ t < 2 ^ 32 → (n < fuel)%nat →
  read_ber_oid_tag fuel (p ++ (oid_high n t ++ [t mod 128]) ++ rest) (zlen p) (t / 128 ^ (Z.of_nat n + 1))
  = Ok (t, zlen p + Z.of_nat n + 1).
Proof.
  induction n as [|n IH]; intros fuel p t rest Ht Hf; (destruct fuel as [|fuel]; [lia|]); cbn [read_ber_oid_tag oid_high app].
  - rewrite get_at_app. cbn [ok_or mbind res_bind]. change (128 ^ (Z.of_nat 0 + 1)) with 128.
    pose proof (Z.mod_pos_bound t 128). pose proof (Z.div_mod t 128).
    destruct (oid_last_bits (t mod 128)) as [-> ->]; [lia|]. cbn [Z.eqb].
    rewrite Z.shiftl_mul_pow2 by lia. change (2 ^ 7) with 128.
    rewrite wrap_small by lia.
    replace (t / 128 * 128) with (Z.shiftl (t / 128) 7) by (rewrite Z.shiftl_mul_pow2 by lia; done).
    rewrite lor_shiftl by (change (2 ^ 7) with 128; lia). change (2 ^ 7) with 128. do 2 f_equal; lia.
  - rewrite get_at_app. cbn [ok_or mbind res_bind].
    set (g := (t / 128 ^ Z.of_nat (S n)) mod 128). pose proof (Z.mod_pos_bound (t / 128 ^ Z.of_nat (S n)) 128).
    destruct (oid_group_bits g) as [-> ->]; [lia|].
    assert (0 < 128 ^ Z.of_nat (S n)) by lia.
    assert (t / 128 ^ (Z.of_nat (S n) + 1) = t / 128 ^ Z.of_nat (S n) / 128) as ->
      by (rewrite Z.div_div by lia; f_equal; rewrite Z.pow_add_r by lia; done).
    assert (0 ≤ t / 128 ^ Z.of_nat (S n) ≤ t) by (split; [apply Z.div_pos; lia|apply Z.div_le_upper_bound; nia]).
    set (u := t / 128 ^ Z.of_nat (S n)) in *. pose proof (Z.div_mod u 128).
    assert (Z.lor (wrap 32 (Z.shiftl (u / 128) 7)) g = u) as ->.
    { rewrite wrap_small by (rewrite Z.shiftl_mul_pow2 by lia; change (2 ^ 7) with 128; lia).
      rewrite lor_shiftl by (change (2 ^ 7) with 128; lia). change (2 ^ 7) with 128. unfold g. lia. }
    assert (p ++ (128 + g) :: (oid_high n t ++ [t mod 128]) ++ rest
      = (p ++ [128 + g]) ++ (oid_high n t ++ [t mod 128]) ++ rest) as -> by (by rewrite <- (app_assoc p)).
    replace (zlen p + 1) with (zlen (p ++ [128 + g])) by (by rewrite zlen_app).
    assert (u = t / 128 ^ (Z.of_nat n + 1)) as -> by (unfold u; do 2 f_equal; lia).
    rewrite IH by lia. rewrite zlen_app. change (zlen [128 + g]) with 1. do 2 f_equal. lia.
Qed.

Lemma oid_groups_le t : 0 ≤ t < 2 ^ 32 → t / 128 ^ (Z.of_nat (oid_groups t) + 1) = 0 ∧ (oid_groups t ≤ 4)%nat.
Proof.
  intros Ht. unfold oid_groups. repeat case_match; bool_prop; (split; [|lia]); apply Z.div_small; lia.
Qed.

Lemma oid_high_length n t : length (oid_high n t) = n.
Proof. induction n; [done|]. cbn. by f_equal. Qed.

Lemma read_tag_enc p t rest :
  0 ≤ t < 2 ^ 32 →
  read_ber_oid_tag (S (length (p ++ enc_tag t ++ rest))) (p ++ enc_tag t ++ rest) (zlen p) 0
  = Ok (t, zlen p + zlen (enc_tag t)).
Proof.
  intros Ht. destruct (oid_groups_le t Ht) as [H0 Hn].
  pose proof (read_oid_enc (oid_groups t) (S (length (p ++ enc_tag t ++ rest))) p t rest Ht) as H.
  rewrite H0 in H. unfold enc_tag in *. rewrite H.
  - unfold zlen. rewrite (length_app (oid_high _ _)), oid_high_length. cbn [length]. do 2 f_equal. lia.
  - rewrite !length_app, oid_high_length. lia.
Qed.

Lemma items_enc its fuel p t total i :
  Forall item_ok its → (length its < fuel)%nat → total = zlen p + zlen (enc_items its) →
  0 ≤ zlen t →
  items fuel (p ++ enc_items its ++ t) total (zlen p) i = Ok (read_items its i).
Proof.
  intros Hi. revert fuel p i. induction Hi as [|[tag v] its (Htag & Hv & _) Hi IH]; intros fuel p i Hf Ht H0;
    (destruct fuel as [|fuel]; [simpl in Hf; lia|]).
  - simpl in *. change (zlen (@nil Z)) with 0 in Ht. rewrite Z.add_0_r in Ht. subst.
    by rewrite Z.ltb_irrefl.
  - change (enc_items ((tag, v) :: its)) with (enc_item (tag, v) ++ enc_items its) in *.
    cbn [fst snd] in *. unfold enc_item in *. cbn [fst snd] in *.
    rewrite !zlen_app in Ht. assert (1 ≤ zlen (enc_tag tag)) as H1
      by (unfold enc_tag; rewrite zlen_app; pose proof (zlen_nonneg (oid_high (oid_groups tag) tag)); change (zlen [tag mod 128]) with 1; lia).
    pose proof (zlen_nonneg v). pose proof (zlen_nonneg (enc_items its)). pose proof (zlen_nonneg (enc_len (zlen v))).
    cbn [items]. replace (zlen p <? total) with true by lia.
    assert (p ++ ((enc_tag tag ++ enc_len (zlen v) ++ v) ++ enc_items its) ++ t
      = p ++ enc_tag tag ++ (enc_len (zlen v) ++ v ++ enc_items its ++ t)) as -> by (by rewrite <- !app_assoc).
    rewrite read_tag_enc by done. cbn [mbind res_bind].
    rewrite app_assoc. rewrite <- zlen_app. set (q := p ++ enc_tag tag).
    rewrite read_ber_len_enc by lia. cbn [mbind res_bind].
    assert (zlen q = zlen p + zlen (enc_tag tag)) as Hq by (unfold q; by rewrite zlen_app).
    rewrite <- zlen_app.
    replace (total <? _) with false by (rewrite zlen_app; lia).
    rewrite (app_assoc q). rewrite (proj2 (slice_Ok _ _ _ v)) by (by apply get_range_app). cbn [mbind res_bind].
    rewrite <- zlen_app, (app_assoc _ v). rewrite IH; [done|simpl in Hf; lia| |done].
    rewrite !zlen_app. lia.
Qed.

Definition bweight (i : Z) : Z := 2 ^ (8 * ((i + 1) mod 2)).
Fixpoint bsum (i : Z) (l : bytes) : Z :=
  match l with [] => 0 | b :: l => b * bweight i + bsum (i + 1) l end.

Lemma bweight_cases i : bweight i = 1 ∨ bweight i = 256.
Proof. unfold bweight. pose proof (Z.mod_pos_bound (i + 1) 2). assert ((i + 1) mod 2 = 0 ∨ (i + 1) mod 2 = 1) as [->| ->] by lia; auto. Qed.

(** The running sum is the weighted sum of the bytes modulo 2^16. *)
Lemma bcc_from_sum i s l : 0 ≤ s < 2 ^ 16 → bcc_from i s l = wrap 16 (s + bsum i l).
Proof.
  revert i s. induction l as [|b l IH]; intros i s Hs; simpl.
  - by rewrite Z.add_0_r, wrap_small.
  - rewrite IH by (apply wrap_range; lia). rewrite Z.shiftl_mul_pow2
      by (pose proof (Z.mod_pos_bound (i + 1) 2); lia).
    unfold wrap. rewrite Z.add_mod_idemp_l by lia. f_equal. unfold bweight. ring.
Qed.

Lemma bcc_range l : 0 ≤ bcc_16 l < 2 ^ 16.
Proof. unfold bcc_16. rewrite bcc_from_sum by done. apply wrap_range. lia. Qed.

Lemma bsum_app i a c : bsum i (a ++ c) = bsum i a + bsum (i + zlen a) c.
Proof.
  revert i. induction a as [|b a IH]; intros i; simpl.
  - change (zlen (@nil Z)) with 0. by rewrite Z.add_0_r.
  - rewrite IH, zlen_cons. replace (i + 1 + zlen a) with (i + (1 + zlen a)) by lia. ring.
Qed.

Lemma list_snoc2 {A} (l : list A) : (2 ≤ length l)%nat → ∃ m x y, l = m ++ [x; y].
Proof.
  intros H. destruct l as [|y l _] using rev_ind; [simpl in H; lia|].
  destruct l as [|x l _] using rev_ind; [simpl in H; lia|]. exists l, x, y. by rewrite <- app_assoc.
Qed.

(** The checksum bytes and what they cover. *)
Lemma pkt_tail (body : bytes) c0 c1 t :
  t = zlen (body ++ [c0; c1]) →
  idx (E := KlvError) (body ++ [c0; c1]) (t - 2) = Ok c0
  ∧ idx (E := KlvError) (body ++ [c0; c1]) (t - 1) = Ok c1
  ∧ slice (E := KlvError) (body ++ [c0; c1]) 0 (t - 2) = Ok body.
Proof.
  intros ->. rewrite zlen_app. change (zlen [c0; c1]) with 2. pose proof (zlen_nonneg body).
  split_and!.
  - apply idx_Ok. rewrite zlen_app. change (zlen [c0; c1]) with 2. split; [lia|].
    replace (Z.to_nat _) with (length body) by (unfold zlen; lia). by apply list_lookup_middle.
  - apply idx_Ok. rewrite zlen_app. change (zlen [c0; c1]) with 2. split; [lia|].
    replace (Z.to_nat _) with (length (body ++ [c0])) by (rewrite length_app; unfold zlen; simpl; lia).
    assert (body ++ [c0; c1] = (body ++ [c0]) ++ [c1]) as -> by (by rewrite <- app_assoc).
    by apply list_lookup_middle.
  - apply slice_Ok, get_range_head. lia.
Qed.

Lemma enc_items_length its : (length its ≤ length (enc_items its))%nat.
Proof.
  induction its as [|it its IH]; [simpl; lia|].
  change (enc_items (it :: its)) with (enc_item it ++ enc_items its). rewrite length_app. unfold enc_item, enc_tag. rewrite !length_app. simpl. lia.
Qed.

Lemma enc_items_snoc its cs :
  zlen cs = 2 → enc_items (its ++ [(1, cs)]) = enc_items its ++ [1; 2] ++ cs.
Proof.
  intros Hc. unfold enc_items. rewrite fmap_app, concat_app. simpl. rewrite app_nil_r.
  unfold enc_item. cbn [fst snd]. by rewrite Hc.
Qed.

Lemma enc_set_shape its :
  let cs := be_enc 2 (bcc_16 (enc_head its)) in
  let n := zlen (enc_items its) + 4 in
  enc_set its = UAS_LS_KEY ++ enc_len n ++ enc_items (its ++ [(1, cs)]).
Proof.
  intros cs n. rewrite enc_items_snoc by done. unfold enc_set, enc_head. fold n.
  by rewrite <- !app_assoc.
Qed.

Lemma parse_set_enc its :
  Forall item_ok its → zlen (enc_items its) + 4 < 2 ^ 32 →
  parse_set (enc_set its) = Ok (finish (read_items its no_items) (enc_set its)).
Proof.
  intros Hi Hz. pose proof (zlen_nonneg (enc_items its)) as Hz0.
  pose proof (enc_set_shape its) as Hs. cbn zeta in Hs.
  set (cs := be_enc 2 (bcc_16 (enc_head its))) in *. set (n := zlen (enc_items its) + 4) in *.
  assert (zlen (enc_set its) = 16 + zlen (enc_len n) + n) as Hlen.
  { rewrite Hs, !zlen_app, enc_items_snoc, !zlen_app by done. change (zlen UAS_LS_KEY) with 16.
    change (zlen [1; 2]) with 2. change (zlen cs) with 2. lia. }
  pose proof (enc_len_zlen n) as Hln.
  assert (1 ≤ zlen (enc_len n)) as Hl1 by (rewrite Hln; destruct (n <? 128); lia).
  unfold parse_set. replace (zlen (enc_set its) <? 17) with false by lia.
  rewrite (proj2 (slice_Ok (enc_set its) 0 16 UAS_LS_KEY)) by (rewrite Hs; by apply get_range_head).
  cbn [mbind res_bind]. rewrite bool_decide_eq_true_2 by done. cbn [negb].
  rewrite Hs at 1. change 16 with (zlen UAS_LS_KEY) at 1. rewrite read_ber_len_enc by lia.
  change (zlen UAS_LS_KEY) with 16. cbn [mbind res_bind].
  assert (zlen (enc_len n) ≤ 5) by (rewrite Hln; destruct (n <? 128); lia).
  replace (2 ^ 64 <=? _) with false by lia.
  replace (_ || _) with false by lia.
  rewrite (proj2 (slice_Ok (enc_set its) 0 _ (enc_set its))).
  2: { apply get_range_Some. split_and!; try lia. rewrite drop_0, take_ge; [done|]. unfold zlen in *. lia. }
  cbn [mbind res_bind].
  assert (zlen (enc_head its) = 16 + zlen (enc_len n) + n - 2) as Hh.
  { assert (zlen (enc_set its) = zlen (enc_head its) + 2) by (unfold enc_set; by rewrite zlen_app). lia. }
  assert (∃ c0 c1, cs = [c0; c1]) as (c0 & c1 & Hcs) by (do 2 eexists; reflexivity).
  assert (enc_set its = enc_head its ++ [c0; c1]) as Hset by (rewrite <- Hcs; done).
  destruct (pkt_tail (enc_head its) c0 c1 (16 + zlen (enc_len n) + n)) as (E0 & E1 & E2); [by rewrite <- Hset|].
  rewrite <- Hset in E0, E1, E2. rewrite E0, E1, E2.
  cbn [mbind res_bind]. rewrite <- Hcs. unfold cs. rewrite be_val_enc.
  assert (0 ≤ bcc_16 (enc_head its) < 2 ^ 16) as Hr by apply bcc_range.
  rewrite Z.mod_small by (change (256 ^ Z.of_nat 2) with (2 ^ 16); lia). rewrite Z.eqb_refl. cbn [negb].
  assert (Forall item_ok (its ++ [(1, cs)])) as Hi'.
  { apply Forall_app. split; [done|]. constructor; [|constructor]. split_and!; simpl; try done. apply be_enc_ok. }
  pose proof (items_enc (its ++ [(1, cs)]) (S (length (enc_set its))) (UAS_LS_KEY ++ enc_len n) []
    (16 + zlen (enc_len n) + n) no_items Hi') as Hit.
  rewrite app_nil_r, <- app_assoc, <- Hs, zlen_app in Hit. change (zlen UAS_LS_KEY) with 16 in Hit.
  rewrite Hit.
  - cbn [mbind res_bind]. unfold read_items. rewrite fold_left_app. simpl fold_left at 1.
    do 2 f_equal. unfold item. destruct (fold_left _ its no_items) as [[] ? ?]. done.
  - pose proof (enc_items_length (its ++ [(1, cs)])). apply (f_equal length) in Hs.
    rewrite (length_app UAS_LS_KEY), (length_app (enc_len n)) in Hs. lia.
  - rewrite enc_items_snoc, !zlen_app by done. change (zlen [1; 2]) with 2. change (zlen cs) with 2. lia.
  - done.
Qed.

Lemma written_ok its : Forall writable its → Forall item_ok (written <$> its).
Proof.
  intros H. apply Forall_fmap. eapply Forall_impl; [exact H|]. intros i Hi. unfold item_ok, compose.
  destruct i as [| | | | | | | | | | |tag val|]; cbn [written fst snd writable] in *;
    try (split_and!; [lia|lia|rewrite be_enc_zlen; lia|apply be_enc_ok]);
    try (destruct Hi as [? ?]; split_and!; [lia|lia|done..]).
  - destruct Hi as ((w & Hw & _) & ? & ?). unfold widths in Hw. rewrite !elem_of_cons, elem_of_nil in Hw.
    assert (0 ≤ tag < 2 ^ 32) by (repeat (destruct Hw as [[= -> ->]|Hw]; [lia|]); by destruct Hw).
    by split_and!; try lia.
  - destruct Hi as (? & _ & ? & ?). done.
Qed.

Lemma be_u_enc n v : 0 ≤ v < 256 ^ Z.of_nat n → be_u (Z.of_nat n) (be_enc n v) = Some v.
Proof.
  intros H. unfold be_u. rewrite be_enc_zlen, Z.eqb_refl, be_val_enc. by rewrite Z.mod_small.
Qed.

Lemma be_i_enc n v :
  - 2 ^ (8 * Z.of_nat (S n) - 1) ≤ v < 2 ^ (8 * Z.of_nat (S n) - 1) →
  be_i (Z.of_nat (S n)) (be_enc (S n) (v mod 2 ^ (8 * Z.of_nat (S n)))) = Some v.
Proof.
  intros H. unfold be_i. assert (256 ^ Z.of_nat (S n) = 2 ^ (8 * Z.of_nat (S n))) as E
    by (rewrite Z.pow_mul_r by lia; done).
  assert (2 ^ (8 * Z.of_nat (S n)) = 2 * 2 ^ (8 * Z.of_nat (S n) - 1)) as E2
    by (rewrite <- Z.pow_succ_r by lia; f_equal; lia).
  rewrite be_u_enc by (rewrite E; apply Z.mod_pos_bound; lia). cbn. f_equal.
  by apply (to_signed_wrap (8 * Z.of_nat (S n))); [lia|].
Qed.

Lemma misfit_be tag w val : (tag, w) ∈ widths → zlen val ≠ w → be_u w val = None ∧ be_i w val = None.
Proof. intros _ H. unfold be_i, be_u. by replace (zlen val =? w) with false by lia. Qed.

Lemma ascii_text t : ascii t = text_of t.
Proof. unfold ascii, text_of. by destruct (trim (utf8_lossy t)). Qed.

Ltac number_item H :=
  let E := fresh in pose proof H as E;
  match type of E with context [be_enc ?n ?v] =>
    let z := eval compute in (Z.of_nat n) in change (Z.of_nat n) with z in E; revert E; generalize (be_enc n v) end;
  intros ? E; unfold item; cbn; by rewrite E.

(** The loop over the items computes what they say. *)
Lemma read_items_said its :
  Forall writable its →
  read_items (written <$> its) no_items
  = mkItems (mkUas (latest said_time its) (latest said_tail its) (latest said_designation its)
      (latest said_mission its) (latest said_heading its) (latest said_pitch its) (latest said_roll its)
      f_zero f_zero (latest said_alt its) (latest said_version its) [])
    (latest said_lat its) (latest said_lon its).
Proof.
  induction its as [|i its IH] using rev_ind; intros H; [done|]. apply Forall_app in H as [H Hi].
  inversion Hi as [|? ? Hw _]; subst. clear Hi.
  unfold read_items in *. rewrite fmap_app, fold_left_app, IH by done. cbn [fmap list_fmap fold_left].
  rewrite !latest_snoc. clear IH H. destruct i as [us|t|t|t|v|v|v|v|v|v|b|tag val|tag val]; cbn [written fst snd writable] in *.
  - number_item (be_u_enc 8 _ Hw).
  - unfold item. cbn. by rewrite ascii_text.
  - unfold item. cbn. by rewrite ascii_text.
  - unfold item. cbn. by rewrite ascii_text.
  - number_item (be_u_enc 2 _ Hw).
  - number_item (be_i_enc 1 v Hw : be_i 2 (be_enc 2 (v mod 2 ^ 16)) = Some v).
  - number_item (be_i_enc 1 v Hw : be_i 2 (be_enc 2 (v mod 2 ^ 16)) = Some v).
  - number_item (be_i_enc 3 v Hw : be_i 4 (be_enc 4 (v mod 2 ^ 32)) = Some v).
  - number_item (be_i_enc 3 v Hw : be_i 4 (be_enc 4 (v mod 2 ^ 32)) = Some v).
  - number_item (be_u_enc 2 _ Hw).
  - by destruct b.
  - destruct Hw as ((w & Hw & Hz) & _). destruct (misfit_be tag w val Hw Hz) as [Hu Hi]. unfold widths in Hw.
    rewrite !elem_of_cons, elem_of_nil in Hw.
    destruct Hw as [[= -> ->]|[[= -> ->]|[[= -> ->]|[[= -> ->]|[[= -> ->]|[[= -> ->]|[[= -> ->]|[]]]]]]]];
      unfold item; cbn; by rewrite ?Hu, ?Hi.
  - destruct Hw as (_ & Ht & _). rewrite !not_elem_of_cons in Ht.
    unfold item. cbn. repeat (replace (tag =? _) with false by lia). done.
Qed.

(** ** The checksum *)

(** One damaged byte changes the sum. *)
Lemma bcc_16_byte a b b' c :
  byte_ok b → byte_ok b' → b ≠ b' → bcc_16 (a ++ b :: c) ≠ bcc_16 (a ++ b' :: c).
Proof.
  intros Hb Hb' Hne. unfold bcc_16. rewrite !bcc_from_sum by done. rewrite !bsum_app. simpl bsum.
  set (x := bsum 0 a). set (y := bsum _ c). unfold wrap.
  pose proof (bweight_cases (0 + zlen a)) as Hw. unfold byte_ok in *. intros E.
  assert (((0 + (x + (b * bweight (0 + zlen a) + y))) - (0 + (x + (b' * bweight (0 + zlen a) + y)))) mod 2 ^ 16 = 0) as E'.
  { rewrite Zminus_mod, E, Z.sub_diag. done. }
  replace (_ - _) with ((b - b') * bweight (0 + zlen a)) in E' by ring.
  apply Z.mod_divide in E' as [k Hk]; [|lia]. destruct Hw as [Hw|Hw]; rewrite Hw in Hk; lia.
Qed.

Definition sum_ok (pkt : bytes) : Prop :=
  ∃ body c0 c1, pkt = body ++ [c0; c1] ∧ bcc_16 body = be_val [c0; c1].

Lemma sum_ok_byte a b b' c :
  bytes_ok (a ++ b :: c) → byte_ok b' → b ≠ b' → sum_ok (a ++ b :: c) → ¬ sum_ok (a ++ b' :: c).
Proof.
  intros Hok Hb' Hne (body & c0 & c1 & E & Hs) (body' & d0 & d1 & E' & Hs').
  apply bytes_ok_app in Hok as [Ha Hbc]. inversion Hbc as [|? ? Hb Hc]; subst.
  destruct (decide (length c < 2)%nat) as [Hl|Hl].
  - (* inside the checksum itself *)
    assert (body = body') as ->.
    { apply (f_equal (take (length a - (1 - length c)))) in E as E1.
      apply (f_equal (take (length a - (1 - length c)))) in E' as E1'.
      apply (f_equal length) in E as El. apply (f_equal length) in E' as El'.
      rewrite !length_app in El, El'. simpl in El, El'.
      rewrite take_app_le in E1, E1' by lia.
      rewrite take_app_length' in E1, E1' by lia. congruence. }
    assert (bytes_ok [c0; c1] ∧ bytes_ok [d0; d1]) as [Hc01 Hd01].
    { assert (bytes_ok (body' ++ [c0; c1])) as H1 by (rewrite <- E; apply bytes_ok_app; by split; [|constructor]).
      assert (bytes_ok (body' ++ [d0; d1])) as H2 by (rewrite <- E'; apply bytes_ok_app; by split; [|constructor]).
      apply bytes_ok_app in H1 as [_ H1]. apply bytes_ok_app in H2 as [_ H2]. done. }
    assert ([c0; c1] = [d0; d1]) as Ecd by (apply be_val_inj; try done; congruence).
    rewrite Ecd, <- E' in E. apply app_inv_head in E. congruence.
  - (* before it *)
    destruct (list_snoc2 c) as (m & e0 & e1 & ->); [lia|].
    assert (∀ x, a ++ x :: m ++ [e0; e1] = (a ++ x :: m) ++ [e0; e1]) as Ex by (intros; by rewrite <- app_assoc).
    rewrite Ex in E, E'. apply app_inj_2 in E as [<- [= <- <-]]; [|done].
    apply app_inj_2 in E' as [<- [= <- <-]]; [|done].
    by apply (bcc_16_byte a b b' m); [..|congruence].
Qed.

Lemma ber_bytes_ext n buf buf' pos len l p :
  ber_bytes n buf pos len = Ok (l, p) → (∀ i, i < p → get buf' i = get buf i) →
  ber_bytes n buf' pos len = Ok (l, p) ∧ pos ≤ p.
Proof.
  revert pos len. induction n as [|n IH]; intros pos len; simpl; [intros [= -> ->]; by split|].
  intros H He. inv_ok.
  destruct (IH _ _ H0 He) as [H1 H2]. rewrite He by lia. rewrite H. simpl. split; [done|lia].
Qed.

Lemma read_ber_len_ext buf buf' pos l p :
  read_ber_len buf pos = Ok (l, p) → (∀ i, i < p → get buf' i = get buf i) →
  read_ber_len buf' pos = Ok (l, p).
Proof.
  unfold read_ber_len. intros H He. inv_ok.
  assert (pos < p) as Hp.
  { destruct (Z.land x 128 =? 0); [inv_ok; lia|]. case_in H0; [done|].
    destruct (ber_bytes_ext _ _ buf _ _ _ _ H0); [done|lia]. }
  rewrite He, H by lia. simpl.
  destruct (Z.land x 128 =? 0); [done|]. case_in_goal; [done|].
  by destruct (ber_bytes_ext _ _ buf' _ _ _ _ H0 He).
Qed.

(** What a parsed frame satisfied, and what fails when its sum does not hold. *)
Lemma parse_set_sum frame n pos :
  bytes_ok frame → 17 ≤ zlen frame → take 16 frame = UAS_LS_KEY →
  read_ber_len frame 16 = Ok (n, pos) → pos + n ≤ zlen frame → pos + 2 ≤ pos + n → pos + n < 2 ^ 64 →
  ¬ sum_ok (take (Z.to_nat (pos + n)) frame) → parse_set frame = Err BadChecksum.
Proof.
  intros Hb H17 Hk Hl Hn H2 H64 Hs. unfold parse_set. replace (zlen frame <? 17) with false by lia.
  pose proof (read_ber_len_spec frame 16 ltac:(lia) Hb) as Hp. rewrite Hl in Hp.
  rewrite (proj2 (slice_Ok frame 0 16 UAS_LS_KEY)) by (apply get_range_Some; rewrite <- Hk; split_and!; try lia; done).
  cbn [mbind res_bind]. rewrite bool_decide_eq_true_2 by done. rewrite Hl. cbn [mbind res_bind negb].
  replace (2 ^ 64 <=? _) with false by lia. replace (_ || _) with false by lia.
  set (pkt := take (Z.to_nat (pos + n)) frame) in *.
  assert (zlen pkt = pos + n) as Hz by (unfold pkt, zlen in *; rewrite length_take; lia).
  rewrite (proj2 (slice_Ok frame 0 _ pkt)) by
    (apply get_range_Some; rewrite Z.sub_0_r, drop_0; split_and!; try lia; done).
  cbn [mbind res_bind].
  destruct (list_snoc2 pkt) as (body & c0 & c1 & E); [unfold zlen in Hz; lia|].
  destruct (pkt_tail body c0 c1 (pos + n)) as (E0 & E1 & E2); [by rewrite <- E|].
  rewrite <- E in E0, E1, E2. rewrite E0, E1, E2. cbn [mbind res_bind].
  destruct (Z.eqb_spec (bcc_16 body) (be_val [c0; c1])) as [He|]; [|done].
  destruct Hs. by exists body, c0, c1.
Qed.

Lemma parse_set_inv frame o :
  bytes_ok frame → parse_set frame = Ok o →
  ∃ n pos, 17 ≤ zlen frame ∧ take 16 frame = UAS_LS_KEY ∧ read_ber_len frame 16 = Ok (n, pos)
    ∧ pos + n ≤ zlen frame ∧ pos + 2 ≤ pos + n ∧ pos + n < 2 ^ 64
    ∧ sum_ok (take (Z.to_nat (pos + n)) frame).
Proof.
  intros Hb H. destruct (Z.lt_ge_cases (zlen frame) 17) as [Hlt|H17].
  { unfold parse_set in H. by replace (zlen frame <? 17) with true in H by lia. }
  unfold parse_set in H. replace (zlen frame <? 17) with false in H by lia.
  apply bind_Ok in H as (k & Hk & H). apply slice_Ok, get_range_Some in Hk as (_ & _ & ->).
  case_bool_decide as Hk; [|done]. cbn [negb] in H. apply bind_Ok in H as ([n pos] & Hl & H).
  case_in H; [done|]. case_in H; [done|]. bool_prop.
  pose proof (read_ber_len_spec frame 16 ltac:(lia) Hb) as Hp. rewrite Hl in Hp.
  exists n, pos. split_and!; try done. clear Hk.
  apply bind_Ok in H as (pkt & Hpkt & H). apply slice_Ok, get_range_Some in Hpkt as (_ & _ & ->).
  rewrite Z.sub_0_r, drop_0 in H. set (pkt := take _ frame) in *.
  assert (zlen pkt = pos + n) as Hz by (unfold pkt, zlen in *; rewrite length_take; lia).
  destruct (list_snoc2 pkt) as (body & c0 & c1 & E); [unfold zlen in Hz; lia|].
  destruct (pkt_tail body c0 c1 (pos + n)) as (E0 & E1 & E2); [by rewrite <- E|].
  rewrite <- E in E0, E1, E2. rewrite E0, E1, E2 in H. cbn [mbind res_bind] in H.
  case_in H; [done|]. exists body, c0, c1. split; [done|]. bool_prop. done.
Qed.

(** The connector as the runtime sees it. *)
#[export] Instance klv_parser : FrameParser := {|
  fp_state := KlvParser; fp_error := KlvError;
  fp_parse := λ envs self frame, (self, parse envs self frame)
|}.

#[export] Instance klv_laws : FrameParserLaws klv_parser.
Proof.
  refine {| fp_inv := λ _ : @fp_state klv_parser, True |}.
  - intros envs s frame _ Hb. split; [by apply parse_safe|done].
  - intros envs s frame es _ _ H. exact (parse_canonical envs s frame es H).
Defined.

(** * Properties *)

(** C10: a well-formed set reads back: for any items in any order (short or long
    lengths, tags of one byte or several, repeated, unmapped or of the wrong
    length), the bytes of the ST 0601 writer parse to the metadata the items say:
    each field as the last item that speaks of it puts it, with its scale; to
    nothing exactly when a coordinate is missing. *)
Theorem klv_roundtrip its :
  Forall writable its → zlen (enc_items (written <$> its)) + 4 < 2 ^ 32 →
  parse_set (enc_set (written <$> its)) = Ok (said its (enc_set (written <$> its))).
Proof.
  intros H Hz. rewrite parse_set_enc by (auto using written_ok). rewrite read_items_said by done.
  unfold finish, said. cbn [it_lat it_lon meta]. by destruct (latest said_lat its), (latest said_lon its).
Qed.

(** the checksum catches every single damaged byte after the set's length:
    if a frame parsed, the frame with one such byte changed is refused. *)
Theorem klv_checksum_detects a b b' c o n pos :
  bytes_ok (a ++ b :: c) → byte_ok b' → b ≠ b' →
  parse_set (a ++ b :: c) = Ok o →
  read_ber_len (a ++ b :: c) 16 = Ok (n, pos) → pos ≤ zlen a < pos + n →
  parse_set (a ++ b' :: c) = Err BadChecksum.
Proof.
  intros Hok Hb' Hne Hp Hl Ha.
  destruct (parse_set_inv _ _ Hok Hp) as (n' & pos' & H17 & Hk & Hl' & Hn & H2 & H64 & Hs).
  rewrite Hl in Hl'. injection Hl' as <- <-.
  pose proof (read_ber_len_spec (a ++ b :: c) 16 ltac:(lia) Hok) as Hpos. rewrite Hl in Hpos.
  destruct Hpos as [[Hpos _] _].
  assert (zlen (a ++ b' :: c) = zlen (a ++ b :: c)) as Hz by (by rewrite !zlen_app, !zlen_cons).
  assert (Hok' : bytes_ok (a ++ b' :: c)).
  { apply bytes_ok_app in Hok as [? Hbc]. inversion Hbc; subst. apply bytes_ok_app. split; [done|by constructor]. }
  assert (∀ x k, (k ≤ length a)%nat → take k (a ++ x :: c) = take k a) as Htk by (intros; by apply take_app_le).
  assert (∀ x, take (Z.to_nat (pos + n)) (a ++ x :: c)
    = a ++ x :: take (Z.to_nat (pos + n) - length a - 1) c) as Hpk.
  { intros x. rewrite take_app_ge by (unfold zlen in *; lia). f_equal.
    destruct (Z.to_nat (pos + n) - length a)%nat as [|k] eqn:E; [unfold zlen in *; lia|]. simpl. f_equal. f_equal. lia. }
  apply (parse_set_sum (a ++ b' :: c) n pos); rewrite ?Hz; try done.
  - rewrite Htk in Hk |- * by (unfold zlen in *; lia). done.
  - eapply read_ber_len_ext; [exact Hl|]. intros i Hi. unfold get. rewrite Hz. case_in_goal; [|done].
    bool_prop. rewrite !lookup_app_l by (unfold zlen in *; lia). done.
  - rewrite Hpk in Hs |- *. eapply sum_ok_byte; [..|exact Hs]; try done.
    apply bytes_ok_app in Hok as [? Hbc]. inversion Hbc; subst. apply bytes_ok_app.
    split; [done|]. constructor; [done|]. by apply Forall_take.
Qed.
End klv.

Definition ex_items : list Item :=
  [Time 1; Tail (s2b "N1"); Lat 0x40000000; Lon (-0x20000000); Pitch (- 2 ^ 15); Other 300 [1]; Misfit 5 [9]; Version [19]].
Lemma ex_items_ok : Forall writable ex_items.
Proof.
  repeat constructor; cbn [writable]; try lia; try (by vm_compute); try (by apply bytes_okb_ok).
  - intros H. rewrite !elem_of_cons, elem_of_nil in H. lia.
  - exists 2. split; [|done]. unfold widths. rewrite !elem_of_cons. naive_solver.
Qed.
Definition ex_wire : list (Z * bytes) := written <$> ex_items.

Lemma klv_roundtrip_witness :
  ∃ m, parse_set (λ _, Some "t"%string) (enc_set ex_wire) = Ok (Some m) ∧ tail_number m = Some "N1"%string
    ∧ pitch_deg m = None ∧ lon m = f_div (f_mul (f_of_Z (-0x20000000)) (f_of_Z 180)) (f_of_Z 0x7fffffff)
    ∧ ls_version m = Some 19.
Proof.
  unfold ex_wire. rewrite klv_roundtrip; [|exact ex_items_ok|reflexivity].
  eexists. split; [vm_compute; reflexivity|]. split_and!; vm_compute; reflexivity.
Defined.

Lemma klv_checksum_detects_witness :
  parse_set (λ _, Some "t"%string) (take 20 (enc_set ex_wire) ++ 0xFE :: drop 21 (enc_set ex_wire)) = Err BadChecksum.
Proof.
  eapply (klv_checksum_detects (λ _, Some "t"%string) (take 20 (enc_set ex_wire)) 0 0xFE (drop 21 (enc_set ex_wire))).
  - apply bytes_okb_ok. vm_compute. reflexivity.
  - by split.
  - lia.
  - vm_compute. reflexivity.
  - vm_compute. reflexivity.
  - vm_compute. by split.
Defined.
