(* ===== verification/Replay.v ===== *)
(** Capture replay (rust/connectors/common/src/replay.rs): the pcap reader and
    the paced source over its datagrams. Durations are whole nanoseconds;
    [Duration::div_f64] goes through binary64 seconds, as the standard library
    does, and panics where it does. *)
From Stdlib Require Import ZArith Lia.
From Stdlib Require Import Strings.String.
From S2P Require Export F64.

Local Open Scope Z_scope.

(** @src rust/connectors/common/src/replay.rs 13-18 Datagram *)
Record Datagram := mkDatagram { delay : Z; payload : bytes }.

(** @src rust/connectors/common/src/replay.rs 20-25 Capture *)
Record Capture := mkCapture { datagrams : list Datagram; skipped : Z }.

Inductive PcapError := TooShort | BadMagic | PcapTruncated | LinkType (n : Z).

Definition get_u16be (l : bytes) (i : Z) : option Z := be_val <$> get_range l i (i + 2).

(** The [while] loop over 802.1Q tags: the ethertype after them and its end. *)
Fixpoint vlan_loop (fuel : nat) (frame : bytes) (ethertype off : Z) : res PcapError (option (Z * Z)) :=
  match fuel with
  | O => NoFuel
  | S fuel =>
      if (ethertype =? 0x8100) || (ethertype =? 0x88a8) then
        match get_u16be frame (off + 2) with
        | Some e => vlan_loop fuel frame e (off + 4)
        | None => Ok None
        end
      else Ok (Some (ethertype, off))
  end.

(** The IPv4 and UDP headers at [off]. *)
Definition ip_udp (frame : bytes) (off : Z) (port : option Z) : option bytes :=
  ip ← get_from frame off;
  b0 ← head ip;
  let ihl := Z.land b0 0x0f * 4 in
  if ihl <? 20 then None
  else
    proto ← get ip 9;
    if negb (proto =? 17) then None
    else
      udp ← get_from ip ihl;
      dst ← get_u16be udp 2;
      if match port with Some want => negb (dst =? want) | None => false end then None
      else
        udp_len ← get_u16be udp 4;
        if udp_len <? 8 then None else get_range udp 8 (Z.min udp_len (zlen udp)).

(** @src rust/connectors/common/src/replay.rs 103-135 udp_payload *)
Definition udp_payload (frame : bytes) (port : option Z) : res PcapError (option bytes) :=
  match get_u16be frame 12 with
  | None => Ok None
  | Some e =>
      o ← vlan_loop (S (length frame)) frame e 14;
      match o with
      | None => Ok None
      | Some (ethertype, off) => Ok (if ethertype =? 0x0800 then ip_udp frame off port else None)
      end
  end.

Definition u32_at (le : bool) (data : bytes) (off : Z) : res PcapError Z :=
  b ← ok_or PcapTruncated (get_range data off (off + 4));
  Ok (if le then le_val b else be_val b).

(** The packet loop. *)
Fixpoint packets (fuel : nat) (le nanos : bool) (port : option Z) (data : bytes) (off : Z)
    (prev : option Z) (ds : list Datagram) (skip : Z) : res PcapError Capture :=
  match fuel with
  | O => NoFuel
  | S fuel =>
      if off + 16 <=? zlen data then
        ts_sec ← u32_at le data off;
        ts_frac ← u32_at le data (off + 4);
        incl_len ← u32_at le data (off + 8);
        let off := off + 16 in
        match get_range data off (off + incl_len) with
        | None => Ok (mkCapture ds skip)
        | Some frame =>
            let off := off + incl_len in
            let ts_ns := ts_sec * 1000000000 + (if nanos then ts_frac else ts_frac * 1000) in
            o ← udp_payload frame port;
            match o with
            | Some p =>
                let d := match prev with Some p => Z.max 0 (ts_ns - p) | None => 0 end in
                packets fuel le nanos port data off (Some ts_ns) (ds ++ [mkDatagram d p]) skip
            | None => packets fuel le nanos port data off prev ds (skip + 1)
            end
        end
      else Ok (mkCapture ds skip)
  end.

(** @src rust/connectors/common/src/replay.rs 27-101 parse_pcap *)
Definition parse_pcap (data : bytes) (port : option Z) : res PcapError Capture :=
  if zlen data <? 24 then Err TooShort
  else
    magic ← slice data 0 4;
    '(le, nanos) ←
      (if le_val magic =? 0xa1b2c3d4 then Ok (true, false)
       else if le_val magic =? 0xa1b23c4d then Ok (true, true)
       else if be_val magic =? 0xa1b2c3d4 then Ok (false, false)
       else if be_val magic =? 0xa1b23c4d then Ok (false, true)
       else Err BadMagic);
    linktype ← u32_at le data 20;
    if negb (linktype =? 1) then Err (LinkType linktype)
    else packets (S (length data)) le nanos port data 24 None [] 0.

(** * The paced source *)

(** @src rust/connectors/common/src/replay.rs 137-147 ReplaySource *)
Record ReplaySource := mkReplay {
  rs_datagrams : list Datagram;
  next : Z;
  speed : f64;
  max_gap : Z;
  looping : bool
}.

Inductive OpenError := SpeedNotPositive | BadCapture (e : PcapError) | NoDatagrams (skipped : Z).

(** @src rust/connectors/common/src/replay.rs 149-185 open *)
Definition open (data : bytes) (sp : f64) (loop_ : bool) (port : option Z) (max_gap_ms : Z) :
    res OpenError ReplaySource :=
  if f_leb sp f_zero then Err SpeedNotPositive
  else
    c ← map_err BadCapture (parse_pcap data port);
    if bool_decide (zlen (datagrams c) = 0) then Err (NoDatagrams (skipped c))
    else Ok (mkReplay (datagrams c) 0 sp (max_gap_ms * 1000000) loop_).

(** [Duration::as_secs_f64]. *)
Definition as_secs_f64 (ns : Z) : f64 :=
  f_add (f_of_Z (ns / 1000000000)) (f_div (f_of_Z (ns mod 1000000000)) (f_of_Z 1000000000)).

(** [Duration::from_secs_f64]: panics on NaN, a negative value and overflow;
    otherwise the nearest nanosecond, ties to even. *)
Definition from_secs_f64 {E} (x : f64) : res E Z :=
  match x with
  | S754_zero _ => Ok 0
  | S754_finite false m e =>
      let '(n, d) := if 0 <=? e then (Zpos m * 2 ^ e, 1) else (Zpos m, 2 ^ (- e)) in
      let ns := div_half_even (n * 1000000000) d in
      if ns <? 2 ^ 64 * 1000000000 then Ok ns else Panic
  | _ => Panic
  end.

(** [Duration::div_f64]. *)
Definition div_f64 {E} (ns : Z) (rhs : f64) : res E Z := from_secs_f64 (f_div (as_secs_f64 ns) rhs).

(** What [recv] does next: deliver these bytes after this sleep, or wait for
    ever. *)
Inductive Step := Deliver (sleep : Z) (bytes_ : bytes) | Pending.

(** @src rust/connectors/common/src/replay.rs 187-214 ReplaySource::recv *)
Definition recv (cap : Z) (s : ReplaySource) : ReplaySource * res Empty_set Step :=
  let deliver (s : ReplaySource) (d : Datagram) :=
    let s' := mkReplay (rs_datagrams s) (next s + 1) (speed s) (max_gap s) (looping s) in
    (s', q ← div_f64 (delay d) (speed s);
         Ok (Deliver (Z.min q (max_gap s)) (take (Z.to_nat (Z.min (zlen (payload d)) cap)) (payload d)))) in
  match get (rs_datagrams s) (next s) with
  | Some d => deliver s d
  | None =>
      if looping s then
        let s := mkReplay (rs_datagrams s) 0 (speed s) (max_gap s) (looping s) in
        match get (rs_datagrams s) 0 with
        | Some d => deliver s d
        | None => (s, NoFuel)   (* the loop spins: [open] refuses an empty capture *)
        end
      else (s, Ok Pending)
  end.

(** * The reader never panics and always ends *)

Lemma get_u16be_bound l i e : get_u16be l i = Some e → 0 ≤ i ∧ i + 2 ≤ zlen l.
Proof. unfold get_u16be. intros (s & Hs & _)%fmap_Some. apply get_range_Some in Hs. lia. Qed.

Lemma vlan_loop_Ok fuel frame e off :
  0 ≤ off ≤ zlen frame → zlen frame - off < Z.of_nat fuel → ∃ o, vlan_loop fuel frame e off = Ok o.
Proof.
  revert e off. induction fuel as [|fuel IH]; intros e off Ho Hf; [lia|]. simpl.
  destruct (_ || _); [|eauto]. destruct (get_u16be frame (off + 2)) as [e'|] eqn:He; [|eauto].
  apply get_u16be_bound in He. apply IH; lia.
Qed.

Lemma udp_payload_Ok frame port : ∃ o, udp_payload frame port = Ok o.
Proof.
  unfold udp_payload. destruct (get_u16be frame 12) as [e|] eqn:He; [|eauto].
  apply get_u16be_bound in He.
  destruct (vlan_loop_Ok (S (length frame)) frame e 14) as [o ->]; [lia|unfold zlen; lia|].
  destruct o as [[et off]|]; simpl; eauto.
Qed.

Lemma udp_payload_safe frame port : safe (udp_payload frame port).
Proof. by destruct (udp_payload_Ok frame port) as [o ->]. Qed.

Lemma u32_at_spec le data off :
  bytes_ok data → match u32_at le data off with
                  | Ok n => 0 ≤ n < 2 ^ 32 ∧ off + 4 ≤ zlen data
                  | Err _ => True
                  | _ => False
                  end.
Proof.
  intros Hb. unfold u32_at. destruct (get_range data off (off + 4)) as [b|] eqn:Hr; [|done]. simpl.
  pose proof (get_range_len _ _ _ _ Hr). pose proof (bytes_ok_range _ _ _ _ Hb Hr) as Hbb.
  apply get_range_Some in Hr as (? & ? & _). change (2 ^ 32) with (256 ^ 4).
  split; [|lia]. destruct le; [apply le_val_lt|apply be_val_lt]; try done; lia.
Qed.

Lemma packets_safe fuel le nanos port data off prev ds skip :
  bytes_ok data → 0 ≤ off ≤ zlen data → zlen data - off < Z.of_nat fuel →
  safe (packets fuel le nanos port data off prev ds skip).
Proof.
  intros Hb. revert off prev ds skip. induction fuel as [|fuel IH]; intros off prev ds skip Ho Hf; [lia|].
  cbn [packets]. case_in_goal; [|done].
  pose proof (u32_at_spec le data off Hb). destruct (u32_at le data off); try done. cbn [mbind res_bind].
  pose proof (u32_at_spec le data (off + 4) Hb). destruct (u32_at le data (off + 4)); try done. cbn [mbind res_bind].
  pose proof (u32_at_spec le data (off + 8) Hb) as Hl. destruct (u32_at le data (off + 8)); try done. cbn [mbind res_bind].
  destruct Hl as [Hl _]. destruct (get_range data (off + 16) _) as [frame|] eqn:Hr; [|done].
  apply get_range_Some in Hr as (? & ? & _).
  apply safe_bind; [apply udp_payload_safe|]. intros [p|] _; apply IH; lia.
Qed.

Lemma parse_pcap_safe data port : bytes_ok data → safe (parse_pcap data port).
Proof.
  intros Hb. unfold parse_pcap. destruct (Z.ltb_spec (zlen data) 24); [done|].
  apply safe_bind; [apply safe_slice; lia|]. intros magic _.
  apply safe_bind; [repeat (case_in_goal; try done)|]. intros [le nanos] _.
  pose proof (u32_at_spec le data 20 Hb). destruct (u32_at le data 20); try done. cbn [mbind res_bind].
  case_in_goal; [done|]. apply packets_safe; [done|lia|unfold zlen; lia].
Qed.

(** * Writing a capture *)

Definition u32_enc (le : bool) (n : Z) : bytes := if le then rev (be_enc 4 n) else be_enc 4 n.

(** One packet as a recorder stores it: time, lengths, bytes. *)
Record Packet := mkPacket { p_ns : Z; p_frame : bytes }.

Definition frac_of (nanos : bool) (ns : Z) : Z :=
  if nanos then ns mod 1000000000 else ns mod 1000000000 / 1000.

Definition enc_packet (le nanos : bool) (p : Packet) : bytes :=
  u32_enc le (p_ns p / 1000000000) ++ u32_enc le (frac_of nanos (p_ns p))
  ++ u32_enc le (zlen (p_frame p)) ++ u32_enc le (zlen (p_frame p)) ++ p_frame p.

Definition magic_of (le nanos : bool) : bytes :=
  u32_enc le (if nanos then 0xa1b23c4d else 0xa1b2c3d4).

(** The global header: magic, 16 bytes of version, zone and snap length, the
    Ethernet link type; then the packets. *)
Definition enc_pcap (le nanos : bool) (mid : bytes) (ps : list Packet) : bytes :=
  magic_of le nanos ++ mid ++ u32_enc le 1 ++ concat (enc_packet le nanos <$> ps).

Definition packet_ok (nanos : bool) (p : Packet) : Prop :=
  0 ≤ p_ns p < 2 ^ 32 * 1000000000 ∧ zlen (p_frame p) < 2 ^ 32
  ∧ (nanos = false → p_ns p mod 1000 = 0).

(** The capture the packets stand for. *)
Fixpoint capture_of (port : option Z) (ps : list Packet) (prev : option Z) (ds : list Datagram) (skip : Z) :
    Capture :=
  match ps with
  | [] => mkCapture ds skip
  | p :: ps =>
      match udp_payload (p_frame p) port with
      | Ok (Some u) =>
          let d := match prev with Some t => Z.max 0 (p_ns p - t) | None => 0 end in
          capture_of port ps (Some (p_ns p)) (ds ++ [mkDatagram d u]) skip
      | _ => capture_of port ps prev ds (skip + 1)
      end
  end.

Lemma u32_enc_len le n : zlen (u32_enc le n) = 4.
Proof. destruct le; [unfold u32_enc; rewrite zlen_rev|]; apply be_enc_zlen. Qed.

Lemma u32_enc_val (le : bool) n :
  0 ≤ n < 2 ^ 32 → (if le then le_val (u32_enc le n) else be_val (u32_enc le n)) = n.
Proof.
  intros Hn. unfold u32_enc, le_val. destruct le; rewrite ?rev_involutive, be_val_enc;
    apply Z.mod_small; done.
Qed.

Lemma u32_at_enc (le : bool) p n t off :
  off = zlen p → 0 ≤ n < 2 ^ 32 → u32_at le (p ++ u32_enc le n ++ t) off = Ok n.
Proof.
  intros -> Hn. unfold u32_at. rewrite (get_range_app p (u32_enc le n)) by (rewrite ?u32_enc_len; lia). simpl.
  by rewrite u32_enc_val.
Qed.

Lemma frac_time nanos ns :
  0 ≤ ns → (nanos = false → ns mod 1000 = 0) →
  ns / 1000000000 * 1000000000 + (if nanos : bool then frac_of nanos ns else frac_of nanos ns * 1000) = ns.
Proof.
  intros Hn Hm. unfold frac_of. destruct nanos; [pose proof (Z.div_mod ns 1000000000); lia|].
  specialize (Hm eq_refl). pose proof (Z.div_mod ns 1000000000).
  assert ((ns mod 1000000000) mod 1000 = 0) as H0.
  { change 1000000000 with (1000 * 1000000). rewrite Z.rem_mul_r, Hm, Z.add_0_l, Z.mul_comm by lia. apply Z.mod_mul. lia. }
  pose proof (Z.div_mod (ns mod 1000000000) 1000). lia.
Qed.

Lemma packets_enc ps fuel le nanos port p prev ds skip :
  Forall (packet_ok nanos) ps → (length ps < fuel)%nat →
  packets fuel le nanos port (p ++ concat (enc_packet le nanos <$> ps)) (zlen p) prev ds skip
  = Ok (capture_of port ps prev ds skip).
Proof.
  intros Hp. revert fuel p prev ds skip. induction Hp as [|x ps (Ht & Hz & Hm) Hp IH];
    intros fuel p prev ds skip Hf; (destruct fuel as [|fuel]; [simpl in Hf; lia|]); cbn [packets].
  - simpl. rewrite app_nil_r. by replace (zlen p + 16 <=? zlen p) with false by lia.
  - change (concat (enc_packet le nanos <$> x :: ps)) with (enc_packet le nanos x ++ concat (enc_packet le nanos <$> ps)).
    set (t := concat _). unfold enc_packet.
    set (a := u32_enc le (p_ns x / 1000000000)). set (b := u32_enc le (frac_of nanos (p_ns x))).
    set (c := u32_enc le (zlen (p_frame x))). rewrite <- !app_assoc.
    assert (zlen a = 4 ∧ zlen b = 4 ∧ zlen c = 4) as (Ha & Hb & Hc) by (split_and!; apply u32_enc_len).
    pose proof (zlen_nonneg p). pose proof (zlen_nonneg (p_frame x)). pose proof (zlen_nonneg t).
    replace (_ <=? _) with true by (rewrite !zlen_app; lia).
    set (d := p ++ a ++ b ++ c ++ c ++ p_frame x ++ t).
    assert (u32_at le d (zlen p) = Ok (p_ns x / 1000000000)) as ->.
    { apply u32_at_enc; [done|]. split; [apply Z.div_pos|apply Z.div_lt_upper_bound]; lia. }
    assert (u32_at le d (zlen p + 4) = Ok (frac_of nanos (p_ns x))) as ->.
    { assert (d = (p ++ a) ++ b ++ (c ++ c ++ p_frame x ++ t)) as -> by (unfold d; by rewrite <- app_assoc).
      apply u32_at_enc; [rewrite zlen_app; lia|]. unfold frac_of. pose proof (Z.mod_pos_bound (p_ns x) 1000000000).
      destruct nanos; [lia|]. split; [apply Z.div_pos; lia|]. apply Z.div_lt_upper_bound; lia. }
    assert (u32_at le d (zlen p + 8) = Ok (zlen (p_frame x))) as ->.
    { assert (d = (p ++ a ++ b) ++ c ++ (c ++ p_frame x ++ t)) as -> by (unfold d; by rewrite <- !app_assoc).
      apply u32_at_enc; rewrite ?zlen_app; lia. }
    cbn [mbind res_bind]. unfold d. clear d.
    assert (p ++ a ++ b ++ c ++ c ++ p_frame x ++ t = (p ++ a ++ b ++ c ++ c) ++ p_frame x ++ t) as E3 by (by rewrite <- !app_assoc).
    rewrite E3. rewrite (get_range_app (p ++ a ++ b ++ c ++ c) (p_frame x)) by (rewrite ?zlen_app; lia).
    rewrite frac_time by (done || lia).
    assert (zlen p + 16 + zlen (p_frame x) = zlen ((p ++ a ++ b ++ c ++ c) ++ p_frame x)) as -> by (rewrite !zlen_app; lia).
    rewrite (app_assoc _ (p_frame x) t). cbn [capture_of].
    destruct (udp_payload_Ok (p_frame x) port) as [[u|] ->]; cbn [mbind res_bind];
      apply IH; simpl in Hf; lia.
Qed.

Lemma parse_pcap_enc le nanos mid ps port :
  zlen mid = 16 → Forall (packet_ok nanos) ps →
  parse_pcap (enc_pcap le nanos mid ps) port = Ok (capture_of port ps None [] 0).
Proof.
  intros Hm Hp. unfold enc_pcap. set (t := concat _).
  assert (zlen (magic_of le nanos) = 4) as Hmg by (by destruct le, nanos).
  assert (zlen (u32_enc le 1) = 4) as Hl1 by apply u32_enc_len.
  pose proof (zlen_nonneg t). unfold parse_pcap.
  replace (_ <? 24) with false by (rewrite !zlen_app; lia).
  rewrite (proj2 (slice_Ok _ 0 4 (magic_of le nanos))) by (by apply get_range_head). cbn [mbind res_bind].
  assert ((if le_val (magic_of le nanos) =? 0xa1b2c3d4 then Ok (true, false)
       else if le_val (magic_of le nanos) =? 0xa1b23c4d then Ok (true, true)
       else if be_val (magic_of le nanos) =? 0xa1b2c3d4 then Ok (false, false)
       else if be_val (magic_of le nanos) =? 0xa1b23c4d then Ok (false, true)
       else Err BadMagic) = Ok (le, nanos)) as -> by (destruct le, nanos; vm_compute; done).
  cbn [mbind res_bind]. rewrite (app_assoc (magic_of le nanos)).
  rewrite u32_at_enc by (rewrite ?zlen_app; lia). cbn [mbind res_bind]. change (negb (1 =? 1)) with false. cbv iota.
  rewrite (app_assoc (_ ++ mid)).
  replace 24 with (zlen ((magic_of le nanos ++ mid) ++ u32_enc le 1)) by (rewrite !zlen_app; lia).
  apply packets_enc; [done|]. rewrite length_app.
  assert (length ps ≤ length t)%nat; [|lia]. unfold t. clear. induction ps as [|x ps IH]; [done|].
  change (concat (enc_packet le nanos <$> x :: ps)) with (enc_packet le nanos x ++ concat (enc_packet le nanos <$> ps)).
  rewrite length_app. unfold enc_packet at 1. rewrite length_app.
  pose proof (u32_enc_len le (p_ns x / 1000000000)). unfold zlen in *. simpl length at 1. lia.
Qed.

(** * Properties *)

(** on any file the reader returns: no slice is out of range and both loops
    end. *)
Theorem parse_pcap_total data port : bytes_ok data → safe (parse_pcap data port).
Proof. apply parse_pcap_safe. Qed.

(** in either byte order and either timestamp resolution, a capture of any
    packets reads back as their UDP payloads in order, each with the time since
    the previous one, and the count of the other packets. *)
Theorem parse_pcap_roundtrip le nanos mid ps port :
  zlen mid = 16 → Forall (packet_ok nanos) ps →
  parse_pcap (enc_pcap le nanos mid ps) port = Ok (capture_of port ps None [] 0).
Proof. apply parse_pcap_enc. Qed.

Lemma div_nan {E} ns : div_f64 (E := E) ns S754_nan = Panic.
Proof. unfold div_f64, f_div. by destruct (as_secs_f64 ns) as [| | |]. Qed.

(** [open] refuses a non-positive speed with [<=], which a NaN passes; the
    first [recv] then panics in [Duration::div_f64]. *)
Theorem nan_speed_panics data loop_ port gap s cap :
  open data S754_nan loop_ port gap = Ok s → (recv cap s).2 = Panic.
Proof.
  unfold open. change (f_leb S754_nan f_zero) with false. cbv iota. intros H.
  apply bind_Ok in H as (c & _ & H). case_bool_decide as Hd; [done|]. injection H as <-. unfold recv. simpl.
  destruct (get_is_Some (datagrams c) 0) as [d Hg].
  { pose proof (zlen_nonneg (datagrams c)). lia. }
  rewrite Hg. simpl. by rewrite div_nan.
Qed.

(** * Witnesses *)

(** An Ethernet frame with an IPv4/UDP datagram to port 5000 carrying [9; 8]. *)
Definition ex_frame : bytes :=
  replicate 12 1 ++ [0x08; 0x00] ++ [0x45] ++ replicate 8 0 ++ [17] ++ replicate 10 0
  ++ [0; 7; 0x13; 0x88; 0; 10; 0; 0; 9; 8].
Definition ex_packets : list Packet :=
  [mkPacket 1000000000 ex_frame; mkPacket 1000500000 [1; 2]; mkPacket 1002000000 ex_frame].

Lemma ex_packets_ok : Forall (packet_ok false) ex_packets.
Proof.
  apply Forall_forall. intros p Hin. unfold ex_packets in Hin. rewrite !elem_of_cons, elem_of_nil in Hin.
  destruct Hin as [->|[->|[->|[]]]]; vm_compute; done.
Qed.

Lemma parse_pcap_total_witness : safe (parse_pcap [1; 2; 3] None).
Proof. apply parse_pcap_total. apply bytes_okb_ok. reflexivity. Defined.

Lemma parse_pcap_roundtrip_witness :
  parse_pcap (enc_pcap true false (replicate 16 0) ex_packets) (Some 5000)
  = Ok (mkCapture [mkDatagram 0 [9; 8]; mkDatagram 2000000 [9; 8]] 1).
Proof. rewrite parse_pcap_roundtrip; [vm_compute; reflexivity|reflexivity|exact ex_packets_ok]. Defined.

Lemma nan_speed_panics_witness :
  ∃ s, open (enc_pcap true false (replicate 16 0) ex_packets) S754_nan false None 1000 = Ok s
    ∧ (recv 100 s).2 = Panic.
Proof.
  eexists. split; [vm_compute; reflexivity|].
  apply (nan_speed_panics (enc_pcap true false (replicate 16 0) ex_packets) false None 1000).
  vm_compute. reflexivity.
Defined.
