(* ===== verification/AisBits.v ===== *)
(** The AIS payload reader and the per-vessel caches
    (rust/connectors/ais-nmea/src/ais/bits.rs, cache.rs). *)
From Stdlib Require Import ZArith Lia.
From Stdlib Require Import Strings.String.
From S2P Require Export Parser Cache.

Local Open Scope Z_scope.

(** @src rust/connectors/ais-nmea/src/ais.rs 26-42 AisError *)
Inductive AisError :=
| NotAscii
| NotNmea
| Checksum
| Fields
| Armor (c : Z)
| Truncated
| Build (e : BuildError).

(** * Bits *)

(** @src rust/connectors/ais-nmea/src/ais/bits.rs 6-8 SIXBIT_ASCII *)
Definition SIXBIT_ASCII : bytes :=
  s2b "@ABCDEFGHIJKLMNOPQRSTUVWXYZ[\]^_ !" ++ [34] ++ s2b "#$%&'()*+,-./0123456789:;<=>?".

(** @src rust/connectors/ais-nmea/src/ais/bits.rs 10-13 Bits *)
Record Bits := mkBits { six : list Z; valid_bits : Z }.

(** One armored character. *)
Definition unarmor (c : Z) : res AisError Z :=
  let v := c - 48 in
  let v := if 40 <? v then v - 8 else v in
  if (0 <=? v) && (v <=? 63) then Ok v else Err (Armor c).

Fixpoint unarmor_all (l : bytes) : res AisError (list Z) :=
  match l with
  | [] => Ok []
  | c :: l => v ← unarmor c; vs ← unarmor_all l; Ok (v :: vs)
  end.

(** @src rust/connectors/ais-nmea/src/ais/bits.rs 16-30 Bits::from_payload *)
Definition from_payload (payload : bytes) (fill : Z) : res AisError Bits :=
  s ← unarmor_all payload;
  Ok (mkBits s (Z.max 0 (zlen s * 6 - fill))).

(** The loop of [u] over the bits [start + i]. *)
Fixpoint bits_loop (n : nat) (s : list Z) (bit val : Z) : res AisError Z :=
  match n with
  | O => Ok val
  | S n =>
      x ← idx s (bit / 6);
      let b := Z.land (Z.shiftr x (5 - bit mod 6)) 1 in
      bits_loop n s (bit + 1) (wrap 64 (Z.lor (Z.shiftl val 1) b))
  end.

(** @src rust/connectors/ais-nmea/src/ais/bits.rs 32-40 Bits::u *)
Definition u (b : Bits) (start : Z) (n : nat) : res AisError Z := bits_loop n (six b) start 0.

(** @src rust/connectors/ais-nmea/src/ais/bits.rs 42-45 Bits::opt_u *)
Definition opt_u (b : Bits) (start : Z) (n : nat) : res AisError (option Z) :=
  if start + Z.of_nat n <=? valid_bits b then Some <$> u b start n else Ok None.

(** @src rust/connectors/ais-nmea/src/ais/bits.rs 47-55 Bits::opt_i *)
Definition opt_i (b : Bits) (start : Z) (n : nat) : res AisError (option Z) :=
  o ← opt_u b start n;
  Ok (match o with
      | Some x =>
          Some (if negb (Z.land x (Z.shiftl 1 (Z.of_nat n - 1)) =? 0) then x - Z.shiftl 1 (Z.of_nat n) else x)
      | None => None
      end).

Fixpoint text_loop (n : nat) (b : Bits) (start : Z) : res AisError bytes :=
  match n with
  | O => Ok []
  | S n =>
      v ← u b start 6;
      c ← idx SIXBIT_ASCII v;
      rest ← text_loop n b (start + 6);
      Ok (c :: rest)
  end.

(** @src rust/connectors/ais-nmea/src/ais/bits.rs 57-70 Bits::opt_text *)
Definition opt_text (b : Bits) (start : Z) (n : nat) : res AisError (option string) :=
  if valid_bits b <? start + Z.of_nat n then Ok None
  else
    s ← text_loop (n / 6) b start;
    let s := trim (trim_end_matches (Z.eqb 64) s) in
    Ok (if bool_decide (s = []) then None else Some (b2s s)).

(** ** What a field read means *)

(** The payload as one number, most significant bit first. *)
Definition payload_val (s : list Z) : Z := fold_left (λ a v, a * 64 + v) s 0.

(** The [n] bits at [start] of the payload's [6 * length] bits. *)
Definition field (s : list Z) (start : Z) (n : nat) : Z :=
  (payload_val s / 2 ^ (6 * zlen s - start - Z.of_nat n)) mod 2 ^ Z.of_nat n.

Definition six_ok (s : list Z) : Prop := Forall (λ v, 0 ≤ v < 64) s.

Lemma payload_val_fold s a : fold_left (λ a v, a * 64 + v) s a = a * 2 ^ (6 * zlen s) + payload_val s.
Proof.
  unfold payload_val. revert a. induction s as [|v s IH]; intros a; simpl.
  - change (zlen (@nil Z)) with 0. change (2 ^ (6 * 0)) with 1. lia.
  - rewrite IH, (IH (0 * 64 + v)), zlen_cons. replace (6 * (1 + zlen s)) with (6 + 6 * zlen s) by lia.
    rewrite Z.pow_add_r by (pose proof (zlen_nonneg s); lia). change (2 ^ 6) with 64. ring.
Qed.

Lemma payload_val_app s t : payload_val (s ++ t) = payload_val s * 2 ^ (6 * zlen t) + payload_val t.
Proof. unfold payload_val at 1. by rewrite fold_left_app, payload_val_fold. Qed.

Lemma payload_val_range s : six_ok s → 0 ≤ payload_val s < 2 ^ (6 * zlen s).
Proof.
  induction 1 as [|v s Hv Hs IH]; [done|].
  change (v :: s) with ([v] ++ s). rewrite payload_val_app, zlen_app. change (zlen [v]) with 1.
  change (payload_val [v]) with (0 * 64 + v).
  replace (6 * (1 + zlen s)) with (6 + 6 * zlen s) by lia.
  rewrite Z.pow_add_r by (pose proof (zlen_nonneg s); lia). change (2 ^ 6) with 64. nia.
Qed.

(** One bit of the payload is one bit of one character. *)
Lemma payload_bit s bit v :
  six_ok s → 0 ≤ bit < 6 * zlen s → s !! Z.to_nat (bit / 6) = Some v →
  Z.testbit (payload_val s) (6 * zlen s - 1 - bit) = Z.testbit v (5 - bit mod 6).
Proof.
  intros Hs Hb Hl. pose proof (Z.div_mod bit 6 ltac:(lia)) as Hdm. pose proof (Z.mod_pos_bound bit 6 ltac:(lia)).
  assert (0 ≤ bit / 6) by (apply Z.div_pos; lia).
  rewrite <- (take_drop_middle _ _ _ Hl) at 1.
  set (p := take (Z.to_nat (bit / 6)) s). set (t := drop (S (Z.to_nat (bit / 6))) s).
  assert (zlen p = bit / 6) as Hp.
  { apply lookup_lt_Some in Hl. unfold p, zlen in *. rewrite length_take. lia. }
  assert (zlen t = zlen s - bit / 6 - 1) as Ht.
  { apply lookup_lt_Some in Hl. unfold t, zlen in *. rewrite length_drop. lia. }
  assert (six_ok t) as Hst by (by apply Forall_drop).
  change (v :: t) with ([v] ++ t). rewrite app_assoc, !payload_val_app. change (zlen [v]) with 1.
  change (payload_val [v]) with (0 * 64 + v). pose proof (payload_val_range t Hst) as Hr.
  rewrite <- lor_shiftl by lia. rewrite Z.lor_spec, Z.shiftl_spec by lia.
  rewrite (testbit_high (payload_val t) (6 * zlen t)) by lia. rewrite orb_false_r.
  change (2 ^ (6 * 1)) with (2 ^ 6).
  assert (0 ≤ v < 64) by (unfold six_ok in Hs; rewrite Forall_lookup in Hs; eauto).
  rewrite <- lor_shiftl by (change (2 ^ 6) with 64; lia). rewrite Z.lor_spec, Z.shiftl_spec by lia.
  rewrite (Z.testbit_neg_r (payload_val p)) by lia. cbn [orb].
  rewrite Z.mul_0_l, Z.add_0_l. f_equal. lia.
Qed.

Lemma land_1_testbit x k : 0 ≤ k → Z.land (Z.shiftr x k) 1 = Z.b2z (Z.testbit x k).
Proof.
  intros Hk. change 1 with (2 ^ 1 - 1). rewrite land_mask by lia. change (2 ^ 1) with 2.
  by rewrite Z.shiftr_div_pow2, Z.testbit_spec' by lia.
Qed.

(** Appending the next bit to a field. *)
Lemma field_succ s start n :
  six_ok s → 0 ≤ start → start + Z.of_nat (S n) ≤ 6 * zlen s →
  field s start (S n)
  = 2 * field s start n + Z.b2z (Z.testbit (payload_val s) (6 * zlen s - start - Z.of_nat (S n))).
Proof.
  intros Hs Hst Hn. unfold field. set (k := 6 * zlen s - start - Z.of_nat (S n)).
  replace (6 * zlen s - start - Z.of_nat n) with (k + 1) by lia.
  rewrite Z.pow_add_r by lia. rewrite <- Z.div_div by lia. change (2 ^ 1) with 2.
  set (q := payload_val s / 2 ^ k). rewrite Nat2Z.inj_succ, Z.pow_succ_r by lia.
  rewrite Z.rem_mul_r by lia. rewrite Z.testbit_spec' by lia. fold q. lia.
Qed.

Lemma field_range s start n : 0 ≤ field s start n < 2 ^ Z.of_nat n.
Proof. apply Z.mod_pos_bound. lia. Qed.

(** Consecutive fields concatenate. *)
Lemma bits_loop_spec n m s start :
  six_ok s → 0 ≤ start → start + Z.of_nat m + Z.of_nat n ≤ 6 * zlen s → (m + n <= 64)%nat →
  bits_loop n s (start + Z.of_nat m) (field s start m) = Ok (field s start (m + n)).
Proof.
  intros Hs Hst. revert m. induction n as [|n IH]; intros m Hn Hm; cbn [bits_loop].
  - by rewrite Nat.add_0_r.
  - set (bit := start + Z.of_nat m). assert (0 ≤ bit / 6 < zlen s) as Hd.
    { split; [apply Z.div_pos; lia|apply Z.div_lt_upper_bound; lia]. }
    destruct (lookup_lt_is_Some_2 s (Z.to_nat (bit / 6))) as [v Hv]; [unfold zlen in Hd; lia|].
    rewrite (proj2 (idx_Ok s (bit / 6) v)) by done. cbn [mbind res_bind].
    pose proof (Z.mod_pos_bound bit 6 ltac:(lia)).
    rewrite land_1_testbit by lia. rewrite <- (payload_bit s bit v) by (done || lia).
    pose proof (field_range s start m).
    assert (wrap 64 (Z.lor (Z.shiftl (field s start m) 1)
      (Z.b2z (Z.testbit (payload_val s) (6 * zlen s - 1 - bit)))) = field s start (S m)) as ->.
    { rewrite field_succ by (done || lia). replace (6 * zlen s - start - Z.of_nat (S m)) with (6 * zlen s - 1 - bit) by lia.
      rewrite lor_shiftl by (try lia; destruct (Z.testbit _ _); simpl; lia). change (2 ^ 1) with 2.
      rewrite wrap_small; [lia|]. assert (2 ^ Z.of_nat m ≤ 2 ^ 63) by (apply Z.pow_le_mono_r; lia).
      destruct (Z.testbit _ _); simpl; lia. }
    replace (bit + 1) with (start + Z.of_nat (S m)) by lia. rewrite IH by lia. do 2 f_equal. lia.
Qed.

Lemma u_spec b start n :
  six_ok (six b) → 0 ≤ start → start + Z.of_nat n ≤ 6 * zlen (six b) → (n <= 64)%nat →
  u b start n = Ok (field (six b) start n).
Proof.
  intros. unfold u. pose proof (bits_loop_spec n 0 (six b) start) as H'.
  rewrite Z.add_0_r in H'. change (0 + n)%nat with n in H'.
  assert (field (six b) start 0 = 0) as E by (unfold field; apply Z.mod_1_r).
  rewrite E in H'. apply H'; [done|done|lia|done].
Qed.

Definition bits_ok (b : Bits) : Prop := six_ok (six b) ∧ valid_bits b ≤ 6 * zlen (six b).

Lemma unarmor_all_spec l :
  match unarmor_all l with
  | Ok s => six_ok s ∧ length s = length l
  | Err _ => True
  | _ => False
  end.
Proof.
  induction l as [|c l IH]; simpl; [by split; [constructor|]|].
  unfold unarmor. cbn zeta. set (v := if 40 <? c - 48 then _ else _).
  destruct ((0 <=? v) && (v <=? 63)) eqn:Hv; [|done]. cbn [mbind res_bind].
  destruct (unarmor_all l) as [s| | |]; try done. destruct IH as [? ?]. simpl. split; [|lia].
  constructor; [lia|done].
Qed.

Lemma from_payload_spec payload fill :
  0 ≤ fill →
  match from_payload payload fill with Ok b => bits_ok b | Err _ => True | _ => False end.
Proof.
  intros Hf. unfold from_payload. pose proof (unarmor_all_spec payload) as H.
  destruct (unarmor_all payload) as [s| | |]; try done. destruct H as [Hs _]. split; [done|]. simpl.
  pose proof (zlen_nonneg s). lia.
Qed.

Lemma opt_u_spec b start n :
  bits_ok b → 0 ≤ start → (n <= 64)%nat →
  opt_u b start n
  = Ok (if start + Z.of_nat n <=? valid_bits b then Some (field (six b) start n) else None).
Proof.
  intros [Hs Hv] Hst Hn. unfold opt_u. destruct (Z.leb_spec (start + Z.of_nat n) (valid_bits b)); [|done].
  by rewrite u_spec by (done || lia).
Qed.

(** The two's complement reading of a field. *)
Lemma sign_bit x n : (0 < n)%nat → 0 ≤ x < 2 ^ Z.of_nat n →
  (if negb (Z.land x (Z.shiftl 1 (Z.of_nat n - 1)) =? 0) then x - Z.shiftl 1 (Z.of_nat n) else x)
  = to_signed (Z.of_nat n) x.
Proof.
  intros Hn Hx. rewrite !Z.shiftl_mul_pow2, !Z.mul_1_l by lia. unfold to_signed.
  set (k := Z.of_nat n - 1). assert (2 ^ Z.of_nat n = 2 * 2 ^ k) as E.
  { rewrite <- Z.pow_succ_r by lia. f_equal. lia. }
  destruct (Z.ltb_spec x (2 ^ k)) as [Hlt|Hge].
  - by rewrite land_pow2_low by lia.
  - assert (Z.land x (2 ^ k) ≠ 0) as Hne; [|by apply Z.eqb_neq in Hne as ->].
    intros H0. assert (Z.testbit (Z.land x (2 ^ k)) k = true) as Ht; [|by rewrite H0, Z.bits_0 in Ht].
    rewrite Z.land_spec, Z.pow2_bits_true, andb_true_r by lia.
    apply Z.testbit_true; [lia|]. replace (x / 2 ^ k) with 1; [done|].
    apply Z.div_unique with (x - 2 ^ k); lia.
Qed.

Lemma opt_i_spec b start n :
  bits_ok b → 0 ≤ start → (0 < n <= 64)%nat →
  opt_i b start n
  = Ok (if start + Z.of_nat n <=? valid_bits b
        then Some (to_signed (Z.of_nat n) (field (six b) start n)) else None).
Proof.
  intros Hb Hst Hn. unfold opt_i. rewrite opt_u_spec by (done || lia). cbn [mbind res_bind].
  destruct (_ <=? _); [|done]. simpl. do 2 f_equal. apply sign_bit; [lia|apply field_range].
Qed.

Lemma text_loop_total n b start :
  six_ok (six b) → 0 ≤ start → start + 6 * Z.of_nat n ≤ 6 * zlen (six b) → ∃ t, text_loop n b start = Ok t.
Proof.
  intros Hs. revert start. induction n as [|n IH]; intros start Hst Hn; [by eexists|]. cbn [text_loop].
  rewrite u_spec by (done || lia). cbn [mbind res_bind].
  pose proof (field_range (six b) start 6).
  destruct (get_is_Some SIXBIT_ASCII (field (six b) start 6)) as [c Hc]; [by change (zlen SIXBIT_ASCII) with (2 ^ Z.of_nat 6)|].
  unfold idx. rewrite Hc. cbn [or_panic mbind res_bind].
  destruct (IH (start + 6)) as [t ->]; [lia..|]. by eexists.
Qed.

Lemma opt_text_total b start n : bits_ok b → 0 ≤ start → ∃ t, opt_text b start n = Ok t.
Proof.
  intros [Hs Hv] Hst. unfold opt_text. destruct (Z.ltb_spec (valid_bits b) (start + Z.of_nat n)); [by eexists|].
  destruct (text_loop_total (n / 6) b start) as [t ->]; [done|done| |by eexists].
  pose proof (Nat.Div0.mul_div_le n 6). lia.
Qed.

(** * Per-vessel caches *)

(** @src rust/connectors/ais-nmea/src/ais/cache.rs 7-11 MAX_VESSELS MAX_PENDING_FRAMES MAX_PENDING_BYTES *)
Definition MAX_VESSELS : Z := 10000.
Definition MAX_PENDING_FRAMES : Z := 64.
Definition MAX_PENDING_BYTES : Z := 16 * 1024.

(** @src rust/connectors/ais-nmea/src/ais/cache.rs 13-20 Identity *)
Record Identity := mkIdentity {
  name : option string;
  callsign : option string;
  ship_type : option string;
  imo : option Z
}.
Definition no_identity : Identity := mkIdentity None None None None.

(** @src rust/connectors/ais-nmea/src/ais/cache.rs 22-26 MmsiCache *)
Definition MmsiCache (V : Type) : Type := Cache Z V.

(** @src rust/connectors/ais-nmea/src/ais/cache.rs 29-31 MmsiCache::get *)
Definition cache_get {V} (c : MmsiCache V) (mmsi : Z) : option V := cmap c !! mmsi.

(** @src rust/connectors/ais-nmea/src/ais/cache.rs 33-43 MmsiCache::entry *)
Definition entry {V} (d : V) (mmsi : Z) (c : MmsiCache V) : MmsiCache V * V := cache_entry MAX_VESSELS d mmsi c.

(** @src rust/connectors/ais-nmea/src/ais/cache.rs 46-52 Carry *)
Record Carry := mkCarry { pending : list bytes; pending_bytes : Z; dropped_since_emit : bool }.
Definition no_carry : Carry := mkCarry [] 0 false.

(** @src rust/connectors/ais-nmea/src/ais/cache.rs 54-69 Carry::push_raw *)
Definition push_raw (c : Carry) (raw : bytes) : Carry * Z :=
  let '(pend, n, flag, dropped) :=
    shed MAX_PENDING_FRAMES MAX_PENDING_BYTES (pending c ++ [raw]) (pending_bytes c + zlen raw)
      (dropped_since_emit c) 0 in
  (mkCarry pend n flag, dropped).

(** [join(&b'\n')]. *)
Fixpoint join (ls : list bytes) : bytes :=
  match ls with
  | [] => []
  | [l] => l
  | l :: ls => l ++ 10 :: join ls
  end.

(** @src rust/connectors/ais-nmea/src/ais/cache.rs 71-80 Carry::drain_with *)
Definition drain_with (c : Carry) (tail : list bytes) : Carry * (bytes * bool) :=
  (no_carry, (join (pending c ++ tail), dropped_since_emit c)).

Abbreviation vessels_ok := (cache_ok MAX_VESSELS).

Lemma no_vessels_ok {V} : vessels_ok (empty_cache (K := Z) (V := V)).
Proof. by apply empty_cache_ok. Qed.

Lemma entry_ok {V} (d : V) mmsi c :
  vessels_ok c →
  vessels_ok (entry d mmsi c).1 ∧ (entry d mmsi c).2 = default d (cmap c !! mmsi)
  ∧ cmap (entry d mmsi c).1 !! mmsi = Some (default d (cmap c !! mmsi)).
Proof. by apply cache_entry_ok. Qed.

Lemma vessels_put_ok {V} (d v : V) mmsi c : vessels_ok c → vessels_ok (put mmsi v (entry d mmsi c).1).
Proof. by apply entry_put_ok. Qed.

(** ** The carry *)

Definition carry_ok (c : Carry) : Prop :=
  carried_ok MAX_PENDING_FRAMES MAX_PENDING_BYTES (pending c) (pending_bytes c).

Lemma push_raw_spec c raw :
  carry_ok c →
  let '(c', k) := push_raw c raw in
  carry_ok c' ∧ 0 ≤ k ∧ pending c ++ [raw] = take (Z.to_nat k) (pending c ++ [raw]) ++ pending c'
  ∧ dropped_since_emit c' = dropped_since_emit c || (0 <? k).
Proof.
  intros (Hb & _ & _). unfold push_raw.
  pose proof (shed_spec MAX_PENDING_FRAMES MAX_PENDING_BYTES (pending c ++ [raw]) (pending_bytes c + zlen raw)
    (dropped_since_emit c) 0) as H.
  destruct (shed _ _ _ _ _ _) as [[[p n] f] k]. rewrite Z.sub_0_r in H. apply H; try done.
  rewrite total_bytes_app, Hb. change (total_bytes [raw]) with (zlen raw + 0). lia.
Qed.

Lemma no_carry_ok : carry_ok no_carry.
Proof. by split_and!. Qed.
