(* ===== verification/Ttm.v ===== *)
(** ARPA radar targets on the NMEA bus (rust/connectors/ais-nmea/src/ttm.rs).
    [sin], [cos], [asin] and [atan2] are of unspecified precision in Rust:
    parameters. Fields are UTF-8 text. *)
From Stdlib Require Import ZArith Lia.
From Stdlib Require Import Strings.String.
From S2P Require Export AisBits.

Local Open Scope Z_scope.

(** @src rust/connectors/ais-nmea/src/ttm.rs 16-20 KNOTS_TO_MPS NM_TO_M EARTH_RADIUS_M FIX_MAX_AGE *)
Definition KNOTS_TO_MPS : f64 := f_ratio 514444 1000000.
Definition NM_TO_M : f64 := f_of_Z 1852.
Definition EARTH_RADIUS_M : f64 := f_of_Z 6371000.
Definition FIX_MAX_AGE : Z := 60 * 1000000000.

(** @src rust/connectors/ais-nmea/src/ttm.rs 22-27 OwnFix *)
Record OwnFix := mkFix { fix_lat : f64; fix_lon : f64; fix_at : Z }.

(** @src rust/connectors/ais-nmea/src/ttm.rs 29-35 TtmState *)
Record TtmState := mkTtm { own_fix : option OwnFix; site : option (f64 * f64); non_tracking : Z }.

(** @src rust/connectors/ais-nmea/src/ttm.rs 37-55 RadarTarget *)
Record RadarTarget := mkTarget {
  number : bytes;
  position : option (f64 * f64);
  range_m : f64;
  bearing_deg : option f64;
  speed_mps : option f64;
  course_deg : option f64;
  rt_name : option bytes;
  cpa_m : option f64;
  tcpa_min : option f64;
  rt_raw : bytes
}.

(** @src rust/connectors/ais-nmea/src/ttm.rs 58-64 TtmState::new *)
Definition ttm_new (s : option (f64 * f64)) : TtmState := mkTtm None s 0.

(** @src rust/connectors/ais-nmea/src/ttm.rs 66-72 TtmState::wants *)
Definition wants (sentence : bytes) : bool :=
  let star := default (zlen sentence) (find_byte 42 sentence) in
  let talker := default [] (head (split_on 44 (take (Z.to_nat star) sentence))) in
  (3 <=? zlen talker)
  && (ends_with (s2b "TTM") talker || ends_with (s2b "GGA") talker || ends_with (s2b "RMC") talker).

(** @src rust/connectors/ais-nmea/src/ttm.rs 190-206 parse_coord *)
Definition parse_coord (value hemi : option bytes) : res AisError (option f64) :=
  match value, hemi with
  | Some v, Some h =>
      let v := trim v in
      let h := trim h in
      if zlen v <? 3 then Ok None
      else
        let split := Z.max 0 (default (zlen v) (find_byte 46 v) - 2) in
        d ← str_slice v 0 split;
        m ← str_slice v split (zlen v);
        Ok (degrees ← parse_f64 d;
            minutes ← parse_f64 m;
            let dd := f_add degrees (f_div minutes (f_of_Z 60)) in
            if bool_decide (h = s2b "N") || bool_decide (h = s2b "E") then Some dd
            else if bool_decide (h = s2b "S") || bool_decide (h = s2b "W") then Some (f_neg dd)
            else None)
  | _, _ => Ok None
  end.

Section ttm.
Variables sin cos asin : f64 → f64.
Variable atan2 : f64 → f64 → f64.

(** @src rust/connectors/ais-nmea/src/ttm.rs 179-188 forward *)
Definition forward (lat lon bearing distance_m : f64) : f64 * f64 :=
  let phi1 := to_radians lat in
  let lam1 := to_radians lon in
  let theta := to_radians bearing in
  let delta := f_div distance_m EARTH_RADIUS_M in
  let phi2 := asin (f_add (f_mul (sin phi1) (cos delta))
                          (f_mul (f_mul (cos phi1) (sin delta)) (cos theta))) in
  let lam2 := f_add lam1 (atan2 (f_mul (f_mul (sin theta) (sin delta)) (cos phi1))
                                (f_sub (cos delta) (f_mul (sin phi1) (sin phi2)))) in
  (to_degrees phi2, to_degrees lam2).

(** @src rust/connectors/ais-nmea/src/ttm.rs 100-108 TtmState::observer *)
Definition observer (clock : Z) (s : TtmState) : option (f64 * f64) :=
  match own_fix s with
  | Some f => if clock - fix_at f <=? FIX_MAX_AGE then Some (fix_lat f, fix_lon f) else site s
  | None => site s
  end.

Definition in_circle (o : option f64) : option f64 :=
  match o with Some x => if in_range f_zero (f_of_Z 360) x then Some x else None | None => None end.

(** @src rust/connectors/ais-nmea/src/ttm.rs 110-176 TtmState::decode_ttm *)
Definition decode_ttm (clock : Z) (s : TtmState) (f : list bytes) (raw : bytes) :
    TtmState * res AisError (option RadarTarget) :=
  if zlen f <? 13 then (s, Err Fields)
  else
    let fld (i : Z) : res AisError bytes := idx f i in
    match fld 12 with
    | Ok status =>
        if negb (bool_decide (status = s2b "T")) then
          (mkTtm (own_fix s) (site s) (fetch_add (non_tracking s) 1), Ok None)
        else
          (s,
           n ← fld 1;
           let number := trim n in
           if bool_decide (number = []) then Err Fields
           else
             let unit_ := default (s2b "N") (get f 10) in
             let '(dist_to_m, speed_to_mps) :=
               if bool_decide (unit_ = s2b "K") then (f_of_Z 1000, f_div (f_of_Z 1) (f_ratio 36 10))
               else if bool_decide (unit_ = s2b "S") then (f_ratio 1609344 1000, f_ratio 44704 100000)
               else (NM_TO_M, KNOTS_TO_MPS) in
             f2 ← fld 2; f3 ← fld 3; f4 ← fld 4; f5 ← fld 5; f6 ← fld 6; f7 ← fld 7; f8 ← fld 8; f9 ← fld 9;
             match parse_f64 f2 with
             | Some d =>
                 if f_leb f_zero d then
                   let range_m := f_mul d dist_to_m in
                   let bearing_true := bool_decide (f4 = s2b "T") in
                   let bearing := in_circle (parse_f64 f3) in
                   let speed := (λ x, f_mul x speed_to_mps) <$> parse_f64 f5 in
                   let course := if bool_decide (f7 = s2b "T") then in_circle (parse_f64 f6) else None in
                   let cpa := (λ x, f_mul x dist_to_m) <$> parse_f64 f8 in
                   let tcpa := parse_f64 f9 in
                   let nm := match trim <$> get f 11 with Some [] | None => None | Some x => Some x end in
                   let pos := match bearing_true, bearing, observer clock s with
                              | true, Some brg, Some (lat, lon) => Some (forward lat lon brg range_m)
                              | _, _, _ => None
                              end in
                   Ok (Some (mkTarget number pos range_m bearing speed course nm cpa tcpa raw))
                 else Err Fields
             | None => Err Fields
             end)
    | _ => (s, Panic)
    end.

(** @src rust/connectors/ais-nmea/src/ttm.rs 74-98 TtmState::handle *)
Definition handle (clock : Z) (s : TtmState) (f : list bytes) (raw : bytes) :
    TtmState * res AisError (option RadarTarget) :=
  match head f with
  | None => (s, Panic)
  | Some f0 =>
      let fix_ (valid : bool) (lat_at : Z) : TtmState * res AisError (option RadarTarget) :=
        if valid then
          match parse_coord (get f lat_at) (get f (lat_at + 1)),
                parse_coord (get f (lat_at + 2)) (get f (lat_at + 3)) with
          | Ok (Some lat), Ok (Some lon) =>
              (mkTtm (Some (mkFix lat lon clock)) (site s) (non_tracking s), Ok None)
          | Ok _, Ok _ => (s, Ok None)
          | Panic, _ | _, Panic => (s, Panic)
          | _, _ => (s, NoFuel)
          end
        else (s, Ok None) in
      if ends_with (s2b "GGA") f0 then
        fix_ ((7 <=? zlen f) && negb (bool_decide (get f 6 = Some (s2b "0")))) 2
      else if ends_with (s2b "RMC") f0 then
        fix_ ((7 <=? zlen f) && bool_decide (get f 2 = Some (s2b "A"))) 3
      else decode_ttm clock s f raw
  end.
End ttm.

(** @src rust/connectors/ais-nmea/src/ttm.rs 208-247 to_event *)
Definition target_event (env : Env) (src : string) (en : Enrichment) (t : RadarTarget) :
    res BuildError Event :=
  let b := builder_new src "mim:object" in
  let b := set_payload (rt_raw t) (now env (new_id env b)) in
  let b := add_metadata "source_uid" ("arpa-" +:+ b2s (number t)) b in
  let b := add_metadata "target_number" (b2s (number t)) b in
  let b := add_metadata "range_m" (fmt_fixed 0 (range_m t)) b in
  let b := attribute "environment" "SURFACE" b in
  let b := on_some (position t) (λ p, set_location p.1 p.2 f_zero) b in
  let b := on_some (bearing_deg t) (λ x, add_metadata "bearing_deg" (fmt_fixed 1 x)) b in
  let b := on_some (speed_mps t) (λ x, attribute "speed" (fmt_fixed 2 x)) b in
  let b := on_some (course_deg t) (λ x, attribute "course" (fmt_fixed 1 x)) b in
  let b := on_some (rt_name t) (λ n, attribute "callsign" (b2s n)) b in
  let b := on_some (cpa_m t) (λ x, add_metadata "cpa_m" (fmt_fixed 0 x)) b in
  let b := on_some (tcpa_min t) (λ x, add_metadata "tcpa_min" (fmt_fixed 1 x)) b in
  let b := on_some (hostility en) (attribute "hostility") b in
  build b.

(** * ASCII fields never panic *)

Definition ascii_text (l : bytes) : Prop := Forall (λ b, 0 ≤ b < 128) l.

Lemma ascii_trim l : ascii_text l → ascii_text (trim l).
Proof.
  intros H. destruct (trim_infix l) as (k & m & E). rewrite E in H.
  unfold ascii_text in *. by rewrite !Forall_app in H; destruct H as (? & ? & ?).
Qed.

Lemma str_slice_safe {E} l a b : ascii_text l → 0 ≤ a ≤ b → b ≤ zlen l → safe (str_slice (E := E) l a b).
Proof.
  intros Hl Ha Hb. unfold str_slice. rewrite !char_boundary_all_ascii by (done || lia). by apply safe_slice.
Qed.

Lemma parse_coord_safe value hemi :
  (∀ v, value = Some v → ascii_text v) →
  ∃ o, parse_coord value hemi = Ok o.
Proof.
  intros Hv. unfold parse_coord. destruct value as [v|]; [|by eexists]. destruct hemi as [h|]; [|by eexists].
  specialize (Hv v eq_refl). apply ascii_trim in Hv. set (t := trim v) in *.
  destruct (Z.ltb_spec (zlen t) 3); [by eexists|].
  assert (0 ≤ Z.max 0 (default (zlen t) (find_byte 46 t) - 2) ≤ zlen t) as Hs.
  { destruct (find_byte 46 t) as [k|] eqn:Hk; simpl; [apply find_byte_Some in Hk|]; lia. }
  assert (∀ a b, 0 ≤ a ≤ b → b ≤ zlen t → ∃ x, str_slice (E := AisError) t a b = Ok x) as Hx.
  { intros a b Ha Hb. unfold str_slice. rewrite !char_boundary_all_ascii by (done || lia).
    destruct (get_range_is_Some t a b) as [x Hr]; [lia..|]. exists x. by apply slice_Ok. }
  destruct (Hx 0 (Z.max 0 (default (zlen t) (find_byte 46 t) - 2))) as [d ->]; [lia..|].
  destruct (Hx (Z.max 0 (default (zlen t) (find_byte 46 t) - 2)) (zlen t)) as [m ->]; [lia..|].
  cbn [mbind res_bind]. by eexists.
Qed.

Lemma decode_ttm_safe sin cos asin atan2 clock s f raw :
  safe (decode_ttm sin cos asin atan2 clock s f raw).2.
Proof.
  unfold decode_ttm. destruct (Z.ltb_spec (zlen f) 13); [done|].
  assert (∀ i, 0 ≤ i < 13 → ∃ x, idx (E := AisError) f i = Ok x) as Hx.
  { intros i Hi. destruct (get_is_Some f i) as [x Hg]; [lia|]. exists x. unfold idx. by rewrite Hg. }
  destruct (Hx 12) as [x12 ->]; [lia|]. case_in_goal; [done|]. cbn [snd].
  destruct (Hx 1) as [x1 ->]; [lia|]. cbn [mbind res_bind].
  destruct (bool_decide (trim x1 = [])); [done|].
  match goal with |- context [let '(a, b) := ?p in _] => destruct p as [dm sm] end.
  destruct (Hx 2) as [x2 ->]; [lia|]. destruct (Hx 3) as [x3 ->]; [lia|].
  destruct (Hx 4) as [x4 ->]; [lia|]. destruct (Hx 5) as [x5 ->]; [lia|].
  destruct (Hx 6) as [x6 ->]; [lia|]. destruct (Hx 7) as [x7 ->]; [lia|].
  destruct (Hx 8) as [x8 ->]; [lia|]. destruct (Hx 9) as [x9 ->]; [lia|]. cbn [mbind res_bind].
  destruct (parse_f64 x2); [|done]. by destruct (f_leb f_zero _).
Qed.

Lemma handle_safe sin cos asin atan2 clock s f raw :
  f ≠ [] → Forall ascii_text f → safe (handle sin cos asin atan2 clock s f raw).2.
Proof.
  intros Hf Ha. unfold handle. destruct (head f) as [f0|] eqn:Hh; [|by destruct f].
  assert (∀ i v, get f i = Some v → ascii_text v) as Hg.
  { intros i v [_ Hv]%get_Some. rewrite Forall_lookup in Ha. eauto. }
  assert (∀ n, safe (match parse_coord (get f n) (get f (n + 1)), parse_coord (get f (n + 2)) (get f (n + 3)) with
    | Ok (Some lat), Ok (Some lon) => (mkTtm (Some (mkFix lat lon clock)) (site s) (non_tracking s), Ok None)
    | Ok _, Ok _ => (s, Ok None)
    | Panic, _ | _, Panic => (s, Panic)
    | _, _ => (s, NoFuel) end : TtmState * res AisError (option RadarTarget)).2) as Hfix.
  { intros n. destruct (parse_coord_safe (get f n) (get f (n + 1)) (Hg n)) as [o ->].
    destruct (parse_coord_safe (get f (n + 2)) (get f (n + 3)) (Hg (n + 2))) as [o' ->].
    by destruct o, o'. }
  destruct (ends_with (s2b "GGA") f0); [destruct (_ && _); [apply Hfix|done]|].
  destruct (ends_with (s2b "RMC") f0); [destruct (_ && _); [apply Hfix|done]|]. apply decode_ttm_safe.
Qed.
