(* ===== verification/Ais.v ===== *)
(** AIS over NMEA 0183 (rust/connectors/ais-nmea/src/ais.rs): sentence checks,
    multi-fragment reassembly, the position and static messages, and the events
    built from them. The parser's mutex-guarded fields are one state record,
    passed through each call. *)
From Stdlib Require Import ZArith Lia.
From Stdlib Require Import Strings.String.
From S2P Require Export Ttm.

Local Open Scope Z_scope.

(** @src rust/connectors/ais-nmea/src/ais.rs 44-67 AisPosition *)
Record AisPosition := mkPos {
  msg_type : Z;
  mmsi : Z;
  lat : option f64;
  lon : option f64;
  cog_deg : option f64;
  sog_kn : option f64;
  heading_deg : option f64;
  rot_degmin : option f64;
  nav_status : option string;
  p_identity : Identity;
  raw : bytes;
  truncated : bool
}.

(** @src rust/connectors/ais-nmea/src/ais.rs 69-79 ReasmKey *)
Definition ReasmKey : Type := bytes * bytes * Z.

(** @src rust/connectors/ais-nmea/src/ais.rs 81-83 REASM_TTL *)
Definition REASM_TTL : Z := 10 * 1000000000.

(** @src rust/connectors/ais-nmea/src/ais.rs 85-100 Pending *)
Record Pending := mkPending { total : Z; p_payload : bytes; raws : list bytes; first_seen : Z }.

(** @src rust/connectors/ais-nmea/src/ais.rs 102-105 Pending::continues *)
Definition continues (p : Pending) (frag_count frag_num : Z) : bool :=
  (total p =? frag_count) && (zlen (raws p) + 1 =? frag_num).

(** @src rust/connectors/ais-nmea/src/ais.rs 108-116 AisParser *)
Record AisParser := mkAis {
  source_id : string;
  enrichment : Enrichment;
  pending : gmap (list Z * list Z * Z) Pending;
  identities : MmsiCache Identity;
  carry : MmsiCache Carry;
  dropped : Z;
  radar : TtmState
}.

(** @src rust/connectors/ais-nmea/src/ais.rs 118-136 AisParser::new with_site *)
Definition ais_new (src : string) (en : Enrichment) (s : option (f64 * f64)) : AisParser :=
  mkAis src en ∅ empty_cache empty_cache 0 (ttm_new s).

Definition with_pending (s : AisParser) (p : gmap (list Z * list Z * Z) Pending) : AisParser :=
  mkAis (source_id s) (enrichment s) p (identities s) (carry s) (dropped s) (radar s).
Definition with_identities (s : AisParser) (i : MmsiCache Identity) : AisParser :=
  mkAis (source_id s) (enrichment s) (pending s) i (carry s) (dropped s) (radar s).
Definition with_carry (s : AisParser) (c : MmsiCache Carry) (d : Z) : AisParser :=
  mkAis (source_id s) (enrichment s) (pending s) (identities s) c d (radar s).
Definition with_radar (s : AisParser) (r : TtmState) : AisParser :=
  mkAis (source_id s) (enrichment s) (pending s) (identities s) (carry s) (dropped s) r.

(** * Tables *)

(** @src rust/connectors/ais-nmea/src/ais.rs 463-479 Layout *)
Inductive Layout := ClassA | ClassB (extended : bool).
Definition offsets (l : Layout) : Z * Z * Z * Z * Z :=
  match l with
  | ClassA => (50, 61, 89, 116, 128)
  | ClassB _ => (46, 57, 85, 112, 124)
  end.

(** @src rust/connectors/ais-nmea/src/ais.rs 481-497 nav_status *)
Definition nav_status_of (code : Z) : option string :=
  (if code =? 0 then Some "under-way-using-engine"%string
   else if code =? 1 then Some "at-anchor"%string
   else if code =? 2 then Some "not-under-command"%string
   else if code =? 3 then Some "restricted-manoeuvrability"%string
   else if code =? 4 then Some "constrained-by-draught"%string
   else if code =? 5 then Some "moored"%string
   else if code =? 6 then Some "aground"%string
   else if code =? 7 then Some "engaged-in-fishing"%string
   else if code =? 8 then Some "under-way-sailing"%string
   else if (9 <=? code) && (code <=? 13) then Some "reserved"%string
   else if code =? 14 then Some "ais-sart"%string
   else None).

(** @src rust/connectors/ais-nmea/src/ais.rs 499-524 ship_type *)
Definition ship_type_of (code : Z) : option string :=
  let within (a b : Z) := (a <=? code) && (code <=? b) in
  (if within 20 29 then Some "wing-in-ground"%string
   else if code =? 30 then Some "fishing"%string
   else if within 31 32 then Some "towing"%string
   else if code =? 33 then Some "dredging"%string
   else if code =? 34 then Some "diving-ops"%string
   else if code =? 35 then Some "military-ops"%string
   else if code =? 36 then Some "sailing"%string
   else if code =? 37 then Some "pleasure-craft"%string
   else if within 40 49 then Some "high-speed-craft"%string
   else if code =? 50 then Some "pilot-vessel"%string
   else if code =? 51 then Some "search-and-rescue"%string
   else if code =? 52 then Some "tug"%string
   else if code =? 53 then Some "port-tender"%string
   else if code =? 54 then Some "anti-pollution"%string
   else if code =? 55 then Some "law-enforcement"%string
   else if code =? 58 then Some "medical-transport"%string
   else if within 60 69 then Some "passenger"%string
   else if within 70 79 then Some "cargo"%string
   else if within 80 89 then Some "tanker"%string
   else if within 90 99 then Some "other-vessel"%string
   else None).

(** @src rust/connectors/ais-nmea/src/ais.rs 526-533 decode_rot *)
Definition decode_rot (r : Z) : option f64 :=
  if (r <=? -128) || (127 <? r) then None
  else let s := f_div (f_of_Z r) (f_ratio 4733 1000) in Some (f_mul (f_mul s s) (f_of_Z (Z.sgn r))).

(** * Sentences *)

(** @src rust/connectors/ais-nmea/src/ais.rs 452-461 strip_tag_block *)
Definition strip_tag_block (s : bytes) : bytes :=
  match s with
  | 92 :: rest =>
      match find_byte 92 rest with
      | Some end_ => drop (Z.to_nat (end_ + 1)) rest
      | None => s
      end
  | _ => s
  end.

Definition xor_all (l : bytes) : Z := fold_left Z.lxor l 0.

(** @src rust/connectors/ais-nmea/src/ais.rs 535-546 verify_checksum *)
Definition verify_checksum (s : bytes) : res AisError unit :=
  star ← ok_or Checksum (rfind_byte 42 s);
  given ← ok_or Checksum (str_get s (star + 1) (star + 3));
  given ← ok_or Checksum (parse_uint 16 256 given);
  body ← str_slice s 1 star;
  guard_res (xor_all body =? given) Checksum.

(** [starts_with('!') || starts_with('$')]. *)
Definition is_sentence (s : bytes) : bool :=
  match s with b :: _ => (b =? 33) || (b =? 36) | [] => false end.

(** [s[1..star].split(',')]. *)
Definition sentence_fields (s : bytes) : res AisError (list bytes) :=
  let star := default (zlen s) (find_byte 42 s) in
  body ← str_slice s 1 star;
  Ok (split_on 44 body).

(** * Messages *)

Definition non_empty (o : option string) : option string :=
  match o with Some v => if String.eqb v "" then None else Some v | None => None end.
Definition or_else {A} (o d : option A) : option A := match o with Some _ => o | None => d end.

(** @src rust/connectors/ais-nmea/src/ais.rs 333-356 AisParser::merge_identity *)
Definition merge_identity (s : AisParser) (m : Z) (n c : option string) (t : option string)
    (i : option Z) : AisParser :=
  let '(cache, e) := entry no_identity m (identities s) in
  let e := mkIdentity (or_else (non_empty n) (name e)) (or_else (non_empty c) (callsign e))
             (or_else t (ship_type e)) (or_else i (imo e)) in
  with_identities s (put m e cache).

(** @src rust/connectors/ais-nmea/src/ais.rs 307-314 AisParser::static_class_a *)
Definition static_class_a (s : AisParser) (b : Bits) (m : Z) : res AisError AisParser :=
  i ← opt_u b 40 30;
  let i := match i with Some 0 | None => None | Some v => Some v end in
  c ← opt_text b 70 42;
  n ← opt_text b 112 120;
  t ← opt_u b 232 8;
  Ok (merge_identity s m n c (t ≫= ship_type_of) i).

(** @src rust/connectors/ais-nmea/src/ais.rs 316-331 AisParser::static_class_b *)
Definition static_class_b (s : AisParser) (b : Bits) (m : Z) : res AisError AisParser :=
  part ← opt_u b 38 2;
  match part with
  | Some 0 => n ← opt_text b 40 120; Ok (merge_identity s m n None None None)
  | Some 1 =>
      t ← opt_u b 40 8;
      c ← opt_text b 90 42;
      Ok (merge_identity s m None c (t ≫= ship_type_of) None)
  | _ => Ok s
  end.

Definition keep {A} (p : A → bool) (o : option A) : option A :=
  match o with Some v => if p v then Some v else None | None => None end.

(** @src rust/connectors/ais-nmea/src/ais.rs 244-305 AisParser::position *)
Definition position (s : AisParser) (b : Bits) (ty m : Z) (layout : Layout) :
    res AisError (AisParser * AisPosition) :=
  let '(sog_off, lon_off, lat_off, cog_off, hdg_off) := offsets layout in
  '(nav, rot) ←
    match layout with
    | ClassA => n ← opt_u b 38 4; r ← opt_i b 42 8; Ok (n ≫= nav_status_of, r ≫= decode_rot)
    | ClassB _ => Ok (None, None)
    end;
  s ←
    match layout with
    | ClassB true =>
        n ← opt_text b 143 120;
        t ← opt_u b 263 8;
        Ok (merge_identity s m n None (t ≫= ship_type_of) None)
    | _ => Ok s
    end;
  let id := default no_identity (cache_get (identities s) m) in
  la ← opt_i b lat_off 27;
  lo ← opt_i b lon_off 28;
  sog ← opt_u b sog_off 10;
  cog ← opt_u b cog_off 12;
  hdg ← opt_u b hdg_off 9;
  Ok (s, mkPos ty m
    (keep (in_range (f_of_Z (-90)) (f_of_Z 90)) ((λ v, f_div (f_of_Z v) (f_of_Z 600000)) <$> la))
    (keep (in_range (f_of_Z (-180)) (f_of_Z 180)) ((λ v, f_div (f_of_Z v) (f_of_Z 600000)) <$> lo))
    ((λ v, f_div (f_of_Z v) (f_of_Z 10)) <$> keep (λ v, negb (v =? 3600)) cog)
    ((λ v, f_div (f_of_Z v) (f_of_Z 10)) <$> keep (λ v, negb (v =? 1023)) sog)
    (f_of_Z <$> keep (λ v, negb (v =? 511)) hdg)
    rot nav id [] false).

(** [for raw in raws { entry.push_raw(raw) }], with the total dropped. *)
Definition push_all (raws : list bytes) (c : Carry) (d : Z) : Carry * Z :=
  fold_left (λ '(c, d) r, let '(c, k) := push_raw c r in (c, if 0 <? k then fetch_add d k else d))
    raws (c, d).

Definition layout_of (ty : Z) : option Layout :=
  if (1 <=? ty) && (ty <=? 3) then Some ClassA
  else if ty =? 18 then Some (ClassB false)
  else if ty =? 19 then Some (ClassB true)
  else None.

(** @src rust/connectors/ais-nmea/src/ais.rs 202-242 AisParser::decode *)
Definition decode (s : AisParser) (b : Bits) (rs : list bytes) :
    AisParser * res AisError (option AisPosition) :=
  if valid_bits b <? 38 then (s, Err Truncated)
  else
    match u b 0 6, u b 8 30 with
    | Ok ty, Ok m =>
        let statics :=
          if ty =? 5 then static_class_a s b m
          else if ty =? 24 then static_class_b s b m
          else Ok s in
        match statics with
        | Ok s =>
            let '(cache, e) := entry no_carry m (carry s) in
            match layout_of ty with
            | None =>
                let '(e, d) := push_all rs e (dropped s) in
                (with_carry s (put m e cache) d, Ok None)
            | Some layout =>
                let '(e, (joined, trunc)) := drain_with e rs in
                let s := with_carry s (put m e cache) (dropped s) in
                match position s b ty m layout with
                | Ok (s, p) =>
                    (s, Ok (Some (mkPos (msg_type p) (mmsi p) (lat p) (lon p) (cog_deg p) (sog_kn p)
                      (heading_deg p) (rot_degmin p) (nav_status p) (p_identity p) joined trunc)))
                | Err e => (s, Err e)
                | Panic => (s, Panic)
                | NoFuel => (s, NoFuel)
                end
            end
        | Err e => (s, Err e)
        | Panic => (s, Panic)
        | NoFuel => (s, NoFuel)
        end
    | _, _ => (s, Panic)
    end.

(** What the fragment fields of a sentence say. *)
Record Fragment := mkFragment {
  f_key : list Z * list Z * Z;
  f_count : Z;
  f_num : Z;
  f_payload : bytes;
  f_fill : Z
}.

(** @src rust/connectors/ais-nmea/src/ais.rs 138-167 AisParser::parse_sentence *)
Definition read_fragment (original : bytes) : res AisError (option Fragment) :=
  let s := strip_tag_block original in
  guard_res (is_sentence s) NotNmea ;;
  verify_checksum s ;;
  fields ← sentence_fields s;
  f0 ← idx fields 0;
  if negb (ends_with (s2b "VDM") f0 || ends_with (s2b "VDO") f0) then Ok None
  else if zlen fields <? 7 then Err Fields
  else
    f1 ← idx fields 1; f2 ← idx fields 2; f3 ← idx fields 3;
    f4 ← idx fields 4; f5 ← idx fields 5; f6 ← idx fields 6;
    count ← ok_or Fields (parse_u8 f1);
    num ← ok_or Fields (parse_u8 f2);
    if (count =? 0) || (num =? 0) || (count <? num) then Err Fields
    else Ok (Some (mkFragment (f0, f4, default 0 (parse_u8 f3)) count num f5 (default 0 (parse_u8 f6)))).

(** Decode a complete payload. *)
Definition decode_payload (s : AisParser) (payload : bytes) (fill : Z) (rs : list bytes) :
    AisParser * res AisError (option AisPosition) :=
  match from_payload payload fill with
  | Ok b => decode s b rs
  | Err e => (s, Err e)
  | Panic => (s, Panic)
  | NoFuel => (s, NoFuel)
  end.

(** @src rust/connectors/ais-nmea/src/ais.rs 169-200 AisParser::parse_sentence *)
Definition reassemble (clock : Z) (s : AisParser) (f : Fragment) (raw : bytes) :
    AisParser * res AisError (option AisPosition) :=
  if f_count f =? 1 then decode_payload s (f_payload f) (f_fill f) [raw]
  else
    let pend := filter (λ kp : _ * Pending, clock - first_seen kp.2 < REASM_TTL) (pending s) in
    let '(pend, e) :=
      if f_num f =? 1 then (pend, Some (mkPending (f_count f) [] [] clock))
      else
        (delete (f_key f) pend,
         match pend !! f_key f with
         | Some e => if continues e (f_count f) (f_num f) then Some e else None
         | None => None
         end) in
    match e with
    | None => (with_pending s pend, Ok None)
    | Some e =>
        let e := mkPending (total e) (p_payload e ++ f_payload f) (raws e ++ [raw]) (first_seen e) in
        if f_num f <? f_count f
        then (with_pending s (<[f_key f := e]> pend), Ok None)
        else decode_payload (with_pending s pend) (p_payload e) (f_fill f) (raws e)
    end.

(** @src rust/connectors/ais-nmea/src/ais.rs 138-200 AisParser::parse_sentence *)
Definition parse_sentence (clock : Z) (s : AisParser) (frame : bytes) :
    AisParser * res AisError (option AisPosition) :=
  if negb (utf8_valid frame) then (s, Err NotAscii)
  else
    let original := trim frame in
    match read_fragment original with
    | Ok (Some f) => reassemble clock s f original
    | Ok None => (s, Ok None)
    | Err e => (s, Err e)
    | Panic => (s, Panic)
    | NoFuel => (s, NoFuel)
    end.

(** @src rust/connectors/ais-nmea/src/ais.rs 358-407 AisParser::base_builder *)
Definition base_builder (env : Env) (s : AisParser) (p : AisPosition) : EventBuilder :=
  let id := p_identity p in
  let b := set_payload (raw p) (new_id env (builder_new (source_id s) "mim:vessel")) in
  let b := add_metadata "mmsi" (show (mmsi p)) (add_metadata "source_uid" (show (mmsi p)) b) in
  let b := on_true ((1 <=? mmsi p) && (mmsi p <=? 999999999))
             (identity "AIS" (b2s (pad_zeros 9 (show_bytes (mmsi p))))) b in
  let b := match lat p, lon p with
           | Some la, Some lo => set_location la lo f_zero b
           | _, _ => b
           end in
  let b := on_some (imo id) (λ i, add_metadata "imo" (show i)) b in
  let b := on_true (truncated p) (add_metadata "payload_truncated" "true") b in
  let b := on_some (hostility (enrichment s)) (attribute "hostility") b in
  let b := on_some (sog_kn p) (λ kn b,
             add_metadata "speed_kn" (fmt_fixed 1 kn)
               (attribute "speed" (fmt_fixed 2 (f_mul kn KNOTS_TO_MPS)) b)) b in
  let b := on_some (cog_deg p) (λ d, attribute "course" (fmt_fixed 1 d)) b in
  let b := on_some (heading_deg p) (λ d, attribute "heading" (fmt_fixed 0 d)) b in
  let b := on_some (rot_degmin p) (λ r, attribute "rate_of_turn" (fmt_fixed 1 r)) b in
  let b := on_some (nav_status p) (attribute "nav_status") b in
  let b := on_some (ship_type id) (attribute "vessel_type") b in
  let b := on_some (name id) (attribute "vessel_name") b in
  on_some (callsign id) (attribute "callsign") b.

(** @src rust/connectors/ais-nmea/src/ais.rs 409-411 AisParser::to_event_at *)
Definition to_event_at (env : Env) (s : AisParser) (p : AisPosition) (observed : string) :
    res AisError Event :=
  map_err Build (build (set_timestamp observed (base_builder env s p))).

Section ais.
Variables sin cos asin : f64 → f64.
Variable atan2 : f64 → f64 → f64.

(** A TTM, GGA or RMC sentence. *)
Definition parse_radar (envs : Envs) (s : AisParser) (txt : bytes) :
    AisParser * res AisError (list Event) :=
  match verify_checksum txt ;; sentence_fields txt with
  | Ok fields =>
      let '(r, t) := handle sin cos asin atan2 (env_clock (envs 0%nat)) (radar s) fields txt in
      (with_radar s r,
       t ← t;
       match t with
       | None => Ok []
       | Some t => e ← map_err Build (target_event (envs 0%nat) (source_id s) (enrichment s) t); Ok [e]
       end)
  | Err e => (s, Err e)
  | Panic => (s, Panic)
  | NoFuel => (s, NoFuel)
  end.

(** @src rust/connectors/ais-nmea/src/ais.rs 414-442 AisParser::parse *)
Definition parse (envs : Envs) (s : AisParser) (frame : bytes) : AisParser * res AisError (list Event) :=
  let txt := strip_tag_block (trim frame) in
  if utf8_valid frame && is_sentence txt && wants (tail txt) then parse_radar envs s txt
  else
    let '(s, r) := parse_sentence (env_clock (envs 0%nat)) s frame in
    (s,
     o ← r;
     match o with
     | None => Ok []
     | Some p =>
         e ← map_err Build (build (now (envs 0%nat) (base_builder (envs 0%nat) s p)));
         Ok [e]
     end).
End ais.

(** * Lemmas *)

Definition ais_ok (s : AisParser) : Prop :=
  vessels_ok (identities s) ∧ vessels_ok (carry s)
  ∧ map_Forall (λ _, carry_ok) (cmap (carry s)).

Lemma ais_new_ok src en st : ais_ok (ais_new src en st).
Proof. split_and!; [apply no_vessels_ok..|apply map_Forall_empty]. Qed.

Lemma ais_ok_pending s p : ais_ok s → ais_ok (with_pending s p).
Proof. done. Qed.
Lemma ais_ok_radar s r : ais_ok s → ais_ok (with_radar s r).
Proof. done. Qed.
#[local] Hint Resolve ais_ok_pending ais_ok_radar : rust.

(** What merging leaves in the cache for the vessel. *)
Lemma merge_identity_get s m n c t i :
  vessels_ok (identities s) →
  let old := default no_identity (cache_get (identities s) m) in
  cache_get (identities (merge_identity s m n c t i)) m
  = Some (mkIdentity (or_else (non_empty n) (name old)) (or_else (non_empty c) (callsign old))
            (or_else t (ship_type old)) (or_else i (imo old)))
  ∧ vessels_ok (identities (merge_identity s m n c t i)).
Proof.
  intros Hc old. unfold merge_identity. pose proof (entry_ok no_identity m _ Hc) as (H1 & H2 & _).
  pose proof (vessels_put_ok no_identity) as Hput.
  destruct (entry no_identity m (identities s)) as [cache e] eqn:He. simpl in H1, H2. subst e.
  split; [apply lookup_insert_eq|]. specialize (Hput (mkIdentity (or_else (non_empty n) (name old))
    (or_else (non_empty c) (callsign old)) (or_else t (ship_type old)) (or_else i (imo old))) m _ Hc).
  by rewrite He in Hput.
Qed.

Lemma merge_identity_ok s m n c t i : ais_ok s → ais_ok (merge_identity s m n c t i).
Proof.
  intros (Hi & Hc & Hf). destruct (merge_identity_get s m n c t i Hi) as [_ H].
  unfold merge_identity in *. destruct (entry no_identity m (identities s)) as [cache e]. done.
Qed.
#[local] Hint Resolve merge_identity_ok : rust.

Lemma static_class_a_ok s b m :
  bits_ok b → ais_ok s → match static_class_a s b m with Ok s' => ais_ok s' | _ => False end.
Proof.
  intros Hb Hs. unfold static_class_a. rewrite !opt_u_spec by (done || lia). cbn [mbind res_bind].
  destruct (opt_text_total b 70 42 Hb) as [c ->]; [lia|].
  destruct (opt_text_total b 112 120 Hb) as [n ->]; [lia|]. cbn [mbind res_bind]. by apply merge_identity_ok.
Qed.

Lemma static_class_b_ok s b m :
  bits_ok b → ais_ok s → match static_class_b s b m with Ok s' => ais_ok s' | _ => False end.
Proof.
  intros Hb Hs. unfold static_class_b. rewrite !opt_u_spec by (done || lia). cbn [mbind res_bind].
  destruct (opt_text_total b 40 120 Hb) as [n ->]; [lia|].
  destruct (opt_text_total b 90 42 Hb) as [c ->]; [lia|]. cbn [mbind res_bind].
  set (part := if 38 + Z.of_nat 2 <=? _ then _ else _).
  destruct part as [[|[p|p|]|p]|]; cbn [mbind res_bind]; (done || by apply merge_identity_ok).
Qed.

Lemma position_ok s b ty m l :
  bits_ok b → ais_ok s → match position s b ty m l with Ok (s', _) => ais_ok s' ∧ carry s' = carry s | _ => False end.
Proof.
  intros Hb Hs. unfold position. destruct (offsets l) as [[[[sog lo] la] cog] hdg] eqn:Ho.
  assert (0 ≤ sog ∧ 0 ≤ lo ∧ 0 ≤ la ∧ 0 ≤ cog ∧ 0 ≤ hdg) as (? & ? & ? & ? & ?).
  { destruct l; simpl in Ho; injection Ho as <- <- <- <- <-; lia. }
  rewrite !opt_u_spec by (done || lia). rewrite !opt_i_spec by (done || lia).
  destruct (opt_text_total b 143 120 Hb) as [n ->]; [lia|].
  destruct l as [|[]]; cbn [mbind res_bind]; (split; [auto with rust|]); [done| |done].
  unfold merge_identity. by destruct (entry _ _ _).
Qed.

Lemma push_all_ok rs c d : carry_ok c → carry_ok (push_all rs c d).1.
Proof.
  unfold push_all. revert c d. induction rs as [|r rs IH]; intros c d Hc; [done|]. simpl.
  pose proof (push_raw_spec c r Hc) as H. destruct (push_raw c r) as [c' k]. destruct H as (H & _). by apply IH.
Qed.

Lemma entry_carry c m :
  vessels_ok c → map_Forall (λ _, carry_ok) (cmap c) →
  carry_ok (entry no_carry m c).2 ∧
  ∀ e, carry_ok e → vessels_ok (put m e (entry no_carry m c).1)
    ∧ map_Forall (λ _, carry_ok) (cmap (put m e (entry no_carry m c).1)).
Proof.
  intros Hc Hf. destruct (entry_ok no_carry m c Hc) as (H1 & H2 & _). split.
  - rewrite H2. destruct (cmap c !! m) as [v|] eqn:Hv; [by apply (Hf m)|apply no_carry_ok].
  - intros e He. split; [by apply vessels_put_ok|].
    by apply (entry_put_Forall MAX_VESSELS carry_ok); [apply no_carry_ok|..].
Qed.

Lemma decode_ok s b rs :
  bits_ok b → ais_ok s → ais_ok (decode s b rs).1 ∧ safe (decode s b rs).2.
Proof.
  intros Hb Hs. unfold decode. destruct (Z.ltb_spec (valid_bits b) 38); [done|].
  pose proof Hb as [H6 Hv]. rewrite !u_spec by (done || lia).
  set (ty := field (six b) 0 6). set (m := field (six b) 8 30).
  set (statics := if ty =? 5 then _ else _).
  assert (match statics with Ok s' => ais_ok s' | _ => False end) as Hst.
  { unfold statics. destruct (ty =? 5); [by apply static_class_a_ok|].
    destruct (ty =? 24); [by apply static_class_b_ok|done]. }
  destruct statics as [s1| | |]; try done. destruct Hst as (Hi & Hc & Hf).
  destruct (entry_carry (carry s1) m Hc Hf) as [He Hput].
  destruct (entry no_carry m (carry s1)) as [cache e]. simpl in He, Hput.
  destruct (layout_of ty) as [l|].
  - destruct (drain_with e rs) as [e' [joined trunc]] eqn:Hd. injection Hd as <- _ _.
    set (s2 := with_carry s1 _ _).
    assert (ais_ok s2) as Hs2 by (split; [exact Hi|exact (Hput no_carry no_carry_ok)]).
    pose proof (position_ok s2 b ty m l Hb Hs2) as Hp.
    destruct (position s2 b ty m l) as [[s3 p]| | |]; [by destruct Hp|done..].
  - pose proof (push_all_ok rs e (dropped s1) He) as He'. destruct (push_all rs e (dropped s1)) as [e' d].
    split; [|done]. split; [exact Hi|exact (Hput e' He')].
Qed.

Lemma decode_payload_ok s payload fill rs :
  0 ≤ fill → ais_ok s →
  ais_ok (decode_payload s payload fill rs).1 ∧ safe (decode_payload s payload fill rs).2.
Proof.
  intros Hf Hs. unfold decode_payload. pose proof (from_payload_spec payload fill Hf) as H.
  destruct (from_payload payload fill) as [b| | |]; try done. by apply decode_ok.
Qed.

Lemma reassemble_ok clock s f raw :
  0 ≤ f_fill f → ais_ok s →
  ais_ok (reassemble clock s f raw).1 ∧ safe (reassemble clock s f raw).2.
Proof.
  intros Hf Hs. unfold reassemble. destruct (f_count f =? 1); [by apply decode_payload_ok|].
  destruct (if f_num f =? 1 then _ else _) as [pend [e|]]; [|done].
  destruct (f_num f <? f_count f); [done|]. by apply decode_payload_ok.
Qed.

(** ** Sentences *)

Lemma parse_u8_nonneg l : 0 ≤ default 0 (parse_u8 l).
Proof. destruct (parse_u8 l) as [v|] eqn:H; simpl; [|lia]. apply parse_uint_range in H; lia. Qed.

Lemma strip_tag_suffix s : ∃ k, s = k ++ strip_tag_block s.
Proof.
  unfold strip_tag_block. destruct s as [|b t]; [by exists []|].
  destruct (decide (b = 92)) as [->|Hne].
  - destruct (find_byte 92 t) as [e|] eqn:He; [|by exists []].
    exists (92 :: take (Z.to_nat (e + 1)) t). simpl. by rewrite take_drop.
  - exists []. destruct b as [|p|p]; try done. repeat (destruct p as [p|p|]; try done).
Qed.

Lemma strip_tag_apart s : chars_apart s → chars_apart (strip_tag_block s).
Proof.
  intros H. destruct (strip_tag_suffix s) as [k Hk]. rewrite Hk, <- (app_nil_r (strip_tag_block s)) in H.
  by apply chars_apart_infix in H.
Qed.

Lemma is_sentence_shape s : is_sentence s = true → ∃ b t, s = b :: t ∧ (b = 33 ∨ b = 36).
Proof. destruct s as [|b t]; [done|]. simpl. intros H. exists b, t. split; [done|]. lia. Qed.

Lemma body_slice s star :
  is_sentence s = true → chars_apart s → 1 ≤ star ≤ zlen s → char_boundary s star = true →
  ∃ x, str_slice (E := AisError) s 1 star = Ok x.
Proof.
  intros (b & t & -> & Hb)%is_sentence_shape Ha Hs Hc. unfold str_slice.
  rewrite char_boundary_after by (done || lia). rewrite Hc. simpl andb. cbv iota.
  destruct (get_range_is_Some (b :: t) 1 star) as [x Hx]; [lia..|]. exists x. by apply slice_Ok.
Qed.

Lemma first_not_star s k : is_sentence s = true → get s k = Some 42 → 1 ≤ k.
Proof.
  intros (b & t & -> & Hb)%is_sentence_shape [Hk Hl]%get_Some.
  destruct (decide (k = 0)) as [->|]; [|lia]. simpl in Hl. injection Hl as ->. lia.
Qed.

Lemma verify_checksum_safe s : is_sentence s = true → chars_apart s → safe (verify_checksum s).
Proof.
  intros Hs Ha. unfold verify_checksum. destruct (rfind_byte 42 s) as [star|] eqn:Hr; [|done]. simpl.
  destruct (str_get s (star + 1) (star + 3)) as [g|]; [|done]. simpl.
  destruct (parse_uint 16 256 g) as [v|]; [|done]. simpl.
  apply rfind_byte_at in Hr. pose proof (first_not_star _ _ Hs Hr).
  pose proof (char_boundary_ascii _ _ _ Hr ltac:(lia)). apply get_Some in Hr as [? _].
  destruct (body_slice s star Hs Ha) as [x ->]; [lia|done|]. simpl. by destruct (_ =? _).
Qed.

Lemma sentence_fields_Ok s :
  is_sentence s = true → chars_apart s → ∃ fs, sentence_fields s = Ok fs ∧ fs ≠ [].
Proof.
  intros Hs Ha. unfold sentence_fields.
  assert (1 ≤ default (zlen s) (find_byte 42 s) ≤ zlen s ∧ char_boundary s (default (zlen s) (find_byte 42 s)) = true)
    as [Hr Hc].
  { destruct (find_byte 42 s) as [k|] eqn:Hk; simpl.
    - apply find_byte_Some in Hk as [Hr Hl]. assert (get s k = Some 42) as Hg by (by apply get_Some).
      pose proof (first_not_star _ _ Hs Hg). split; [lia|]. by apply (char_boundary_ascii _ _ _ Hg).
    - destruct (is_sentence_shape s Hs) as (b & t & -> & _). rewrite zlen_cons. pose proof (zlen_nonneg t).
      split; [lia|]. rewrite <- zlen_cons with (x := b). apply char_boundary_end. }
  destruct (body_slice s _ Hs Ha Hr Hc) as [x ->]. simpl. eexists. split; [done|]. apply split_on_ne.
Qed.

Lemma read_fragment_safe s :
  chars_apart s → safe (read_fragment s) ∧ ∀ f, read_fragment s = Ok (Some f) → 0 ≤ f_fill f.
Proof.
  intros Ha. apply strip_tag_apart in Ha. unfold read_fragment. set (t := strip_tag_block s) in *.
  destruct (is_sentence t) eqn:Hs; [|done]. cbn [guard_res mbind res_bind].
  pose proof (verify_checksum_safe t Hs Ha) as Hc. destruct (verify_checksum t); try done. cbn [mbind res_bind].
  destruct (sentence_fields_Ok t Hs Ha) as (fs & -> & Hne). cbn [mbind res_bind].
  assert (∀ i, 0 ≤ i < zlen fs → ∃ x, idx (E := AisError) fs i = Ok x) as Hx.
  { intros i Hi. destruct (get_is_Some fs i Hi) as [x Hg]. exists x. unfold idx. by rewrite Hg. }
  destruct (Hx 0) as [x0 ->]; [destruct fs; [done|]; rewrite zlen_cons; pose proof (zlen_nonneg fs); lia|].
  cbn [mbind res_bind]. destruct (negb _); [done|]. destruct (Z.ltb_spec (zlen fs) 7); [done|].
  destruct (Hx 1) as [x1 ->]; [lia|]. destruct (Hx 2) as [x2 ->]; [lia|]. destruct (Hx 3) as [x3 ->]; [lia|].
  destruct (Hx 4) as [x4 ->]; [lia|]. destruct (Hx 5) as [x5 ->]; [lia|]. destruct (Hx 6) as [x6 ->]; [lia|].
  cbn [mbind res_bind]. destruct (parse_u8 x1) as [cnt|]; [|done]. destruct (parse_u8 x2) as [num|]; [|done].
  cbn [ok_or mbind res_bind]. destruct (_ || _); [done|]. split; [done|]. intros f [= <-]. apply parse_u8_nonneg.
Qed.

Lemma trim_apart l : utf8_valid l = true → chars_apart (trim l).
Proof.
  intros H%utf8_chars_apart. destruct (trim_infix l) as (k & m & E). rewrite E in H.
  by apply chars_apart_infix in H.
Qed.

Lemma parse_sentence_ok clock s frame :
  ais_ok s → ais_ok (parse_sentence clock s frame).1 ∧ safe (parse_sentence clock s frame).2.
Proof.
  intros Hs. unfold parse_sentence. destruct (utf8_valid frame) eqn:Hu; [|done]. cbn [negb].
  destruct (read_fragment_safe (trim frame) (trim_apart frame Hu)) as [Hsafe Hfill].
  destruct (read_fragment (trim frame)) as [[f|]| | |]; try done.
  apply reassemble_ok; [by apply Hfill|done].
Qed.

Lemma split_on_ascii c l : ascii_text l → Forall ascii_text (split_on c l).
Proof.
  induction 1 as [|b l Hb Hl IH]; simpl; [by repeat constructor|].
  destruct (b =? c); [by constructor; [constructor|]|].
  destruct (split_on c l) as [|x xs]; [by constructor; [constructor; [done|constructor]|]|]. inversion IH; subst.
  constructor; [by constructor|done].
Qed.

Lemma parse_ok sin cos asin atan2 envs s frame :
  ais_ok s → ascii_text frame →
  ais_ok (parse sin cos asin atan2 envs s frame).1 ∧ safe (parse sin cos asin atan2 envs s frame).2.
Proof.
  intros Hs Ha. unfold parse. set (txt := strip_tag_block (trim frame)).
  assert (utf8_valid frame = true) as Hu by (by apply utf8_ascii). rewrite Hu.
  assert (ascii_text txt) as Hat.
  { unfold txt. destruct (strip_tag_suffix (trim frame)) as [k Hk]. pose proof (ascii_trim _ Ha) as Ht.
    rewrite Hk in Ht. by apply Forall_app in Ht as []. }
  destruct (is_sentence txt && wants (tail txt)) eqn:Hw; cbn [andb].
  - rewrite Hw. apply andb_true_iff in Hw as [His _].
    assert (chars_apart txt) as Hap by (apply strip_tag_apart, trim_apart, Hu).
    unfold parse_radar. pose proof (verify_checksum_safe txt His Hap) as Hv.
    destruct (verify_checksum txt); try done. cbn [mbind res_bind].
    destruct (sentence_fields_Ok txt His Hap) as (fs & Hfs & Hne). rewrite Hfs.
    assert (Forall ascii_text fs) as Haf.
    { unfold sentence_fields in Hfs. apply bind_Ok in Hfs as (body & Hb & [= <-]). apply split_on_ascii.
      unfold str_slice in Hb. destruct (_ && _); [|done]. apply slice_Ok, get_range_Some in Hb as (_ & _ & ->).
      by apply Forall_take, Forall_drop. }
    pose proof (handle_safe sin cos asin atan2 (env_clock (envs 0%nat)) (radar s) fs txt Hne Haf) as Hh.
    destruct (handle _ _ _ _ _ _ _ _) as [r t]. split; [done|]. cbn [snd] in *.
    apply safe_bind; [done|]. intros [x|] _; [|done]. apply safe_bind; [apply safe_build|done].
  - rewrite Hw. pose proof (parse_sentence_ok (env_clock (envs 0%nat)) s frame Hs) as [H1 H2].
    destruct (parse_sentence _ s frame) as [s' r]. split; [done|]. cbn [snd] in *.
    apply safe_bind; [done|]. intros [x|] _; [|done]. apply safe_bind; [apply safe_build|done].
Qed.

(** ** Reassembly *)

Section feed.
Variable key : list Z * list Z * Z.
Variables count fill : Z.

(** Fragments [k], [k+1], ... of one message arriving with their payloads, raw
    sentences and arrival times: the outcome of the last. *)
Fixpoint feed (s : AisParser) (k : Z) (l : list (bytes * bytes * Z)) :
    AisParser * res AisError (option AisPosition) :=
  match l with
  | [] => (s, Ok None)
  | (p, raw, t) :: l' =>
      let '(s', r) := reassemble t s (mkFragment key count k p fill) raw in
      match l' with [] => (s', r) | _ => feed s' (k + 1) l' end
  end.

Lemma feed_cons s k p raw t l' :
  feed s k ((p, raw, t) :: l') =
  let '(s', r) := reassemble t s (mkFragment key count k p fill) raw in
  match l' with [] => (s', r) | _ => feed s' (k + 1) l' end.
Proof. done. Qed.

Lemma feed_rest s pend t0 l pl rs :
  1 ≤ zlen rs → pend !! key = Some (mkPending count pl rs t0) → zlen rs + zlen l = count → l ≠ [] →
  Forall (λ x, x.2 - t0 < REASM_TTL) l →
  ∃ pend', feed (with_pending s pend) (zlen rs + 1) l
    = decode_payload (with_pending s pend') (pl ++ concat l.*1.*1) fill (rs ++ l.*1.*2).
Proof.
  revert pend pl rs. induction l as [|[[p raw] t] l IH]; intros pend pl rs Hr Hp Hl Hne Ht; [done|].
  inversion Ht as [|? ? Ht1 Ht2]; subst. simpl in Ht1. rewrite zlen_cons in Hl.
  pose proof (zlen_nonneg l). rewrite feed_cons. unfold reassemble. cbn [f_count f_num f_key f_payload f_fill].
  replace (count =? 1) with false by lia. replace (zlen rs + 1 =? 1) with false by lia.
  set (kept := filter _ _). assert (kept !! key = Some (mkPending count pl rs t0)) as Hk.
  { apply map_lookup_filter_Some. split; [exact Hp|]. simpl. lia. }
  rewrite Hk. unfold continues. cbn [total raws]. rewrite !Z.eqb_refl. cbn [andb p_payload raws first_seen total].
  destruct l as [|x l].
  - replace (zlen rs + 1 <? count) with false by (change (zlen (@nil (bytes * bytes * Z))) with 0 in Hl; lia).
    exists (delete key kept). simpl. rewrite app_nil_r.
    change (with_pending (with_pending s pend) (delete key kept)) with (with_pending s (delete key kept)).
    by destruct (decode_payload _ _ _ _).
  - rewrite zlen_cons in Hl. pose proof (zlen_nonneg l). replace (zlen rs + 1 <? count) with true by lia.
    destruct (IH (<[key := mkPending count (pl ++ p) (rs ++ [raw]) t0]> (delete key kept)) (pl ++ p) (rs ++ [raw]))
      as [pend' Hf]; rewrite ?zlen_app, ?zlen_cons; change (zlen [raw]) with 1 || idtac;
      change (zlen (@nil bytes)) with 0 || idtac; try done; try lia; [apply lookup_insert_eq|].
    exists pend'. rewrite zlen_app in Hf. change (zlen [raw]) with 1 in Hf.
    rewrite <- !app_assoc in Hf. exact Hf.
Qed.

Lemma feed_all s p raw t0 l :
  1 + zlen l = count → l ≠ [] → Forall (λ x, x.2 - t0 < REASM_TTL) l →
  ∃ pend', feed s 1 ((p, raw, t0) :: l)
    = decode_payload (with_pending s pend') (p ++ concat l.*1.*1) fill (raw :: l.*1.*2).
Proof.
  intros Hl Hne Ht. destruct l as [|x l]; [done|].
  assert (2 ≤ count) as Hc by (rewrite zlen_cons in Hl; pose proof (zlen_nonneg l); lia).
  rewrite feed_cons. unfold reassemble. cbn [f_count f_num f_key f_payload f_fill].
  replace (count =? 1) with false by lia. change (1 =? 1) with true. cbn iota.
  replace (1 <? count) with true by lia. cbn [total p_payload raws first_seen app].
  set (pend := <[key := _]> _). apply (feed_rest s pend t0 (x :: l) p [raw]); try done.
  apply lookup_insert_eq.
Qed.
End feed.

(** ** A message among others *)

Lemma decode_pending s b rs : pending (decode s b rs).1 = pending s.
Proof.
  assert (∀ s m n c t i, pending (merge_identity s m n c t i) = pending s) as Hm by (intros; unfold merge_identity; by destruct (entry _ _ _)).
  unfold decode. destruct (_ <? 38); [done|]. destruct (u b 0 6) as [ty| | |]; [|done..]. destruct (u b 8 30) as [m| | |]; [|done..].
  set (statics := if ty =? 5 then _ else _).
  assert (∀ s1, statics = Ok s1 → pending s1 = pending s) as Hst.
  { intros s1. unfold statics. destruct (ty =? 5); [|destruct (ty =? 24); [|by intros [= <-]]].
    - unfold static_class_a. intros H. repeat (apply bind_Ok in H as (? & _ & H)). injection H as <-. apply Hm.
    - unfold static_class_b. intros (part & _ & H)%bind_Ok.
      destruct part as [[|[p|p|]|p]|]; repeat (apply bind_Ok in H as (? & _ & H)); injection H as <-; done || apply Hm. }
  destruct statics as [s1| | |]; [|done..]. specialize (Hst s1 eq_refl). destruct (entry no_carry m (carry s1)) as [cache e].
  destruct (layout_of ty) as [l|]; [|by destruct (push_all _ _ _)]. destruct (drain_with e rs) as [e' [joined trunc]].
  destruct (position _ b ty m l) as [[s3 p]| | |] eqn:Hp; [|done..]. cbn [fst]. rewrite <- Hst. clear -Hp Hm.
  unfold position in Hp. destruct (offsets l) as [[[[? ?] ?] ?] ?]. apply bind_Ok in Hp as ([? ?] & _ & Hp).
  apply bind_Ok in Hp as (s2 & H2 & Hp). repeat (apply bind_Ok in Hp as (? & _ & Hp)). injection Hp as <- _.
  destruct l as [|[]]; [by injection H2 as <-| |by injection H2 as <-].
  repeat (apply bind_Ok in H2 as (? & _ & H2)). injection H2 as <-. by etrans; [apply Hm|].
Qed.

Lemma decode_payload_pending s p fill rs : pending (decode_payload s p fill rs).1 = pending s.
Proof. unfold decode_payload. destruct (from_payload p fill); [apply decode_pending|done..]. Qed.

Section among.
Variable key : list Z * list Z * Z.

(** A sentence that carries a fragment of a message in several under the key. *)
Definition ours (frame : bytes) : option Fragment :=
  if utf8_valid frame then
    match read_fragment (trim frame) with
    | Ok (Some f) => if negb (f_count f =? 1) && bool_decide (f_key f = key) then Some f else None
    | _ => None
    end
  else None.

(** Those of a stretch of sentences with their arrival times, in order. *)
Definition own (l : list (Z * bytes)) : list (Fragment * bytes * Z) :=
  omap (λ x, f ← ours x.2; Some (f, trim x.2, x.1)) l.

(** The parser after a stretch, and what it made of each sentence. *)
Fixpoint heard (s : AisParser) (l : list (Z * bytes)) : AisParser * list (res AisError (option AisPosition)) :=
  match l with
  | [] => (s, [])
  | (t, frame) :: l => let '(s, r) := parse_sentence t s frame in let '(s, rs) := heard s l in (s, r :: rs)
  end.

Lemma heard_snoc s l t frame :
  heard s (l ++ [(t, frame)]) = ((parse_sentence t (heard s l).1 frame).1, (heard s l).2 ++ [(parse_sentence t (heard s l).1 frame).2]).
Proof.
  revert s. induction l as [|[t' f'] l IH]; intros s; cbn [heard app fst snd]; [by destruct (parse_sentence t s frame)|].
  destruct (parse_sentence t' s f') as [s1 r1]. rewrite IH. by destruct (heard s1 l).
Qed.

Lemma own_snoc l x : own (l ++ [x]) = own l ++ match ours x.2 with Some f => [(f, trim x.2, x.1)] | None => [] end.
Proof. unfold own. rewrite omap_app. f_equal. cbn. by destruct (ours x.2). Qed.

Lemma ours_parse clock s frame f : ours frame = Some f → f_count f ≠ 1 ∧ f_key f = key ∧ parse_sentence clock s frame = reassemble clock s f (trim frame).
Proof.
  unfold ours, parse_sentence. destruct (utf8_valid frame); [|done]. cbn [negb]. destruct (read_fragment (trim frame)) as [[g|]| | |]; try done.
  destruct (Z.eqb_spec (f_count g) 1), (bool_decide_reflect (f_key g = key)); try done. by intros [= <-].
Qed.

(** What is not ours leaves what was begun under the key. *)
Lemma others_keep clock s frame e :
  ours frame = None → pending s !! key = Some e → clock - first_seen e < REASM_TTL → pending (parse_sentence clock s frame).1 !! key = Some e.
Proof.
  unfold ours, parse_sentence. intros Ho Hp Ht. destruct (utf8_valid frame); [|done]. cbn [negb].
  destruct (read_fragment (trim frame)) as [[f|]| | |]; try done. unfold reassemble.
  destruct (Z.eqb_spec (f_count f) 1) as [|Hc]; [by rewrite decode_payload_pending|].
  destruct (bool_decide_reflect (f_key f = key)) as [|Hk]; [done|].
  set (kept := filter _ _). assert (kept !! key = Some e) as Hkept by by apply map_lookup_filter_Some.
  destruct (f_num f =? 1).
  - destruct (_ <? _); [by cbn; rewrite lookup_insert_ne|by rewrite decode_payload_pending].
  - assert (delete (f_key f) kept !! key = Some e) as Hd by by rewrite lookup_delete_ne.
    destruct (match kept !! f_key f with Some e => if continues e _ _ then Some e else None | None => None end); [|done].
    destruct (_ <? _); [by cbn; rewrite lookup_insert_ne|by rewrite decode_payload_pending].
Qed.

(** A fragment that follows on from those before it. *)
Lemma ours_step clock s frame f o t0 :
  ours frame = Some f → f_num f = zlen o + 1 → f_num f ≤ f_count f →
  (o = [] → t0 = clock) →
  (o ≠ [] → pending s !! key = Some (mkPending (f_count f) (concat (f_payload <$> o.*1.*1)) o.*1.*2 t0) ∧ clock - t0 < REASM_TTL) →
  let o' := o ++ [(f, trim frame, clock)] in
  if f_num f <? f_count f
  then (parse_sentence clock s frame).2 = Ok None
    ∧ pending (parse_sentence clock s frame).1 !! key = Some (mkPending (f_count f) (concat (f_payload <$> o'.*1.*1)) o'.*1.*2 t0)
  else ∃ pend, pend !! key = None ∧ parse_sentence clock s frame = decode_payload (with_pending s pend) (concat (f_payload <$> o'.*1.*1)) (f_fill f) o'.*1.*2.
Proof.
  intros Hf Hn Hle H0 Hp. cbv zeta. destruct (ours_parse clock s frame f Hf) as (Hc & Hk & ->). unfold reassemble.
  rewrite !fmap_app, concat_app. cbn [fmap list_fmap concat fst snd]. rewrite app_nil_r.
  destruct (Z.eqb_spec (f_count f) 1); [done|]. set (kept := filter _ _).
  destruct o as [|x o].
  - change (zlen (@nil (Fragment * bytes * Z))) with 0 in Hn. rewrite (H0 eq_refl), Hn. change (0 + 1 =? 1) with true. cbn iota.
    destruct (Z.ltb_spec (0 + 1) (f_count f)); [|lia]. cbn [fst snd total p_payload raws first_seen app]. split; [done|]. cbn. rewrite Hk. apply lookup_insert_eq.
  - destruct (Hp ltac:(done)) as [Hpe Ht]. assert (kept !! key = Some (mkPending (f_count f) (concat (f_payload <$> (x :: o).*1.*1)) (x :: o).*1.*2 t0)) as Hkept
      by by apply map_lookup_filter_Some.
    destruct (Z.eqb_spec (f_num f) 1) as [E|_]; [rewrite zlen_cons in Hn; pose proof (zlen_nonneg o); lia|].
    rewrite Hk, Hkept. unfold continues. cbn [total raws]. rewrite Z.eqb_refl.
    assert (zlen (x :: o).*1.*2 = zlen (x :: o)) as -> by (unfold zlen; by rewrite !length_fmap).
    rewrite Hn, Z.eqb_refl. cbn [andb total p_payload raws first_seen].
    destruct (_ <? _); [split; [done|]; cbn; apply lookup_insert_eq|].
    exists (delete key kept). split; [apply lookup_delete_eq|done].
Qed.

Definition numbered (o : list (Fragment * bytes * Z)) : Prop := f_num <$> o.*1.*1 = seqZ 1 (zlen o).

Lemma numbered_snoc o x : numbered (o ++ [x]) ↔ numbered o ∧ f_num x.1.1 = zlen o + 1.
Proof.
  unfold numbered, zlen. rewrite !fmap_app, length_app. cbn [fmap list_fmap length]. rewrite Nat.add_1_r, seqZ_S, (Z.add_comm 1).
  split; [intros [? [= ?]]%app_inj_tail; done|intros [-> ->]; done].
Qed.

(** While the last is to come, each of ours is kept and gives nothing. *)
Lemma heard_begun s l count :
  let o := own l in
  numbered o → zlen o < count → Forall (λ g, f_count g = count) o.*1.*1 →
  (∀ t0 x, head o.*2 = Some t0 → x ∈ l → x.1 - t0 < REASM_TTL) →
  (∀ i x, l !! i = Some x → is_Some (ours x.2) → (heard s l).2 !! i = Some (Ok None))
  ∧ length (heard s l).2 = length l
  ∧ ∀ t0, head o.*2 = Some t0 → pending (heard s l).1 !! key = Some (mkPending count (concat (f_payload <$> o.*1.*1)) o.*1.*2 t0).
Proof.
  cbv zeta. induction l as [|[t frame] l IH] using rev_ind; [done|]. rewrite own_snoc, heard_snoc. cbn [fst snd]. intros Hn Hl Hc Ht.
  assert (∀ t0, head (own l).*2 = Some t0 → head (own l ++ match ours frame with Some f => [(f, trim frame, t)] | None => [] end).*2 = Some t0) as Hhead
    by (destruct (own l); done).
  assert (∀ t0 x, head (own l).*2 = Some t0 → x ∈ l → x.1 - t0 < REASM_TTL) as Ht'
    by (intros t0 x Ht0 Hx; apply Ht; [by apply Hhead|apply elem_of_app; by left]).
  assert (∀ t0, head (own l).*2 = Some t0 → t - t0 < REASM_TTL) as Htt
    by (intros t0 Ht0; apply (Ht t0 (t, frame)); [by apply Hhead|apply elem_of_app; right; left]).
  destruct (ours frame) as [f|] eqn:Ef.
  - apply numbered_snoc in Hn as [Hn Hf]. cbn [fst] in Hf. rewrite zlen_app in Hl. change (zlen [_]) with 1 in Hl.
    rewrite !fmap_app in Hc. apply Forall_app in Hc as [Hc Hcf]. cbn [fmap list_fmap fst] in Hcf. apply Forall_cons in Hcf as [Hcf _].
    pose proof (zlen_nonneg (own l)).
    destruct IH as (IH1 & IH2 & IH3); [done|lia|done|done|].
    set (t0 := default t (head (own l).*2)).
    pose proof (ours_step t (heard s l).1 frame f (own l) t0 Ef Hf ltac:(lia)) as Hs. cbv zeta in Hs. rewrite Hcf in Hs.
    destruct (Z.ltb_spec (f_num f) count) as [_|]; [|lia]. destruct Hs as [Hs1 Hs2].
    { unfold t0. by intros ->. }
    { intros Hne. destruct (head (own l).*2) as [t1|] eqn:Eh; [split; [by apply IH3|by apply Htt]|by destruct (own l)]. }
    split_and!.
    + intros i x [[Hi1 Hi]|[-> _]]%lookup_snoc_Some Hx; [by rewrite lookup_app_l; [apply (IH1 _ x)|lia]|].
      rewrite <- IH2, list_lookup_middle by done. by f_equal.
    + rewrite !length_app. cbn. lia.
    + intros t1 Ht1. replace t1 with t0; [done|]. unfold t0. destruct (own l); by injection Ht1 as <-.
  - rewrite app_nil_r in *. destruct IH as (IH1 & IH2 & IH3); [done..|]. split_and!.
    + intros i x [[Hi1 Hi]|[-> <-]]%lookup_snoc_Some Hx; [by rewrite lookup_app_l; [apply (IH1 _ x)|lia]|].
      cbn [snd] in Hx. rewrite Ef in Hx. by destruct Hx.
    + rewrite !length_app. cbn. lia.
    + intros t0 Ht0. apply others_keep; [done|by apply IH3|by apply Htt].
Qed.
End among.

(** ** Armor *)

Definition armor (v : Z) : Z := if v <? 40 then v + 48 else v + 56.

Lemma unarmor_one v : 0 ≤ v < 64 → unarmor (armor v) = Ok v.
Proof.
  intros Hv. unfold unarmor, armor. cbn zeta. destruct (Z.ltb_spec v 40).
  - destruct (Z.ltb_spec 40 (v + 48 - 48)); [lia|].
    replace ((0 <=? v + 48 - 48) && (v + 48 - 48 <=? 63)) with true by lia. f_equal. lia.
  - destruct (Z.ltb_spec 40 (v + 56 - 48)); [|lia].
    replace ((0 <=? v + 56 - 48 - 8) && (v + 56 - 48 - 8 <=? 63)) with true by lia. f_equal. lia.
Qed.

Lemma unarmor_armor s : six_ok s → unarmor_all (armor <$> s) = Ok s.
Proof.
  induction 1 as [|v s Hv Hs IH]; [done|]. rewrite fmap_cons. cbn [unarmor_all].
  rewrite unarmor_one by done. cbn [mbind res_bind]. by rewrite IH.
Qed.

(** * Properties *)

(** any frame at all goes through the sentence parser without a panic, an
    out-of-range bit or character read included, and leaves both caches within
    their bounds (at most ten thousand vessels, each with at most 64 pending
    sentences and 16 KiB); so does the whole parser on ASCII frames. *)
Theorem ais_total s frame :
  ais_ok s →
  (∀ clock, ais_ok (parse_sentence clock s frame).1 ∧ safe (parse_sentence clock s frame).2)
  ∧ (ascii_text frame → ∀ sin cos asin atan2 envs,
      ais_ok (parse sin cos asin atan2 envs s frame).1 ∧ safe (parse sin cos asin atan2 envs s frame).2).
Proof. intros Hs. split; intros; [by apply parse_sentence_ok|by apply parse_ok]. Qed.

(** a GGA fix whose coordinate holds a non-ASCII character is valid UTF-8
    with a valid checksum, and panics the parser: [parse_coord] slices the text
    two bytes before the point, inside the character. *)
Theorem gga_non_ascii_panics sin cos asin atan2 envs s :
  let frame := [36; 71; 80; 71; 71; 65; 44; 44; 195; 169; 49; 46; 44; 78; 44; 48; 48; 49; 48; 49; 46;
                48; 44; 69; 44; 49; 42; 51; 55] in
  utf8_valid frame = true ∧ verify_checksum frame = Ok tt
  ∧ (parse sin cos asin atan2 envs s frame).2 = Panic.
Proof.
  intros frame. split; [reflexivity|]. split; [vm_compute; reflexivity|].
  unfold parse. replace (strip_tag_block (trim frame)) with frame by reflexivity.
  replace (utf8_valid frame && is_sentence frame && wants (tail frame)) with true by (vm_compute; reflexivity).
  unfold parse_radar.
  assert ((verify_checksum frame ;; sentence_fields frame) = Ok
    [s2b "GPGGA"; []; [195; 169; 49; 46]; s2b "N"; s2b "00101.0"; s2b "E"; s2b "1"]) as -> by (vm_compute; reflexivity).
  unfold handle. cbn [head].
  assert (ends_with (s2b "GGA") (s2b "GPGGA") = true) as -> by reflexivity.
  set (fs := [s2b "GPGGA"; _; _; _; _; _; _]).
  assert ((7 <=? zlen fs) && negb (bool_decide (get fs 6 = Some (s2b "0"))) = true) as -> by reflexivity.
  assert (parse_coord (get fs 2) (get fs (2 + 1)) = Panic) as -> by reflexivity. done.
Qed.

(** reading fields: a payload armored from any 6-bit values reads back, and
    an unsigned or signed field is that slice of the payload taken as one
    number, or nothing when it runs past the fill bits. *)
Theorem ais_fields s fill b start n :
  six_ok s → 0 ≤ fill → from_payload (armor <$> s) fill = Ok b → 0 ≤ start → (0 < n <= 64)%nat →
  let v := payload_val s / 2 ^ (6 * zlen s - start - Z.of_nat n) mod 2 ^ Z.of_nat n in
  let fits := start + Z.of_nat n <=? Z.max 0 (6 * zlen s - fill) in
  opt_u b start n = Ok (if fits then Some v else None)
  ∧ opt_i b start n = Ok (if fits then Some (to_signed (Z.of_nat n) v) else None).
Proof.
  intros Hs Hf. pose proof (from_payload_spec (armor <$> s) fill Hf) as Hb.
  unfold from_payload in *. rewrite unarmor_armor in * by done. cbn [mbind res_bind] in *.
  intros [= <-] Hst Hn. rewrite opt_u_spec, opt_i_spec by (done || lia). cbn [six valid_bits].
  rewrite (Z.mul_comm (zlen s) 6). done.
Qed.

(** C11: sentences of any kind arrive, among them those of a message in several under
    one key (the formatter, channel and message id), numbered from 1 to its count, each
    with its own fill bits, and within the time limit of its first. Then each of them
    but the last gives nothing, and the last, whatever came between, is decoded exactly
    as the payloads one after another with the fill bits of the last and every raw
    sentence, and nothing is kept under the key. *)
Theorem ais_reassembly key count s l t frame f :
  let o := own key (l ++ [(t, frame)]) in
  ours key frame = Some f → f_num <$> o.*1.*1 = seqZ 1 count → Forall (λ g, f_count g = count) o.*1.*1 →
  (∀ t0 x, head o.*2 = Some t0 → x ∈ l ++ [(t, frame)] → x.1 - t0 < REASM_TTL) →
  (∀ i x, l !! i = Some x → is_Some (ours key x.2) → (heard s l).2 !! i = Some (Ok None))
  ∧ ∃ pend, pend !! key = None
    ∧ parse_sentence t (heard s l).1 frame = decode_payload (with_pending (heard s l).1 pend) (concat (f_payload <$> o.*1.*1)) (f_fill f) o.*1.*2.
Proof.
  intros o Hf Hnum Hcount Ht. assert (o = own key l ++ [(f, trim frame, t)]) as Ho by (unfold o; rewrite own_snoc; cbn [fst snd]; by rewrite Hf).
  assert (count = zlen o) as ->.
  { apply (f_equal length) in Hnum. rewrite length_seqZ, !length_fmap in Hnum. assert (0 < length o)%nat by (rewrite Ho, length_app; cbn; lia). unfold zlen. lia. }
  clearbody o. subst o. pose proof (zlen_nonneg (own key l)). rewrite !zlen_app in *. change (zlen [_]) with 1 in *.
  assert (numbered (own key l ++ [(f, trim frame, t)])) as [Hn Hfn]%numbered_snoc by (unfold numbered; rewrite Hnum, zlen_app; done).
  rewrite !fmap_app in Hcount. cbn [fmap list_fmap fst] in Hcount. apply Forall_app in Hcount as [Hc [Hcf _]%Forall_cons].
  assert (∀ t0, head (own key l).*2 = Some t0 → head (own key l ++ [(f, trim frame, t)]).*2 = Some t0) as Hhead by (destruct (own key l); done).
  destruct (heard_begun key s l (zlen (own key l) + 1)) as (H1 & H2 & H3); [done|lia|done| |].
  { intros t0 x Ht0 Hx. apply Ht; [by apply Hhead|apply elem_of_app; by left]. }
  split; [done|]. pose proof (ours_step key t (heard s l).1 frame f (own key l) (default t (head (own key l).*2)) Hf Hfn) as Hs.
  cbn [fst] in Hfn. rewrite Hfn, Hcf in Hs. specialize (Hs ltac:(lia)). cbv zeta in Hs.
  destruct (Z.ltb_spec (zlen (own key l) + 1) (zlen (own key l) + 1)); [lia|]. apply Hs.
  - by intros ->.
  - intros Hne. destruct (head (own key l).*2) as [t0|] eqn:Eh; [|by destruct (own key l)].
    split; [by apply H3|]. apply (Ht t0 (t, frame)); [by apply Hhead|apply elem_of_app; right; left].
Qed.

(** static data is folded in field by field: afterwards the vessel's
    identity has every field just seen, and keeps the old value of the others. *)
Theorem identity_merge s m n c t i :
  vessels_ok (identities s) →
  let old := default no_identity (cache_get (identities s) m) in
  cache_get (identities (merge_identity s m n c t i)) m
  = Some (mkIdentity (or_else (non_empty n) (name old)) (or_else (non_empty c) (callsign old))
            (or_else t (ship_type old)) (or_else i (imo old)))
  ∧ vessels_ok (identities (merge_identity s m n c t i)).
Proof. apply merge_identity_get. Qed.

(** * Witnesses *)

Definition ex_ais : AisParser := ais_new "ais-1" (mkEnrichment None) None.

(** A class A report: [!AIVDM,1,1,,A,13HOI:0P0000VOHLCnHQKwvL05Ip,0*23]. *)
Definition ex_sentence : bytes := s2b "!AIVDM,1,1,,A,13HOI:0P0000VOHLCnHQKwvL05Ip,0*23".

Example ais_decodes :
  match (parse_sentence 0 ex_ais ex_sentence).2 with
  | Ok (Some p) => msg_type p = 1 ∧ mmsi p = 227006760 ∧ raw p = ex_sentence
      ∧ (fmt_fixed 4 <$> lat p) = Some "49.4756"%string ∧ (fmt_fixed 4 <$> lon p) = Some "0.1314"%string
  | _ => False
  end.
Proof. vm_compute. repeat split. Qed.

Lemma ais_total_witness : safe (parse_sentence 0 ex_ais ex_sentence).2.
Proof. exact (proj2 (proj1 (ais_total ex_ais ex_sentence (ais_new_ok _ _ _)) 0)). Defined.

Lemma ais_fields_witness :
  opt_u (mkBits [4; 63; 0] 18) 0 6 = Ok (Some 4) ∧ opt_i (mkBits [4; 63; 0] 18) 6 6 = Ok (Some (-1)).
Proof.
  split.
  - apply (ais_fields [4; 63; 0] 0 (mkBits [4; 63; 0] 18) 0 6);
      [by repeat constructor|lia|reflexivity|lia|lia].
  - apply (ais_fields [4; 63; 0] 0 (mkBits [4; 63; 0] 18) 6 6);
      [by repeat constructor|lia|reflexivity|lia|lia].
Defined.

(** A static report in two sentences, with the fill of its last alone, and a position
    report of another ship between them. *)
Definition ex_first : bytes := s2b "!AIVDM,2,1,7,A,53HOI:000003AIUL000u8DpE8F1<P4l5000000164H0554wd0;0TQCSm,0*1F".
Definition ex_last : bytes := s2b "!AIVDM,2,2,7,A,51EP00000000000,2*32".

Lemma ais_reassembly_witness :
  ∃ pend f, ours (s2b "AIVDM", s2b "A", 7) ex_last = Some f ∧ f_fill f = 2 ∧
    parse_sentence 9 (heard ex_ais [(0, ex_first); (5, ex_sentence)]).1 ex_last
    = decode_payload (with_pending (heard ex_ais [(0, ex_first); (5, ex_sentence)]).1 pend)
        (s2b "53HOI:000003AIUL000u8DpE8F1<P4l5000000164H0554wd0;0TQCSm51EP00000000000") 2 [ex_first; ex_last].
Proof.
  destruct (ours (s2b "AIVDM", s2b "A", 7) ex_last) as [f|] eqn:Ef; [|vm_compute in Ef; discriminate Ef].
  assert (f = mkFragment (s2b "AIVDM", s2b "A", 7) 2 2 (s2b "51EP00000000000") 2) as -> by (vm_compute in Ef; injection Ef as <-; reflexivity).
  destruct (ais_reassembly (s2b "AIVDM", s2b "A", 7) 2 ex_ais [(0, ex_first); (5, ex_sentence)] 9 ex_last _ Ef) as (_ & pend & _ & Hp).
  - vm_compute. reflexivity.
  - apply (bool_decide_eq_true_1 (Forall _ _)). vm_compute. reflexivity.
  - intros t0 x Ht0 Hx. assert (t0 = 0) as -> by (vm_compute in Ht0; injection Ht0 as <-; reflexivity).
    apply elem_of_cons in Hx as [->|[->|[->|Hx%not_elem_of_nil]%elem_of_cons]%elem_of_cons]; [vm_compute; reflexivity..|done].
  - exists pend, (mkFragment (s2b "AIVDM", s2b "A", 7) 2 2 (s2b "51EP00000000000") 2). split; [reflexivity|]. split; [reflexivity|].
    etrans; [exact Hp|]. f_equal; vm_compute; reflexivity.
Defined.

Lemma identity_merge_witness :
  cache_get (identities (merge_identity (merge_identity ex_ais 7 (Some "A"%string) None None None)
    7 None (Some "C"%string) None (Some 5))) 7
  = Some (mkIdentity (Some "A"%string) (Some "C"%string) None (Some 5)).
Proof.
  destruct (identity_merge ex_ais 7 (Some "A"%string) None None None) as [H Hok]; [apply no_vessels_ok|].
  destruct (identity_merge _ 7 None (Some "C"%string) None (Some 5) Hok) as [H' _].
  rewrite H', H. reflexivity.
Defined.
