(* ===== verification/MavMsg.v ===== *)
(** MAVLink's per-message decoders, CRC_EXTRA table and checksum
    (rust/connectors/mavlink/src/mavlink/messages.rs), and the checksum's
    equality with CRC-16/MCRF4XX taken bit by bit. *)
From Stdlib Require Import ZArith Lia.
From Stdlib Require Import Strings.String.
From S2P Require Export Parser.

Local Open Scope Z_scope.

(** @src rust/connectors/mavlink/src/mavlink.rs 22-33 MavError *)
Inductive MavError := NotMavlink | Truncated | BadCrc | Build (e : BuildError).

(** @src rust/connectors/mavlink/src/mavlink.rs 35-68 VehicleState *)
Record VehicleState := mkState {
  vehicle_type : option string;
  status : option string;
  armed : option bool;
  mode : option string;
  custom_mode : option Z;
  roll_deg : option f64;
  pitch_deg : option f64;
  yaw_deg : option f64;
  airspeed_mps : option f64;
  throttle_pct : option Z;
  climb_mps : option f64;
  battery_voltage_v : option f64;
  battery_current_a : option f64;
  battery_remaining_pct : option Z;
  battery_consumed_mah : option Z;
  battery_temp_c : option f64;
  cpu_load_pct : option f64;
  st_gps_fix : option string;
  gps_sats : option Z;
  gps_hdop : option f64;
  gps_h_acc_m : option f64;
  gps_v_acc_m : option f64;
  gps_vel_acc_mps : option f64;
  gps_hdg_acc_deg : option f64
}.

Definition no_state : VehicleState :=
  mkState None None None None None None None None None None None None None None None None None None
    None None None None None None.

(** @src rust/connectors/mavlink/src/mavlink/messages.rs 7-19 crc_extra_and_len *)
Definition crc_extra_and_len (msg_id : Z) : option (Z * Z) :=
  if msg_id =? 0 then Some (50, 9)
  else if msg_id =? 1 then Some (124, 31)
  else if msg_id =? 24 then Some (24, 52)
  else if msg_id =? 30 then Some (39, 28)
  else if msg_id =? 33 then Some (104, 28)
  else if msg_id =? 74 then Some (20, 20)
  else if msg_id =? 147 then Some (154, 36)
  else None.

(** @src rust/connectors/mavlink/src/mavlink/messages.rs 24-28 crc *)
Definition accum (b crc : Z) : Z :=
  let tmp := Z.lxor b (Z.land crc 0xFF) in
  let tmp := Z.lxor tmp (wrap 8 (Z.shiftl tmp 4)) in
  Z.lxor (Z.lxor (Z.lxor (Z.shiftr crc 8) (wrap 16 (Z.shiftl tmp 8))) (wrap 16 (Z.shiftl tmp 3)))
    (Z.shiftr tmp 4).

(** @src rust/connectors/mavlink/src/mavlink/messages.rs 21-34 crc *)
Definition crc (data : bytes) (extra : Z) : Z :=
  accum extra (fold_left (λ c b, accum b c) data 0xFFFF).

Definition read_le (n : Z) (b : bytes) (off : Z) : res MavError Z :=
  s ← slice b off (off + n); Ok (le_val s).

(** @src rust/connectors/mavlink/src/mavlink/messages.rs 168-170 i32le *)
Definition i32le (b : bytes) (off : Z) : res MavError Z := v ← read_le 4 b off; Ok (to_signed 32 v).
(** @src rust/connectors/mavlink/src/mavlink/messages.rs 172-174 u32le *)
Definition u32le (b : bytes) (off : Z) : res MavError Z := read_le 4 b off.
(** @src rust/connectors/mavlink/src/mavlink/messages.rs 176-178 f32le *)
Definition f32le (b : bytes) (off : Z) : res MavError f64 := v ← read_le 4 b off; Ok (f32_of_bits v).
(** @src rust/connectors/mavlink/src/mavlink/messages.rs 180-182 i16le *)
Definition i16le (b : bytes) (off : Z) : res MavError Z := v ← read_le 2 b off; Ok (to_signed 16 v).
(** @src rust/connectors/mavlink/src/mavlink/messages.rs 184-186 u16le *)
Definition u16le (b : bytes) (off : Z) : res MavError Z := read_le 2 b off.

(** @src rust/connectors/mavlink/src/mavlink/messages.rs 107-120 vehicle_type *)
Definition vehicle_type_of (t : Z) : option string :=
  if t =? 1 then Some "fixed-wing"
  else if (t =? 2) || (t =? 3) || (t =? 13) || (t =? 14) || (t =? 15) then Some "multirotor"
  else if t =? 4 then Some "helicopter"
  else if (t =? 7) || (t =? 8) then Some "airship"
  else if t =? 10 then Some "ground-vehicle"
  else if t =? 11 then Some "surface-vessel"
  else if t =? 12 then Some "submarine"
  else if (19 <=? t) && (t <=? 23) then Some "vtol"
  else None%string.

(** The [i]th of a match on consecutive integers from 0. *)
Definition nth_name (names : list string) (i : Z) : option string := get names i.

(** @src rust/connectors/mavlink/src/mavlink/messages.rs 122-136 mav_state *)
Definition mav_state : Z → option string :=
  nth_name ["uninitialised"; "booting"; "calibrating"; "standby"; "active"; "critical"; "emergency";
            "powering-off"; "terminating"]%string.

(** @src rust/connectors/mavlink/src/mavlink/messages.rs 138-150 base_flag_mode *)
Definition base_flag_mode (base_mode : Z) : option string :=
  snd <$> head (filter (λ fm : Z * string, Z.land base_mode fm.1 ≠ 0)
                  [(0x04, "auto"); (0x08, "guided"); (0x10, "stabilize"); (0x40, "manual")]%string).

(** @src rust/connectors/mavlink/src/mavlink/messages.rs 152-166 gps_fix *)
Definition gps_fix : Z → option string :=
  nth_name ["no-gps"; "no-fix"; "2d"; "3d"; "dgps"; "rtk-float"; "rtk-fixed"; "static"; "ppp"]%string.

(** @src rust/connectors/mavlink/src/mavlink/messages.rs 36-46 heartbeat *)
Definition heartbeat (s : VehicleState) (p : bytes) : res MavError VehicleState :=
  let '(mkState _ _ _ _ _ ro pi ya ai th cl bv bc br bm bt cp gf gs gh ga gv gl gd) := s in
  base_mode ← idx p 6; t ← idx p 4; st ← idx p 7;
  cm ← (if negb (Z.land base_mode 0x01 =? 0) then c ← u32le p 0; Ok (Some c) else Ok None);
  Ok (mkState (vehicle_type_of t) (mav_state st) (Some (negb (Z.land base_mode 0x80 =? 0)))
        (base_flag_mode base_mode) cm ro pi ya ai th cl bv bc br bm bt cp gf gs gh ga gv gl gd).

Definition keep {A} (known : bool) (v : A) (old : option A) : option A := if known then Some v else old.

(** @src rust/connectors/mavlink/src/mavlink/messages.rs 48-66 sys_status *)
Definition sys_status (s : VehicleState) (p : bytes) : res MavError VehicleState :=
  let '(mkState vt st ar mo cm ro pi ya ai th cl bv bc br bm bt cp gf gs gh ga gv gl gd) := s in
  load ← u16le p 12; voltage_mv ← u16le p 14; current_ca ← i16le p 16; r ← idx p 30;
  let remaining := to_signed 8 r in
  let cp := keep (negb (load =? 65535)) (f_div (f_of_Z load) (f_of_Z 10)) cp in
  let bv := keep (negb (voltage_mv =? 65535)) (f_div (f_of_Z voltage_mv) (f_of_Z 1000)) bv in
  let bc := keep (negb (current_ca =? -1)) (f_div (f_of_Z current_ca) (f_of_Z 100)) bc in
  let br := keep (negb (remaining =? -1)) remaining br in
  Ok (mkState vt st ar mo cm ro pi ya ai th cl bv bc br bm bt cp gf gs gh ga gv gl gd).

(** @src rust/connectors/mavlink/src/mavlink/messages.rs 68-73 attitude *)
Definition attitude (s : VehicleState) (p : bytes) : res MavError VehicleState :=
  let '(mkState vt st ar mo cm _ _ _ ai th cl bv bc br bm bt cp gf gs gh ga gv gl gd) := s in
  r ← f32le p 4; q ← f32le p 8; y ← f32le p 12;
  Ok (mkState vt st ar mo cm (Some (to_degrees r)) (Some (to_degrees q))
        (Some (rem_euclid (to_degrees y) (f_of_Z 360))) ai th cl bv bc br bm bt cp gf gs gh ga gv gl gd).

(** @src rust/connectors/mavlink/src/mavlink/messages.rs 75-80 vfr_hud *)
Definition vfr_hud (s : VehicleState) (p : bytes) : res MavError VehicleState :=
  let '(mkState vt st ar mo cm ro pi ya _ _ _ bv bc br bm bt cp gf gs gh ga gv gl gd) := s in
  a ← f32le p 0; c ← f32le p 12; t ← u16le p 18;
  Ok (mkState vt st ar mo cm ro pi ya (Some a) (Some t) (Some c) bv bc br bm bt cp gf gs gh ga gv gl gd).

(** @src rust/connectors/mavlink/src/mavlink/messages.rs 82-105 battery_status *)
Definition battery_status (s : VehicleState) (p : bytes) : res MavError VehicleState :=
  let '(mkState vt st ar mo cm ro pi ya ai th cl bv bc br bm bt cp gf gs gh ga gv gl gd) := s in
  consumed_mah ← i32le p 0; temp_cdeg ← i16le p 8; cell0_mv ← u16le p 10; current_ca ← i16le p 30;
  r ← idx p 35;
  let remaining := to_signed 8 r in
  let bm := keep (negb (consumed_mah =? -1)) consumed_mah bm in
  let bt := keep (negb (temp_cdeg =? 32767)) (f_div (f_of_Z temp_cdeg) (f_of_Z 100)) bt in
  let bv := keep (negb (cell0_mv =? 65535)) (f_div (f_of_Z cell0_mv) (f_of_Z 1000)) bv in
  let bc := keep (negb (current_ca =? -1)) (f_div (f_of_Z current_ca) (f_of_Z 100)) bc in
  let br := keep (negb (remaining =? -1)) remaining br in
  Ok (mkState vt st ar mo cm ro pi ya ai th cl bv bc br bm bt cp gf gs gh ga gv gl gd).

(** * Lemmas: reads *)

Lemma read_le_safe n b off : 0 ≤ off → 0 ≤ n → off + n ≤ zlen b → safe (read_le n b off).
Proof. intros. apply safe_bind; [apply safe_slice; lia|done]. Qed.

Lemma i32le_safe b off : 0 ≤ off → off + 4 ≤ zlen b → safe (i32le b off).
Proof. intros. apply safe_bind; [apply read_le_safe; lia|done]. Qed.
Lemma i16le_safe b off : 0 ≤ off → off + 2 ≤ zlen b → safe (i16le b off).
Proof. intros. apply safe_bind; [apply read_le_safe; lia|done]. Qed.
Lemma u16le_safe b off : 0 ≤ off → off + 2 ≤ zlen b → safe (u16le b off).
Proof. intros. apply read_le_safe; lia. Qed.
Lemma idx_safe b off : 0 ≤ off → off + 1 ≤ zlen b → safe (idx (E := MavError) (A := Z) b off).
Proof. intros. apply safe_idx. lia. Qed.

(** Every field of a decoder lies inside a payload of its full length. *)
Ltac read_tac :=
  repeat match goal with
  | |- safe (let '(mkState _ _ _ _ _ _ _ _ _ _ _ _ _ _ _ _ _ _ _ _ _ _ _ _) := ?s in _) => destruct s
  | |- safe (read_le _ _ _) => apply read_le_safe; lia
  | |- safe (idx _ _) => apply safe_idx; lia
  | |- safe (Ok _) => exact I
  | |- safe (_ ≫= _) => apply safe_bind; [|intros ? _]
  | |- safe (if _ then _ else _) => case_in_goal
  | |- safe (i32le _ _) => unfold i32le
  | |- safe (i16le _ _) => unfold i16le
  | |- safe (f32le _ _) => unfold f32le
  | |- safe (u32le _ _) => unfold u32le
  | |- safe (u16le _ _) => unfold u16le
  end.

Lemma decoders_safe s p :
  (9 ≤ zlen p → safe (heartbeat s p)) ∧ (31 ≤ zlen p → safe (sys_status s p))
  ∧ (28 ≤ zlen p → safe (attitude s p)) ∧ (20 ≤ zlen p → safe (vfr_hud s p))
  ∧ (36 ≤ zlen p → safe (battery_status s p)).
Proof.
  unfold heartbeat, sys_status, attitude, vfr_hud, battery_status. split_and!; intros; read_tac.
Qed.

Definition le_enc (n : nat) (v : Z) : bytes := rev (be_enc n v).

Lemma le_enc_ok n v : bytes_ok (le_enc n v).
Proof. apply bytes_ok_rev, be_enc_ok. Qed.

Lemma le_enc_zlen n v : zlen (le_enc n v) = Z.of_nat n.
Proof. unfold le_enc. by rewrite zlen_rev, be_enc_zlen. Qed.

Lemma le_enc_length n v : length (le_enc n v) = n.
Proof. unfold le_enc. by rewrite length_rev, be_enc_length. Qed.

Lemma read_le_at n k p v t off :
  zlen p = off → n = Z.of_nat k → read_le n (p ++ le_enc k v ++ t) off = Ok (v mod 256 ^ n).
Proof.
  intros Hp ->. unfold read_le.
  rewrite (proj2 (slice_Ok _ _ _ (le_enc k v))) by (apply get_range_app; [done|by rewrite le_enc_zlen]).
  cbn [mbind res_bind]. unfold le_val, le_enc. by rewrite rev_involutive, be_val_enc.
Qed.

Lemma i32le_at p v t off : zlen p = off → - 2 ^ 31 ≤ v < 2 ^ 31 → i32le (p ++ le_enc 4 v ++ t) off = Ok v.
Proof.
  intros Hp Hv. unfold i32le. rewrite (read_le_at 4 4) by done. cbn [mbind res_bind]. f_equal.
  by apply (to_signed_wrap 32).
Qed.
Lemma i16le_at p v t off : zlen p = off → - 2 ^ 15 ≤ v < 2 ^ 15 → i16le (p ++ le_enc 2 v ++ t) off = Ok v.
Proof.
  intros Hp Hv. unfold i16le. rewrite (read_le_at 2 2) by done. cbn [mbind res_bind]. f_equal.
  by apply (to_signed_wrap 16).
Qed.
Lemma u16le_at p v t off : zlen p = off → 0 ≤ v < 2 ^ 16 → u16le (p ++ le_enc 2 v ++ t) off = Ok v.
Proof. intros Hp Hv. unfold u16le. rewrite (read_le_at 2 2) by done. f_equal. by apply Z.mod_small. Qed.

(** * Lemmas: the checksum *)

(** CRC-16/MCRF4XX one bit at a time: the reflected polynomial 0x8408, the
    register starting at all ones and not complemented at the end. *)
Definition crc_bit (c : Z) : Z := if Z.odd c then Z.lxor (Z.shiftr c 1) 0x8408 else Z.shiftr c 1.
Definition crc_byte (b c : Z) : Z := Nat.iter 8 crc_bit (Z.lxor c b).
Definition mcrf4xx (data : bytes) : Z := fold_left (λ c b, crc_byte b c) data 0xFFFF.

Lemma crc_bit_lxor a b : crc_bit (Z.lxor a b) = Z.lxor (crc_bit a) (crc_bit b).
Proof.
  unfold crc_bit. rewrite <- !Z.bit0_odd, Z.lxor_spec, Z.shiftr_lxor.
  destruct (Z.testbit a 0), (Z.testbit b 0); simpl xorb; cbv iota;
    rewrite ?Z.lxor_assoc; f_equal; rewrite ?(Z.lxor_comm 0x8408), ?Z.lxor_assoc; try done.
  by rewrite Z.lxor_nilpotent, Z.lxor_0_r.
Qed.

Lemma crc_bits_lxor n a b : Nat.iter n crc_bit (Z.lxor a b) = Z.lxor (Nat.iter n crc_bit a) (Nat.iter n crc_bit b).
Proof. induction n as [|n IH]; simpl; [done|]. by rewrite IH, crc_bit_lxor. Qed.

(** Eight steps move the high byte down. *)
Lemma crc_bits_high n k h : 0 ≤ k → Nat.iter n crc_bit (Z.shiftl h (Z.of_nat n + k)) = Z.shiftl h k.
Proof.
  revert k. induction n as [|n IH]; intros k Hk; [by rewrite Z.add_0_l|].
  cbn [Nat.iter]. replace (Z.of_nat (S n) + k) with (Z.of_nat n + (k + 1)) by lia. simpl. rewrite IH by lia.
  unfold crc_bit. rewrite <- Z.bit0_odd, Z.shiftl_spec_low by lia.
  rewrite <- (Z.shiftl_shiftl h k 1) by lia. by rewrite Z.shiftr_shiftl_l, Z.sub_diag, Z.shiftl_0_r by lia.
Qed.

(** What one byte contributes. *)
Definition crc_table (t : Z) : Z := accum t 0.

Definition table_ok : bool :=
  forallb (λ t, crc_table (Z.of_nat t) =? Nat.iter 8 crc_bit (Z.of_nat t)) (seq 0 256).
Lemma table_ok_true : table_ok = true.
Proof. vm_compute. reflexivity. Qed.

Lemma crc_table_ref t : byte_ok t → crc_table t = Nat.iter 8 crc_bit t.
Proof.
  intros Ht. pose proof table_ok_true as H. unfold table_ok in H. rewrite forallb_forall in H.
  specialize (H (Z.to_nat t)). unfold byte_ok in Ht. rewrite Z2Nat.id in H by lia.
  apply Z.eqb_eq, H, in_seq. lia.
Qed.

Lemma accum_table b c : byte_ok b → accum b c = Z.lxor (Z.shiftr c 8) (crc_table (Z.lxor b (Z.land c 0xFF))).
Proof.
  intros Hb. unfold crc_table, accum. cbn zeta.
  rewrite (Z.land_0_l 255), Z.lxor_0_r, Z.shiftr_0_l, Z.lxor_0_l, <- !Z.lxor_assoc. done.
Qed.

Lemma land_byte c : 0 ≤ c → byte_ok (Z.land c 0xFF).
Proof. intros. change 0xFF with (2 ^ 8 - 1). rewrite land_mask by lia. apply Z.mod_pos_bound. lia. Qed.

Lemma accum_ref b c : byte_ok b → 0 ≤ c → accum b c = crc_byte b c.
Proof.
  intros Hb Hc. rewrite accum_table by done. pose proof (land_byte c Hc) as Hl.
  rewrite crc_table_ref by (by apply lxor_byte). unfold crc_byte.
  assert (c = Z.lxor (Z.shiftl (Z.shiftr c 8) (Z.of_nat 8 + 0)) (Z.land c 0xFF)) as Hsplit.
  { apply Z.bits_inj'. intros n Hn. change 255 with (Z.ones 8).
    rewrite Z.lxor_spec, Z.land_spec. change (Z.of_nat 8 + 0) with 8. destruct (Z.lt_ge_cases n 8).
    - rewrite Z.shiftl_spec_low, Z.ones_spec_low by lia. by rewrite andb_true_r, xorb_false_l.
    - rewrite Z.shiftl_spec, Z.shiftr_spec, Z.ones_spec_high by lia. replace (n - 8 + 8) with n by lia.
      by rewrite andb_false_r, xorb_false_r. }
  assert (Z.lxor c b = Z.lxor (Z.shiftl (Z.shiftr c 8) (Z.of_nat 8 + 0)) (Z.lxor b (Z.land c 0xFF))) as ->.
  { rewrite (Z.lxor_comm b), <- Z.lxor_assoc. by rewrite <- Hsplit. }
  rewrite (crc_bits_lxor 8 (Z.shiftl _ _)), (crc_bits_high 8 0) by lia.
  by rewrite Z.shiftl_0_r.
Qed.

Lemma crc_byte_range b c : byte_ok b → 0 ≤ c < 2 ^ 16 → 0 ≤ crc_byte b c < 2 ^ 16.
Proof.
  intros Hb Hc. unfold crc_byte.
  assert (∀ n x, 0 ≤ x < 2 ^ 16 → 0 ≤ Nat.iter n crc_bit x < 2 ^ 16) as H.
  { intros n x Hx. induction n as [|n IH]; [done|]. simpl. unfold crc_bit.
    pose proof (shiftr_range _ 1 16 ltac:(lia) IH) as Hs. change (2 ^ (16 - 1)) with 32768 in Hs.
    set (y := Z.shiftr _ 1) in *. assert (0 ≤ y < 2 ^ 16) by (change (2 ^ 16) with 65536; lia).
    destruct (Z.odd _); [|done]. by apply (lxor_range y 33800 16). }
  apply H, lxor_range; unfold byte_ok in Hb; lia.
Qed.

Lemma crc_fold data c :
  bytes_ok data → 0 ≤ c < 2 ^ 16 →
  fold_left (λ c b, accum b c) data c = fold_left (λ c b, crc_byte b c) data c
  ∧ 0 ≤ fold_left (λ c b, accum b c) data c < 2 ^ 16.
Proof.
  intros Hd. revert c. induction Hd as [|b l Hb Hl IH]; intros c Hc; simpl; [done|].
  rewrite accum_ref by (done || lia). by apply IH, crc_byte_range.
Qed.

Lemma crc_ref data extra : bytes_ok data → byte_ok extra → crc data extra = mcrf4xx (data ++ [extra]).
Proof.
  intros Hd He. unfold crc, mcrf4xx. rewrite fold_left_app. cbn [fold_left].
  destruct (crc_fold data 0xFFFF Hd) as [<- H]; [lia|]. apply accum_ref; [done|lia].
Qed.

Lemma crc_range data extra : bytes_ok data → byte_ok extra → 0 ≤ crc data extra < 2 ^ 16.
Proof.
  intros Hd He. unfold crc. destruct (crc_fold data 0xFFFF Hd) as [_ H]; [lia|].
  rewrite accum_ref by (done || lia). by apply crc_byte_range.
Qed.

(** The table's high byte tells the entries apart, so one step can be undone. *)
Definition table_inj : bool :=
  bool_decide (NoDup ((λ t, Z.shiftr (crc_table (Z.of_nat t)) 8) <$> seq 0 256)).
Lemma table_inj_true : table_inj = true.
Proof. vm_compute. reflexivity. Qed.

Lemma crc_table_high t u :
  byte_ok t → byte_ok u → Z.shiftr (crc_table t) 8 = Z.shiftr (crc_table u) 8 → t = u.
Proof.
  intros Ht Hu He. pose proof (bool_decide_eq_true_1 _ table_inj_true) as H. unfold byte_ok in *.
  set (f := λ t, Z.shiftr (crc_table (Z.of_nat t)) 8) in H.
  assert (∀ x, 0 ≤ x < 256 → (f <$> seq 0 256) !! Z.to_nat x = Some (Z.shiftr (crc_table x) 8)) as Hf.
  { intros x Hx. rewrite list_lookup_fmap, lookup_seq_lt by lia. simpl. unfold f. by rewrite Z2Nat.id by lia. }
  assert (Z.to_nat t = Z.to_nat u); [|lia].
  eapply NoDup_lookup; [exact H|by apply Hf|]. rewrite He. by apply Hf.
Qed.

Lemma accum_inj b b' c c' :
  byte_ok b → byte_ok b' → 0 ≤ c < 2 ^ 16 → 0 ≤ c' < 2 ^ 16 → accum b c = accum b' c' →
  Z.lxor b (Z.land c 0xFF) = Z.lxor b' (Z.land c' 0xFF) ∧ Z.shiftr c 8 = Z.shiftr c' 8.
Proof.
  intros Hb Hb' Hc Hc'. rewrite !accum_table by done. intros He.
  pose proof (land_byte c ltac:(lia)). pose proof (land_byte c' ltac:(lia)).
  assert (∀ x, 0 ≤ x < 2 ^ 16 → Z.shiftr (Z.shiftr x 8) 8 = 0) as Hz.
  { intros x Hx. rewrite Z.shiftr_shiftr by lia. apply Z.shiftr_eq_0; [lia|].
    destruct (decide (x = 0)) as [->|]; [done|]. apply Z.log2_lt_pow2; lia. }
  assert (Z.lxor b (Z.land c 0xFF) = Z.lxor b' (Z.land c' 0xFF)) as Ht.
  { apply crc_table_high; [by apply lxor_byte..|]. apply (f_equal (λ x, Z.shiftr x 8)) in He.
    rewrite !Z.shiftr_lxor, !Hz, !Z.lxor_0_l in He by done. done. }
  split; [done|]. rewrite Ht in He. apply (f_equal (λ x, Z.lxor x (crc_table (Z.lxor b' (Z.land c' 255))))) in He.
  by rewrite !Z.lxor_assoc, !Z.lxor_nilpotent, !Z.lxor_0_r in He.
Qed.

Lemma lxor_cancel_l a b c : Z.lxor a b = Z.lxor a c → b = c.
Proof.
  intros H. apply (f_equal (Z.lxor a)) in H. by rewrite <- !Z.lxor_assoc, !Z.lxor_nilpotent, !Z.lxor_0_l in H.
Qed.

Lemma accum_inj_state b c c' :
  byte_ok b → 0 ≤ c < 2 ^ 16 → 0 ≤ c' < 2 ^ 16 → accum b c = accum b c' → c = c'.
Proof.
  intros Hb Hc Hc' He. apply accum_inj in He as [Hl%lxor_cancel_l Hh]; try done.
  change 255 with (2 ^ 8 - 1) in Hl. rewrite !land_mask in Hl by lia. rewrite !Z.shiftr_div_pow2 in Hh by lia.
  rewrite (Z.div_mod c (2 ^ 8)), (Z.div_mod c' (2 ^ 8)) by lia. congruence.
Qed.

Lemma accum_inj_byte b b' c : byte_ok b → byte_ok b' → 0 ≤ c < 2 ^ 16 → accum b c = accum b' c → b = b'.
Proof.
  intros Hb Hb' Hc He. apply accum_inj in He as [Hl _]; try done.
  rewrite !(Z.lxor_comm _ (Z.land c 255)) in Hl. by apply lxor_cancel_l in Hl.
Qed.

Lemma crc_fold_inj data c c' :
  bytes_ok data → 0 ≤ c < 2 ^ 16 → 0 ≤ c' < 2 ^ 16 →
  fold_left (λ c b, accum b c) data c = fold_left (λ c b, accum b c) data c' → c = c'.
Proof.
  intros Hd. revert c c'. induction Hd as [|b l Hb Hl IH]; intros c c' Hc Hc'; simpl; [done|]. intros He.
  apply IH in He; [by apply accum_inj_state in He|..]; rewrite accum_ref by (done || lia); by apply crc_byte_range.
Qed.

Lemma crc_one_byte a b b' d extra :
  bytes_ok (a ++ b :: d) → byte_ok b' → byte_ok extra →
  crc (a ++ b :: d) extra = crc (a ++ b' :: d) extra → b = b'.
Proof.
  intros (Ha & Hbd)%bytes_ok_app Hb' He H. inversion Hbd as [|? ? Hb Hd]; subst.
  unfold crc in H. rewrite !fold_left_app in H. simpl in H.
  destruct (crc_fold a 0xFFFF Ha) as [_ Hr]; [lia|].
  assert (∀ x, byte_ok x → 0 ≤ accum x (fold_left (λ c b, accum b c) a 65535) < 2 ^ 16) as Hx.
  { intros x Hx. rewrite accum_ref by (done || lia). by apply crc_byte_range. }
  apply accum_inj_state in H; [|done|by apply crc_fold, Hx..].
  apply crc_fold_inj in H; [|done|by apply Hx..]. by apply accum_inj_byte in H.
Qed.
