(* ===== verification/Mavlink.v ===== *)
(** The MAVLink connector (rust/connectors/mavlink/src/mavlink.rs): framing of
    both protocol versions, the per-vehicle telemetry cache and the frames
    carried until the vehicle's next event. *)
From Stdlib Require Import ZArith Lia.
From Stdlib Require Import Strings.String.
From S2P Require Export MavMsg.

Local Open Scope Z_scope.

(** @src rust/connectors/mavlink/src/mavlink.rs 19-20 MAX_PENDING_FRAMES MAX_PENDING_BYTES *)
Definition MAX_PENDING_FRAMES : Z := 128.
Definition MAX_PENDING_BYTES : Z := 32 * 1024.

(** @src rust/connectors/mavlink/src/mavlink.rs 70-94 MavPosition *)
Record MavPosition := mkMavPosition {
  sysid : Z;
  msg_id : Z;
  lat : f64;
  lon : f64;
  alt_m : f64;
  relative_alt_m : option f64;
  heading_deg : option f64;
  course_deg : option f64;
  sog_mps : option f64;
  vertical_speed_mps : option f64;
  state : VehicleState;
  raw : bytes;
  truncated : bool
}.

(** @src rust/connectors/mavlink/src/mavlink.rs 96-102 Vehicle *)
Record Vehicle := mkVehicle {
  v_state : VehicleState;
  pending : list bytes;
  pending_bytes : Z;
  dropped_since_emit : bool
}.
Definition no_vehicle : Vehicle := mkVehicle no_state [] 0 false.

(** @src rust/connectors/mavlink/src/mavlink.rs 105-119 Vehicle::push_raw *)
Definition push_raw (v : Vehicle) (raw : bytes) : Vehicle * Z :=
  let '(pend, n, flag, dropped) :=
    shed MAX_PENDING_FRAMES MAX_PENDING_BYTES (pending v ++ [raw]) (pending_bytes v + zlen raw)
      (dropped_since_emit v) 0 in
  (mkVehicle (v_state v) pend n flag, dropped).

(** @src rust/connectors/mavlink/src/mavlink.rs 121-130 Vehicle::drain_payload *)
Definition drain_payload (v : Vehicle) : Vehicle * (bytes * bool) :=
  (mkVehicle (v_state v) [] 0 false, (concat (pending v), dropped_since_emit v)).

(** @src rust/connectors/mavlink/src/mavlink.rs 132-137 MavParser *)
Record MavParser := mkMavParser {
  source_id : string;
  enrichment : Enrichment;
  vehicles : gmap Z Vehicle;
  dropped : Z
}.

(** @src rust/connectors/mavlink/src/mavlink.rs 140-147 MavParser::new *)
Definition mav_new (src : string) (e : Enrichment) : MavParser := mkMavParser src e ∅ 0.

(** [vehicles.entry(sysid).or_default()]. *)
Definition vehicle (self : MavParser) (sid : Z) : Vehicle := default no_vehicle (vehicles self !! sid).
Definition put (self : MavParser) (sid : Z) (v : Vehicle) : MavParser :=
  mkMavParser (source_id self) (enrichment self) (<[sid := v]> (vehicles self)) (dropped self).

Definition with_state (v : Vehicle) (st : VehicleState) : Vehicle :=
  mkVehicle st (pending v) (pending_bytes v) (dropped_since_emit v).

(** @src rust/connectors/mavlink/src/mavlink.rs 211-214 MavParser::mutate *)
Definition mutate (self : MavParser) (sid : Z) (f : VehicleState → res MavError VehicleState) :
    res MavError MavParser :=
  st ← f (v_state (vehicle self sid)); Ok (put self sid (with_state (vehicle self sid) st)).

(** @src rust/connectors/mavlink/src/mavlink.rs 216-223 MavParser::snapshot *)
Definition snapshot (self : MavParser) (sid : Z) : VehicleState :=
  default no_state (v_state <$> vehicles self !! sid).

(** @src rust/connectors/mavlink/src/mavlink.rs 225-237 MavParser::carry *)
Definition carry (self : MavParser) (sid : Z) (raw : bytes) : MavParser :=
  let '(v, k) := push_raw (vehicle self sid) raw in
  let self := put self sid v in
  mkMavParser (source_id self) (enrichment self) (vehicles self)
    (if 0 <? k then fetch_add (dropped self) k else dropped self).

(** @src rust/connectors/mavlink/src/mavlink.rs 239-246 MavParser::drain *)
Definition drain (self : MavParser) (sid : Z) : MavParser * (bytes * bool) :=
  let '(v, out) := drain_payload (vehicle self sid) in (put self sid v, out).

Definition E7 : f64 := f_of_Z 10000000.

(** @src rust/connectors/mavlink/src/mavlink.rs 248-273 MavParser::global_position *)
Definition global_position (self : MavParser) (sid : Z) (p : bytes) : res MavError (MavParser * MavPosition) :=
  vx ← i16le p 20; vy ← i16le p 22; vz ← i16le p 24;
  let vx_cms := f_of_Z vx in
  let vy_cms := f_of_Z vy in
  let climb := f_div (f_neg (f_of_Z vz)) (f_of_Z 100) in
  hdg_cdeg ← u16le p 26;
  let '(self, (raw, trunc)) := drain self sid in
  la ← i32le p 4; lo ← i32le p 8; al ← i32le p 12; ra ← i32le p 16;
  Ok (self, mkMavPosition sid 33 (f_div (f_of_Z la) E7) (f_div (f_of_Z lo) E7) (f_div (f_of_Z al) (f_of_Z 1000))
        (Some (f_div (f_of_Z ra) (f_of_Z 1000)))
        (if negb (hdg_cdeg =? 65535) then Some (f_div (f_of_Z hdg_cdeg) (f_of_Z 100)) else None)
        None
        (Some (f_div (f_sqrt (f_add (f_mul vx_cms vx_cms) (f_mul vy_cms vy_cms))) (f_of_Z 100)))
        (Some (if f_eqb climb f_zero then f_zero else climb))
        (snapshot self sid) raw trunc).

(** The [ext] closure: an all-zero or all-ones extension is not known. *)
Definition ext (p : bytes) (off : Z) : res MavError (option f64) :=
  v ← u32le p off; Ok (if negb (v =? 0) && negb (v =? 2 ^ 32 - 1) then Some (f_of_Z v) else None).

(** @src rust/connectors/mavlink/src/mavlink.rs 290-301 MavParser::gps_raw *)
Definition gps_quality (p : bytes) (eph sats : Z) (fix_ : option string) (s : VehicleState) :
    res MavError VehicleState :=
  let '(mkState vt st ar mo cm ro pi ya ai th cl bv bc br bm bt cp _ _ _ _ _ _ _) := s in
  h ← ext p 34; v ← ext p 38; vel ← ext p 42; hd ← ext p 46;
  let mm x := f_div x (f_of_Z 1000) in
  let hd := match (λ d, f_div d (f_of_Z 100000)) <$> hd with
            | Some deg => if f_leb deg (f_of_Z 360) then Some deg else None
            | None => None
            end in
  Ok (mkState vt st ar mo cm ro pi ya ai th cl bv bc br bm bt cp fix_
        (if negb (sats =? 255) then Some sats else None)
        (if negb (eph =? 65535) then Some (f_div (f_of_Z eph) (f_of_Z 100)) else None)
        (mm <$> h) (mm <$> v) (mm <$> vel) hd).

(** @src rust/connectors/mavlink/src/mavlink.rs 275-318 MavParser::gps_raw *)
Definition gps_raw (self : MavParser) (sid : Z) (p : bytes) : res MavError (MavParser * MavPosition) :=
  eph ← u16le p 20; vel_cms ← u16le p 24; cog_cdeg ← u16le p 26; f ← idx p 28; sats ← idx p 29;
  self ← mutate self sid (gps_quality p eph sats (gps_fix f));
  let '(self, (raw, trunc)) := drain self sid in
  la ← i32le p 8; lo ← i32le p 12; al ← i32le p 16;
  Ok (self, mkMavPosition sid 24 (f_div (f_of_Z la) E7) (f_div (f_of_Z lo) E7) (f_div (f_of_Z al) (f_of_Z 1000))
        None None
        (if negb (cog_cdeg =? 65535) then Some (f_div (f_of_Z cog_cdeg) (f_of_Z 100)) else None)
        (if negb (vel_cms =? 65535) then Some (f_div (f_of_Z vel_cms) (f_of_Z 100)) else None)
        None (snapshot self sid) raw trunc).

(** @src rust/connectors/mavlink/src/mavlink.rs 152-170 MavParser::parse_frame *)
Definition frame_header (frame : bytes) : res MavError (Z * Z * Z * Z) :=
  magic ← ok_or Truncated (get frame 0);
  if magic =? 0xFE then
    if zlen frame <? 6 then Err Truncated
    else len ← idx frame 1; sid ← idx frame 3; mid ← idx frame 5; Ok (len, 6, sid, mid)
  else if magic =? 0xFD then
    if zlen frame <? 10 then Err Truncated
    else
      m0 ← idx frame 7; m1 ← idx frame 8; m2 ← idx frame 9;
      len ← idx frame 1; sid ← idx frame 5;
      Ok (len, 10, sid, Z.lor (Z.lor m0 (Z.shiftl m1 8)) (Z.shiftl m2 16))
  else Err NotMavlink.

Definition no_position (r : res MavError MavParser) : res MavError (MavParser * option MavPosition) :=
  s ← r; Ok (s, None).
Definition a_position (r : res MavError (MavParser * MavPosition)) :
    res MavError (MavParser * option MavPosition) :=
  '(s, p) ← r; Ok (s, Some p).

(** @src rust/connectors/mavlink/src/mavlink.rs 197-208 MavParser::parse_frame *)
Definition dispatch (self : MavParser) (sid mid : Z) (payload : bytes) :
    res MavError (MavParser * option MavPosition) :=
  let update f := no_position (mutate self sid (λ s, f s payload)) in
  if mid =? 0 then update heartbeat
  else if mid =? 1 then update sys_status
  else if mid =? 30 then update attitude
  else if mid =? 74 then update vfr_hud
  else if mid =? 147 then update battery_status
  else if mid =? 33 then a_position (global_position self sid payload)
  else if mid =? 24 then a_position (gps_raw self sid payload)
  else Ok (self, None).

(** The body in a zeroed buffer of 255 bytes, cut at the full length. *)
Definition zero_extend (body : bytes) (full_len : Z) : res MavError bytes :=
  let n := Z.min (zlen body) full_len in
  b ← slice body 0 n; slice (b ++ replicate (Z.to_nat (255 - n)) 0) 0 full_len.

(** @src rust/connectors/mavlink/src/mavlink.rs 149-209 MavParser::parse_frame *)
Definition parse_frame (self : MavParser) (frame : bytes) : MavParser * res MavError (option MavPosition) :=
  let r :=
    '(len, header_len, sid, mid) ← frame_header frame;
    let crc_start := header_len + len in
    if zlen frame <? crc_start + 2 then Err Truncated
    else
      msg ← slice frame 0 (crc_start + 2);
      match crc_extra_and_len mid with
      | None => Ok (carry self sid msg, None)
      | Some (crc_extra, full_len) =>
          g0 ← idx frame crc_start; g1 ← idx frame (crc_start + 1);
          covered ← slice frame 1 crc_start;
          if negb (crc covered crc_extra =? Z.lor g0 (Z.shiftl g1 8)) then Err BadCrc
          else
            body ← slice frame header_len crc_start;
            payload ← zero_extend body full_len;
            dispatch (carry self sid msg) sid mid payload
      end in
  match r with
  | Ok (s, o) => (s, Ok o)
  | Err e => (self, Err e)
  | Panic => (self, Panic)
  | NoFuel => (self, NoFuel)
  end.

(** @src rust/connectors/mavlink/src/mavlink.rs 320-386 MavParser::base_builder *)
Definition base_builder (env : Env) (self : MavParser) (p : MavPosition) : EventBuilder :=
  let s := state p in
  let f1 v := fmt_fixed 1 v in
  let f2 v := fmt_fixed 2 v in
  let b := new_id env (builder_new (source_id self) "mim:aircraft") in
  let b := set_payload (raw p) (set_location (lat p) (lon p) (alt_m p) b) in
  let b := add_metadata "source_uid" (show (sysid p)) b in
  let b := add_metadata "mav_sysid" (show (sysid p)) b in
  let b := identity "MAVLink" (show (sysid p)) b in
  let b := on_true (truncated p) (add_metadata "payload_truncated" "true") b in
  let b := on_some (hostility (enrichment self)) (attribute "hostility") b in
  let b := on_some (f1 <$> sog_mps p) (attribute "speed") b in
  let b := on_some (f1 <$> heading_deg p) (attribute "heading") b in
  let b := on_some (f1 <$> course_deg p) (attribute "course") b in
  let b := on_some (f1 <$> match vertical_speed_mps p with Some v => Some v | None => climb_mps s end)
             (attribute "vertical_rate") b in
  let b := on_some (f1 <$> relative_alt_m p) (attribute "relative_altitude") b in
  let b := on_some (vehicle_type s) (attribute "vehicle_type") b in
  let b := on_some (status s) (attribute "status") b in
  let b := on_some ((λ a : bool, if a then "true"%string else "false"%string) <$> armed s) (attribute "armed") b in
  let b := on_some (mode s) (attribute "mode") b in
  let b := on_some (f1 <$> roll_deg s) (attribute "roll") b in
  let b := on_some (f1 <$> pitch_deg s) (attribute "pitch") b in
  let b := on_some (f1 <$> yaw_deg s) (attribute "yaw") b in
  let b := on_some (f1 <$> airspeed_mps s) (attribute "airspeed") b in
  let b := on_some (show <$> throttle_pct s) (attribute "throttle") b in
  let b := on_some (f2 <$> battery_voltage_v s) (attribute "battery_voltage") b in
  let b := on_some (f2 <$> battery_current_a s) (attribute "battery_current") b in
  let b := on_some (show <$> battery_remaining_pct s) (attribute "battery") b in
  let b := on_some (show <$> battery_consumed_mah s) (attribute "battery_consumed") b in
  let b := on_some (f1 <$> battery_temp_c s) (attribute "battery_temp") b in
  let b := on_some (fmt_fixed 0 <$> cpu_load_pct s) (attribute "cpu_load") b in
  let b := on_some (st_gps_fix s) (attribute "gps_fix") b in
  let b := on_some (show <$> gps_sats s) (attribute "gps_satellites") b in
  let b := on_some (f2 <$> gps_hdop s) (attribute "gps_hdop") b in
  let b :=
    if msg_id p =? 24 then
      let b := on_some (f2 <$> gps_h_acc_m s) (attribute "position_accuracy_h_m") b in
      let b := on_some (f2 <$> gps_v_acc_m s) (attribute "position_accuracy_v_m") b in
      let b := on_some (f2 <$> gps_vel_acc_mps s) (attribute "speed_accuracy") b in
      on_some (f2 <$> gps_hdg_acc_deg s) (attribute "angle_accuracy") b
    else b in
  on_some (custom_mode s) (λ c, add_metadata "custom_mode" (show c)) b.

(** @src rust/connectors/mavlink/src/mavlink.rs 388-390 MavParser::to_event_at *)
Definition to_event_at (env : Env) (self : MavParser) (p : MavPosition) (observed : string) :
    res MavError Event :=
  map_err Build (build (set_timestamp observed (base_builder env self p))).

(** @src rust/connectors/mavlink/src/mavlink.rs 394-406 MavParser::parse *)
Definition parse (envs : Envs) (self : MavParser) (frame : bytes) : MavParser * res MavError (list Event) :=
  let '(self, r) := parse_frame self frame in
  (self,
   o ← r;
   match o with
   | None => Ok []
   | Some pos =>
       e ← map_err Build (build (now (envs 0%nat) (base_builder (envs 0%nat) self pos)));
       Ok [e]
   end).

(** * Lemmas: the vehicles *)

Definition vehicle_ok (v : Vehicle) : Prop :=
  carried_ok MAX_PENDING_FRAMES MAX_PENDING_BYTES (pending v) (pending_bytes v).
Definition mav_ok (s : MavParser) : Prop := map_Forall (λ _, vehicle_ok) (vehicles s).

Lemma no_vehicle_ok : vehicle_ok no_vehicle.
Proof. by apply carried_nil. Qed.

Lemma mav_new_ok src e : mav_ok (mav_new src e).
Proof. apply map_Forall_empty. Qed.

Lemma vehicle_is_ok s sid : mav_ok s → vehicle_ok (vehicle s sid).
Proof.
  intros Hs. unfold vehicle. destruct (vehicles s !! sid) as [v|] eqn:Hv; [by apply (Hs sid)|apply no_vehicle_ok].
Qed.

Lemma vehicle_put_ok s sid v : mav_ok s → vehicle_ok v → mav_ok (put s sid v).
Proof. intros. by apply map_Forall_insert_2. Qed.

Lemma vehicle_put s sid v : vehicle (put s sid v) sid = v.
Proof. unfold vehicle, put. cbn [vehicles]. by rewrite lookup_insert_eq. Qed.

Lemma put_put s sid v w : put (put s sid v) sid w = put s sid w.
Proof. unfold put. cbn [vehicles source_id enrichment dropped]. by rewrite insert_insert_eq. Qed.

Lemma snapshot_vehicle s sid : snapshot s sid = v_state (vehicle s sid).
Proof. unfold snapshot, vehicle. by destruct (vehicles s !! sid). Qed.

Lemma carry_ok s sid raw : mav_ok s → mav_ok (carry s sid raw).
Proof.
  intros Hs. destruct (vehicle_is_ok s sid Hs) as (Hb & _ & _). unfold carry, push_raw.
  pose proof (shed_spec MAX_PENDING_FRAMES MAX_PENDING_BYTES (pending (vehicle s sid) ++ [raw])
    (pending_bytes (vehicle s sid) + zlen raw) (dropped_since_emit (vehicle s sid)) 0) as H.
  destruct (shed _ _ _ _ _ _) as [[[p n] f] k]. destruct H as (Hok & _); try done.
  { rewrite total_bytes_app, Hb. change (total_bytes [raw]) with (zlen raw + 0). lia. }
  by apply (vehicle_put_ok s sid (mkVehicle _ p n f)).
Qed.

Lemma drain_ok s sid : mav_ok s → mav_ok (drain s sid).1.
Proof. intros. by apply vehicle_put_ok, no_vehicle_ok. Qed.

Lemma mutate_spec s sid f :
  mav_ok s → (∀ st, safe (f st)) →
  safe (mutate s sid f) ∧ ∀ s', mutate s sid f = Ok s' → mav_ok s'.
Proof.
  intros Hs Hf. unfold mutate. specialize (Hf (v_state (vehicle s sid))).
  destruct (f _) as [st| | |]; try done. split; [done|]. intros s' [= <-].
  by apply vehicle_put_ok; [|apply vehicle_is_ok].
Qed.

(** A call that returns leaves the vehicles well-formed. *)
Definition returns_ok {A} (r : res MavError (MavParser * A)) : Prop :=
  safe r ∧ ∀ s a, r = Ok (s, a) → mav_ok s.

Lemma returns_bind {A B} (m : res MavError B) (f : B → res MavError (MavParser * A)) :
  safe m → (∀ b, m = Ok b → returns_ok (f b)) → returns_ok (m ≫= f).
Proof.
  intros Hm Hf. destruct m as [b| | |]; try done. by apply Hf.
Qed.

Lemma a_position_ok r : returns_ok r → returns_ok (a_position r).
Proof.
  intros [H1 H2]. destruct r as [[s p]| | |]; try done. split; [done|]. intros s' o [= <- <-]. by eapply H2.
Qed.

Ltac read_step :=
  apply returns_bind;
  [first [apply i32le_safe | apply i16le_safe | apply u16le_safe | apply idx_safe]; lia|intros ? _].

Lemma global_position_ok s sid p : mav_ok s → 28 ≤ zlen p → returns_ok (global_position s sid p).
Proof.
  intros Hs Hp. unfold global_position. do 4 read_step.
  destruct (drain s sid) as [s' [raw tr]] eqn:Hd. pose proof (drain_ok s sid Hs) as Hs'. rewrite Hd in Hs'.
  do 4 read_step. split; [done|]. by intros ? ? [= <- <-].
Qed.

Lemma gps_quality_safe p eph sats f st : 52 ≤ zlen p → safe (gps_quality p eph sats f st).
Proof.
  intros Hp. unfold gps_quality. destruct st.
  repeat (apply safe_bind; [unfold ext; apply safe_bind; [apply read_le_safe; lia|done]|intros ? _]). done.
Qed.

Lemma gps_raw_ok s sid p : mav_ok s → 52 ≤ zlen p → returns_ok (gps_raw s sid p).
Proof.
  intros Hs Hp. unfold gps_raw. do 5 read_step.
  match goal with |- context [mutate s sid ?f] =>
    destruct (mutate_spec s sid f Hs) as [Hsafe Hok]; [intros; by apply gps_quality_safe|] end.
  apply returns_bind; [done|]. intros s1 Hs1%Hok.
  destruct (drain s1 sid) as [s' [raw tr]] eqn:Hd. pose proof (drain_ok s1 sid Hs1) as Hs'. rewrite Hd in Hs'.
  do 3 read_step. split; [done|]. by intros ? ? [= <- <-].
Qed.

Lemma update_ok s sid f : mav_ok s → (∀ st, safe (f st)) → returns_ok (no_position (mutate s sid f)).
Proof.
  intros Hs Hf. destruct (mutate_spec s sid f Hs Hf) as [H1 H2].
  apply returns_bind; [done|]. intros b Hb%H2. split; [done|]. by intros ? ? [= <- <-].
Qed.

Lemma dispatch_ok s sid mid p extra full :
  mav_ok s → crc_extra_and_len mid = Some (extra, full) → zlen p = full → returns_ok (dispatch s sid mid p).
Proof.
  intros Hs Hm Hp. unfold crc_extra_and_len in Hm. unfold dispatch.
  repeat match goal with
  | |- context [mid =? ?k] => destruct (Z.eqb_spec mid k) as [->|?];
      [injection Hm as <- <-; cbn beta iota zeta|]
  end; try (apply update_ok; [done|intros st; destruct (decoders_safe st p) as (? & ? & ? & ? & ?); eauto with lia]).
  - apply a_position_ok, global_position_ok; [done|lia].
  - apply a_position_ok, gps_raw_ok; [done|lia].
  - split; [done|]. by intros ? ? [= <- <-].
Qed.

(** * Lemmas: frames *)

Lemma frame_header_spec frame :
  bytes_ok frame →
  match frame_header frame with
  | Ok (len, hl, sid, mid) => byte_ok len ∧ 1 ≤ hl ≤ zlen frame ∧ byte_ok sid
  | Err _ => True
  | _ => False
  end.
Proof.
  intros Hb. unfold frame_header. destruct (get frame 0) as [m|]; [|done]. cbn [ok_or mbind res_bind].
  assert (∀ i, 0 ≤ i < zlen frame → ∃ b, idx (E := MavError) frame i = Ok b ∧ byte_ok b) as Hi.
  { intros i Hi. destruct (get_is_Some frame i Hi) as [b Hg]. exists b. split; [|by eapply bytes_ok_get].
    unfold idx. by rewrite Hg. }
  destruct (m =? 0xFE); [destruct (Z.ltb_spec (zlen frame) 6); [done|]|
    destruct (m =? 0xFD); [destruct (Z.ltb_spec (zlen frame) 10); [done|]|done]].
  - destruct (Hi 1 ltac:(lia)) as (? & -> & ?), (Hi 3 ltac:(lia)) as (? & -> & ?), (Hi 5 ltac:(lia)) as (? & -> & ?).
    cbn [mbind res_bind]. split_and!; try done; lia.
  - destruct (Hi 7 ltac:(lia)) as (? & -> & ?), (Hi 8 ltac:(lia)) as (? & -> & ?), (Hi 9 ltac:(lia)) as (? & -> & ?).
    destruct (Hi 1 ltac:(lia)) as (? & -> & ?), (Hi 5 ltac:(lia)) as (? & -> & ?).
    cbn [mbind res_bind]. split_and!; try done; lia.
Qed.

Lemma crc_table_full mid extra full :
  crc_extra_and_len mid = Some (extra, full) → 0 ≤ full ≤ 52 ∧ byte_ok extra ∧ 0 ≤ mid < 256.
Proof.
  unfold crc_extra_and_len, byte_ok.
  repeat match goal with |- context [mid =? ?k] => destruct (Z.eqb_spec mid k) as [->|?]; [intros [= <- <-]; lia|] end.
  done.
Qed.

(** The payload a decoder sees: the body, zero-filled or cut to full length. *)
Definition padded (full : Z) (body : bytes) : bytes :=
  take (Z.to_nat full) body ++ replicate (Z.to_nat (full - zlen body)) 0.

Lemma zero_extend_spec body full : 0 ≤ full ≤ 255 → zero_extend body full = Ok (padded full body).
Proof.
  intros Hf. unfold zero_extend. pose proof (zlen_nonneg body).
  rewrite (proj2 (slice_Ok body 0 _ (take (Z.to_nat full) body))).
  2: { apply get_range_Some. rewrite Z.sub_0_r, drop_0. split_and!; try lia. unfold zlen in *.
       destruct (Z.le_gt_cases full (Z.of_nat (length body))); [f_equal; lia|]. rewrite !take_ge by lia. done. }
  cbn [mbind res_bind]. apply slice_Ok, get_range_Some. rewrite Z.sub_0_r, drop_0, zlen_app.
  assert (∀ n, zlen (replicate n 0) = Z.of_nat n) as Hr by (intros; unfold zlen; by rewrite length_replicate).
  assert (zlen (take (Z.to_nat full) body) = Z.min (zlen body) full) as Ht by (unfold zlen in *; rewrite length_take; lia).
  rewrite Ht, Hr. split_and!; try lia. unfold padded. rewrite take_app. f_equal.
  - rewrite take_take. f_equal. unfold zlen in *. lia.
  - assert (length (take (Z.to_nat full) body) = Z.to_nat (Z.min (zlen body) full)) as -> by (unfold zlen in *; lia).
    rewrite take_replicate. f_equal. lia.
Qed.

Lemma padded_zlen full body : 0 ≤ full → zlen (padded full body) = full.
Proof.
  intros. unfold padded. rewrite zlen_app. unfold zlen in *. rewrite length_take, length_replicate. lia.
Qed.

Lemma parse_frame_ok s frame :
  mav_ok s → bytes_ok frame → mav_ok (parse_frame s frame).1 ∧ safe (parse_frame s frame).2.
Proof.
  intros Hs Hb. unfold parse_frame. set (r := _ ≫= _). enough (returns_ok r) as [H1 H2].
  { destruct r as [[s' o]| | |]; try done. cbn. split; [by eapply H2|done]. }
  subst r. apply returns_bind; [pose proof (frame_header_spec frame Hb); by destruct (frame_header frame)|].
  intros [[[len hl] sid] mid] Hh. pose proof (frame_header_spec frame Hb) as Hspec. rewrite Hh in Hspec.
  destruct Hspec as (Hlen & Hhl & Hsid). unfold byte_ok in Hlen.
  destruct (Z.ltb_spec (zlen frame) (hl + len + 2)); [by split|].
  apply returns_bind; [apply safe_slice; lia|]. intros msg _.
  destruct (crc_extra_and_len mid) as [[extra full]|] eqn:Hm.
  2: { split; [done|]. intros s' o [= <- <-]. by apply carry_ok. }
  pose proof (crc_table_full _ _ _ Hm) as (Hf & _).
  apply returns_bind; [apply safe_idx; lia|]. intros g0 _. apply returns_bind; [apply safe_idx; lia|]. intros g1 _.
  apply returns_bind; [apply safe_slice; lia|]. intros cov _. destruct (negb _); [by split|].
  apply returns_bind; [apply safe_slice; lia|]. intros body _. rewrite zero_extend_spec by lia.
  apply returns_bind; [done|]. intros p [= <-].
  eapply dispatch_ok; [by apply carry_ok|done|apply padded_zlen; lia].
Qed.

Lemma mav_parse_ok envs s frame :
  mav_ok s → bytes_ok frame → mav_ok (parse envs s frame).1 ∧ safe (parse envs s frame).2.
Proof.
  intros Hs Hb. unfold parse. destruct (parse_frame_ok s frame Hs Hb) as [H1 H2].
  destruct (parse_frame s frame) as [s' r]. split; [done|]. cbn [snd] in *.
  apply safe_bind; [done|]. intros [pos|] _; [|done]. apply safe_bind; [apply safe_build|done].
Qed.

#[export] Instance mav_parser : FrameParser := {|
  fp_state := MavParser; fp_error := MavError; fp_parse := parse
|}.

#[export] Instance mav_laws : FrameParserLaws mav_parser.
Proof.
  refine {| fp_inv := mav_ok : @fp_state mav_parser → Prop |}.
  - intros envs s frame Hs Hb. destruct (mav_parse_ok envs s frame Hs Hb). by split.
  - intros envs s frame es _ _ H. cbn in H. unfold parse in H. destruct (parse_frame s frame) as [s' r]. cbn in H.
    apply bind_Ok in H as ([pos|] & _ & H); [|injection H as <-; constructor].
    apply bind_Ok in H as (e & He & [= <-]). constructor; [by eapply build_all_canonical|constructor].
Defined.

(** ** The sender *)

Definition enc_head (v2 : bool) (seq sid comp mid : Z) (body : bytes) : bytes :=
  if v2 then [zlen body; 0; 0; seq; sid; comp] ++ le_enc 3 mid else [zlen body; seq; sid; comp; mid].
Definition magic_of (v2 : bool) : Z := if v2 then 0xFD else 0xFE.
Definition enc_frame (v2 : bool) (seq sid comp mid extra : Z) (body : bytes) : bytes :=
  let head := enc_head v2 seq sid comp mid body in
  magic_of v2 :: head ++ body ++ le_enc 2 (crc (head ++ body) extra).

Lemma enc_frame_header v2 seq sid comp mid extra full body t :
  crc_extra_and_len mid = Some (extra, full) →
  frame_header (magic_of v2 :: enc_head v2 seq sid comp mid body ++ t)
  = Ok (zlen body, if v2 then 10 else 6, sid, mid).
Proof.
  intros Hm. unfold enc_head, magic_of.
  assert (∀ (l : bytes) i x, 0 ≤ i → l !! Z.to_nat i = Some x → idx (E := MavError) l i = Ok x) as Hi.
  { intros l i x ? ?. unfold idx. by rewrite (get_at l i x). }
  unfold crc_extra_and_len in Hm. destruct v2.
  - repeat match type of Hm with context [mid =? ?k] => destruct (Z.eqb_spec mid k) as [->|?];
      [clear Hm|] end; try done.
    all: match goal with |- frame_header ?f = _ => set (frame := f) end.
    all: unfold frame_header; rewrite (get_at frame 0 253) by done; cbn [ok_or mbind res_bind];
      change (253 =? 254) with false; change (253 =? 253) with true; cbn iota;
      rewrite (proj2 (Z.ltb_ge (zlen frame) 10)) by
        (unfold frame, zlen; rewrite length_cons, !length_app, le_enc_length; cbn [length]; lia);
      rewrite (Hi frame 7 _ ltac:(lia) ltac:(reflexivity)), (Hi frame 8 _ ltac:(lia) ltac:(reflexivity)),
        (Hi frame 9 _ ltac:(lia) ltac:(reflexivity)), (Hi frame 1 _ ltac:(lia) ltac:(reflexivity)),
        (Hi frame 5 _ ltac:(lia) ltac:(reflexivity)); reflexivity.
  - match goal with |- frame_header ?f = _ => set (frame := f) end.
    unfold frame_header; rewrite (get_at frame 0 254) by done; cbn [ok_or mbind res_bind].
    change (254 =? 254) with true; cbn iota.
    rewrite (proj2 (Z.ltb_ge (zlen frame) 6)) by
      (unfold frame, zlen; rewrite length_cons, !length_app; cbn [length]; lia).
    by rewrite (Hi frame 1 _ ltac:(lia) ltac:(reflexivity)), (Hi frame 3 _ ltac:(lia) ltac:(reflexivity)),
      (Hi frame 5 _ ltac:(lia) ltac:(reflexivity)).
Qed.

Lemma enc_head_zlen v2 seq sid comp mid body : zlen (enc_head v2 seq sid comp mid body) = if v2 then 9 else 5.
Proof. unfold enc_head. destruct v2; [rewrite zlen_app, le_enc_zlen; done|done]. Qed.

Lemma enc_head_ok v2 seq sid comp mid body :
  byte_ok seq → byte_ok sid → byte_ok comp → byte_ok mid → zlen body ≤ 255 →
  bytes_ok (enc_head v2 seq sid comp mid body).
Proof.
  intros ? ? ? ? Hl. pose proof (zlen_nonneg body).
  assert (byte_ok (zlen body)) by (unfold byte_ok; lia).
  unfold enc_head. destruct v2; [|by repeat (constructor; [done|])].
  apply bytes_ok_app. split; [|apply le_enc_ok]. by repeat (constructor; [done|]).
Qed.

Lemma le_enc_2 c : 0 ≤ c < 2 ^ 16 → ∃ g0 g1, le_enc 2 c = [g0; g1] ∧ Z.lor g0 (Z.shiftl g1 8) = c.
Proof.
  intros Hc. exists (c mod 256), ((c / 256) mod 256). change (2 ^ 16) with 65536 in Hc.
  split; [unfold le_enc; cbn; by rewrite Z.div_1_r|].
  assert (0 ≤ c / 256 < 256) as H1 by (split; [apply Z.div_pos|apply Z.div_lt_upper_bound]; lia).
  assert (0 ≤ c mod 256 < 2 ^ 8) as H2 by (apply Z.mod_pos_bound; lia).
  rewrite (Z.mod_small _ _ H1), Z.lor_comm, (lor_shiftl _ _ 8 ltac:(lia) H2).
  change (2 ^ 8) with 256. pose proof (Z.div_mod c 256). lia.
Qed.

Definition finish (s : MavParser) (r : res MavError (MavParser * option MavPosition)) :
    MavParser * res MavError (option MavPosition) :=
  match r with Ok (s, o) => (s, Ok o) | Err e => (s, Err e) | Panic => (s, Panic) | NoFuel => (s, NoFuel) end.

(** A frame with these covered bytes and this checksum after them, whatever
    follows: accepted exactly when the checksum is the covered bytes' own. *)
Lemma parse_framed s magic head body c t sid mid extra full :
  frame_header (magic :: head ++ body ++ le_enc 2 c ++ t) = Ok (zlen body, 1 + zlen head, sid, mid) →
  crc_extra_and_len mid = Some (extra, full) → 0 ≤ c < 2 ^ 16 →
  parse_frame s (magic :: head ++ body ++ le_enc 2 c ++ t)
  = if crc (head ++ body) extra =? c
    then finish s (dispatch (carry s sid (magic :: head ++ body ++ le_enc 2 c)) sid mid (padded full body))
    else (s, Err BadCrc).
Proof.
  intros Hh Hm Hc. destruct (le_enc_2 c Hc) as (g0 & g1 & Hg & Hlor). rewrite Hg in *.
  pose proof (crc_table_full _ _ _ Hm) as (Hf & _). unfold parse_frame. rewrite Hh. cbn [mbind res_bind].
  set (frame := magic :: head ++ body ++ [g0; g1] ++ t).
  assert (frame = (magic :: head ++ body) ++ g0 :: g1 :: t) as E by (unfold frame; cbn; by rewrite <- !app_assoc).
  assert (zlen (magic :: head ++ body) = 1 + zlen head + zlen body) as Hz by (rewrite zlen_cons, zlen_app; lia).
  replace (zlen frame <? _) with false by
    (rewrite E, zlen_app, Hz, !zlen_cons; pose proof (zlen_nonneg t); lia).
  rewrite (proj2 (slice_Ok frame 0 _ (magic :: head ++ body ++ [g0; g1]))).
  2: { assert (frame = (magic :: head ++ body ++ [g0; g1]) ++ t) as -> by (unfold frame; cbn; by rewrite <- !app_assoc).
       apply get_range_head. rewrite zlen_cons, !zlen_app. change (zlen [g0; g1]) with 2. lia. }
  cbn [mbind res_bind]. rewrite Hm.
  unfold idx. rewrite E at 1. rewrite <- Hz at 1. rewrite get_at_app. cbn [or_panic mbind res_bind].
  assert (frame = ((magic :: head ++ body) ++ [g0]) ++ g1 :: t) as E1 by (rewrite E; by rewrite <- app_assoc).
  rewrite E1 at 1. replace (1 + zlen head + zlen body + 1) with (zlen ((magic :: head ++ body) ++ [g0]))
    by (rewrite zlen_app, Hz; done).
  rewrite get_at_app. cbn [or_panic mbind res_bind].
  rewrite (proj2 (slice_Ok frame 1 _ (head ++ body))).
  2: { rewrite E. apply (get_range_app [magic]); [done|rewrite zlen_app; lia]. }
  cbn [mbind res_bind]. rewrite Hlor. destruct (crc (head ++ body) extra =? c); cbn [negb]; [|done].
  rewrite (proj2 (slice_Ok frame _ _ body)).
  2: { apply (get_range_app (magic :: head)); [by rewrite zlen_cons|lia]. }
  cbn [mbind res_bind]. rewrite zero_extend_spec by lia. done.
Qed.

Lemma parse_enc s v2 seq sid comp mid extra full body body' c t :
  crc_extra_and_len mid = Some (extra, full) → 0 ≤ c < 2 ^ 16 → zlen body' = zlen body →
  let head := enc_head v2 seq sid comp mid body in
  parse_frame s (magic_of v2 :: head ++ body' ++ le_enc 2 c ++ t)
  = if crc (head ++ body') extra =? c
    then finish s (dispatch (carry s sid (magic_of v2 :: head ++ body' ++ le_enc 2 c)) sid mid (padded full body'))
    else (s, Err BadCrc).
Proof.
  intros Hm Hc Hl head. apply parse_framed; [|done|done].
  unfold head at 1. rewrite (enc_frame_header v2 seq sid comp mid extra full body) by done. rewrite Hl.
  unfold head. rewrite enc_head_zlen. by destruct v2.
Qed.

Lemma padded_trim full p k :
  zlen p = full → Forall (λ x, x = 0) (drop k p) → padded full (take k p) = p.
Proof.
  intros <- Hz. unfold padded.
  rewrite take_ge by (unfold zlen; rewrite length_take; lia).
  transitivity (take k p ++ drop k p); [|apply take_drop]. f_equal.
  assert (∀ l, Forall (λ x, x = 0) l → l = replicate (length l) 0) as Hr.
  { induction 1 as [|x l -> Hl IH]; [done|]. simpl. by f_equal. }
  rewrite (Hr _ Hz). f_equal. unfold zlen. rewrite length_drop, length_take. lia.
Qed.

(** Carrying into room drops nothing. *)
Lemma carry_fits s sid raw :
  zlen (pending (vehicle s sid)) < MAX_PENDING_FRAMES →
  pending_bytes (vehicle s sid) + zlen raw ≤ MAX_PENDING_BYTES →
  carry s sid raw = put s sid (mkVehicle (v_state (vehicle s sid)) (pending (vehicle s sid) ++ [raw])
                                 (pending_bytes (vehicle s sid) + zlen raw) (dropped_since_emit (vehicle s sid))).
Proof.
  intros Hf Hb. unfold carry, push_raw.
  rewrite shed_fits; [done| |lia]. rewrite zlen_app. change (zlen [raw]) with 1. lia.
Qed.

(** GLOBAL_POSITION_INT as a sender lays it out. *)
Definition gpi_payload (t la lo al ra vx vy vz hdg : Z) : bytes :=
  le_enc 4 t ++ le_enc 4 la ++ le_enc 4 lo ++ le_enc 4 al ++ le_enc 4 ra
  ++ le_enc 2 vx ++ le_enc 2 vy ++ le_enc 2 vz ++ le_enc 2 hdg.

Definition int32 (v : Z) : Prop := - 2 ^ 31 ≤ v < 2 ^ 31.
Definition int16 (v : Z) : Prop := - 2 ^ 15 ≤ v < 2 ^ 15.

Lemma global_position_payload s sid t la lo al ra vx vy vz hdg :
  int32 la → int32 lo → int32 al → int32 ra → int16 vx → int16 vy → int16 vz → 0 ≤ hdg < 2 ^ 16 →
  let v := vehicle s sid in
  let climb := f_div (f_neg (f_of_Z vz)) (f_of_Z 100) in
  global_position s sid (gpi_payload t la lo al ra vx vy vz hdg)
  = Ok (put s sid (mkVehicle (v_state v) [] 0 false),
      mkMavPosition sid 33 (f_div (f_of_Z la) E7) (f_div (f_of_Z lo) E7) (f_div (f_of_Z al) (f_of_Z 1000))
        (Some (f_div (f_of_Z ra) (f_of_Z 1000)))
        (if hdg =? 65535 then None else Some (f_div (f_of_Z hdg) (f_of_Z 100))) None
        (Some (f_div (f_sqrt (f_add (f_mul (f_of_Z vx) (f_of_Z vx)) (f_mul (f_of_Z vy) (f_of_Z vy)))) (f_of_Z 100)))
        (Some (if f_eqb climb f_zero then f_zero else climb))
        (v_state v) (concat (pending v)) (dropped_since_emit v)).
Proof.
  intros Hla Hlo Hal Hra Hvx Hvy Hvz Hh v climb. unfold global_position. set (p := gpi_payload _ _ _ _ _ _ _ _ _).
  assert (i32le p 4 = Ok la) as -> by exact (i32le_at (le_enc 4 t) la _ 4 eq_refl Hla).
  assert (i32le p 8 = Ok lo) as -> by exact (i32le_at (le_enc 4 t ++ le_enc 4 la) lo _ 8 eq_refl Hlo).
  assert (i32le p 12 = Ok al) as -> by exact (i32le_at (le_enc 4 t ++ le_enc 4 la ++ le_enc 4 lo) al _ 12 eq_refl Hal).
  assert (i32le p 16 = Ok ra) as ->
    by exact (i32le_at (le_enc 4 t ++ le_enc 4 la ++ le_enc 4 lo ++ le_enc 4 al) ra _ 16 eq_refl Hra).
  set (p5 := le_enc 4 t ++ le_enc 4 la ++ le_enc 4 lo ++ le_enc 4 al ++ le_enc 4 ra).
  assert (i16le p 20 = Ok vx) as -> by exact (i16le_at p5 vx _ 20 eq_refl Hvx).
  assert (i16le p 22 = Ok vy) as -> by exact (i16le_at (p5 ++ le_enc 2 vx) vy _ 22 eq_refl Hvy).
  assert (i16le p 24 = Ok vz) as -> by exact (i16le_at (p5 ++ le_enc 2 vx ++ le_enc 2 vy) vz _ 24 eq_refl Hvz).
  assert (u16le p 26 = Ok hdg) as ->.
  { rewrite <- (app_nil_r p). exact (u16le_at (p5 ++ le_enc 2 vx ++ le_enc 2 vy ++ le_enc 2 vz) hdg [] 26 eq_refl Hh). }
  cbn [mbind res_bind]. unfold drain, drain_payload. cbn [mbind res_bind].
  rewrite snapshot_vehicle, vehicle_put. cbn [v_state]. by destruct (hdg =? 65535).
Qed.

(** * Properties *)

(** the table-free checksum is CRC-16/MCRF4XX over the covered bytes and the
    CRC_EXTRA, and it catches every damaged payload byte and every wrong
    checksum: such a frame is refused and changes nothing. *)
Theorem mav_crc_detects s v2 seq sid comp mid extra full a b b' d c t :
  crc_extra_and_len mid = Some (extra, full) → zlen (a ++ b :: d) ≤ 255 →
  bytes_ok (seq :: sid :: comp :: a ++ b :: d) → byte_ok b' → 0 ≤ c < 2 ^ 16 →
  let head := enc_head v2 seq sid comp mid (a ++ b :: d) in
  let sum := crc (head ++ a ++ b :: d) extra in
  sum = mcrf4xx ((head ++ a ++ b :: d) ++ [extra])
  ∧ (b ≠ b' → parse_frame s (magic_of v2 :: head ++ (a ++ b' :: d) ++ le_enc 2 sum ++ t) = (s, Err BadCrc))
  ∧ (c ≠ sum → parse_frame s (magic_of v2 :: head ++ (a ++ b :: d) ++ le_enc 2 c ++ t) = (s, Err BadCrc)).
Proof.
  intros Hm Hl Hok Hb' Hc head sum. inversion_clear Hok as [|? ? Hseq Hok']. inversion_clear Hok' as [|? ? Hsid Hok].
  inversion_clear Hok as [|? ? Hcomp Hbody]. pose proof (crc_table_full _ _ _ Hm) as (_ & He & Hmid).
  assert (bytes_ok (head ++ a ++ b :: d)) as Hcov by (apply bytes_ok_app; split; [by apply enc_head_ok|done]).
  split; [by apply crc_ref|]. split; intros Hne.
  - rewrite (parse_enc s v2 seq sid comp mid extra full (a ++ b :: d)); [|done|by apply crc_range|].
    2: { by rewrite !zlen_app, !zlen_cons. }
    fold head. destruct (Z.eqb_spec (crc (head ++ a ++ b' :: d) extra) sum) as [E|]; [|done].
    destruct Hne. apply (crc_one_byte (head ++ a) b b' d extra); rewrite <- ?app_assoc; done.
  - rewrite (parse_enc s v2 seq sid comp mid extra full (a ++ b :: d)) by done. fold head. fold sum.
    by replace (sum =? c) with false by lia.
Qed.

(** C25: a GLOBAL_POSITION_INT of either protocol version, its trailing zero bytes
    trimmed or not, yields the position it states with the vehicle's cached
    telemetry and every frame carried since its last event, and empties that
    carry. *)
Theorem mav_position s v2 seq sid comp k t la lo al ra vx vy vz hdg rest :
  bytes_ok [seq; sid; comp] →
  int32 la → int32 lo → int32 al → int32 ra → int16 vx → int16 vy → int16 vz → 0 ≤ hdg < 2 ^ 16 →
  let p := gpi_payload t la lo al ra vx vy vz hdg in
  Forall (λ x, x = 0) (drop k p) →
  let frame := enc_frame v2 seq sid comp 33 104 (take k p) in
  let v := vehicle s sid in
  zlen (pending v) < MAX_PENDING_FRAMES → pending_bytes v + zlen frame ≤ MAX_PENDING_BYTES →
  let climb := f_div (f_neg (f_of_Z vz)) (f_of_Z 100) in
  parse_frame s (frame ++ rest)
  = (put s sid (mkVehicle (v_state v) [] 0 false),
     Ok (Some (mkMavPosition sid 33 (f_div (f_of_Z la) E7) (f_div (f_of_Z lo) E7) (f_div (f_of_Z al) (f_of_Z 1000))
        (Some (f_div (f_of_Z ra) (f_of_Z 1000)))
        (if hdg =? 65535 then None else Some (f_div (f_of_Z hdg) (f_of_Z 100))) None
        (Some (f_div (f_sqrt (f_add (f_mul (f_of_Z vx) (f_of_Z vx)) (f_mul (f_of_Z vy) (f_of_Z vy)))) (f_of_Z 100)))
        (Some (if f_eqb climb f_zero then f_zero else climb))
        (v_state v) (concat (pending v) ++ frame) (dropped_since_emit v)))).
Proof.
  intros Hids Hla Hlo Hal Hra Hvx Hvy Hvz Hh p Hz frame v Hf Hb climb.
  assert (zlen p = 28) as Hp by done.
  assert (bytes_ok p) as Hpok by (unfold p, gpi_payload; repeat (apply bytes_ok_app; split; [apply le_enc_ok|]); apply le_enc_ok).
  inversion_clear Hids as [|? ? Hseq Hids']. inversion_clear Hids' as [|? ? Hsid Hids].
  inversion_clear Hids as [|? ? Hcomp _].
  assert (zlen (take k p) ≤ 255) as Hl by (unfold zlen in *; rewrite length_take; lia).
  set (head := enc_head v2 seq sid comp 33 (take k p)).
  assert (frame ++ rest = magic_of v2 :: head ++ take k p ++ le_enc 2 (crc (head ++ take k p) 104) ++ rest) as ->
    by (unfold frame, enc_frame; cbn; by rewrite <- !app_assoc).
  rewrite (parse_enc s v2 seq sid comp 33 104 28 (take k p)); [|done| |done].
  2: { apply crc_range; [|done]. apply bytes_ok_app. split; [by apply enc_head_ok|by apply bytes_ok_take]. }
  fold head. rewrite Z.eqb_refl, (padded_trim 28 p k) by done.
  change (magic_of v2 :: head ++ take k p ++ le_enc 2 (crc (head ++ take k p) 104)) with frame.
  rewrite carry_fits by done. unfold dispatch. cbn [Z.eqb Pos.eqb]. unfold p.
  rewrite global_position_payload by done. rewrite vehicle_put, put_put. cbn [a_position mbind res_bind finish v_state pending dropped_since_emit].
  rewrite concat_app. cbn [concat]. by rewrite app_nil_r.
Qed.

(** * Witnesses *)

Definition ex_mav : MavParser := mav_new "mav-1" (mkEnrichment None).
Definition ex_gpi : bytes := enc_frame true 7 1 1 33 104 (take 24 (gpi_payload 1000 520000000 45000000 100000 50000 300 400 0 0)).

Lemma mav_crc_detects_witness :
  (parse_frame ex_mav (magic_of true :: enc_head true 0 1 1 30 [1; 2; 3] ++ [1; 9; 3]
    ++ le_enc 2 (crc (enc_head true 0 1 1 30 [1; 2; 3] ++ [1; 2; 3]) 39))).2 = Err BadCrc.
Proof.
  destruct (mav_crc_detects ex_mav true 0 1 1 30 39 28 [1] 2 9 [3] 0 []) as (_ & H & _);
    [reflexivity|vm_compute; done|apply bytes_okb_ok; reflexivity|done|done|].
  rewrite <- (app_nil_r (le_enc 2 _)). exact (f_equal snd (H ltac:(done))).
Defined.

Lemma mav_position_witness :
  ∃ p, parse_frame ex_mav ex_gpi = (put ex_mav 1 no_vehicle, Ok (Some p))
    ∧ fmt_fixed 1 (lat p) = "52.0"%string ∧ (fmt_fixed 1 <$> sog_mps p) = Some "5.0"%string ∧ raw p = ex_gpi.
Proof.
  eexists. split.
  - rewrite <- (app_nil_r ex_gpi).
    apply (mav_position ex_mav true 7 1 1 24 1000 520000000 45000000 100000 50000 300 400 0 0 []);
      try (unfold int32, int16; lia); [apply bytes_okb_ok; reflexivity|vm_compute; by repeat constructor|done|vm_compute; done].
  - vm_compute. done.
Defined.
