(* ===== verification/Ontology.v ===== *)
(** The ontology check at boot and the routing of attributes per event
    (rust/connectors/common/src/ontology.rs). The vendored ontology itself is
    data: a parameter, as serde reads it. *)
From Stdlib Require Import ZArith Lia.
From Stdlib Require Import Strings.String.
From S2P Require Export Event.

Local Open Scope Z_scope.

(** @src rust/connectors/common/src/ontology.rs 29-36 AttrDef *)
Record AttrDef := mkAttrDef { a_name : string; unit_ : option string; values : option (list string) }.

(** @src rust/connectors/common/src/ontology.rs 21-27 TypeDef *)
Record TypeDef := mkTypeDef { t_id : string; parent : option string; t_attributes : list AttrDef }.

(** @src rust/connectors/common/src/ontology.rs 15-19 Ontology *)
Record Ontology := mkOntology { version : string; types : list TypeDef }.

(** @src rust/connectors/common/src/ontology.rs 38-48 Declared *)
Record Declared := mkDeclared {
  d_entity_type : string;
  d_attributes : list string;
  fixed_values : list (string * string)
}.

(** @src rust/connectors/common/src/ontology.rs 50-67 Fault *)
Inductive Fault :=
| UnknownEntityType (name : string) (closest : option string)
| UnknownAttribute (name : string) (closest governed_on : option string)
| NotInVocabulary (attribute value : string) (allowed : list string).

(** [starts_with] and [to_ascii_lowercase] of a [str]. *)
Definition str_starts_with (p s : string) : bool := starts_with (s2b p) (s2b s).
Definition str_lower (s : string) : string := b2s (to_lower <$> s2b s).

Section ontology.
Variable ont : Ontology.

(** [collect] into a [BTreeMap]: the last of two equal keys stays. *)
Definition by_id : gmap string TypeDef := list_to_map (reverse ((λ t, (t_id t, t)) <$> types ont)).

(** @src rust/connectors/common/src/ontology.rs 112-128 nearest_ancestor_governing *)
Fixpoint nearest_ancestor (fuel : nat) (cur : option string) (attribute : string) : res unit (option string) :=
  match fuel with
  | O => NoFuel
  | S fuel =>
      match cur with
      | None => Ok None
      | Some i =>
          match by_id !! i with
          | None => Ok None
          | Some t =>
              if existsb (λ a, String.eqb (a_name a) attribute) (t_attributes t) then Ok (Some (t_id t))
              else nearest_ancestor fuel (parent t) attribute
          end
      end
  end.
Definition nearest_ancestor_governing (from : TypeDef) (attribute : string) : res unit (option string) :=
  nearest_ancestor (S (length (types ont))) (parent from) attribute.

(** @src rust/connectors/common/src/ontology.rs 134-154 index *)
Definition index_attrs : gmap string (gset string) :=
  list_to_map (reverse ((λ t, (t_id t, list_to_set (a_name <$> t_attributes t))) <$> types ont)).

(** @src rust/connectors/common/src/ontology.rs 156-160 operator_namespace *)
Definition operator_namespace (entity_type : string) : bool := negb (str_starts_with "mim:" entity_type).

(** @src rust/connectors/common/src/ontology.rs 162-170 governs *)
Definition governs (entity_type attribute : string) : bool :=
  operator_namespace entity_type
  || match index_attrs !! entity_type with
     | Some set => bool_decide (attribute ∈ set)
     | None => false
     end.

(** @src rust/connectors/common/src/ontology.rs 172-176 knows_type *)
Definition knows_type (entity_type : string) : bool :=
  operator_namespace entity_type || bool_decide (is_Some (index_attrs !! entity_type)).

(** @src rust/connectors/common/src/ontology.rs 178-188 ungoverned *)
Definition ungoverned (e : Event) : list string :=
  key <$> filter (λ a, governs (ev_entity_type e) (key a) = false) (ev_attributes e).

(** @src rust/connectors/common/src/ontology.rs 196-204 governed *)
Definition governed (entity_type k v : string) (b : EventBuilder) : EventBuilder :=
  if governs entity_type k then attribute k v b else add_metadata k v b.

(** @src rust/connectors/common/src/ontology.rs 210-219 closest *)
Definition closest (needle : string) (hay : list string) : option string :=
  head (filter (λ c, str_lower c = str_lower needle) hay).

(** The keys of a [BTreeMap] in order; [closest] does not see repeats. *)
Definition names_in_order (l : list AttrDef) : list string := (sort_keys ((λ a, (a_name a, a_name a)) <$> l)).*1.

Definition allowed (def : TypeDef) : gmap string AttrDef :=
  list_to_map (reverse ((λ a, (a_name a, a)) <$> t_attributes def)).

Fixpoint attribute_faults (def : TypeDef) (l : list string) : res unit (list Fault) :=
  match l with
  | [] => Ok []
  | name :: l =>
      match allowed def !! name with
      | Some _ => attribute_faults def l
      | None =>
          g ← nearest_ancestor_governing def name;
          fs ← attribute_faults def l;
          Ok (UnknownAttribute name (closest name (names_in_order (t_attributes def))) g :: fs)
      end
  end.

Definition value_faults (def : TypeDef) (l : list (string * string)) : list Fault :=
  l ≫= λ nv,
    match (a ← allowed def !! nv.1; values a) with
    | Some vs => if bool_decide (nv.2 ∈ vs) then [] else [NotInVocabulary nv.1 nv.2 vs]
    | None => []
    end.

(** @src rust/connectors/common/src/ontology.rs 221-271 check *)
Definition check (d : Declared) : res unit (list Fault) :=
  if str_starts_with "x:" (d_entity_type d) then Ok []
  else match by_id !! d_entity_type d with
  | None => Ok [UnknownEntityType (d_entity_type d) (closest (d_entity_type d) (t_id <$> types ont))]
  | Some def =>
      fs ← attribute_faults def (d_attributes d);
      Ok (fs ++ value_faults def (fixed_values d))
  end.

(** @src rust/connectors/common/src/ontology.rs 273-292 enforce *)
Definition enforce (d : Declared) : res (list Fault) unit :=
  match check d with
  | Ok [] => Ok tt
  | Ok fs => Err fs
  | Panic => Panic
  | _ => NoFuel
  end.

(** @src rust/connectors/common/src/ontology.rs 294-302 unit_of *)
Definition unit_of (attribute : string) : option string :=
  a ← head (filter (λ a, a_name a = attribute) (types ont ≫= t_attributes)); unit_ a.

(** * Lemmas *)

Lemma last_wins {A B} (f : A → string) (g : A → B) l k :
  (list_to_map (reverse ((λ x, (f x, g x)) <$> l)) : gmap string B) !! k
  = g <$> last (filter (λ x, f x = k) l).
Proof.
  induction l as [|x l IH] using rev_ind; [done|].
  rewrite fmap_app, reverse_app, filter_app. cbn [fmap list_fmap reverse rev_append app list_to_map foldr].
  change (reverse [(f x, g x)]) with [(f x, g x)]. cbn [app list_to_map foldr].
  destruct (decide (f x = k)) as [<-|Hne].
  - rewrite filter_cons_True, filter_nil by done. rewrite last_snoc. apply lookup_insert_eq.
  - rewrite filter_cons_False, filter_nil, app_nil_r, <- IH by done. by apply lookup_insert_ne.
Qed.

Lemma index_by_id ty :
  index_attrs !! ty = (λ t, list_to_set (a_name <$> t_attributes t)) <$> by_id !! ty.
Proof.
  unfold index_attrs, by_id. rewrite !last_wins. by destruct (last _).
Qed.

Lemma allowed_spec def name : is_Some (allowed def !! name) ↔ name ∈ a_name <$> t_attributes def.
Proof.
  unfold allowed. rewrite last_wins, list_elem_of_fmap. split.
  - intros [a Ha]. apply fmap_Some in Ha as (x & Hl & ->). apply last_Some_elem_of, list_elem_of_filter in Hl as [<- ?].
    eauto.
  - intros (a & -> & Hin). assert (a ∈ filter (λ x, a_name x = a_name a) (t_attributes def)) as Hf
      by (by apply list_elem_of_filter).
    destruct (last _) eqn:E; [eauto|]. apply last_None in E. rewrite E in Hf. by apply elem_of_nil in Hf.
Qed.

(** No type is its own ancestor: a rank falls along the parent links, and as
    many ranks as types suffice. *)
Definition acyclic : Prop :=
  ∃ rank : string → nat,
    (∀ i t p, by_id !! i = Some t → parent t = Some p → is_Some (by_id !! p) → (rank p < rank i)%nat)
    ∧ ∀ i, is_Some (by_id !! i) → (rank i < length (types ont))%nat.

Definition parent_of (i j : string) : Prop := ∃ t, by_id !! i = Some t ∧ parent t = Some j.
Definition declares (attribute i : string) : Prop :=
  ∃ t, by_id !! i = Some t ∧ attribute ∈ a_name <$> t_attributes t.

Lemma by_id_id i t : by_id !! i = Some t → t_id t = i.
Proof.
  unfold by_id. rewrite last_wins. intros (x & Hl & ->)%fmap_Some.
  by apply last_Some_elem_of, list_elem_of_filter in Hl as [? _].
Qed.

Lemma has_name_spec l n : existsb (λ a, String.eqb (a_name a) n) l = true ↔ n ∈ a_name <$> l.
Proof.
  rewrite existsb_exists, list_elem_of_fmap. split; intros (a & H1 & H2); exists a.
  - apply String.eqb_eq in H2. by rewrite list_elem_of_In.
  - rewrite <- list_elem_of_In, String.eqb_eq. done.
Qed.

(** The walk up the parent links ends, at the first type that declares the
    attribute or above the last. *)
Lemma nearest_ancestor_spec rank fuel p attribute :
  (∀ i t p, by_id !! i = Some t → parent t = Some p → is_Some (by_id !! p) → (rank p < rank i)%nat) →
  (is_Some (by_id !! p) → (S (rank p) < fuel)%nat) → (0 < fuel)%nat →
  ∃ g, nearest_ancestor fuel (Some p) attribute = Ok g
    ∧ ∀ i, g = Some i → rtc parent_of p i ∧ declares attribute i.
Proof.
  intros Hr. revert p. induction fuel as [|fuel IH]; intros p Hf H0; [lia|]. simpl.
  destruct (by_id !! p) as [t|] eqn:Ht; [|by exists None]. specialize (Hf ltac:(eauto)).
  destruct (existsb _ _) eqn:He.
  - exists (Some (t_id t)). split; [done|]. rewrite (by_id_id _ _ Ht). intros i [= <-].
    split; [apply rtc_refl|]. exists t. by rewrite <- has_name_spec.
  - destruct (parent t) as [q|] eqn:Hq.
    2: { exists None. by destruct fuel; [lia|]. }
    destruct (IH q) as (g & Hg & Hi); [|lia|].
    + intros Hs. specialize (Hr p t q Ht Hq Hs). lia.
    + exists g. split; [done|]. intros i [H1 H2]%Hi. split; [|done]. eapply rtc_l; [|done]. by exists t.
Qed.

(** What the check admits. *)
Definition admitted (d : Declared) : Prop :=
  str_starts_with "x:" (d_entity_type d) = true
  ∨ ∃ def, by_id !! d_entity_type d = Some def
    ∧ Forall (λ n, n ∈ a_name <$> t_attributes def) (d_attributes d)
    ∧ Forall (λ nv : string * string, ∀ a vs, allowed def !! nv.1 = Some a → values a = Some vs → nv.2 ∈ vs)
        (fixed_values d).

Lemma attribute_faults_spec def l :
  acyclic →
  ∃ fs, attribute_faults def l = Ok fs
    ∧ (fs = [] ↔ Forall (λ n, n ∈ a_name <$> t_attributes def) l).
Proof.
  intros (rank & Hr & Hb). induction l as [|n l (fs & Hfs & Hiff)]; [by exists []|]. simpl.
  pose proof (allowed_spec def n) as Ha. destruct (allowed def !! n) as [a|].
  - exists fs. split; [done|]. rewrite Hiff, Forall_cons. split; [|by intros [_ ?]]. intros. split; [|done]. by apply Ha.
  - assert (∃ g, nearest_ancestor_governing def n = Ok g) as [g ->].
    { unfold nearest_ancestor_governing. destruct (parent def) as [p|]; [|by exists None].
      destruct (nearest_ancestor_spec rank (S (length (types ont))) p n Hr) as (g & Hg & _); [|lia|by exists g].
      intros Hs. specialize (Hb p Hs). lia. }
    rewrite Hfs. cbn [mbind res_bind]. eexists. split; [done|]. split; [done|].
    intros H. inversion H as [|? ? Hin _]; subst. apply Ha in Hin. by destruct Hin.
Qed.

Lemma value_faults_spec def l :
  value_faults def l = [] ↔
  Forall (λ nv : string * string, ∀ a vs, allowed def !! nv.1 = Some a → values a = Some vs → nv.2 ∈ vs) l.
Proof.
  induction l as [|[n v] l IH]; [done|]. unfold value_faults in *. cbn [mbind list_bind fst snd].
  rewrite Forall_cons, <- IH. cbn [fst snd].
  split.
  - intros [H1 H2]%app_eq_nil. split; [|done]. intros a vs Ha Hv. rewrite Ha in H1. simpl in H1. rewrite Hv in H1.
    by case_bool_decide.
  - intros [H1 H2]. rewrite H2. destruct (allowed def !! n) as [a|]; simpl; [|done].
    destruct (values a) as [vs|] eqn:Hv; simpl; [|done]. by rewrite bool_decide_eq_true_2 by eauto.
Qed.

Lemma check_spec d : acyclic → ∃ fs, check d = Ok fs ∧ (fs = [] ↔ admitted d).
Proof.
  intros Hac. unfold check, admitted. destruct (str_starts_with "x:" (d_entity_type d)).
  { exists []. split; [done|]. split; [by left|done]. }
  destruct (by_id !! d_entity_type d) as [def|].
  2: { eexists. split; [done|]. split; [done|]. intros [?|(? & ? & _)]; done. }
  destruct (attribute_faults_spec def (d_attributes d) Hac) as (fs & -> & Hiff). cbn [mbind res_bind].
  eexists. split; [done|]. split.
  - intros [H1 H2]%app_eq_nil. right. exists def. split; [done|]. by rewrite <- Hiff, <- value_faults_spec.
  - intros [?|(def' & [= <-] & H1 & H2)]; [done|]. apply Hiff in H1 as ->. by apply value_faults_spec in H2 as ->.
Qed.

Lemma x_not_mim s : str_starts_with "x:" s = true → operator_namespace s = true.
Proof.
  unfold operator_namespace, str_starts_with. intros H. apply negb_true_iff. destruct (starts_with (s2b "mim:") _) eqn:E; [|done].
  apply starts_with_spec in H as [r Hr], E as [r' Hr']. rewrite Hr in Hr'. done.
Qed.

Lemma declared_governs d e :
  admitted d → ev_entity_type e = d_entity_type d → (∀ a, a ∈ ev_attributes e → key a ∈ d_attributes d) →
  knows_type (ev_entity_type e) = true ∧ ungoverned e = [].
Proof.
  intros Hd He Ha. unfold knows_type, ungoverned, governs. rewrite He.
  destruct Hd as [->%x_not_mim|(def & Hdef & Hattr & _)]; simpl.
  - split; [done|]. induction (ev_attributes e) as [|a l IH]; [done|].
    rewrite filter_cons_False by done. apply IH. intros a' ?. apply Ha. by right.
  - rewrite index_by_id, Hdef. cbn [fmap option_fmap option_map].
    rewrite bool_decide_eq_true_2, orb_true_r by eauto. split; [done|].
    assert (filter (λ a : Attribute, operator_namespace (d_entity_type d)
      || bool_decide (key a ∈@{gset string} list_to_set (a_name <$> t_attributes def)) = false) (ev_attributes e) = []) as ->; [|done].
    destruct (filter _ _) as [|a l] eqn:E; [done|]. exfalso.
    assert (a ∈ a :: l) as Hin by left. rewrite <- E in Hin. apply list_elem_of_filter in Hin as [H1 H2].
    apply orb_false_iff in H1 as [_ H1%bool_decide_eq_false]. apply H1, elem_of_list_to_set.
    rewrite Forall_forall in Hattr. by apply Hattr, Ha.
Qed.

(** * Properties *)

(** the boot check ends and admits exactly the mappings the ontology can
    govern; and then no event of that type, with attributes from the mapping, is
    of an unknown type or carries an attribute Core would not govern. *)
Theorem check_guarantees d :
  acyclic →
  (∃ fs, check d = Ok fs ∧ (fs = [] ↔ admitted d))
  ∧ (enforce d = Ok tt → ∀ e, ev_entity_type e = d_entity_type d →
      (∀ a, a ∈ ev_attributes e → key a ∈ d_attributes d) →
      knows_type (ev_entity_type e) = true ∧ ungoverned e = []).
Proof.
  intros Hac. destruct (check_spec d Hac) as (fs & Hfs & Hiff). split; [by exists fs|].
  unfold enforce. rewrite Hfs. destruct fs; [|done]. intros _ e. apply declared_governs. by apply Hiff.
Qed.

(** An operator's own namespace passes every per-event check and is refused at
    boot, unless it is spelled [x:]. *)
Theorem check_refuses_operator_namespace d ty :
  operator_namespace ty = true → str_starts_with "x:" ty = false → by_id !! ty = None →
  d_entity_type d = ty →
  (∃ f, enforce d = Err [f]) ∧ knows_type ty = true ∧ ∀ a, governs ty a = true.
Proof.
  intros Hn Hx Hb <-. unfold enforce, check. rewrite Hx, Hb. split; [eauto|].
  unfold knows_type, governs. by rewrite Hn.
Qed.
End ontology.

(** * Witnesses *)

Definition ex_ontology : Ontology := mkOntology "1"
  [mkTypeDef "mim:object" None [mkAttrDef "speed" (Some "m/s"%string) None];
   mkTypeDef "mim:vessel" (Some "mim:object"%string)
     [mkAttrDef "hostility" None (Some ["FRIEND"; "HOSTILE"]%string)]]%string.

Definition ex_rank (i : string) : nat := if String.eqb i "mim:vessel" then 1%nat else 0%nat.

Lemma ex_acyclic : acyclic ex_ontology.
Proof.
  exists ex_rank. assert (∀ i t, by_id ex_ontology !! i = Some t → t ∈ types ex_ontology ∧ t_id t = i) as H.
  { intros i t Ht. split; [|by eapply by_id_id]. unfold by_id in Ht. rewrite last_wins in Ht.
    apply fmap_Some in Ht as (x & Hl & ->). by apply last_Some_elem_of, list_elem_of_filter in Hl as [_ ?]. }
  split.
  - intros i t p [Hin <-]%H Hp _. unfold ex_ontology in Hin. cbn [types] in Hin. rewrite !elem_of_cons, elem_of_nil in Hin.
    destruct Hin as [->|[->|[]]]; [done|]. injection Hp as <-. vm_compute. lia.
  - intros i [t [_ _]%H]. unfold ex_rank. destruct (String.eqb i "mim:vessel"); simpl; lia.
Qed.

Lemma check_guarantees_witness :
  (∃ fs, check ex_ontology (mkDeclared "mim:vessel" ["speed"%string] []) = Ok fs
    ∧ (fs = [] ↔ admitted ex_ontology (mkDeclared "mim:vessel" ["speed"%string] [])))
  ∧ check ex_ontology (mkDeclared "mim:vessel" ["speed"%string] [])
    = Ok [UnknownAttribute "speed" None (Some "mim:object"%string)].
Proof.
  split; [exact (proj1 (check_guarantees ex_ontology _ ex_acyclic))|vm_compute; reflexivity].
Defined.

Lemma check_refuses_operator_namespace_witness :
  ∃ f, enforce ex_ontology (mkDeclared "acme:radar" [] []) = Err [f].
Proof.
  apply (check_refuses_operator_namespace ex_ontology (mkDeclared "acme:radar" [] []) "acme:radar"); reflexivity.
Defined.
