(* ===== verification/Runtime.v ===== *)
(** The connector's run loop and its spool drain
    (rust/connectors/common/src/runtime.rs): two tasks over one spool, as a step
    relation whose labels record what became of every event. Network outcomes
    and file faults are inputs of a step; the log lines are left out. *)
From Stdlib Require Import ZArith Lia.
From Stdlib Require Import Strings.String.
From S2P Require Export Parser Seal Marking Spool Ontology.

Local Open Scope Z_scope.

(** @src rust/connectors/common/src/runtime.rs 43-61 Metrics *)
Record Metrics := mkMetrics {
  received : Z;
  published : Z;
  m_rejected : Z;
  dropped_backpressure : Z;
  spooled : Z;
  drained : Z;
  spool_corrupt : Z;
  spool_dropped_segments : Z;
  spool_failed : Z;
  m_ungoverned : Z
}.

(** The counters by name, for the [fetch_add]s. *)
Inductive Counter :=
| Received | Published | RejectedFrames | Backpressure | SpooledEvents | DrainedEvents | SpoolCorrupt
| DroppedSegments | SpoolFailures | Ungoverned.

Definition counter (c : Counter) (m : Metrics) : Z :=
  match c with
  | Received => received m | Published => published m | RejectedFrames => m_rejected m
  | Backpressure => dropped_backpressure m | SpooledEvents => spooled m | DrainedEvents => drained m
  | SpoolCorrupt => spool_corrupt m | DroppedSegments => spool_dropped_segments m
  | SpoolFailures => spool_failed m | Ungoverned => m_ungoverned m
  end.

(** [counter.fetch_add(1)]. *)
Definition inc (c : Counter) (m : Metrics) : Metrics :=
  let '(mkMetrics re pu rj ba sp dr co dg fa un) := m in
  match c with
  | Received => mkMetrics (fetch_add re 1) pu rj ba sp dr co dg fa un
  | Published => mkMetrics re (fetch_add pu 1) rj ba sp dr co dg fa un
  | RejectedFrames => mkMetrics re pu (fetch_add rj 1) ba sp dr co dg fa un
  | Backpressure => mkMetrics re pu rj (fetch_add ba 1) sp dr co dg fa un
  | SpooledEvents => mkMetrics re pu rj ba (fetch_add sp 1) dr co dg fa un
  | DrainedEvents => mkMetrics re pu rj ba sp (fetch_add dr 1) co dg fa un
  | SpoolCorrupt => mkMetrics re pu rj ba sp dr (fetch_add co 1) dg fa un
  | DroppedSegments => mkMetrics re pu rj ba sp dr co (fetch_add dg 1) fa un
  | SpoolFailures => mkMetrics re pu rj ba sp dr co dg (fetch_add fa 1) un
  | Ungoverned => mkMetrics re pu rj ba sp dr co dg fa (fetch_add un 1)
  end.

#[export] Instance Counter_eq_dec : EqDecision Counter.
Proof. solve_decision. Defined.

(** What became of an event or of a frame. *)
Inductive Outcome :=
| OParsed (es : list Event)
| ORejected
| OPublished (r : Record_)
| OSpooled (r : Record_)
| OSpoolFailed (r : Record_)
| OShed (r : Record_)
| ODrained (r : Record_)
| OSkipped (r : Record_).

Section runtime.
Context `{P : FrameParser} `{C : Ed25519}.
Variable marking : option Marking.Marking.
Variable signing_key : skey.
Variable canonical_bytes : Event → bytes.
Variable ont : Ontology.

(** The two tasks' shared and private state: the parser's, the counters, the
    spool behind its lock, what was already reported, the events of the current
    frame still to be handled, and the drain's mode and the record it holds. *)
Record World := mkWorld {
  parser : fp_state;
  metrics : Metrics;
  spool : option Spool;
  reported : gset (string * string);
  inbox : list Event;
  js_mode : bool;
  holding : option (Cursor * Record_)
}.

Definition with_metrics (w : World) (m : Metrics) : World :=
  mkWorld (parser w) m (spool w) (reported w) (inbox w) (js_mode w) (holding w).
Definition bump (c : Counter) (w : World) : World := with_metrics w (inc c (metrics w)).
Definition with_spool (w : World) (s : Spool) : World :=
  mkWorld (parser w) (metrics w) (Some s) (reported w) (inbox w) (js_mode w) (holding w).
Definition with_inbox (w : World) (es : list Event) : World :=
  mkWorld (parser w) (metrics w) (spool w) (reported w) es (js_mode w) (holding w).
Definition with_reported (w : World) (r : gset (string * string)) : World :=
  mkWorld (parser w) (metrics w) (spool w) r (inbox w) (js_mode w) (holding w).
Definition with_drain (w : World) (js : bool) (h : option (Cursor * Record_)) : World :=
  mkWorld (parser w) (metrics w) (spool w) (reported w) (inbox w) js h.

(** What the network and the disk do during one publish. *)
Record Net := mkNet { connected : bool; publish_ok : bool; write_fault : option nat }.

(** @src rust/connectors/common/src/runtime.rs 183-211 report_ungoverned *)
Definition report_ungoverned (e : Event) (w : World) : World :=
  if negb (knows_type ont (ev_entity_type e)) then
    with_reported (bump Ungoverned w) ({[ (ev_entity_type e, ""%string) ]} ∪ reported w)
  else
    let lost := ungoverned ont e in
    let w := match lost with [] => w | _ => bump Ungoverned w end in
    with_reported w (list_to_set ((λ n, (ev_entity_type e, n)) <$> lost) ∪ reported w).

(** @src rust/connectors/common/src/runtime.rs 250-265 spool_append *)
Definition spool_append (fault : option nat) (s : Spool) (r : Record_) (w : World) : World * list Outcome :=
  let '(s, res) := Spool.append fault s (event_id r) (sealed r) in
  let w := with_spool w s in
  match res with
  | Ok dropped =>
      let w := bump SpooledEvents w in
      (if dropped then bump DroppedSegments w else w, [OSpooled r])
  | _ => (bump SpoolFailures w, [OSpoolFailed r])
  end.

(** @src rust/connectors/common/src/runtime.rs 213-248 publish_or_spool *)
Definition publish_or_spool (net : Net) (r : Record_) (w : World) : World * list Outcome :=
  match spool w with
  | Some s =>
      if negb (connected net) then spool_append (write_fault net) s r w
      else if publish_ok net then (bump Published w, [OPublished r])
      else spool_append (write_fault net) s r w
  | None =>
      if publish_ok net then (bump Published w, [OPublished r]) else (bump Backpressure w, [OShed r])
  end.

(** The envelope an event leaves as, under its id. *)
Definition sealed_record (e : Event) : Record_ :=
  let e := match marking with Some m => Marking.apply m e | None => e end in
  mkRecord (s2b (ev_id e)) (Seal.seal (canonical_bytes e) signing_key).

(** @src rust/connectors/common/src/runtime.rs 149-165 run *)
Definition handle_event (net : Net) (e : Event) (w : World) : World * list Outcome :=
  let marked := match marking with Some m => Marking.apply m e | None => e end in
  publish_or_spool net (sealed_record e) (report_ungoverned marked w).

(** @src rust/connectors/common/src/runtime.rs 140-149 run *)
Definition handle_frame (envs : Envs) (frame : bytes) (w : World) : res unit (World * list Outcome) :=
  let w := bump Received w in
  let '(ps, r) := fp_parse envs (parser w) frame in
  let w := mkWorld ps (metrics w) (spool w) (reported w) (inbox w) (js_mode w) (holding w) in
  match r with
  | Ok es => Ok (with_inbox w es, [OParsed es])
  | Err _ => Ok (bump RejectedFrames w, [ORejected])
  | Panic => Panic
  | NoFuel => NoFuel
  end.

(** A JetStream publish: stored, refused for want of a stream, or neither. *)
Inductive Ack := Acked | NoResponders | NotAcked.

(** @src rust/connectors/common/src/runtime.rs 306-344 spawn_drain *)
Definition drain_send (js : bool) (ack : Ack) (plain_ok : bool) : bool * bool :=
  let '(delivered, js) :=
    if js then match ack with Acked => (true, true) | NoResponders => (false, false) | NotAcked => (false, true) end
    else (false, false) in
  if negb delivered && negb js then (plain_ok, js) else (delivered, js).

(** One turn of the drain task, cut where it waits for the spool's lock: a turn
    that holds no record peeks; one that holds one verifies it, sends it and
    advances past it, the sending itself touching nothing the live path sees. *)
(** @src rust/connectors/common/src/runtime.rs 267-359 spawn_drain *)
Definition drain_step (ack : Ack) (plain_ok : bool) (w : World) : World * list Outcome :=
  match spool w with
  | None => (w, [])
  | Some s =>
      match holding w with
      | None =>
          let '(s, item) := peek s in
          let w := with_spool w s in
          match item with
          | Ok (Some cr) => (with_drain w (js_mode w) (Some cr), [])
          | _ => (w, [])
          end
      | Some (at_, r) =>
          match verify (sealed r) (verifying_key signing_key) with
          | Ok _ =>
              let '(delivered, js) := drain_send (js_mode w) ack plain_ok in
              let w := with_drain w js None in
              if delivered then (bump DrainedEvents (with_spool w (advance s at_).1), [ODrained r])
              else (w, [])
          | _ => (with_drain (bump SpoolCorrupt (with_spool w (advance s at_).1)) (js_mode w) None, [OSkipped r])
          end
      end
  end.

(** The two tasks interleaved. *)
Inductive step : World → list Outcome → World → Prop :=
| step_recv_error w : step w [] w
| step_frame w envs frame w' t :
    inbox w = [] → bytes_ok frame → handle_frame envs frame w = Ok (w', t) → step w t w'
| step_event w net e es w' t :
    inbox w = e :: es → handle_event net e (with_inbox w es) = (w', t) → step w t w'
| step_drain w ack plain_ok w' t :
    drain_step ack plain_ok w = (w', t) → step w t w'.

Inductive steps : World → list Outcome → World → Prop :=
| steps_refl w : steps w [] w
| steps_snoc w t w' t' w'' : steps w t w' → step w' t' w'' → steps w (t ++ t') w''.

(** * What a trace says *)

Definition parsed (t : list Outcome) : list Event :=
  t ≫= λ o, match o with OParsed es => es | _ => [] end.

(** What the live path did with each event, in order. *)
Definition handled (t : list Outcome) : list Record_ :=
  t ≫= λ o, match o with OPublished r | OSpooled r | OSpoolFailed r | OShed r => [r] | _ => [] end.

Definition into_spool (t : list Outcome) : list Record_ :=
  t ≫= λ o, match o with OSpooled r => [r] | _ => [] end.
Definition out_of_spool (t : list Outcome) : list Record_ :=
  t ≫= λ o, match o with ODrained r => [r] | _ => [] end.

(** No write failed half-way, and no record was judged corrupt. *)
Definition faultless (t : list Outcome) : Prop := Forall (λ o, match o with OSpoolFailed _ => False | _ => True end) t.
Definition no_corrupt (t : list Outcome) : Prop := Forall (λ o, match o with OSkipped _ => False | _ => True end) t.

(** How often an outcome counts under a name. *)
Definition counts (c : Counter) (o : Outcome) : Z :=
  match c, o with
  | Received, OParsed _ | Received, ORejected | RejectedFrames, ORejected | Published, OPublished _
  | SpooledEvents, OSpooled _ | SpoolFailures, OSpoolFailed _ | Backpressure, OShed _
  | DrainedEvents, ODrained _ | SpoolCorrupt, OSkipped _ => 1
  | _, _ => 0
  end.
Definition total_counts (c : Counter) (t : list Outcome) : Z := foldr Z.add 0 (counts c <$> t).

(** The event as it leaves, and what Core will not govern of it: the type, or an
    attribute. *)
Definition stamped (e : Event) : Event := match marking with Some m => Marking.apply m e | None => e end.
Definition loses (e : Event) : Prop := knows_type ont (ev_entity_type e) = false ∨ ungoverned ont e ≠ [].
#[local] Instance loses_dec e : Decision (loses e).
Proof. unfold loses. solve_decision. Defined.
Definition lossy (es : list Event) : list Event := filter (λ e, loses (stamped e)) es.

(** The segments the spool has dropped, and whether a step dropped any. *)
Definition segments_gone (w : World) : Z := default 0 (dropped_segments <$> spool w).
Definition shed (w w' : World) : Z := if segments_gone w <? segments_gone w' then 1 else 0.

(** A run, with the number of its steps in which the spool dropped segments. *)
Inductive sheds : World → list Outcome → Z → World → Prop :=
| sheds_refl w : sheds w [] 0 w
| sheds_snoc w t k w' t' w'' :
    sheds w t k w' → step w' t' w'' → sheds w (t ++ t') (k + shed w' w'') w''.

(** What a counter should have counted over a trace in which the events [es]
    were handled and [k] steps dropped segments. *)
Definition tally (c : Counter) (t : list Outcome) (es : list Event) (k : Z) : Z :=
  match c with
  | DroppedSegments => k
  | Ungoverned => zlen (lossy es)
  | _ => total_counts c t
  end.

Lemma total_counts_app c t t' : total_counts c (t ++ t') = total_counts c t + total_counts c t'.
Proof. induction t as [|o t IH]; [done|]. unfold total_counts in *. cbn [app fmap list_fmap foldr]. lia. Qed.

Lemma counter_inc c c' m :
  counter c (inc c' m) = if decide (c = c') then fetch_add (counter c m) 1 else counter c m.
Proof. by destruct m, c, c'. Qed.

(** Equal counters, up to their width, after [k] more. *)
Definition counted (c : Counter) (w w' : World) (k : Z) : Prop :=
  counter c (metrics w') mod 2 ^ 64 = (counter c (metrics w) + k) mod 2 ^ 64.

Lemma counted_refl c w : counted c w w 0.
Proof. unfold counted. by rewrite Z.add_0_r. Qed.

Lemma counted_trans c w1 w2 w3 j k : counted c w1 w2 j → counted c w2 w3 k → counted c w1 w3 (j + k).
Proof.
  unfold counted. intros H1 H2. rewrite H2, <- Z.add_mod_idemp_l, H1, Z.add_mod_idemp_l by lia. f_equal. lia.
Qed.

Lemma counted_same c w w' : metrics w' = metrics w → counted c w w' 0.
Proof. intros H. unfold counted. by rewrite H, Z.add_0_r. Qed.

Lemma counted_via c w w1 w2 k : metrics w1 = metrics w → counted c w1 w2 k → counted c w w2 k.
Proof. unfold counted. by intros ->. Qed.

Lemma counted_eq c w w' j k : counted c w w' j → j = k → counted c w w' k.
Proof. by intros ? <-. Qed.

Lemma counted_bump c c' w : counted c w (bump c' w) (if decide (c = c') then 1 else 0).
Proof.
  unfold counted, bump. cbn [metrics with_metrics]. rewrite counter_inc. case_decide.
  - unfold fetch_add, wrap. by rewrite Z.mod_mod by lia.
  - by rewrite Z.add_0_r.
Qed.

(** ** The parts of a step *)

Lemma spool_append_effect fault s r w :
  spool w = Some s →
  let '(w', t) := spool_append fault s r w in
  inbox w' = inbox w ∧ handled t = [r] ∧ parsed t = []
  ∧ ∀ c, counted c w w' (tally c t [] (shed w w')).
Proof.
  intros Hs. unfold spool_append, shed, segments_gone. rewrite Hs.
  destruct fault as [n|].
  - unfold Spool.append. cbn zeta. split_and!; try done. intros c.
    apply (counted_via c w (with_spool w (append (Some n) s (event_id r) (sealed r)).1)); [done|].
    eapply counted_eq; [apply counted_bump|]. cbn. destruct (_ <=? _); cbn; rewrite Z.ltb_irrefl; by destruct c.
  - destruct (append_count s (event_id r) (sealed r)) as (s' & -> & _).
    destruct (dropped_segments s <? dropped_segments s') eqn:E; (split_and!; try done); intros c;
      apply (counted_via c w (with_spool w s')); try done.
    + eapply counted_eq; [eapply counted_trans; apply counted_bump|]. cbn. rewrite E. by destruct c.
    + eapply counted_eq; [apply counted_bump|]. cbn. rewrite E. by destruct c.
Qed.

Lemma shed_same w w' : segments_gone w' = segments_gone w → shed w w' = 0.
Proof. intros H. unfold shed. by rewrite H, Z.ltb_irrefl. Qed.

Lemma publish_effect net r w :
  let '(w', t) := publish_or_spool net r w in
  inbox w' = inbox w ∧ handled t = [r] ∧ parsed t = []
  ∧ ∀ c, counted c w w' (tally c t [] (shed w w')).
Proof.
  unfold publish_or_spool. destruct (spool w) as [s|] eqn:Hs.
  - destruct (negb (connected net)); [by apply spool_append_effect|].
    destruct (publish_ok net); [|by apply spool_append_effect].
    split_and!; try done. intros c. rewrite shed_same by done. eapply counted_eq; [apply counted_bump|by destruct c].
  - destruct (publish_ok net); (split_and!; try done; intros c; rewrite shed_same by done;
      eapply counted_eq; [apply counted_bump|by destruct c]).
Qed.

Lemma report_effect e w :
  inbox (report_ungoverned e w) = inbox w ∧ spool (report_ungoverned e w) = spool w
  ∧ holding (report_ungoverned e w) = holding w ∧ parser (report_ungoverned e w) = parser w
  ∧ ∀ c, counted c w (report_ungoverned e w) (if decide (c = Ungoverned ∧ loses e) then 1 else 0).
Proof.
  assert (∀ w' (b : Prop) `{Decision b}, b → metrics w' = metrics (bump Ungoverned w) → ∀ c,
    counted c w w' (if decide (c = Ungoverned ∧ b) then 1 else 0)) as Hb.
  { intros w' b ? Hb Hm c. eapply counted_eq; [unfold counted; rewrite Hm; apply (counted_bump c Ungoverned)|]. repeat case_decide; naive_solver. }
  unfold report_ungoverned. destruct (negb _) eqn:Ek; [|destruct (ungoverned ont e) eqn:Eu].
  all: split_and!; try done.
  - apply Hb; [|done]. left. by apply negb_true_iff.
  - intros c. rewrite decide_False; [by apply counted_same|]. intros [_ [Hl|Hl]]; [by rewrite Hl in Ek|by rewrite Eu in Hl].
  - apply Hb; [|done]. right. by rewrite Eu.
Qed.

Lemma event_effect net e w w' t :
  handle_event net e w = (w', t) →
  inbox w' = inbox w ∧ handled t = [sealed_record e] ∧ parsed t = []
  ∧ ∀ c, counted c w w' (tally c t [e] (shed w w')).
Proof.
  unfold handle_event. fold (stamped e). set (w1 := report_ungoverned _ w). pose proof (publish_effect net (sealed_record e) w1) as H.
  destruct (publish_or_spool _ _ _) as [w2 t2]. intros [= <- <-]. destruct H as (Hi & Hh & Hp & Hc).
  destruct (report_effect (stamped e) w) as (Hi' & Hs & _ & _ & Hc').
  fold w1 in Hi', Hs, Hc'. split_and!; try done; [congruence|]. intros c.
  eapply counted_eq; [eapply counted_trans; [by apply Hc'|by apply Hc]|].
  unfold shed, segments_gone, tally, lossy. rewrite Hs, filter_cons, filter_nil.
  destruct c; repeat case_decide; try naive_solver; try lia.
Qed.

Lemma drain_effect ack ok w w' t :
  drain_step ack ok w = (w', t) →
  inbox w' = inbox w ∧ handled t = [] ∧ parsed t = []
  ∧ ∀ c, counted c w w' (tally c t [] (shed w w')).
Proof.
  unfold drain_step. intros H.
  assert (∀ c w1 w2, metrics w2 = metrics w1 → segments_gone w2 = segments_gone w1 →
    counted c w1 w2 (tally c [] [] (shed w1 w2))) as H0.
  { intros c w1 w2 Hm Hg. rewrite shed_same by done. eapply counted_eq; [by apply counted_same|by destruct c]. }
  destruct (spool w) as [s|] eqn:Hs; [|injection H as <- <-; split_and!; auto].
  destruct (holding w) as [[at_ r]|].
  - assert (∀ w1 c' js o, metrics w1 = metrics w → segments_gone w1 = segments_gone w →
      (∀ c, (if decide (c = c') then 1 else 0) = tally c [o] [] 0) →
      ∀ c, counted c w (with_drain (bump c' w1) js None) (tally c [o] [] (shed w (with_drain (bump c' w1) js None)))) as Hb.
    { intros w1 c' js o Hm Hg Ho c. apply (counted_via c w w1); [done|]. eapply counted_eq; [apply counted_bump|].
      rewrite shed_same by done. apply Ho. }
    assert (segments_gone (with_spool w (advance s at_).1) = segments_gone w) as Hadv
      by (unfold segments_gone; rewrite Hs; cbn; by rewrite advance_dropped).
    destruct (verify _ _); [destruct (drain_send _ _ _) as [[|] js]|..]; injection H as <- <-;
      (split; [done|]; split; [done|]; split; [done|]); intros c; [|by apply H0|..];
      [apply (Hb (with_drain (with_spool w (advance s at_).1) js None) DrainedEvents js (ODrained r))|apply Hb..];
      try done; by intros [].
  - pose proof (peek_dropped s) as Hp. destruct (peek s) as [s' item].
    assert (∀ js h, segments_gone (with_drain (with_spool w s') js h) = segments_gone w
      ∧ segments_gone (with_spool w s') = segments_gone w) as Hg
      by (unfold segments_gone; rewrite Hs; cbn in *; by rewrite Hp).
    destruct item as [[cr|]| | |]; injection H as <- <-; (split_and!; [done..|]; intros c; apply H0; [done|]);
      first [exact (proj1 (Hg _ _))|exact (proj2 (Hg true None))].
Qed.

Lemma frame_effect envs frame w w' t :
  handle_frame envs frame w = Ok (w', t) → inbox w = [] →
  inbox w' = parsed t ∧ handled t = [] ∧ spool w' = spool w ∧ holding w' = holding w
  ∧ ∀ c, counted c w w' (tally c t [] 0).
Proof.
  unfold handle_frame. intros H Hi. cbn [bump with_metrics parser] in H.
  destruct (fp_parse envs (parser w) frame) as [ps r]. destruct r as [es| | |]; try done; injection H as <- <-.
  - split_and!; try done; [cbn; by rewrite app_nil_r|]. intros c.
    eapply counted_eq; [apply (counted_bump c Received)|by destruct c].
  - split_and!; try done. intros c.
    eapply counted_eq; [eapply counted_trans; [apply (counted_bump c Received)|]|].
    { apply (counted_via c _ (mkWorld ps (metrics (bump Received w)) (spool w) (reported w) (inbox w) (js_mode w) (holding w)));
        [done|apply counted_bump]. }
    by destruct c.
Qed.

Lemma tally_same_gone c t es w w' : segments_gone w' = segments_gone w → tally c t es (shed w w') = tally c t es 0.
Proof. intros H. by rewrite shed_same. Qed.

Lemma step_account w t w' :
  step w t w' →
  ∃ es, inbox w ++ parsed t = es ++ inbox w' ∧ handled t = sealed_record <$> es
    ∧ ∀ c, counted c w w' (tally c t es (shed w w')).
Proof.
  destruct 1 as [w|w envs frame w' t Hi _ H|w net e es w' t Hi H|w ack ok w' t H].
  - exists []. rewrite app_nil_r. split_and!; try done. intros c. rewrite tally_same_gone by done.
    eapply counted_eq; [by apply counted_same|by destruct c].
  - destruct (frame_effect _ _ _ _ _ H Hi) as (Hi' & Hh & Hs & _ & Hc). exists []. rewrite Hi, Hi', Hh. split_and!; try done.
    intros c. rewrite tally_same_gone by (unfold segments_gone; by rewrite Hs). apply Hc.
  - destruct (event_effect _ _ _ _ _ H) as (Hi' & Hh & Hp & Hc). exists [e].
    rewrite Hi, Hi', Hh, Hp, app_nil_r. split; [done|]. split; [done|]. intros c.
    apply (counted_via c w (with_inbox w es) w' _ eq_refl), Hc.
  - destruct (drain_effect _ _ _ _ _ H) as (Hi' & Hh & Hp & Hc). exists []. by rewrite Hi', Hh, Hp, app_nil_r.
Qed.

Lemma parsed_app t t' : parsed (t ++ t') = parsed t ++ parsed t'.
Proof. apply bind_app. Qed.
Lemma handled_app t t' : handled (t ++ t') = handled t ++ handled t'.
Proof. apply bind_app. Qed.
Lemma into_spool_app t t' : into_spool (t ++ t') = into_spool t ++ into_spool t'.
Proof. apply bind_app. Qed.
Lemma out_of_spool_app t t' : out_of_spool (t ++ t') = out_of_spool t ++ out_of_spool t'.
Proof. apply bind_app. Qed.

Lemma tally_app c t t' es es' k k' :
  tally c (t ++ t') (es ++ es') (k + k') = tally c t es k + tally c t' es' k'.
Proof.
  destruct c; cbn [tally]; try apply total_counts_app; [done|].
  unfold lossy. by rewrite filter_app, zlen_app.
Qed.

Lemma sheds_account w t k w' :
  sheds w t k w' →
  ∃ es, inbox w ++ parsed t = es ++ inbox w' ∧ handled t = sealed_record <$> es
    ∧ ∀ c, counted c w w' (tally c t es k).
Proof.
  induction 1 as [w|w t k w' t' w'' Hs (es & H1 & H2 & H3) (es' & H1' & H2' & H3')%step_account].
  - exists []. rewrite app_nil_r. split_and!; try done. intros c. eapply counted_eq; [by apply counted_same|by destruct c].
  - exists (es ++ es'). rewrite parsed_app, handled_app, fmap_app. split; [|split].
    + by rewrite app_assoc, H1, <- app_assoc, H1', app_assoc.
    + by rewrite H2, H2'.
    + intros c. rewrite tally_app. eapply counted_trans; auto.
Qed.

Lemma steps_sheds w t w' : steps w t w' → ∃ k, sheds w t k w'.
Proof.
  induction 1 as [w|w t w' t' w'' Hs [k IH] Hst]; [exists 0; constructor|].
  eexists. by econstructor.
Qed.

Lemma sheds_steps w t k w' : sheds w t k w' → steps w t w'.
Proof. induction 1; by econstructor. Qed.

(** ** The spool shared by the two tasks *)

(** A record this connector sealed. *)
Definition good (r : Record_) : Prop := ∃ m, sealed r = Seal.seal m signing_key.

Lemma sealed_good e : good (sealed_record e).
Proof. eexists. reflexivity. Qed.

(** The spool holds what went in less its oldest records, [gone]; what came out is
    among those in order, with a record in hand that the spool no longer has, and
    is all of them without evictions since [d0]. *)
Record spool_inv (d0 : Z) (l0 : list Record_) (w : World) (t : list Outcome) (s : Spool) (l : list Record_) : Prop := {
  si_spool : spool w = Some s;
  si_ok : spool_ok s l;
  si_sizes : sizes_ok s;
  si_d0 : d0 ≤ dropped_segments s;
  si_queue : ∃ gone, l0 ++ into_spool t = gone ++ l ∧ (dropped_segments s = d0 → gone = out_of_spool t)
    ∧ out_of_spool t `sublist_of` gone
    ∧ ∀ c r, holding w = Some (c, r) →
        (cursor s = c ∧ readable s c r) ∨ out_of_spool t ++ [r] `sublist_of` gone;
  si_good : Forall good l;
  si_held : ∀ c r, holding w = Some (c, r) → held d0 s c r ∧ good r
}.

Lemma append_inv d0 l0 w t s l r w' t' :
  spool_inv d0 l0 w t s l → good r →
  spool_append None s r w = (w', t') → rec_ok r →
  ∃ s' l', spool_inv d0 l0 w' (t ++ t') s' l' ∧ head_seq s' ≤ head_seq s + 1 ∧ t' = [OSpooled r].
Proof.
  intros [Hsp Hok Hz Hd (gone & Hq & Hg & Hsub & Hin) Hgood Hheld] Hr H Hro. unfold spool_append in H.
  assert (mkRecord (event_id r) (sealed r) = r) as Er by (by destruct r).
  destruct (append_ok s l (event_id r) (sealed r) Hok) as (s' & dr & k & Ha & Hok' & _ & _ & Hk & Hds & Hhs & Hz' & Hh' & Hrd');
    rewrite ?Er in *; [done|]. rewrite Ha in H.
  exists s', (drop k (l ++ [r])).
  assert (t' = [OSpooled r] ∧ spool w' = Some s' ∧ holding w' = holding w) as (-> & Hs' & Hhold).
  { destruct dr; injection H as <- <-; done. }
  split; [|split; [lia|done]]. split; try done.
  - auto.
  - lia.
  - exists (gone ++ take k (l ++ [r])). rewrite into_spool_app, out_of_spool_app. cbn. split_and!.
    + rewrite <- (app_assoc gone), take_drop, (app_assoc gone), <- Hq. by rewrite <- app_assoc.
    + intros E. assert (k = 0%nat) as -> by (apply Hk; lia). rewrite take_0, !app_nil_r. apply Hg. lia.
    + rewrite app_nil_r. by apply sublist_inserts_r.
    + rewrite Hhold, app_nil_r. intros c x Hc. destruct (Hin c x Hc) as [[Hcu Hrd]|Hx]; [|right; by apply sublist_inserts_r].
      destruct (Hrd' c x Hcu Hrd) as [?|Hk0]; [by left|right]. rewrite <- Hcu in Hrd.
      destruct (readable_head s l x Hok Hrd) as [l1 ->]. destruct k as [|k]; [lia|]. cbn [app take].
      apply sublist_app; [done|]. apply sublist_skip, sublist_nil_l.
  - apply Forall_drop, Forall_app. split; [done|]. by constructor.
  - rewrite Hhold. intros c x Hc. destruct (Hheld c x Hc). split; [|done]. by apply Hh'.
Qed.

(** Steps that leave the spool, the held record and the queue alone. *)
Lemma inv_same d0 l0 w t s l w' t' :
  spool_inv d0 l0 w t s l → spool w' = spool w → holding w' = holding w ∨ holding w' = None →
  into_spool t' = [] → out_of_spool t' = [] → spool_inv d0 l0 w' (t ++ t') s l.
Proof.
  intros [Hsp Hok Hz Hd (gone & Hq & Hg & Hsub & Hin) Hgood Hheld] Hs Hh H1 H2. split; try done.
  - by rewrite Hs.
  - exists gone. rewrite into_spool_app, out_of_spool_app, H1, H2, !app_nil_r. split_and!; try done.
    intros c r Hc. destruct Hh as [Hh|Hh]; rewrite Hh in Hc; [by apply Hin|done].
  - intros c r Hc. destruct Hh as [Hh|Hh]; rewrite Hh in Hc; [auto|done].
Qed.

Context {L : Ed25519Laws C}.

Lemma peek_inv d0 l0 w t s l w' t' ack ok :
  spool_inv d0 l0 w t s l → holding w = None → drain_step ack ok w = (w', t') →
  ∃ s', spool_inv d0 l0 w' (t ++ t') s' l ∧ head_seq s' = head_seq s ∧ t' = []
    ∧ holding w' = match l with [] => None | r :: _ => Some (cursor s', r) end
    ∧ ∀ r l', l = r :: l' → readable s' (cursor s') r.
Proof.
  intros [Hsp Hok Hz Hd (gone & Hq & Hg & Hsub & _) Hgood Hheld] Hh H. unfold drain_step in H. rewrite Hsp, Hh in H.
  destruct (peek_ok s l Hok) as (c & Hokc & Hp & Hr). rewrite Hp in H. exists (set_cursor s c).
  assert (spool w' = Some (set_cursor s c) ∧ t' = []
    ∧ holding w' = match l with [] => None | r :: _ => Some (c, r) end) as (Hs' & -> & Hh').
  { destruct l; injection H as <- <-; done. }
  rewrite app_nil_r. split; [|done].
  assert (∀ c' r', holding w' = Some (c', r') →
    cursor (set_cursor s c) = c' ∧ readable (set_cursor s c) c' r' ∧ good r') as Hcr.
  { intros c' r' Hc'. rewrite Hh' in Hc'. destruct l as [|r l]; [done|]. injection Hc' as <- <-.
    inversion Hgood; subst. split_and!; try done. by apply (Hr r l). }
  split; try done.
  - exists gone. split_and!; try done. intros c' r' Hc'. destruct (Hcr c' r' Hc') as (? & ? & _). by left.
  - intros c' r' Hc'. destruct (Hcr c' r' Hc') as (? & ? & ?). split; [by left|done].
Qed.

Lemma drain_inv d0 l0 w t s l at_ r w' t' ack ok :
  spool_inv d0 l0 w t s l → head_seq s < 2 ^ 64 → holding w = Some (at_, r) → drain_step ack ok w = (w', t') →
  ∃ s' l', spool_inv d0 l0 w' (t ++ t') s' l' ∧ head_seq s' = head_seq s ∧ holding w' = None
    ∧ (drain_send (js_mode w) ack ok).2 = js_mode w'
    ∧ match (drain_send (js_mode w) ack ok).1 with
      | true => t' = [ODrained r] ∧ (cursor s = at_ → readable s at_ r → l = r :: l')
      | false => t' = [] ∧ l' = l
      end.
Proof.
  intros Hinv H64 Hh H. pose proof Hinv as [Hsp Hok Hz Hd (gone & Hq & Hg & Hsub & Hin) Hgood Hheld].
  destruct (Hheld at_ r Hh) as [Hhd [m Hm]]. unfold drain_step in H. rewrite Hsp, Hh in H.
  rewrite Hm, verify_seal in H. destruct (drain_send (js_mode w) ack ok) as [[|] js] eqn:Hsend; injection H as <- <-.
  2: { exists s, l. split; [by apply inv_same with w; auto|done]. }
  destruct Hhd as [[Hc Hrd]|(Hf & Hlt & Hdr)].
  - subst at_. destruct (readable_head s l r Hok Hrd) as [l' ->].
    destruct (advance_ok s r l') as (s' & Ha & Hok' & Hds & Hhs & Hz'); [done| |done|done|].
    { pose proof (so_le _ _ Hok). lia. }
    exists s', l'. rewrite Ha. split; [|cbn; split_and!; [done..|by intros _ _]]. split; try done.
    + auto.
    + cbn. lia.
    + exists (gone ++ [r]). rewrite into_spool_app, out_of_spool_app. cbn. rewrite app_nil_r.
      split_and!; [by rewrite Hq, <- app_assoc| |by apply sublist_app|done]. intros E. rewrite Hg; [done|lia].
    + by inversion Hgood.
  - exists s, l. assert (advance s at_ = (s, Err IoError)) as -> by (unfold advance; by rewrite Hf).
    split; [|cbn; split_and!; try done].
    + split; try done. exists gone. rewrite into_spool_app, out_of_spool_app. cbn. rewrite app_nil_r.
      split_and!; [done|intros E; lia| |done].
      destruct (Hin at_ r Hh) as [[_ Hrd]|Hx]; [|done]. destruct (readable_file _ _ _ Hrd) as [? Hf']. congruence.
    + intros _ Hrd. destruct (readable_file _ _ _ Hrd) as [? Hf']. congruence.
Qed.

(** What the trace must not contain for the queue to be exact: a write that
    failed half-way, or a record the spool's header cannot hold. *)
Definition writes_ok (t : list Outcome) : Prop := faultless t ∧ Forall rec_ok (into_spool t).

Lemma writes_ok_app t t' : writes_ok (t ++ t') ↔ writes_ok t ∧ writes_ok t'.
Proof. unfold writes_ok, faultless. rewrite into_spool_app, !Forall_app. tauto. Qed.

Lemma append_fault n s r w w' t : spool_append (Some n) s r w = (w', t) → t = [OSpoolFailed r].
Proof. unfold spool_append, Spool.append. cbn zeta. by intros [= _ <-]. Qed.

Lemma event_inv d0 l0 w t s l net e w' t' :
  spool_inv d0 l0 w t s l → handle_event net e w = (w', t') → writes_ok t' →
  ∃ s' l', spool_inv d0 l0 w' (t ++ t') s' l' ∧ head_seq s' ≤ head_seq s + zlen (into_spool t') ∧ no_corrupt t'.
Proof.
  intros Hinv H [Hf Hro]. unfold handle_event in H. set (w1 := report_ungoverned _ w) in *.
  destruct (report_effect (match marking with Some m => Marking.apply m e | None => e end) w) as (_ & Hs1 & Hh1 & _).
  fold w1 in Hs1, Hh1.
  assert (spool_inv d0 l0 w1 t s l) as Hinv1.
  { rewrite <- (app_nil_r t). by apply inv_same with w; auto. }
  set (r := sealed_record e) in *. unfold publish_or_spool in H. rewrite (si_spool _ _ _ _ _ _ Hinv1) in H.
  assert (∀ w' t', spool_append (write_fault net) s r w1 = (w', t') → writes_ok t' →
    ∃ s' l', spool_inv d0 l0 w' (t ++ t') s' l' ∧ head_seq s' ≤ head_seq s + zlen (into_spool t') ∧ no_corrupt t') as Ha.
  { intros w2 t2 H2 [Hf2 Hro2]. destruct (write_fault net) as [n|].
    - apply append_fault in H2 as ->. by inversion Hf2.
    - assert (t2 = [OSpooled r] ∨ t2 = [OSpoolFailed r]) as Ht.
      { revert H2. unfold spool_append. destruct (Spool.append None s _ _) as [? [[|]| | |]]; intros [= _ <-]; auto. }
      destruct Ht as [->| ->]; [|by inversion Hf2].
      assert (rec_ok r) by (by inversion Hro2).
      destruct (append_inv d0 l0 w1 t s l r w2 _ Hinv1 (sealed_good e) H2) as (s' & l' & Hi & Hhs & _); [done|].
      exists s', l'. split; [done|]. split; [cbn; change (zlen [r]) with 1; lia|by repeat constructor]. }
  destruct (negb (connected net)); [by apply Ha|]. destruct (publish_ok net); [|by apply Ha].
  injection H as <- <-. exists s, l. split; [|split; [cbn; change (zlen (@nil Record_)) with 0; lia|by repeat constructor]].
  by apply inv_same with w1; auto.
Qed.

Lemma step_inv d0 l0 w t s l t' w' :
  spool_inv d0 l0 w t s l → step w t' w' → writes_ok t' → head_seq s < 2 ^ 64 →
  ∃ s' l', spool_inv d0 l0 w' (t ++ t') s' l' ∧ head_seq s' ≤ head_seq s + zlen (into_spool t') ∧ no_corrupt t'.
Proof.
  intros Hinv Hst Hw H64. destruct Hst as [w|w envs frame w' t' Hi _ H|w net e es w' t' Hi H|w ack ok w' t' H].
  - exists s, l. rewrite app_nil_r. split; [done|]. change (zlen (into_spool [])) with 0. split; [lia|constructor].
  - destruct (frame_effect _ _ _ _ _ H Hi) as (_ & _ & Hs & Hh & _).
    assert (into_spool t' = [] ∧ out_of_spool t' = [] ∧ no_corrupt t') as (E1 & E2 & E3).
    { revert H. unfold handle_frame. destruct (fp_parse _ _ _) as [? [| | |]]; intros [= _ <-]; by repeat constructor. }
    exists s, l. rewrite E1. change (zlen (@nil Record_)) with 0. split; [|split; [lia|done]]. by apply inv_same with w; auto.
  - eapply (event_inv d0 l0 (with_inbox w es)); [|done|done].
    rewrite <- (app_nil_r t). by apply inv_same with w; auto.
  - destruct (holding w) as [[c r]|] eqn:Hh.
    + destruct (drain_inv d0 l0 w t s l c r w' t' ack ok Hinv H64 Hh H) as (s' & l' & Hi & Hhs & _ & _ & Ht).
      exists s', l'. split; [done|]. pose proof (zlen_nonneg (into_spool t')).
      destruct (drain_send _ _ _).1; destruct Ht as [-> _]; (split; [lia|by repeat constructor]).
    + destruct (peek_inv d0 l0 w t s l w' t' ack ok Hinv Hh H) as (s' & Hi & Hhs & -> & _).
      exists s', l. split; [done|]. split; [|constructor]. change (zlen (into_spool [])) with 0. lia.
Qed.

Lemma steps_inv d0 l0 w t w' s l :
  spool_inv d0 l0 w [] s l → steps w t w' → writes_ok t → head_seq s + zlen (into_spool t) < 2 ^ 64 →
  ∃ s' l', spool_inv d0 l0 w' t s' l' ∧ head_seq s' ≤ head_seq s + zlen (into_spool t) ∧ no_corrupt t.
Proof.
  intros Hinv Hst. induction Hst as [w|w t w' t' w'' Hs IH Hst]; intros Hw H64.
  - exists s, l. change (zlen (into_spool [])) with 0. split; [done|]. split; [lia|constructor].
  - apply writes_ok_app in Hw as [Hw Hw']. rewrite into_spool_app, zlen_app in *.
    pose proof (zlen_nonneg (into_spool t')). pose proof (zlen_nonneg (into_spool t)).
    destruct (IH Hinv Hw) as (s1 & l1 & Hi1 & Hh1 & Hc1); [lia|].
    destruct (step_inv d0 l0 w' t s1 l1 t' w'' Hi1 Hst Hw') as (s2 & l2 & Hi2 & Hh2 & Hc2); [lia|].
    exists s2, l2. split; [done|]. split; [lia|]. by apply Forall_app.
Qed.

(** ** Draining to the end *)

(** [n] turns of the drain task, every send confirmed. *)
Fixpoint drain_turns (n : nat) (w : World) : World * list Outcome :=
  match n with
  | O => (w, [])
  | S n => let '(w, t) := drain_step Acked true w in let '(w, t') := drain_turns n w in (w, t ++ t')
  end.

Lemma drain_send_ok js : (drain_send js Acked true).1 = true.
Proof. by destruct js. Qed.

Lemma drain_turns_all d0 l0 l : ∀ w t s,
  spool_inv d0 l0 w t s l → head_seq s < 2 ^ 64 → holding w = None →
  ∃ w' s', drain_turns (2 * length l) w = (w', ODrained <$> l)
    ∧ spool_inv d0 l0 w' (t ++ (ODrained <$> l)) s' [].
Proof.
  induction l as [|r l IH]; intros w t s Hinv H64 Hh.
  - exists w, s. cbn. by rewrite app_nil_r.
  - replace (2 * length (r :: l))%nat with (S (S (2 * length l))) by (simpl; lia). cbn [drain_turns].
    destruct (drain_step Acked true w) as [w1 t1] eqn:H1.
    destruct (peek_inv d0 l0 w t s _ w1 t1 _ _ Hinv Hh H1) as (s1 & Hi1 & Hhs1 & -> & Hh1 & Hrd).
    destruct (drain_step Acked true w1) as [w2 t2] eqn:H2.
    destruct (drain_inv d0 l0 w1 _ s1 _ _ _ w2 t2 _ _ Hi1 ltac:(lia) Hh1 H2) as (s2 & l2 & Hi2 & Hhs2 & Hh2 & _ & Ht).
    rewrite drain_send_ok in Ht. destruct Ht as [-> Hl].
    specialize (Hl eq_refl (Hrd _ _ eq_refl)). injection Hl as <-.
    rewrite app_nil_r in Hi2. destruct (IH w2 _ s2 Hi2) as (w' & s' & Hd & Hi'); [lia|done|].
    exists w', s'. rewrite Hd. split; [done|]. by rewrite <- app_assoc in Hi'.
Qed.

Lemma drain_turns_app n w w1 t1 :
  drain_step Acked true w = (w1, t1) →
  ∀ w2 t2, drain_turns n w1 = (w2, t2) → drain_turns (S n) w = (w2, t1 ++ t2).
Proof. intros H w2 t2 H'. cbn [drain_turns]. by rewrite H, H'. Qed.

(** From any reachable state the drain empties the spool. *)
Lemma drain_turns_inv d0 l0 w t s l :
  spool_inv d0 l0 w t s l → head_seq s < 2 ^ 64 →
  ∃ n w' t' s', drain_turns n w = (w', t') ∧ spool_inv d0 l0 w' (t ++ t') s' [].
Proof.
  intros Hinv H64. destruct (holding w) as [[c r]|] eqn:Hh.
  - destruct (drain_step Acked true w) as [w1 t1] eqn:H1.
    destruct (drain_inv d0 l0 w t s l c r w1 t1 _ _ Hinv H64 Hh H1) as (s1 & l1 & Hi1 & Hhs1 & Hh1 & _ & _).
    destruct (drain_turns_all d0 l0 l1 w1 _ s1 Hi1 ltac:(lia) Hh1) as (w2 & s2 & Hd & Hi2).
    exists (S (2 * length l1)), w2, (t1 ++ (ODrained <$> l1)), s2.
    split; [by eapply drain_turns_app|]. by rewrite app_assoc.
  - destruct (drain_turns_all d0 l0 l w t s Hinv H64 Hh) as (w2 & s2 & Hd & Hi2). by eexists _, w2, _, s2.
Qed.

Lemma drain_turns_steps n : ∀ w w' t, drain_turns n w = (w', t) → ∀ w0 t0, steps w0 t0 w → steps w0 (t0 ++ t) w'.
Proof.
  induction n as [|n IH]; intros w w' t H w0 t0 Hs; cbn [drain_turns] in H.
  - injection H as <- <-. by rewrite app_nil_r.
  - destruct (drain_step Acked true w) as [w1 t1] eqn:H1. destruct (drain_turns n w1) as [w2 t2] eqn:H2.
    injection H as <- <-. rewrite app_assoc. apply (IH w1); [done|]. eapply steps_snoc; [done|]. by eapply step_drain.
Qed.

(** A world as [run] starts it, over a spool that holds [l0]. *)
Definition starts (w : World) (s : Spool) (l0 : list Record_) : Prop :=
  spool w = Some s ∧ spool_ok s l0 ∧ sizes_ok s ∧ Forall good l0 ∧ holding w = None ∧ inbox w = [].

Lemma starts_inv w s l0 : starts w s l0 → spool_inv (dropped_segments s) l0 w [] s l0.
Proof.
  intros (Hs & Hok & Hz & Hg & Hh & _). split; try done.
  { exists []. cbn. rewrite app_nil_r. split_and!; try done. intros c r Hc. congruence. }
  intros c r Hc. congruence.
Qed.

(** * Properties *)

(** C2: no event goes missing in silence: of the events parsed, in order, each is
    published, spooled, shed or reported lost exactly once, but for those still
    in hand; and every counter counts exactly what its name says, modulo its
    width: the outcomes; among the events handled, those of which Core will not
    govern the type or an attribute; and the appends at which the spool dropped
    segments. *)
Theorem runtime_accounting w t w' :
  steps w t w' → inbox w = [] →
  (∃ k, sheds w t k w') ∧
  ∃ es, parsed t = es ++ inbox w' ∧ handled t = sealed_record <$> es
    ∧ ∀ k, sheds w t k w' → ∀ c,
        counter c (metrics w') mod 2 ^ 64 = (counter c (metrics w) + tally c t es k) mod 2 ^ 64.
Proof.
  intros H Hi. destruct (steps_sheds w t w' H) as [k0 Hk0]. split; [by exists k0|].
  destruct (sheds_account w t k0 w' Hk0) as (es & H1 & H2 & _). rewrite Hi in H1. exists es. split_and!; try done.
  intros k Hk c. destruct (sheds_account w t k w' Hk) as (es' & H1' & _ & H3). rewrite Hi in H1'. cbn in H1, H1'.
  rewrite H1 in H1'. apply app_inv_tail in H1' as <-. apply H3.
Qed.

(** C3: the live path and the drain share the spool safely. While no write to
    disk fails half-way, every record fits the segment header and the segment
    numbers their width: however the two tasks interleave, the spool holds what
    went in less its oldest records; what was delivered is among those, in order
    and once each, and is all of them as long as no segment was dropped; and
    nothing is taken for corrupt. *)
Theorem runtime_spool_fifo w s l0 t w' :
  starts w s l0 → steps w t w' → writes_ok t → head_seq s + zlen (into_spool t) < 2 ^ 64 →
  ∃ s' l, spool w' = Some s' ∧ spool_ok s' l ∧ no_corrupt t
    ∧ ∃ gone, l0 ++ into_spool t = gone ++ l ∧ out_of_spool t `sublist_of` gone
        ∧ (dropped_segments s' = dropped_segments s → gone = out_of_spool t).
Proof.
  intros Hst Hs Hw H64.
  destruct (steps_inv _ l0 w t w' s l0 (starts_inv _ _ _ Hst) Hs Hw H64) as (s' & l & [? ? ? ? (gone & Hq & Hg & Hsub & _) ? ?] & _ & ?).
  exists s', l. split_and!; try done. by exists gone.
Qed.

(** C4: once the broker confirms every send, the drain empties the spool: from any
    state reached without a write to disk that failed half-way, with records
    that fit the segment header, some number of its turns leaves nothing behind,
    and while no segment was dropped it has then delivered everything that ever
    went in. *)
Theorem runtime_drains w s l0 t w' :
  starts w s l0 → steps w t w' → writes_ok t → head_seq s + zlen (into_spool t) < 2 ^ 64 →
  ∃ n w2 t2 s2, drain_turns n w' = (w2, t2) ∧ steps w (t ++ t2) w2
    ∧ spool w2 = Some s2 ∧ spool_ok s2 []
    ∧ (dropped_segments s2 = dropped_segments s → l0 ++ into_spool (t ++ t2) = out_of_spool (t ++ t2)).
Proof.
  intros Hst Hs Hw H64.
  destruct (steps_inv _ l0 w t w' s l0 (starts_inv _ _ _ Hst) Hs Hw H64) as (s' & l & Hi & Hhs & _).
  destruct (drain_turns_inv _ _ _ _ _ _ Hi ltac:(lia)) as (n & w2 & t2 & s2 & Hd & [? ? ? ? (gone & Hq & Hg & _) ? ?]).
  exists n, w2, t2, s2. split_and!; try done; [by eapply drain_turns_steps|].
  intros E. rewrite Hq, app_nil_r. auto.
Qed.

(** No frame stops the loop, whichever state it is in. *)
Lemma keeps_running (PL : FrameParserLaws P) w t w' :
  fp_inv (parser w) → steps w t w' →
  ∀ envs frame, bytes_ok frame →
  ∃ w2 t2, handle_frame envs frame w' = Ok (w2, t2) ∧ Forall Canonical (parsed t2).
Proof.
  intros Hinv Hs envs frame Hb.
  assert (fp_inv (parser w')) as Hinv'.
  { induction Hs as [|w t w' t' w'' Hs IH Hst]; [done|]. specialize (IH Hinv).
    destruct Hst as [v|v envs' frame' v' t2 _ Hb' H|v net e es v' t2 _ H|v ack ok v' t2 H]; [done|..].
    - unfold handle_frame in H. destruct (fp_safe envs' (parser v) frame' IH Hb') as [_ Hi]. cbn [bump with_metrics parser] in H.
      destruct (fp_parse envs' (parser v) frame') as [ps [| | |]]; try done; by injection H as <- _.
    - unfold handle_event, publish_or_spool, spool_append in H.
      destruct (report_effect (match marking with Some m => Marking.apply m e | None => e end) (with_inbox v es))
        as (_ & _ & _ & Hp & _).
      change (parser v) with (parser (with_inbox v es)) in IH. rewrite <- Hp in IH.
      set (w1 := report_ungoverned _ _) in *.
      repeat match type of H with
      | context [match ?x with _ => _ end] => destruct x
      end; by injection H as <- _.
    - unfold drain_step in H.
      repeat match type of H with
      | context [match ?x with _ => _ end] => destruct x
      end; by injection H as <- _. }
  destruct (fp_safe envs (parser w') frame Hinv' Hb) as [Hsafe _].
  pose proof (fp_canonical envs (parser w') frame) as Hcan. unfold handle_frame. cbn [bump with_metrics parser].
  destruct (fp_parse envs (parser w') frame) as [ps [es|e| |]]; try done; eexists _, _; (split; [done|]).
  - cbn. rewrite app_nil_r. by apply Hcan.
  - constructor.
Qed.

End runtime.

(** * Witnesses *)

(** A parser that turns every frame into one event. *)
Definition echo_builder (env : Env) (frame : bytes) : EventBuilder :=
  set_payload frame (now env (new_id env (builder_new "s" "mim:vessel"))).
Definition echo_parser : FrameParser := {|
  fp_state := unit; fp_error := unit;
  fp_parse := λ envs s frame, (s, e ← map_err (λ _, tt) (build (echo_builder (envs 0%nat) frame)); Ok [e])
|}.
Definition echo_laws : FrameParserLaws echo_parser.
Proof.
  refine {| fp_inv := λ _ : @fp_state echo_parser, True |}.
  - intros envs s frame _ _. split; [|done]. cbn [fp_parse echo_parser snd]. apply safe_bind; [apply safe_build|done].
  - intros envs s frame es _ _ H. cbn [fp_parse echo_parser snd] in H. apply bind_Ok in H as (e & He & [= <-]).
    constructor; [by eapply build_all_canonical|constructor].
Defined.

Definition ex_envs : Envs := λ _, mkEnv "id-1" "2026-06-10T08:00:00Z" 0.
Abbreviation ex_handle_frame := (handle_frame (P := echo_parser)).
Abbreviation ex_handle_event :=
  (handle_event (P := echo_parser) (C := toy) None (5 : @skey toy) ev_payload ex_ontology).

Definition big_spool : Spool := mkSpool 100000 [(0, [])] None 0 0 (mkCursor 0 0) 0.
Lemma big_spool_ok : spool_ok big_spool [].
Proof. destruct (open_empty 100000) as (s & [= <-] & Hs). exact Hs. Qed.

Definition ex_w0 : World (P := echo_parser) :=
  mkWorld (P := echo_parser) tt (mkMetrics 0 0 0 0 0 0 0 0 0 0) (Some big_spool) ∅ [] true None.
Definition ex_after_frame := match ex_handle_frame ex_envs [7; 9] ex_w0 with Ok wt => wt | _ => (ex_w0, []) end.
Definition ex_in_hand : Event := match inbox ex_after_frame.1 with e :: _ => e | [] => ex_event "s" end.
Definition ex_offline : Net := mkNet false false None.
Definition ex_after_event := ex_handle_event ex_offline ex_in_hand (with_inbox ex_after_frame.1 []).
Definition ex_trace : list Outcome := ([] ++ ex_after_frame.2) ++ ex_after_event.2.

Lemma ex_steps : steps (P := echo_parser) (C := toy) None (5 : @skey toy) ev_payload ex_ontology ex_w0 ex_trace ex_after_event.1.
Proof.
  apply (steps_snoc _ _ _ _ _ _ ex_after_frame.1).
  - apply (steps_snoc _ _ _ _ _ _ ex_w0); [apply steps_refl|].
    apply (step_frame _ _ _ _ ex_w0 ex_envs [7; 9]); [done|by apply bytes_okb_ok|].
    vm_cast_no_check (@eq_refl (res unit _) (Ok ex_after_frame)).
  - apply (step_event _ _ _ _ ex_after_frame.1 ex_offline ex_in_hand []).
    + vm_cast_no_check (eq_refl [ex_in_hand]).
    + vm_cast_no_check (eq_refl ex_after_event).
Qed.

Lemma ex_starts : starts (P := echo_parser) (C := toy) (5 : @skey toy) ex_w0 big_spool [].
Proof.
  split_and!; try done; [apply big_spool_ok|]. unfold sizes_ok. by repeat constructor.
Qed.

Lemma ex_writes_ok : writes_ok ex_trace.
Proof.
  unfold writes_ok. assert (into_spool ex_trace = [mkRecord (s2b "id-1") (@Seal.seal toy [7; 9] 5)]) as -> by (vm_compute; reflexivity).
  split; [vm_compute; by repeat constructor|]. constructor; [|constructor].
  split_and!; try (vm_compute; reflexivity); by apply bytes_okb_ok; vm_compute.
Qed.

Lemma runtime_accounting_witness :
  ∃ es, parsed ex_trace = es ++ []
    ∧ counter SpooledEvents (metrics ex_after_event.1) mod 2 ^ 64 = 1
    ∧ counter DroppedSegments (metrics ex_after_event.1) mod 2 ^ 64 = 0
    ∧ counter Ungoverned (metrics ex_after_event.1) mod 2 ^ 64
      = zlen (lossy None ex_ontology es) mod 2 ^ 64.
Proof.
  destruct (runtime_accounting (P := echo_parser) (C := toy) None (5 : @skey toy) ev_payload ex_ontology ex_w0 ex_trace
    ex_after_event.1 ex_steps eq_refl) as [[k Hk] (es & H1 & _ & H3)].
  assert (inbox ex_after_event.1 = []) as Hin by (vm_cast_no_check (@eq_refl (list Event) [])).
  exists es. rewrite Hin in H1. split; [exact H1|].
  split; [rewrite (H3 k Hk SpooledEvents); vm_compute; reflexivity|].
  split; [vm_compute; reflexivity|]. rewrite (H3 k Hk Ungoverned). reflexivity.
Defined.

Lemma runtime_spool_fifo_witness :
  ∃ s' l, spool ex_after_event.1 = Some s' ∧ spool_ok s' l ∧ into_spool ex_trace = out_of_spool ex_trace ++ l.
Proof.
  destruct (runtime_spool_fifo (P := echo_parser) (C := toy) None (5 : @skey toy) ev_payload ex_ontology (L := toy_laws)
    ex_w0 big_spool [] ex_trace ex_after_event.1 ex_starts ex_steps ex_writes_ok) as (s' & l & Hs & Hok & _ & gone & Hq & _ & Hg).
  - vm_compute. reflexivity.
  - exists s', l. split; [exact Hs|]. split; [exact Hok|]. rewrite <- Hg; [exact Hq|].
    assert (dropped_segments <$> spool ex_after_event.1 = Some 0) as H0 by (vm_cast_no_check (eq_refl (Some 0))).
    rewrite Hs in H0. injection H0 as ->. reflexivity.
Defined.

Lemma runtime_drains_witness :
  ∃ n w2 t2 s2, drain_turns (P := echo_parser) (C := toy) (5 : @skey toy) n ex_after_event.1 = (w2, t2)
    ∧ spool w2 = Some s2 ∧ spool_ok s2 [].
Proof.
  destruct (runtime_drains (P := echo_parser) (C := toy) None (5 : @skey toy) ev_payload ex_ontology (L := toy_laws)
    ex_w0 big_spool [] ex_trace ex_after_event.1 ex_starts ex_steps ex_writes_ok)
    as (n & w2 & t2 & s2 & Hd & _ & Hs & Hok & _); [vm_compute; reflexivity|].
  exists n, w2, t2, s2. split; [exact Hd|]. split; [exact Hs|exact Hok].
Defined.
