(* ===== verification/Adsb.v ===== *)
(** The ADS-B connector (rust/connectors/adsb/src/adsb.rs): SBS-1 lines, the
    state cached per aircraft, and the event of a position report. *)
From Stdlib Require Import ZArith Lia.
From Stdlib Require Import Strings.String.
From S2P Require Export Parser Cache.

Local Open Scope Z_scope.

(** @src rust/connectors/adsb/src/adsb.rs 16-18 FT_TO_M FTMIN_TO_MPS KNOTS_TO_MPS *)
Definition FT_TO_M : f64 := f_ratio 3048 10000.
Definition FTMIN_TO_MPS : f64 := f_div FT_TO_M (f_of_Z 60).
Definition KNOTS_TO_MPS : f64 := f_ratio 514444 1000000.

(** @src rust/connectors/adsb/src/adsb.rs 20-30 AdsbError *)
Inductive AdsbError :=
| NotAscii
| NotSbs
| NoIcao
| Build (e : BuildError).

(** @src rust/connectors/adsb/src/adsb.rs 51-62 AircraftState *)
Record AircraftState := mkAircraft {
  callsign : option string;
  squawk : option string;
  ground_speed_kn : option f64;
  track_deg : option f64;
  vertical_rate_ftmin : option f64;
  altitude_ft : option f64;
  on_ground : option bool
}.
Definition no_state : AircraftState := mkAircraft None None None None None None None.

(** @src rust/connectors/adsb/src/adsb.rs 32-49 AdsbPosition *)
Record AdsbPosition := mkAdsbPosition {
  icao : string;
  msg_type : Z;
  lat : f64;
  lon : f64;
  alt_m : f64;
  state : AircraftState;
  raw : bytes;
  truncated : bool
}.

(** @src rust/connectors/adsb/src/adsb.rs 64-68 MAX_AIRCRAFT MAX_PENDING_FRAMES MAX_PENDING_BYTES *)
Definition MAX_AIRCRAFT : Z := 10000.
Definition MAX_PENDING_FRAMES : Z := 64.
Definition MAX_PENDING_BYTES : Z := 16 * 1024.

(** @src rust/connectors/adsb/src/adsb.rs 70-76 Entry *)
Record Entry := mkEntry {
  e_state : AircraftState;
  pending : list bytes;
  pending_bytes : Z;
  dropped_since_emit : bool
}.
Definition no_entry : Entry := mkEntry no_state [] 0 false.

(** @src rust/connectors/adsb/src/adsb.rs 78-95 Entry::push_raw *)
Definition push_raw (e : Entry) (raw : bytes) : Entry * Z :=
  let '(pend, n, flag, dropped) :=
    shed MAX_PENDING_FRAMES MAX_PENDING_BYTES (pending e ++ [raw]) (pending_bytes e + zlen raw)
      (dropped_since_emit e) 0 in
  (mkEntry (e_state e) pend n flag, dropped).

(** The pending lines newline-joined. *)
Fixpoint join_lines (i : nat) (ls : list bytes) : bytes :=
  match ls with
  | [] => []
  | l :: ls => (if (0 <? i)%nat then [10] else []) ++ l ++ join_lines (S i) ls
  end.

(** @src rust/connectors/adsb/src/adsb.rs 97-109 Entry::drain_payload *)
Definition drain_payload (e : Entry) : Entry * (bytes * bool) :=
  (mkEntry (e_state e) [] 0 false, (join_lines 0 (pending e), dropped_since_emit e)).

(** @src rust/connectors/adsb/src/adsb.rs 112-116 StateCache *)
Definition StateCache : Type := Cache string Entry.

(** @src rust/connectors/adsb/src/adsb.rs 118-130 StateCache::entry *)
Definition entry (icao : string) (c : StateCache) : Cache string Entry * Entry :=
  cache_entry MAX_AIRCRAFT no_entry icao c.

(** @src rust/connectors/adsb/src/adsb.rs 132-137 AdsbParser *)
Record AdsbParser := mkAdsb {
  source_id : string;
  enrichment : Enrichment;
  aircraft : StateCache;
  dropped : Z
}.

(** @src rust/connectors/adsb/src/adsb.rs 139-147 AdsbParser::new *)
Definition adsb_new (src : string) (e : Enrichment) : AdsbParser := mkAdsb src e empty_cache 0.

(** @src rust/connectors/adsb/src/adsb.rs 299-302 field *)
Definition field (parts : list bytes) (i : Z) : option bytes :=
  match trim <$> get parts i with
  | Some (b :: s) => Some (b :: s)
  | _ => None
  end.

(** @src rust/connectors/adsb/src/adsb.rs 304-306 num *)
Definition num (parts : list bytes) (i : Z) : option f64 := field parts i ≫= parse_f64.

(** The line of a frame, its fields and its ICAO address; [None] for a line with
    nothing to track. *)
(** @src rust/connectors/adsb/src/adsb.rs 149-171 AdsbParser::parse_line *)
Definition message (frame : bytes) : res AdsbError (option (string * list bytes * bytes)) :=
  if negb (utf8_valid frame) then Err NotAscii
  else
    let line := trim_end_matches (λ b, (b =? 13) || (b =? 10)) frame in
    match line with
    | [] => Ok None
    | _ =>
        let parts := split_on 44 line in
        p0 ← idx parts 0;
        let kind s := bool_decide (p0 = s2b s) in
        if kind "MSG"%string then
          a ← ok_or NoIcao (field parts 4); Ok (Some (b2s (to_upper <$> a), parts, line))
        else if kind "SEL"%string || kind "ID"%string || kind "AIR"%string || kind "STA"%string || kind "CLK"%string
        then Ok None
        else Err NotSbs
    end.

(** [if let Some(v) = new { field = Some(v) }]. *)
Definition or_old {A} (new old : option A) : option A := match new with Some v => Some v | None => old end.

(** @src rust/connectors/adsb/src/adsb.rs 180-202 AdsbParser::parse_line *)
Definition update_state (parts : list bytes) (s : AircraftState) : AircraftState :=
  mkAircraft
    (or_old ((λ cs, b2s (trim cs)) <$> field parts 10) (callsign s))
    (or_old (b2s <$> field parts 17) (squawk s))
    (or_old (num parts 12) (ground_speed_kn s))
    (or_old (num parts 13) (track_deg s))
    (or_old (num parts 16) (vertical_rate_ftmin s))
    (or_old (num parts 11) (altitude_ft s))
    (or_old ((λ g, bool_decide (g = s2b "1")) <$> field parts 21) (on_ground s)).

(** @src rust/connectors/adsb/src/adsb.rs 204-212 AdsbParser::parse_line *)
Definition fix_of (parts : list bytes) (tx : option Z) : option (Z * f64 * f64) :=
  ty ← tx;
  if negb ((ty =? 2) || (ty =? 3)) then None
  else
    la ← num parts 14; lo ← num parts 15;
    if negb (in_range (f_of_Z (-90)) (f_of_Z 90) la) || negb (in_range (f_of_Z (-180)) (f_of_Z 180) lo) then None
    else Some (ty, la, lo).

(** @src rust/connectors/adsb/src/adsb.rs 149-225 AdsbParser::parse_line *)
Definition parse_line (self : AdsbParser) (frame : bytes) : AdsbParser * res AdsbError (option AdsbPosition) :=
  match message frame with
  | Ok (Some (a, parts, line)) =>
      let tx := field parts 1 ≫= parse_u8 in
      let '(cache, e) := entry a (aircraft self) in
      let '(e, k) := push_raw e line in
      let total := if 0 <? k then fetch_add (dropped self) k else dropped self in
      let e := mkEntry (update_state parts (e_state e)) (pending e) (pending_bytes e) (dropped_since_emit e) in
      let keep e := mkAdsb (source_id self) (enrichment self) (put a e cache) total in
      match fix_of parts tx with
      | Some (ty, la, lo) =>
          let st := e_state e in
          let '(e, (rw, tr)) := drain_payload e in
          (keep e, Ok (Some (mkAdsbPosition a ty la lo
             (match altitude_ft st with Some ft => f_mul ft FT_TO_M | None => f_zero end) st rw tr)))
      | None => (keep e, Ok None)
      end
  | Ok None => (self, Ok None)
  | Err e => (self, Err e)
  | Panic => (self, Panic)
  | NoFuel => (self, NoFuel)
  end.

Definition non_blank (s : string) : bool := negb (String.eqb s "").

(** @src rust/connectors/adsb/src/adsb.rs 227-273 AdsbParser::base_builder *)
Definition base_builder (env : Env) (self : AdsbParser) (p : AdsbPosition) : EventBuilder :=
  let s := state p in
  let b := new_id env (builder_new (source_id self) "mim:aircraft") in
  let b := set_payload (raw p) (set_location (lat p) (lon p) (alt_m p) b) in
  let b := add_metadata "icao" (icao p) (add_metadata "source_uid" (icao p) b) in
  let b := identity "ICAO24" (icao p) b in
  let b := on_true (truncated p) (add_metadata "payload_truncated" "true") b in
  let b := on_some (hostility (enrichment self)) (attribute "hostility") b in
  let b := on_some (c ← callsign s; if non_blank c then Some c else None) (attribute "callsign") b in
  let b := on_some (ground_speed_kn s) (λ kn b,
    add_metadata "speed_kn" (fmt_fixed 1 kn) (attribute "speed" (fmt_fixed 2 (f_mul kn KNOTS_TO_MPS)) b)) b in
  let b := on_some (fmt_fixed 1 <$> track_deg s) (attribute "course") b in
  let b := on_some (vertical_rate_ftmin s) (λ ftmin b,
    let mps := f_mul ftmin FTMIN_TO_MPS in
    add_metadata "vertical_rate_ftmin" (fmt_fixed 0 ftmin)
      (attribute "vertical_rate" (fmt_fixed 1 (if f_eqb mps f_zero then f_zero else mps)) b)) b in
  let b := on_some (altitude_ft s) (λ ft, add_metadata "altitude_ft" (fmt_fixed 0 ft)) b in
  let b := on_some (q ← squawk s; if non_blank q then Some q else None) (attribute "squawk") b in
  on_some ((λ g : bool, if g then "true"%string else "false"%string) <$> on_ground s) (attribute "on_ground") b.

(** @src rust/connectors/adsb/src/adsb.rs 275-277 AdsbParser::to_event_at *)
Definition to_event_at (env : Env) (self : AdsbParser) (p : AdsbPosition) (observed : string) : res AdsbError Event :=
  map_err Build (build (set_timestamp observed (base_builder env self p))).

(** @src rust/connectors/adsb/src/adsb.rs 280-292 AdsbParser::parse *)
Definition parse (envs : Envs) (self : AdsbParser) (frame : bytes) : AdsbParser * res AdsbError (list Event) :=
  let '(self, r) := parse_line self frame in
  (self,
   o ← r;
   match o with
   | None => Ok []
   | Some pos =>
       e ← map_err Build (build (now (envs 0%nat) (base_builder (envs 0%nat) self pos)));
       Ok [e]
   end).

(** * The specification: one track per aircraft *)

(** All an aircraft's messages so far, and its lines since its last event. *)
Record Track := mkTrack { t_msgs : list (list bytes); t_lines : list bytes }.
Definition no_track : Track := mkTrack [] [].

(** A field is the latest one any of the messages carried. *)
Definition latest (ms : list (list bytes)) : AircraftState :=
  mkAircraft
    (last (omap (λ m, (λ cs, b2s (trim cs)) <$> field m 10) ms))
    (last (omap (λ m, b2s <$> field m 17) ms))
    (last (omap (λ m, num m 12) ms))
    (last (omap (λ m, num m 13) ms))
    (last (omap (λ m, num m 16) ms))
    (last (omap (λ m, num m 11) ms))
    (last (omap (λ m, (λ g, bool_decide (g = s2b "1")) <$> field m 21) ms)).

(** What a line reports: an aircraft, the type and place of the fix, and the
    aircraft's track with this line in it. *)
Record Report := mkReport { r_icao : string; r_type : Z; r_lat : f64; r_lon : f64; r_track : Track }.

(** The tracks, in the order their aircraft were first heard. *)
Abbreviation Tracks := (list (string * Track)).

Fixpoint track_of (a : string) (ts : Tracks) : option Track :=
  match ts with [] => None | (b, t) :: ts => if String.eqb a b then Some t else track_of a ts end.
Fixpoint set_track (a : string) (t : Track) (ts : Tracks) : Tracks :=
  match ts with [] => [] | (b, u) :: ts => if String.eqb a b then (b, t) :: ts else (b, u) :: set_track a t ts end.

(** An aircraft that is not tracked takes the place of the one tracked longest, once
    there are as many as can be. *)
Definition track_put (a : string) (t : Track) (ts : Tracks) : Tracks :=
  match track_of a ts with
  | Some _ => set_track a t ts
  | None => (if MAX_AIRCRAFT <=? zlen ts then tail ts else ts) ++ [(a, t)]
  end.

Definition spec_line (ts : Tracks) (frame : bytes) : Tracks * option Report :=
  match message frame with
  | Ok (Some (a, parts, line)) =>
      let t := default no_track (track_of a ts) in
      let t := mkTrack (t_msgs t ++ [parts]) (t_lines t ++ [line]) in
      match fix_of parts (field parts 1 ≫= parse_u8) with
      | Some (ty, la, lo) => (track_put a (mkTrack (t_msgs t) []) ts, Some (mkReport a ty la lo t))
      | None => (track_put a t ts, None)
      end
  | _ => (ts, None)
  end.

(** The position the parser gives for a report: the whole of it, and all the
    lines since the last event, or, when it says so, only the newest of them. *)
Definition reports (p : AdsbPosition) (r : Report) : Prop :=
  icao p = r_icao r ∧ msg_type p = r_type r ∧ lat p = r_lat r ∧ lon p = r_lon r
  ∧ state p = latest (t_msgs (r_track r))
  ∧ alt_m p = match altitude_ft (state p) with Some ft => f_mul ft FT_TO_M | None => f_zero end
  ∧ ∃ lost kept, t_lines (r_track r) = lost ++ kept ∧ raw p = join_lines 0 kept
      ∧ (truncated p = false → lost = []).

Lemma last_snoc_omap {A B} (f : A → option B) l x : last (omap f (l ++ [x])) = or_old (f x) (last (omap f l)).
Proof. rewrite omap_app. simpl. destruct (f x); simpl; [by rewrite last_snoc|by rewrite app_nil_r]. Qed.

Lemma update_latest ms parts : update_state parts (latest ms) = latest (ms ++ [parts]).
Proof. unfold latest. by rewrite !last_snoc_omap. Qed.

(** * The parser keeps its tracks *)

Definition entry_ok (e : Entry) : Prop :=
  carried_ok MAX_PENDING_FRAMES MAX_PENDING_BYTES (pending e) (pending_bytes e).
Definition adsb_ok (s : AdsbParser) : Prop :=
  cache_ok MAX_AIRCRAFT (aircraft s) ∧ map_Forall (λ _, entry_ok) (cmap (aircraft s)).

Lemma no_entry_ok : entry_ok no_entry.
Proof. by apply carried_nil. Qed.

Lemma adsb_new_ok src e : adsb_ok (adsb_new src e).
Proof. split; [by apply empty_cache_ok|apply map_Forall_empty]. Qed.

Lemma adsb_push_spec e line :
  entry_ok e →
  let '(e', k) := push_raw e line in
  entry_ok e' ∧ e_state e' = e_state e ∧ 0 ≤ k
  ∧ pending e ++ [line] = take (Z.to_nat k) (pending e ++ [line]) ++ pending e'
  ∧ dropped_since_emit e' = dropped_since_emit e || (0 <? k).
Proof.
  intros (Hb & _ & _). unfold push_raw.
  pose proof (shed_spec MAX_PENDING_FRAMES MAX_PENDING_BYTES (pending e ++ [line]) (pending_bytes e + zlen line)
    (dropped_since_emit e) 0) as H.
  destruct (shed _ _ _ _ _ _) as [[[p n] f] k]. rewrite Z.sub_0_r in H.
  destruct H as (H1 & H2 & H3 & H4); [done|done| |by split_and!].
  rewrite total_bytes_app, Hb. change (total_bytes [line]) with (zlen line + 0). lia.
Qed.

(** An entry follows a track. *)
Definition follows (e : Entry) (t : Track) : Prop :=
  entry_ok e ∧ e_state e = latest (t_msgs t)
  ∧ ∃ lost, t_lines t = lost ++ pending e ∧ (dropped_since_emit e = false → lost = []).

Lemma no_entry_follows : follows no_entry no_track.
Proof. split; [apply no_entry_ok|]. split; [done|]. by exists []. Qed.

Lemma push_raw_follows e t parts line :
  follows e t →
  let '(e', k) := push_raw e line in
  follows (mkEntry (update_state parts (e_state e')) (pending e') (pending_bytes e') (dropped_since_emit e'))
    (mkTrack (t_msgs t ++ [parts]) (t_lines t ++ [line])).
Proof.
  intros (Hok & Hst & lost & Hl & Hd). pose proof (adsb_push_spec e line Hok) as H.
  destruct (push_raw e line) as [e' k]. destruct H as (Hok' & Hs' & Hk & Hp & Hf).
  split; [done|]. cbn [e_state t_msgs t_lines pending dropped_since_emit]. split; [by rewrite Hs', Hst, update_latest|].
  exists (lost ++ take (Z.to_nat k) (pending e ++ [line])). split; [by rewrite <- app_assoc, <- Hp, app_assoc, <- Hl|].
  rewrite Hf. intros [Hd0 Hk0]%orb_false_iff. rewrite (Hd Hd0). replace k with 0 by lia. done.
Qed.

(** ** The tracks as a queue of aircraft *)

Lemma set_track_keys a t ts : (set_track a t ts).*1 = ts.*1.
Proof. induction ts as [|[b u] ts IH]; [done|]. cbn. destruct (String.eqb a b); cbn; [done|by rewrite IH]. Qed.

Lemma track_of_set a t ts x :
  track_of x (set_track a t ts) = if String.eqb x a then (λ _, t) <$> track_of a ts else track_of x ts.
Proof.
  induction ts as [|[b u] ts IH]; cbn; [by destruct (String.eqb x a)|].
  destruct (String.eqb_spec a b) as [->|Hab]; cbn; [by destruct (String.eqb x b)|].
  destruct (String.eqb_spec x b) as [->|Hxb]; [|exact IH]. by rewrite (proj2 (String.eqb_neq b a)) by done.
Qed.

Lemma track_of_snoc a t ts x :
  track_of x (ts ++ [(a, t)]) = match track_of x ts with Some u => Some u | None => if String.eqb x a then Some t else None end.
Proof. induction ts as [|[b u] ts IH]; cbn; [done|]. by destruct (String.eqb x b). Qed.

Lemma track_of_key ts x : is_Some (track_of x ts) ↔ x ∈ ts.*1.
Proof.
  induction ts as [|[b u] ts IH]; cbn; [rewrite elem_of_nil; split; [by intros []|done]|].
  rewrite elem_of_cons, <- IH. destruct (String.eqb_spec x b); naive_solver.
Qed.

(** The cache follows the tracks: the same aircraft, in the same order. *)
Definition tracks (s : AdsbParser) (ts : Tracks) : Prop :=
  cache_ok MAX_AIRCRAFT (aircraft s) ∧ order (aircraft s) = ts.*1
  ∧ ∀ a, match cmap (aircraft s) !! a, track_of a ts with
         | Some e, Some t => follows e t
         | None, None => True
         | _, _ => False
         end.

Lemma tracks_new src e : tracks (adsb_new src e) [].
Proof. split; [by apply empty_cache_ok|]. split; [done|]. intros a. cbn. by rewrite lookup_empty. Qed.

Lemma entry_get a c : cache_ok MAX_AIRCRAFT c → (entry a c).2 = default no_entry (cmap c !! a).
Proof. apply (cache_entry_ok MAX_AIRCRAFT eq_refl no_entry). Qed.

Lemma tracks_entry s ts a : tracks s ts → follows (entry a (aircraft s)).2 (default no_track (track_of a ts)).
Proof.
  intros (Hc & _ & Ht). rewrite (entry_get a _ Hc). specialize (Ht a).
  destruct (cmap (aircraft s) !! a), (track_of a ts); try done. apply no_entry_follows.
Qed.

Lemma tracks_put s ts a e t n :
  tracks s ts → follows e t →
  tracks (mkAdsb (source_id s) (enrichment s) (put a e (entry a (aircraft s)).1) n) (track_put a t ts).
Proof.
  intros (Hc & Ho & Ht) Hf. unfold entry. pose proof (Ht a) as Ha. pose proof Hc as (Hnd & _ & _).
  destruct (entry_put_room MAX_AIRCRAFT eq_refl no_entry e a (aircraft s) Hc) as [Hm Hord].
  split; [by apply entry_put_ok|]. cbn [aircraft]. rewrite Hm, Hord. clear Hm Hord. unfold track_put.
  destruct (cmap (aircraft s) !! a) as [e0|], (track_of a ts) as [t0|] eqn:Hta; try done; clear Ha.
  - rewrite set_track_keys. split; [done|]. intros x. rewrite track_of_set, Hta. destruct (String.eqb_spec x a) as [->|Hne].
    + by rewrite lookup_insert_eq.
    + rewrite lookup_insert_ne by done. apply Ht.
  - assert (zlen (order (aircraft s)) = zlen ts) as Hz by (rewrite Ho; unfold zlen; by rewrite length_fmap).
    unfold make_room. rewrite Hz. destruct (MAX_AIRCRAFT <=? zlen ts) eqn:Hfull.
    + destruct (aircraft s) as [m [|o os]] eqn:Has; cbn [order cmap] in *; destruct ts as [|[b u] ts]; try done.
      cbn [fmap list_fmap fst tail] in *. injection Ho as -> ->. apply NoDup_cons in Hnd as [Hb Hnd].
      rewrite fmap_app. split; [done|]. intros x. rewrite track_of_snoc. specialize (Ht x). cbn [track_of] in Ht, Hta.
      destruct (String.eqb_spec x a) as [->|Hxa].
      * rewrite lookup_insert_eq. destruct (String.eqb_spec a b); [done|]. by rewrite Hta.
      * rewrite lookup_insert_ne by done. destruct (decide (x = b)) as [Exb|Hxb].
        -- subst x. rewrite lookup_delete_eq. destruct (track_of b ts) eqn:E; [|done]. exfalso. apply Hb, track_of_key. eauto.
        -- rewrite (proj2 (String.eqb_neq x b)) in Ht by done. rewrite lookup_delete_ne by done. by destruct (track_of x ts).
    + rewrite fmap_app, Ho. split; [done|]. intros x. rewrite track_of_snoc. specialize (Ht x).
      destruct (String.eqb_spec x a) as [->|Hxa]; [by rewrite lookup_insert_eq, Hta|].
      rewrite lookup_insert_ne by done. by destruct (track_of x ts).
Qed.

Lemma message_safe frame : safe (message frame).
Proof.
  unfold message. destruct (negb _); [done|]. destruct (trim_end_matches _ _) as [|b l]; [done|].
  apply safe_bind.
  - apply safe_idx. destruct (split_on 44 (b :: l)) as [|p ps] eqn:Hs; [by apply split_on_ne in Hs|].
    rewrite zlen_cons. pose proof (zlen_nonneg ps). lia.
  - intros p0 _. cbv zeta. destruct (bool_decide _); [|by destruct (_ || _)].
    apply safe_bind; [apply safe_ok_or|done].
Qed.

Lemma parse_line_tracks s ts frame :
  tracks s ts →
  tracks (parse_line s frame).1 (spec_line ts frame).1
  ∧ match (parse_line s frame).2, (spec_line ts frame).2 with
    | Ok (Some p), Some r => reports p r
    | Ok None, None => True
    | Err e, None => message frame = Err e
    | _, _ => False
    end.
Proof.
  intros Ht. pose proof (message_safe frame) as Hsafe. unfold parse_line, spec_line.
  destruct (message frame) as [[[[a parts] line]|]|e| |]; try done.
  pose proof (tracks_entry s ts a Ht) as Hf.
  set (t := default no_track (track_of a ts)) in *.
  pose proof (push_raw_follows _ _ parts line Hf) as Hp.
  pose proof (λ e t n, tracks_put s ts a e t n Ht) as Hput.
  destruct (entry a (aircraft s)) as [cache e]. cbn [fst snd] in Hp, Hput.
  destruct (push_raw e line) as [e' k]. cbn [e_state].
  destruct (fix_of parts _) as [[[ty la] lo]|]; cbn [fst snd t_msgs t_lines].
  2: { split; [by apply Hput|done]. }
  destruct Hp as (Hok & Hst & lost & Hl & Hd). cbn [e_state pending dropped_since_emit t_msgs t_lines] in *. split.
  - apply Hput. split; [by apply carried_nil|]. split; [done|]. by exists [].
  - split_and!; try done. exists lost, (pending e'). done.
Qed.

(** A feed, line by line. *)
Definition feed (s : AdsbParser) (frames : list bytes) : AdsbParser := fold_left (λ s f, (parse_line s f).1) frames s.
Definition spec_feed (ts : Tracks) (frames : list bytes) : Tracks :=
  fold_left (λ ts f, (spec_line ts f).1) frames ts.

Lemma feed_tracks frames : ∀ s ts, tracks s ts → tracks (feed s frames) (spec_feed ts frames).
Proof.
  induction frames as [|f frames IH]; intros s ts Ht; [done|]. apply IH. by apply parse_line_tracks.
Qed.

(** ** The parser's laws *)

Lemma parse_line_ok s frame : adsb_ok s → adsb_ok (parse_line s frame).1 ∧ safe (parse_line s frame).2.
Proof.
  intros [Hc Hf]. pose proof (message_safe frame) as Hsafe. unfold parse_line.
  destruct (message frame) as [[[[a parts] line]|]|e| |]; try done.
  pose proof (entry_get a _ Hc) as He.
  pose proof (λ e, entry_put_ok MAX_AIRCRAFT eq_refl no_entry e a _ Hc) as Hput.
  pose proof (λ e He, entry_put_Forall MAX_AIRCRAFT entry_ok no_entry e a _ no_entry_ok He Hf) as Hall.
  assert (entry_ok (entry a (aircraft s)).2) as Hok.
  { rewrite He. destruct (cmap (aircraft s) !! a) eqn:Ha; [by apply (Hf a)|apply no_entry_ok]. }
  unfold entry in *. destruct (cache_entry _ _ _ _) as [cache e]. cbn [fst snd] in *.
  pose proof (adsb_push_spec e line Hok) as H. destruct (push_raw e line) as [e' k]. destruct H as (Hok' & _).
  destruct (fix_of parts _) as [[[ty la] lo]|]; (split; [|done]); (split; [apply Hput|apply Hall]); [|done].
  by apply carried_nil.
Qed.

Lemma adsb_parse_ok envs s frame : adsb_ok s → adsb_ok (parse envs s frame).1 ∧ safe (parse envs s frame).2.
Proof.
  intros Hs. unfold parse. destruct (parse_line_ok s frame Hs) as [H1 H2].
  destruct (parse_line s frame) as [s' r]. split; [done|]. cbn [snd] in *.
  apply safe_bind; [done|]. intros [p|] _; [|done]. apply safe_bind; [apply safe_build|done].
Qed.

#[export] Instance adsb_parser : FrameParser := {|
  fp_state := AdsbParser; fp_error := AdsbError; fp_parse := parse
|}.

#[export] Instance adsb_laws : FrameParserLaws adsb_parser.
Proof.
  refine {| fp_inv := adsb_ok : @fp_state adsb_parser → Prop |}.
  - intros envs s frame Hs _. destruct (adsb_parse_ok envs s frame Hs). by split.
  - intros envs s frame es _ _ H. cbn in H. unfold parse in H. destruct (parse_line s frame) as [s' r]. cbn in H.
    apply bind_Ok in H as ([p|] & _ & H); [|injection H as <-; constructor].
    apply bind_Ok in H as (e & He & [= <-]). constructor; [by eapply build_all_canonical|constructor].
Defined.

(** * Properties *)

(** C26: the bounded cache behaves as one track per aircraft, in a queue: however
    the lines of however many aircraft interleave, a position report carries for
    every field the latest value any of that aircraft's messages carried, and as its
    payload all its lines since its last event, or, when it says it was truncated,
    the newest of them; and a line that is no report, or no SBS line, yields none.
    Only when [MAX_AIRCRAFT] are tracked does a new one end a track, and then that
    of the aircraft tracked longest and no other. *)
Theorem adsb_tracks src en frames frame :
  let s := feed (adsb_new src en) frames in
  let ts := spec_feed [] frames in
  match (parse_line s frame).2, (spec_line ts frame).2 with
  | Ok (Some p), Some r => reports p r
  | Ok None, None => True
  | Err e, None => message frame = Err e
  | _, _ => False
  end.
Proof. intros s ts. apply parse_line_tracks. apply feed_tracks, tracks_new. Qed.

(** * Witnesses *)

Definition ex_id : bytes := s2b "MSG,1,1,1,4ca2d6,1,,,,,RYR1AB ,,,,,,,,,,,".
Definition ex_speed : bytes := s2b "MSG,4,1,1,4CA2D6,1,,,,,,,420.5,181.2,,,-64,,,,,".
Definition ex_other : bytes := s2b "MSG,1,1,1,ABCDEF,1,,,,,OTHER,,,,,,,,,,,".
Definition ex_fix : bytes := s2b "MSG,3,1,1,4CA2D6,1,,,,,,37000,,,51.5,-0.1,,,,,,0".

Lemma adsb_tracks_witness :
  ∃ p, (parse_line (feed (adsb_new "s" (mkEnrichment None)) [ex_id; ex_other; ex_speed]) ex_fix).2 = Ok (Some p)
    ∧ callsign (state p) = Some "RYR1AB"%string ∧ raw p = join_lines 0 [ex_id; ex_speed; ex_fix].
Proof.
  pose proof (adsb_tracks "s" (mkEnrichment None) [ex_id; ex_other; ex_speed] ex_fix) as H.
  cbv zeta in H. destruct (parse_line _ _).2 as [[p|]|e| |] eqn:E.
  - assert (∃ r, (spec_line (spec_feed [] [ex_id; ex_other; ex_speed]) ex_fix).2 = Some r
      ∧ callsign (latest (t_msgs (r_track r))) = Some "RYR1AB"%string
      ∧ t_lines (r_track r) = [ex_id; ex_speed; ex_fix]) as (r & Hr & Hc & Hl)
      by (eexists; split_and!; vm_compute; reflexivity).
    rewrite Hr in H. destruct H as (_ & _ & _ & _ & Hs & _ & lost & kept & Hk & Hraw & Ht).
    exists p. split; [done|]. rewrite Hs. split; [done|].
    assert (truncated p = false) as Htr.
    { assert (option_map truncated (match (parse_line (feed (adsb_new "s" (mkEnrichment None)) [ex_id; ex_other; ex_speed]) ex_fix).2
        with Ok o => o | _ => None end) = Some false) as H0 by (vm_compute; reflexivity).
      rewrite E in H0. by injection H0. }
    rewrite (Ht Htr), Hl in Hk. rewrite Hraw. cbn [app] in Hk. by rewrite <- Hk.
  - exfalso. vm_compute in E. discriminate.
  - exfalso. vm_compute in E. discriminate.
  - exfalso. vm_compute in E. discriminate.
  - exfalso. vm_compute in E. discriminate.
Defined.
