(* ===== verification/Gmti.v ===== *)
(** The STANAG 4607 (GMTI) connector (rust/connectors/gmti/src/gmti.rs): a packet
    of segments, the existence mask of a dwell segment, and its target reports. *)
From Stdlib Require Import ZArith Lia.
From Stdlib Require Import Strings.String.
From S2P Require Export Parser Dyadic.

Local Open Scope Z_scope.

(** @src rust/connectors/gmti/src/gmti.rs 11-14 PACKET_HEADER_LEN SEGMENT_HEADER_LEN SEG_DWELL *)
Definition PACKET_HEADER_LEN : Z := 32.
Definition SEGMENT_HEADER_LEN : Z := 5.
Definition SEG_DWELL : Z := 2.

(** @src rust/connectors/gmti/src/gmti.rs 16-31 SENSOR_FIELDS *)
Definition SENSOR_FIELDS : list (Z * Z) :=
  [(10, 4); (11, 4); (12, 2); (13, 2); (14, 4); (15, 1); (16, 1); (17, 2); (18, 2); (19, 2); (20, 2); (21, 2)].

(** @src rust/connectors/gmti/src/gmti.rs 33-39 ORIENTATION_FIELDS *)
Definition ORIENTATION_FIELDS : list (Z * Z) := [(26, 2); (27, 2); (28, 2); (29, 1)].

(** @src rust/connectors/gmti/src/gmti.rs 41-50 TARGET_UNCERTAINTY_FIELDS *)
Definition TARGET_UNCERTAINTY_FIELDS : list (Z * Z) :=
  [(40, 1); (41, 2); (42, 2); (43, 1); (44, 2); (45, 1); (46, 4)].

(** @src rust/connectors/gmti/src/gmti.rs 52-62 GmtiError *)
Inductive GmtiError :=
| NotGmti
| Truncated
| BadSegment
| Build (e : BuildError).

(** @src rust/connectors/gmti/src/gmti.rs 64-87 GmtiTarget *)
Record GmtiTarget := mkTarget {
  platform : string;
  job_id : Z;
  dwell_index : Z;
  mti_index : option Z;
  dwell_time_ms : Z;
  sensor_lat : f64;
  sensor_lon : f64;
  lat : f64;
  lon : f64;
  height_m : option f64;
  radial_velocity_mps : option f64;
  snr_db : option Z;
  classification : option Z;
  rcs_db : option Z;
  raw : bytes
}.

(** @src rust/connectors/gmti/src/gmti.rs 89-100 GmtiParser *)
Record GmtiParser := mkGmti { source_id : string; enrichment : Enrichment }.

(** * The bounds-checked reader *)

(** @src rust/connectors/gmti/src/gmti.rs 298-307 Reader *)
Record Reader := mkReader { buf : bytes; pos : Z }.

(** A read: the value, and the reader moved past it. *)
Definition Rd (A : Type) : Type := Reader → res GmtiError (A * Reader).

#[export] Instance rd_ret : MRet Rd := λ A a r, Ok (a, r).
#[export] Instance rd_bind : MBind Rd := λ A B f m r, m r ≫= λ '(a, r), f a r.

(** @src rust/connectors/gmti/src/gmti.rs 309-314 Reader::take *)
Definition take_ (n : Z) : Rd bytes := λ r,
  if 2 ^ 64 <=? pos r + n then Err Truncated
  else s ← ok_or Truncated (get_range (buf r) (pos r) (pos r + n)); Ok (s, mkReader (buf r) (pos r + n)).

(** @src rust/connectors/gmti/src/gmti.rs 322-324 Reader::skip *)
Definition skip (n : Z) : Rd unit := _ ← take_ n; mret tt.

(** The value of [n] octets ([array], then [from_be_bytes]). *)
(** @src rust/connectors/gmti/src/gmti.rs 316-320 Reader::array *)
Definition array (n : Z) : Rd Z := s ← take_ n; mret (be_val s).

(** @src rust/connectors/gmti/src/gmti.rs 326-328 Reader::u8 *)
Definition u8 : Rd Z := array 1.
(** @src rust/connectors/gmti/src/gmti.rs 330-332 Reader::i8 *)
Definition i8 : Rd Z := v ← array 1; mret (to_signed 8 v).
(** @src rust/connectors/gmti/src/gmti.rs 334-336 Reader::u16 *)
Definition u16 : Rd Z := array 2.
(** @src rust/connectors/gmti/src/gmti.rs 338-340 Reader::i16 *)
Definition i16 : Rd Z := v ← array 2; mret (to_signed 16 v).
(** @src rust/connectors/gmti/src/gmti.rs 342-344 Reader::u32 *)
Definition u32 : Rd Z := array 4.
(** @src rust/connectors/gmti/src/gmti.rs 346-348 Reader::i32 *)
Definition i32 : Rd Z := v ← array 4; mret (to_signed 32 v).

(** [if c { Some(m?) } else { None }]. *)
Definition when {A} (c : bool) (m : Rd A) : Rd (option A) :=
  if c then a ← m; mret (Some a) else mret None.
Definition when_ (c : bool) (m : Rd unit) : Rd unit := if c then m else mret tt.

(** * Angles *)

(** @src rust/connectors/gmti/src/gmti.rs 355-358 sa32 *)
Definition sa32 (v : Z) : f64 := f_div (f_mul (f_of_Z v) (f_ratio 45 32)) (f_of_Z 33554432).

(** @src rust/connectors/gmti/src/gmti.rs 360-363 ba32 *)
Definition ba32 (v : Z) : f64 := f_div (f_mul (f_of_Z v) (f_ratio 45 32)) (f_of_Z 16777216).

(** @src rust/connectors/gmti/src/gmti.rs 365-372 norm_lon *)
Definition norm_lon (deg : f64) : f64 := if f_ltb (f_of_Z 180) deg then f_sub deg (f_of_Z 360) else deg.

(** * A dwell segment *)

(** Bit [n] of the existence mask, counted from the top. *)
Definition bit (mask n : Z) : bool := Z.land (Z.shiftr mask (63 - n)) 1 =? 1.

(** @src rust/connectors/gmti/src/gmti.rs 149-156 parse_dwell *)
Fixpoint skip_present (mask : Z) (fields : list (Z * Z)) : Rd unit :=
  match fields with
  | [] => mret tt
  | (n, len) :: fields => _ ← when_ (bit mask n) (skip len); skip_present mask fields
  end.

(** The values a target report carries, as the mask admits them. *)
Record Report := mkReport {
  r_mti : option Z;
  r_hr_lat : option Z;
  r_hr_lon : option Z;
  r_dlat : option Z;
  r_dlon : option Z;
  r_height : option Z;
  r_vel : option Z;
  r_snr : option Z;
  r_class : option Z;
  r_rcs : option Z
}.

(** @src rust/connectors/gmti/src/gmti.rs 178-198 parse_dwell *)
Definition report (mask : Z) : Rd Report :=
  mti ← when (bit mask 30) u16;
  hla ← when (bit mask 31) i32;
  hlo ← when (bit mask 32) u32;
  dla ← when (bit mask 33) i16;
  dlo ← when (bit mask 34) i16;
  h ← when (bit mask 35) i16;
  v ← when (bit mask 36) i16;
  _ ← when_ (bit mask 37) (skip 2);
  snr ← when (bit mask 38) i8;
  cl ← when (bit mask 39) u8;
  _ ← skip_present mask TARGET_UNCERTAINTY_FIELDS;
  rcs ← when (bit mask 47) i8;
  mret (mkReport mti hla hlo dla dlo h v snr cl rcs).

(** The dwell fields in front of the target reports. *)
Record Dwell := mkDwell {
  d_index : Z;
  d_count : Z;
  d_time : Z;
  d_sensor_lat : Z;
  d_sensor_lon : Z;
  d_lat_scale : option Z;
  d_lon_scale : option Z;
  d_lat : Z;
  d_lon : Z
}.

(** @src rust/connectors/gmti/src/gmti.rs 158-176 parse_dwell *)
Definition dwell (mask : Z) : Rd Dwell :=
  _ ← u16;
  index ← u16;
  _ ← u8;
  count ← u16;
  time ← i32;
  sla ← i32;
  slo ← u32;
  _ ← i32;
  las ← when (bit mask 8) i32;
  los ← when (bit mask 9) u32;
  _ ← skip_present mask SENSOR_FIELDS;
  la ← i32;
  lo ← u32;
  _ ← skip 4;
  _ ← skip_present mask ORIENTATION_FIELDS;
  mret (mkDwell index count time sla slo las los la lo).

(** @src rust/connectors/gmti/src/gmti.rs 200-214 parse_dwell *)
Definition place (d : Dwell) (t : Report) : option (f64 * f64) :=
  match r_hr_lat t, r_hr_lon t with
  | Some la, Some lo => Some (sa32 la, norm_lon (ba32 lo))
  | _, _ =>
      match r_dlat t, r_dlon t, d_lat_scale d, d_lon_scale d with
      | Some dla, Some dlo, Some ls, Some los =>
          Some (f_add (sa32 (d_lat d)) (f_mul (f_of_Z dla) (sa32 ls)),
                norm_lon (f_add (ba32 (d_lon d)) (f_mul (f_of_Z dlo) (ba32 los))))
      | _, _, _, _ => None
      end
  end.

(** @src rust/connectors/gmti/src/gmti.rs 200-231 parse_dwell *)
Definition target (plat : string) (job : Z) (seg : bytes) (d : Dwell) (t : Report) : option GmtiTarget :=
  '(la, lo) ← place d t;
  Some (mkTarget plat job (d_index d) (r_mti t) (d_time d) (sa32 (d_sensor_lat d)) (norm_lon (ba32 (d_sensor_lon d)))
          la lo (f_of_Z <$> r_height t) ((λ v, f_div (f_of_Z v) (f_of_Z 100)) <$> r_vel t)
          (r_snr t) (r_class t) (r_rcs t) seg).

(** [for _ in 0..target_count]. *)
Fixpoint reports (n : nat) (mask : Z) : Rd (list Report) :=
  match n with
  | O => mret []
  | S n => t ← report mask; ts ← reports n mask; mret (t :: ts)
  end.

(** @src rust/connectors/gmti/src/gmti.rs 138-234 parse_dwell *)
Definition parse_dwell (seg : bytes) (plat : string) (job : Z) : res GmtiError (list GmtiTarget) :=
  '(ts, _) ←
    (_ ← skip SEGMENT_HEADER_LEN;
     mask ← array 8;
     d ← dwell mask;
     ts ← reports (Z.to_nat (d_count d)) mask;
     mret (omap (target plat job seg d) ts)) (mkReader seg 0);
  Ok ts.

(** @src rust/connectors/gmti/src/gmti.rs 351-353 u32_be *)
Definition u32_be (b : bytes) : res GmtiError Z := s ← slice b 0 4; Ok (be_val s).

(** @src rust/connectors/gmti/src/gmti.rs 121-135 parse_packet *)
Fixpoint segments (fuel : nat) (frame : bytes) (plat : string) (job packet_size off : Z) :
    res GmtiError (list GmtiTarget) :=
  if negb (off + SEGMENT_HEADER_LEN <=? packet_size) then Ok []
  else
    match fuel with
    | O => NoFuel
    | S fuel =>
        ty ← idx frame off;
        s ← slice frame (off + 1) (off + 5);
        size ← u32_be s;
        if (size <? SEGMENT_HEADER_LEN) || (packet_size <? off + size) then Err BadSegment
        else
          here ← (if ty =? SEG_DWELL then seg ← slice frame off (off + size); parse_dwell seg plat job else Ok []);
          rest ← segments fuel frame plat job packet_size (off + size);
          Ok (here ++ rest)
    end.

(** @src rust/connectors/gmti/src/gmti.rs 102-136 parse_packet *)
Definition parse_packet (frame : bytes) : res GmtiError (list GmtiTarget) :=
  if zlen frame <? PACKET_HEADER_LEN then Err Truncated
  else
    edition ← idx frame 0;
    if negb (edition =? 2) && negb (edition =? 3) then Err NotGmti
    else
      s ← slice frame 2 6;
      packet_size ← u32_be s;
      if (packet_size <? PACKET_HEADER_LEN) || (zlen frame <? packet_size) then Err Truncated
      else
        p ← slice frame 14 24;
        let plat := b2s (trim (utf8_lossy p)) in
        j ← slice frame 28 32;
        job ← u32_be j;
        segments (length frame) frame plat job packet_size PACKET_HEADER_LEN.

(** * The event *)

(** @src rust/connectors/gmti/src/gmti.rs 236-273 base_builder *)
Definition base_builder (env : Env) (self : GmtiParser) (t : GmtiTarget) : EventBuilder :=
  let report := match mti_index t with Some i => show i | None => "na"%string end in
  let source_uid := (platform t ++ ":" ++ show (job_id t) ++ ":" ++ show (dwell_index t) ++ ":" ++ report)%string in
  let b := new_id env (builder_new (source_id self) "mim:object") in
  let b := set_payload (raw t) (set_location (lat t) (lon t) (default f_zero (height_m t)) b) in
  let b := add_metadata "platform" (platform t) (add_metadata "source_uid" source_uid b) in
  let b := add_metadata "dwell_index" (show (dwell_index t)) (add_metadata "job_id" (show (job_id t)) b) in
  let b := add_metadata "dwell_time_ms" (show (dwell_time_ms t)) b in
  let b := add_metadata "sensor_lat" (fmt_fixed 6 (sensor_lat t)) b in
  let b := add_metadata "sensor_lon" (fmt_fixed 6 (sensor_lon t)) b in
  let b := on_some (mti_index t) (λ i, add_metadata "mti_report_index" (show i)) b in
  let b := on_some (hostility (enrichment self)) (attribute "hostility") b in
  let b := on_some (fmt_fixed 2 <$> radial_velocity_mps t) (attribute "radial_velocity") b in
  let b := on_some (show <$> snr_db t) (attribute "snr_db") b in
  let b := on_some (show <$> classification t) (attribute "classification_code") b in
  on_some (show <$> rcs_db t) (attribute "rcs_db") b.

(** @src rust/connectors/gmti/src/gmti.rs 275-277 to_event_at *)
Definition to_event_at (env : Env) (self : GmtiParser) (t : GmtiTarget) (observed : string) : res GmtiError Event :=
  map_err Build (build (set_timestamp observed (base_builder env self t))).

(** One event per target, each with the next id and clock reading. *)
Fixpoint events (envs : Envs) (i : nat) (self : GmtiParser) (ts : list GmtiTarget) : res GmtiError (list Event) :=
  match ts with
  | [] => Ok []
  | t :: ts =>
      e ← map_err Build (build (now (envs i) (base_builder (envs i) self t)));
      es ← events envs (S i) self ts;
      Ok (e :: es)
  end.

(** @src rust/connectors/gmti/src/gmti.rs 280-296 parse *)
Definition parse (envs : Envs) (self : GmtiParser) (frame : bytes) : GmtiParser * res GmtiError (list Event) :=
  (self, ts ← parse_packet frame; events envs 0 self ts).

(** * Lemmas: the reader *)

(** A read that returns, whatever the bytes. *)
Definition total {A} (m : Rd A) : Prop := ∀ r, safe (m r).

Lemma total_ret {A} (a : A) : total (mret a).
Proof. done. Qed.

Lemma total_bind {A B} (m : Rd A) (f : A → Rd B) : total m → (∀ a, total (f a)) → total (m ≫= f).
Proof. intros Hm Hf r. apply safe_bind; [apply Hm|]. intros [a r'] _. apply Hf. Qed.

Lemma total_take n : total (take_ n).
Proof. intros r. unfold take_. destruct (_ <=? _); [done|]. apply safe_bind; [apply safe_ok_or|done]. Qed.

Lemma total_array n : total (array n).
Proof. apply total_bind; [apply total_take|intros; apply total_ret]. Qed.

Lemma total_skip n : total (skip n).
Proof. apply total_bind; [apply total_take|intros; apply total_ret]. Qed.

Lemma total_when {A} c (m : Rd A) : total m → total (when c m).
Proof. intros Hm. destruct c; [|done]. apply total_bind; [done|intros; apply total_ret]. Qed.

Lemma total_when_ c m : total m → total (when_ c m).
Proof. intros Hm. by destruct c. Qed.

Create HintDb gmti.
#[local] Hint Resolve total_ret total_bind total_take total_array total_skip total_when total_when_ : gmti.
#[local] Hint Extern 1 (total u8) => apply total_array : gmti.
#[local] Hint Extern 1 (total u16) => apply total_array : gmti.
#[local] Hint Extern 1 (total u32) => apply total_array : gmti.
#[local] Hint Extern 1 (total i8) => apply total_bind : gmti.
#[local] Hint Extern 1 (total i16) => apply total_bind : gmti.
#[local] Hint Extern 1 (total i32) => apply total_bind : gmti.

Lemma total_skip_present mask fields : total (skip_present mask fields).
Proof. induction fields as [|[n len] fs IH]; cbn [skip_present]; auto with gmti. Qed.
#[local] Hint Resolve total_skip_present : gmti.

Lemma total_report mask : total (report mask).
Proof. unfold report. repeat (apply total_bind; [auto with gmti|intros ?]). apply total_ret. Qed.

Lemma total_dwell mask : total (dwell mask).
Proof. unfold dwell. repeat (apply total_bind; [auto with gmti|intros ?]). apply total_ret. Qed.

Lemma total_reports n mask : total (reports n mask).
Proof.
  induction n as [|n IH]; cbn [reports]; [apply total_ret|].
  apply total_bind; [apply total_report|intros]. apply total_bind; [done|intros; apply total_ret].
Qed.

Lemma parse_dwell_safe seg plat job : safe (parse_dwell seg plat job).
Proof.
  unfold parse_dwell. apply safe_bind; [|by intros [] _]. generalize (mkReader seg 0).
  apply total_bind; [apply total_skip|intros]. apply total_bind; [apply total_array|intros].
  apply total_bind; [apply total_dwell|intros]. apply total_bind; [apply total_reports|intros; apply total_ret].
Qed.

Lemma u32_be_safe b : 4 ≤ zlen b → safe (u32_be b).
Proof. intros. apply safe_bind; [apply safe_slice; lia|done]. Qed.

Lemma segments_safe fuel frame plat job size : ∀ off,
  0 ≤ off → size ≤ zlen frame → size - off ≤ Z.of_nat fuel →
  safe (segments fuel frame plat job size off).
Proof.
  induction fuel as [|fuel IH]; intros off Ho Hs Hf; cbn [segments];
    (destruct (Z.leb_spec (off + SEGMENT_HEADER_LEN) size) as [Hl|Hl]; cbn [negb]; [|done]);
    unfold SEGMENT_HEADER_LEN in *; [lia|].
  apply safe_bind; [apply safe_idx; lia|]. intros ty _.
  apply safe_bind; [apply safe_slice; lia|]. intros s Hsl%slice_Ok%get_range_len.
  apply safe_bind; [apply u32_be_safe; lia|]. intros sz _.
  destruct ((sz <? 5) || (size <? off + sz)) eqn:Hb; [done|]. bool_prop.
  apply safe_bind.
  - destruct (ty =? SEG_DWELL); [|done]. apply safe_bind; [apply safe_slice; lia|]. intros. apply parse_dwell_safe.
  - intros here _. apply safe_bind; [apply IH; lia|done].
Qed.

Lemma parse_packet_safe frame : safe (parse_packet frame).
Proof.
  unfold parse_packet, PACKET_HEADER_LEN. destruct (Z.ltb_spec (zlen frame) 32); [done|].
  apply safe_bind; [apply safe_idx; lia|]. intros ed _. destruct (_ && _); [done|].
  apply safe_bind; [apply safe_slice; lia|]. intros s Hs%slice_Ok%get_range_len.
  apply safe_bind; [apply u32_be_safe; lia|]. intros size _.
  destruct ((size <? 32) || (zlen frame <? size)) eqn:Hb; [done|]. bool_prop.
  apply safe_bind; [apply safe_slice; lia|]. intros p _.
  apply safe_bind; [apply safe_slice; lia|]. intros j Hj%slice_Ok%get_range_len.
  apply safe_bind; [apply u32_be_safe; lia|]. intros job _. apply segments_safe; unfold zlen in *; lia.
Qed.

Lemma events_safe envs self ts : ∀ i, safe (events envs i self ts).
Proof.
  induction ts as [|t ts IH]; intros i; [done|]. cbn [events].
  apply safe_bind; [apply safe_build|]. intros e _. apply safe_bind; [apply IH|done].
Qed.

Lemma events_canonical envs self ts : ∀ i es, events envs i self ts = Ok es → Forall Canonical es.
Proof.
  induction ts as [|t ts IH]; intros i es; cbn [events]; [intros [= <-]; constructor|].
  intros (e & He & (es' & Hes & [= <-])%bind_Ok)%bind_Ok. constructor; [by eapply build_all_canonical|by eapply IH].
Qed.

#[export] Instance gmti_parser : FrameParser := {|
  fp_state := GmtiParser; fp_error := GmtiError; fp_parse := parse
|}.

#[export] Instance gmti_laws : FrameParserLaws gmti_parser.
Proof.
  refine {| fp_inv := (λ _, True) : @fp_state gmti_parser → Prop |}.
  - intros envs s frame _ _. split; [|done]. apply safe_bind; [apply parse_packet_safe|intros; apply events_safe].
  - intros envs s frame es _ _ H. cbn in H. apply bind_Ok in H as (ts & _ & H). by eapply events_canonical.
Defined.

(** * Lemmas: angles *)

Lemma sa32_rep v : - 2 ^ 31 ≤ v < 2 ^ 31 → rep (sa32 v) (v * 45) (-30).
Proof.
  intros Hv. unfold sa32. apply (rep_div_pow2 _ (v * 45) (-5) 25); [|lia|split; lia].
  apply (rep_mul _ _ v 45 0 (-5)); [apply rep_of_Z; lia| |split; lia].
  split; [split; [done|lia]|]. vm_compute. reflexivity.
Qed.

Lemma ba32_rep v : 0 ≤ v < 2 ^ 32 → rep (ba32 v) (v * 45) (-29).
Proof.
  intros Hv. unfold ba32. apply (rep_div_pow2 _ (v * 45) (-5) 24); [|lia|split; lia].
  apply (rep_mul _ _ v 45 0 (-5)); [apply rep_of_Z; lia| |split; lia].
  split; [split; [done|lia]|]. vm_compute. reflexivity.
Qed.

(** The longitude wrapped to the half-open circle. *)
Lemma norm_lon_rep v : 0 ≤ v < 2 ^ 32 → rep (norm_lon (ba32 v)) (if 2 ^ 31 <? v then (v - 2 ^ 32) * 45 else v * 45) (-29).
Proof.
  intros Hv. pose proof (ba32_rep v Hv) as Hb. unfold norm_lon.
  rewrite (rep_ltb _ _ _ _ _ _ (rep_of_Z 180 ltac:(lia)) Hb).
  assert ((val 180 0 <? val (v * 45) (-29)) = (2 ^ 31 <? v)) as ->.
  { unfold val. change (180 * 2 ^ (0 + 1000)) with (2 ^ 31 * 45 * 2 ^ 971). change (-29 + 1000) with 971.
    pose proof (Z.pow_pos_nonneg 2 971 ltac:(lia) ltac:(lia)) as Hp. apply ltb_iff.
    rewrite <- Z.mul_lt_mono_pos_r by done. lia. }
  destruct (Z.ltb_spec (2 ^ 31) v) as [Hlt|]; [|done].
  eapply (rep_sub _ _ _ 360); [exact Hb|apply rep_of_Z; lia|split; lia|].
  unfold val. change (360 * 2 ^ (0 + 1000)) with (2 ^ 32 * 45 * 2 ^ (-29 + 1000)). lia.
Qed.

(** * The sender *)

(** A read that takes exactly [bs] and gives [a], wherever they stand. *)
Definition reads {A} (m : Rd A) (bs : bytes) (a : A) : Prop :=
  ∀ p t, zlen (p ++ bs ++ t) < 2 ^ 64 →
    m (mkReader (p ++ bs ++ t) (zlen p)) = Ok (a, mkReader (p ++ bs ++ t) (zlen (p ++ bs))).

Lemma reads_ret {A} (a : A) : reads (mret a) [] a.
Proof. intros p t _. by rewrite app_nil_r. Qed.

Lemma reads_bind {A B} (m : Rd A) (f : A → Rd B) bs cs a b :
  reads m bs a → reads (f a) cs b → reads (m ≫= f) (bs ++ cs) b.
Proof.
  intros Hm Hf p t Hl. unfold mbind, rd_bind. rewrite <- app_assoc in *. rewrite Hm by done. cbn [mbind res_bind].
  pose proof (Hf (p ++ bs) t) as H. rewrite <- !app_assoc in H. by apply H.
Qed.

(** The last read of a sequence that returns what it read. *)
Lemma reads_then {A B} (m : Rd A) (f : A → Rd B) bs a b : reads m bs a → reads (f a) [] b → reads (m ≫= f) bs b.
Proof. intros Hm Hf. rewrite <- (app_nil_r bs). by eapply reads_bind. Qed.

Lemma reads_take bs n : n = zlen bs → reads (take_ n) bs bs.
Proof.
  intros -> p t Hl. unfold take_. cbn [buf pos]. rewrite !zlen_app in Hl. pose proof (zlen_nonneg t).
  rewrite (proj2 (Z.leb_gt _ _)) by lia. rewrite (get_range_app p bs t) by done. cbn [ok_or mbind res_bind].
  by rewrite <- zlen_app.
Qed.

Lemma reads_skip bs n : n = zlen bs → reads (skip n) bs tt.
Proof. intros. eapply reads_then; [by apply reads_take|apply reads_ret]. Qed.

Lemma reads_array n v : 0 ≤ v < 256 ^ Z.of_nat n → reads (array (Z.of_nat n)) (be_enc n v) v.
Proof.
  intros Hv. eapply reads_then; [apply reads_take; by rewrite be_enc_zlen|].
  rewrite be_val_enc, Z.mod_small by done. apply reads_ret.
Qed.

Lemma reads_signed n w v :
  (0 < w) → 256 ^ Z.of_nat n = 2 ^ w → - 2 ^ (w - 1) ≤ v < 2 ^ (w - 1) →
  reads (v ← array (Z.of_nat n); mret (to_signed w v)) (be_enc n v) v.
Proof.
  intros Hw Hn Hv. eapply reads_then.
  - eapply reads_then; [apply reads_take; by rewrite be_enc_zlen|apply reads_ret].
  - rewrite be_val_enc, Hn. assert (to_signed w (v mod 2 ^ w) = v) as -> by (by apply to_signed_wrap). apply reads_ret.
Qed.

(** The values of each width. *)
Definition s8 (v : Z) : Prop := - 2 ^ 7 ≤ v < 2 ^ 7.
Definition s16 (v : Z) : Prop := - 2 ^ 15 ≤ v < 2 ^ 15.
Definition s32 (v : Z) : Prop := - 2 ^ 31 ≤ v < 2 ^ 31.
Definition n8 (v : Z) : Prop := 0 ≤ v < 2 ^ 8.
Definition n16 (v : Z) : Prop := 0 ≤ v < 2 ^ 16.
Definition n32 (v : Z) : Prop := 0 ≤ v < 2 ^ 32.

Lemma reads_u8 v : n8 v → reads u8 (be_enc 1 v) v.
Proof. apply (reads_array 1). Qed.
Lemma reads_u16 v : n16 v → reads u16 (be_enc 2 v) v.
Proof. apply (reads_array 2). Qed.
Lemma reads_u32 v : n32 v → reads u32 (be_enc 4 v) v.
Proof. apply (reads_array 4). Qed.
Lemma reads_i8 v : s8 v → reads i8 (be_enc 1 v) v.
Proof. by apply (reads_signed 1 8). Qed.
Lemma reads_i16 v : s16 v → reads i16 (be_enc 2 v) v.
Proof. by apply (reads_signed 2 16). Qed.
Lemma reads_i32 v : s32 v → reads i32 (be_enc 4 v) v.
Proof. by apply (reads_signed 4 32). Qed.

(** An optional field as the mask has it: present exactly when its bit is set. *)
Definition masked (c : bool) (P : Z → Prop) (o : option Z) : Prop :=
  match o with Some v => c = true ∧ P v | None => c = false end.
Definition enc_opt (n : nat) (o : option Z) : bytes := match o with Some v => be_enc n v | None => [] end.

Lemma reads_when c (P : Z → Prop) m n o :
  (∀ v, P v → reads m (be_enc n v) v) → masked c P o → reads (when c m) (enc_opt n o) o.
Proof.
  intros Hm Ho. destruct o as [v|]; [destruct Ho as [-> Hv]|cbn in Ho; subst c]; cbn [when enc_opt].
  - eapply reads_then; [by apply Hm|apply reads_ret].
  - apply reads_ret.
Qed.

(** The octets the skipped fields of a list take. *)
Definition skip_len (mask : Z) (fields : list (Z * Z)) : Z :=
  foldr (λ '(n, len) s, (if bit mask n then len else 0) + s) 0 fields.

Lemma reads_skip_present mask fields bs :
  Forall (λ '(n, len), 0 ≤ len) fields → zlen bs = skip_len mask fields → reads (skip_present mask fields) bs tt.
Proof.
  intros Hf. revert bs. induction Hf as [|[n len] fs Hlen Hf IH]; intros bs Hl.
  - destruct bs; [apply reads_ret|]. rewrite zlen_cons in Hl. pose proof (zlen_nonneg bs). cbn in Hl. lia.
  - cbn [skip_present skip_len foldr] in *. fold (skip_len mask fs) in Hl.
    assert (0 ≤ skip_len mask fs).
    { clear -Hf. induction Hf as [|[n len] fs Hlen Hf IH]; cbn; [lia|]. fold (skip_len mask fs). destruct (bit _ _); lia. }
    destruct (bit mask n); cbn [when_].
    + rewrite <- (take_drop (Z.to_nat len) bs). apply (reads_bind _ _ _ _ tt).
      * apply reads_skip. unfold zlen in *. rewrite length_take. lia.
      * apply IH. unfold zlen in *. rewrite length_drop. lia.
    + apply (reads_bind _ _ [] bs tt); [apply reads_ret|by apply IH].
Qed.

(** A target report on the wire: its values, and the octets of the fields the
    parser skips. *)
Record WireReport := mkWireReport { w_report : Report; w_wrap : bytes; w_unc : bytes }.

Definition enc_report (w : WireReport) : bytes :=
  let r := w_report w in
  enc_opt 2 (r_mti r) ++ enc_opt 4 (r_hr_lat r) ++ enc_opt 4 (r_hr_lon r) ++ enc_opt 2 (r_dlat r) ++ enc_opt 2 (r_dlon r)
  ++ enc_opt 2 (r_height r) ++ enc_opt 2 (r_vel r) ++ w_wrap w ++ enc_opt 1 (r_snr r) ++ enc_opt 1 (r_class r)
  ++ w_unc w ++ enc_opt 1 (r_rcs r).

Record report_ok (mask : Z) (w : WireReport) : Prop := {
  ok_mti : masked (bit mask 30) n16 (r_mti (w_report w));
  ok_hr_lat : masked (bit mask 31) s32 (r_hr_lat (w_report w));
  ok_hr_lon : masked (bit mask 32) n32 (r_hr_lon (w_report w));
  ok_dlat : masked (bit mask 33) s16 (r_dlat (w_report w));
  ok_dlon : masked (bit mask 34) s16 (r_dlon (w_report w));
  ok_height : masked (bit mask 35) s16 (r_height (w_report w));
  ok_vel : masked (bit mask 36) s16 (r_vel (w_report w));
  ok_wrap : zlen (w_wrap w) = if bit mask 37 then 2 else 0;
  ok_snr : masked (bit mask 38) s8 (r_snr (w_report w));
  ok_class : masked (bit mask 39) n8 (r_class (w_report w));
  ok_unc : zlen (w_unc w) = skip_len mask TARGET_UNCERTAINTY_FIELDS;
  ok_rcs : masked (bit mask 47) s8 (r_rcs (w_report w))
}.

Lemma reads_when_skip (c : bool) (n : Z) (bs : bytes) : zlen bs = (if c then n else 0) → reads (when_ c (skip n)) bs tt.
Proof.
  intros Hl. destruct c; cbn [when_]; [by apply reads_skip|].
  destruct bs; [apply reads_ret|]. rewrite zlen_cons in Hl. pose proof (zlen_nonneg bs). lia.
Qed.

Lemma reads_report mask w : report_ok mask w → reads (report mask) (enc_report w) (w_report w).
Proof.
  intros []. unfold report, enc_report.
  eapply reads_bind; [by eapply reads_when; [apply reads_u16|]|].
  eapply reads_bind; [by eapply reads_when; [apply reads_i32|]|].
  eapply reads_bind; [by eapply reads_when; [apply reads_u32|]|].
  do 4 (eapply reads_bind; [by eapply reads_when; [apply reads_i16|]|]).
  eapply reads_bind; [by apply reads_when_skip|].
  eapply reads_bind; [by eapply reads_when; [apply reads_i8|]|].
  eapply reads_bind; [by eapply reads_when; [apply reads_u8|]|].
  eapply reads_bind; [apply reads_skip_present; [by repeat constructor|done]|].
  eapply reads_then; [by eapply reads_when; [apply reads_i8|]|].
  destruct (w_report w). apply reads_ret.
Qed.

Lemma reads_reports mask ws :
  Forall (report_ok mask) ws → reads (reports (length ws) mask) (concat (enc_report <$> ws)) (w_report <$> ws).
Proof.
  induction 1 as [|w ws Hw Hws IH]; [apply reads_ret|].
  cbn [length reports fmap list_fmap concat]. eapply reads_bind; [by apply reads_report|].
  eapply reads_then; [apply IH|apply reads_ret].
Qed.

(** A dwell segment on the wire. *)
Record WireDwell := mkWireDwell {
  w_mask : Z;
  w_dwell : Dwell;
  w_revisit : Z;
  w_last : Z;
  w_alt : Z;
  w_sensor : bytes;
  w_extent : bytes;
  w_orient : bytes;
  w_reports : list WireReport
}.

Definition enc_dwell_body (w : WireDwell) : bytes :=
  let d := w_dwell w in
  be_enc 8 (w_mask w) ++
  (be_enc 2 (w_revisit w) ++ be_enc 2 (d_index d) ++ be_enc 1 (w_last w) ++ be_enc 2 (d_count d) ++ be_enc 4 (d_time d)
   ++ be_enc 4 (d_sensor_lat d) ++ be_enc 4 (d_sensor_lon d) ++ be_enc 4 (w_alt w)
   ++ enc_opt 4 (d_lat_scale d) ++ enc_opt 4 (d_lon_scale d) ++ w_sensor w
   ++ be_enc 4 (d_lat d) ++ be_enc 4 (d_lon d) ++ w_extent w ++ w_orient w)
  ++ concat (enc_report <$> w_reports w).

Record dwell_ok (w : WireDwell) : Prop := {
  dw_mask : 0 ≤ w_mask w < 2 ^ 64;
  dw_index : n16 (d_index (w_dwell w));
  dw_count : d_count (w_dwell w) = zlen (w_reports w);
  dw_count16 : n16 (d_count (w_dwell w));
  dw_time : s32 (d_time (w_dwell w));
  dw_slat : s32 (d_sensor_lat (w_dwell w));
  dw_slon : n32 (d_sensor_lon (w_dwell w));
  dw_las : masked (bit (w_mask w) 8) s32 (d_lat_scale (w_dwell w));
  dw_los : masked (bit (w_mask w) 9) n32 (d_lon_scale (w_dwell w));
  dw_lat : s32 (d_lat (w_dwell w));
  dw_lon : n32 (d_lon (w_dwell w));
  dw_rest : n16 (w_revisit w) ∧ n8 (w_last w) ∧ s32 (w_alt w);
  dw_sensor : zlen (w_sensor w) = skip_len (w_mask w) SENSOR_FIELDS;
  dw_extent : zlen (w_extent w) = 4;
  dw_orient : zlen (w_orient w) = skip_len (w_mask w) ORIENTATION_FIELDS;
  dw_reports : Forall (report_ok (w_mask w)) (w_reports w)
}.

Lemma reads_dwell w :
  dwell_ok w →
  reads (dwell (w_mask w))
    (be_enc 2 (w_revisit w) ++ be_enc 2 (d_index (w_dwell w)) ++ be_enc 1 (w_last w) ++ be_enc 2 (d_count (w_dwell w))
     ++ be_enc 4 (d_time (w_dwell w)) ++ be_enc 4 (d_sensor_lat (w_dwell w)) ++ be_enc 4 (d_sensor_lon (w_dwell w))
     ++ be_enc 4 (w_alt w) ++ enc_opt 4 (d_lat_scale (w_dwell w)) ++ enc_opt 4 (d_lon_scale (w_dwell w)) ++ w_sensor w
     ++ be_enc 4 (d_lat (w_dwell w)) ++ be_enc 4 (d_lon (w_dwell w)) ++ w_extent w ++ w_orient w) (w_dwell w).
Proof.
  intros [? ? ? ? ? ? ? ? ? ? ? (? & ? & ?) ? ? ? ?]. unfold dwell.
  do 2 (eapply reads_bind; [by apply reads_u16|]).
  eapply reads_bind; [by apply reads_u8|]. eapply reads_bind; [by apply reads_u16|].
  do 2 (eapply reads_bind; [by apply reads_i32|]).
  eapply reads_bind; [by apply reads_u32|]. eapply reads_bind; [by apply reads_i32|].
  eapply reads_bind; [by eapply reads_when; [apply reads_i32|]|].
  eapply reads_bind; [by eapply reads_when; [apply reads_u32|]|].
  eapply reads_bind; [apply reads_skip_present; [by repeat constructor|done]|].
  eapply reads_bind; [by apply reads_i32|]. eapply reads_bind; [by apply reads_u32|].
  eapply reads_bind; [by apply reads_skip|].
  eapply reads_then; [apply reads_skip_present; [by repeat constructor|done]|].
  destruct (w_dwell w). apply reads_ret.
Qed.

(** ** Packets *)

(** A segment: a dwell, or one of a type the parser skips. *)
Inductive WireSegment :=
| WDwell (w : WireDwell)
| WOther (ty : Z) (body : bytes).

Definition seg_body (s : WireSegment) : bytes := match s with WDwell w => enc_dwell_body w | WOther _ b => b end.
Definition seg_type (s : WireSegment) : Z := match s with WDwell _ => SEG_DWELL | WOther ty _ => ty end.
Definition enc_segment (s : WireSegment) : bytes :=
  seg_type s :: be_enc 4 (SEGMENT_HEADER_LEN + zlen (seg_body s)) ++ seg_body s.
Definition segment_ok (s : WireSegment) : Prop :=
  SEGMENT_HEADER_LEN + zlen (seg_body s) < 2 ^ 32 ∧
  match s with WDwell w => dwell_ok w | WOther ty _ => byte_ok ty ∧ ty ≠ SEG_DWELL end.

(** The targets of a segment: the located reports of a dwell, in order. *)
Definition seg_targets (plat : string) (job : Z) (s : WireSegment) : list GmtiTarget :=
  match s with
  | WDwell w => omap (target plat job (enc_segment s) (w_dwell w)) (w_report <$> w_reports w)
  | WOther _ _ => []
  end.

(** The 32-octet packet header; [a], [b] and [c] are the fields the parser skips. *)
Definition enc_packet (edition : Z) (a b plat c : bytes) (job : Z) (segs : list WireSegment) : bytes :=
  let body := concat (enc_segment <$> segs) in
  edition :: a ++ be_enc 4 (PACKET_HEADER_LEN + zlen body) ++ b ++ plat ++ c ++ be_enc 4 job ++ body.

Lemma enc_segment_zlen s : zlen (enc_segment s) = SEGMENT_HEADER_LEN + zlen (seg_body s).
Proof. unfold enc_segment. rewrite zlen_cons, zlen_app, be_enc_zlen. unfold SEGMENT_HEADER_LEN. lia. Qed.

Lemma parse_dwell_enc plat job w :
  segment_ok (WDwell w) →
  parse_dwell (enc_segment (WDwell w)) plat job = Ok (seg_targets plat job (WDwell w)).
Proof.
  intros [Hl Hok]. cbn [seg_targets]. set (seg := enc_segment (WDwell w)). unfold parse_dwell.
  assert (zlen seg < 2 ^ 64) as Hz.
  { unfold seg. rewrite enc_segment_zlen. change (2 ^ 64) with (2 ^ 32 * 2 ^ 32). lia. }
  assert (seg = (SEG_DWELL :: be_enc 4 (SEGMENT_HEADER_LEN + zlen (enc_dwell_body w))) ++ enc_dwell_body w) as E by done.
  pose proof Hok as [].
  assert (∀ sg, reads (_ ← skip SEGMENT_HEADER_LEN; mask ← array 8; d ← dwell mask;
                 ts ← reports (Z.to_nat (d_count d)) mask; mret (omap (target plat job sg d) ts))
            ((SEG_DWELL :: be_enc 4 (SEGMENT_HEADER_LEN + zlen (enc_dwell_body w))) ++ enc_dwell_body w)
            (omap (target plat job sg (w_dwell w)) (w_report <$> w_reports w))) as H.
  { intros sg. eapply reads_bind; [by apply reads_skip|]. unfold enc_dwell_body.
    eapply reads_bind; [by apply (reads_array 8)|]. eapply reads_bind; [by apply reads_dwell|].
    eapply reads_then; [|apply reads_ret]. rewrite dw_count0. unfold zlen. rewrite Nat2Z.id. by apply reads_reports. }
  pose proof (H seg (@nil Z) (@nil Z)) as H'. rewrite app_nil_r, <- E in H'.
  change ([] ++ seg) with seg in H'. change (zlen (@nil Z)) with 0 in H'. by rewrite H'.
Qed.

Lemma u32_be_enc v t : n32 v → u32_be (be_enc 4 v ++ t) = Ok v.
Proof.
  intros Hv. unfold u32_be. rewrite (proj2 (slice_Ok _ 0 4 (be_enc 4 v))).
  - cbn [mbind res_bind]. by rewrite be_val_enc, Z.mod_small.
  - by apply get_range_head.
Qed.

(** The walk over the segments: [p] is what was walked over, [t] what follows the
    declared packet. *)
Lemma segments_enc plat job segs : ∀ fuel p t,
  Forall segment_ok segs → (length segs <= fuel)%nat →
  let body := concat (enc_segment <$> segs) in
  segments fuel (p ++ body ++ t) plat job (zlen (p ++ body)) (zlen p) = Ok (segs ≫= seg_targets plat job).
Proof.
  induction segs as [|s segs IH]; intros fuel p t Hok Hf body.
  - unfold body. cbn [fmap list_fmap concat app]. rewrite app_nil_r.
    destruct fuel; cbn [segments]; rewrite (proj2 (Z.leb_gt (zlen p + SEGMENT_HEADER_LEN) (zlen p))) by
      (unfold SEGMENT_HEADER_LEN; lia); done.
  - apply Forall_cons in Hok as [Hs Hok]. destruct fuel as [|fuel]; [cbn in Hf; lia|].
    assert (body = enc_segment s ++ concat (enc_segment <$> segs)) as Hb by done.
    set (rest := concat (enc_segment <$> segs)) in *.
    pose proof (enc_segment_zlen s) as Hz. pose proof (zlen_nonneg (seg_body s)). pose proof (zlen_nonneg rest).
    cbn [segments]. rewrite (proj2 (Z.leb_le (zlen p + SEGMENT_HEADER_LEN) (zlen (p ++ body)))) by
      (rewrite Hb, !zlen_app, Hz; lia). cbn [negb].
    assert (∃ sz, sz = SEGMENT_HEADER_LEN + zlen (seg_body s) ∧ n32 sz ∧
      enc_segment s = seg_type s :: be_enc 4 sz ++ seg_body s) as (sz & Hsz & Hn & Es).
    { exists (SEGMENT_HEADER_LEN + zlen (seg_body s)). split; [done|]. split; [|done]. destruct Hs as [Hs _]. unfold n32, SEGMENT_HEADER_LEN in *. lia. }
    assert (p ++ body ++ t = p ++ seg_type s :: be_enc 4 sz ++ seg_body s ++ rest ++ t) as E
      by (rewrite Hb, Es; rewrite <- ?app_assoc; cbn; by rewrite <- ?app_assoc).
    assert (idx (E := GmtiError) (p ++ body ++ t) (zlen p) = Ok (seg_type s)) as ->
      by (rewrite E; unfold idx; by rewrite get_at_app).
    cbn [mbind res_bind].
    assert (slice (E := GmtiError) (p ++ body ++ t) (zlen p + 1) (zlen p + 5) = Ok (be_enc 4 sz)) as ->.
    { apply slice_Ok. rewrite E, (cons_middle _ p), app_assoc. apply get_range_app; [by rewrite zlen_app|rewrite be_enc_zlen; lia]. }
    cbn [mbind res_bind].
    assert (u32_be (be_enc 4 sz) = Ok sz) as -> by (rewrite <- (app_nil_r (be_enc 4 sz)); by apply u32_be_enc).
    cbn [mbind res_bind].
    assert ((sz <? SEGMENT_HEADER_LEN) || (zlen (p ++ body) <? zlen p + sz) = false) as ->.
    { apply orb_false_iff. split; apply Z.ltb_ge; [lia|]. rewrite Hb, !zlen_app, Hz. lia. }
    assert (zlen p + sz = zlen (p ++ enc_segment s)) as Hnext by (rewrite zlen_app, Hz; lia).
    specialize (IH fuel (p ++ enc_segment s) t Hok ltac:(cbn in Hf; lia)). cbv zeta in IH. fold rest in IH.
    rewrite <- !app_assoc, <- Hb in IH.
    assert (p ++ enc_segment s ++ rest ++ t = p ++ body ++ t) as E2 by (rewrite Hb; by rewrite <- app_assoc).
    rewrite E2 in IH. rewrite Hnext.
    assert ((if seg_type s =? SEG_DWELL
             then seg ← slice (p ++ body ++ t) (zlen p) (zlen (p ++ enc_segment s)); parse_dwell seg plat job
             else Ok []) = Ok (seg_targets plat job s)) as ->.
    { destruct s as [w|ty b]; cbn [seg_type].
      - change (SEG_DWELL =? SEG_DWELL) with true. cbn iota.
        rewrite (proj2 (slice_Ok (p ++ body ++ t) _ _ (enc_segment (WDwell w)))).
        + cbn [mbind res_bind]. by apply parse_dwell_enc.
        + rewrite Hb, <- app_assoc. apply get_range_app; [done|]. by rewrite zlen_app.
      - destruct Hs as [_ [_ Hty]]. by rewrite (proj2 (Z.eqb_neq ty SEG_DWELL)). }
    cbn [mbind res_bind]. by rewrite IH.
Qed.

Lemma enc_segments_length segs : (length segs <= length (concat (enc_segment <$> segs)))%nat.
Proof.
  induction segs as [|s segs IH]; [done|]. cbn [fmap list_fmap concat length]. rewrite length_app.
  assert (1 <= length (enc_segment s))%nat by (cbn; lia). lia.
Qed.

(** * Properties *)

(** the packet parser inverts the STANAG 4607 encoding for every existence
    mask: of a packet of any segments it yields, in order, one target for each
    report of each dwell segment that the mask locates, with the dwell's context
    and the whole segment as its payload, and skips every other segment type, the
    fields it does not use, and what follows the packet. *)
Theorem gmti_roundtrip edition a b plat c job segs t :
  edition = 2 ∨ edition = 3 → zlen a = 1 → zlen b = 8 → zlen plat = 10 → zlen c = 4 → n32 job →
  Forall segment_ok segs → n32 (PACKET_HEADER_LEN + zlen (concat (enc_segment <$> segs))) →
  parse_packet (enc_packet edition a b plat c job segs ++ t)
  = Ok (segs ≫= seg_targets (b2s (trim (utf8_lossy plat))) job).
Proof.
  intros He Ha Hb Hp Hc Hj Hok Hn. unfold enc_packet. set (body := concat (enc_segment <$> segs)) in *.
  set (size := PACKET_HEADER_LEN + zlen body) in *.
  assert (∃ h, h = edition :: a ++ be_enc 4 size ++ b ++ plat ++ c ++ be_enc 4 job ∧ zlen h = 32) as (h & Eh & Hh).
  { exists (edition :: a ++ be_enc 4 size ++ b ++ plat ++ c ++ be_enc 4 job). split; [done|].
    by rewrite zlen_cons, !zlen_app, !be_enc_zlen, Ha, Hb, Hp, Hc. }
  assert ((edition :: a ++ be_enc 4 size ++ b ++ plat ++ c ++ be_enc 4 job ++ body) ++ t = h ++ body ++ t) as ->
    by (rewrite Eh; cbn [app]; by rewrite <- ?app_assoc).
  pose proof (zlen_nonneg body). pose proof (zlen_nonneg t).
  unfold parse_packet. change PACKET_HEADER_LEN with 32.
  rewrite (proj2 (Z.ltb_ge _ _)) by (rewrite !zlen_app; lia).
  assert (idx (E := GmtiError) (h ++ body ++ t) 0 = Ok edition) as -> by (rewrite Eh; by apply idx_Ok).
  cbn [mbind res_bind].
  assert (negb (edition =? 2) && negb (edition =? 3) = false) as -> by (by destruct He as [-> | ->]).
  assert (∀ q s r x y, h = q ++ s ++ r → zlen q = x → y = x + zlen s →
    slice (E := GmtiError) (h ++ body ++ t) x y = Ok s) as Hs.
  { intros q s r x y Hq Hx Hy. apply slice_Ok. rewrite Hq, <- !app_assoc. by apply get_range_app. }
  rewrite (Hs (edition :: a) (be_enc 4 size) (b ++ plat ++ c ++ be_enc 4 job) 2 6); [|exact Eh|rewrite zlen_cons, Ha; done|by rewrite be_enc_zlen].
  cbn [mbind res_bind].
  assert (u32_be (be_enc 4 size) = Ok size) as -> by (rewrite <- (app_nil_r (be_enc 4 size)); by apply u32_be_enc).
  cbn [mbind res_bind].
  assert ((size <? 32) || (zlen (h ++ body ++ t) <? size) = false) as ->.
  { unfold size, PACKET_HEADER_LEN. apply orb_false_iff. split; apply Z.ltb_ge; [lia|]. rewrite !zlen_app. lia. }
  rewrite (Hs (edition :: a ++ be_enc 4 size ++ b) plat (c ++ be_enc 4 job) 14 24);
    [|rewrite Eh; cbn [app]; by rewrite <- ?app_assoc|rewrite zlen_cons, !zlen_app, be_enc_zlen, Ha, Hb; done|by rewrite Hp].
  cbn [mbind res_bind].
  rewrite (Hs (edition :: a ++ be_enc 4 size ++ b ++ plat ++ c) (be_enc 4 job) [] 28 32);
    [|rewrite Eh; cbn [app]; by rewrite app_nil_r, <- ?app_assoc|rewrite zlen_cons, !zlen_app, be_enc_zlen, Ha, Hb, Hp, Hc; done
     |by rewrite be_enc_zlen].
  cbn [mbind res_bind].
  assert (u32_be (be_enc 4 job) = Ok job) as -> by (rewrite <- (app_nil_r (be_enc 4 job)); by apply u32_be_enc).
  cbn [mbind res_bind].
  assert (size = zlen (h ++ body)) as -> by (rewrite zlen_app, Hh; done). rewrite <- Hh.
  apply segments_enc; [done|]. pose proof (enc_segments_length segs). unfold body. rewrite !length_app. lia.
Qed.

(** C38: binary angles are decoded without any rounding: [sa32] is exactly
    v * 90 / 2^31 degrees, and the wrapped [ba32] exactly v * 360 / 2^32 less a
    turn past half of it; so every high-resolution position a target report can
    state lies within the range an event may have. *)
Theorem gmti_angles_exact la lo :
  s32 la → n32 lo →
  rep (sa32 la) (la * 45) (-30)
  ∧ rep (norm_lon (ba32 lo)) ((if 2 ^ 31 <? lo then lo - 2 ^ 32 else lo) * 45) (-29)
  ∧ in_range (f_of_Z (-90)) (f_of_Z 90) (sa32 la) = true
  ∧ in_range (f_of_Z (-180)) (f_of_Z 180) (norm_lon (ba32 lo)) = true.
Proof.
  intros Hla Hlo. pose proof (sa32_rep la Hla) as H1. pose proof (norm_lon_rep lo Hlo) as H2.
  assert (rep (norm_lon (ba32 lo)) ((if 2 ^ 31 <? lo then lo - 2 ^ 32 else lo) * 45) (-29)) as H2' by (by destruct (2 ^ 31 <? lo)).
  unfold s32, n32 in *. split; [done|]. split; [done|]. split.
  - apply (rep_in_range (-90) 90 _ _ _ ltac:(lia) ltac:(lia) H1). unfold val.
    change (0 + 1000) with (30 + 970). rewrite (Z.pow_add_r 2 30 970) by lia. change (-30 + 1000) with 970.
    pose proof (Z.pow_pos_nonneg 2 970 ltac:(lia) ltac:(lia)). nia.
  - apply (rep_in_range (-180) 180 _ _ _ ltac:(lia) ltac:(lia) H2'). unfold val.
    change (0 + 1000) with (29 + 971). rewrite (Z.pow_add_r 2 29 971) by lia. change (-29 + 1000) with 971.
    pose proof (Z.pow_pos_nonneg 2 971 ltac:(lia) ltac:(lia)). destruct (Z.ltb_spec (2 ^ 31) lo); nia.
Qed.

(** * Witnesses *)

(** Bits 30, 31, 32 and 36: a report index, a high-resolution position and a
    velocity. *)
Definition ex_mask : Z := 2 ^ 33 + 2 ^ 32 + 2 ^ 31 + 2 ^ 27.
Definition ex_report : Report :=
  mkReport (Some 7) (Some (2 ^ 30)) (Some (3 * 2 ^ 30)) None None None (Some (-250)) None None None.
Definition ex_dwell : WireDwell :=
  mkWireDwell ex_mask (mkDwell 5 1 1000 0 0 None None 0 0) 1 0 0 [] [0; 0; 0; 0] [] [mkWireReport ex_report [] []].

Lemma ex_dwell_ok : dwell_ok ex_dwell.
Proof.
  split; cbn; try done; try (split; done); try (split; [done|split; done]).
  all: try (repeat constructor; cbn; done).
Qed.

Lemma gmti_roundtrip_witness :
  ∃ tg, parse_packet (enc_packet 3 [0] (replicate 8 0) (s2b "PLATFORM-1") (replicate 4 0) 9
      [WOther 5 [1; 2]; WDwell ex_dwell] ++ [255]) = Ok [tg]
    ∧ platform tg = "PLATFORM-1"%string ∧ mti_index tg = Some 7
    ∧ fmt_fixed 3 (lat tg) = "45.000"%string ∧ fmt_fixed 3 (lon tg) = "-90.000"%string.
Proof.
  eexists. split.
  - rewrite (gmti_roundtrip 3 [0] (replicate 8 0) (s2b "PLATFORM-1") (replicate 4 0) 9 [WOther 5 [1; 2]; WDwell ex_dwell] [255]);
      [vm_compute; reflexivity|by right|done..| |done].
    constructor; [done|]. constructor; [|constructor]. split; [done|apply ex_dwell_ok].
  - vm_compute. done.
Defined.

Lemma gmti_angles_exact_witness : in_range (f_of_Z (-90)) (f_of_Z 90) (sa32 (- 2 ^ 31)) = true.
Proof. apply (gmti_angles_exact (- 2 ^ 31) (2 ^ 32 - 1)); unfold s32, n32; lia. Defined.
