(* ===== verification/S4586.v ===== *)
(** The STANAG 4586 connector (rust/connectors/stanag4586/src/s4586.rs): a
    datagram of checksummed messages, and the event of an Inertial States message. *)
From Stdlib Require Import ZArith Lia.
From Stdlib Require Import Strings.String.
From S2P Require Export Parser.

Local Open Scope Z_scope.

(** @src rust/connectors/stanag4586/src/s4586.rs 25-31 HEADER CHECKSUM MSG_INERTIAL_STATES INERTIAL_BODY_LEN *)
Definition HEADER : Z := 30.
Definition CHECKSUM : Z := 4.
Definition MSG_INERTIAL_STATES : Z := 101.
Definition INERTIAL_BODY_LEN : Z := 89.

(** @src rust/connectors/stanag4586/src/s4586.rs 33-41 S4586Error *)
Inductive S4586Error :=
| Checksum (message_type : Z)
| Truncated (what : string)
| Build (e : BuildError).

(** @src rust/connectors/stanag4586/src/s4586.rs 43-47 S4586Parser *)
Record S4586Parser := mkS4586 { source_id : string; enrichment : Enrichment; entity_type : string }.

(** @src rust/connectors/stanag4586/src/s4586.rs 67-75 S4586Parser::new *)
Definition s4586_new (src : string) (e : Enrichment) : S4586Parser := mkS4586 src e "mim:aircraft".

(** @src rust/connectors/stanag4586/src/s4586.rs 77-83 S4586Parser::with_entity_type *)
Definition with_entity_type (self : S4586Parser) (t : option string) : S4586Parser :=
  match t with Some t => mkS4586 (source_id self) (enrichment self) t | None => self end.

(** @src rust/connectors/stanag4586/src/s4586.rs 49-65 Inertial *)
Record Inertial := mkInertial {
  timestamp_s : f64;
  vehicle_id : Z;
  cucs_id : Z;
  lat : f64;
  lon : f64;
  altitude_m : f64;
  i_altitude_type : Z;
  north_mps : f64;
  east_mps : f64;
  down_mps : f64;
  roll_deg : f64;
  pitch_deg : f64;
  yaw_deg : f64;
  magvar_deg : f64
}.

(** @src rust/connectors/stanag4586/src/s4586.rs 188-197 altitude_type *)
Definition altitude_type (v : Z) : string :=
  if v =? 0 then "pressure" else if v =? 1 then "baro" else if v =? 2 then "agl" else if v =? 3 then "wgs84"
  else "unknown".

(** @src rust/connectors/stanag4586/src/s4586.rs 215-220 be_u32 *)
Definition be_u32 (b : bytes) (off : Z) : Z := default 0 (be_val <$> get_range b off (off + 4)).

(** @src rust/connectors/stanag4586/src/s4586.rs 222-227 be_f32 *)
Definition be_f32 (b : bytes) (off : Z) : f64 :=
  default f_zero ((λ s, f32_of_bits (be_val s)) <$> get_range b off (off + 4)).

(** @src rust/connectors/stanag4586/src/s4586.rs 229-234 be_f64 *)
Definition be_f64 (b : bytes) (off : Z) : f64 :=
  default f_zero ((λ s, f64_of_bits (be_val s)) <$> get_range b off (off + 8)).

Section s4586.
(** libm's [atan2] and the [f32] [hypot], and the time crate's RFC 3339 text of
    a count of nanoseconds since 1970, where it has one. *)
Variables (atan2 hypot : f64 → f64 → f64) (rfc3339_of_nanos : Z → option string).

(** @src rust/connectors/stanag4586/src/s4586.rs 199-213 rfc3339_from_unix_secs *)
Definition rfc3339_from_unix_secs (secs : f64) : option string :=
  if negb (is_finite secs) then None
  else
    let nanos := f_round (f_mul secs (f_of_Z 1000000000)) in
    if f_leb (f_of_Z (2 ^ 127 - 1)) (f_abs nanos) then None
    else rfc3339_of_nanos (f_to_Z (- 2 ^ 127) (2 ^ 127 - 1) nanos).

(** @src rust/connectors/stanag4586/src/s4586.rs 126-145 decode_inertial *)
Definition inertial (body : bytes) : res S4586Error Inertial :=
  if zlen body <? INERTIAL_BODY_LEN then Err (Truncated "Inertial States body")
  else
    at_ ← idx body 36;
    Ok (mkInertial (be_f64 body 0) (to_signed 32 (be_u32 body 8)) (to_signed 32 (be_u32 body 12))
          (to_degrees (be_f64 body 16)) (to_degrees (be_f64 body 24)) (be_f32 body 32) at_
          (be_f32 body 37) (be_f32 body 41) (be_f32 body 45)
          (to_degrees (be_f32 body 61)) (to_degrees (be_f32 body 65))
          (rem_euclid (to_degrees (be_f32 body 69)) (f_of_Z 360)) (to_degrees (be_f32 body 85))).

(** @src rust/connectors/stanag4586/src/s4586.rs 147-178 decode_inertial *)
Definition inertial_builder (env : Env) (self : S4586Parser) (s : Inertial) (raw : bytes) : EventBuilder :=
  let speed_mps := hypot (north_mps s) (east_mps s) in
  let course_deg := rem_euclid (to_degrees (atan2 (east_mps s) (north_mps s))) (f_of_Z 360) in
  let climb_mps := f_neg (down_mps s) in
  let b := new_id env (builder_new (source_id self) (entity_type self)) in
  let b := set_location (lat s) (lon s) (altitude_m s) (set_payload raw b) in
  let b := add_metadata "source_uid" ("s4586:vehicle:" ++ show (vehicle_id s)) b in
  let b := add_metadata "cucs_id" (show (cucs_id s)) b in
  let b := add_metadata "altitude_type" (altitude_type (i_altitude_type s)) b in
  let b := attribute "speed" (fmt_fixed 2 speed_mps) b in
  let b := attribute "course" (fmt_fixed 1 course_deg) b in
  let b := attribute "heading" (fmt_fixed 1 (yaw_deg s)) b in
  let b := attribute "vertical_rate" (fmt_fixed 2 climb_mps) b in
  let b := add_metadata "roll_deg" (fmt_fixed 2 (roll_deg s)) b in
  let b := add_metadata "pitch_deg" (fmt_fixed 2 (pitch_deg s)) b in
  let b := add_metadata "magnetic_variation_deg" (fmt_fixed 3 (magvar_deg s)) b in
  let b := match rfc3339_from_unix_secs (timestamp_s s) with Some ts => set_timestamp ts b | None => now env b end in
  let b := add_metadata "timestamp_s" (fmt_fixed 3 (timestamp_s s)) b in
  on_some (hostility (enrichment self)) (attribute "hostility") b.

(** @src rust/connectors/stanag4586/src/s4586.rs 125-179 decode_inertial *)
Definition decode_inertial (env : Env) (self : S4586Parser) (body raw : bytes) : res S4586Error Event :=
  s ← inertial body;
  map_err Build (build (inertial_builder env self s raw)).

(** The byte-wise sum, wrapping at 32 bits. *)
(** @src rust/connectors/stanag4586/src/s4586.rs 105-107 to_events *)
Definition sum32 (l : bytes) : Z := fold_left (λ a b, wrap 32 (a + b)) l 0.

(** The body length and the end of the message at an offset, if it is all there;
    [usize] is 64 bits wide. *)
(** @src rust/connectors/stanag4586/src/s4586.rs 91-102 to_events *)
Definition message_at (frame : bytes) (off : Z) : option (Z * Z) :=
  if negb (off + HEADER + CHECKSUM <=? zlen frame) then None
  else
    let body_len := be_u32 frame (off + 18) in
    let msg_end := off + HEADER + body_len + CHECKSUM in
    if 2 ^ 64 <=? msg_end then None
    else if zlen frame <? msg_end then None
    else Some (body_len, msg_end).

(** The walk from an offset; [i] counts the events built so far. *)
(** @src rust/connectors/stanag4586/src/s4586.rs 91-120 to_events *)
Fixpoint walk (fuel : nat) (envs : Envs) (i : nat) (self : S4586Parser) (frame : bytes) (off : Z) :
    res S4586Error (list Event) :=
  match message_at frame off with
  | None => Ok []
  | Some (body_len, msg_end) =>
      match fuel with
      | O => NoFuel
      | S fuel =>
          let checksum := be_u32 frame (msg_end - CHECKSUM) in
          covered ← slice frame off (msg_end - CHECKSUM);
          let message_type := be_u32 frame (off + 14) in
          if negb (sum32 covered =? checksum) then Err (Checksum message_type)
          else if message_type =? MSG_INERTIAL_STATES then
            body ← slice frame (off + HEADER) (off + HEADER + body_len);
            raw ← slice frame off msg_end;
            e ← decode_inertial (envs i) self body raw;
            es ← walk fuel envs (S i) self frame msg_end;
            Ok (e :: es)
          else walk fuel envs i self frame msg_end
      end
  end.

(** @src rust/connectors/stanag4586/src/s4586.rs 85-123 to_events *)
Definition to_events (envs : Envs) (self : S4586Parser) (frame : bytes) : res S4586Error (list Event) :=
  walk (length frame) envs 0 self frame 0.

(** @src rust/connectors/stanag4586/src/s4586.rs 182-186 parse *)
Definition parse (envs : Envs) (self : S4586Parser) (frame : bytes) : S4586Parser * res S4586Error (list Event) :=
  (self, to_events envs self frame).

(** * Lemmas *)

Lemma inertial_safe body : safe (inertial body).
Proof.
  unfold inertial. destruct (Z.ltb_spec (zlen body) INERTIAL_BODY_LEN) as [|H]; [done|].
  unfold INERTIAL_BODY_LEN in H. apply safe_bind; [apply safe_idx; lia|done].
Qed.

Lemma decode_inertial_safe env self body raw : safe (decode_inertial env self body raw).
Proof. apply safe_bind; [apply inertial_safe|intros; apply safe_build]. Qed.

Lemma be_u32_nonneg b off : bytes_ok b → 0 ≤ be_u32 b off.
Proof.
  intros Hb. unfold be_u32. destruct (get_range b off (off + 4)) as [s|] eqn:Hs; [|done]. cbn.
  apply be_val_nonneg. by eapply bytes_ok_range.
Qed.

Lemma decode_inertial_canonical env self body raw e : decode_inertial env self body raw = Ok e → Canonical e.
Proof. intros (s & _ & He)%bind_Ok. by eapply build_all_canonical. Qed.

Lemma message_at_Some frame off len e :
  bytes_ok frame → 0 ≤ off → message_at frame off = Some (len, e) →
  0 ≤ len ∧ e = off + HEADER + len + CHECKSUM ∧ e ≤ zlen frame.
Proof.
  intros Hb Ho. unfold message_at. destruct (negb _); [done|]. cbv zeta. destruct (_ <=? _); [done|].
  destruct (Z.ltb_spec (zlen frame) (off + HEADER + be_u32 frame (off + 18) + CHECKSUM)); [done|].
  intros [= <- <-]. split_and!; [by apply be_u32_nonneg|done|lia].
Qed.

Lemma walk_ok fuel envs self frame : bytes_ok frame → ∀ i off,
  0 ≤ off → zlen frame - off ≤ Z.of_nat fuel →
  safe (walk fuel envs i self frame off)
  ∧ ∀ es, walk fuel envs i self frame off = Ok es → Forall Canonical es.
Proof.
  intros Hb. induction fuel as [|fuel IH]; intros i off Ho Hf; cbn [walk];
    (destruct (message_at frame off) as [[len e]|] eqn:Hm; [|by split; [|intros es [= <-]; constructor]]);
    apply message_at_Some in Hm as (Hl & -> & He); try done; unfold HEADER, CHECKSUM in *; [lia|].
  destruct (get_range_is_Some frame off (off + 30 + len + 4 - 4)) as [cov Hcov]; [lia..|].
  rewrite (proj2 (slice_Ok _ _ _ cov) Hcov). cbn [mbind res_bind].
  destruct (negb _); [done|]. destruct (_ =? MSG_INERTIAL_STATES); [|apply IH; lia].
  destruct (get_range_is_Some frame (off + 30) (off + 30 + len)) as [body Hbody]; [lia..|].
  destruct (get_range_is_Some frame off (off + 30 + len + 4)) as [raw Hraw]; [lia..|].
  rewrite (proj2 (slice_Ok _ _ _ body) Hbody), (proj2 (slice_Ok _ _ _ raw) Hraw). cbn [mbind res_bind].
  pose proof (decode_inertial_safe (envs i) self body raw) as Hs.
  destruct (decode_inertial _ _ _ _) as [ev| | |] eqn:Hev; try done. cbn [mbind res_bind].
  destruct (IH (S i) (off + 30 + len + 4)) as [H1 H2]; [lia..|].
  destruct (walk _ _ _ _ _ _) as [es| | |]; try done. split; [done|]. intros es' [= <-].
  constructor; [by eapply decode_inertial_canonical|by apply H2].
Qed.

(** * The sender *)

(** A message: the fields of its wrapper and its body. *)
Record Msg := mkMsg { m_head : bytes; m_type : Z; m_stream : bytes; m_body : bytes }.

Definition covered (m : Msg) : bytes :=
  m_head m ++ be_enc 4 (m_type m) ++ be_enc 4 (zlen (m_body m)) ++ m_stream m ++ m_body m.
Definition sealed_with (m : Msg) (sum : Z) : bytes := covered m ++ be_enc 4 sum.
Definition enc_msg (m : Msg) : bytes := sealed_with m (sum32 (covered m)).

(** [m_head] is the version and the instance, [m_stream] the stream and the
    sequence number. *)
Record msg_ok (m : Msg) : Prop := {
  mo_head : zlen (m_head m) = 14;
  mo_type : 0 ≤ m_type m < 2 ^ 32;
  mo_stream : zlen (m_stream m) = 8;
  mo_len : zlen (m_body m) < 2 ^ 32
}.

Lemma be_u32_at p v t off : off = zlen p → 0 ≤ v < 2 ^ 32 → be_u32 (p ++ be_enc 4 v ++ t) off = v.
Proof.
  intros -> Hv. unfold be_u32. rewrite get_range_app; [|done|by rewrite be_enc_zlen]. cbn [fmap option_fmap option_map default].
  by rewrite be_val_enc, Z.mod_small.
Qed.

Lemma sum32_range l : 0 ≤ sum32 l < 2 ^ 32.
Proof.
  unfold sum32. assert (∀ a, 0 ≤ a < 2 ^ 32 → 0 ≤ fold_left (λ a b, wrap 32 (a + b)) l a < 2 ^ 32) as H; [|by apply H].
  induction l as [|b l IH]; intros a Ha; [done|]. cbn [fold_left]. apply IH. by apply (wrap_range 32).
Qed.

Lemma covered_zlen m : msg_ok m → zlen (covered m) = HEADER + zlen (m_body m).
Proof. intros []. unfold covered. rewrite !zlen_app, !be_enc_zlen. unfold HEADER. lia. Qed.

(** What the walk reads at a message, whatever its checksum. *)
Lemma at_message p m sum t :
  msg_ok m → 0 ≤ sum < 2 ^ 32 → zlen (p ++ sealed_with m sum ++ t) < 2 ^ 64 →
  let frame := p ++ sealed_with m sum ++ t in
  let e := zlen p + HEADER + zlen (m_body m) + CHECKSUM in
  message_at frame (zlen p) = Some (zlen (m_body m), e)
  ∧ be_u32 frame (zlen p + 14) = m_type m ∧ be_u32 frame (e - CHECKSUM) = sum
  ∧ get_range frame (zlen p) (e - CHECKSUM) = Some (covered m)
  ∧ get_range frame (zlen p + HEADER) (zlen p + HEADER + zlen (m_body m)) = Some (m_body m)
  ∧ get_range frame (zlen p) e = Some (sealed_with m sum)
  ∧ e = zlen (p ++ sealed_with m sum).
Proof.
  intros Hok Hsum H64 frame e. pose proof (covered_zlen m Hok) as Hc. pose proof Hok as [].
  assert (zlen (sealed_with m sum) = HEADER + zlen (m_body m) + CHECKSUM) as Hz
    by (unfold sealed_with; rewrite zlen_app, be_enc_zlen, Hc; done).
  assert (frame = p ++ m_head m ++ be_enc 4 (m_type m) ++ be_enc 4 (zlen (m_body m)) ++ m_stream m ++ m_body m ++ be_enc 4 sum ++ t) as E
    by (unfold frame, sealed_with, covered; by rewrite <- !app_assoc).
  pose proof (zlen_nonneg (m_body m)). pose proof (zlen_nonneg t).
  assert (∀ q s r a b, frame = q ++ s ++ r → zlen q = a → b = a + zlen s → get_range frame a b = Some s) as Hr
    by (intros q s r a b -> ? ?; by apply get_range_app).
  assert (∀ q v r a, frame = q ++ be_enc 4 v ++ r → a = zlen q → 0 ≤ v < 2 ^ 32 → be_u32 frame a = v) as Hu
    by (intros q v r a -> ? ?; by apply be_u32_at).
  split_and!.
  - unfold message_at.
    assert (be_u32 frame (zlen p + 18) = zlen (m_body m)) as ->.
    { apply (Hu (p ++ m_head m ++ be_enc 4 (m_type m)) _ (m_stream m ++ m_body m ++ be_enc 4 sum ++ t));
        [by rewrite E, <- !app_assoc|rewrite !zlen_app, be_enc_zlen; lia|lia]. }
    unfold frame in *. rewrite !zlen_app, Hz in *. fold e.
    rewrite (proj2 (Z.leb_le _ _)), (proj2 (Z.leb_gt _ _)), (proj2 (Z.ltb_ge _ _)) by (unfold e, HEADER, CHECKSUM in *; lia). done.
  - apply (Hu (p ++ m_head m) _ (be_enc 4 (zlen (m_body m)) ++ m_stream m ++ m_body m ++ be_enc 4 sum ++ t));
      [by rewrite E, <- !app_assoc|rewrite !zlen_app; lia|done].
  - apply (Hu (p ++ covered m) _ t); [unfold frame, sealed_with; by rewrite <- !app_assoc|rewrite zlen_app, Hc; unfold e; lia|done].
  - apply (Hr p _ (be_enc 4 sum ++ t)); [unfold frame, sealed_with; by rewrite <- !app_assoc|done|rewrite Hc; unfold e; lia].
  - apply (Hr (p ++ m_head m ++ be_enc 4 (m_type m) ++ be_enc 4 (zlen (m_body m)) ++ m_stream m) _ (be_enc 4 sum ++ t));
      [by rewrite E, <- !app_assoc|rewrite !zlen_app, !be_enc_zlen; unfold HEADER; lia|done].
  - apply (Hr p _ t); [done|done|rewrite Hz; unfold e; lia].
  - rewrite zlen_app, Hz. unfold e. lia.
Qed.

(** The events of a run of messages, each with the next id and clock reading. *)
Fixpoint events_of (envs : Envs) (i : nat) (self : S4586Parser) (ms : list Msg) : res S4586Error (list Event) :=
  match ms with
  | [] => Ok []
  | m :: ms =>
      if m_type m =? MSG_INERTIAL_STATES then
        e ← decode_inertial (envs i) self (m_body m) (enc_msg m);
        es ← events_of envs (S i) self ms;
        Ok (e :: es)
      else events_of envs i self ms
  end.

(** One good message: its event, then the rest of the walk. *)
Lemma walk_step fuel envs i self p m t :
  msg_ok m → zlen (p ++ enc_msg m ++ t) < 2 ^ 64 →
  walk (S fuel) envs i self (p ++ enc_msg m ++ t) (zlen p)
  = (if m_type m =? MSG_INERTIAL_STATES then
       e ← decode_inertial (envs i) self (m_body m) (enc_msg m);
       es ← walk fuel envs (S i) self ((p ++ enc_msg m) ++ t) (zlen (p ++ enc_msg m));
       Ok (e :: es)
     else walk fuel envs i self ((p ++ enc_msg m) ++ t) (zlen (p ++ enc_msg m))).
Proof.
  intros Hok H64.
  destruct (at_message p m _ t Hok (sum32_range (covered m)) H64) as (H1 & H2 & H3 & H4 & H5 & H6 & H7).
  fold (enc_msg m) in *. cbn [walk]. rewrite H1, H3, H2. rewrite (proj2 (slice_Ok _ _ _ _) H4). cbn [mbind res_bind].
  rewrite Z.eqb_refl. cbn [negb].
  rewrite (proj2 (slice_Ok _ _ _ _) H5), (proj2 (slice_Ok _ _ _ _) H6). cbn [mbind res_bind]. by rewrite H7, app_assoc.
Qed.

Lemma walk_messages envs self ms t : ∀ fuel i p r,
  Forall msg_ok ms → zlen (p ++ concat (enc_msg <$> ms) ++ t) < 2 ^ 64 → (length ms <= fuel)%nat →
  (∀ j, walk (fuel - length ms) envs j self ((p ++ concat (enc_msg <$> ms)) ++ t) (zlen (p ++ concat (enc_msg <$> ms))) = r) →
  walk fuel envs i self (p ++ concat (enc_msg <$> ms) ++ t) (zlen p)
  = match events_of envs i self ms with
    | Ok es => es' ← r; Ok (es ++ es')
    | Err e => Err e | Panic => Panic | NoFuel => NoFuel
    end.
Proof.
  induction ms as [|m ms IH]; intros fuel i p r Hok H64 Hf Hr; cbn [fmap list_fmap concat app events_of length] in *.
  - specialize (Hr i). rewrite app_nil_r, Nat.sub_0_r in Hr. rewrite Hr. by destruct r.
  - destruct fuel as [|fuel]; [lia|]. apply Forall_cons in Hok as [Hm Hok].
    rewrite <- app_assoc in H64 |- *. rewrite walk_step by done.
    assert (∀ i, walk fuel envs i self ((p ++ enc_msg m) ++ concat (enc_msg <$> ms) ++ t) (zlen (p ++ enc_msg m))
      = match events_of envs i self ms with
        | Ok es => es' ← r; Ok (es ++ es')
        | Err e => Err e | Panic => Panic | NoFuel => NoFuel
        end) as Hrest.
    { intros j. apply IH; [done|by rewrite <- app_assoc|lia|]. intros k. rewrite <- (app_assoc p). apply Hr. }
    destruct (m_type m =? MSG_INERTIAL_STATES); [|apply Hrest]. rewrite Hrest.
    destruct (decode_inertial _ _ _ _) as [e| | |]; try done. cbn [mbind res_bind].
    destruct (events_of _ _ _ ms) as [es| | |]; try done. by destruct r.
Qed.

Lemma be_u32_shift p t k : 0 ≤ k → be_u32 (p ++ t) (zlen p + k) = be_u32 t k.
Proof. intros. unfold be_u32. by rewrite <- Z.add_assoc, get_range_shift. Qed.

(** What cannot be a whole message. *)
Definition incomplete (t : bytes) : Prop := zlen t < HEADER + CHECKSUM ∨ zlen t < HEADER + be_u32 t 18 + CHECKSUM.

Lemma incomplete_stops p t : incomplete t → message_at (p ++ t) (zlen p) = None.
Proof.
  intros Ht. unfold message_at. rewrite be_u32_shift, zlen_app by done.
  destruct (Z.leb_spec (zlen p + HEADER + CHECKSUM) (zlen p + zlen t)); cbn [negb]; [|done].
  destruct (_ <=? _); [done|].
  by rewrite (proj2 (Z.ltb_lt _ _)) by (destruct Ht; lia).
Qed.

Lemma enc_msgs_length ms : Forall msg_ok ms → (length ms <= length (concat (enc_msg <$> ms)))%nat.
Proof.
  induction 1 as [|m ms Hm Hms IH]; [done|]. cbn [fmap list_fmap concat length]. rewrite length_app.
  assert (0 < zlen (enc_msg m)) as Hz.
  { unfold enc_msg, sealed_with. rewrite zlen_app, be_enc_zlen. pose proof (zlen_nonneg (covered m)). lia. }
  unfold zlen in Hz. lia.
Qed.

Lemma sum32_acc l : ∀ a, fold_left (λ a b, wrap 32 (a + b)) l (a mod 2 ^ 32) = (a + foldr Z.add 0 l) mod 2 ^ 32.
Proof.
  induction l as [|b l IH]; intros a; cbn [fold_left foldr]; [by rewrite Z.add_0_r|].
  rewrite Z.add_assoc, <- IH. f_equal. unfold wrap. by rewrite Z.add_mod_idemp_l.
Qed.

Lemma sum32_sum l : sum32 l = foldr Z.add 0 l mod 2 ^ 32.
Proof. exact (sum32_acc l 0). Qed.

Lemma sum32_one_byte a b b' d : byte_ok b → byte_ok b' → b ≠ b' → sum32 (a ++ b :: d) ≠ sum32 (a ++ b' :: d).
Proof.
  intros Hb Hb' Hne. rewrite !sum32_sum, !foldr_app. cbn [foldr].
  assert (∀ k, foldr Z.add k a = foldr Z.add 0 a + k) as Hk.
  { intros k. induction a as [|x a IH]; cbn [foldr]; lia. }
  rewrite !(Hk (_ + _)). unfold byte_ok in *. intros H.
  apply (f_equal (λ x, (x - (foldr Z.add 0 a + foldr Z.add 0 d)) mod 2 ^ 32)) in H.
  rewrite !Zminus_mod_idemp_l in H. ring_simplify (foldr Z.add 0 a + (b + foldr Z.add 0 d) - (foldr Z.add 0 a + foldr Z.add 0 d)) in H.
  ring_simplify (foldr Z.add 0 a + (b' + foldr Z.add 0 d) - (foldr Z.add 0 a + foldr Z.add 0 d)) in H.
  rewrite !Z.mod_small in H by lia. done.
Qed.

(** A damaged message stops the walk with an error. *)
Lemma walk_damaged fuel envs i self p m sum t :
  msg_ok m → 0 ≤ sum < 2 ^ 32 → sum ≠ sum32 (covered m) → zlen (p ++ sealed_with m sum ++ t) < 2 ^ 64 →
  walk (S fuel) envs i self (p ++ sealed_with m sum ++ t) (zlen p) = Err (Checksum (m_type m)).
Proof.
  intros Hok Hs Hne H64. destruct (at_message p m sum t Hok Hs H64) as (H1 & H2 & H3 & H4 & _).
  cbn [walk]. rewrite H1, H3, H2. rewrite (proj2 (slice_Ok _ _ _ _) H4). cbn [mbind res_bind].
  by rewrite (proj2 (Z.eqb_neq (sum32 (covered m)) sum)).
Qed.

(** * Properties *)

(** a datagram is the sequence of its messages: the events are those of its
    Inertial States messages, in order, every other type skipped, and a last
    message that is cut short, or declares more than is there, ends the walk and
    loses nothing before it. *)
Theorem s4586_walk envs self ms t :
  Forall msg_ok ms → zlen (concat (enc_msg <$> ms) ++ t) < 2 ^ 64 → incomplete t →
  to_events envs self (concat (enc_msg <$> ms) ++ t) = events_of envs 0 self ms.
Proof.
  intros Hok H64 Ht. unfold to_events. pose proof (enc_msgs_length ms Hok).
  pose proof (walk_messages envs self ms t (length (concat (enc_msg <$> ms) ++ t)) 0 [] (Ok []) Hok) as H0.
  cbn [app] in H0. change (zlen (@nil Z)) with 0 in H0. rewrite H0.
  - destruct (events_of envs 0 self ms); try done. cbn. by rewrite app_nil_r.
  - done.
  - rewrite length_app. lia.
  - intros j. pose proof (incomplete_stops (concat (enc_msg <$> ms)) t Ht) as Hn.
    destruct (_ - _)%nat; cbn [walk]; by rewrite Hn.
Qed.

(** C39: after messages that are intact and read without an error, one whose declared
    length is its own and whose checksum is not the sum of the octets before it is
    refused with its type, and with it the datagram, whatever follows; any one octet of
    a message altered outside its length field and its checksum makes it so. (A length
    altered to more than is there ends the walk as a message cut short does, without an
    error: [s4586_walk].) *)
Theorem s4586_damage envs self ms es m sum t :
  Forall msg_ok ms → msg_ok m → events_of envs 0 self ms = Ok es → 0 ≤ sum < 2 ^ 32 →
  zlen (concat (enc_msg <$> ms) ++ sealed_with m sum ++ t) < 2 ^ 64 →
  (sum ≠ sum32 (covered m)
   ∨ ∃ m0 a b b' d, covered m0 = a ++ b :: d ∧ covered m = a ++ b' :: d ∧ byte_ok b ∧ byte_ok b' ∧ b ≠ b'
       ∧ sum = sum32 (covered m0)) →
  to_events envs self (concat (enc_msg <$> ms) ++ sealed_with m sum ++ t) = Err (Checksum (m_type m)).
Proof.
  intros Hok Hm Hes Hs H64 Hd. assert (sum ≠ sum32 (covered m)) as Hne.
  { destruct Hd as [?|(m0 & a & b & b' & d & E0 & E & Hb & Hb' & Hbb & ->)]; [done|]. rewrite E0, E. by apply sum32_one_byte. }
  unfold to_events. pose proof (enc_msgs_length ms Hok).
  set (frame := concat (enc_msg <$> ms) ++ sealed_with m sum ++ t) in *.
  pose proof (walk_messages envs self ms (sealed_with m sum ++ t) (length frame) 0 [] (Err (Checksum (m_type m))) Hok) as H0.
  cbn [app] in H0. change (zlen (@nil Z)) with 0 in H0. fold frame in H0. rewrite H0; [by rewrite Hes|done|..].
  - unfold frame. rewrite length_app. lia.
  - intros j. assert (length frame - length ms ≠ 0)%nat as Hn.
    { unfold frame. rewrite !length_app. assert (0 < zlen (sealed_with m sum)) as Hz.
      { unfold sealed_with. rewrite zlen_app, be_enc_zlen. pose proof (zlen_nonneg (covered m)). lia. }
      unfold zlen in Hz. lia. }
    destruct (length frame - length ms)%nat; [done|]. by apply walk_damaged.
Qed.

#[export] Instance s4586_parser : FrameParser := {|
  fp_state := S4586Parser; fp_error := S4586Error; fp_parse := parse
|}.

#[export] Instance s4586_laws : FrameParserLaws s4586_parser.
Proof.
  refine {| fp_inv := (λ _, True) : @fp_state s4586_parser → Prop |}; intros envs s frame.
  - intros _ Hb. split; [|done]. apply (walk_ok (length frame) envs s frame Hb 0 0); unfold zlen; lia.
  - intros es _ Hb H. apply (walk_ok (length frame) envs s frame Hb 0 0) in H; [done|done|unfold zlen; lia].
Defined.
End s4586.

(** * Witnesses *)

Definition ex_msg (ty : Z) (body : bytes) : Msg := mkMsg (replicate 14 0) ty (replicate 8 255) body.
Definition ex_self : S4586Parser := s4586_new "s" (mkEnrichment None).
(** A body whose latitude is one radian. *)
Definition ex_body : bytes := replicate 16 0 ++ be_enc 8 0x3FF0000000000000 ++ replicate 65 0.
Definition ex_rfc (n : Z) : option string := Some "1970-01-01T00:00:00Z"%string.
Definition ex_zero (x y : f64) : f64 := f_zero.

Lemma s4586_walk_witness :
  ∃ e, to_events ex_zero ex_zero ex_rfc (λ _, mkEnv "u" "n" 0) ex_self
         (concat (enc_msg <$> [ex_msg 3 [1; 2]; ex_msg 101 ex_body]) ++ [1; 2; 3]) = Ok [e]
    ∧ ev_payload e = enc_msg (ex_msg 101 ex_body).
Proof.
  eexists. split.
  - rewrite (s4586_walk ex_zero ex_zero ex_rfc); [vm_compute; reflexivity| |done|by left].
    by repeat (constructor; [by split|]).
  - vm_compute. reflexivity.
Defined.

Lemma s4586_damage_witness :
  to_events ex_zero ex_zero ex_rfc (λ _, mkEnv "u" "n" 0) ex_self
    (concat (enc_msg <$> [ex_msg 3 [1; 2]]) ++ sealed_with (ex_msg 101 [7]) 5 ++ []) = Err (Checksum 101).
Proof.
  apply (s4586_damage ex_zero ex_zero ex_rfc (λ _, mkEnv "u" "n" 0) ex_self [ex_msg 3 [1; 2]] [] (ex_msg 101 [7]) 5 []);
    [repeat (constructor; [by split|]); constructor|by split|done|done|done|left; vm_compute; discriminate].
Defined.
