(* ===== verification/AstField.v ===== *)
(** ASTERIX's category-generic length engine
    (rust/connectors/asterix/src/asterix/field.rs): the octet length of an item by
    its kind, presence bitmaps, and the walk over one record. *)
From Stdlib Require Import ZArith Lia.
From Stdlib Require Import Strings.String.
From S2P Require Export Parser Ontology.

Local Open Scope Z_scope.

(** @src rust/connectors/asterix/src/asterix.rs 48-64 AsterixError *)
Inductive AsterixError :=
| BadBlock (cat : option Z) (declared have : Z)
| Truncated
| UnsupportedItem (cat frn : Z)
| Build (e : BuildError).

(** @src rust/connectors/asterix/src/asterix/field.rs 8-10 Item *)
Definition Item : Type := Z.
(** @src rust/connectors/asterix/src/asterix/field.rs 12-16 Item *)
Definition SP : Item := 1000.
Definition RE : Item := 1001.
Definition SPARE : Item := 1002.

(** @src rust/connectors/asterix/src/asterix/field.rs 18-19 Items *)
Definition Items : Type := list (Item * bytes).

(** @src rust/connectors/asterix/src/asterix/field.rs 21-38 Field *)
Inductive Field :=
| Fixed (n : Z)
| Extended (unit : Z)
| Repetitive (n : Z)
| Explicit
| Compound (subs : list Field)
| Spare
| Opaque.

(** Offsets never exceed the length of the buffer by more than one item's, so the
    checked additions of the source cannot overflow. *)

(** The [loop] of an extended item: [n] octets so far. *)
Fixpoint extended_len (fuel : nat) (unit : Z) (data : bytes) (off n : Z) : option Z :=
  match fuel with
  | O => None
  | S fuel =>
      let last := off + (n + unit) - 1 in
      b ← (if zlen data <=? last then None else get data last);
      let n := n + unit in
      if Z.land b 1 =? 0 then Some n else extended_len fuel unit data off n
  end.

(** The seven presence bits of an octet, bit 8 first. *)
Definition octet_bits (octet : Z) : list bool :=
  (λ b, negb (Z.land octet (Z.shiftr 0x80 b) =? 0)) <$> [0; 1; 2; 3; 4; 5; 6].

(** @src rust/connectors/asterix/src/asterix/field.rs 79-93 primary_bits *)
Fixpoint primary_bits (fuel : nat) (data : bytes) (off : Z) : option (list bool) :=
  match fuel with
  | O => None
  | S fuel =>
      octet ← get data off;
      if Z.land octet 1 =? 0 then Some (octet_bits octet)
      else app (octet_bits octet) <$> primary_bits fuel data (off + 1)
  end.

Definition bits_at (data : bytes) (off : Z) : option (list bool) := primary_bits (S (length data)) data off.

(** [bits.len().div_ceil(7)]. *)
Definition bitmap_len (bits : list bool) : Z := (zlen bits + 6) / 7.

(** @src rust/connectors/asterix/src/asterix/field.rs 40-77 field_len *)
Fixpoint field_len (field : Field) (data : bytes) (off : Z) : option Z :=
  match field with
  | Fixed n => Some n
  | Spare => Some 0
  | Extended unit => extended_len (S (length data)) unit data off 0
  | Repetitive item => rep ← get data off; Some (1 + rep * item)
  | Explicit => get data off
  | Compound subs =>
      bits ← bits_at data off;
      (fix walk subs bits total :=
         match subs with
         | [] => if existsb (λ b, b) bits then None else Some total
         | sub :: subs =>
             match bits with
             | [] => Some total
             | true :: bits => len ← field_len sub data (off + total); walk subs bits (total + len)
             | false :: bits => walk subs bits total
             end
         end) subs bits (bitmap_len bits)
  | Opaque => None
  end.

(** The subfields a compound's bits select: lengths added up, as above. *)
Fixpoint subs_len (subs : list Field) (bits : list bool) (data : bytes) (off total : Z) : option Z :=
  match subs with
  | [] => if existsb (λ b, b) bits then None else Some total
  | sub :: subs =>
      match bits with
      | [] => Some total
      | true :: bits => len ← field_len sub data (off + total); subs_len subs bits data off (total + len)
      | false :: bits => subs_len subs bits data off total
      end
  end.

(** The [for] loop of [walk_compound]: a break ends the list. *)
Fixpoint compound_loop (i : nat) (subs : list Field) (bits : list bool) (data : bytes) (off : Z) :
    list (nat * bytes) :=
  match subs, bits with
  | _, [] | [], _ => []
  | _ :: subs, false :: bits => compound_loop (S i) subs bits data off
  | sub :: subs, true :: bits =>
      match field_len sub data off with
      | None => []
      | Some len =>
          match get_range data off (off + len) with
          | None => []
          | Some s => (i, s) :: compound_loop (S i) subs bits data (off + len)
          end
      end
  end.

(** @src rust/connectors/asterix/src/asterix/field.rs 95-121 walk_compound *)
Definition walk_compound (subs : list Field) (data : bytes) : list (nat * bytes) :=
  match bits_at data 0 with
  | None => []
  | Some bits => compound_loop 0 subs bits data (bitmap_len bits)
  end.

(** @src rust/connectors/asterix/src/asterix/field.rs 123-141 block_header *)
Definition block_header (frame : bytes) : res AsterixError (Z * Z) :=
  match frame with
  | cat :: hi :: lo :: _ =>
      let len := be_val [hi; lo] in
      if (len <? 3) || (zlen frame <? len) then Err (BadBlock (Some cat) len (zlen frame))
      else Ok (cat, len)
  | _ => Err (BadBlock None 0 (zlen frame))
  end.

(** The FRNs whose bit is set, numbered from [frn], which saturates at 255. *)
Fixpoint set_frns (frn : Z) (bits : list bool) : list Z :=
  match bits with
  | [] => []
  | b :: bits => (if b then [frn] else []) ++ set_frns (Z.min 255 (frn + 1)) bits
  end.

(** @src rust/connectors/asterix/src/asterix/field.rs 150-164 walk_record *)
Fixpoint fspec (fuel : nat) (data : bytes) (off frn : Z) : res AsterixError (list Z * Z) :=
  match fuel with
  | O => NoFuel
  | S fuel =>
      octet ← ok_or Truncated (get data off);
      let here := set_frns frn (octet_bits octet) in
      let frn := Z.min 255 (frn + 7) in
      if Z.land octet 1 =? 0 then Ok (here, off + 1)
      else '(more, off) ← fspec fuel data (off + 1) frn; Ok (here ++ more, off)
  end.

(** @src rust/connectors/asterix/src/asterix/field.rs 166-181 walk_record *)
Fixpoint walk_items (cat : Z) (uap : list (Item * Field)) (data : bytes) (off : Z) (present : list Z) :
    res AsterixError (Items * Z) :=
  match present with
  | [] => Ok ([], off)
  | frn :: present =>
      '(item, field) ← ok_or (UnsupportedItem cat frn) (get uap (frn - 1));
      len ← match field_len field data off with
            | Some len => Ok len
            | None => Err match field with Opaque | Compound _ => UnsupportedItem cat frn | _ => Truncated end
            end;
      s ← ok_or Truncated (get_range data off (off + len));
      '(items, off) ← walk_items cat uap data (off + len) present;
      Ok ((item, s) :: items, off)
  end.

(** @src rust/connectors/asterix/src/asterix/field.rs 143-183 walk_record *)
Definition walk_record (cat : Z) (uap : list (Item * Field)) (data : bytes) (off : Z) :
    res AsterixError (Items * Z) :=
  '(present, off) ← fspec (S (length data)) data off 1;
  walk_items cat uap data off present.

(** * Lemmas: lengths *)

(** The inner loop of [field_len], named. *)
Lemma field_len_compound subs data off :
  field_len (Compound subs) data off = bits ← bits_at data off; subs_len subs bits data off (bitmap_len bits).
Proof.
  cbn [field_len]. destruct (bits_at data off) as [bits|]; [|done]. cbn.
  generalize (bitmap_len bits) as total. revert bits.
  induction subs as [|sub subs IH]; intros bits total; [done|]. destruct bits as [|[] bits]; [done| |by apply IH].
  cbn. destruct (field_len sub data (off + total)) as [len|]; [|done]. cbn. apply IH.
Qed.

(** Induction over fields with their subfields. *)
Lemma field_ind' (P : Field → Prop) :
  (∀ n, P (Fixed n)) → (∀ u, P (Extended u)) → (∀ n, P (Repetitive n)) → P Explicit →
  (∀ subs, Forall P subs → P (Compound subs)) → P Spare → P Opaque → ∀ f, P f.
Proof.
  intros H1 H2 H3 H4 H5 H6 H7. fix IH 1.
  intros [n|u|n| |subs| |]; [apply H1|apply H2|apply H3|apply H4| |apply H6|apply H7].
  apply H5. induction subs as [|f subs IHs]; constructor; [apply IH|apply IHs].
Qed.

(** A field's own sizes are not negative. *)
Fixpoint sane (f : Field) : Prop :=
  match f with
  | Fixed n | Repetitive n => 0 ≤ n
  | Extended u => 0 < u
  | Compound subs => foldr (λ f P, sane f ∧ P) True subs
  | Explicit | Spare | Opaque => True
  end.

Lemma sane_subs subs : sane (Compound subs) → Forall sane subs.
Proof. induction subs as [|f subs IH]; [constructor|]. intros [Hf Hs]. constructor; [done|by apply IH]. Qed.

(** ** Wire forms *)

(** Octets that end a chain: all but the last of the control octets have their
    FX bit set. *)
Inductive chain (unit : Z) : bytes → Prop :=
| chain_last b x : zlen b = unit - 1 → byte_ok x → Z.odd x = false → chain unit (b ++ [x])
| chain_more b x t : zlen b = unit - 1 → byte_ok x → Z.odd x = true → chain unit t → chain unit (b ++ x :: t).

(** A presence bitmap of these bits. *)
Fixpoint octet_of (bits : list bool) : Z := match bits with [] => 0 | b :: bits => (if b then 2 ^ Z.of_nat (length bits + 1) else 0) + octet_of bits end.

(** The seven bits of an octet with its FX bit. *)
Definition bits_octet (bits : list bool) (fx : bool) : Z := octet_of bits + Z.b2z fx.

Lemma octet_of_bits b1 b2 b3 b4 b5 b6 b7 fx :
  let o := bits_octet [b1; b2; b3; b4; b5; b6; b7] fx in
  octet_bits o = [b1; b2; b3; b4; b5; b6; b7] ∧ (Z.land o 1 =? 0) = negb fx ∧ byte_ok o.
Proof. by destruct b1, b2, b3, b4, b5, b6, b7, fx. Qed.

(** Presence bits in groups of seven, each group an octet that chains to the next. *)
Definition group : Type := bool * bool * bool * bool * bool * bool * bool.
Definition group_bits (g : group) : list bool := let '(b1, b2, b3, b4, b5, b6, b7) := g in [b1; b2; b3; b4; b5; b6; b7].
Fixpoint enc_bitmap (gs : list group) : bytes :=
  match gs with
  | [] => []
  | [g] => [bits_octet (group_bits g) false]
  | g :: gs => bits_octet (group_bits g) true :: enc_bitmap gs
  end.
Definition bitmap_bits (gs : list group) : list bool := gs ≫= group_bits.

Lemma group_octet g fx :
  let o := bits_octet (group_bits g) fx in octet_bits o = group_bits g ∧ (Z.land o 1 =? 0) = negb fx ∧ byte_ok o.
Proof. destruct g as [[[[[[b1 b2] b3] b4] b5] b6] b7]. apply octet_of_bits. Qed.

Lemma enc_bitmap_zlen gs : zlen (enc_bitmap gs) = zlen gs.
Proof.
  induction gs as [|g [|g' gs] IH]; [done|done|].
  change (enc_bitmap (g :: g' :: gs)) with (bits_octet (group_bits g) true :: enc_bitmap (g' :: gs)).
  by rewrite zlen_cons, IH, (zlen_cons g).
Qed.

Lemma bitmap_bits_zlen gs : zlen (bitmap_bits gs) = 7 * zlen gs.
Proof.
  induction gs as [|g gs IH]; [done|]. unfold bitmap_bits. cbn [mbind list_bind]. rewrite zlen_app, zlen_cons.
  change (zlen (gs ≫= group_bits)) with (zlen (bitmap_bits gs)). rewrite IH.
  destruct g as [[[[[[b1 b2] b3] b4] b5] b6] b7]. change (zlen (group_bits _)) with 7. lia.
Qed.

Lemma bitmap_len_enc gs : bitmap_len (bitmap_bits gs) = zlen (enc_bitmap gs).
Proof.
  unfold bitmap_len. rewrite bitmap_bits_zlen, enc_bitmap_zlen.
  symmetry. apply (Z.div_unique_pos _ 7 _ 6); lia.
Qed.

Lemma primary_bits_enc gs : gs ≠ [] → ∀ fuel p t,
  (length gs <= fuel)%nat → primary_bits fuel (p ++ enc_bitmap gs ++ t) (zlen p) = Some (bitmap_bits gs).
Proof.
  induction gs as [|g gs IH]; [done|]. intros _ fuel p t Hf. destruct fuel as [|fuel]; [cbn in Hf; lia|].
  cbn [primary_bits]. destruct gs as [|g' gs].
  - cbn [enc_bitmap app]. rewrite get_at_app. cbn [mbind option_bind].
    destruct (group_octet g false) as (-> & -> & _). cbn [negb]. unfold bitmap_bits. cbn. by rewrite app_nil_r.
  - assert (enc_bitmap (g :: g' :: gs) = bits_octet (group_bits g) true :: enc_bitmap (g' :: gs)) as -> by done.
    rewrite <- app_comm_cons. rewrite get_at_app. cbn [mbind option_bind].
    destruct (group_octet g true) as (-> & -> & _). cbn [negb].
    specialize (IH ltac:(done) fuel (p ++ [bits_octet (group_bits g) true]) t ltac:(cbn in *; lia)).
    rewrite zlen_app, <- app_assoc in IH. cbn [app] in IH. change (zlen [bits_octet (group_bits g) true]) with 1 in IH.
    by rewrite IH.
Qed.

Lemma bits_at_enc gs p t : gs ≠ [] → bits_at (p ++ enc_bitmap gs ++ t) (zlen p) = Some (bitmap_bits gs).
Proof.
  intros. apply primary_bits_enc; [done|]. pose proof (enc_bitmap_zlen gs) as Hz. unfold zlen in Hz.
  rewrite !length_app. lia.
Qed.

(** The octets an item of each kind may be, as the standard has them. *)
Fixpoint wire (f : Field) (b : bytes) : Prop :=
  match f with
  | Fixed n => zlen b = n
  | Extended unit => chain unit b
  | Repetitive n => ∃ rep t, b = rep :: t ∧ zlen t = rep * n
  | Explicit => ∃ t, b = (1 + zlen t) :: t
  | Compound subs =>
      ∃ gs bs, gs ≠ [] ∧ b = enc_bitmap gs ++ concat bs ∧
      (fix go subs bits bs :=
         match subs with
         | [] => existsb (λ b, b) bits = false ∧ bs = []
         | sub :: subs =>
             match bits with
             | [] => bs = []
             | true :: bits => match bs with [] => False | x :: bs => wire sub x ∧ go subs bits bs end
             | false :: bits => go subs bits bs
             end
         end) subs (bitmap_bits gs) bs
  | Spare => b = []
  | Opaque => False
  end.

Fixpoint subs_wire (subs : list Field) (bits : list bool) (bs : list bytes) : Prop :=
  match subs with
  | [] => existsb (λ b, b) bits = false ∧ bs = []
  | sub :: subs =>
      match bits with
      | [] => bs = []
      | true :: bits => match bs with [] => False | x :: bs => wire sub x ∧ subs_wire subs bits bs end
      | false :: bits => subs_wire subs bits bs
      end
  end.

Lemma wire_compound subs b :
  wire (Compound subs) b ↔ ∃ gs bs, gs ≠ [] ∧ b = enc_bitmap gs ++ concat bs ∧ subs_wire subs (bitmap_bits gs) bs.
Proof.
  cbn [wire]. enough (∀ bits bs, (fix go subs bits bs :=
         match subs with
         | [] => existsb (λ b, b) bits = false ∧ bs = []
         | sub :: subs =>
             match bits with
             | [] => bs = []
             | true :: bits => match bs with [] => False | x :: bs => wire sub x ∧ go subs bits bs end
             | false :: bits => go subs bits bs
             end
         end) subs bits bs ↔ subs_wire subs bits bs) as H by (setoid_rewrite H; done).
  induction subs as [|sub subs IH]; intros bits bs; [done|]. destruct bits as [|[] bits]; [done| |apply IH].
  destruct bs as [|x bs]; [done|]. cbn [subs_wire]. by rewrite IH.
Qed.

Lemma odd_land x : byte_ok x → (Z.land x 1 =? 0) = negb (Z.odd x).
Proof. intros _. change 1 with (Z.ones 1). rewrite Z.land_ones by lia. change (2 ^ 1) with 2. rewrite Zmod_odd. by destruct (Z.odd x). Qed.

Lemma extended_len_chain unit b : chain unit b → 0 < unit → ∀ fuel p t n,
  0 ≤ n ≤ zlen p → zlen b ≤ unit * Z.of_nat fuel →
  extended_len fuel unit (p ++ b ++ t) (zlen p - n) n = Some (n + zlen b).
Proof.
  intros Hc Hu. induction Hc as [b x Hb Hx Ho|b x b' Hb Hx Ho Hc IH]; intros fuel p t n Hn Hf;
    (destruct fuel as [|fuel]; [rewrite zlen_app, zlen_cons, Z.mul_0_r in Hf; rewrite ?zlen_nil in Hf;
       pose proof (zlen_nonneg b); try pose proof (zlen_nonneg b'); lia|]); cbn [extended_len].
  - replace (zlen p - n + (n + unit) - 1) with (zlen (p ++ b)) by (rewrite zlen_app; lia).
    replace (p ++ (b ++ [x]) ++ t) with ((p ++ b) ++ x :: t) by (by rewrite <- !app_assoc).
    rewrite (proj2 (Z.leb_gt _ _)) by (rewrite (zlen_app (p ++ b)), zlen_cons; pose proof (zlen_nonneg t); lia).
    rewrite get_at_app. cbn [mbind option_bind]. rewrite odd_land, Ho by done. cbn [negb].
    rewrite zlen_app. change (zlen [x]) with 1. f_equal. lia.
  - replace (zlen p - n + (n + unit) - 1) with (zlen (p ++ b)) by (rewrite zlen_app; lia).
    replace (p ++ (b ++ x :: b') ++ t) with ((p ++ b) ++ x :: b' ++ t) by (by rewrite <- !app_assoc).
    rewrite (proj2 (Z.leb_gt _ _)) by
      (rewrite (zlen_app (p ++ b)), zlen_cons; pose proof (zlen_nonneg (b' ++ t)); lia).
    rewrite get_at_app. cbn [mbind option_bind]. rewrite odd_land, Ho by done. cbn [negb].
    specialize (IH fuel (p ++ b ++ [x]) t (n + unit)).
    assert (zlen (p ++ b ++ [x]) = zlen p + unit) as Hz by (rewrite !zlen_app; change (zlen [x]) with 1; lia).
    rewrite Hz in IH. replace (zlen p + unit - (n + unit)) with (zlen p - n) in IH by lia.
    replace ((p ++ b) ++ x :: b' ++ t) with ((p ++ b ++ [x]) ++ b' ++ t) by (by rewrite <- !app_assoc).
    rewrite zlen_app, zlen_cons, Nat2Z.inj_succ, Z.mul_succ_r in *. rewrite IH by lia. f_equal. lia.
Qed.

Lemma no_bits_len bits subs data off total : existsb (λ b, b) bits = false → subs_len subs bits data off total = Some total.
Proof.
  revert bits. induction subs as [|s subs IH]; intros bits Hb; cbn [subs_len]; [by rewrite Hb|].
  destruct bits as [|[] bits]; [done|done|]. by apply IH.
Qed.

(** The engine measures every item as long as it is. *)
Lemma field_len_wire f : sane f → ∀ p b t, wire f b → field_len f (p ++ b ++ t) (zlen p) = Some (zlen b).
Proof.
  induction f as [n|u|n| |subs IH| |] using field_ind'; intros Hsane p b t Hw.
  - cbn in *. by rewrite Hw.
  - cbn [field_len wire sane] in *.
    pose proof (extended_len_chain u b Hw Hsane (S (length (p ++ b ++ t))) p t 0) as H.
    rewrite Z.sub_0_r in H. rewrite H; [done|pose proof (zlen_nonneg p); lia|].
    rewrite !length_app. unfold zlen. nia.
  - destruct Hw as (rep & r & -> & Hr). cbn [field_len]. rewrite <- app_comm_cons, get_at_app. cbn. by rewrite zlen_cons, Hr.
  - destruct Hw as (r & ->). cbn [field_len]. by rewrite <- app_comm_cons, get_at_app, zlen_cons.
  - apply wire_compound in Hw as (gs & bs & Hgs & -> & Hw). rewrite field_len_compound, <- app_assoc.
    rewrite bits_at_enc by done. cbn [mbind option_bind]. rewrite bitmap_len_enc, zlen_app.
    apply sane_subs in Hsane.
    enough (∀ bits q, subs_wire subs bits bs → subs_len subs bits (p ++ q ++ concat bs ++ t) (zlen p) (zlen q) = Some (zlen q + zlen (concat bs)))
      as H by (by apply H). clear Hw Hgs gs.
    intros bits q. revert bits q bs. induction subs as [|sub subs IHs]; intros bits q bs Hw; cbn [subs_wire subs_len] in *.
    { destruct Hw as [-> ->]. by rewrite Z.add_0_r. }
    apply Forall_cons in IH as [IH1 IH]. apply Forall_cons in Hsane as [Hs1 Hsane].
    destruct bits as [|[] bits]; [by subst; rewrite Z.add_0_r| |by apply IHs].
    destruct bs as [|x bs]; [done|]. destruct Hw as [Hx Hw]. cbn [concat].
    assert (p ++ q ++ (x ++ concat bs) ++ t = (p ++ q) ++ x ++ (concat bs ++ t)) as E by (by rewrite <- !app_assoc).
    rewrite E, <- zlen_app, IH1 by done. cbn [mbind option_bind].
    assert ((p ++ q) ++ x ++ concat bs ++ t = p ++ (q ++ x) ++ concat bs ++ t) as -> by (by rewrite <- !app_assoc).
    rewrite <- zlen_app, IHs by done. rewrite !zlen_app. f_equal. lia.
  - cbn in *. by subst.
  - done.
Qed.

(** ** Records *)

(** The items a record holds, as its presence bits select them from the UAP. *)
Fixpoint items_wire (uap : list (Item * Field)) (bits : list bool) (items : Items) : Prop :=
  match uap with
  | [] => existsb (λ b, b) bits = false ∧ items = []
  | (i, f) :: uap =>
      match bits with
      | [] => items = []
      | true :: bits => match items with [] => False | (j, x) :: items => j = i ∧ wire f x ∧ items_wire uap bits items end
      | false :: bits => items_wire uap bits items
      end
  end.

Definition enc_record (gs : list group) (items : Items) : bytes := enc_bitmap gs ++ concat (items.*2).

Record record_ok (uap : list (Item * Field)) (gs : list group) (items : Items) : Prop := {
  rec_gs : gs ≠ [];
  rec_items : items_wire uap (bitmap_bits gs) items
}.

(** What a category's UAP must be: sane fields, few enough for an FRN octet. *)
Definition uap_ok (uap : list (Item * Field)) : Prop := Forall (λ '(_, f), sane f) uap ∧ zlen uap ≤ 254.

Lemma set_frns_app frn a b : frn ≤ 255 → set_frns frn (a ++ b) = set_frns frn a ++ set_frns (Z.min 255 (frn + zlen a)) b.
Proof.
  revert frn. induction a as [|x a IH]; intros frn Hf; cbn [app set_frns].
  - rewrite zlen_nil, Z.add_0_r. by rewrite Z.min_r.
  - rewrite IH, zlen_cons, <- app_assoc by lia. do 3 f_equal. pose proof (zlen_nonneg a). lia.
Qed.

Lemma set_frns_none bits : ∀ frn, existsb (λ b, b) bits = false → set_frns frn bits = [].
Proof. induction bits as [|[] bits IH]; intros frn Hb; [done|done|]. cbn. by apply IH. Qed.

Lemma fspec_enc gs : gs ≠ [] → ∀ fuel p t frn, (length gs <= fuel)%nat → frn ≤ 255 →
  fspec fuel (p ++ enc_bitmap gs ++ t) (zlen p) frn = Ok (set_frns frn (bitmap_bits gs), zlen (p ++ enc_bitmap gs)).
Proof.
  induction gs as [|g gs IH]; [done|]. intros _ fuel p t frn Hf Hfrn. destruct fuel as [|fuel]; [cbn in Hf; lia|].
  assert (zlen (group_bits g) = 7) as H7 by (by destruct g as [[[[[[b1 b2] b3] b4] b5] b6] b7]).
  cbn [fspec]. destruct gs as [|g' gs].
  - cbn [enc_bitmap app]. rewrite get_at_app. cbn [ok_or mbind res_bind].
    destruct (group_octet g false) as (-> & -> & _). cbn [negb]. unfold bitmap_bits. cbn [mbind list_bind].
    by rewrite app_nil_r, zlen_app.
  - change (enc_bitmap (g :: g' :: gs)) with (bits_octet (group_bits g) true :: enc_bitmap (g' :: gs)).
    rewrite <- app_comm_cons, get_at_app. cbn [ok_or mbind res_bind].
    destruct (group_octet g true) as (-> & -> & _). cbn [negb].
    specialize (IH ltac:(done) fuel (p ++ [bits_octet (group_bits g) true]) t (Z.min 255 (frn + 7)) ltac:(cbn in *; lia) ltac:(lia)).
    rewrite zlen_app, <- app_assoc in IH. cbn [app] in IH. change (zlen [bits_octet (group_bits g) true]) with 1 in IH.
    rewrite IH. cbn [mbind res_bind]. do 2 f_equal.
    + unfold bitmap_bits. rewrite (bind_cons _ g), set_frns_app, H7 by done. done.
    + rewrite <- app_assoc. done.
Qed.

Lemma walk_items_enc cat t : ∀ usuf upre bits items p,
  Forall (λ '(_, f), sane f) usuf → zlen (upre ++ usuf) ≤ 254 → items_wire usuf bits items →
  walk_items cat (upre ++ usuf) (p ++ concat (items.*2) ++ t) (zlen p) (set_frns (zlen upre + 1) bits)
  = Ok (items, zlen (p ++ concat (items.*2))).
Proof.
  induction usuf as [|[i f] usuf IH]; intros upre bits items p Hsane Hl Hw; cbn [items_wire] in Hw.
  { destruct Hw as [Hb ->]. rewrite set_frns_none by done. cbn. by rewrite app_nil_r. }
  apply Forall_cons in Hsane as [Hf Hsane].
  assert (upre ++ (i, f) :: usuf = (upre ++ [(i, f)]) ++ usuf) as E by (by rewrite <- app_assoc).
  assert (Z.min 255 (zlen upre + 1 + 1) = zlen (upre ++ [(i, f)]) + 1) as Hn.
  { rewrite E, !zlen_app, zlen_cons, zlen_nil in Hl. pose proof (zlen_nonneg usuf).
    rewrite zlen_app, zlen_cons, zlen_nil. lia. }
  destruct bits as [|[] bits]; [subst; cbn; by rewrite app_nil_r| |].
  2: { cbn [set_frns app]. rewrite Hn, E. by apply IH; rewrite <- ?E. }
  destruct items as [|[j x] items]; [done|]. destruct Hw as (-> & Hx & Hw).
  cbn [set_frns app walk_items]. replace (zlen upre + 1 - 1) with (zlen upre) by lia. rewrite get_at_app.
  cbn [ok_or mbind res_bind fmap list_fmap concat snd]. rewrite <- app_assoc.
  rewrite field_len_wire by done. cbn [mbind res_bind].
  rewrite get_range_app by done. cbn [ok_or mbind res_bind].
  rewrite <- zlen_app, Hn.
  specialize (IH (upre ++ [(i, f)]) bits items (p ++ x) Hsane ltac:(by rewrite <- E) Hw).
  rewrite <- E, <- !(app_assoc p x) in IH. by rewrite IH.
Qed.

Lemma walk_record_enc cat uap gs items p t :
  uap_ok uap → record_ok uap gs items →
  walk_record cat uap (p ++ enc_record gs items ++ t) (zlen p) = Ok (items, zlen (p ++ enc_record gs items)).
Proof.
  intros [Hs Hl] [Hgs Hi]. unfold walk_record, enc_record. rewrite <- app_assoc.
  rewrite fspec_enc; [|done| |done].
  - cbn [mbind res_bind]. rewrite (app_assoc p). pose proof (walk_items_enc cat t uap [] _ _ (p ++ enc_bitmap gs) Hs Hl Hi) as H.
    cbn [app] in H. change (zlen (@nil (Item * Field)) + 1) with 1 in H. rewrite H. by rewrite <- app_assoc.
  - pose proof (enc_bitmap_zlen gs) as Hz. unfold zlen in Hz. rewrite !length_app. lia.
Qed.

(** ** Any bytes *)

(** How long an item of a kind is at least. *)
Definition len_ok (f : Field) (b : bytes) : Prop :=
  match f with
  | Fixed n => zlen b = n
  | Extended unit => unit ≤ zlen b
  | _ => True
  end.

Lemma get_bound {A} (l : list A) i x : get l i = Some x → 0 ≤ i < zlen l.
Proof. by intros [? _]%get_Some. Qed.

Lemma extended_len_ge fuel unit data off : ∀ n k, 0 < unit → extended_len fuel unit data off n = Some k → n + unit ≤ k.
Proof.
  induction fuel as [|fuel IH]; intros n k Hu H; [done|]. cbn [extended_len] in H.
  destruct (if zlen data <=? _ then None else _) as [b|]; [|done]. cbn in H.
  destruct (_ =? 0); [injection H as <-; lia|]. apply IH in H; lia.
Qed.

Lemma field_len_ok f data off len s :
  sane f → field_len f data off = Some len → get_range data off (off + len) = Some s → len_ok f s.
Proof.
  intros Hf Hl Hs. apply get_range_len in Hs as Hz. destruct f; try done; cbn [field_len sane len_ok] in *.
  - injection Hl as <-. lia.
  - apply extended_len_ge in Hl; lia.
Qed.

Lemma fspec_spec fuel data : ∀ off frn, 0 ≤ off → zlen data - off < Z.of_nat fuel → (0 < fuel)%nat →
  match fspec fuel data off frn with
  | Ok (present, off') => off < off' ≤ zlen data
  | Err _ => True
  | _ => False
  end.
Proof.
  induction fuel as [|fuel IH]; intros off frn Ho Hf; cbn [fspec]; [lia|].
  intros _. destruct (get data off) as [o|] eqn:Hg; [|done]. apply get_bound in Hg. cbn [ok_or mbind res_bind].
  destruct (_ =? 0); [lia|]. specialize (IH (off + 1) (Z.min 255 (frn + 7)) ltac:(lia) ltac:(lia) ltac:(lia)).
  destruct (fspec fuel data (off + 1) _) as [[more off']| | |]; try done. cbn. lia.
Qed.

(** Each item of a record is of its UAP entry's kind. *)
Definition item_of (uap : list (Item * Field)) (it : Item * bytes) : Prop := ∃ f, (it.1, f) ∈ uap ∧ len_ok f it.2.

Lemma walk_items_spec cat uap data : Forall (λ '(_, f), sane f) uap → ∀ present off,
  0 ≤ off ≤ zlen data →
  match walk_items cat uap data off present with
  | Ok (items, off') => off ≤ off' ≤ zlen data ∧ Forall (item_of uap) items
  | Err _ => True
  | _ => False
  end.
Proof.
  intros Hu. induction present as [|frn present IH]; intros off Ho; cbn [walk_items]; [split; [lia|constructor]|].
  destruct (get uap (frn - 1)) as [[i f]|] eqn:Hg; [|done]. cbn [ok_or mbind res_bind].
  apply get_Some in Hg as [_ Hg]. apply list_elem_of_lookup_2 in Hg.
  pose proof (proj1 (Forall_forall _ _) Hu _ Hg) as Hf. cbn in Hf.
  destruct (field_len f data off) as [len|] eqn:Hl; [|done]. cbn [mbind res_bind].
  destruct (get_range data off (off + len)) as [s|] eqn:Hs; [|done]. cbn [ok_or mbind res_bind].
  pose proof Hs as (Hb & Hc & _)%get_range_Some.
  specialize (IH (off + len) ltac:(lia)). destruct (walk_items _ _ _ _ present) as [[items off']| | |]; try done. cbn.
  destruct IH as [H1 H2]. split; [lia|]. constructor; [|done]. exists f. split; [done|]. by eapply field_len_ok.
Qed.

Lemma walk_record_spec cat uap data off :
  Forall (λ '(_, f), sane f) uap → 0 ≤ off →
  match walk_record cat uap data off with
  | Ok (items, off') => off < off' ≤ zlen data ∧ Forall (item_of uap) items
  | Err _ => True
  | _ => False
  end.
Proof.
  intros Hu Ho. unfold walk_record. pose proof (fspec_spec (S (length data)) data off 1 Ho) as H.
  destruct (fspec _ _ _ _) as [[present off']| | |]; [|done|exfalso; apply H; [unfold zlen; lia|lia]..].
  cbn [mbind res_bind]. specialize (H ltac:(unfold zlen in *; lia) ltac:(lia)).
  pose proof (walk_items_spec cat uap data Hu present off' ltac:(lia)) as Hw.
  destruct (walk_items _ _ _ _ _) as [[items off'']| | |]; try done. destruct Hw. split; [lia|done].
Qed.

(** The subfields [walk_compound] yields are of their kinds. *)
Lemma compound_loop_spec data subs : Forall sane subs → ∀ i bits off,
  Forall (λ '(k, s), ∃ f, subs !! (k - i)%nat = Some f ∧ len_ok f s ∧ (i <= k)%nat) (compound_loop i subs bits data off).
Proof.
  induction 1 as [|f subs Hf Hs IH]; intros i bits off; cbn [compound_loop]; [by destruct bits; constructor|].
  assert (∀ off bits, Forall (λ '(k, s), ∃ f', (f :: subs) !! (k - i)%nat = Some f' ∧ len_ok f' s ∧ (i <= k)%nat)
    (compound_loop (S i) subs bits data off)) as Hrest.
  { intros off' bits'. eapply Forall_impl; [apply IH|]. intros [k s] (f' & Hl & Hk & Hi). exists f'.
    replace (k - i)%nat with (S (k - S i)) by lia. split; [done|]. split; [done|lia]. }
  destruct bits as [|[] bits]; [constructor| |apply Hrest].
  destruct (field_len f data off) as [len|] eqn:Hl; [|constructor].
  destruct (get_range data off (off + len)) as [s|] eqn:Hg; [|constructor].
  constructor; [|apply Hrest]. exists f. rewrite Nat.sub_diag. split; [done|]. split; [by eapply field_len_ok|lia].
Qed.

Lemma walk_compound_spec subs data :
  Forall sane subs → Forall (λ '(k, s), ∃ f, subs !! k = Some f ∧ len_ok f s) (walk_compound subs data).
Proof.
  intros Hs. unfold walk_compound. destruct (bits_at data 0) as [bits|]; [|constructor].
  eapply Forall_impl; [by apply compound_loop_spec|]. intros [k s] (f & Hl & Hk & _). exists f.
  by rewrite Nat.sub_0_r in Hl.
Qed.

Lemma block_header_spec frame :
  match block_header frame with
  | Ok (cat, len) => 3 ≤ len ≤ zlen frame
  | Err _ => True
  | _ => False
  end.
Proof.
  unfold block_header. destruct frame as [|cat [|hi [|lo t]]]; try done. cbv zeta.
  destruct ((be_val [hi; lo] <? 3) || _) eqn:Hb; [done|]. bool_prop. lia.
Qed.
