(* ===== verification/AstWire.v ===== *)
(** The ASTERIX value decoders and the target report
    (rust/connectors/asterix/src/asterix/wire.rs, asterix.rs). *)
From Stdlib Require Import ZArith Lia.
From Stdlib Require Import Strings.String.
From S2P Require Export AstField Dyadic.

Local Open Scope Z_scope.

Abbreviation ares := (res AsterixError).

(** * Values *)

Fixpoint be_loop (n : nat) (data : bytes) (start v : Z) : ares Z :=
  match n with
  | O => Ok v
  | S n => b ← idx data start; be_loop n data (start + 1) (wrap 64 (Z.lor (Z.shiftl v 8) b))
  end.

(** @src rust/connectors/asterix/src/asterix/wire.rs 4-11 be_uint *)
Definition be_uint (data : bytes) (start : Z) (n : nat) : ares Z := be_loop n data start 0.

(** @src rust/connectors/asterix/src/asterix/wire.rs 18-22 sign_extend *)
Definition sign_extend (v bits : Z) : Z :=
  let shift := 64 - bits in Z.shiftr (to_signed 64 (wrap 64 (Z.shiftl v shift))) shift.

(** @src rust/connectors/asterix/src/asterix/wire.rs 13-16 signed *)
Definition signed (data : bytes) (start : Z) (n : nat) : ares f64 :=
  v ← be_uint data start n; Ok (f_of_Z (sign_extend v (8 * Z.of_nat n))).

(** @src rust/connectors/asterix/src/asterix/wire.rs 24-27 time_of_day_s *)
Definition time_of_day (item : bytes) : ares f64 := v ← be_uint item 0 3; Ok (f_div (f_of_Z v) (f_of_Z 128)).

(** @src rust/connectors/asterix/src/asterix/wire.rs 29-39 mode_3a *)
Definition mode_3a (v : Z) : string :=
  let code := Z.land v 0x0FFF in
  (show (Z.land (Z.shiftr code 9) 7) ++ show (Z.land (Z.shiftr code 6) 7)
   ++ show (Z.land (Z.shiftr code 3) 7) ++ show (Z.land code 7))%string.

(** One ICAO 6-bit character. *)
Definition icao_char (c : Z) : Z :=
  if (1 <=? c) && (c <=? 26) then 65 + c - 1 else if (48 <=? c) && (c <=? 57) then 48 + c - 48 else 32.

(** @src rust/connectors/asterix/src/asterix/wire.rs 41-58 aircraft_id *)
Definition aircraft_id (item : bytes) : ares (option string) :=
  if zlen item <? 6 then Ok None
  else
    v ← be_uint item 0 6;
    let s := trim ((λ k, icao_char (Z.land (Z.shiftr v (42 - 6 * k)) 0x3F)) <$> [0; 1; 2; 3; 4; 5; 6; 7]) in
    Ok (match s with [] => None | _ => Some (b2s s) end).

(** [u16::from_be_bytes([item[i], item[i + 1]])]. *)
Definition u16_at (item : bytes) (i : Z) : ares Z := a ← idx item i; b ← idx item (i + 1); Ok (a * 256 + b).
(** The same as an [i16]. *)
Definition i16_at (item : bytes) (i : Z) : ares Z := v ← u16_at item i; Ok (to_signed 16 v).

(** A flag of an octet. *)
Definition flag (o m : Z) : bool := negb (Z.land o m =? 0).

(** * Constants *)

(** @src rust/connectors/asterix/src/asterix.rs 34-38 CAT010 CAT021 CAT034 CAT048 CAT062 *)
Definition CAT010 : Z := 10.
Definition CAT021 : Z := 21.
Definition CAT034 : Z := 34.
Definition CAT048 : Z := 48.
Definition CAT062 : Z := 62.

(** @src rust/connectors/asterix/src/asterix.rs 40-46 KNOTS_TO_MPS NM_TO_M FT_TO_M ANGLE_16 SPEED_LSB_KN *)
Definition KNOTS_TO_MPS : f64 := f_ratio 514444 1000000.
Definition NM_TO_M : f64 := f_of_Z 1852.
Definition FT_TO_M : f64 := f_ratio 3048 10000.
Definition ANGLE_16 : f64 := f_ratio 360 65536.
Definition SPEED_LSB_KN : f64 := f_ratio 3600 16384.

(** @src rust/connectors/asterix/src/asterix.rs 132-139 Sensor *)
Record Sensor := mkSensor { s_lat : f64; s_lon : f64; s_alt_m : f64 }.

(** @src rust/connectors/asterix/src/asterix.rs 141-141 EARTH_RADIUS_M *)
Definition EARTH_RADIUS_M : f64 := f_of_Z 6371000.

(** @src rust/connectors/asterix/src/asterix.rs 143-151 forward_geodetic *)
Definition forward_geodetic `{Trig} (lat lon bearing_deg dist_m : f64) : f64 * f64 :=
  let d := f_div dist_m EARTH_RADIUS_M in
  let br := to_radians bearing_deg in
  let lat1 := to_radians lat in
  let lon1 := to_radians lon in
  let lat2 := asin (f_add (f_mul (sin lat1) (cos d)) (f_mul (f_mul (cos lat1) (sin d)) (cos br))) in
  let lon2 := f_add lon1 (atan2 (f_mul (f_mul (sin br) (sin d)) (cos lat1)) (f_sub (cos d) (f_mul (sin lat1) (sin lat2)))) in
  (to_degrees lat2, to_degrees lon2).

(** [v.atan2(w).to_degrees().rem_euclid(360.0)]. *)
Definition bearing `{Trig} (east north : f64) : f64 := rem_euclid (to_degrees (atan2 east north)) (f_of_Z 360).

(** * The target report *)

(** @src rust/connectors/asterix/src/asterix.rs 73-123 AsterixTarget *)
Record AsterixTarget := mkTarget {
  category : Z;
  sac : Z;
  sic : Z;
  track : option Z;
  icao : option Z;
  lat : option f64;
  lon : option f64;
  polar : option (f64 * f64);
  cartesian_m : option (f64 * f64);
  message_type : option Z;
  report_type : option string;
  vehicle_fleet : option string;
  t_size : option (f64 * option f64 * option f64);
  position_sd_m : option (f64 * f64);
  accuracy_v_m : option f64;
  velocity_sd_mps : option (f64 * f64);
  alt_ft : option f64;
  ground_speed_kn : option f64;
  track_angle_deg : option f64;
  vertical_rate_ftmin : option f64;
  squawk : option string;
  callsign : option string;
  emitter : option string;
  time_of_day_s : option f64;
  simulated : bool;
  test_target : bool;
  field_monitor : bool;
  raw : bytes
}.

(** ** Assignments to a field *)

Definition set_site (v0 : Z) (v1 : Z) (t : AsterixTarget) : AsterixTarget :=
  let '(mkTarget a0 _ _ a3 a4 a5 a6 a7 a8 a9 a10 a11 a12 a13 a14 a15 a16 a17 a18 a19 a20 a21 a22 a23 a24 a25 a26 a27) := t in
  mkTarget a0 v0 v1 a3 a4 a5 a6 a7 a8 a9 a10 a11 a12 a13 a14 a15 a16 a17 a18 a19 a20 a21 a22 a23 a24 a25 a26 a27.

Definition set_track (v0 : option Z) (t : AsterixTarget) : AsterixTarget :=
  let '(mkTarget a0 a1 a2 _ a4 a5 a6 a7 a8 a9 a10 a11 a12 a13 a14 a15 a16 a17 a18 a19 a20 a21 a22 a23 a24 a25 a26 a27) := t in
  mkTarget a0 a1 a2 v0 a4 a5 a6 a7 a8 a9 a10 a11 a12 a13 a14 a15 a16 a17 a18 a19 a20 a21 a22 a23 a24 a25 a26 a27.

Definition set_icao (v0 : option Z) (t : AsterixTarget) : AsterixTarget :=
  let '(mkTarget a0 a1 a2 a3 _ a5 a6 a7 a8 a9 a10 a11 a12 a13 a14 a15 a16 a17 a18 a19 a20 a21 a22 a23 a24 a25 a26 a27) := t in
  mkTarget a0 a1 a2 a3 v0 a5 a6 a7 a8 a9 a10 a11 a12 a13 a14 a15 a16 a17 a18 a19 a20 a21 a22 a23 a24 a25 a26 a27.

Definition set_latlon (v0 : option f64) (v1 : option f64) (t : AsterixTarget) : AsterixTarget :=
  let '(mkTarget a0 a1 a2 a3 a4 _ _ a7 a8 a9 a10 a11 a12 a13 a14 a15 a16 a17 a18 a19 a20 a21 a22 a23 a24 a25 a26 a27) := t in
  mkTarget a0 a1 a2 a3 a4 v0 v1 a7 a8 a9 a10 a11 a12 a13 a14 a15 a16 a17 a18 a19 a20 a21 a22 a23 a24 a25 a26 a27.

Definition set_polar (v0 : option (f64 * f64)) (t : AsterixTarget) : AsterixTarget :=
  let '(mkTarget a0 a1 a2 a3 a4 a5 a6 _ a8 a9 a10 a11 a12 a13 a14 a15 a16 a17 a18 a19 a20 a21 a22 a23 a24 a25 a26 a27) := t in
  mkTarget a0 a1 a2 a3 a4 a5 a6 v0 a8 a9 a10 a11 a12 a13 a14 a15 a16 a17 a18 a19 a20 a21 a22 a23 a24 a25 a26 a27.

Definition set_cartesian (v0 : option (f64 * f64)) (t : AsterixTarget) : AsterixTarget :=
  let '(mkTarget a0 a1 a2 a3 a4 a5 a6 a7 _ a9 a10 a11 a12 a13 a14 a15 a16 a17 a18 a19 a20 a21 a22 a23 a24 a25 a26 a27) := t in
  mkTarget a0 a1 a2 a3 a4 a5 a6 a7 v0 a9 a10 a11 a12 a13 a14 a15 a16 a17 a18 a19 a20 a21 a22 a23 a24 a25 a26 a27.

Definition set_message_type (v0 : option Z) (t : AsterixTarget) : AsterixTarget :=
  let '(mkTarget a0 a1 a2 a3 a4 a5 a6 a7 a8 _ a10 a11 a12 a13 a14 a15 a16 a17 a18 a19 a20 a21 a22 a23 a24 a25 a26 a27) := t in
  mkTarget a0 a1 a2 a3 a4 a5 a6 a7 a8 v0 a10 a11 a12 a13 a14 a15 a16 a17 a18 a19 a20 a21 a22 a23 a24 a25 a26 a27.

Definition set_report_type (v0 : option string) (t : AsterixTarget) : AsterixTarget :=
  let '(mkTarget a0 a1 a2 a3 a4 a5 a6 a7 a8 a9 _ a11 a12 a13 a14 a15 a16 a17 a18 a19 a20 a21 a22 a23 a24 a25 a26 a27) := t in
  mkTarget a0 a1 a2 a3 a4 a5 a6 a7 a8 a9 v0 a11 a12 a13 a14 a15 a16 a17 a18 a19 a20 a21 a22 a23 a24 a25 a26 a27.

Definition set_fleet (v0 : option string) (t : AsterixTarget) : AsterixTarget :=
  let '(mkTarget a0 a1 a2 a3 a4 a5 a6 a7 a8 a9 a10 _ a12 a13 a14 a15 a16 a17 a18 a19 a20 a21 a22 a23 a24 a25 a26 a27) := t in
  mkTarget a0 a1 a2 a3 a4 a5 a6 a7 a8 a9 a10 v0 a12 a13 a14 a15 a16 a17 a18 a19 a20 a21 a22 a23 a24 a25 a26 a27.

Definition set_size (v0 : option (f64 * option f64 * option f64)) (t : AsterixTarget) : AsterixTarget :=
  let '(mkTarget a0 a1 a2 a3 a4 a5 a6 a7 a8 a9 a10 a11 _ a13 a14 a15 a16 a17 a18 a19 a20 a21 a22 a23 a24 a25 a26 a27) := t in
  mkTarget a0 a1 a2 a3 a4 a5 a6 a7 a8 a9 a10 a11 v0 a13 a14 a15 a16 a17 a18 a19 a20 a21 a22 a23 a24 a25 a26 a27.

Definition set_position_sd (v0 : option (f64 * f64)) (t : AsterixTarget) : AsterixTarget :=
  let '(mkTarget a0 a1 a2 a3 a4 a5 a6 a7 a8 a9 a10 a11 a12 _ a14 a15 a16 a17 a18 a19 a20 a21 a22 a23 a24 a25 a26 a27) := t in
  mkTarget a0 a1 a2 a3 a4 a5 a6 a7 a8 a9 a10 a11 a12 v0 a14 a15 a16 a17 a18 a19 a20 a21 a22 a23 a24 a25 a26 a27.

Definition set_accuracy_v (v0 : option f64) (t : AsterixTarget) : AsterixTarget :=
  let '(mkTarget a0 a1 a2 a3 a4 a5 a6 a7 a8 a9 a10 a11 a12 a13 _ a15 a16 a17 a18 a19 a20 a21 a22 a23 a24 a25 a26 a27) := t in
  mkTarget a0 a1 a2 a3 a4 a5 a6 a7 a8 a9 a10 a11 a12 a13 v0 a15 a16 a17 a18 a19 a20 a21 a22 a23 a24 a25 a26 a27.

Definition set_velocity_sd (v0 : option (f64 * f64)) (t : AsterixTarget) : AsterixTarget :=
  let '(mkTarget a0 a1 a2 a3 a4 a5 a6 a7 a8 a9 a10 a11 a12 a13 a14 _ a16 a17 a18 a19 a20 a21 a22 a23 a24 a25 a26 a27) := t in
  mkTarget a0 a1 a2 a3 a4 a5 a6 a7 a8 a9 a10 a11 a12 a13 a14 v0 a16 a17 a18 a19 a20 a21 a22 a23 a24 a25 a26 a27.

Definition set_alt (v0 : option f64) (t : AsterixTarget) : AsterixTarget :=
  let '(mkTarget a0 a1 a2 a3 a4 a5 a6 a7 a8 a9 a10 a11 a12 a13 a14 a15 _ a17 a18 a19 a20 a21 a22 a23 a24 a25 a26 a27) := t in
  mkTarget a0 a1 a2 a3 a4 a5 a6 a7 a8 a9 a10 a11 a12 a13 a14 a15 v0 a17 a18 a19 a20 a21 a22 a23 a24 a25 a26 a27.

Definition set_velocity (v0 : option f64) (v1 : option f64) (t : AsterixTarget) : AsterixTarget :=
  let '(mkTarget a0 a1 a2 a3 a4 a5 a6 a7 a8 a9 a10 a11 a12 a13 a14 a15 a16 _ _ a19 a20 a21 a22 a23 a24 a25 a26 a27) := t in
  mkTarget a0 a1 a2 a3 a4 a5 a6 a7 a8 a9 a10 a11 a12 a13 a14 a15 a16 v0 v1 a19 a20 a21 a22 a23 a24 a25 a26 a27.

Definition set_speed (v0 : option f64) (t : AsterixTarget) : AsterixTarget :=
  let '(mkTarget a0 a1 a2 a3 a4 a5 a6 a7 a8 a9 a10 a11 a12 a13 a14 a15 a16 _ a18 a19 a20 a21 a22 a23 a24 a25 a26 a27) := t in
  mkTarget a0 a1 a2 a3 a4 a5 a6 a7 a8 a9 a10 a11 a12 a13 a14 a15 a16 v0 a18 a19 a20 a21 a22 a23 a24 a25 a26 a27.

Definition set_angle (v0 : option f64) (t : AsterixTarget) : AsterixTarget :=
  let '(mkTarget a0 a1 a2 a3 a4 a5 a6 a7 a8 a9 a10 a11 a12 a13 a14 a15 a16 a17 _ a19 a20 a21 a22 a23 a24 a25 a26 a27) := t in
  mkTarget a0 a1 a2 a3 a4 a5 a6 a7 a8 a9 a10 a11 a12 a13 a14 a15 a16 a17 v0 a19 a20 a21 a22 a23 a24 a25 a26 a27.

Definition set_vertical_rate (v0 : option f64) (t : AsterixTarget) : AsterixTarget :=
  let '(mkTarget a0 a1 a2 a3 a4 a5 a6 a7 a8 a9 a10 a11 a12 a13 a14 a15 a16 a17 a18 _ a20 a21 a22 a23 a24 a25 a26 a27) := t in
  mkTarget a0 a1 a2 a3 a4 a5 a6 a7 a8 a9 a10 a11 a12 a13 a14 a15 a16 a17 a18 v0 a20 a21 a22 a23 a24 a25 a26 a27.

Definition set_squawk (v0 : option string) (t : AsterixTarget) : AsterixTarget :=
  let '(mkTarget a0 a1 a2 a3 a4 a5 a6 a7 a8 a9 a10 a11 a12 a13 a14 a15 a16 a17 a18 a19 _ a21 a22 a23 a24 a25 a26 a27) := t in
  mkTarget a0 a1 a2 a3 a4 a5 a6 a7 a8 a9 a10 a11 a12 a13 a14 a15 a16 a17 a18 a19 v0 a21 a22 a23 a24 a25 a26 a27.

Definition set_callsign (v0 : option string) (t : AsterixTarget) : AsterixTarget :=
  let '(mkTarget a0 a1 a2 a3 a4 a5 a6 a7 a8 a9 a10 a11 a12 a13 a14 a15 a16 a17 a18 a19 a20 _ a22 a23 a24 a25 a26 a27) := t in
  mkTarget a0 a1 a2 a3 a4 a5 a6 a7 a8 a9 a10 a11 a12 a13 a14 a15 a16 a17 a18 a19 a20 v0 a22 a23 a24 a25 a26 a27.

Definition set_emitter (v0 : option string) (t : AsterixTarget) : AsterixTarget :=
  let '(mkTarget a0 a1 a2 a3 a4 a5 a6 a7 a8 a9 a10 a11 a12 a13 a14 a15 a16 a17 a18 a19 a20 a21 _ a23 a24 a25 a26 a27) := t in
  mkTarget a0 a1 a2 a3 a4 a5 a6 a7 a8 a9 a10 a11 a12 a13 a14 a15 a16 a17 a18 a19 a20 a21 v0 a23 a24 a25 a26 a27.

Definition set_tod (v0 : option f64) (t : AsterixTarget) : AsterixTarget :=
  let '(mkTarget a0 a1 a2 a3 a4 a5 a6 a7 a8 a9 a10 a11 a12 a13 a14 a15 a16 a17 a18 a19 a20 a21 a22 _ a24 a25 a26 a27) := t in
  mkTarget a0 a1 a2 a3 a4 a5 a6 a7 a8 a9 a10 a11 a12 a13 a14 a15 a16 a17 a18 a19 a20 a21 a22 v0 a24 a25 a26 a27.

Definition set_flags (v0 : bool) (v1 : bool) (v2 : bool) (t : AsterixTarget) : AsterixTarget :=
  let '(mkTarget a0 a1 a2 a3 a4 a5 a6 a7 a8 a9 a10 a11 a12 a13 a14 a15 a16 a17 a18 a19 a20 a21 a22 a23 _ _ _ a27) := t in
  mkTarget a0 a1 a2 a3 a4 a5 a6 a7 a8 a9 a10 a11 a12 a13 a14 a15 a16 a17 a18 a19 a20 a21 a22 a23 v0 v1 v2 a27.

Definition set_test (v0 : bool) (t : AsterixTarget) : AsterixTarget :=
  let '(mkTarget a0 a1 a2 a3 a4 a5 a6 a7 a8 a9 a10 a11 a12 a13 a14 a15 a16 a17 a18 a19 a20 a21 a22 a23 a24 _ a26 a27) := t in
  mkTarget a0 a1 a2 a3 a4 a5 a6 a7 a8 a9 a10 a11 a12 a13 a14 a15 a16 a17 a18 a19 a20 a21 a22 a23 a24 v0 a26 a27.

Definition set_sim_rab (v0 : bool) (v1 : bool) (t : AsterixTarget) : AsterixTarget :=
  let '(mkTarget a0 a1 a2 a3 a4 a5 a6 a7 a8 a9 a10 a11 a12 a13 a14 a15 a16 a17 a18 a19 a20 a21 a22 a23 _ a25 _ a27) := t in
  mkTarget a0 a1 a2 a3 a4 a5 a6 a7 a8 a9 a10 a11 a12 a13 a14 a15 a16 a17 a18 a19 a20 a21 a22 a23 v0 a25 v1 a27.

Definition set_raw (v0 : bytes) (t : AsterixTarget) : AsterixTarget :=
  let '(mkTarget a0 a1 a2 a3 a4 a5 a6 a7 a8 a9 a10 a11 a12 a13 a14 a15 a16 a17 a18 a19 a20 a21 a22 a23 a24 a25 a26 _) := t in
  mkTarget a0 a1 a2 a3 a4 a5 a6 a7 a8 a9 a10 a11 a12 a13 a14 a15 a16 a17 a18 a19 a20 a21 a22 a23 a24 a25 a26 v0.

(** [AsterixTarget { category, ..Default::default() }]. *)
Definition new_target (c : Z) : AsterixTarget :=
  mkTarget c 0 0 None None None None None None None None None None None None None None None None None None None None None
    false false false [].

(** @src rust/connectors/asterix/src/asterix.rs 125-130 AsterixTarget::set_pos *)
Definition set_pos (la lo : f64) : AsterixTarget → AsterixTarget := set_latlon (Some la) (Some lo).

(** The [for] loop over the items of a record. *)
Fixpoint for_items {A B} (f : A → B → ares A) (items : list B) (t : A) : ares A :=
  match items with
  | [] => Ok t
  | it :: items => t ← f t it; for_items f items t
  end.

(** * Lemmas *)

Lemma for_items_safe {A B} (f : A → B → ares A) (P : B → Prop) items :
  (∀ t it, P it → safe (f t it)) → Forall P items → ∀ t, safe (for_items f items t).
Proof.
  intros Hf. induction 1 as [|it items Hit Hs IH]; intros t; [done|]. cbn [for_items].
  apply safe_bind; [by apply Hf|]. intros t' _. apply IH.
Qed.

Lemma be_loop_safe n data : ∀ start v, 0 ≤ start → start + Z.of_nat n ≤ zlen data → safe (be_loop n data start v).
Proof.
  induction n as [|n IH]; intros start v Hs Hn; [done|]. cbn [be_loop].
  apply safe_bind; [apply safe_idx; lia|]. intros b _. apply IH; lia.
Qed.

Lemma be_uint_safe data start n : 0 ≤ start → start + Z.of_nat n ≤ zlen data → safe (be_uint data start n).
Proof. apply be_loop_safe. Qed.

Lemma signed_safe data start n : 0 ≤ start → start + Z.of_nat n ≤ zlen data → safe (signed data start n).
Proof. intros. apply safe_bind; [by apply be_uint_safe|done]. Qed.

Lemma time_of_day_safe item : 3 ≤ zlen item → safe (time_of_day item).
Proof. intros. apply safe_bind; [apply be_uint_safe; lia|done]. Qed.

Lemma aircraft_id_safe item : safe (aircraft_id item).
Proof.
  unfold aircraft_id. destruct (Z.ltb_spec (zlen item) 6); [done|].
  apply safe_bind; [apply be_uint_safe; lia|done].
Qed.

Lemma u16_at_safe item i : 0 ≤ i → i + 2 ≤ zlen item → safe (u16_at item i).
Proof. intros. apply safe_bind; [apply safe_idx; lia|]. intros a _. apply safe_bind; [apply safe_idx; lia|done]. Qed.

Lemma i16_at_safe item i : 0 ≤ i → i + 2 ≤ zlen item → safe (i16_at item i).
Proof. intros. apply safe_bind; [by apply u16_at_safe|done]. Qed.

Create HintDb asterix.
#[export] Hint Resolve be_uint_safe signed_safe time_of_day_safe aircraft_id_safe u16_at_safe i16_at_safe : asterix.

(** ** Values, exactly *)

Lemma be_loop_spec l : ∀ p t v, bytes_ok l → 0 ≤ v → v * 256 ^ zlen l + be_val l < 2 ^ 64 →
  be_loop (length l) (p ++ l ++ t) (zlen p) v = Ok (v * 256 ^ zlen l + be_val l).
Proof.
  induction l as [|b l IH]; intros p t v Hb Hv Hl; cbn [be_loop length].
  - change (256 ^ zlen []) with 1. change (be_val []) with 0. f_equal. lia.
  - apply Forall_cons in Hb as [Hb Hbs]. unfold idx. rewrite <- app_comm_cons, get_at_app. cbn [or_panic mbind res_bind].
    rewrite zlen_cons, Z.pow_add_r, be_val_cons in * by (pose proof (zlen_nonneg l); lia). change (256 ^ 1) with 256 in *.
    pose proof (be_val_range l Hbs). unfold byte_ok in Hb.
    rewrite (lor_shiftl v b 8) by (change (2 ^ 8) with 256; lia). change (2 ^ 8) with 256.
    rewrite wrap_small by nia.
    specialize (IH (p ++ [b]) t (v * 256 + b)). rewrite zlen_app, <- app_assoc in IH. cbn [app] in IH.
    change (zlen [b]) with 1 in IH. rewrite IH; [f_equal; ring|done|lia|]. nia.
Qed.

(** An [n]-octet field is its big-endian value, and its two's complement. *)
Lemma be_uint_at p l t n : n = length l → bytes_ok l → (n <= 7)%nat → be_uint (p ++ l ++ t) (zlen p) n = Ok (be_val l).
Proof.
  intros -> Hb Hn. unfold be_uint. pose proof (be_val_range l Hb) as Hr.
  rewrite be_loop_spec; [done|done|lia|]. rewrite Z.mul_0_l, Z.add_0_l.
  assert (256 ^ zlen l ≤ 256 ^ 7) by (apply Z.pow_le_mono_r; unfold zlen; lia). change (2 ^ 64) with (256 ^ 8).
  change (256 ^ 8) with (256 * 256 ^ 7). lia.
Qed.

Lemma sign_extend_spec v w : 0 < w < 64 → 0 ≤ v < 2 ^ w → sign_extend v w = to_signed w v.
Proof.
  intros Hw Hv. unfold sign_extend. rewrite Z.shiftl_mul_pow2, Z.shiftr_div_pow2 by lia.
  set (s := 64 - w). assert (2 ^ 64 = 2 ^ w * 2 ^ s) as E by (rewrite <- Z.pow_add_r by lia; f_equal; lia).
  assert (2 ^ w = 2 * 2 ^ (w - 1)) as Ew by (rewrite <- Z.pow_succ_r by lia; f_equal; lia).
  assert (2 ^ (64 - 1) = 2 ^ (w - 1) * 2 ^ s) as E' by (rewrite <- Z.pow_add_r by lia; f_equal; lia).
  pose proof (Z.pow_pos_nonneg 2 s ltac:(lia) ltac:(lia)) as Hs.
  rewrite wrap_small by nia. unfold to_signed. rewrite E', E.
  rewrite <- (ltb_iff v (2 ^ (w - 1))) by nia. destruct (Z.ltb_spec v (2 ^ (w - 1))).
  - by rewrite Z.div_mul by lia.
  - replace (v * 2 ^ s - 2 ^ w * 2 ^ s) with ((v - 2 ^ w) * 2 ^ s) by ring. by rewrite Z.div_mul by lia.
Qed.
