(* ===== verification/AstCat.v ===== *)
(** The ASTERIX categories (rust/connectors/asterix/src/asterix/cat010.rs,
    cat021.rs, cat034.rs, cat048.rs, cat062.rs): their UAPs and the decoders of a
    record's items. *)
From Stdlib Require Import ZArith Lia.
From Stdlib Require Import Strings.String.
From S2P Require Export AstWire.

Local Open Scope Z_scope.

(** * CAT010 *)

(** @src rust/connectors/asterix/src/asterix/cat010.rs 12-41 UAP *)
Definition UAP_010 : list (Item * Field) :=
  [(10, Fixed 2); (0, Fixed 1); (20, Extended 1); (140, Fixed 3); (41, Fixed 8); (40, Fixed 4);
   (42, Fixed 4); (200, Fixed 4); (202, Fixed 4); (161, Fixed 2); (170, Extended 1); (60, Fixed 2);
   (220, Fixed 3); (245, Fixed 7); (250, Repetitive 8); (300, Fixed 1); (90, Fixed 2); (91, Fixed 2);
   (270, Extended 1); (550, Fixed 1); (310, Fixed 1); (500, Fixed 4); (280, Repetitive 2); (131, Fixed 1);
   (210, Fixed 2); (SPARE, Spare); (SP, Explicit); (RE, Explicit)].

(** @src rust/connectors/asterix/src/asterix/cat010.rs 42-45 LSB_041 TARGET_REPORT *)
Definition LSB_041 : f64 := f_ratio 180 (2 ^ 31).
Definition TARGET_REPORT : Z := 1.

(** @src rust/connectors/asterix/src/asterix/cat010.rs 149-170 vehicle_fleet *)
Definition fleet_name (code : Z) : option string :=
  let name i := nth_error ["atc-equipment-maintenance"; "airport-maintenance"; "fire"; "bird-scarer"; "snow-plough";
    "runway-sweeper"; "emergency"; "police"; "bus"; "tug"; "grass-cutter"; "fuel"; "baggage"; "catering";
    "aircraft-maintenance"; "flyco"]%string i in
  if (1 <=? code) && (code <=? 16) then name (Z.to_nat (code - 1)) else None.

(** I010/020 TYP. *)
Definition report_type_name (o : Z) : string :=
  let t := Z.shiftr o 5 in
  if t =? 0 then "ssr-multilateration" else if t =? 1 then "mode-s-multilateration" else if t =? 2 then "ads-b"
  else if t =? 3 then "psr" else if t =? 4 then "magnetic-loop" else if t =? 5 then "hf-multilateration" else "other".

(** [item.get(1..7).and_then(aircraft_id)]. *)
Definition id_after_status (item : bytes) : ares (option string) :=
  match get_range item 1 7 with Some s => aircraft_id s | None => Ok None end.

(** A Mode 3/A code with neither V nor G set. *)
Definition valid_squawk (w : Z) (t : AsterixTarget) : AsterixTarget :=
  if Z.land w 0xC000 =? 0 then set_squawk (Some (mode_3a w)) t else t.

(** A binary flight level with neither V nor G set, LSB 25 ft. *)
Definition flight_level (item : bytes) (t : AsterixTarget) : ares AsterixTarget :=
  i0 ← idx item 0;
  if Z.land i0 0xC0 =? 0 then
    w ← u16_at item 0; Ok (set_alt (Some (f_mul (f_of_Z (sign_extend (Z.land w 0x3FFF) 14)) (f_of_Z 25))) t)
  else Ok t.

Definition site (item : bytes) (t : AsterixTarget) : ares AsterixTarget :=
  a ← idx item 0; b ← idx item 1; Ok (set_site a b t).

(** Speed and heading in polar form. *)
Definition polar_velocity (item : bytes) (t : AsterixTarget) : ares AsterixTarget :=
  gs ← u16_at item 0; hd ← u16_at item 2;
  Ok (set_velocity (Some (f_mul (f_of_Z gs) SPEED_LSB_KN)) (Some (f_mul (f_of_Z hd) ANGLE_16)) t).

(** @src rust/connectors/asterix/src/asterix/cat010.rs 52-130 decode *)
Definition item_010 `{Trig} (t : AsterixTarget) (it : Item * bytes) : ares AsterixTarget :=
  let '(i, item) := it in
  if i =? 10 then site item t
  else if i =? 0 then o ← idx item 0; Ok (set_message_type (Some o) t)
  else if i =? 20 then
    o ← idx item 0;
    let t := set_report_type (Some (report_type_name o)) t in
    Ok (if flag o 1 then
          match get item 1 with Some ext => set_flags (flag ext 0x80) (flag ext 0x40) (flag ext 0x20) t | None => t end
        else t)
  else if i =? 140 then v ← time_of_day item; Ok (set_tod (Some v) t)
  else if i =? 41 then
    la ← signed item 0 4; lo ← signed item 4 4; Ok (set_pos (f_mul la LSB_041) (f_mul lo LSB_041) t)
  else if i =? 40 then
    rho ← u16_at item 0; th ← u16_at item 2;
    Ok (set_polar (Some (f_div (f_of_Z rho) NM_TO_M, f_mul (f_of_Z th) ANGLE_16)) t)
  else if i =? 42 then x ← signed item 0 2; y ← signed item 2 2; Ok (set_cartesian (Some (x, y)) t)
  else if i =? 200 then polar_velocity item t
  else if i =? 202 then
    x ← signed item 0 2; y ← signed item 2 2;
    let vx := f_mul x (f_ratio 1 4) in
    let vy := f_mul y (f_ratio 1 4) in
    let speed := f_sqrt (f_add (f_mul vx vx) (f_mul vy vy)) in
    let t := set_speed (Some (f_div speed KNOTS_TO_MPS)) t in
    Ok (if f_ltb f_zero speed then set_angle (Some (bearing vx vy)) t else t)
  else if i =? 161 then w ← u16_at item 0; Ok (set_track (Some (Z.land w 0x0FFF)) t)
  else if i =? 60 then w ← u16_at item 0; Ok (valid_squawk w t)
  else if i =? 220 then v ← be_uint item 0 3; Ok (set_icao (Some v) t)
  else if i =? 245 then s ← id_after_status item; Ok (set_callsign s t)
  else if i =? 300 then o ← idx item 0; Ok (set_fleet (fleet_name o) t)
  else if i =? 90 then flight_level item t
  else if i =? 91 then h ← signed item 0 2; Ok (set_alt (Some (f_mul h (f_ratio 25 4))) t)
  else if i =? 270 then
    o ← idx item 0;
    let length := f_of_Z (Z.shiftr o 1) in
    let orientation := (λ o, f_div (f_mul (f_of_Z (Z.shiftr o 1)) (f_of_Z 360)) (f_of_Z 128)) <$> get item 1 in
    let width := (λ o, f_of_Z (Z.shiftr o 1)) <$> get item 2 in
    Ok (set_size (Some (length, width, orientation)) t)
  else if i =? 500 then
    a ← idx item 0; b ← idx item 1;
    Ok (set_position_sd (Some (f_mul (f_of_Z a) (f_ratio 1 4), f_mul (f_of_Z b) (f_ratio 1 4))) t)
  else Ok t.

(** @src rust/connectors/asterix/src/asterix/cat010.rs 131-146 decode *)
Definition locate_010 `{Trig} (sensor : option Sensor) (t : AsterixTarget) : AsterixTarget :=
  match sensor with
  | None => t
  | Some s =>
      match lat t with
      | Some _ => t
      | None =>
          match polar t, cartesian_m t with
          | Some (rho_nm, theta), _ =>
              let '(la, lo) := forward_geodetic (s_lat s) (s_lon s) theta (f_mul rho_nm NM_TO_M) in set_pos la lo t
          | None, Some (x, y) =>
              let dist := f_sqrt (f_add (f_mul x x) (f_mul y y)) in
              let '(la, lo) := forward_geodetic (s_lat s) (s_lon s) (bearing x y) dist in set_pos la lo t
          | None, None => t
          end
      end
  end.

(** @src rust/connectors/asterix/src/asterix/cat010.rs 47-147 decode *)
Definition decode_010 `{Trig} (items : Items) (sensor : option Sensor) : ares AsterixTarget :=
  t ← for_items item_010 items (new_target CAT010); Ok (locate_010 sensor t).

(** * CAT021 *)

(** @src rust/connectors/asterix/src/asterix/cat021.rs 9-54 UAP *)
Definition UAP_021 : list (Item * Field) :=
  [(10, Fixed 2); (40, Extended 1); (161, Fixed 2); (15, Fixed 1); (71, Fixed 3); (130, Fixed 6);
   (131, Fixed 8); (72, Fixed 3); (150, Fixed 2); (151, Fixed 2); (80, Fixed 3); (73, Fixed 3);
   (74, Fixed 4); (75, Fixed 3); (76, Fixed 4); (140, Fixed 2); (90, Extended 1); (210, Fixed 1);
   (70, Fixed 2); (230, Fixed 2); (145, Fixed 2); (152, Fixed 2); (200, Fixed 1); (155, Fixed 2);
   (157, Fixed 2); (160, Fixed 4); (165, Fixed 2); (77, Fixed 3); (170, Fixed 6); (20, Fixed 1);
   (220, Opaque); (146, Fixed 2); (148, Fixed 2); (110, Opaque); (16, Fixed 1); (8, Fixed 1);
   (271, Extended 1); (132, Fixed 1); (250, Repetitive 8); (260, Fixed 7); (400, Fixed 1); (295, Opaque);
   (RE, Explicit); (SP, Explicit)].

(** @src rust/connectors/asterix/src/asterix/cat021.rs 56-59 LSB_130 LSB_131 *)
Definition LSB_130 : f64 := f_ratio 180 (2 ^ 23).
Definition LSB_131 : f64 := f_ratio 180 (2 ^ 30).

(** @src rust/connectors/asterix/src/asterix/cat021.rs 93-111 emitter_category *)
Definition emitter_category (code : Z) : option string :=
  (if (code =? 1)%Z then Some "light" else if (code =? 2)%Z then Some "small" else if (code =? 3)%Z then Some "medium"
   else if (code =? 4)%Z then Some "high-vortex" else if (code =? 5)%Z then Some "heavy" else if (code =? 6)%Z then Some "high-performance"
   else if (code =? 7)%Z then Some "rotorcraft" else if (code =? 10)%Z then Some "glider" else if (code =? 11)%Z then Some "lighter-than-air"
   else if (code =? 12)%Z then Some "uav" else if (code =? 13)%Z then Some "space" else if (code =? 20)%Z then Some "emergency-vehicle"
   else if (code =? 21)%Z then Some "service-vehicle" else None)%string.

(** @src rust/connectors/asterix/src/asterix/cat021.rs 66-89 decode *)
Definition item_021 (t : AsterixTarget) (it : Item * bytes) : ares AsterixTarget :=
  let '(i, item) := it in
  if i =? 10 then site item t
  else if i =? 161 then w ← u16_at item 0; Ok (set_track (Some w) t)
  else if i =? 130 then
    la ← signed item 0 3; lo ← signed item 3 3; Ok (set_pos (f_mul la LSB_130) (f_mul lo LSB_130) t)
  else if i =? 131 then
    la ← signed item 0 4; lo ← signed item 4 4; Ok (set_pos (f_mul la LSB_131) (f_mul lo LSB_131) t)
  else if i =? 80 then v ← be_uint item 0 3; Ok (set_icao (Some v) t)
  else if i =? 140 then v ← i16_at item 0; Ok (set_alt (Some (f_mul (f_of_Z v) (f_ratio 25 4))) t)
  else if i =? 70 then w ← u16_at item 0; Ok (set_squawk (Some (mode_3a w)) t)
  else if i =? 145 then
    v ← i16_at item 0;
    Ok (match alt_ft t with Some _ => t | None => set_alt (Some (f_mul (f_of_Z v) (f_of_Z 25))) t end)
  else if i =? 160 then polar_velocity item t
  else if i =? 170 then s ← aircraft_id item; Ok (set_callsign s t)
  else if i =? 20 then o ← idx item 0; Ok (set_emitter (emitter_category o) t)
  else Ok t.

(** @src rust/connectors/asterix/src/asterix/cat021.rs 61-91 decode *)
Definition decode_021 (items : Items) : ares AsterixTarget := for_items item_021 items (new_target CAT021).

(** * CAT048 *)

(** @src rust/connectors/asterix/src/asterix/cat048.rs 42-42 SUB_130 *)
Definition SUB_130 : list Field :=
  [Fixed 1; Fixed 1; Fixed 1; Fixed 1; Fixed 1; Fixed 1; Fixed 1].

(** @src rust/connectors/asterix/src/asterix/cat048.rs 44-44 SUB_120 *)
Definition SUB_120 : list Field :=
  [Fixed 2; Repetitive 6].

(** @src rust/connectors/asterix/src/asterix/cat048.rs 11-40 UAP *)
Definition UAP_048 : list (Item * Field) :=
  [(10, Fixed 2); (140, Fixed 3); (20, Extended 1); (40, Fixed 4); (70, Fixed 2); (90, Fixed 2);
   (130, Compound SUB_130); (220, Fixed 3); (240, Fixed 6); (250, Repetitive 8); (161, Fixed 2);
   (42, Fixed 4); (200, Fixed 4); (170, Extended 1); (210, Fixed 4); (30, Extended 1); (80, Fixed 2);
   (100, Fixed 4); (110, Fixed 2); (120, Compound SUB_120); (230, Fixed 2); (260, Fixed 7); (55, Fixed 1);
   (50, Fixed 2); (65, Fixed 1); (60, Fixed 2); (SP, Explicit); (RE, Explicit)].

(** @src rust/connectors/asterix/src/asterix/cat048.rs 51-98 decode *)
Definition item_048 (t : AsterixTarget) (it : Item * bytes) : ares AsterixTarget :=
  let '(i, item) := it in
  if i =? 10 then site item t
  else if i =? 140 then v ← time_of_day item; Ok (set_tod (Some v) t)
  else if i =? 20 then
    o1 ← idx item 0;
    let t := set_sim_rab (flag o1 0x10) (flag o1 0x02) t in
    Ok (if flag o1 1 then match get item 1 with Some ext => set_test (flag ext 0x80) t | None => t end else t)
  else if i =? 40 then
    rho ← u16_at item 0; th ← u16_at item 2;
    Ok (set_polar (Some (f_div (f_of_Z rho) (f_of_Z 256), f_mul (f_of_Z th) ANGLE_16)) t)
  else if i =? 70 then w ← u16_at item 0; Ok (valid_squawk w t)
  else if i =? 90 then flight_level item t
  else if i =? 220 then v ← be_uint item 0 3; Ok (set_icao (Some v) t)
  else if i =? 240 then s ← aircraft_id item; Ok (set_callsign s t)
  else if i =? 161 then w ← u16_at item 0; Ok (set_track (Some (Z.land w 0x0FFF)) t)
  else if i =? 200 then polar_velocity item t
  else Ok t.

(** @src rust/connectors/asterix/src/asterix/cat048.rs 99-113 decode *)
Definition locate_048 `{Trig} (sensor : option Sensor) (t : AsterixTarget) : AsterixTarget :=
  match polar t, sensor with
  | Some (rho_nm, theta), Some s =>
      let slant_m := f_mul rho_nm NM_TO_M in
      let height_m := match alt_ft t with Some ft => f_sub (f_mul ft FT_TO_M) (s_alt_m s) | None => f_zero end in
      let ground_m :=
        if f_ltb (f_abs height_m) slant_m then f_sqrt (f_sub (f_mul slant_m slant_m) (f_mul height_m height_m)) else f_zero in
      let '(la, lo) := forward_geodetic (s_lat s) (s_lon s) theta ground_m in
      set_pos la lo t
  | _, _ => t
  end.

(** @src rust/connectors/asterix/src/asterix/cat048.rs 46-114 decode *)
Definition decode_048 `{Trig} (items : Items) (sensor : option Sensor) : ares AsterixTarget :=
  t ← for_items item_048 items (new_target CAT048); Ok (locate_048 sensor t).

(** * CAT062 *)

(** @src rust/connectors/asterix/src/asterix/cat062.rs 52-81 SUB_380 *)
Definition SUB_380 : list Field :=
  [Fixed 3; Fixed 6; Fixed 2; Fixed 2; Fixed 2; Fixed 2; Fixed 2; Extended 1; Repetitive 15; Fixed 2;
   Fixed 2; Fixed 7; Fixed 2; Fixed 2; Fixed 2; Fixed 2; Fixed 2; Fixed 2; Fixed 1; Fixed 8; Fixed 1;
   Fixed 6; Fixed 2; Fixed 1; Repetitive 8; Fixed 2; Fixed 2; Fixed 2].

(** @src rust/connectors/asterix/src/asterix/cat062.rs 85-90 SUB_290 *)
Definition SUB_290 : list Field :=
  [Fixed 1; Fixed 1; Fixed 1; Fixed 1; Fixed 2; Fixed 1; Fixed 1; Fixed 1; Fixed 1; Fixed 1; Spare; Spare;
   Spare; Spare].

(** @src rust/connectors/asterix/src/asterix/cat062.rs 94-101 SUB_295 *)
Definition SUB_295 : list Field :=
  [Fixed 1; Fixed 1; Fixed 1; Fixed 1; Fixed 1; Fixed 1; Fixed 1; Fixed 1; Fixed 1; Fixed 1; Fixed 1;
   Fixed 1; Fixed 1; Fixed 1; Fixed 1; Fixed 1; Fixed 1; Fixed 1; Fixed 1; Fixed 1; Fixed 1; Fixed 1;
   Fixed 1; Fixed 1; Fixed 1; Fixed 1; Fixed 1; Fixed 1; Fixed 1; Fixed 1; Fixed 1; Spare; Spare; Spare;
   Spare].

(** @src rust/connectors/asterix/src/asterix/cat062.rs 105-110 SUB_500 *)
Definition SUB_500 : list Field :=
  [Fixed 4; Fixed 2; Fixed 4; Fixed 1; Fixed 1; Fixed 2; Fixed 2; Fixed 1; Spare; Spare; Spare; Spare; Spare;
   Spare].

(** @src rust/connectors/asterix/src/asterix/cat062.rs 114-118 SUB_340 *)
Definition SUB_340 : list Field :=
  [Fixed 2; Fixed 4; Fixed 2; Fixed 2; Fixed 2; Fixed 1; Spare].

(** @src rust/connectors/asterix/src/asterix/cat062.rs 122-125 SUB_110 *)
Definition SUB_110 : list Field :=
  [Fixed 1; Fixed 4; Fixed 6; Fixed 2; Fixed 2; Fixed 1; Fixed 1].

(** @src rust/connectors/asterix/src/asterix/cat062.rs 129-149 SUB_390 *)
Definition SUB_390 : list Field :=
  [Fixed 2; Fixed 7; Fixed 4; Fixed 1; Fixed 4; Fixed 1; Fixed 4; Fixed 4; Fixed 3; Fixed 2; Fixed 2;
   Repetitive 4; Fixed 6; Fixed 1; Fixed 7; Fixed 7; Fixed 2; Fixed 7; Spare; Spare; Spare].

(** @src rust/connectors/asterix/src/asterix/cat062.rs 9-45 UAP *)
Definition UAP_062 : list (Item * Field) :=
  [(10, Fixed 2); (SPARE, Opaque); (15, Fixed 1); (70, Fixed 3); (105, Fixed 8); (100, Fixed 6);
   (185, Fixed 4); (210, Fixed 2); (60, Fixed 2); (245, Fixed 7); (380, Compound SUB_380); (40, Fixed 2);
   (80, Extended 1); (290, Compound SUB_290); (200, Fixed 1); (295, Compound SUB_295); (136, Fixed 2);
   (130, Fixed 2); (135, Fixed 2); (220, Fixed 2); (390, Compound SUB_390); (270, Extended 1);
   (300, Fixed 1); (110, Compound SUB_110); (120, Fixed 2); (510, Extended 3); (500, Compound SUB_500);
   (340, Compound SUB_340); (SPARE, Opaque); (SPARE, Opaque); (SPARE, Opaque); (SPARE, Opaque);
   (SPARE, Opaque); (RE, Explicit); (SP, Explicit)].

(** @src rust/connectors/asterix/src/asterix/cat062.rs 47-48 LSB_105 *)
Definition LSB_105 : f64 := f_ratio 180 (2 ^ 25).

(** @src rust/connectors/asterix/src/asterix/cat062.rs 170-178 decode *)
Definition sub_380 (t : AsterixTarget) (s : nat * bytes) : ares AsterixTarget :=
  match s with
  | (0%nat, b) => v ← be_uint b 0 3; Ok (set_icao (Some v) t)
  | (1%nat, b) => c ← aircraft_id b; Ok (set_callsign c t)
  | _ => Ok t
  end.

(** @src rust/connectors/asterix/src/asterix/cat062.rs 184-204 decode *)
Definition sub_500 (t : AsterixTarget) (s : nat * bytes) : ares AsterixTarget :=
  match s with
  | (0%nat, b) =>
      x ← u16_at b 0; y ← u16_at b 2;
      Ok (set_position_sd (Some (f_mul (f_of_Z x) (f_ratio 1 2), f_mul (f_of_Z y) (f_ratio 1 2))) t)
  | (4%nat, b) => o ← idx b 0; Ok (set_accuracy_v (Some (f_mul (f_mul (f_of_Z o) (f_of_Z 25)) FT_TO_M)) t)
  | (5%nat, b) =>
      x ← idx b 0; y ← idx b 1;
      Ok (set_velocity_sd (Some (f_mul (f_of_Z x) (f_ratio 1 4), f_mul (f_of_Z y) (f_ratio 1 4))) t)
  | _ => Ok t
  end.

(** @src rust/connectors/asterix/src/asterix/cat062.rs 156-207 decode *)
Definition item_062 `{Trig} (t : AsterixTarget) (it : Item * bytes) : ares AsterixTarget :=
  let '(i, item) := it in
  if i =? 10 then site item t
  else if i =? 70 then v ← time_of_day item; Ok (set_tod (Some v) t)
  else if i =? 105 then
    la ← signed item 0 4; lo ← signed item 4 4; Ok (set_pos (f_mul la LSB_105) (f_mul lo LSB_105) t)
  else if i =? 185 then
    x ← i16_at item 0; y ← i16_at item 2;
    let vx := f_mul (f_of_Z x) (f_ratio 1 4) in
    let vy := f_mul (f_of_Z y) (f_ratio 1 4) in
    Ok (set_velocity (Some (f_div (f_sqrt (f_add (f_mul vx vx) (f_mul vy vy))) KNOTS_TO_MPS)) (Some (bearing vx vy)) t)
  else if i =? 60 then w ← u16_at item 0; Ok (set_squawk (Some (mode_3a w)) t)
  else if i =? 245 then s ← id_after_status item; Ok (set_callsign s t)
  else if i =? 380 then for_items sub_380 (walk_compound SUB_380 item) t
  else if i =? 40 then w ← u16_at item 0; Ok (set_track (Some w) t)
  else if i =? 136 then v ← i16_at item 0; Ok (set_alt (Some (f_mul (f_of_Z v) (f_of_Z 25))) t)
  else if i =? 220 then v ← i16_at item 0; Ok (set_vertical_rate (Some (f_mul (f_of_Z v) (f_ratio 25 4))) t)
  else if i =? 500 then for_items sub_500 (walk_compound SUB_500 item) t
  else Ok t.

(** @src rust/connectors/asterix/src/asterix/cat062.rs 151-209 decode *)
Definition decode_062 `{Trig} (items : Items) : ares AsterixTarget := for_items item_062 items (new_target CAT062).

(** * CAT034 *)

(** @src rust/connectors/asterix/src/asterix/cat034.rs 28-31 SUB_050 *)
Definition SUB_050 : list Field :=
  [Fixed 1; Spare; Spare; Fixed 1; Fixed 1; Fixed 2; Spare].

(** @src rust/connectors/asterix/src/asterix/cat034.rs 34-37 SUB_060 *)
Definition SUB_060 : list Field :=
  [Fixed 1; Spare; Spare; Fixed 1; Fixed 1; Fixed 1; Spare].

(** @src rust/connectors/asterix/src/asterix/cat034.rs 10-25 UAP *)
Definition UAP_034 : list (Item * Field) :=
  [(10, Fixed 2); (0, Fixed 1); (30, Fixed 3); (20, Fixed 1); (41, Fixed 2); (50, Compound SUB_050);
   (60, Compound SUB_060); (70, Repetitive 2); (100, Fixed 8); (110, Fixed 1); (120, Fixed 8); (90, Fixed 2);
   (RE, Explicit); (SP, Explicit)].

(** @src rust/connectors/asterix/src/asterix/cat034.rs 38-46 LSB_120 NORTH_MARKER SECTOR_CROSSING JAMMING_STROBE *)
Definition LSB_120 : f64 := f_ratio 180 (2 ^ 23).
Definition NORTH_MARKER : Z := 1.
Definition SECTOR_CROSSING : Z := 2.
Definition JAMMING_STROBE : Z := 4.
Definition SSR_JAMMING_STROBE : Z := 6.
Definition MODE_S_JAMMING_STROBE : Z := 7.

(** @src rust/connectors/asterix/src/asterix/cat034.rs 48-64 RadarStatus *)
Record RadarStatus := mkStatus {
  nogo : option bool;
  rdp_overload : option bool;
  xmt_overload : option bool;
  monitoring_disconnected : option bool;
  time_source_invalid : option bool;
  psr_overload : option bool;
  ssr_overload : option bool;
  mds_overload : option bool
}.
Definition no_status : RadarStatus := mkStatus None None None None None None None None.

(** [if new.is_some() { old = new }]. *)
Definition newer {A} (new old : option A) : option A := match new with Some _ => new | None => old end.

(** @src rust/connectors/asterix/src/asterix/cat034.rs 67-82 RadarStatus::merge *)
Definition merge_status (old new : RadarStatus) : RadarStatus :=
  mkStatus (newer (nogo new) (nogo old)) (newer (rdp_overload new) (rdp_overload old))
    (newer (xmt_overload new) (xmt_overload old)) (newer (monitoring_disconnected new) (monitoring_disconnected old))
    (newer (time_source_invalid new) (time_source_invalid old)) (newer (psr_overload new) (psr_overload old))
    (newer (ssr_overload new) (ssr_overload old)) (newer (mds_overload new) (mds_overload old)).

(** @src rust/connectors/asterix/src/asterix/cat034.rs 84-95 RadarStatus::degraded *)
Definition degraded (s : RadarStatus) : bool :=
  bool_decide (Some true ∈ [nogo s; rdp_overload s; xmt_overload s; psr_overload s; ssr_overload s; mds_overload s]).

(** @src rust/connectors/asterix/src/asterix/cat034.rs 98-119 ServiceReport *)
Record ServiceReport := mkReport {
  r_sac : Z;
  r_sic : Z;
  r_message_type : Z;
  r_tod : option f64;
  sector : option Z;
  rotation_period_s : option f64;
  r_position : option (f64 * f64 * f64);
  r_status : RadarStatus;
  window : option (f64 * f64 * f64 * f64);
  r_raw : bytes
}.
Definition no_report : ServiceReport := mkReport 0 0 0 None None None None no_status None [].

Definition with_status (r : ServiceReport) (s : RadarStatus) : ServiceReport :=
  mkReport (r_sac r) (r_sic r) (r_message_type r) (r_tod r) (sector r) (rotation_period_s r) (r_position r) s (window r) (r_raw r).
Definition with_raw (r : ServiceReport) (b : bytes) : ServiceReport :=
  mkReport (r_sac r) (r_sic r) (r_message_type r) (r_tod r) (sector r) (rotation_period_s r) (r_position r) (r_status r) (window r) b.

(** @src rust/connectors/asterix/src/asterix/cat034.rs 122-128 ServiceReport::is_published *)
Definition is_published (r : ServiceReport) : bool :=
  let m := r_message_type r in
  (m =? NORTH_MARKER) || (m =? JAMMING_STROBE) || (m =? SSR_JAMMING_STROBE) || (m =? MODE_S_JAMMING_STROBE).

(** @src rust/connectors/asterix/src/asterix/cat034.rs 130-141 ServiceReport::message_name *)
Definition message_name (r : ServiceReport) : string :=
  let m := r_message_type r in
  if m =? NORTH_MARKER then "north-marker" else if m =? SECTOR_CROSSING then "sector-crossing"
  else if m =? 3 then "geographical-filtering" else if m =? JAMMING_STROBE then "jamming-strobe"
  else if m =? 5 then "solar-storm" else if m =? SSR_JAMMING_STROBE then "ssr-jamming-strobe"
  else if m =? MODE_S_JAMMING_STROBE then "mode-s-jamming-strobe" else "unknown".

(** @src rust/connectors/asterix/src/asterix/cat034.rs 155-171 decode *)
Definition sub_050 (s : RadarStatus) (sub : nat * bytes) : ares RadarStatus :=
  let '(mkStatus ng rd xm mo ti ps ss md) := s in
  match sub with
  | (0%nat, b) =>
      com ← idx b 0;
      Ok (mkStatus (Some (flag com 0x80)) (Some (flag com 0x10)) (Some (flag com 0x08)) (Some (flag com 0x04))
            (Some (flag com 0x02)) ps ss md)
  | (3%nat, b) => o ← idx b 0; Ok (mkStatus ng rd xm mo ti (Some (flag o 0x10)) ss md)
  | (4%nat, b) => o ← idx b 0; Ok (mkStatus ng rd xm mo ti ps (Some (flag o 0x10)) md)
  | (5%nat, b) => o ← idx b 0; Ok (mkStatus ng rd xm mo ti ps ss (Some (flag o 0x10)))
  | _ => Ok s
  end.

(** @src rust/connectors/asterix/src/asterix/cat034.rs 146-188 decode *)
Definition item_034 (r : ServiceReport) (it : Item * bytes) : ares ServiceReport :=
  let '(mkReport sa si mt td se rp po st wi rw) := r in
  let '(i, item) := it in
  if i =? 10 then a ← idx item 0; b ← idx item 1; Ok (mkReport a b mt td se rp po st wi rw)
  else if i =? 0 then o ← idx item 0; Ok (mkReport sa si o td se rp po st wi rw)
  else if i =? 30 then v ← time_of_day item; Ok (mkReport sa si mt (Some v) se rp po st wi rw)
  else if i =? 20 then o ← idx item 0; Ok (mkReport sa si mt td (Some o) rp po st wi rw)
  else if i =? 41 then
    w ← u16_at item 0; Ok (mkReport sa si mt td se (Some (f_div (f_of_Z w) (f_of_Z 128))) po st wi rw)
  else if i =? 50 then
    st ← for_items sub_050 (walk_compound SUB_050 item) st; Ok (mkReport sa si mt td se rp po st wi rw)
  else if i =? 100 then
    r0 ← u16_at item 0; r1 ← u16_at item 2; a0 ← u16_at item 4; a1 ← u16_at item 6;
    Ok (mkReport sa si mt td se rp po st
      (Some (f_div (f_of_Z r0) (f_of_Z 256), f_div (f_of_Z r1) (f_of_Z 256),
             f_mul (f_of_Z a0) ANGLE_16, f_mul (f_of_Z a1) ANGLE_16)) rw)
  else if i =? 120 then
    h ← signed item 0 2; la ← signed item 2 3; lo ← signed item 5 3;
    Ok (mkReport sa si mt td se rp (Some (f_mul la LSB_120, f_mul lo LSB_120, h)) st wi rw)
  else Ok r.

(** @src rust/connectors/asterix/src/asterix/cat034.rs 144-190 decode *)
Definition decode_034 (items : Items) : ares ServiceReport := for_items item_034 items no_report.

(** * Lemmas: the decoders index only what the UAP guarantees *)

(** The UAPs are well-formed. *)
Ltac uap_tac := split; [|done]; repeat (apply Forall_cons; split; [cbn; repeat split; lia|]); apply Forall_nil_2.
Lemma uap_010_ok : uap_ok UAP_010.
Proof. uap_tac. Qed.
Lemma uap_021_ok : uap_ok UAP_021.
Proof. uap_tac. Qed.
Lemma uap_048_ok : uap_ok UAP_048.
Proof. uap_tac. Qed.
Lemma uap_062_ok : uap_ok UAP_062.
Proof. uap_tac. Qed.
Lemma uap_034_ok : uap_ok UAP_034.
Proof. uap_tac. Qed.

Lemma id_after_status_safe item : safe (id_after_status item).
Proof. unfold id_after_status. destruct (get_range _ _ _); [apply aircraft_id_safe|done]. Qed.

Lemma flight_level_safe item t : 2 ≤ zlen item → safe (flight_level item t).
Proof.
  intros. apply safe_bind; [apply safe_idx; lia|]. intros i0 _. destruct (_ =? 0); [|done].
  apply safe_bind; [apply u16_at_safe; lia|done].
Qed.

Lemma site_safe item t : 2 ≤ zlen item → safe (site item t).
Proof. intros. apply safe_bind; [apply safe_idx; lia|]. intros a _. apply safe_bind; [apply safe_idx; lia|done]. Qed.

Lemma polar_velocity_safe item t : 4 ≤ zlen item → safe (polar_velocity item t).
Proof. intros. apply safe_bind; [apply u16_at_safe; lia|]. intros a _. apply safe_bind; [apply u16_at_safe; lia|done]. Qed.

#[export] Hint Resolve id_after_status_safe flight_level_safe site_safe polar_velocity_safe safe_idx : asterix.

(** One step of an item's decoder whose octets are bounded by [len_ok]. *)
Ltac item_step :=
  first [exact I | apply site_safe; lia | apply polar_velocity_safe; lia
        | apply flight_level_safe; lia | apply id_after_status_safe | apply aircraft_id_safe
        | apply u16_at_safe; lia | apply i16_at_safe; lia | apply signed_safe; lia | apply time_of_day_safe; lia
        | apply be_uint_safe; lia | apply safe_idx; lia | apply safe_bind; [|intros ? _]].

(** Over every entry of a UAP: the item's decoder is safe on what the entry
    admits. *)
Ltac uap_cases :=
  intros [i item] (f & Hin & Hlen);
  repeat (apply elem_of_cons in Hin as [Hin|Hin];
    [injection Hin as -> ->; cbn [len_ok snd fst] in Hlen; try (unfold SP, RE, SPARE; exact I); cbn -[safe]; repeat item_step|]);
  try by apply elem_of_nil in Hin.

Lemma item_010_safe `{Trig} : ∀ t it, item_of UAP_010 it → safe (item_010 t it).
Proof. intros t. uap_cases. Qed.

Lemma item_021_safe : ∀ t it, item_of UAP_021 it → safe (item_021 t it).
Proof. intros t. uap_cases. Qed.

Lemma item_048_safe : ∀ t it, item_of UAP_048 it → safe (item_048 t it).
Proof. intros t. uap_cases. Qed.

(** The subfields of compound items. *)
Definition sub_of (subs : list Field) (s : nat * bytes) : Prop := ∃ f, subs !! s.1 = Some f ∧ len_ok f s.2.

Lemma walk_compound_subs subs data : Forall sane subs → Forall (sub_of subs) (walk_compound subs data).
Proof. intros Hs. eapply Forall_impl; [by apply walk_compound_spec|]. by intros [k s]. Qed.

Ltac sub_cases :=
  intros [k b] (f & Hk & Hlen); cbn [fst snd] in *;
  do 6 (destruct k as [|k]; [injection Hk as <-; cbn [len_ok] in Hlen; try exact I; cbn -[safe]; repeat item_step|]);
  exact I.

Lemma sub_380_safe : ∀ t s, sub_of SUB_380 s → safe (sub_380 t s).
Proof. intros t. sub_cases. Qed.

Lemma sub_500_safe : ∀ t s, sub_of SUB_500 s → safe (sub_500 t s).
Proof. intros t. sub_cases. Qed.

Lemma sub_050_safe : ∀ t s, sub_of SUB_050 s → safe (sub_050 t s).
Proof. intros []. sub_cases. Qed.

Ltac sane_tac := repeat (apply Forall_cons; split; [cbn; lia|]); apply Forall_nil_2.
Lemma subs_380_safe t item : safe (for_items sub_380 (walk_compound SUB_380 item) t).
Proof. eapply for_items_safe; [apply sub_380_safe|apply walk_compound_subs; sane_tac]. Qed.
Lemma subs_500_safe t item : safe (for_items sub_500 (walk_compound SUB_500 item) t).
Proof. eapply for_items_safe; [apply sub_500_safe|apply walk_compound_subs; sane_tac]. Qed.
Lemma subs_050_safe t item : safe (for_items sub_050 (walk_compound SUB_050 item) t).
Proof. eapply for_items_safe; [apply sub_050_safe|apply walk_compound_subs; sane_tac]. Qed.

Ltac item_step ::=
  first [exact I | apply subs_380_safe | apply subs_500_safe | apply subs_050_safe | apply site_safe; lia
        | apply polar_velocity_safe; lia
        | apply flight_level_safe; lia | apply id_after_status_safe | apply aircraft_id_safe
        | apply u16_at_safe; lia | apply i16_at_safe; lia | apply signed_safe; lia | apply time_of_day_safe; lia
        | apply be_uint_safe; lia | apply safe_idx; lia | apply safe_bind; [|intros ? _]].

Lemma item_062_safe `{Trig} : ∀ t it, item_of UAP_062 it → safe (item_062 t it).
Proof. intros t. uap_cases. Qed.

Lemma item_034_safe : ∀ t it, item_of UAP_034 it → safe (item_034 t it).
Proof. intros []. uap_cases. Qed.
