(* ===== verification/Asterix.v ===== *)
(** The ASTERIX connector (rust/connectors/asterix/src/asterix.rs): data blocks,
    the status of each radar, and the events of tracks and service reports. *)
From Stdlib Require Import ZArith Lia.
From Stdlib Require Import Strings.String.
From S2P Require Export AstCat.

Local Open Scope Z_scope.

(** @src rust/connectors/asterix/src/asterix.rs 153-170 AsterixParser *)
Record AsterixParser := mkAsterix {
  source_id : string;
  enrichment : Enrichment;
  sensor : option Sensor;
  cat010_type : option string;
  surface_domain : option string;
  cat034_type : option string;
  radar_status : gmap (Z * Z) RadarStatus;
  ignored_blocks : Z;
  test_targets : Z;
  north_markers : Z;
  sector_crossings : Z;
  jamming_strobes : Z;
  radar_degraded : Z
}.

(** @src rust/connectors/asterix/src/asterix.rs 172-189 AsterixParser::new *)
Definition asterix_new (src : string) (e : Enrichment) : AsterixParser :=
  mkAsterix src e None None None None ∅ 0 0 0 0 0 0.

(** @src rust/connectors/asterix/src/asterix.rs 191-194 AsterixParser::with_sensor *)
Definition with_sensor (self : AsterixParser) (s : option Sensor) : AsterixParser :=
  let '(mkAsterix a b _ d e f g h i j k l m) := self in mkAsterix a b s d e f g h i j k l m.

(** The counters, by name, for their [fetch_add]s. *)
Inductive ACounter := IgnoredBlocks | TestTargets | NorthMarkers | SectorCrossings | JammingStrobes | RadarDegraded.
Definition count (c : ACounter) (self : AsterixParser) : AsterixParser :=
  let '(mkAsterix a b s d e f g ig te no se ja de) := self in
  match c with
  | IgnoredBlocks => mkAsterix a b s d e f g (fetch_add ig 1) te no se ja de
  | TestTargets => mkAsterix a b s d e f g ig (fetch_add te 1) no se ja de
  | NorthMarkers => mkAsterix a b s d e f g ig te (fetch_add no 1) se ja de
  | SectorCrossings => mkAsterix a b s d e f g ig te no (fetch_add se 1) ja de
  | JammingStrobes => mkAsterix a b s d e f g ig te no se (fetch_add ja 1) de
  | RadarDegraded => mkAsterix a b s d e f g ig te no se ja (fetch_add de 1)
  end.
Definition put_status (k : Z * Z) (v : RadarStatus) (self : AsterixParser) : AsterixParser :=
  let '(mkAsterix a b s d e f g ig te no se ja de) := self in
  mkAsterix a b s d e f (<[k := v]> g) ig te no se ja de.

Section asterix.
Context `{T : Trig}.
Variable ont : Ontology.

(** @src rust/connectors/asterix/src/asterix.rs 196-214 AsterixParser::with_entity_map *)
Definition with_entity_map (self : AsterixParser) (map : gmap string string) : res (option Fault) AsterixParser :=
  let '(mkAsterix a b s _ _ _ g ig te no se ja de) := self in
  let self := mkAsterix a b s (map !! "cat010"%string) (map !! "cat010_domain"%string) (map !! "cat034"%string) g ig te no se ja de in
  match surface_domain self with
  | None => Ok self
  | Some v =>
      faults ← map_err (λ _, None) (check ont (mkDeclared "mim:object" ["environment"] [("environment", v)]%string));
      match faults with
      | f :: _ => Err (Some f)
      | [] => Ok self
      end
  end.

(** * Data blocks *)

(** @src rust/connectors/asterix/src/asterix.rs 292-298 AsterixParser::parse_block *)
Definition category (cat : Z) : option (list (Item * Field) * (Items → option Sensor → ares AsterixTarget)) :=
  if cat =? CAT010 then Some (UAP_010, decode_010)
  else if cat =? CAT021 then Some (UAP_021, λ items _, decode_021 items)
  else if cat =? CAT048 then Some (UAP_048, decode_048)
  else if cat =? CAT062 then Some (UAP_062, λ items _, decode_062 items)
  else None.

(** @src rust/connectors/asterix/src/asterix.rs 305-310 AsterixParser::parse_block *)
Definition is_track (cat : Z) (t : AsterixTarget) : bool :=
  let target_report := negb (cat =? CAT010) || bool_decide (message_type t = Some TARGET_REPORT) in
  let positioned := bool_decide (is_Some (lat t)) || bool_decide (is_Some (polar t)) || bool_decide (is_Some (cartesian_m t)) in
  target_report && positioned.

(** @src rust/connectors/asterix/src/asterix.rs 302-313 AsterixParser::parse_block *)
Fixpoint block_tracks (fuel : nat) (self : AsterixParser) (cat : Z) (uap : list (Item * Field))
    (decode : Items → option Sensor → ares AsterixTarget) (block : bytes) (off len : Z) : ares (list AsterixTarget) :=
  if negb (off <? len) then Ok []
  else
    match fuel with
    | O => NoFuel
    | S fuel =>
        '(items, next) ← walk_record cat uap block off;
        t ← decode items (sensor self);
        s ← slice block off next;
        rest ← block_tracks fuel self cat uap decode block next len;
        Ok ((if is_track cat t then [set_raw s t] else []) ++ rest)
    end.

(** @src rust/connectors/asterix/src/asterix.rs 287-314 AsterixParser::parse_block *)
Definition parse_block (self : AsterixParser) (frame : bytes) : ares (list AsterixTarget) :=
  '(cat, len) ← block_header frame;
  match category cat with
  | None => Ok []
  | Some (uap, decode) =>
      block ← slice frame 0 len;
      block_tracks (length block) self cat uap decode block 3 len
  end.

(** What a service report does to the parser: its radar's status, and the
    counters. *)
(** @src rust/connectors/asterix/src/asterix.rs 258-280 AsterixParser::parse_service_block *)
Definition service_report (self : AsterixParser) (r : ServiceReport) : AsterixParser * ServiceReport :=
  let k := (r_sac r, r_sic r) in
  let known := merge_status (default no_status (radar_status self !! k)) (r_status r) in
  let self := put_status k known self in
  let r := with_status r known in
  let m := r_message_type r in
  let self :=
    if m =? NORTH_MARKER then count NorthMarkers self
    else if m =? SECTOR_CROSSING then count SectorCrossings self
    else if (m =? JAMMING_STROBE) || (m =? SSR_JAMMING_STROBE) || (m =? MODE_S_JAMMING_STROBE)
    then count JammingStrobes self
    else self in
  (if (m =? NORTH_MARKER) && degraded (r_status r) then count RadarDegraded self else self, r).

(** The records of a service block: an error keeps what those before it did. *)
(** @src rust/connectors/asterix/src/asterix.rs 254-283 AsterixParser::parse_service_block *)
Fixpoint service_records (fuel : nat) (self : AsterixParser) (block : bytes) (off len : Z) :
    AsterixParser * ares (list ServiceReport) :=
  if negb (off <? len) then (self, Ok [])
  else
    match fuel with
    | O => (self, NoFuel)
    | S fuel =>
        match
          '(items, next) ← walk_record CAT034 UAP_034 block off;
          r ← decode_034 items;
          s ← slice block off next;
          Ok (with_raw r s, next)
        with
        | Ok (r, next) =>
            let '(self, r) := service_report self r in
            let '(self, rest) := service_records fuel self block next len in
            (self, rs ← rest; Ok (r :: rs))
        | Err e => (self, Err e)
        | Panic => (self, Panic)
        | NoFuel => (self, NoFuel)
        end
    end.

(** @src rust/connectors/asterix/src/asterix.rs 244-285 AsterixParser::parse_service_block *)
Definition parse_service_block (self : AsterixParser) (frame : bytes) : AsterixParser * ares (list ServiceReport) :=
  match block_header frame with
  | Ok (cat, len) =>
      if negb (cat =? CAT034) then (self, Ok [])
      else
        match slice frame 0 len with
        | Ok block => service_records (length block) self block 3 len
        | Err e => (self, Err e)
        | Panic => (self, Panic)
        | NoFuel => (self, NoFuel)
        end
  | Err e => (self, Err e)
  | Panic => (self, Panic)
  | NoFuel => (self, NoFuel)
  end.

(** The tracks and service reports of one block, by its category. *)
(** @src rust/connectors/asterix/src/asterix.rs 232-238 AsterixParser::parse_datagram *)
Definition one_block (self : AsterixParser) (cat : Z) (block : bytes) :
    AsterixParser * ares (list AsterixTarget * list ServiceReport) :=
  if bool_decide (cat ∈ [CAT010; CAT021; CAT048; CAT062]) then (self, ts ← parse_block self block; Ok (ts, []))
  else if cat =? CAT034 then let '(self, r) := parse_service_block self block in (self, rs ← r; Ok ([], rs))
  else (count IgnoredBlocks self, Ok ([], [])).

(** @src rust/connectors/asterix/src/asterix.rs 226-242 AsterixParser::parse_datagram *)
Fixpoint blocks (fuel : nat) (self : AsterixParser) (rest : bytes) :
    AsterixParser * ares (list AsterixTarget * list ServiceReport) :=
  match rest with
  | [] => (self, Ok ([], []))
  | _ =>
      match fuel with
      | O => (self, NoFuel)
      | S fuel =>
          match ('(cat, len) ← block_header rest; block ← slice rest 0 len; tail ← slice rest len (zlen rest); Ok (cat, block, tail)) with
          | Ok (cat, block, tail) =>
              match one_block self cat block with
              | (self, Ok (ts, rs)) =>
                  let '(self, more) := blocks fuel self tail in
                  (self, '(ts', rs') ← more; Ok (ts ++ ts', rs ++ rs'))
              | (self, Err e) => (self, Err e)
              | (self, Panic) => (self, Panic)
              | (self, NoFuel) => (self, NoFuel)
              end
          | Err e => (self, Err e)
          | Panic => (self, Panic)
          | NoFuel => (self, NoFuel)
          end
      end
  end.

(** @src rust/connectors/asterix/src/asterix.rs 221-242 AsterixParser::parse_datagram *)
Definition parse_datagram (self : AsterixParser) (frame : bytes) :
    AsterixParser * ares (list AsterixTarget * list ServiceReport) := blocks (length frame) self frame.

(** @src rust/connectors/asterix/src/asterix.rs 216-219 AsterixParser::parse_frame *)
Definition parse_frame (self : AsterixParser) (frame : bytes) : AsterixParser * ares (list AsterixTarget) :=
  let '(self, r) := parse_datagram self frame in (self, '(ts, _) ← r; Ok ts).

(** * Events *)

(** [{:06X}] of a 24-bit address. *)
Definition hex6 (v : Z) : string :=
  b2s ((λ i, let d := Z.land (Z.shiftr v (4 * i)) 15 in if d <? 10 then 48 + d else 55 + d) <$> [5; 4; 3; 2; 1; 0]).

(** @src rust/connectors/asterix/src/asterix.rs 329-341 AsterixParser::target_builder *)
Definition target_identity (t : AsterixTarget) : string * option (string * string) :=
  match icao t, track t with
  | Some i, _ => (("icao:" ++ hex6 i)%string, Some ("ICAO24"%string, hex6 i))
  | None, Some n =>
      let scoped := (show (AstWire.category t) ++ ":" ++ show (sac t) ++ ":" ++ show (sic t) ++ ":" ++ show n)%string in
      (("asterix:" ++ scoped)%string, Some ("ASTERIX"%string, scoped))
  | None, None =>
      (("asterix:" ++ show (AstWire.category t) ++ ":" ++ show (sac t) ++ ":" ++ show (sic t))%string, None)
  end.

(** @src rust/connectors/asterix/src/asterix.rs 342-352 AsterixParser::target_builder *)
Definition target_type (self : AsterixParser) (t : AsterixTarget) : string :=
  if negb (AstWire.category t =? CAT010) then "mim:aircraft"
  else
    match cat010_type self with
    | Some ty => ty
    | None =>
        if bool_decide (is_Some (vehicle_fleet t)) then "mim:land-vehicle"
        else if bool_decide (is_Some (icao t)) || bool_decide (is_Some (callsign t)) then "mim:aircraft"
        else "mim:object"
    end.

Definition gov := governed ont.

(** @src rust/connectors/asterix/src/asterix.rs 361-388 AsterixParser::target_builder *)
Definition target_accuracy (self : AsterixParser) (ty : string) (t : AsterixTarget) (b : EventBuilder) : EventBuilder :=
  let b := on_some (position_sd_m t) (λ '(sx, sy) b,
    let b := add_metadata "position_sd_y_m" (fmt_fixed 2 sy) (add_metadata "position_sd_x_m" (fmt_fixed 2 sx) b) in
    let h := hypot sx sy in
    on_true (f_ltb f_zero h) (attribute "position_accuracy_h_m" (fmt_fixed 2 h)) b) b in
  let b := match accuracy_v_m t, alt_ft t with
           | Some v, Some _ => on_true (f_ltb f_zero v) (attribute "position_accuracy_v_m" (fmt_fixed 2 v)) b
           | _, _ => b
           end in
  let b := on_some (velocity_sd_mps t) (λ '(vx, vy) b,
    let s := hypot vx vy in on_true (f_ltb f_zero s) (attribute "speed_accuracy" (fmt_fixed 2 s)) b) b in
  on_some (surface_domain self) (gov ty "environment") b.

(** @src rust/connectors/asterix/src/asterix.rs 389-418 AsterixParser::target_builder *)
Definition target_place (t : AsterixTarget) (b : EventBuilder) : EventBuilder :=
  let b :=
    match lat t, lon t with
    | Some la, Some lo => set_location la lo (match alt_ft t with Some ft => f_mul ft FT_TO_M | None => f_zero end) b
    | _, _ =>
        match polar t, cartesian_m t with
        | Some (rho, theta), _ => add_metadata "azimuth_deg" (fmt_fixed 3 theta) (add_metadata "range_nm" (fmt_fixed 3 rho) b)
        | None, Some (x, y) => add_metadata "y_m" (fmt_fixed 0 y) (add_metadata "x_m" (fmt_fixed 0 x) b)
        | None, None => b
        end
    end in
  let b := on_some (t_size t) (λ '(length, width, orientation) b,
    let b := add_metadata "target_length_m" (fmt_fixed 0 length) b in
    let b := on_some (fmt_fixed 0 <$> width) (add_metadata "target_width_m") b in
    on_some (fmt_fixed 1 <$> orientation) (add_metadata "target_orientation_deg") b) b in
  let b := on_some (report_type t) (add_metadata "report_type") b in
  let b := on_some (vehicle_fleet t) (add_metadata "vehicle_fleet") b in
  let b := on_some (fmt_fixed 0 <$> alt_ft t) (add_metadata "altitude_ft") b in
  on_some (fmt_fixed 3 <$> time_of_day_s t) (add_metadata "time_of_day_s") b.

(** @src rust/connectors/asterix/src/asterix.rs 328-444 AsterixParser::target_builder *)
Definition target_builder (env : Env) (self : AsterixParser) (t : AsterixTarget) : EventBuilder :=
  let '(source_uid, ident) := target_identity t in
  let ty := target_type self t in
  let b := set_payload (raw t) (new_id env (builder_new (source_id self) ty)) in
  let b := add_metadata "asterix_category" (show (AstWire.category t)) (add_metadata "source_uid" source_uid b) in
  let b := on_some ident (λ '(standard, i), identity standard i) b in
  let b := target_place t (target_accuracy self ty t b) in
  let b := on_some (hostility (enrichment self)) (attribute "hostility") b in
  let b := on_some (ground_speed_kn t) (λ kn b,
    add_metadata "speed_kn" (fmt_fixed 1 kn) (attribute "speed" (fmt_fixed 2 (f_mul kn KNOTS_TO_MPS)) b)) b in
  let b := on_some (fmt_fixed 1 <$> track_angle_deg t) (attribute "course") b in
  let b := on_some (vertical_rate_ftmin t) (λ ftmin b,
    add_metadata "vertical_rate_ftmin" (fmt_fixed 0 ftmin)
      (attribute "vertical_rate" (fmt_fixed 1 (f_div (f_mul ftmin FT_TO_M) (f_of_Z 60))) b)) b in
  let b := on_some (squawk t) (gov ty "squawk") b in
  let b := on_some (callsign t) (attribute "callsign") b in
  on_some (emitter t) (add_metadata "emitter_category") b.

(** @src rust/connectors/asterix/src/asterix.rs 472-507 AsterixParser::service_builder *)
Definition service_coverage (ty : string) (r : ServiceReport) (b : EventBuilder) : EventBuilder :=
  let north := r_message_type r =? NORTH_MARKER in
  let b := on_some (rotation_period_s r) (λ p b,
    let b := add_metadata "rotation_period_s" (fmt_fixed 3 p) (gov ty "scan_period_s" (fmt_fixed 3 p) b) in
    on_true north (gov ty "update_interval_s" (fmt_fixed 3 p)) b) b in
  let b := on_some (show <$> sector r) (add_metadata "sector") b in
  on_some (window r) (λ '(r0, r1, a0, a1) b,
    let b := on_true north (λ b,
      gov ty "detection_range_m" (fmt_fixed 0 (f_mul r1 NM_TO_M))
        (gov ty "coverage_bearing_end_deg" (fmt_fixed 3 a1) (gov ty "coverage_bearing_start_deg" (fmt_fixed 3 a0) b))) b in
    let b := add_metadata "window_range_start_nm" (fmt_fixed 3 r0) b in
    let b := add_metadata "window_range_end_nm" (fmt_fixed 3 r1) b in
    let b := add_metadata "window_azimuth_start_deg" (fmt_fixed 3 a0) b in
    add_metadata "window_azimuth_end_deg" (fmt_fixed 3 a1) b) b.

Definition flag_text (b : bool) : string := if b then "true" else "false".

(** @src rust/connectors/asterix/src/asterix.rs 448-524 AsterixParser::service_builder *)
Definition service_builder (env : Env) (self : AsterixParser) (r : ServiceReport) : EventBuilder :=
  let ty := default "mim:sensor"%string (cat034_type self) in
  let radar := (show (r_sac r) ++ ":" ++ show (r_sic r))%string in
  let b := set_payload (r_raw r) (new_id env (builder_new (source_id self) ty)) in
  let b := add_metadata "source_uid" ("asterix:radar:" ++ radar) b in
  let b := add_metadata "message_type" (message_name r) (add_metadata "asterix_category" (show CAT034) b) in
  let b := identity "ASTERIX" radar b in
  let b := match r_position r, sensor self with
           | Some (la, lo, h), _ => set_location la lo h b
           | None, Some s => set_location (s_lat s) (s_lon s) (s_alt_m s) b
           | None, None => b
           end in
  let b := on_some (hostility (enrichment self)) (attribute "hostility") b in
  let b := on_some (fmt_fixed 3 <$> r_tod r) (add_metadata "time_of_day_s") b in
  let b := service_coverage ty r b in
  let s := r_status r in
  fold_left (λ b kv, on_some (flag_text <$> kv.2) (add_metadata kv.1) b)
    [("nogo", nogo s); ("rdp_overload", rdp_overload s); ("xmt_overload", xmt_overload s);
     ("monitoring_disconnected", monitoring_disconnected s); ("time_source_invalid", time_source_invalid s);
     ("psr_overload", psr_overload s); ("ssr_overload", ssr_overload s); ("mds_overload", mds_overload s)]%string b.

(** @src rust/connectors/asterix/src/asterix.rs 316-318 AsterixParser::to_event_at *)
Definition to_event_at (env : Env) (self : AsterixParser) (t : AsterixTarget) (observed : string) : ares Event :=
  map_err Build (build (set_timestamp observed (target_builder env self t))).

(** @src rust/connectors/asterix/src/asterix.rs 320-326 AsterixParser::service_event_at *)
Definition service_event_at (env : Env) (self : AsterixParser) (r : ServiceReport) (observed : string) : ares Event :=
  map_err Build (build (set_timestamp observed (service_builder env self r))).

(** Builders built in order, each with the next id and clock reading. *)
Fixpoint build_all (envs : Envs) (i : nat) (bs : list (Env → EventBuilder)) : ares (list Event) :=
  match bs with
  | [] => Ok []
  | f :: bs =>
      e ← map_err Build (build (now (envs i) (f (envs i))));
      es ← build_all envs (S i) bs;
      Ok (e :: es)
  end.

(** @src rust/connectors/asterix/src/asterix.rs 540-543 AsterixParser::parse *)
Definition is_test (t : AsterixTarget) : bool := simulated t || test_target t || field_monitor t.

(** @src rust/connectors/asterix/src/asterix.rs 539-550 AsterixParser::parse *)
Fixpoint target_events (envs : Envs) (i : nat) (self : AsterixParser) (ts : list AsterixTarget) :
    AsterixParser * ares (list Event) :=
  match ts with
  | [] => (self, Ok [])
  | t :: ts =>
      if is_test t then target_events envs i (count TestTargets self) ts
      else
        match map_err Build (build (now (envs i) (target_builder (envs i) self t))) with
        | Ok e => let '(self, r) := target_events envs (S i) self ts in (self, es ← r; Ok (e :: es))
        | Err e => (self, Err e)
        | Panic => (self, Panic)
        | NoFuel => (self, NoFuel)
        end
  end.

(** @src rust/connectors/asterix/src/asterix.rs 527-552 AsterixParser::parse *)
Definition parse (envs : Envs) (self : AsterixParser) (frame : bytes) : AsterixParser * ares (list Event) :=
  match parse_datagram self frame with
  | (self, Ok (targets, reports)) =>
      let published := filter (λ r, is_published r = true) reports in
      match build_all envs 0 ((λ r env, service_builder env self r) <$> published) with
      | Ok es =>
          let '(self, r) := target_events envs (length published) self targets in
          (self, es' ← r; Ok (es ++ es'))
      | Err e => (self, Err e)
      | Panic => (self, Panic)
      | NoFuel => (self, NoFuel)
      end
  | (self, Err e) => (self, Err e)
  | (self, Panic) => (self, Panic)
  | (self, NoFuel) => (self, NoFuel)
  end.

(** * Lemmas: any bytes *)

Lemma decode_items_safe {A} (f : A → Item * bytes → ares A) uap cat block off :
  uap_ok uap → (∀ t it, item_of uap it → safe (f t it)) → 0 ≤ off →
  match walk_record cat uap block off with
  | Ok (items, next) => off < next ≤ zlen block ∧ ∀ t, safe (for_items f items t)
  | Err _ => True
  | _ => False
  end.
Proof.
  intros [Hu _] Hf Ho. pose proof (walk_record_spec cat uap block off Hu Ho) as H.
  destruct (walk_record cat uap block off) as [[items next]| | |]; try done. destruct H as [H1 H2].
  split; [done|]. intros t. by eapply for_items_safe.
Qed.

Lemma category_safe cat uap decode block off s :
  category cat = Some (uap, decode) → 0 ≤ off →
  match walk_record cat uap block off with
  | Ok (items, next) => off < next ≤ zlen block ∧ safe (decode items s)
  | Err _ => True
  | _ => False
  end.
Proof.
  intros Hc Ho. unfold category in Hc.
  destruct (cat =? CAT010); [injection Hc as <- <-|destruct (cat =? CAT021); [injection Hc as <- <-|
    destruct (cat =? CAT048); [injection Hc as <- <-|destruct (cat =? CAT062); [injection Hc as <- <-|done]]]].
  - pose proof (decode_items_safe item_010 UAP_010 cat block off uap_010_ok item_010_safe Ho) as H.
    destruct (walk_record _ _ _ _) as [[items next]| | |]; try done. destruct H. split; [done|]. by apply safe_bind.
  - pose proof (decode_items_safe item_021 UAP_021 cat block off uap_021_ok item_021_safe Ho) as H.
    destruct (walk_record _ _ _ _) as [[items next]| | |]; try done. destruct H as [? Hd]. split; [done|apply Hd].
  - pose proof (decode_items_safe item_048 UAP_048 cat block off uap_048_ok item_048_safe Ho) as H.
    destruct (walk_record _ _ _ _) as [[items next]| | |]; try done. destruct H. split; [done|]. by apply safe_bind.
  - pose proof (decode_items_safe item_062 UAP_062 cat block off uap_062_ok item_062_safe Ho) as H.
    destruct (walk_record _ _ _ _) as [[items next]| | |]; try done. destruct H as [? Hd]. split; [done|apply Hd].
Qed.

Lemma block_tracks_safe self cat uap decode block len : category cat = Some (uap, decode) → len = zlen block → ∀ fuel off,
  0 ≤ off → len - off ≤ Z.of_nat fuel → safe (block_tracks fuel self cat uap decode block off len).
Proof.
  intros Hc Hlen. induction fuel as [|fuel IH]; intros off Ho Hf; cbn [block_tracks];
    (destruct (Z.ltb_spec off len) as [Hl|Hl]; cbn [negb]; [|done]); [lia|].
  pose proof (category_safe cat uap decode block off (sensor self) Hc Ho) as H.
  destruct (walk_record cat uap block off) as [[items next]| | |]; try done. destruct H as [Hn Hd]. cbn [mbind res_bind].
  apply safe_bind; [done|]. intros t _. apply safe_bind; [apply safe_slice; lia|]. intros s _.
  apply safe_bind; [apply IH; lia|done].
Qed.

Lemma parse_block_safe self frame : safe (parse_block self frame).
Proof.
  unfold parse_block. pose proof (block_header_spec frame) as H.
  destruct (block_header frame) as [[cat len]| | |]; try done. cbn [mbind res_bind].
  destruct (category cat) as [[uap decode]|] eqn:Hc; [|done].
  apply safe_bind; [apply safe_slice; lia|]. intros block Hb%slice_Ok%get_range_len.
  apply block_tracks_safe; [done|lia|lia|unfold zlen in *; lia].
Qed.

Lemma service_records_safe block len : len = zlen block → ∀ fuel self off,
  0 ≤ off → len - off ≤ Z.of_nat fuel → safe (service_records fuel self block off len).2.
Proof.
  intros Hlen. induction fuel as [|fuel IH]; intros self off Ho Hf; cbn [service_records];
    (destruct (Z.ltb_spec off len) as [Hl|Hl]; cbn [negb]; [|done]); [lia|].
  pose proof (decode_items_safe item_034 UAP_034 CAT034 block off uap_034_ok item_034_safe Ho) as H.
  destruct (walk_record _ _ _ _) as [[items next]| | |]; try done. destruct H as [Hn Hd]. cbn [mbind res_bind].
  specialize (Hd no_report). unfold decode_034. destruct (for_items item_034 items no_report) as [r| | |]; try done.
  cbn [mbind res_bind]. destruct (get_range_is_Some block off next) as [s Hs]; [lia..|].
  rewrite (proj2 (slice_Ok _ _ _ s) Hs). cbn [mbind res_bind].
  destruct (service_report self (with_raw r s)) as [self1 r1]. specialize (IH self1 next ltac:(lia) ltac:(lia)).
  destruct (service_records fuel self1 block next len) as [self2 rest]. by destruct rest.
Qed.

Lemma parse_service_block_safe self frame : safe (parse_service_block self frame).2.
Proof.
  unfold parse_service_block. pose proof (block_header_spec frame) as H.
  destruct (block_header frame) as [[cat len]| | |]; try done. destruct (negb _); [done|].
  destruct (get_range_is_Some frame 0 len) as [block Hb]; [lia..|]. rewrite (proj2 (slice_Ok _ _ _ block) Hb).
  apply get_range_len in Hb. apply service_records_safe; [lia|lia|unfold zlen in *; lia].
Qed.

Lemma one_block_safe self cat block : safe (one_block self cat block).2.
Proof.
  unfold one_block. destruct (bool_decide _); [apply safe_bind; [apply parse_block_safe|done]|].
  destruct (cat =? CAT034); [|done]. pose proof (parse_service_block_safe self block) as H.
  destruct (parse_service_block self block) as [s r]. by apply safe_bind.
Qed.

Lemma blocks_safe fuel : ∀ self rest, zlen rest ≤ Z.of_nat fuel → safe (blocks fuel self rest).2.
Proof.
  induction fuel as [|fuel IH]; intros self rest Hf; cbn [blocks]; destruct rest as [|b rest]; try done.
  set (all := b :: rest) in *. pose proof (block_header_spec all) as H.
  destruct (block_header all) as [[cat len]| | |]; try done. cbn [mbind res_bind].
  destruct (get_range_is_Some all 0 len) as [block Hb]; [lia..|]. rewrite (proj2 (slice_Ok _ _ _ block) Hb). cbn [mbind res_bind].
  destruct (get_range_is_Some all len (zlen all)) as [tail Ht]; [lia..|]. rewrite (proj2 (slice_Ok _ _ _ tail) Ht). cbn [mbind res_bind].
  pose proof (one_block_safe self cat block) as Hs. destruct (one_block self cat block) as [s [[ts rs]| | |]]; try done.
  apply get_range_len in Ht. specialize (IH s tail ltac:(lia)). destruct (blocks fuel s tail) as [s' more].
  apply safe_bind; [done|]. by intros [] _.
Qed.

Lemma build_all_safe envs bs : ∀ i, safe (build_all envs i bs).
Proof.
  induction bs as [|f bs IH]; intros i; [done|]. cbn [build_all].
  apply safe_bind; [apply safe_build|]. intros e _. apply safe_bind; [apply IH|done].
Qed.

Lemma build_all_Canonical envs bs : ∀ i es, build_all envs i bs = Ok es → Forall Canonical es.
Proof.
  induction bs as [|f bs IH]; intros i es; cbn [build_all]; [intros [= <-]; constructor|].
  intros (e & He & (es' & Hes & [= <-])%bind_Ok)%bind_Ok. constructor; [by eapply build_all_canonical|by eapply IH].
Qed.

Lemma target_events_ok envs ts : ∀ i self,
  safe (target_events envs i self ts).2
  ∧ ∀ es, (target_events envs i self ts).2 = Ok es → Forall Canonical es.
Proof.
  induction ts as [|t ts IH]; intros i self; cbn [target_events]; [split; [done|intros es [= <-]; constructor]|].
  destruct (is_test t); [apply IH|].
  pose proof (safe_build Build (now (envs i) (target_builder (envs i) self t))) as Hs.
  destruct (map_err Build _) as [e| | |] eqn:He; try done. destruct (IH (S i) self) as [H1 H2].
  destruct (target_events envs (S i) self ts) as [self' r]. cbn [snd] in *. split; [by apply safe_bind|].
  intros es (es' & -> & [= <-])%bind_Ok. constructor; [by eapply build_all_canonical|by apply H2].
Qed.

Lemma asterix_parse_ok envs self frame :
  safe (parse envs self frame).2 ∧ ∀ es, (parse envs self frame).2 = Ok es → Forall Canonical es.
Proof.
  unfold parse, parse_datagram. pose proof (blocks_safe (length frame) self frame ltac:(unfold zlen; lia)) as Hs.
  destruct (blocks _ self frame) as [s [[ts rs]| | |]]; try done.
  set (bs := _ <$> _). pose proof (build_all_safe envs bs 0) as Hb.
  destruct (build_all envs 0 bs) as [es| | |] eqn:He; try done.
  destruct (target_events_ok envs ts (length (filter (λ r, is_published r = true) rs)) s) as [H1 H2].
  destruct (target_events _ _ _ _) as [s' r]. cbn [snd] in *. split; [by apply safe_bind|].
  intros es0 (es' & -> & [= <-])%bind_Ok. apply Forall_app. split; [by eapply build_all_Canonical|by apply H2].
Qed.

(** * The sender *)

(** A record: the groups of its FSPEC and its items. *)
Definition Rec : Type := list group * Items.

(** A data block: tracks, service messages, or a category not decoded here. *)
Inductive WireBlock :=
| WTracks (cat : Z) (recs : list Rec)
| WService (recs : list Rec)
| WUnknown (cat : Z) (body : bytes).

Definition rec_bytes (r : Rec) : bytes := enc_record r.1 r.2.
Definition w_cat (w : WireBlock) : Z := match w with WTracks c _ => c | WService _ => CAT034 | WUnknown c _ => c end.
Definition w_body (w : WireBlock) : bytes :=
  match w with WTracks _ rs | WService rs => concat (rec_bytes <$> rs) | WUnknown _ b => b end.
Definition enc_block (w : WireBlock) : bytes := w_cat w :: be_enc 2 (3 + zlen (w_body w)) ++ w_body w.

Definition recs_ok (uap : list (Item * Field)) (rs : list Rec) : Prop := Forall (λ r, record_ok uap r.1 r.2) rs.
Definition block_ok (w : WireBlock) : Prop :=
  3 + zlen (w_body w) < 2 ^ 16 ∧
  match w with
  | WTracks cat rs => ∃ uap decode, category cat = Some (uap, decode) ∧ recs_ok uap rs
  | WService rs => recs_ok UAP_034 rs
  | WUnknown cat _ => byte_ok cat ∧ cat ∉ [CAT010; CAT021; CAT034; CAT048; CAT062]
  end.

(** What the records of a block are, each with its own bytes as its payload. *)
Fixpoint tracks_of (self : AsterixParser) (cat : Z) (decode : Items → option Sensor → ares AsterixTarget) (rs : list Rec) :
    ares (list AsterixTarget) :=
  match rs with
  | [] => Ok []
  | r :: rs =>
      t ← decode r.2 (sensor self);
      rest ← tracks_of self cat decode rs;
      Ok ((if is_track cat t then [set_raw (rec_bytes r) t] else []) ++ rest)
  end.

Fixpoint services_of (self : AsterixParser) (rs : list Rec) : AsterixParser * ares (list ServiceReport) :=
  match rs with
  | [] => (self, Ok [])
  | r :: rs =>
      match decode_034 r.2 with
      | Ok d =>
          let '(self, d) := service_report self (with_raw d (rec_bytes r)) in
          let '(self, rest) := services_of self rs in
          (self, ds ← rest; Ok (d :: ds))
      | Err e => (self, Err e)
      | Panic => (self, Panic)
      | NoFuel => (self, NoFuel)
      end
  end.

Definition block_of (self : AsterixParser) (w : WireBlock) : AsterixParser * ares (list AsterixTarget * list ServiceReport) :=
  match w with
  | WTracks cat rs =>
      (self, ts ← match category cat with Some (_, decode) => tracks_of self cat decode rs | None => Ok [] end; Ok (ts, []))
  | WService rs => let '(self, r) := services_of self rs in (self, ds ← r; Ok ([], ds))
  | WUnknown _ _ => (count IgnoredBlocks self, Ok ([], []))
  end.

Fixpoint datagram_of (self : AsterixParser) (ws : list WireBlock) : AsterixParser * ares (list AsterixTarget * list ServiceReport) :=
  match ws with
  | [] => (self, Ok ([], []))
  | w :: ws =>
      match block_of self w with
      | (self, Ok (ts, rs)) =>
          let '(self, more) := datagram_of self ws in
          (self, '(ts', rs') ← more; Ok (ts ++ ts', rs ++ rs'))
      | (self, Err e) => (self, Err e)
      | (self, Panic) => (self, Panic)
      | (self, NoFuel) => (self, NoFuel)
      end
  end.

Lemma rec_bytes_pos uap r : record_ok uap r.1 r.2 → 0 < zlen (rec_bytes r).
Proof.
  intros [Hgs _]. unfold rec_bytes, enc_record. rewrite zlen_app, enc_bitmap_zlen. destruct r.1 as [|g gs]; [done|].
  rewrite zlen_cons. pose proof (zlen_nonneg gs). pose proof (zlen_nonneg (concat r.2.*2)). lia.
Qed.

(** The walk reaches a record: its items, and where the next one starts. *)
Lemma at_record cat uap r p t :
  uap_ok uap → record_ok uap r.1 r.2 →
  walk_record cat uap (p ++ rec_bytes r ++ t) (zlen p) = Ok (r.2, zlen (p ++ rec_bytes r))
  ∧ slice (E := AsterixError) (p ++ rec_bytes r ++ t) (zlen p) (zlen (p ++ rec_bytes r)) = Ok (rec_bytes r)
  ∧ (zlen p <? zlen (p ++ rec_bytes r ++ t)) = true.
Proof.
  intros Hu Hr. pose proof (rec_bytes_pos uap r Hr). split; [by apply walk_record_enc|]. split.
  - apply slice_Ok, get_range_app; [done|]. by rewrite zlen_app.
  - rewrite !zlen_app. pose proof (zlen_nonneg t). lia.
Qed.

Lemma block_tracks_enc self cat uap decode rs : uap_ok uap → recs_ok uap rs → ∀ fuel p,
  (length rs <= fuel)%nat →
  block_tracks fuel self cat uap decode (p ++ concat (rec_bytes <$> rs)) (zlen p) (zlen (p ++ concat (rec_bytes <$> rs)))
  = tracks_of self cat decode rs.
Proof.
  intros Hu. induction 1 as [|r rs Hr Hrs IH]; intros fuel p Hf; cbn [fmap list_fmap concat tracks_of].
  { rewrite app_nil_r. by destruct fuel; cbn [block_tracks]; rewrite Z.ltb_irrefl. }
  destruct fuel as [|fuel]; [cbn in Hf; lia|]. cbn [block_tracks].
  destruct (at_record cat uap r p (concat (rec_bytes <$> rs)) Hu Hr) as (H1 & H2 & H3). rewrite H3, H1. cbn [negb mbind res_bind].
  destruct (decode r.2 (sensor self)) as [t| | |]; try done. cbn [mbind res_bind]. rewrite H2. cbn [mbind res_bind].
  specialize (IH fuel (p ++ rec_bytes r) ltac:(cbn in Hf; lia)). rewrite <- app_assoc in IH. by rewrite IH.
Qed.

Lemma service_records_enc rs : recs_ok UAP_034 rs → ∀ self fuel p,
  (length rs <= fuel)%nat →
  service_records fuel self (p ++ concat (rec_bytes <$> rs)) (zlen p) (zlen (p ++ concat (rec_bytes <$> rs)))
  = services_of self rs.
Proof.
  induction 1 as [|r rs Hr Hrs IH]; intros self fuel p Hf; cbn [fmap list_fmap concat services_of].
  { rewrite app_nil_r. by destruct fuel; cbn [service_records]; rewrite Z.ltb_irrefl. }
  destruct fuel as [|fuel]; [cbn in Hf; lia|]. cbn [service_records].
  destruct (at_record CAT034 UAP_034 r p (concat (rec_bytes <$> rs)) uap_034_ok Hr) as (H1 & H2 & H3).
  rewrite H3, H1. cbn [negb mbind res_bind]. destruct (decode_034 r.2) as [d| | |]; try done. cbn [mbind res_bind].
  rewrite H2. cbn [mbind res_bind]. destruct (service_report self (with_raw d (rec_bytes r))) as [self1 d1].
  specialize (IH self1 fuel (p ++ rec_bytes r) ltac:(cbn in Hf; lia)). rewrite <- app_assoc in IH. by rewrite IH.
Qed.

Lemma recs_length uap rs : recs_ok uap rs → (length rs <= length (concat (rec_bytes <$> rs)))%nat.
Proof.
  induction 1 as [|r rs Hr Hrs IH]; [done|]. cbn [fmap list_fmap concat length]. rewrite length_app.
  pose proof (rec_bytes_pos uap r Hr) as H. unfold zlen in H. lia.
Qed.

Lemma category_uap cat uap decode : category cat = Some (uap, decode) → uap_ok uap ∧ cat ∈ [CAT010; CAT021; CAT048; CAT062].
Proof.
  unfold category. intros H.
  destruct (Z.eqb_spec cat CAT010) as [->|]; [injection H as <- <-; split; [apply uap_010_ok|by left]|].
  destruct (Z.eqb_spec cat CAT021) as [->|]; [injection H as <- <-; split; [apply uap_021_ok|by right; left]|].
  destruct (Z.eqb_spec cat CAT048) as [->|]; [injection H as <- <-; split; [apply uap_048_ok|by right; right; left]|].
  destruct (Z.eqb_spec cat CAT062) as [->|]; [injection H as <- <-; split; [apply uap_062_ok|by right; right; right; left]|done].
Qed.

Lemma enc_block_zlen w : zlen (enc_block w) = 3 + zlen (w_body w).
Proof. unfold enc_block. rewrite zlen_cons, zlen_app, be_enc_zlen. lia. Qed.

Lemma enc_block_header w t : 3 + zlen (w_body w) < 2 ^ 16 → block_header (enc_block w ++ t) = Ok (w_cat w, zlen (enc_block w)).
Proof.
  intros Hw. rewrite enc_block_zlen. set (n := 3 + zlen (w_body w)) in *. pose proof (zlen_nonneg (w_body w)).
  assert (∃ hi lo, be_enc 2 n = [hi; lo] ∧ be_val [hi; lo] = n) as (hi & lo & He & Hv).
  { pose proof (be_val_enc 2 n) as Hv. rewrite Z.mod_small in Hv by lia. pose proof (be_enc_length 2 n) as Hl.
    destruct (be_enc 2 n) as [|hi [|lo [|? ?]]]; try done. by exists hi, lo. }
  assert (enc_block w ++ t = w_cat w :: hi :: lo :: w_body w ++ t) as -> by (unfold enc_block; fold n; by rewrite He).
  unfold block_header. rewrite Hv, !zlen_cons, zlen_app.
  pose proof (zlen_nonneg t). by replace (_ || _) with false by lia.
Qed.

(** One block, whole. *)
Lemma one_block_enc self w : block_ok w → one_block self (w_cat w) (enc_block w) = block_of self w.
Proof.
  intros [Hl Hok]. unfold one_block. pose proof (enc_block_header w [] Hl) as Hh. rewrite app_nil_r in Hh.
  assert (slice (E := AsterixError) (enc_block w) 0 (zlen (enc_block w)) = Ok (enc_block w)) as Hs.
  { apply slice_Ok. rewrite <- (app_nil_r (enc_block w)) at 1. by apply get_range_head. }
  assert (enc_block w = (w_cat w :: be_enc 2 (3 + zlen (w_body w))) ++ w_body w) as E by done.
  set (h := w_cat w :: be_enc 2 (3 + zlen (w_body w))) in *.
  assert (zlen h = 3) as H3 by (unfold h; by rewrite zlen_cons, be_enc_zlen).
  destruct w as [cat rs|rs|cat body]; cbn [w_cat w_body block_of] in *.
  - destruct Hok as (uap & decode & Hc & Hr). destruct (category_uap _ _ _ Hc) as [Hu Hin].
    rewrite bool_decide_true by done. unfold parse_block. rewrite Hh. cbn [mbind res_bind]. rewrite Hc, Hs. cbn [mbind res_bind].
    pose proof (block_tracks_enc self cat uap decode rs Hu Hr (length (enc_block (WTracks cat rs))) h) as Ht.
    rewrite <- E, H3 in Ht. rewrite Ht; [done|]. rewrite E, length_app. pose proof (recs_length _ _ Hr). lia.
  - rewrite bool_decide_false by (by intros H; repeat (apply elem_of_cons in H as [H|H]; [discriminate|]); apply elem_of_nil in H).
    unfold parse_service_block. rewrite Hh, Hs.
    change (CAT034 =? CAT034) with true. cbn [negb].
    pose proof (service_records_enc rs Hok self (length (enc_block (WService rs))) h) as Ht.
    rewrite <- E, H3 in Ht. rewrite Ht; [done|]. rewrite E, length_app. pose proof (recs_length _ _ Hok). lia.
  - destruct Hok as [_ Hn]. rewrite bool_decide_false.
    + rewrite (proj2 (Z.eqb_neq cat CAT034)); [done|]. intros ->. apply Hn. by right; right; left.
    + intros Hin. apply Hn. repeat (apply elem_of_cons in Hin as [->|Hin]; [repeat (by left) || right|]).
      all: try (by apply elem_of_nil in Hin). all: repeat (apply elem_of_cons; (by left) || right).
Qed.

Lemma blocks_enc ws : Forall block_ok ws → ∀ self fuel,
  (length ws <= fuel)%nat → blocks fuel self (concat (enc_block <$> ws)) = datagram_of self ws.
Proof.
  induction 1 as [|w ws Hw Hws IH]; intros self fuel Hf; [by destruct fuel|].
  cbn [fmap list_fmap concat datagram_of]. destruct fuel as [|fuel]; [cbn in Hf; lia|].
  assert (∃ b l, enc_block w ++ concat (enc_block <$> ws) = b :: l) as (b & l & E) by (by eexists _, _).
  cbn [blocks]. rewrite E. rewrite <- E. destruct Hw as [Hl Hok].
  rewrite enc_block_header by done. cbn [mbind res_bind].
  rewrite (proj2 (slice_Ok _ 0 _ (enc_block w))) by (by apply get_range_head). cbn [mbind res_bind].
  rewrite (proj2 (slice_Ok _ _ _ (concat (enc_block <$> ws)))).
  2: { rewrite <- (app_nil_r (concat _)) at 1. apply get_range_app; [done|]. by rewrite zlen_app. }
  cbn [mbind res_bind]. rewrite one_block_enc by done.
  destruct (block_of self w) as [self1 [[ts rs]| | |]]; try done. by rewrite IH by (cbn in Hf; lia).
Qed.

Lemma enc_blocks_length ws : (length ws <= length (concat (enc_block <$> ws)))%nat.
Proof.
  induction ws as [|w ws IH]; [done|]. cbn [fmap list_fmap concat length]. rewrite length_app.
  pose proof (enc_block_zlen w) as H. pose proof (zlen_nonneg (w_body w)). unfold zlen in *. lia.
Qed.

(** * Properties *)

(** C27: a datagram is its blocks and a block its records, whatever mix of
    categories and items they hold: each record of a known category is measured
    item by item by its UAP, decoded with exactly the items its presence bits
    name, and carries its own bytes; CAT034 records go in order into their
    radar's status; and a block of another category is counted and skipped. *)
Theorem asterix_datagram self ws :
  Forall block_ok ws → parse_datagram self (concat (enc_block <$> ws)) = datagram_of self ws.
Proof. intros Hok. apply blocks_enc; [done|apply enc_blocks_length]. Qed.

#[export] Instance asterix_parser : FrameParser := {|
  fp_state := AsterixParser; fp_error := AsterixError; fp_parse := parse
|}.

#[export] Instance asterix_laws : FrameParserLaws asterix_parser.
Proof.
  refine {| fp_inv := (λ _, True) : @fp_state asterix_parser → Prop |}; intros envs s frame.
  - intros _ _. split; [|done]. apply asterix_parse_ok.
  - intros es _ _ H. by eapply asterix_parse_ok.
Defined.
End asterix.

(** * Witnesses *)

#[local] Instance ex_trig : Trig := {|
  sin := λ x, x; cos := λ x, x; asin := λ x, x; atan2 := λ x _, x; hypot := λ x _, x
|}.

(** A plot of radar 1/2 with its time, place and squawk, a CAT034 north marker, and a
    block of a category that is not decoded. *)
Definition ex_plot : Rec :=
  ([(true, true, true, true, true, false, false)],
   [(10, [1; 2]); (140, [0; 0; 128]); (20, [0x20]); (40, [1; 0; 64; 0]); (70, [0x0E; 0xB1])]).
Definition ex_north : Rec := ([(true, true, false, false, false, false, false)], [(10, [1; 2]); (0, [1])]).
Definition ex_blocks : list WireBlock := [WTracks CAT048 [ex_plot]; WUnknown 99 [7; 7]; WService [ex_north]].

Lemma asterix_datagram_witness :
  ∃ t r self, parse_datagram (asterix_new "a" (mkEnrichment None)) (concat (enc_block <$> ex_blocks)) = (self, Ok ([t], [r]))
    ∧ AstWire.raw t = rec_bytes ex_plot ∧ squawk t = Some "7261"%string ∧ time_of_day_s t = Some (f_of_Z 1)
    ∧ ignored_blocks self = 1 ∧ north_markers self = 1.
Proof.
  do 3 eexists. split.
  - rewrite (asterix_datagram (asterix_new "a" (mkEnrichment None)) ex_blocks); [vm_compute; reflexivity|].
    constructor; [|constructor; [|constructor; [|constructor]]]; (split; [done|]).
    + eexists _, _. split; [reflexivity|]. constructor; [|constructor]. split; [done|]. cbn. split_and!; try done. by apply (chain_last 1 [] 0x20).
    + split; [done|]. vm_compute. intros H. repeat (apply elem_of_cons in H as [?|H]; [done|]). by apply elem_of_nil in H.
    + constructor; [|constructor]. split; [done|]. cbn. done.
  - vm_compute. done.
Defined.
