(* ===== verification/SapientMsg.v ===== *)
(** The SAPIENT messages the connectors read, as the vendored schema
    (rust/connectors/sapient-wire/proto) declares them, less the fields they do
    not look at. A [float] is the binary64 value it widens to; an enumeration
    field is its number. The protobuf codec itself is generated code. *)
From Stdlib Require Import ZArith Lia.
From Stdlib Require Import Strings.String.
From S2P Require Export F64.

Local Open Scope Z_scope.

(** Seconds and nanoseconds. *)
Definition Timestamp : Type := Z * Z.

(** * Locations and velocities *)

(** @src rust/connectors/sapient-wire/proto/sapient_msg/bsi_flex_335_v2_0/location.proto 21-31 Location *)
Record Location := mkLocation {
  l_x : option f64;
  l_y : option f64;
  l_z : option f64;
  l_x_error : option f64;
  l_y_error : option f64;
  l_coordinate_system : option Z;
  l_datum : option Z;
  l_utm_zone : option string
}.

(** @src rust/connectors/sapient-wire/proto/sapient_msg/bsi_flex_335_v2_0/range_bearing.proto 18-27 RangeBearing *)
Record RangeBearing := mkRangeBearing {
  rb_elevation : option f64;
  rb_azimuth : option f64;
  rb_range : option f64;
  rb_range_error : option f64;
  rb_coordinate_system : option Z;
  rb_datum : option Z
}.

Inductive LocationOneof := LLocation (l : Location) | LRangeBearing (r : RangeBearing).

Record EnuVelocity := mkEnu { east_rate : option f64; north_rate : option f64; up_rate : option f64 }.

(** * Reports *)

Record Classification := mkClass { c_type : option string; c_confidence : option f64 }.
Record TypedValue := mkTyped { i_type : option string; i_value : option string }.
Record Signal := mkSignal { s_amplitude : option f64; s_centre_frequency : option f64 }.

(** @src rust/connectors/sapient-wire/proto/sapient_msg/bsi_flex_335_v2_0/detection_report.proto 25-101 DetectionReport *)
Record DetectionReport := mkDetection {
  d_report_id : option string;
  d_object_id : option string;
  d_task_id : option string;
  d_state : option string;
  d_location : option LocationOneof;
  d_confidence : option f64;
  d_track_info : list TypedValue;
  d_object_info : list TypedValue;
  d_classification : list Classification;
  d_behaviour : list (option string);
  d_associated_file : list (option string);
  d_signal : list Signal;
  d_velocity : option EnuVelocity;
  d_colour : option string;
  d_id : option string
}.

Record Power := mkPower { p_level : option Z; p_source : Z; p_status : Z }.
Record StatusEntry := mkStatusEntry { st_level : option Z; st_value : option string; st_type : option Z }.

(** @src rust/connectors/sapient-wire/proto/sapient_msg/bsi_flex_335_v2_0/status_report.proto 20-110 StatusReport *)
Record StatusReport := mkStatus {
  sr_report_id : option string;
  sr_system : option Z;
  sr_info : option Z;
  sr_active_task_id : option string;
  sr_mode : option string;
  sr_power : option Power;
  sr_node_location : option Location;
  sr_status : list StatusEntry
}.

Record NodeDefinition := mkNodeDefinition { nd_type : option Z; nd_sub_type : list string }.
Record Capability := mkCapability {
  cap_category : option string; cap_type : option string; cap_value : option string; cap_units : option string
}.
Record Duration := mkDuration { du_units : option Z; du_value : option f64 }.

(** Either choice of a [oneof] over two enumerations is its number, tagged. *)
Inductive Coordinates := LocationUnits (v : Z) | RangeBearingUnits (v : Z).
Inductive Datum := LocationDatum (v : Z) | RangeBearingDatum (v : Z).
Record LocationType := mkLocationType { lt_coordinates : option Coordinates; lt_datum : option Datum; lt_zone : option string }.
Record EnuVelocityUnits := mkEnuUnits { east_north_rate_units : option Z; up_rate_units : option Z }.
Record VelocityType := mkVelocityType { vt_units : option EnuVelocityUnits; vt_datum : option Datum; vt_zone : option string }.
Record StatusDefinition := mkStatusDefinition { sd_status_interval : option Duration; sd_location_definition : option LocationType }.
Record ReportDefinition := mkReportDefinition { rd_category : option Z; rd_type : option string; rd_units : option string; rd_on_change : option bool }.
Record DetectionDefinition := mkDetectionDefinition {
  dd_location_type : option LocationType;
  dd_velocity_type : option VelocityType;
  dd_detection_report : list ReportDefinition;
  dd_class_confidence : list (option Z)
}.
Record TaskDefinition := mkTaskDefinition { td_concurrent_tasks : option Z; td_region_type : list Z; td_region_area : list LocationType }.
(** @src rust/connectors/sapient-wire/proto/sapient_msg/bsi_flex_335_v2_0/registration.proto 145-157 ModeDefinition *)
Record ModeDefinition := mkModeDefinition {
  md_mode_name : option string;
  md_mode_type : option Z;
  md_mode_description : option string;
  md_settle_time : option Duration;
  md_detection_definition : list DetectionDefinition;
  md_task : option TaskDefinition
}.
Record ConfigurationData := mkConfigurationData {
  cd_manufacturer : string; cd_model : string; cd_serial_number : option string; cd_software_version : option string
}.

(** @src rust/connectors/sapient-wire/proto/sapient_msg/bsi_flex_335_v2_0/registration.proto 28-39 Registration *)
Record Registration := mkRegistration {
  r_node_definition : list NodeDefinition;
  r_icd_version : option string;
  r_name : option string;
  r_short_name : option string;
  r_capabilities : list Capability;
  r_status_definition : option StatusDefinition;
  r_mode_definition : list ModeDefinition;
  r_config_data : list ConfigurationData
}.

(** @src rust/connectors/sapient-wire/proto/sapient_msg/bsi_flex_335_v2_0/alert.proto 22-65 Alert *)
Record Alert := mkAlert {
  a_alert_id : option string;
  a_alert_type : option Z;
  a_status : option Z;
  a_description : option string;
  a_location : option LocationOneof;
  a_region_id : option string;
  a_priority : option Z;
  a_ranking : option f64;
  a_confidence : option f64
}.

Record RegistrationAck := mkRegistrationAck { ra_acceptance : option bool; ra_reason : list string }.
Record Task_ := mkTask { t_task_id : option string }.
Record TaskAck := mkTaskAck { ta_task_id : option string; ta_task_status : option Z; ta_reason : list string }.

(** @src rust/connectors/sapient-wire/proto/sapient_msg/bsi_flex_335_v2_0/sapient_message.proto 36-56 SapientMessage *)
Inductive Content :=
| CRegistration (r : Registration)
| CRegistrationAck (a : RegistrationAck)
| CStatusReport (r : StatusReport)
| CDetectionReport (r : DetectionReport)
| CTask (t : Task_)
| CTaskAck (a : TaskAck)
| CAlert (a : Alert)
| CAlertAck
| CError (messages : list string).

Record SapientMessage := mkMessage {
  m_timestamp : option Timestamp;
  m_node_id : option string;
  m_destination_id : option string;
  m_content : option Content
}.

(** * Enumerations *)

(** The values an enumeration declares, with their names. *)
Definition Enum : Type := list (Z * string).

(** [try_from(i32).ok()] and [as_str_name]: the name of a declared value. *)
Fixpoint name_of (e : Enum) (v : Z) : option string :=
  match e with
  | [] => None
  | (w, n) :: e => if v =? w then Some n else name_of e v
  end.

Definition LAT_LNG_DEG_M : Z := 1.
Definition LAT_LNG_RAD_M : Z := 2.
Definition UTM_M : Z := 5.

(** @src rust/connectors/sapient-wire/proto/sapient_msg/bsi_flex_335_v2_0/location.proto 33-41 LocationCoordinateSystem *)
Definition LocationCoordinateSystem : Enum :=
  [(0, "LOCATION_COORDINATE_SYSTEM_UNSPECIFIED"); (1, "LOCATION_COORDINATE_SYSTEM_LAT_LNG_DEG_M");
   (2, "LOCATION_COORDINATE_SYSTEM_LAT_LNG_RAD_M"); (5, "LOCATION_COORDINATE_SYSTEM_UTM_M")]%string.

Definition RANGE_BEARING_DATUM_TRUE : Z := 1.
Definition SPEED_UNITS_KPH : Z := 2.

(** @src rust/connectors/sapient-wire/proto/sapient_msg/bsi_flex_335_v2_0/status_report.proto 54-109 PowerSource PowerStatus StatusType StatusLevel *)
Definition PowerSource : Enum :=
  [(0, "POWERSOURCE_UNSPECIFIED"); (1, "POWERSOURCE_OTHER"); (2, "POWERSOURCE_MAINS"); (3, "POWERSOURCE_INTERNAL_BATTERY");
   (4, "POWERSOURCE_EXTERNAL_BATTERY"); (5, "POWERSOURCE_GENERATOR"); (6, "POWERSOURCE_SOLAR_PV");
   (7, "POWERSOURCE_WIND_TURBINE"); (8, "POWERSOURCE_FUEL_CELL")]%string.
Definition PowerStatus : Enum := [(0, "POWERSTATUS_UNSPECIFIED"); (1, "POWERSTATUS_OK"); (2, "POWERSTATUS_FAULT")]%string.
Definition StatusType : Enum :=
  [(0, "STATUS_TYPE_UNSPECIFIED"); (1, "STATUS_TYPE_INTERNAL_FAULT"); (2, "STATUS_TYPE_EXTERNAL_FAULT");
   (3, "STATUS_TYPE_ILLUMINATION"); (4, "STATUS_TYPE_WEATHER"); (5, "STATUS_TYPE_CLUTTER"); (6, "STATUS_TYPE_EXPOSURE");
   (7, "STATUS_TYPE_MOTION_SENSITIVITY"); (8, "STATUS_TYPE_PTZ_STATUS"); (9, "STATUS_TYPE_PD"); (10, "STATUS_TYPE_FAR");
   (11, "STATUS_TYPE_NOT_DETECTING"); (12, "STATUS_TYPE_PLATFORM"); (13, "STATUS_TYPE_OTHER")]%string.
Definition StatusLevel : Enum :=
  [(0, "STATUS_LEVEL_UNSPECIFIED"); (2, "STATUS_LEVEL_INFORMATION_STATUS"); (3, "STATUS_LEVEL_WARNING_STATUS");
   (4, "STATUS_LEVEL_ERROR_STATUS")]%string.

(** @src rust/connectors/sapient-wire/proto/sapient_msg/bsi_flex_335_v2_0/registration.proto 44-66 NodeType *)
Definition NodeType : Enum :=
  [(0, "NODE_TYPE_UNSPECIFIED"); (1, "NODE_TYPE_OTHER"); (2, "NODE_TYPE_RADAR"); (3, "NODE_TYPE_LIDAR"); (4, "NODE_TYPE_CAMERA");
   (5, "NODE_TYPE_SEISMIC"); (6, "NODE_TYPE_ACOUSTIC"); (7, "NODE_TYPE_PROXIMITY_SENSOR"); (8, "NODE_TYPE_PASSIVE_RF");
   (9, "NODE_TYPE_HUMAN"); (10, "NODE_TYPE_CHEMICAL"); (11, "NODE_TYPE_BIOLOGICAL"); (12, "NODE_TYPE_RADIATION");
   (13, "NODE_TYPE_KINETIC"); (14, "NODE_TYPE_JAMMER"); (15, "NODE_TYPE_CYBER"); (16, "NODE_TYPE_LDEW"); (17, "NODE_TYPE_RFDEW");
   (18, "NODE_TYPE_MOBILE_NODE"); (19, "NODE_TYPE_POINTABLE_NODE"); (20, "NODE_TYPE_FUSION_NODE")]%string.

(** @src rust/connectors/sapient-wire/proto/sapient_msg/bsi_flex_335_v2_0/alert.proto 40-64 AlertType AlertStatus DiscretePriority *)
Definition AlertType : Enum :=
  [(0, "ALERT_TYPE_UNSPECIFIED"); (1, "ALERT_TYPE_INFORMATION"); (2, "ALERT_TYPE_WARNING"); (3, "ALERT_TYPE_CRITICAL");
   (4, "ALERT_TYPE_ERROR"); (5, "ALERT_TYPE_FATAL"); (6, "ALERT_TYPE_MODE_CHANGE")]%string.
Definition AlertStatus : Enum :=
  [(0, "ALERT_STATUS_UNSPECIFIED"); (1, "ALERT_STATUS_ACTIVE"); (2, "ALERT_STATUS_ACKNOWLEDGE"); (3, "ALERT_STATUS_REJECT");
   (4, "ALERT_STATUS_IGNORE"); (5, "ALERT_STATUS_CLEAR")]%string.
Definition DiscretePriority : Enum :=
  [(0, "DISCRETE_PRIORITY_UNSPECIFIED"); (1, "DISCRETE_PRIORITY_LOW"); (2, "DISCRETE_PRIORITY_MEDIUM"); (3, "DISCRETE_PRIORITY_HIGH")]%string.
