(* ===== verification/Sapient.v ===== *)
(** The SAPIENT ingress parser (rust/connectors/sapient/src/sapient.rs): what the
    nodes said of themselves, and the event of each report. *)
From Stdlib Require Import ZArith Lia.
From Stdlib Require Import Strings.String.
From S2P Require Export SapientMsg Parser Ontology.

Local Open Scope Z_scope.

(** @src rust/connectors/sapient/src/sapient.rs 18-19 EARTH_RADIUS_M *)
Definition EARTH_RADIUS_M : f64 := f_ratio 63710088 10.

(** @src rust/connectors/sapient-wire/src/lib.rs 33-34 ICD_VERSION_V2 *)
Definition ICD_VERSION_V2 : string := "BSI Flex 335 v2.0".

(** @src rust/connectors/sapient/src/sapient.rs 46-54 Types *)
Record Types := mkTypes { ty_detection : string; ty_track : string; ty_sensor_status : string; ty_alert : string }.

(** @src rust/connectors/sapient/src/sapient.rs 56-65 Types::default *)
Definition default_types : Types := mkTypes "sapient:detection" "sapient:track" "sapient:sensor-status" "sapient:alert".

(** @src rust/connectors/sapient/src/sapient.rs 102-110 SapientError *)
Inductive SapientError := Decode | Empty | Build (e : BuildError).

(** @src rust/connectors/sapient/src/sapient.rs 112-121 Node *)
Record Node := mkNode {
  n_name : option string;
  n_type : option string;
  n_location : option (f64 * f64 * f64);
  n_kph : bool
}.
Definition default_node : Node := mkNode None None None false.

(** @src rust/connectors/sapient/src/sapient.rs 123-124 MAX_NODES *)
Definition MAX_NODES : Z := 4096.

(** @src rust/connectors/sapient/src/sapient.rs 126-145 SapientParser *)
Record SapientParser := mkSapient {
  source_id : string;
  enrichment : Enrichment;
  entity_map : gmap string string;
  p_types : Types;
  nodes : gmap string Node;
  unmapped : Z;
  unlocated : Z;
  registrations : Z
}.

Definition with_nodes (self : SapientParser) (ns : gmap string Node) : SapientParser :=
  mkSapient (source_id self) (enrichment self) (entity_map self) (p_types self) ns (unmapped self) (unlocated self) (registrations self).

(** @src rust/connectors/sapient/src/sapient.rs 148-158 SapientParser::new *)
Definition sapient_new (src : string) (en : Enrichment) : SapientParser := mkSapient src en ∅ default_types ∅ 0 0 0.

(** @src rust/connectors/sapient/src/sapient.rs 160-163 SapientParser::with_types *)
Definition with_types (self : SapientParser) (t : Types) : SapientParser :=
  mkSapient (source_id self) (enrichment self) (entity_map self) t (nodes self) (unmapped self) (unlocated self) (registrations self).

(** * Helpers *)

(** @src rust/connectors/sapient/src/sapient.rs 851-856 enum_name *)
Definition enum_name (name : option string) (prefix : string) : string :=
  match name with
  | Some n => b2s (default (s2b n) (strip_prefix (s2b prefix) (s2b n)))
  | None => "UNSPECIFIED"
  end.

(** Over the bytes of the text: a character that is not ASCII is one gap either
    way. *)
Fixpoint key_safe_loop (out : bytes) (gap : bool) (l : bytes) : bytes :=
  match l with
  | [] => out
  | c :: l =>
      if is_alnum c then key_safe_loop (out ++ [to_lower c]) false l
      else if negb gap && negb (zlen out =? 0) then key_safe_loop (out ++ [95]) true l
      else key_safe_loop out gap l
  end.
(** @src rust/connectors/sapient/src/sapient.rs 858-873 key_safe *)
Definition key_safe (text : string) : string := b2s (trim_end_matches (Z.eqb 95) (key_safe_loop [] false (s2b text))).

(** @src rust/connectors/sapient/src/sapient.rs 875-883 fixed *)
Definition fixed (decimals : nat) (value : f64) : string :=
  let s := fmt_fixed decimals value in
  match s2b s with
  | 45 :: rest => if forallb (λ c, (c =? 48) || (c =? 46)) rest then b2s rest else s
  | _ => s
  end.

(** @src rust/connectors/sapient/src/sapient.rs 835-849 duration_seconds *)
Definition duration_seconds (d : Duration) : option f64 :=
  value ← du_value d;
  units ← du_units d;
  scale ← (if units =? 1 then Some (f_ratio 1 (10 ^ 9))
           else if units =? 2 then Some (f_ratio 1 (10 ^ 6))
           else if units =? 3 then Some (f_ratio 1 1000)
           else if units =? 4 then Some (f_of_Z 1)
           else if units =? 5 then Some (f_of_Z 60)
           else if units =? 6 then Some (f_of_Z 3600)
           else if units =? 7 then Some (f_of_Z 86400)
           else None);
  let s := f_mul value scale in
  if is_finite s && f_leb f_zero s then Some s else None.

(** [max_by] keeps the later of two that compare equal. *)
Definition confidence_gt (a b : string * option f64) : bool :=
  f_ltb (default (f_of_Z (-1)) b.2) (default (f_of_Z (-1)) a.2).

(** @src rust/connectors/sapient/src/sapient.rs 790-802 top_classification *)
Definition top_classification (classes : list Classification) : option (string * option f64) :=
  match omap (λ c, (λ t, (t, c_confidence c)) <$> c_type c) classes with
  | [] => None
  | c :: cs => Some (fold_left (λ best c, if confidence_gt best c then best else c) cs c)
  end.

(** @src rust/connectors/sapient/src/sapient.rs 804-818 wgs84 *)
Definition wgs84 (loc : Location) : option (f64 * f64 * f64) :=
  system ← l_coordinate_system loc;
  _ ← name_of LocationCoordinateSystem system;
  x ← l_x loc;
  y ← l_y loc;
  '(la, lo) ← (if system =? LAT_LNG_DEG_M then Some (y, x)
               else if system =? LAT_LNG_RAD_M then Some (to_degrees y, to_degrees x)
               else None);
  if negb (in_range (f_of_Z (-90)) (f_of_Z 90) la) || negb (in_range (f_of_Z (-180)) (f_of_Z 180) lo) then None
  else
    let alt := default f_zero (l_z loc) in
    if is_finite la && is_finite lo && is_finite alt then Some (la, lo, alt) else None.

Section sapient.
Context `{T : Trig}.
Variable ont : Ontology.
(** The generated codec, the time crate's formatting, the standard library's
    Unicode lower case, and the order of a [HashMap]'s keys. *)
Variable decode : bytes → option SapientMessage.
Variable rfc3339 : Timestamp → option string.
Variable to_lowercase : string → string.
Variable any_key : gmap string Node → option string.

(** @src rust/connectors/sapient/src/sapient.rs 820-833 destination *)
Definition destination (lat_deg lon_deg bearing_deg distance_m : f64) : f64 * f64 :=
  let lat1 := to_radians lat_deg in
  let lon1 := to_radians lon_deg in
  let brg := to_radians bearing_deg in
  let d := f_div distance_m EARTH_RADIUS_M in
  let lat2 := asin (f_add (f_mul (sin lat1) (cos d)) (f_mul (f_mul (cos lat1) (sin d)) (cos brg))) in
  let lon2 := f_add lon1 (atan2 (f_mul (f_mul (sin brg) (sin d)) (cos lat1)) (f_sub (cos d) (f_mul (sin lat1) (sin lat2)))) in
  let lon2 := f_sub (f_rem (f_add (to_degrees lon2) (f_of_Z 540)) (f_of_Z 360)) (f_of_Z 180) in
  (to_degrees lat2, lon2).

(** @src rust/connectors/sapient/src/sapient.rs 170-183 SapientParser::with_entity_map *)
Definition with_entity_map (self : SapientParser) (map : list (string * string)) : option SapientParser :=
  if forallb (λ '(_, t), has_byte 58 (s2b t)) map then
    Some (mkSapient (source_id self) (enrichment self)
      (fold_left (λ m '(class, t), <[to_lowercase (b2s (trim (s2b class))) := t]> m) map (entity_map self))
      (p_types self) (nodes self) (unmapped self) (unlocated self) (registrations self))
  else None.

(** * What is remembered of the nodes *)

(** @src rust/connectors/sapient/src/sapient.rs 218-225 SapientParser::node *)
Definition node (self : SapientParser) (node_id : string) : Node := default default_node (nodes self !! node_id).

(** @src rust/connectors/sapient/src/sapient.rs 227-240 SapientParser::update_node *)
Definition update_node (node_id : string) (f : Node → Node) (self : SapientParser) : SapientParser :=
  match nodes self !! node_id with
  | Some n => with_nodes self (<[node_id := f n]> (nodes self))
  | None =>
      let ns :=
        if MAX_NODES <=? Z.of_nat (size (nodes self)) then
          match any_key (nodes self) with Some victim => delete victim (nodes self) | None => nodes self end
        else nodes self in
      with_nodes self (<[node_id := f (default default_node (ns !! node_id))]> ns)
  end.

(** * Events *)

Definition gov := governed ont.
Definition add_all {A} (f : A → EventBuilder → EventBuilder) (l : list A) (b : EventBuilder) : EventBuilder :=
  fold_left (λ b x, f x b) l b.
(** [for (i, x) in l.iter().enumerate()], from index [i]. *)
Fixpoint add_indexed {A} (f : string → A → EventBuilder → EventBuilder) (i : Z) (l : list A) (b : EventBuilder) : EventBuilder :=
  match l with [] => b | x :: l => add_indexed f (i + 1) l (f (show i) x b) end.

(** @src rust/connectors/sapient/src/sapient.rs 242-263 SapientParser::builder *)
Definition sapient_builder (env : Env) (self : SapientParser) (ty node_id : string) (observed : option string) (raw : bytes) : EventBuilder :=
  let b := set_payload raw (new_id env (allow_unnamespaced_entity_type (builder_new (source_id self) ty))) in
  let b := add_metadata "sapient_version" ICD_VERSION_V2 (add_metadata "node_id" node_id b) in
  let b := match observed with Some ts => set_timestamp ts b | None => now env b end in
  on_some (hostility (enrichment self)) (attribute "hostility") b.

Definition cat (a b : string) : string := (a ++ b)%string.

(** @src rust/connectors/sapient/src/sapient.rs 385-441 SapientParser::place *)
Definition place (ty : string) (loc : Location) (prefix : string) (b : EventBuilder) : EventBuilder :=
  match wgs84 loc with
  | Some (la, lo, alt) =>
      let b := set_location la lo alt b in
      let b := on_true (bool_decide (l_z loc = None)) (add_metadata "altitude_known" "false") b in
      match l_x_error loc, l_y_error loc with
      | Some xe, Some ye =>
          if bool_decide (l_coordinate_system loc = Some UTM_M) then
            gov ty "position_accuracy_h_m" (fixed 1 (f_sqrt (f_add (f_mul xe xe) (f_mul ye ye)))) b
          else add_metadata (cat prefix "_y_error") (fixed 6 ye) (add_metadata (cat prefix "_x_error") (fixed 6 xe) b)
      | _, _ => b
      end
  | None =>
      let b := on_some (fixed 3 <$> l_x loc) (add_metadata (cat prefix "_x")) b in
      let b := on_some (fixed 3 <$> l_y loc) (add_metadata (cat prefix "_y")) b in
      let b := on_some (fixed 3 <$> l_z loc) (add_metadata (cat prefix "_z")) b in
      let b := on_some (l_utm_zone loc) (add_metadata (cat prefix "_utm_zone")) b in
      add_metadata (cat prefix "_coordinate_system")
        (enum_name (l_coordinate_system loc ≫= name_of LocationCoordinateSystem) "LOCATION_COORDINATE_SYSTEM_") b
  end.

(** The scales of a range and bearing's angles and range. *)
(** @src rust/connectors/sapient/src/sapient.rs 451-460 SapientParser::place_relative *)
Definition rb_scales (system : option Z) : f64 * f64 :=
  let deg := f_div (f_of_Z 180) PI in
  let v := default 0 system in
  if v =? 1 then (f_of_Z 1, f_of_Z 1)
  else if v =? 2 then (deg, f_of_Z 1)
  else if v =? 3 then (f_of_Z 1, f_of_Z 1000)
  else if v =? 4 then (deg, f_of_Z 1000)
  else (S754_nan, S754_nan).

(** The position a range and bearing states, against the node's. *)
(** @src rust/connectors/sapient/src/sapient.rs 461-487 SapientParser::place_relative *)
Definition relative (at_ : option (f64 * f64 * f64)) (rb : RangeBearing) : option (f64 * f64 * f64) :=
  let '(angle, scale) := rb_scales (rb_coordinate_system rb) in
  let elevation := match rb_elevation rb with Some e => f_mul e angle | None => f_zero end in
  '(la0, lo0, alt0) ← at_;
  az ← (λ a, f_mul a angle) <$> rb_azimuth rb;
  r ← (λ r, f_mul r scale) <$> rb_range rb;
  if bool_decide (rb_datum rb = Some RANGE_BEARING_DATUM_TRUE) && is_finite az && is_finite r && f_leb f_zero r then
    let '(la, lo) := destination la0 lo0 az (f_mul r (cos (to_radians elevation))) in
    Some (la, lo, f_add alt0 (f_mul r (sin (to_radians elevation))))
  else None.

(** The flag says the report was published without a position. *)
(** @src rust/connectors/sapient/src/sapient.rs 443-504 SapientParser::place_relative *)
Definition place_relative (ty : string) (at_ : option (f64 * f64 * f64)) (rb : RangeBearing) (b : EventBuilder) : EventBuilder * bool :=
  let '(angle, scale) := rb_scales (rb_coordinate_system rb) in
  let b := on_some ((λ a, f_mul a angle) <$> rb_azimuth rb) (λ a, on_true (is_finite a) (add_metadata "bearing_deg" (fixed 2 a))) b in
  let b := on_some ((λ r, f_mul r scale) <$> rb_range rb) (λ r, on_true (is_finite r) (add_metadata "range_m" (fixed 1 r))) b in
  match relative at_ rb with
  | Some (la, lo, alt) =>
      (on_some (rb_range_error rb) (λ re, gov ty "position_accuracy_h_m" (fixed 1 (f_mul re scale))) (set_location la lo alt b), false)
  | None =>
      let reason :=
        if negb (bool_decide (rb_datum rb = Some RANGE_BEARING_DATUM_TRUE)) then "bearing datum is not true north"%string
        else match at_ with None => "node position not yet reported" | Some _ => "range or bearing missing" end%string in
      (add_metadata "unlocated_reason" reason b, true)
  end.

Definition count_unlocated (n : bool) (self : SapientParser) : SapientParser :=
  if n then mkSapient (source_id self) (enrichment self) (entity_map self) (p_types self) (nodes self) (unmapped self)
    (fetch_add (unlocated self) 1) (registrations self) else self.

(** Either way a report is located; the flag as in [place_relative]. *)
Definition place_oneof (ty : string) (at_ : option (f64 * f64 * f64)) (l : option LocationOneof) (b : EventBuilder) : EventBuilder * bool :=
  match l with
  | Some (LLocation loc) => (place ty loc "location" b, false)
  | Some (LRangeBearing rb) => place_relative ty at_ rb b
  | None => (b, false)
  end.

(** @src rust/connectors/sapient/src/sapient.rs 273-281 SapientParser::detection *)
Definition detection_type (self : SapientParser) (r : DetectionReport) : string :=
  match top_classification (d_classification r) ≫= λ '(class, _), entity_map self !! to_lowercase class with
  | Some ty => ty
  | None => match d_track_info r with [] => ty_detection (p_types self) | _ => ty_track (p_types self) end
  end.

(** @src rust/connectors/sapient/src/sapient.rs 309-328 SapientParser::detection *)
Definition detection_velocity (kph : bool) (ty : string) (v : EnuVelocity) (b : EventBuilder) : EventBuilder :=
  let scale := if kph then f_div (f_of_Z 1000) (f_of_Z 3600) else f_of_Z 1 in
  let b :=
    match east_rate v, north_rate v with
    | Some e, Some n =>
        let e := f_mul e scale in
        let n := f_mul n scale in
        let speed := f_sqrt (f_add (f_mul e e) (f_mul n n)) in
        let course := f_rem (f_add (to_degrees (atan2 e n)) (f_of_Z 360)) (f_of_Z 360) in
        gov ty "course" (fixed 1 course) (gov ty "speed" (fixed 2 speed) b)
    | _, _ => b
    end in
  let b := on_some (up_rate v) (λ up, gov ty "vertical_rate" (fixed 2 (f_mul up scale))) b in
  on_true kph (add_metadata "velocity_units" "km/h") b.

(** @src rust/connectors/sapient/src/sapient.rs 330-378 SapientParser::detection *)
Definition detection_details (ty : string) (r : DetectionReport) (b : EventBuilder) : EventBuilder :=
  let b := on_some (top_classification (d_classification r)) (λ '(class, confidence) b,
    let b := gov ty "object_class" class (gov ty "sapient_classification" class b) in
    on_some (fixed 3 <$> confidence) (gov ty "sapient_classification_confidence") b) b in
  let b := add_indexed (λ i c, on_some (c_type c) (add_metadata (cat "classification_" i))) 1 (drop 1 (d_classification r)) b in
  let b := on_some (head (omap (λ x, x) (d_behaviour r))) (gov ty "sapient_behaviour") b in
  let b := on_some (d_state r) (gov ty "sapient_state") b in
  let b := on_some (d_id r) (add_metadata "native_id") b in
  let b := on_some (d_colour r) (add_metadata "colour") b in
  let b := add_all (λ info b, match i_type info, i_value info with
                              | Some t, Some v => add_metadata (cat "info_" (key_safe t)) v b
                              | _, _ => b
                              end) (d_track_info r ++ d_object_info r) b in
  let b := add_indexed (λ i s b,
    let b := on_some (fixed 1 <$> s_centre_frequency s) (add_metadata (cat "signal_" (cat i "_centre_frequency"))) b in
    on_some (fixed 1 <$> s_amplitude s) (add_metadata (cat "signal_" (cat i "_amplitude"))) b) 0 (d_signal r) b in
  add_indexed (λ i url, on_some url (add_metadata (cat "file_" (cat i "_url")))) 0 (d_associated_file r) b.

(** @src rust/connectors/sapient/src/sapient.rs 265-383 SapientParser::detection *)
Definition detection (env : Env) (self : SapientParser) (node_id : string) (r : DetectionReport) (observed : option string) (raw : bytes) :
    EventBuilder * bool :=
  let nd := node self node_id in
  let ty := detection_type self r in
  let object_id := default ""%string (d_object_id r) in
  let b := sapient_builder env self ty node_id observed raw in
  let b := add_metadata "object_id" object_id (add_metadata "source_uid" (cat node_id (cat ":" object_id)) b) in
  let b := on_some (d_report_id r) (add_metadata "report_id") b in
  let b := on_some (d_task_id r) (add_metadata "task_id") b in
  let b := on_some (d_confidence r) (λ c, on_true (in_range f_zero (f_of_Z 1) c) (set_confidence c)) b in
  let '(b, un) := place_oneof ty (n_location nd) (d_location r) b in
  let b := on_some (d_velocity r) (detection_velocity (n_kph nd) ty) b in
  let b := detection_details ty r b in
  (on_some (n_name nd) (add_metadata "node_name") b, un).

(** @src rust/connectors/sapient/src/sapient.rs 532-541 SapientParser::status *)
Definition system_name (v : Z) : option string :=
  if v =? 1 then Some "OK"%string
  else if v =? 2 then Some "WARNING"%string
  else if v =? 3 then Some "ERROR"%string
  else if v =? 5 then Some "GOODBYE"%string
  else None.

(** @src rust/connectors/sapient/src/sapient.rs 513-517 SapientParser::status *)
Definition remember_position (node_id : string) (r : StatusReport) (self : SapientParser) : SapientParser :=
  match sr_node_location r ≫= wgs84 with
  | Some pos => update_node node_id (λ n, mkNode (n_name n) (n_type n) (Some pos) (n_kph n)) self
  | None => self
  end.

(** @src rust/connectors/sapient/src/sapient.rs 546-570 SapientParser::status *)
Definition status_power (t : string) (p : Power) (b : EventBuilder) : EventBuilder :=
  let b := on_some (p_level p) (λ level, on_true ((0 <=? level) && (level <=? 100)) (gov t "sapient_power_level" (show level))) b in
  add_metadata "power_status" (enum_name (name_of PowerStatus (p_status p)) "POWERSTATUS_")
    (add_metadata "power_source" (enum_name (name_of PowerSource (p_source p)) "POWERSOURCE_") b).

(** @src rust/connectors/sapient/src/sapient.rs 574-592 SapientParser::status *)
Definition status_entry (s : StatusEntry) (b : EventBuilder) : EventBuilder :=
  let kind := enum_name (st_type s ≫= name_of StatusType) "STATUS_TYPE_" in
  let level := enum_name (st_level s ≫= name_of StatusLevel) "STATUS_LEVEL_" in
  add_metadata (cat "status_" (to_lowercase kind)) (cat level (cat ": " (default ""%string (st_value s)))) b.

(** Against the parser with the position remembered. *)
(** @src rust/connectors/sapient/src/sapient.rs 506-600 SapientParser::status *)
Definition sensor_status (env : Env) (self : SapientParser) (node_id : string) (r : StatusReport) (observed : option string) (raw : bytes) : EventBuilder :=
  let nd := node self node_id in
  let t := ty_sensor_status (p_types self) in
  let b := add_metadata "source_uid" node_id (sapient_builder env self t node_id observed raw) in
  let b := on_some (sr_report_id r) (add_metadata "report_id") b in
  let b := on_some (sr_node_location r) (λ loc, place t loc "node") b in
  let b := on_some (sr_system r ≫= system_name) (gov t "sapient_system") b in
  let b := on_some (sr_mode r) (gov t "sapient_mode") b in
  let b := on_some (sr_power r) (status_power t) b in
  let b := on_some (sr_active_task_id r) (add_metadata "active_task_id") b in
  let b := add_all status_entry (sr_status r) b in
  let b := on_some (n_type nd) (gov t "sapient_node_type") b in
  on_some (n_name nd) (add_metadata "node_name") b.

(** @src rust/connectors/sapient/src/sapient.rs 609-614 SapientParser::registration *)
Definition node_type (reg : Registration) : option string :=
  d ← head (r_node_definition reg);
  t ← nd_type d;
  n ← name_of NodeType t;
  Some (enum_name (Some n) "NODE_TYPE_").

(** @src rust/connectors/sapient/src/sapient.rs 615-627 SapientParser::registration *)
Definition velocity_kph (reg : Registration) : bool :=
  existsb (λ m, existsb (λ d,
    match dd_velocity_type d ≫= vt_units with
    | Some e => bool_decide (east_north_rate_units e = Some SPEED_UNITS_KPH)
    | None => false
    end) (md_detection_definition m)) (r_mode_definition reg).

(** @src rust/connectors/sapient/src/sapient.rs 628-632 SapientParser::registration *)
Definition remember_node (node_id : string) (reg : Registration) : SapientParser → SapientParser :=
  update_node node_id (λ n, mkNode (r_name reg) (node_type reg) (n_location n) (velocity_kph reg)).

(** @src rust/connectors/sapient/src/sapient.rs 664-677 SapientParser::registration *)
Definition capability_text (c : Capability) : string :=
  String.concat " " (omap (λ x, x) [cap_category c; cap_type c; cap_value c; cap_units c]).

(** @src rust/connectors/sapient/src/sapient.rs 602-690 SapientParser::registration *)
Definition registration (env : Env) (self : SapientParser) (node_id : string) (reg : Registration) (observed : option string) (raw : bytes) : EventBuilder :=
  let t := ty_sensor_status (p_types self) in
  let b := add_metadata "source_uid" node_id (sapient_builder env self t node_id observed raw) in
  let b := add_metadata "sapient_message" "registration" b in
  let b := on_some (node_type reg) (gov t "sapient_node_type") b in
  let b := on_some (r_name reg) (add_metadata "node_name") b in
  let b := on_some (r_short_name reg) (add_metadata "node_short_name") b in
  let b := on_some (r_icd_version reg) (add_metadata "icd_version") b in
  let b := on_some ((r_status_definition reg ≫= sd_status_interval) ≫= duration_seconds) (λ i, gov t "update_interval_s" (fixed 1 i)) b in
  let b := add_all (add_metadata "node_sub_type") (r_node_definition reg ≫= nd_sub_type) b in
  let b := add_indexed (λ i c, add_metadata (cat "capability_" i) (capability_text c)) 0 (r_capabilities reg) b in
  on_some (head (r_config_data reg)) (λ c b,
    let b := on_true (negb (String.eqb (cd_manufacturer c) "")) (add_metadata "manufacturer" (cd_manufacturer c)) b in
    let b := on_true (negb (String.eqb (cd_model c) "")) (add_metadata "model" (cd_model c)) b in
    on_some (cd_serial_number c) (add_metadata "serial_number") b) b.

(** A declared value other than the first, [Unspecified]. *)
Definition specified (e : Enum) (v : option Z) (prefix : string) : option string :=
  z ← v; n ← name_of e z; if z =? 0 then None else Some (enum_name (Some n) prefix).

(** @src rust/connectors/sapient/src/sapient.rs 692-765 SapientParser::alert *)
Definition alert (env : Env) (self : SapientParser) (node_id : string) (a : Alert) (observed : option string) (raw : bytes) : EventBuilder * bool :=
  let nd := node self node_id in
  let t := ty_alert (p_types self) in
  let alert_id := default ""%string (a_alert_id a) in
  let b := sapient_builder env self t node_id observed raw in
  let b := add_metadata "alert_id" alert_id (add_metadata "source_uid" (cat node_id (cat ":" alert_id)) b) in
  let b := on_some (specified AlertType (a_alert_type a) "ALERT_TYPE_") (gov t "sapient_alert_type") b in
  let b := on_some (specified AlertStatus (a_status a) "ALERT_STATUS_") (gov t "sapient_alert_status") b in
  let b := on_some (specified DiscretePriority (a_priority a) "DISCRETE_PRIORITY_") (gov t "sapient_priority") b in
  let b := on_some (a_ranking a) (λ r, on_true (in_range f_zero (f_of_Z 1) r) (gov t "sapient_ranking" (fixed 3 r))) b in
  let b := on_some (a_confidence a) (λ c, on_true (in_range f_zero (f_of_Z 1) c) (set_confidence c)) b in
  let b := on_some (a_description a) (add_metadata "description") b in
  let b := on_some (a_region_id a) (add_metadata "region_id") b in
  place_oneof t (n_location nd) (a_location a) b.

Definition count_registration (self : SapientParser) : SapientParser :=
  mkSapient (source_id self) (enrichment self) (entity_map self) (p_types self) (nodes self) (unmapped self) (unlocated self)
    (fetch_add (registrations self) 1).
Definition count_unmapped (self : SapientParser) : SapientParser :=
  mkSapient (source_id self) (enrichment self) (entity_map self) (p_types self) (nodes self) (fetch_add (unmapped self) 1)
    (unlocated self) (registrations self).

(** What the parser remembers of a message, and the event to build from it. *)
(** @src rust/connectors/sapient/src/sapient.rs 194-214 SapientParser::parse_message *)
Definition report (env : Env) (self : SapientParser) (node_id : string) (c : Content) (observed : option string) (frame : bytes) :
    SapientParser * option EventBuilder :=
  match c with
  | CDetectionReport r =>
      let '(b, un) := detection env self node_id r observed frame in (count_unlocated un self, Some b)
  | CStatusReport r =>
      let self := remember_position node_id r self in (self, Some (sensor_status env self node_id r observed frame))
  | CRegistration reg =>
      let self := remember_node node_id reg (count_registration self) in
      (self, Some (registration env self node_id reg observed frame))
  | CAlert a =>
      let '(b, un) := alert env self node_id a observed frame in (count_unlocated un self, Some b)
  | CRegistrationAck _ | CTask _ | CTaskAck _ | CAlertAck | CError _ => (count_unmapped self, None)
  end.

(** @src rust/connectors/sapient/src/sapient.rs 185-216 SapientParser::parse_message *)
Definition parse_message (env : Env) (self : SapientParser) (frame : bytes) : SapientParser * res SapientError (option Event) :=
  match decode frame with
  | None => (self, Err Decode)
  | Some m =>
      let observed := m_timestamp m ≫= rfc3339 in
      let node_id := default ""%string (m_node_id m) in
      match m_content m with
      | None => (self, Err Empty)
      | Some c =>
          let '(self, b) := report env self node_id c observed frame in
          (self, match b with Some b => Some <$> map_err Build (build b) | None => Ok None end)
      end
  end.

(** @src rust/connectors/sapient/src/sapient.rs 768-771 SapientParser::parse *)
Definition parse (envs : Envs) (self : SapientParser) (frame : bytes) : SapientParser * res SapientError (list Event) :=
  let '(self, r) := parse_message (envs 0%nat) self frame in
  (self, (λ e, match e with Some e => [e] | None => [] end) <$> r).

(** * What the steps of an event leave alone *)

(** The builder after a step: the same report, with more said of it. *)
Record extends (b b' : EventBuilder) : Prop := {
  ext_location : location b' = location b;
  ext_payload : payload b' = payload b;
  ext_metadata : metadata b `prefix_of` metadata b'
}.

#[export] Instance extends_preorder : PreOrder extends.
Proof.
  split; [by intros b; split|]. intros a b c [H1 H2 H3] [K1 K2 K3].
  split; [by rewrite K1|by rewrite K2|by etrans].
Qed.

Create HintDb says.

Lemma extends_metadata k v b : extends b (add_metadata k v b).
Proof. split; [done..|]. by apply prefix_app_r. Qed.
Lemma extends_attribute k v b : extends b (attribute k v b).
Proof. by split. Qed.
Lemma extends_confidence v b : extends b (set_confidence v b).
Proof. by split. Qed.
Lemma extends_governed o ty k v b : extends b (governed o ty k v b).
Proof. unfold governed. destruct (governs _ _ _); [apply extends_attribute|apply extends_metadata]. Qed.
Lemma extends_on_some {A} (o : option A) f b : (∀ x b, extends b (f x b)) → extends b (on_some o f b).
Proof. intros H. destruct o; cbn [on_some]; [apply H|reflexivity]. Qed.
Lemma extends_on_true c f b : (∀ b, extends b (f b)) → extends b (on_true c f b).
Proof. intros H. destruct c; cbn [on_true]; [apply H|reflexivity]. Qed.
Lemma extends_all {A} (f : A → EventBuilder → EventBuilder) l : (∀ x b, extends b (f x b)) → ∀ b, extends b (add_all f l b).
Proof. intros H. unfold add_all. induction l as [|x l IH]; intros b; [done|]. cbn [fold_left]. rewrite <- IH. apply H. Qed.
Lemma extends_indexed {A} (f : string → A → EventBuilder → EventBuilder) l :
  (∀ i x b, extends b (f i x b)) → ∀ i b, extends b (add_indexed f i l b).
Proof. intros H. induction l as [|x l IH]; intros i b; [done|]. cbn [add_indexed]. rewrite <- IH. apply H. Qed.

(** Take a chain of steps apart, outermost first. *)
Ltac extends_step :=
  match goal with
  | |- extends ?b ?b => reflexivity
  | |- extends ?b (on_some ?o ?f ?c) => transitivity c; [|apply extends_on_some; intros ? ?]
  | |- extends ?b (on_true ?o ?f ?c) => transitivity c; [|apply extends_on_true; intros ?]
  | |- extends ?b (add_all ?f ?l ?c) => transitivity c; [|apply extends_all; intros ? ?]
  | |- extends ?b (add_indexed ?f ?i ?l ?c) => transitivity c; [|apply extends_indexed; intros ? ? ?]
  | |- extends ?b (add_metadata ?k ?v ?c) => transitivity c; [|apply extends_metadata]
  | |- extends ?b (set_confidence ?v ?c) => transitivity c; [|apply extends_confidence]
  | |- extends ?b (gov ?ty ?k ?v ?c) => transitivity c; [|apply extends_governed]
  | |- extends ?b (match ?x with _ => _ end) => destruct x
  | |- extends ?b ((match ?x with _ => _ end) _) => destruct x
  end.
Ltac extends_tac := repeat (cbv zeta; first [extends_step | progress cbv beta]).

Lemma built_of {E} (f : BuildError → E) b e :
  map_err f (build b) = Ok e → ev_location e = location b ∧ ev_payload e = payload b ∧ NoDup (metadata b).*1.
Proof.
  destruct (build b) as [e'| | |] eqn:H; try done. intros [= ->].
  destruct (build_Ok b e H) as (i & ts & Hv & ->). split_and!; [done..|]. apply Hv.
Qed.

(** * The place of a report *)

Definition point (p : f64 * f64 * f64) : GeoPoint := mkGeoPoint p.1.1 p.1.2 p.2.

Lemma relative_placed ty at_ rb b :
  let '(b', un) := place_relative ty at_ rb b in
  location b' = match relative at_ rb with Some p => Some (point p) | None => location b end
  ∧ payload b' = payload b ∧ un = bool_decide (relative at_ rb = None).
Proof.
  unfold place_relative. destruct (rb_scales _) as [angle scale].
  set (b1 := on_some _ _ (on_some _ _ b)).
  assert (extends b b1) as [Hl Hp _] by (unfold b1; extends_tac).
  destruct (relative at_ rb) as [[[la lo] alt]|]; cbv zeta.
  - split_and!; [| |done].
    + match goal with |- location ?x = _ => assert (extends (set_location la lo alt b1) x) as [H _ _] by extends_tac end. by rewrite H.
    + match goal with |- payload ?x = _ => assert (extends (set_location la lo alt b1) x) as [_ H _] by extends_tac end. by rewrite H.
  - by split_and!.
Qed.

(** The report's place is set once, on the builder that opens it. *)
Lemma detection_placed env self id r observed raw :
  ∃ b1, extends (sapient_builder env self (detection_type self r) id observed raw) b1 ∧
    let '(b2, un) := place_oneof (detection_type self r) (n_location (node self id)) (d_location r) b1 in
    extends b2 (detection env self id r observed raw).1 ∧ (detection env self id r observed raw).2 = un.
Proof.
  unfold detection. cbv zeta. match goal with |- context [place_oneof _ _ _ (on_some ?o ?f ?b)] => exists (on_some o f b) end.
  split; [extends_tac|]. destruct (place_oneof _ _ _ _) as [b2 un]. cbn [fst snd]. split; [|done].
  unfold detection_velocity, detection_details. extends_tac.
Qed.

Lemma alert_placed env self id a observed raw :
  ∃ b1, extends (sapient_builder env self (ty_alert (p_types self)) id observed raw) b1 ∧
    alert env self id a observed raw = place_oneof (ty_alert (p_types self)) (n_location (node self id)) (a_location a) b1.
Proof.
  unfold alert. cbv zeta. match goal with |- context [place_oneof _ _ _ (on_some ?o ?f ?b)] => exists (on_some o f b) end.
  split; [extends_tac|done].
Qed.

Lemma sapient_builder_fresh env self ty id observed raw :
  location (sapient_builder env self ty id observed raw) = None ∧ payload (sapient_builder env self ty id observed raw) = raw.
Proof. unfold sapient_builder. by destruct observed, (hostility (enrichment self)). Qed.

(** A report with a range and bearing is placed against the node's position. *)
Lemma range_bearing_event env self id c rb observed raw :
  match c with CDetectionReport r => d_location r | CAlert a => a_location a | _ => None end = Some (LRangeBearing rb) →
  ∃ b, (report env self id c observed raw).2 = Some b ∧ payload b = raw
    ∧ location b = point <$> relative (n_location (node self id)) rb
    ∧ unlocated (report env self id c observed raw).1
      = if relative (n_location (node self id)) rb then unlocated self else fetch_add (unlocated self) 1.
Proof.
  intros Hc. destruct c as [| | |r| | |a| |]; try done.
  - cbn [report]. pose proof (detection_placed env self id r observed raw) as (b1 & [Hl Hp _] & H).
    rewrite Hc in H. cbn [place_oneof] in H.
    destruct (sapient_builder_fresh env self (detection_type self r) id observed raw) as [El Ep].
    pose proof (relative_placed (detection_type self r) (n_location (node self id)) rb b1) as Hr.
    destruct (place_relative _ _ _ _) as [b2 un]. destruct Hr as (Hr1 & Hr2 & ->), H as [[H1 H2 _] H3].
    destruct (detection env self id r observed raw) as [b un]. cbn [fst snd] in *. subst un.
    exists b. split_and!; [done|by rewrite H2, Hr2, Hp| |].
    + rewrite H1, Hr1. destruct (relative _ _); [done|]. by rewrite Hl.
    + by destruct (relative _ _).
  - cbn [report]. pose proof (alert_placed env self id a observed raw) as (b1 & [Hl Hp _] & H).
    rewrite Hc in H. cbn [place_oneof] in H.
    destruct (sapient_builder_fresh env self (ty_alert (p_types self)) id observed raw) as [El Ep].
    pose proof (relative_placed (ty_alert (p_types self)) (n_location (node self id)) rb b1) as Hr. rewrite H.
    destruct (place_relative _ _ _ _) as [b2 un]. destruct Hr as (Hr1 & Hr2 & ->).
    exists b2. split_and!; [done|by rewrite Hr2, Hp| |].
    + rewrite Hr1. destruct (relative _ _); [done|]. by rewrite Hl.
    + by destruct (relative _ _).
Qed.

(** * What a node has said *)

(** The messages of a stream that carry content, each with its sender. *)
Definition contents (l : list (Envs * bytes)) : list (string * Content) :=
  omap (λ '(_, f), m ← decode f; c ← m_content m; Some (default ""%string (m_node_id m), c)) l.
Definition hear (self : SapientParser) (l : list (Envs * bytes)) : SapientParser :=
  fold_left (λ self '(envs, f), (parse envs self f).1) l self.

Definition stated_position (c : Content) : option (f64 * f64 * f64) :=
  match c with CStatusReport r => sr_node_location r ≫= wgs84 | _ => None end.
Definition registered (c : Content) : option Registration :=
  match c with CRegistration reg => Some reg | _ => None end.
Definition of_node (id : string) (h : list (string * Content)) : list Content := omap (λ '(n, c), if decide (n = id) then Some c else None) h.

(** The node's last position and its last registration. *)
Definition last_said (id : string) (h : list (string * Content)) : Node :=
  let reg := last (omap registered (of_node id h)) in
  mkNode (reg ≫= r_name) (reg ≫= node_type) (last (omap stated_position (of_node id h))) (default false (velocity_kph <$> reg)).

(** The nodes there is something to remember of. *)
Definition remembered (c : Content) : bool := bool_decide (is_Some (stated_position c) ∨ is_Some (registered c)).
Definition speakers (h : list (string * Content)) : gset string :=
  list_to_set (omap (λ '(n, c), if remembered c then Some n else None) h).

Definition same_config (a b : SapientParser) : Prop :=
  source_id a = source_id b ∧ enrichment a = enrichment b ∧ entity_map a = entity_map b ∧ p_types a = p_types b.

#[local] Instance same_config_equiv : Equivalence same_config.
Proof. unfold same_config. split; [done| |]; intros ?; naive_solver congruence. Qed.

Lemma omap_snoc {A B} (f : A → option B) l x : omap f (l ++ [x]) = omap f l ++ match f x with Some y => [y] | None => [] end.
Proof. rewrite omap_app. cbn. by destruct (f x). Qed.

Lemma update_node_same id f self : node (update_node id f self) id = f (node self id).
Proof.
  unfold update_node, node. destruct (nodes self !! id) as [n|] eqn:H; cbn [with_nodes nodes]; rewrite lookup_insert_eq; cbn; [done|].
  f_equal. destruct (MAX_NODES <=? _); [|by rewrite H]. destruct (any_key _) as [v|]; [|by rewrite H].
  destruct (decide (v = id)) as [->|]; [by rewrite lookup_delete_eq|]. by rewrite lookup_delete_ne, H.
Qed.

Lemma update_node_config id f self : same_config self (update_node id f self).
Proof. unfold update_node. by destruct (nodes self !! id). Qed.

(** With room left, no other node is disturbed. *)
Lemma update_node_room id f self :
  Z.of_nat (size ({[id]} ∪ dom (nodes self))) ≤ MAX_NODES → nodes (update_node id f self) = <[id := f (node self id)]> (nodes self).
Proof.
  unfold update_node, node. destruct (nodes self !! id) as [n|] eqn:H; intros Hs; cbn [with_nodes nodes]; [done|].
  assert (id ∉ dom (nodes self)) as Hn by by apply not_elem_of_dom.
  rewrite size_union, size_singleton, size_dom in Hs by set_solver.
  replace (MAX_NODES <=? _) with false by lia. by rewrite H.
Qed.

Lemma report_config env self id c observed raw : same_config self (report env self id c observed raw).1.
Proof.
  destruct c; cbn [report].
  - transitivity (count_registration self); [done|apply update_node_config].
  - done.
  - unfold remember_position. destruct (_ ≫= _); [apply update_node_config|done].
  - destruct (detection _ _ _ _ _ _) as [b [|]]; done.
  - done.
  - done.
  - destruct (alert _ _ _ _ _ _) as [b [|]]; done.
  - done.
  - done.
Qed.

(** What one message changes. *)
Definition said (c : Content) (n : Node) : Node :=
  match registered c with
  | Some reg => mkNode (r_name reg) (node_type reg) (n_location n) (velocity_kph reg)
  | None => match stated_position c with Some pos => mkNode (n_name n) (n_type n) (Some pos) (n_kph n) | None => n end
  end.

Lemma last_said_snoc i h n c : last_said i (h ++ [(n, c)]) = if decide (n = i) then said c (last_said i h) else last_said i h.
Proof.
  unfold last_said, of_node. rewrite omap_snoc. destruct (decide (n = i)); [|by rewrite app_nil_r].
  rewrite !omap_snoc. unfold said. destruct c; cbn [registered stated_position]; rewrite ?app_nil_r, ?last_snoc; try done.
  destruct (_ ≫= wgs84); by rewrite ?app_nil_r, ?last_snoc.
Qed.

Lemma speakers_snoc h n c : speakers (h ++ [(n, c)]) = (if remembered c then {[n]} else ∅) ∪ speakers h.
Proof. unfold speakers. rewrite omap_snoc. destruct (remembered c); set_solver. Qed.

Lemma contents_snoc l envs f : contents (l ++ [(envs, f)]) = contents l ++
  match m ← decode f; c ← m_content m; Some (default ""%string (m_node_id m), c) with Some x => [x] | None => [] end.
Proof. unfold contents. by rewrite omap_snoc. Qed.

Lemma report_nodes env self id c observed raw :
  (remembered c = true → Z.of_nat (size ({[id]} ∪ dom (nodes self))) ≤ MAX_NODES) →
  nodes (report env self id c observed raw).1 = if remembered c then <[id := said c (node self id)]> (nodes self) else nodes self.
Proof.
  intros Hs. destruct c as [reg| |r|r| | |a| |]; cbn [report].
  - cbn [fst]. unfold remember_node. rewrite update_node_room by (by apply Hs). done.
  - done.
  - revert Hs. unfold remembered, remember_position, said. cbn [registered stated_position]. destruct (_ ≫= wgs84) as [pos|]; cbn [fst].
    + intros Hs. apply update_node_room, Hs. done.
    + intros _. by rewrite bool_decide_false by (intros [[? ?]|[? ?]]; done).
  - destruct (detection _ _ _ _ _ _) as [b [|]]; done.
  - done.
  - done.
  - destruct (alert _ _ _ _ _ _) as [b [|]]; done.
  - done.
  - done.
Qed.

Lemma hear_snoc self l envs f : hear self (l ++ [(envs, f)]) = (parse envs (hear self l) f).1.
Proof. unfold hear. by rewrite fold_left_app. Qed.

Lemma parse_fst envs self f : (parse envs self f).1 = (parse_message (envs 0%nat) self f).1.
Proof. unfold parse. by destruct (parse_message _ _ _). Qed.

Lemma hear_config self l : same_config self (hear self l).
Proof.
  induction l as [|[envs f] l IH] using rev_ind; [done|]. rewrite hear_snoc, parse_fst. etrans; [exact IH|].
  unfold parse_message. destruct (decode f) as [m|]; [|done]. destruct (m_content m) as [c|]; [|done].
  pose proof (report_config (envs 0%nat) (hear self l) (default ""%string (m_node_id m)) c (m_timestamp m ≫= rfc3339) f) as H.
  by destruct (report _ _ _ _ _ _).
Qed.

(** Up to the bound on the nodes, what is remembered is what each last said. *)
Lemma hear_nodes self l :
  nodes self = ∅ → Z.of_nat (size (speakers (contents l))) ≤ MAX_NODES →
  dom (nodes (hear self l)) = speakers (contents l) ∧ ∀ i, node (hear self l) i = last_said i (contents l).
Proof.
  intros Hn. induction l as [|[envs f] l IH] using rev_ind; intros Hs.
  { unfold node. cbn [hear fold_left]. rewrite Hn. split; [by rewrite dom_empty_L|]. intros i. by rewrite lookup_empty. }
  rewrite contents_snoc in Hs |- *. rewrite hear_snoc, parse_fst. unfold parse_message.
  destruct (decode f) as [m|]; [|rewrite app_nil_r in *; by apply IH]. cbn [mbind option_bind] in *.
  destruct (m_content m) as [c|]; [|rewrite app_nil_r in *; by apply IH]. cbn [mbind option_bind] in *.
  set (id := default ""%string (m_node_id m)) in *. rewrite speakers_snoc in Hs |- *.
  destruct IH as [IHd IHn].
  { etrans; [|exact Hs]. apply inj_le, subseteq_size. set_solver. }
  pose proof (report_nodes (envs 0%nat) (hear self l) id c (m_timestamp m ≫= rfc3339) f) as Hr.
  destruct (report _ _ _ _ _ _) as [self' b]. cbn [fst] in *. rewrite IHd in Hr. unfold node at 1. rewrite Hr by (intros E; by rewrite E in Hs).
  destruct (remembered c) eqn:Hc.
  - split; [rewrite dom_insert_L; by rewrite IHd|]. intros i. rewrite last_said_snoc. destruct (decide (id = i)) as [<-|Hi].
    + rewrite lookup_insert_eq. cbn. unfold id at 1. by rewrite IHn.
    + rewrite lookup_insert_ne by done. apply IHn.
  - split; [set_solver|]. intros i. rewrite last_said_snoc. rewrite <- IHn. destruct (decide (id = i)) as [->|]; [|done].
    unfold remembered in Hc. apply bool_decide_eq_false in Hc. unfold said.
    destruct (registered c); [exfalso; apply Hc; right; by eexists|]. destruct (stated_position c); [exfalso; apply Hc; left; by eexists|]. done.
Qed.

Lemma builder_config a b env ty id observed raw :
  same_config a b → sapient_builder env a ty id observed raw = sapient_builder env b ty id observed raw.
Proof. intros (H1 & H2 & _). unfold sapient_builder. by rewrite H1, H2. Qed.

Lemma remember_position_config id r self : same_config self (remember_position id r self).
Proof. unfold remember_position. destruct (_ ≫= _); [apply update_node_config|done]. Qed.

(** An event depends on the settings and on what its own node said. *)
Lemma report_own a b env id c observed raw :
  same_config a b → node a id = node b id → (report env a id c observed raw).2 = (report env b id c observed raw).2.
Proof.
  intros Hc Hn. pose proof Hc as (_ & _ & Hm & Ht).
  destruct c as [reg| |r|r| | |x| |]; cbn [report]; try done.
  - cbn [snd]. set (a' := remember_node _ _ _). set (b' := remember_node _ _ (count_registration b)).
    assert (same_config a' b') as Hc'.
    { transitivity a; [symmetry; apply (report_config env a id (CRegistration reg) observed raw)|].
      rewrite Hc. apply (report_config env b id (CRegistration reg) observed raw). }
    unfold registration. cbv zeta. rewrite (builder_config a' b') by done. by destruct Hc' as (_ & _ & _ & ->).
  - assert (same_config (remember_position id r a) (remember_position id r b)) as Hc'.
    { rewrite <- !remember_position_config. done. }
    assert (node (remember_position id r a) id = node (remember_position id r b) id) as Hn'.
    { unfold remember_position. destruct (_ ≫= _); [|done]. by rewrite !update_node_same, Hn. }
    cbn [snd]. unfold sensor_status. cbv zeta. rewrite (builder_config _ _ _ _ _ _ _ Hc'), Hn'. by destruct Hc' as (_ & _ & _ & ->).
  - assert (detection env a id r observed raw = detection env b id r observed raw) as E.
    { unfold detection, detection_type. cbv zeta. by rewrite (builder_config a b) by done; rewrite Hm, Ht, Hn. }
    rewrite E. by destruct (detection env b id r observed raw).
  - assert (alert env a id x observed raw = alert env b id x observed raw) as E.
    { unfold alert. cbv zeta. by rewrite (builder_config a b) by done; rewrite Ht, Hn. }
    rewrite E. by destruct (alert env b id x observed raw).
Qed.

(** * Repeated keys *)

Lemma add_all_metadata {A} f (k v : A → string) l b :
  (∀ x b, f x b = add_metadata (k x) (v x) b) → metadata (add_all f l b) = metadata b ++ ((λ x, (k x, v x)) <$> l).
Proof.
  intros Hf. unfold add_all. revert b. induction l as [|x l IH]; intros b; cbn [fold_left fmap list_fmap]; [by rewrite app_nil_r|].
  rewrite IH, Hf. cbn [add_metadata metadata]. by rewrite <- app_assoc.
Qed.

(** Metadata of one key each, or no event. *)
Lemma repeated_refused {A} f (k v : A → string) l b b' :
  (∀ x b, f x b = add_metadata (k x) (v x) b) → extends (add_all f l b) b' → ¬ NoDup (k <$> l) → ∃ e, map_err Build (build b') = Err (Build e).
Proof.
  intros Hf [_ _ [m Hm]] Hk. destruct (build_returns b') as [[e He]|(e & He & _)]; [|exists e; by rewrite He]. exfalso. apply Hk.
  apply build_Ok in He as (i & ts & Hv & _). pose proof (bv_meta_keys _ _ _ Hv) as H.
  rewrite Hm, (add_all_metadata f k v), !fmap_app in H by done. apply NoDup_app in H as (H & _ & _). apply NoDup_app in H as (_ & _ & H).
  by rewrite <- list_fmap_compose in H.
Qed.

(** * The interface *)

#[export] Instance sapient_parser : FrameParser := {|
  fp_state := SapientParser; fp_error := SapientError; fp_parse := parse
|}.

Lemma parse_message_ok env self frame :
  safe (parse_message env self frame).2 ∧ ∀ e, (parse_message env self frame).2 = Ok (Some e) → Canonical e.
Proof.
  unfold parse_message. destruct (decode frame) as [m|]; [|by split]. destruct (m_content m) as [c|]; [|by split].
  destruct (report _ _ _ _ _ _) as [self' [b|]]; [|by split]. cbn [snd]. split.
  - pose proof (safe_build Build b) as H. by destruct (map_err Build (build b)).
  - intros e H. destruct (map_err Build (build b)) as [e'| | |] eqn:E; try done. injection H as ->. by eapply build_all_canonical.
Qed.

#[export] Instance sapient_laws : FrameParserLaws sapient_parser.
Proof.
  refine {| fp_inv := (λ _, True) : @fp_state sapient_parser → Prop |}; intros envs s frame; cbn [fp_parse sapient_parser].
  - intros _ _. split; [|done]. unfold parse. destruct (parse_message_ok (envs 0%nat) s frame) as [H _].
    destruct (parse_message _ _ _) as [s' r]. cbn [snd] in *. by destruct r.
  - intros es _ _. unfold parse. destruct (parse_message_ok (envs 0%nat) s frame) as [_ H].
    destruct (parse_message _ _ _) as [s' [[e|]| | |]]; cbn [snd] in *; try done; intros [= <-]; [|done].
    constructor; [by apply H|done].
Defined.

(** * Properties *)

Definition located (c : Content) : option LocationOneof :=
  match c with CDetectionReport r => d_location r | CAlert a => a_location a | _ => None end.

(** C40: however the messages of up to 4096 nodes interleave, a message is read as
    by a parser that heard its own node alone and of it only the last position
    and the last registration; and a range and bearing, in a detection or an
    alert, is placed against that position, or not at all. *)
Theorem sapient_own_node self l envs frame m c :
  nodes self = ∅ → Z.of_nat (size (speakers (contents l))) ≤ MAX_NODES → decode frame = Some m → m_content m = Some c →
  let id := default ""%string (m_node_id m) in
  let own := last_said id (contents l) in
  (parse envs (hear self l) frame).2 = (parse envs (with_nodes self {[id := own]}) frame).2 ∧
  ∀ rb e, located c = Some (LRangeBearing rb) → (parse envs (hear self l) frame).2 = Ok [e] →
    ev_location e = point <$> relative (n_location own) rb ∧ ev_payload e = frame.
Proof.
  intros Hn Hs Hm Hc. cbv zeta. set (id := default ""%string (m_node_id m)).
  destruct (hear_nodes self l Hn Hs) as [_ Hnode]. specialize (Hnode id).
  unfold parse, parse_message. rewrite Hm, Hc. fold id. split.
  - pose proof (report_own (hear self l) (with_nodes self {[id := last_said id (contents l)]}) (envs 0%nat) id c (m_timestamp m ≫= rfc3339) frame) as H.
    destruct (report _ (hear self l) _ _ _ _) as [s1 b1]. destruct (report _ (with_nodes _ _) _ _ _ _) as [s2 b2]. cbn [snd] in *.
    rewrite H; [done| |].
    + transitivity self; [symmetry; apply hear_config|done].
    + rewrite Hnode. unfold node. cbn [with_nodes nodes]. by rewrite lookup_singleton_eq.
  - intros rb e Hl He. destruct (range_bearing_event (envs 0%nat) (hear self l) id c rb (m_timestamp m ≫= rfc3339) frame Hl) as (b & Hb & Hp & Hlo & _).
    destruct (report _ _ _ _ _ _) as [s' b']. cbn [snd] in *. subst b'. rewrite Hnode in Hlo.
    destruct (map_err Build (build b)) as [e'| | |] eqn:E; try done. injection He as ->.
    apply built_of in E as (H1 & H2 & _). by rewrite H1, H2.
Qed.

(** a registration that names two sub-types of its node, or a status report
    with two entries of one kind, is refused whole: the two are written under one
    metadata key, which the builder does not take twice. *)
Theorem sapient_repeats_refused envs self frame m c :
  decode frame = Some m → m_content m = Some c →
  match c with
  | CRegistration reg => (2 ≤ length (r_node_definition reg ≫= nd_sub_type))%nat
  | CStatusReport r => ¬ NoDup (st_type <$> sr_status r)
  | _ => False
  end →
  ∃ e, (parse envs self frame).2 = Err (Build e).
Proof.
  intros Hm Hc H. unfold parse, parse_message. rewrite Hm, Hc. destruct c as [reg| |r| | | | | |]; try done; cbn [report snd].
  - unfold registration. cbv zeta.
    match goal with |- context [add_all ?f _ ?c] => match goal with |- context [map_err _ (build ?b)] => destruct (repeated_refused f (λ _, "node_sub_type"%string) (λ x, x)
      (r_node_definition reg ≫= nd_sub_type) c b (λ x z, eq_refl (add_metadata "node_sub_type" x z))) as [e He] end end.
    + extends_tac.
    + intros Hd. destruct (r_node_definition reg ≫= nd_sub_type) as [|x [|y l]]; [cbn in H; lia..|].
      apply NoDup_cons in Hd as [Hd _]. apply Hd. by left.
    + exists e. by rewrite He.
  - unfold sensor_status. cbv zeta.
    match goal with |- context [add_all ?f _ ?c] => match goal with |- context [map_err _ (build ?b)] => destruct (repeated_refused f
      (λ s, cat "status_" (to_lowercase (enum_name (st_type s ≫= name_of StatusType) "STATUS_TYPE_")))
      (λ s, cat (enum_name (st_level s ≫= name_of StatusLevel) "STATUS_LEVEL_") (cat ": " (default ""%string (st_value s))))
      (sr_status r) c b (λ x z, eq_refl (status_entry x z))) as [e He] end end.
    + extends_tac.
    + intros Hd. apply H. apply (NoDup_fmap_1 (λ t, cat "status_" (to_lowercase (enum_name (t ≫= name_of StatusType) "STATUS_TYPE_")))).
      by rewrite <- list_fmap_compose.
    + exists e. by rewrite He.
Qed.
End sapient.

(** * Witnesses *)

#[local] Instance ex_sapient_trig : Trig := {|
  sin := λ x, x; cos := λ x, x; asin := λ x, x; atan2 := λ x _, x; hypot := λ x _, x
|}.
Definition ex_sapient_env (_ : nat) : Env := mkEnv "018f0000-0000-7000-8000-000000000000" "2026-01-01T00:00:00Z" 0.
Definition ex_rb : RangeBearing := mkRangeBearing None (Some (f_of_Z 90)) (Some (f_of_Z 2)) None (Some 3) (Some 1).
Definition ex_status (types : list Z) : StatusReport := mkStatus None (Some 1) None None None None
  (Some (mkLocation (Some (f_of_Z 20)) (Some (f_of_Z 10)) None None None (Some LAT_LNG_DEG_M) None None))
  ((λ t, mkStatusEntry (Some 3) None (Some t)) <$> types).
Definition ex_detection : DetectionReport :=
  mkDetection None (Some "7"%string) None None (Some (LRangeBearing ex_rb)) None [] [] [] [] [] [] None None None.
Definition ex_message (node : string) (c : Content) : option SapientMessage := Some (mkMessage None (Some node) None (Some c)).

(** Frames of one byte: the status of the node [a] and of the node [b], a report of
    [a], and a status with two weather entries. *)
Definition ex_decode (f : bytes) : option SapientMessage :=
  match f with
  | [1] => ex_message "a" (CStatusReport (ex_status [4]))
  | [2] => ex_message "b" (CStatusReport (ex_status []))
  | [3] => ex_message "a" (CDetectionReport ex_detection)
  | [4] => ex_message "a" (CStatusReport (ex_status [4; 4]))
  | _ => None
  end.

Definition ex_heard : SapientParser := sapient_new "s" (mkEnrichment None).
Definition ex_reported : res SapientError (list Event) :=
  (parse ex_ontology ex_decode (λ _, None) (λ s, s) (λ _, None) ex_sapient_env
    (hear ex_ontology ex_decode (λ _, None) (λ s, s) (λ _, None) ex_heard [(ex_sapient_env, [1]); (ex_sapient_env, [2])]) [3]).2.

Lemma ex_reported_one : match ex_reported with Ok [e] => bool_decide (is_Some (ev_location e)) | _ => false end = true.
Proof. vm_compute. reflexivity. Qed.

Lemma sapient_own_node_witness :
  ∃ e, ex_reported = Ok [e] ∧ is_Some (ev_location e)
    ∧ ev_location e = point <$> relative (Some (f_of_Z 10, f_of_Z 20, f_zero)) ex_rb ∧ ev_payload e = [3].
Proof.
  pose proof ex_reported_one as H. destruct ex_reported as [[|e [|]]| | |] eqn:He; try discriminate H.
  exists e. split; [done|]. split; [by apply bool_decide_eq_true in H|].
  refine (proj2 (sapient_own_node ex_ontology ex_decode (λ _, None) (λ s, s) (λ _, None) ex_heard
    [(ex_sapient_env, [1]); (ex_sapient_env, [2])] ex_sapient_env [3]
    (mkMessage None (Some "a"%string) None (Some (CDetectionReport ex_detection))) (CDetectionReport ex_detection) eq_refl _ eq_refl eq_refl) ex_rb e eq_refl He).
  vm_compute. discriminate.
Defined.

Lemma sapient_repeats_refused_witness :
  ∃ e, (parse ex_ontology ex_decode (λ _, None) (λ s, s) (λ _, None) ex_sapient_env (sapient_new "s" (mkEnrichment None)) [4]).2 = Err (Build e).
Proof.
  eapply (sapient_repeats_refused ex_ontology ex_decode (λ _, None) (λ s, s) (λ _, None) ex_sapient_env (sapient_new "s" (mkEnrichment None)) [4]);
    [reflexivity|reflexivity|]. intros H. apply NoDup_cons in H as [H _]. apply H. by left.
Defined.
