(* ===== verification/Http.v ===== *)
(** The HTTP server transport (rust/connectors/common/src/http_server.rs): a
    connection is the bytes that arrive on it until it ends; what the timers, the
    channel and the writes do is an input of each turn. Text is UTF-8 bytes. *)
From Stdlib Require Import ZArith Lia.
From Stdlib Require Import Strings.String.
From S2P Require Export Text.

Local Open Scope Z_scope.

(** * Answers *)

(** @src rust/connectors/common/src/http_server.rs 26-37 MAX_FRAME CHANNEL_FRAMES MAX_HEADER_BYTES MAX_HEADERS *)
Definition MAX_FRAME : Z := 64 * 1024.
Definition CHANNEL_FRAMES : Z := 256.
Definition MAX_HEADER_BYTES : Z := 16 * 1024.
Definition MAX_HEADERS : nat := 64.
Definition RETRY_AFTER_SECS : Z := 1.

(** @src rust/connectors/common/src/http_server.rs 39-43 Settings *)
Record Settings := mkSettings { s_path : bytes; s_token : option bytes }.

(** @src rust/connectors/common/src/http_server.rs 45-57 Outcome *)
Inductive Outcome :=
| Accepted | BadRequest | Unauthorized | NotFound | MethodNotAllowed | PayloadTooLarge | NotImplemented | Saturated.

#[export] Instance Outcome_eq_dec : EqDecision Outcome.
Proof. solve_decision. Defined.

(** @src rust/connectors/common/src/http_server.rs 59-72 Outcome::status *)
Definition status (o : Outcome) : Z * string :=
  match o with
  | Accepted => (204, "No Content"%string)
  | BadRequest => (400, "Bad Request"%string)
  | Unauthorized => (401, "Unauthorized"%string)
  | NotFound => (404, "Not Found"%string)
  | MethodNotAllowed => (405, "Method Not Allowed"%string)
  | PayloadTooLarge => (413, "Payload Too Large"%string)
  | NotImplemented => (501, "Not Implemented"%string)
  | Saturated => (503, "Service Unavailable"%string)
  end.

Definition CRLF : bytes := [13; 10].

(** @src rust/connectors/common/src/http_server.rs 467-482 respond *)
Definition respond (o : Outcome) (reusable : bool) : bytes :=
  let '(code, reason) := status o in
  s2b "HTTP/1.1 " ++ show_bytes code ++ s2b " " ++ s2b reason ++ CRLF
  ++ s2b "Content-Length: 0" ++ CRLF
  ++ s2b "Connection: " ++ s2b (if reusable then "keep-alive" else "close") ++ CRLF
  ++ (if bool_decide (o = Saturated) then s2b "Retry-After: " ++ show_bytes RETRY_AFTER_SECS ++ CRLF else [])
  ++ (if bool_decide (o = MethodNotAllowed) then s2b "Allow: POST, PUT" ++ CRLF else [])
  ++ CRLF.

(** * Text *)

Definition eq_ignore_ascii_case (l : bytes) (s : string) : bool := bool_decide ((to_lower <$> l) = (to_lower <$> s2b s)).

(** [trim_matches('/')]. *)
Definition trim_slashes (l : bytes) : bytes := trim_end_matches (Z.eqb 47) (drop_while (Z.eqb 47) l).

(** @src rust/connectors/common/src/http_server.rs 203-211 normalise_path *)
Definition normalise_path (path : bytes) : bytes :=
  match trim_slashes (trim path) with [] => [47] | trimmed => 47 :: trimmed end.

(** [split(['?', '#']).next()]: what precedes the query or the fragment. *)
Fixpoint before_query (l : bytes) : bytes :=
  match l with [] => [] | b :: t => if (b =? 63) || (b =? 35) then [] else b :: before_query t end.

(** @src rust/connectors/common/src/http_server.rs 484-491 secret_eq *)
Definition secret_eq (a b : bytes) : bool :=
  if negb (zlen a =? zlen b) then false
  else fold_left (λ acc '(x, y), Z.lor acc (Z.lxor x y)) (zip a b) 0 =? 0.

(** * Reading a request *)

Section reader.
(** Whether the connection ends in an error rather than the peer's shutdown. *)
Variable broken : bool.

(** [read_until(b'\n')]: the line with its newline, or what is left at the end. *)
Definition read_until (input : bytes) : res Outcome (bytes * bytes) :=
  match find_byte 10 input with
  | Some k => Ok (take (Z.to_nat (k + 1)) input, drop (Z.to_nat (k + 1)) input)
  | None => if broken then Err BadRequest else Ok (input, [])
  end.

(** @src rust/connectors/common/src/http_server.rs 401-420 read_line *)
Definition read_line (input : bytes) (budget : Z) : res Outcome (bytes * bytes * Z) :=
  '(raw, rest) ← read_until input;
  let n := zlen raw in
  guard_res (negb (n =? 0)) BadRequest ;;
  guard_res (n <=? budget) BadRequest ;;
  let line := trim_end_matches (λ b, (b =? 10) || (b =? 13)) raw in
  guard_res (utf8_valid line) BadRequest ;;
  Ok (line, rest, budget - n).

(** @src rust/connectors/common/src/http_server.rs 346-353 Head *)
Record Head := mkHead {
  method_allowed : bool;
  path : bytes;
  content_length : option Z;
  chunked : bool;
  expect_continue : bool;
  token : option bytes
}.

(** One header, its value trimmed. *)
(** @src rust/connectors/common/src/http_server.rs 384-396 read_head *)
Definition header (head : Head) (name value : bytes) : res Outcome Head :=
  let '(mkHead me pa cl ch ex tk) := head in
  if eq_ignore_ascii_case name "content-length" then
    n ← ok_or BadRequest (parse_uint 10 (2 ^ 64) value); Ok (mkHead me pa (Some n) ch ex tk)
  else if eq_ignore_ascii_case name "transfer-encoding" then
    if eq_ignore_ascii_case value "chunked" then Ok (mkHead me pa cl true ex tk) else Err NotImplemented
  else if eq_ignore_ascii_case name "expect" then
    Ok (mkHead me pa cl ch (eq_ignore_ascii_case value "100-continue") tk)
  else if eq_ignore_ascii_case name "x-ajar-token" then Ok (mkHead me pa cl ch ex (Some value))
  else Ok head.

(** @src rust/connectors/common/src/http_server.rs 375-398 read_head *)
Fixpoint headers (n : nat) (head : Head) (input : bytes) (budget : Z) : res Outcome (Head * bytes) :=
  match n with
  | O => Err BadRequest
  | S n =>
      '(line, input, budget) ← read_line input budget;
      match line with
      | [] => Ok (head, input)
      | _ =>
          k ← ok_or BadRequest (find_byte 58 line);
          head ← header head (take (Z.to_nat k) line) (trim (drop (Z.to_nat (k + 1)) line));
          headers n head input budget
      end
  end.

(** @src rust/connectors/common/src/http_server.rs 355-399 read_head *)
Definition read_head (input : bytes) : res Outcome (Head * bytes) :=
  '(request_line, input, budget) ← read_line input MAX_HEADER_BYTES;
  let parts := split_whitespace [] request_line in
  let method := default [] (parts !! 0%nat) in
  let target := default [] (parts !! 1%nat) in
  guard_res (negb ((zlen method =? 0) || (zlen target =? 0))) BadRequest ;;
  headers MAX_HEADERS
    (mkHead (eq_ignore_ascii_case method "POST" || eq_ignore_ascii_case method "PUT")
       (normalise_path (before_query target)) None false false None)
    input budget.

(** [read_exact]. *)
Definition read_exact (n : Z) (input : bytes) : res Outcome (bytes * bytes) :=
  guard_res (n <=? zlen input) BadRequest ;;
  Ok (take (Z.to_nat n) input, drop (Z.to_nat n) input).

(** The trailers, up to the blank line. *)
(** @src rust/connectors/common/src/http_server.rs 447-450 read_chunked *)
Fixpoint trailers (fuel : nat) (input : bytes) (budget : Z) : res Outcome bytes :=
  match fuel with
  | O => NoFuel
  | S fuel =>
      '(line, input, budget) ← read_line input budget;
      match line with [] => Ok input | _ => trailers fuel input budget end
  end.

(** @src rust/connectors/common/src/http_server.rs 436-465 read_chunked *)
Fixpoint read_chunked (fuel : nat) (body : bytes) (input : bytes) : res Outcome (bytes * bytes) :=
  match fuel with
  | O => NoFuel
  | S fuel =>
      '(line, input, _) ← read_line input MAX_HEADER_BYTES;
      let size_text := trim (default [] (split_on 59 line !! 0%nat)) in
      size ← ok_or BadRequest (parse_uint 16 (2 ^ 64) size_text);
      if size =? 0 then rest ← trailers (S (length input)) input MAX_HEADER_BYTES; Ok (body, rest)
      else
        guard_res (Z.min (2 ^ 64 - 1) (zlen body + size) <=? MAX_FRAME) PayloadTooLarge ;;
        '(chunk, input) ← read_exact size input;
        '(_, input, _) ← read_line input MAX_HEADER_BYTES;
        read_chunked fuel (body ++ chunk) input
  end.

(** @src rust/connectors/common/src/http_server.rs 422-434 read_body *)
Definition read_body (head : Head) (input : bytes) : res Outcome (bytes * bytes) :=
  if chunked head then read_chunked (S (length input)) [] input
  else read_exact (default 0 (content_length head)) input.

(** * A connection *)

(** @src rust/connectors/common/src/http_server.rs 80-100 HttpServerSource::recv *)
Definition recv (buf_len : Z) (next : option bytes) : option bytes :=
  (λ frame, take (Z.to_nat (Z.min (zlen frame) buf_len)) frame) <$> next.

(** What [try_send] on the frame channel finds. *)
Inductive SendResult := Sent | Full | Closed.

(** What happens around one request: whether the connection stays idle past its
    timeout, whether the request is slower than its own (then nothing of it is
    queued), what the writes and the channel do. *)
Record Turn := mkTurn { idle : bool; late : bool; continue_ok : bool; send : SendResult; respond_ok : bool }.

(** What a connection does: bytes written back and frames handed to the runtime. *)
Inductive Act := Wrote (b : bytes) | Queued (frame : bytes).

(** The answer, and whether the connection may carry another request. *)
Definition Answer : Type := Outcome * bool.

Definition CONTINUE : bytes := s2b "HTTP/1.1 100 Continue" ++ CRLF ++ CRLF.

(** Routing and authorisation, before any body is read: the refusal, if any. *)
(** @src rust/connectors/common/src/http_server.rs 299-316 serve *)
Definition refusal (s : Settings) (head : Head) : option Outcome :=
  if negb (bool_decide (path head = s_path s)) then Some NotFound
  else if negb (method_allowed head) then Some MethodNotAllowed
  else if match s_token s with Some expected => negb (secret_eq expected (default [] (token head))) | None => false end
  then Some Unauthorized
  else if match content_length head with Some len => MAX_FRAME <? len | None => false end then Some PayloadTooLarge
  else None.

(** @src rust/connectors/common/src/http_server.rs 286-344 serve *)
Definition serve (s : Settings) (t : Turn) (input : bytes) : res unit (list Act * Answer * bytes) :=
  match read_head input with
  | Err o => Ok ([], (o, false), input)
  | Panic => Panic
  | NoFuel => NoFuel
  | Ok (head, rest) =>
      match refusal s head with
      | Some o => Ok ([], (o, false), rest)
      | None =>
          if bool_decide (content_length head = None) && negb (chunked head) then Ok ([], (Accepted, true), rest)
          else if expect_continue head && negb (continue_ok t) then Ok ([], (BadRequest, false), rest)
          else
            let interim := if expect_continue head then [Wrote CONTINUE] else [] in
            match read_body head rest with
            | Err o => Ok (interim, (o, false), rest)
            | Panic => Panic
            | NoFuel => NoFuel
            | Ok (body, rest) =>
                match send t with
                | Sent => Ok (interim ++ [Queued body], (Accepted, true), rest)
                | Full => Ok (interim, (Saturated, true), rest)
                | Closed => Ok (interim, (Saturated, false), rest)
                end
            end
      end
  end.

(** One turn of the list per request; the loop ends when they do. *)
(** @src rust/connectors/common/src/http_server.rs 250-284 connection_loop *)
Fixpoint connection_loop (s : Settings) (turns : list Turn) (input : bytes) : res unit (list Act) :=
  match turns with
  | [] => Ok []
  | t :: turns =>
      if idle t || (zlen input =? 0) then Ok []
      else if late t then Ok []
      else
        '(acts, (o, reusable), rest) ← serve s t input;
        if negb (respond_ok t) then Ok acts
        else
          let acts := acts ++ [Wrote (respond o reusable)] in
          if negb reusable then Ok acts
          else more ← connection_loop s turns rest; Ok (acts ++ more)
  end.


(** * What a whole body is *)

(** The bytes of a line: up to its newline, or to the end of what arrives. *)
Definition a_line (raw : bytes) : Prop := raw ≠ [] ∧ ∃ l, 10 ∉ l ∧ (raw = l ++ [10] ∨ raw = l).
Definition text_of (raw : bytes) : bytes := trim_end_matches (λ b, (b =? 10) || (b =? 13)) raw.

(** The size a line states: a hexadecimal number before any semicolon. *)
Definition stated_size (raw : bytes) : option Z := parse_uint 16 (2 ^ 64) (trim (default [] (split_on 59 (text_of raw) !! 0%nat))).

(** Lines up to a blank one. *)
Inductive trailer : bytes → Prop :=
| trailer_end raw : a_line raw → text_of raw = [] → trailer raw
| trailer_more raw t : a_line raw → text_of raw ≠ [] → trailer t → trailer (raw ++ t).

(** Chunks, each of as many bytes as its size line states and a line's end, then
    a size of zero and the trailer. *)
Inductive in_chunks : bytes → bytes → Prop :=
| in_chunks_end raw t : a_line raw → stated_size raw = Some 0 → trailer t → in_chunks (raw ++ t) []
| in_chunks_more raw chunk nl wire body :
    a_line raw → stated_size raw = Some (zlen chunk) → chunk ≠ [] → a_line nl → in_chunks wire body →
    in_chunks (raw ++ chunk ++ nl ++ wire) (chunk ++ body).

Definition whole_body (h : Head) (wire body : bytes) : Prop :=
  if chunked h then in_chunks wire body else wire = body ∧ content_length h = Some (zlen body).

(** * Lemmas: any bytes *)

Lemma guard_Ok {E} b (e : E) u : guard_res b e = Ok u → b = true.
Proof. by destruct b. Qed.

Lemma read_until_Ok input raw rest : read_until input = Ok (raw, rest) → input = raw ++ rest.
Proof.
  unfold read_until. destruct (find_byte 10 input) as [k|]; [intros [= <- <-]; by rewrite take_drop|].
  destruct broken; [done|]. intros [= <- <-]. by rewrite app_nil_r.
Qed.

Lemma find_byte_before c l k : find_byte c l = Some k → c ∉ take (Z.to_nat k) l ∧ take (Z.to_nat (k + 1)) l = take (Z.to_nat k) l ++ [c].
Proof.
  revert k. induction l as [|b l IH]; intros k; cbn [find_byte]; [done|]. destruct (Z.eqb_spec b c) as [->|Hne].
  - intros [= <-]. cbn. split; [by intros ?%elem_of_nil|done].
  - intros (j & Hj & ->)%fmap_Some. pose proof (find_byte_Some _ _ _ Hj) as [? _]. destruct (IH j Hj) as [H1 H2].
    replace (Z.to_nat (Z.succ j)) with (S (Z.to_nat j)) by lia. replace (Z.to_nat (Z.succ j + 1)) with (S (Z.to_nat (j + 1))) by lia.
    cbn [take app]. rewrite not_elem_of_cons, H2. done.
Qed.

Lemma find_byte_absent c l : find_byte c l = None → c ∉ l.
Proof.
  induction l as [|b l IH]; cbn [find_byte]; [by intros _ ?%elem_of_nil|]. destruct (Z.eqb_spec b c); [done|].
  intros H%fmap_None. rewrite not_elem_of_cons. auto.
Qed.

Lemma read_until_line input raw rest : read_until input = Ok (raw, rest) → ∃ l, 10 ∉ l ∧ (raw = l ++ [10] ∨ raw = l).
Proof.
  unfold read_until. destruct (find_byte 10 input) as [k|] eqn:E.
  - intros [= <- _]. exists (take (Z.to_nat k) input). destruct (find_byte_before _ _ _ E). auto.
  - destruct broken; [done|]. intros [= <- _]. exists input. split; [by apply find_byte_absent|by right].
Qed.

(** A line takes at least a byte, and what is left is a suffix. *)
Lemma read_line_Ok input budget line rest budget' :
  read_line input budget = Ok (line, rest, budget') →
  ∃ raw, input = raw ++ rest ∧ (0 < length raw)%nat ∧ a_line raw ∧ line = text_of raw.
Proof.
  intros ([raw rest'] & Hu & H)%bind_Ok. pose proof (read_until_Ok _ _ _ Hu) as ->.
  apply bind_Ok in H as (u & Hn%guard_Ok & H). do 2 (apply bind_Ok in H as (? & _ & H)). injection H as <- -> _.
  assert (raw ≠ []) as Hne by (by intros ->).
  exists raw. split; [done|]. split; [destruct raw; [done|cbn; lia]|]. split; [|done]. split; [done|].
  by eapply read_until_line.
Qed.

Lemma read_line_safe input budget : safe (read_line input budget).
Proof.
  unfold read_line, read_until, guard_res.
  repeat match goal with |- safe (_ ≫= _) => apply safe_bind; [|intros ? ?] | |- safe (let '(_, _) := ?x in _) => destruct x
    | |- safe (match ?x with _ => _ end) => destruct x | |- safe (if ?x then _ else _) => destruct x end; done.
Qed.

(** What one reader leaves to the next. *)
Definition leaves {A} (input : bytes) (r : res Outcome (A * bytes)) : Prop :=
  safe r ∧ ∀ a rest, r = Ok (a, rest) → ∃ k, input = k ++ rest.

Lemma headers_leaves n : ∀ head input budget, leaves input (headers n head input budget).
Proof.
  induction n as [|n IH]; intros head input budget; [by split|]. cbn [headers].
  pose proof (read_line_safe input budget) as Hs. destruct (read_line input budget) as [[[line input'] b']| | |] eqn:Hl; try done.
  apply read_line_Ok in Hl as (raw & -> & _ & _). cbn [mbind res_bind].
  destruct line as [|c line]; [split; [done|]; intros h rest [= <- <-]; by exists raw|].
  destruct (find_byte 58 (c :: line)) as [k|]; [|by split]. cbn [ok_or mbind res_bind].
  assert (∀ nm v, safe (header head nm v)) as Hh.
  { intros nm v. unfold header. destruct head, (eq_ignore_ascii_case nm "content-length"); [by destruct (parse_uint _ _ _)|].
    by repeat match goal with |- safe (if ?x then _ else _) => destruct x end. }
  specialize (Hh (take (Z.to_nat k) (c :: line)) (trim (drop (Z.to_nat (k + 1)) (c :: line)))).
  destruct (header head _ _) as [h'| | |]; try done. cbn [mbind res_bind]. destruct (IH h' input' b') as [H1 H2].
  split; [done|]. intros h rest (k' & ->)%H2. exists (raw ++ k'). by rewrite app_assoc.
Qed.

Lemma read_head_leaves input : leaves input (read_head input).
Proof.
  unfold read_head. pose proof (read_line_safe input MAX_HEADER_BYTES) as Hs.
  destruct (read_line input MAX_HEADER_BYTES) as [[[line rest] b]| | |] eqn:Hl; try done.
  apply read_line_Ok in Hl as (raw & -> & _ & _). cbn [mbind res_bind]. destruct (negb _); [|by split]. cbn [guard_res mbind res_bind].
  destruct (headers_leaves MAX_HEADERS (mkHead (eq_ignore_ascii_case (default [] (split_whitespace [] line !! 0%nat)) "POST"
      || eq_ignore_ascii_case (default [] (split_whitespace [] line !! 0%nat)) "PUT")
     (normalise_path (before_query (default [] (split_whitespace [] line !! 1%nat)))) None false false None) rest b) as [H1 H2].
  split; [done|]. intros h r (k & ->)%H2. exists (raw ++ k). by rewrite app_assoc.
Qed.

Lemma trailers_ok fuel : ∀ input budget, (length input < fuel)%nat →
  safe (trailers fuel input budget) ∧ ∀ rest, trailers fuel input budget = Ok rest → ∃ k, input = k ++ rest ∧ trailer k.
Proof.
  induction fuel as [|fuel IH]; intros input budget Hf; [lia|]. cbn [trailers]. pose proof (read_line_safe input budget) as Hs.
  destruct (read_line input budget) as [[[line input'] b']| | |] eqn:Hl; try done.
  apply read_line_Ok in Hl as (raw & -> & Hr & Hal & Ht). cbn [mbind res_bind].
  destruct line as [|c line]; [split; [done|]; intros r [= <-]; exists raw; split; [done|by constructor]|].
  rewrite length_app in Hf. destruct (IH input' b' ltac:(lia)) as [H1 H2]. split; [done|].
  intros r (k & -> & Hk)%H2. exists (raw ++ k). rewrite app_assoc. split; [done|]. constructor; [done|by rewrite <- Ht|done].
Qed.

Lemma read_exact_leaves n input : 0 ≤ n → leaves input (read_exact n input).
Proof.
  intros Hn. unfold read_exact. destruct (n <=? zlen input); [|by split]. split; [done|].
  intros a rest [= <- <-]. eexists. by rewrite take_drop.
Qed.

Lemma read_exact_len n input a rest : 0 ≤ n → read_exact n input = Ok (a, rest) → zlen a = n ∧ input = a ++ rest.
Proof.
  intros Hn (u & Hg%guard_Ok & [= <- <-])%bind_Ok. rewrite take_drop. split; [|done].
  unfold zlen in *. rewrite length_take. lia.
Qed.

(** The chunked reader ends, takes whole chunks, and the body never outgrows a frame. *)
Lemma read_chunked_ok fuel : ∀ body input, (length input < fuel)%nat → zlen body ≤ MAX_FRAME →
  safe (read_chunked fuel body input)
  ∧ ∀ b rest, read_chunked fuel body input = Ok (b, rest) →
      zlen b ≤ MAX_FRAME ∧ ∃ wire said, input = wire ++ rest ∧ b = body ++ said ∧ in_chunks wire said.
Proof.
  induction fuel as [|fuel IH]; intros body input Hf Hb; [lia|]. cbn [read_chunked].
  pose proof (read_line_safe input MAX_HEADER_BYTES) as Hs.
  destruct (read_line input MAX_HEADER_BYTES) as [[[line input1] b1]| | |] eqn:Hl; try done.
  apply read_line_Ok in Hl as (raw & -> & Hr & Hal & Ht). rewrite length_app in Hf. cbn [mbind res_bind].
  destruct (parse_uint _ _ _) as [size|] eqn:Hp; [|by cbn; split].
  assert (stated_size raw = Some size) as Hsz by (unfold stated_size; by rewrite <- Ht).
  apply parse_uint_range in Hp; [|lia]. cbn [ok_or mbind res_bind].
  destruct (Z.eqb_spec size 0) as [->|Hne].
  - destruct (trailers_ok (S (length input1)) input1 MAX_HEADER_BYTES ltac:(lia)) as [H1 H2].
    destruct (trailers _ _ _) as [rest| | |]; try done. cbn [mbind res_bind]. split; [done|].
    intros b r [= <- <-]. split; [done|]. destruct (H2 rest eq_refl) as (k & -> & Hk).
    exists (raw ++ k), []. rewrite <- app_assoc, app_nil_r. split_and!; [done..|by constructor].
  - destruct (_ <=? MAX_FRAME) eqn:Hm; [|by cbn; split]. cbn [guard_res mbind res_bind].
    destruct (read_exact_leaves size input1 ltac:(lia)) as [Hxs _].
    destruct (read_exact size input1) as [[chunk input2]| | |] eqn:Hx; try done.
    apply read_exact_len in Hx as [Hc ->]; [|lia]. cbn [mbind res_bind].
    pose proof (read_line_safe input2 MAX_HEADER_BYTES) as Hs2.
    destruct (read_line input2 MAX_HEADER_BYTES) as [[[l2 input3] b3]| | |] eqn:Hl2; try done.
    apply read_line_Ok in Hl2 as (raw2 & -> & Hr2 & Hal2 & _). rewrite !length_app in Hf. cbn [mbind res_bind].
    destruct (IH (body ++ chunk) input3 ltac:(lia)) as [H1 H2].
    { rewrite zlen_app. unfold MAX_FRAME in *. lia. }
    split; [done|]. intros b r (Hz & wire & said & -> & -> & Hw)%H2. split; [done|].
    exists (raw ++ chunk ++ raw2 ++ wire), (chunk ++ said). rewrite <- !app_assoc. split_and!; [done..|].
    constructor; try done; [by rewrite Hsz, Hc|]. intros ->. rewrite zlen_nil in Hc. done.
Qed.

Lemma read_body_ok head input :
  (chunked head = false → ∃ n, content_length head = Some n ∧ 0 ≤ n ≤ MAX_FRAME) →
  safe (read_body head input)
  ∧ ∀ b rest, read_body head input = Ok (b, rest) → zlen b ≤ MAX_FRAME ∧ ∃ wire, input = wire ++ rest ∧ whole_body head wire b.
Proof.
  intros Hn. unfold read_body, whole_body. destruct (chunked head).
  - destruct (read_chunked_ok (S (length input)) [] input) as [H1 H2]; [lia|by vm_compute|]. split; [done|].
    intros b rest (Hz & wire & said & -> & -> & Hw)%H2. split; [done|]. by exists wire.
  - destruct (Hn eq_refl) as (n & -> & Hn'). cbn [default from_option]. unfold id.
    split; [apply read_exact_leaves; lia|]. intros b rest [Hz ->]%read_exact_len; [|lia]. split; [lia|]. exists b. by rewrite Hz.
Qed.

(** Every length a head states is that of a [usize]. *)
Definition length_ok (h : Head) : Prop := ∀ n, content_length h = Some n → 0 ≤ n.

Lemma header_length head nm v h : header head nm v = Ok h → length_ok head → length_ok h ∧ path h = path head ∧ method_allowed h = method_allowed head.
Proof.
  unfold header, length_ok. intros H Hl. destruct head as [me pa cl ch ex tk].
  destruct (eq_ignore_ascii_case nm "content-length").
  { apply bind_Ok in H as (n & Hp%ok_or_Ok & [= <-]). apply parse_uint_range in Hp; [|lia]. split_and!; [|done..].
    cbn. intros m [= <-]. lia. }
  repeat match type of H with (if ?x then _ else _) = _ => destruct x end; try done; by injection H as <-.
Qed.

Lemma headers_length n : ∀ head input budget h rest, headers n head input budget = Ok (h, rest) → length_ok head → length_ok h.
Proof.
  induction n as [|n IH]; intros head input budget h rest H Hl; [done|]. cbn [headers] in H.
  apply bind_Ok in H as ([[[|c line] input'] b'] & _ & H); [by injection H as <- _|].
  apply bind_Ok in H as (k & _ & H). apply bind_Ok in H as (h' & Hh & H).
  apply header_length in Hh as [Hl' _]; [|done]. by eapply IH.
Qed.

Lemma read_head_length input h rest : read_head input = Ok (h, rest) → length_ok h.
Proof.
  intros H. apply bind_Ok in H as ([[line input'] b] & _ & H). apply bind_Ok in H as (u & _ & H).
  apply headers_length in H; [done|]. by intros n.
Qed.

Lemma secret_eq_spec a b : secret_eq a b = bool_decide (a = b).
Proof.
  unfold secret_eq. destruct (Z.eqb_spec (zlen a) (zlen b)) as [Hl|Hl]; cbn [negb].
  2: { symmetry. apply bool_decide_eq_false. congruence. }
  assert (∀ acc, (fold_left (λ acc '(x, y), Z.lor acc (Z.lxor x y)) (zip a b) acc =? 0) = (acc =? 0) && bool_decide (a = b)) as ->; [|done].
  revert b Hl. induction a as [|x a IH]; intros [|y b] Hl acc; try (unfold zlen in Hl; cbn in Hl; lia).
  { cbn. rewrite bool_decide_true by done. by rewrite andb_true_r. }
  cbn [zip zip_with fold_left]. rewrite !zlen_cons in Hl. rewrite IH by lia.
  apply Bool.eq_iff_eq_true. rewrite !andb_true_iff, !Z.eqb_eq, !bool_decide_eq_true, Z.lor_eq_0_iff, Z.lxor_eq_0_iff.
  naive_solver.
Qed.

(** What lets a request past routing and authorisation. *)
Definition admits (s : Settings) (head : Head) : Prop :=
  path head = s_path s ∧ method_allowed head = true
  ∧ (∀ expected, s_token s = Some expected → default [] (token head) = expected).

Lemma refusal_None s head : refusal s head = None →
  admits s head ∧ ∀ n, content_length head = Some n → n ≤ MAX_FRAME.
Proof.
  unfold refusal, admits. case_bool_decide; [|done]. destruct (method_allowed head); [|done]. cbn [negb].
  intros H1. assert (∀ e, s_token s = Some e → default [] (token head) = e) as Ht.
  { intros e He. rewrite He in H1. rewrite secret_eq_spec in H1. by case_bool_decide. }
  split; [done|]. intros n Hn. rewrite Hn in H1. destruct (s_token s) as [e|]; [|by destruct (Z.ltb_spec MAX_FRAME n)].
  destruct (secret_eq e _); [|done]. by destruct (Z.ltb_spec MAX_FRAME n).
Qed.

(** What serving a request may do: only an admitted, whole body within the bound
    is queued, the bytes right after the head, and only an accepted one. *)
Definition served (s : Settings) (t : Turn) (input : bytes) (acts : list Act) (a : Answer) (rest : bytes) : Prop :=
  (∃ k, input = k ++ rest)
  ∧ ∀ body, Queued body ∈ acts →
      a = (Accepted, true) ∧ send t = Sent ∧ zlen body ≤ MAX_FRAME
      ∧ ∃ head wire, read_head input = Ok (head, wire ++ rest) ∧ admits s head ∧ whole_body head wire body.

Lemma served_nothing s t input a k rest : input = k ++ rest → served s t input [] a rest.
Proof. intros ->. split; [by eexists|]. intros body H. by apply elem_of_nil in H. Qed.

Lemma serve_spec s t input : ∃ acts a rest, serve s t input = Ok (acts, a, rest) ∧ served s t input acts a rest.
Proof.
  unfold serve. destruct (read_head_leaves input) as [Hs Hk].
  destruct (read_head input) as [[head rest]|o| |] eqn:Hh; try done.
  2: { eexists _, _, _. split; [done|]. by apply (served_nothing _ _ _ _ []). }
  destruct (Hk head rest eq_refl) as [k Ek]. destruct (refusal s head) as [o|] eqn:Hr.
  { eexists _, _, _. split; [done|]. by eapply served_nothing. }
  apply refusal_None in Hr as [Ha Hmax]. pose proof (read_head_length _ _ _ Hh) as Hlen.
  destruct (bool_decide _ && _) eqn:Hnb; [eexists _, _, _; split; [done|]; by eapply served_nothing|].
  destruct (expect_continue head && negb (continue_ok t)); [eexists _, _, _; split; [done|]; by eapply served_nothing|].
  set (interim := if expect_continue head then _ else _).
  assert (∀ b, Queued b ∉ interim) as Hi.
  { intros b. unfold interim. destruct (expect_continue head); rewrite ?elem_of_cons, elem_of_nil; naive_solver. }
  destruct (read_body_ok head rest) as [Hbs Hbm].
  { intros Hch. rewrite Hch, andb_true_r in Hnb. apply bool_decide_eq_false in Hnb.
    destruct (content_length head) as [n|] eqn:Hn; [|done]. exists n. split; [done|]. split; [by apply Hlen|by apply Hmax]. }
  destruct (read_body head rest) as [[body rest']|o| |] eqn:Hb; try done.
  2: { eexists _, _, _. split; [done|]. split; [by exists k|]. intros b Hin. by apply Hi in Hin. }
  destruct (Hbm body rest' eq_refl) as (Hz & k' & -> & Hw).
  assert (∃ k0, input = k0 ++ rest') as Hsuf by (exists (k ++ k'); by rewrite <- app_assoc).
  destruct (send t) eqn:Hsend; eexists _, _, _; (split; [done|]); (split; [done|]); intros b Hin; try by apply Hi in Hin.
  apply elem_of_app in Hin as [Hin|Hin]; [by apply Hi in Hin|]. apply list_elem_of_singleton in Hin as [= ->].
  split; [done|]. split; [done|]. split; [done|]. by exists head, k'.
Qed.

Lemma recv_fits f : zlen f ≤ MAX_FRAME → recv MAX_FRAME (Some f) = Some f.
Proof.
  intros Hf. cbn. rewrite Z.min_l by done. f_equal. apply take_ge. unfold zlen. lia.
Qed.

Definition frame_fits (a : Act) : Prop := match a with Queued f => zlen f ≤ MAX_FRAME | Wrote _ => True end.

Lemma connection_ok s turns : ∀ input, ∃ acts, connection_loop s turns input = Ok acts ∧ Forall frame_fits acts.
Proof.
  induction turns as [|t turns IH]; intros input; [by exists []|]. cbn [connection_loop].
  destruct (_ || _); [by exists []|]. destruct (late t); [by exists []|].
  destruct (serve_spec s t input) as (acts & [o re] & rest & -> & _ & Hq). cbn [mbind res_bind].
  assert (Forall frame_fits acts) as Hf.
  { apply Forall_forall. intros [b|f] Hin; [done|]. by apply Hq in Hin as (_ & _ & ? & _). }
  destruct (negb (respond_ok t)); [by eexists|].
  assert (Forall frame_fits (acts ++ [Wrote (respond o re)])) as Hf' by (apply Forall_app; split; [done|by repeat constructor]).
  destruct (negb re); [by eexists|]. destruct (IH rest) as (more & -> & Hm). eexists. split; [done|]. by apply Forall_app.
Qed.

(** * A sender *)

(** A line's text: no line feed, no carriage return at its end. *)
Record line_text (l : bytes) : Prop := { lt_lf : 10 ∉ l; lt_cr : last l ≠ Some 13; lt_utf8 : utf8_valid l = true }.
Definition crlf (l : bytes) : bytes := l ++ CRLF.

Lemma read_until_crlf l k : 10 ∉ l → read_until (crlf l ++ k) = Ok (crlf l, k).
Proof.
  intros Hl. unfold read_until, crlf, CRLF.
  assert (∀ l k, 10 ∉ l → find_byte 10 (l ++ 10 :: k) = Some (zlen l)) as Hf.
  { clear. induction l as [|b l IH]; intros k H; [done|]. cbn [app find_byte]. rewrite not_elem_of_cons in H. destruct H as [Hb H].
    destruct (Z.eqb_spec b 10); [congruence|]. rewrite IH by done. cbn. rewrite zlen_cons. f_equal. lia. }
  assert ((l ++ [13; 10]) ++ k = (l ++ [13]) ++ 10 :: k) as -> by by rewrite <- !app_assoc.
  rewrite Hf. 2: { rewrite elem_of_app, list_elem_of_singleton. naive_solver. }
  replace (Z.to_nat (zlen (l ++ [13]) + 1)) with (length (l ++ [13; 10])) by (rewrite zlen_app; unfold zlen; rewrite length_app; cbn [length]; lia).
  assert ((l ++ [13]) ++ 10 :: k = (l ++ [13; 10]) ++ k) as -> by by rewrite <- !app_assoc.
  by rewrite take_app_length, drop_app_length.
Qed.

Lemma strip_crlf l : last l ≠ Some 13 → 10 ∉ l → trim_end_matches (λ b, (b =? 10) || (b =? 13)) (crlf l) = l.
Proof.
  intros Hcr Hlf. unfold trim_end_matches, crlf, CRLF. rewrite rev_app_distr. cbn [rev app drop_while]. cbn.
  destruct l as [|b l _] using rev_ind; [done|]. rewrite rev_unit. rewrite last_snoc in Hcr. cbn [drop_while].
  assert (b ≠ 10) by (intros ->; apply Hlf; rewrite elem_of_app, list_elem_of_singleton; by right).
  destruct (Z.eqb_spec b 10); [done|]. destruct (Z.eqb_spec b 13); [congruence|]. cbn [orb]. by rewrite <- rev_unit, rev_involutive.
Qed.

Lemma crlf_zlen l : zlen (crlf l) = zlen l + 2.
Proof. unfold crlf. by rewrite zlen_app. Qed.

Lemma read_line_crlf l k budget : line_text l → zlen (crlf l) ≤ budget →
  read_line (crlf l ++ k) budget = Ok (l, k, budget - zlen (crlf l)).
Proof.
  intros [Hlf Hcr Hu] Hb. unfold read_line. rewrite read_until_crlf by done. cbn [mbind res_bind].
  pose proof (zlen_nonneg l). pose proof (crlf_zlen l). destruct (Z.eqb_spec (zlen (crlf l)) 0); [lia|]. cbn [negb guard_res mbind res_bind].
  destruct (Z.leb_spec (zlen (crlf l)) budget); [|lia]. cbn [guard_res mbind res_bind]. rewrite strip_crlf, Hu by done. done.
Qed.

Lemma line_text_nil : line_text [].
Proof. split; [by apply not_elem_of_nil|done..]. Qed.

(** What a header says. *)
Inductive Said := SLength (n : Z) | SChunked | SExpect (yes : bool) | SToken (v : bytes) | SOther.

Definition says (name text : bytes) (x : Said) : Prop :=
  match x with
  | SLength n => eq_ignore_ascii_case name "content-length" = true ∧ parse_uint 10 (2 ^ 64) (trim text) = Some n
  | SChunked => eq_ignore_ascii_case name "transfer-encoding" = true ∧ eq_ignore_ascii_case (trim text) "chunked" = true
  | SExpect yes => eq_ignore_ascii_case name "expect" = true ∧ eq_ignore_ascii_case (trim text) "100-continue" = yes
  | SToken v => eq_ignore_ascii_case name "x-ajar-token" = true ∧ trim text = v
  | SOther => Forall (λ n, eq_ignore_ascii_case name n = false)
                ["content-length"; "transfer-encoding"; "expect"; "x-ajar-token"]%string
  end.

(** The head of a request whose headers say this, the last word counting. *)
Definition stated (h : Head) (x : Said) : Head :=
  let '(mkHead me pa cl ch ex tk) := h in
  match x with
  | SLength n => mkHead me pa (Some n) ch ex tk
  | SChunked => mkHead me pa cl true ex tk
  | SExpect yes => mkHead me pa cl ch yes tk
  | SToken v => mkHead me pa cl ch ex (Some v)
  | SOther => h
  end.

Lemma eq_ignore_other name a b : eq_ignore_ascii_case name a = true → (to_lower <$> s2b a) ≠ (to_lower <$> s2b b) →
  eq_ignore_ascii_case name b = false.
Proof.
  unfold eq_ignore_ascii_case. rewrite bool_decide_eq_true, bool_decide_eq_false. congruence.
Qed.

Lemma header_says h name text x : says name text x → header h name (trim text) = Ok (stated h x).
Proof.
  unfold header. destruct h as [me pa cl ch ex tk].
  destruct x as [n| |yes|v|]; cbn [says stated]; [intros [H1 H2]..|intros H].
  - by rewrite H1, H2.
  - rewrite (eq_ignore_other _ _ "content-length" H1) by (vm_compute; done). by rewrite H1, H2.
  - rewrite (eq_ignore_other _ _ "content-length" H1) by (vm_compute; done).
    rewrite (eq_ignore_other _ _ "transfer-encoding" H1) by (vm_compute; done). by rewrite H1, H2.
  - rewrite (eq_ignore_other _ _ "content-length" H1) by (vm_compute; done).
    rewrite (eq_ignore_other _ _ "transfer-encoding" H1) by (vm_compute; done).
    rewrite (eq_ignore_other _ _ "expect" H1) by (vm_compute; done). by rewrite H1, H2.
  - apply Forall_cons in H as [-> H]. apply Forall_cons in H as [-> H]. apply Forall_cons in H as [-> H].
    by apply Forall_cons in H as [-> _].
Qed.

(** A header as written: the name, a colon, the text. *)
Definition header_line (h : bytes * bytes) : bytes := h.1 ++ 58 :: h.2.
Definition header_ok (h : bytes * bytes) (x : Said) : Prop := 58 ∉ h.1 ∧ line_text (header_line h) ∧ says h.1 h.2 x.
Definition enc_lines (ls : list bytes) : bytes := concat (crlf <$> ls) ++ CRLF.

(** One header line read. *)
Lemma headers_step hd x : header_ok hd x → ∀ n h k budget, zlen (crlf (header_line hd)) ≤ budget →
  headers (S n) h (crlf (header_line hd) ++ k) budget = headers n (stated h x) k (budget - zlen (crlf (header_line hd))).
Proof.
  destruct hd as [nm tx]. intros (Hc & Hl & Hs) n h k budget Hb. cbn [headers]. rewrite read_line_crlf by done.
  cbn [mbind res_bind]. set (b' := budget - _). clearbody b'.
  assert (∃ c l, header_line (nm, tx) = c :: l) as (c & l & E) by (unfold header_line; cbn; destruct nm; by eexists _, _).
  rewrite E. rewrite <- E. change (header_line (nm, tx)) with (nm ++ 58 :: tx). cbn [fst snd] in *.
  rewrite find_byte_app by done. cbn [ok_or mbind res_bind].
  replace (Z.to_nat (zlen nm)) with (length nm) by (unfold zlen; lia).
  replace (Z.to_nat (zlen nm + 1)) with (length (nm ++ [58])) by (unfold zlen; rewrite length_app; cbn [length]; lia).
  rewrite take_app_length. assert (nm ++ 58 :: tx = (nm ++ [58]) ++ tx) as -> by by rewrite <- app_assoc.
  by rewrite drop_app_length, (header_says _ _ _ _ Hs).
Qed.

Lemma enc_lines_cons l ls k : enc_lines (l :: ls) ++ k = crlf l ++ enc_lines ls ++ k.
Proof. unfold enc_lines. cbn [fmap list_fmap concat]. by rewrite <- !app_assoc. Qed.

Lemma enc_lines_zlen l ls : zlen (enc_lines (l :: ls)) = zlen (crlf l) + zlen (enc_lines ls).
Proof. rewrite <- (app_nil_r (enc_lines (l :: ls))), enc_lines_cons, zlen_app. by rewrite app_nil_r. Qed.

Lemma headers_enc hs xs : Forall2 header_ok hs xs → ∀ n h k budget,
  (length hs < n)%nat → zlen (enc_lines (header_line <$> hs)) ≤ budget →
  headers n h (enc_lines (header_line <$> hs) ++ k) budget = Ok (foldl stated h xs, k).
Proof.
  induction 1 as [|hd x hs xs Hx Hxs IH]; intros n h k budget Hn Hb; (destruct n as [|n]; [lia|]); cbn [fmap list_fmap] in *.
  - change (enc_lines []) with (crlf []) in *. cbn [headers]. by rewrite read_line_crlf by (done || apply line_text_nil).
  - pose proof (zlen_nonneg (enc_lines (header_line <$> hs))). rewrite enc_lines_zlen in Hb. rewrite enc_lines_cons.
    rewrite (headers_step hd x) by (done || lia). apply IH; [cbn in Hn; lia|lia].
Qed.

(** Too few turns for the blank line. *)
Lemma headers_short hs xs : Forall2 header_ok hs xs → ∀ n h k budget,
  (n <= length hs)%nat → zlen (enc_lines (header_line <$> hs)) ≤ budget →
  headers n h (enc_lines (header_line <$> hs) ++ k) budget = Err BadRequest.
Proof.
  induction 1 as [|hd x hs xs Hx Hxs IH]; intros n h k budget Hn Hb; (destruct n as [|n]; [done|]); [cbn in Hn; lia|].
  cbn [fmap list_fmap] in *. pose proof (zlen_nonneg (enc_lines (header_line <$> hs))).
  rewrite enc_lines_zlen in Hb. rewrite enc_lines_cons. rewrite (headers_step hd x) by (done || lia).
  apply IH; [cbn in Hn; lia|lia].
Qed.

Lemma trailers_enc ls : Forall (λ l, line_text l ∧ l ≠ []) ls → ∀ fuel k budget,
  (length ls < fuel)%nat → zlen (enc_lines ls) ≤ budget → trailers fuel (enc_lines ls ++ k) budget = Ok k.
Proof.
  induction 1 as [|l ls [Hl Hne] Hls IH]; intros fuel k budget Hf Hb; (destruct fuel as [|fuel]; [lia|]); cbn [trailers].
  - change (enc_lines []) with (crlf []) in *. by rewrite read_line_crlf by (done || apply line_text_nil).
  - pose proof (zlen_nonneg (enc_lines ls)). rewrite enc_lines_zlen in Hb. rewrite enc_lines_cons.
    rewrite read_line_crlf; [|done|lia]. cbn [mbind res_bind]. destruct l; [done|]. apply IH; [cbn in Hf; lia|lia].
Qed.

(** A chunk size as written: hexadecimal digits, then perhaps an extension. *)
Record Size := mkSize { z_hex : bytes; z_ext : option bytes }.
Definition size_line (z : Size) : bytes := z_hex z ++ match z_ext z with Some e => 59 :: e | None => [] end.
Record size_ok (z : Size) (n : Z) : Prop := {
  z_digits : z_hex z ≠ [];
  z_value : digits_val 16 0 (z_hex z) = Some n;
  z_text : line_text (size_line z);
  z_fits : zlen (crlf (size_line z)) ≤ MAX_HEADER_BYTES
}.

(** The digits [digits_val] reads are no separators. *)
Lemma digits_graphic l : ∀ acc n, digits_val 16 acc l = Some n → Forall (λ b, 48 ≤ b ≤ 102 ∧ b ≠ 59) l.
Proof.
  induction l as [|b l IH]; intros acc n H; [constructor|]. cbn [digits_val] in H.
  apply bind_Some in H as (d & Hd & H). constructor; [|by eapply IH].
  unfold digit_val, is_digit, is_lower, is_upper in Hd.
  repeat match type of Hd with context [if ?x then _ else _] => destruct x eqn:? end; bool_prop; try done; lia.
Qed.

Lemma trim_graphic l : Forall (λ b, 48 ≤ b ≤ 102 ∧ b ≠ 59) l → trim l = l.
Proof.
  assert (∀ l, Forall (λ b, 48 ≤ b ≤ 102 ∧ b ≠ 59) l → trim_start l = l ∧ trim_rev l = l) as H.
  { clear. intros [|b0 t] H; [done|]. apply Forall_cons in H as [H0 H]. cbn [trim_start trim_rev].
    unfold ws1. replace (_ || _) with false by lia.
    destruct t as [|b1 t]; [done|]. apply Forall_cons in H as [H1 H].
    unfold ws2. replace (_ && _) with false by lia. replace ((b1 =? 0xC2) && _) with false by lia.
    destruct t as [|b2 t]; [done|]. apply Forall_cons in H as [H2 H].
    unfold ws3. split; [replace (_ || _) with false by lia; done|replace (_ || _) with false by lia; done]. }
  intros Hl. unfold trim, trim_end. rewrite (proj1 (H l Hl)), (proj2 (H (rev l) (Forall_rev Hl))). by rewrite rev_involutive.
Qed.

Lemma split_graphic l e : 59 ∉ l → split_on 59 (l ++ match e with Some e => 59 :: e | None => [] end) !! 0%nat = Some l.
Proof.
  induction l as [|b l IH]; intros H.
  - destruct e as [e|]; [|done]. cbn [app split_on]. by rewrite Z.eqb_refl.
  - rewrite not_elem_of_cons in H. destruct H as [Hb H]. cbn [app split_on]. destruct (Z.eqb_spec b 59); [congruence|].
    specialize (IH H). destruct (split_on 59 _) as [|f fs]; [done|]. injection IH as ->. done.
Qed.

Lemma size_read z n k : size_ok z n → 0 ≤ n < 2 ^ 64 →
  read_line (crlf (size_line z) ++ k) MAX_HEADER_BYTES = Ok (size_line z, k, MAX_HEADER_BYTES - zlen (crlf (size_line z)))
  ∧ parse_uint 16 (2 ^ 64) (trim (default [] (split_on 59 (size_line z) !! 0%nat))) = Some n.
Proof.
  intros [Hd Hv Ht Hf] Hn. split; [by apply read_line_crlf|]. pose proof (digits_graphic _ _ _ Hv) as Hg.
  unfold size_line. rewrite split_graphic.
  2: { intros Hin. rewrite Forall_forall in Hg. by apply Hg in Hin as [_ ?]. }
  cbn [default from_option]. unfold id. rewrite trim_graphic by done. unfold parse_uint.
  destruct (z_hex z) as [|b l] eqn:E; [done|]. apply Forall_cons in Hg as [Hb _].
  assert (match b :: l with 43 :: t => t | _ => b :: l end = b :: l) as ->.
  { destruct b as [|p|p]; try done. repeat (destruct p as [p|p|]; try done); lia. }
  rewrite Hv. cbn [mbind option_bind]. destruct (Z.ltb_spec n (2 ^ 64)); [done|lia].
Qed.

(** A body: none, of a stated length, or in chunks. *)
Inductive WireBody :=
| WNone
| WSized (b : bytes)
| WChunks (chunks : list (Size * bytes)) (last : Size) (trailer : list bytes).

Definition enc_chunk (c : Size * bytes) : bytes := crlf (size_line c.1) ++ crlf c.2.
Definition enc_body (b : WireBody) : bytes :=
  match b with
  | WNone => []
  | WSized b => b
  | WChunks cs z ts => concat (enc_chunk <$> cs) ++ crlf (size_line z) ++ enc_lines ts
  end.
Definition frame_of (b : WireBody) : bytes :=
  match b with WNone => [] | WSized b => b | WChunks cs _ _ => concat cs.*2 end.

Definition chunk_ok (c : Size * bytes) : Prop := size_ok c.1 (zlen c.2) ∧ c.2 ≠ [].
Definition body_ok (h : Head) (b : WireBody) : Prop :=
  zlen (frame_of b) ≤ MAX_FRAME ∧
  match b with
  | WNone => content_length h = None ∧ chunked h = false
  | WSized b => content_length h = Some (zlen b) ∧ chunked h = false
  | WChunks cs z ts =>
      chunked h = true ∧ (∀ n, content_length h = Some n → n ≤ MAX_FRAME)
      ∧ Forall chunk_ok cs ∧ size_ok z 0 ∧ Forall (λ l, line_text l ∧ l ≠ []) ts ∧ zlen (enc_lines ts) ≤ MAX_HEADER_BYTES
  end.

Lemma concat_length_ge {A} (f : A → bytes) (ls : list A) : (∀ x, f x ≠ []) → (length ls ≤ length (concat (f <$> ls)))%nat.
Proof.
  intros Hf. induction ls as [|x ls IH]; [done|]. cbn [fmap list_fmap concat length]. rewrite length_app.
  specialize (Hf x). destruct (f x); [done|]. cbn [length]. lia.
Qed.

Lemma crlf_ne l : crlf l ≠ [].
Proof. by destruct l. Qed.
Lemma enc_chunk_ne c : enc_chunk c ≠ [].
Proof. unfold enc_chunk. destruct (crlf (size_line c.1)) eqn:E; [by apply crlf_ne in E|done]. Qed.

Lemma chunks_enc z ts k : size_ok z 0 → Forall (λ l, line_text l ∧ l ≠ []) ts → zlen (enc_lines ts) ≤ MAX_HEADER_BYTES →
  ∀ cs, Forall chunk_ok cs → ∀ fuel body, (length cs < fuel)%nat → zlen (body ++ concat cs.*2) ≤ MAX_FRAME →
  read_chunked fuel body (concat (enc_chunk <$> cs) ++ crlf (size_line z) ++ enc_lines ts ++ k) = Ok (body ++ concat cs.*2, k).
Proof.
  intros Hz Hts Hb. induction 1 as [|[z1 d] cs [Hz1 Hd] Hcs IH]; intros fuel body Hf Hm;
    (destruct fuel as [|fuel]; [lia|]); cbn [read_chunked fmap list_fmap concat app].
  - destruct (size_read z 0 (enc_lines ts ++ k) Hz ltac:(lia)) as [-> E]. cbn [mbind res_bind]. rewrite E. cbn [ok_or mbind res_bind Z.eqb].
    rewrite trailers_enc; [by rewrite app_nil_r|done| |done]. unfold enc_lines. rewrite !length_app.
    pose proof (concat_length_ge crlf ts crlf_ne). lia.
  - cbn [fst snd] in *. unfold enc_chunk at 1. cbn [fst snd]. rewrite <- !app_assoc.
    cbn [fmap list_fmap concat snd] in Hm. rewrite !zlen_app in Hm.
    pose proof (zlen_nonneg body). pose proof (zlen_nonneg (concat cs.*2)). pose proof (zlen_nonneg d).
    assert (0 < zlen d) as Hpos by (destruct d; [done|rewrite zlen_cons in *; pose proof (zlen_nonneg d); lia]).
    unfold MAX_FRAME in *.
    set (r := concat (enc_chunk <$> cs) ++ _).
    destruct (size_read z1 (zlen d) (crlf d ++ r) Hz1 ltac:(lia)) as [-> E].
    cbn [mbind res_bind]. rewrite E. cbn [ok_or mbind res_bind]. destruct (Z.eqb_spec (zlen d) 0); [lia|].
    destruct (Z.leb_spec (Z.min (2 ^ 64 - 1) (zlen body + zlen d)) (64 * 1024)); [|lia]. cbn [guard_res mbind res_bind].
    unfold read_exact. destruct (Z.leb_spec (zlen d) (zlen (crlf d ++ r))) as [_|Hl].
    2: { unfold crlf in Hl. rewrite !zlen_app in Hl. pose proof (zlen_nonneg CRLF). pose proof (zlen_nonneg r). lia. }
    cbn [guard_res mbind res_bind]. change (crlf d) with (d ++ CRLF). rewrite <- !app_assoc.
    replace (Z.to_nat (zlen d)) with (length d) by (unfold zlen; lia). rewrite take_app_length, drop_app_length.
    change CRLF with (crlf []). rewrite read_line_crlf by (done || apply line_text_nil). cbn [mbind res_bind].
    unfold r. rewrite IH; [by rewrite <- app_assoc|cbn in Hf; lia|]. rewrite !zlen_app. lia.
Qed.

Lemma body_enc h b k : body_ok h b → b ≠ WNone → read_body h (enc_body b ++ k) = Ok (frame_of b, k).
Proof.
  intros [Hm Hb] Hn. unfold read_body. destruct b as [|b|cs z ts]; [done|..].
  - destruct Hb as [Hc ->]. rewrite Hc. cbn [default from_option enc_body frame_of]. unfold read_exact, id.
    destruct (Z.leb_spec (zlen b) (zlen (b ++ k))) as [_|Hl]; [|rewrite zlen_app in Hl; pose proof (zlen_nonneg k); lia].
    cbn [guard_res mbind res_bind]. replace (Z.to_nat (zlen b)) with (length b) by (unfold zlen; lia).
    by rewrite take_app_length, drop_app_length.
  - destruct Hb as (-> & _ & Hcs & Hz & Hts & Hl). cbn [enc_body frame_of]. rewrite <- !app_assoc.
    rewrite chunks_enc; try done. rewrite !length_app.
    pose proof (concat_length_ge enc_chunk cs enc_chunk_ne). lia.
Qed.

(** A request as a sender writes it. *)
Record Request := mkRequest {
  w_method : bytes;
  w_target : bytes;
  w_version : bytes;
  w_headers : list (bytes * bytes);
  w_body : WireBody
}.
Definition request_line (r : Request) : bytes := w_method r ++ 32 :: w_target r ++ 32 :: w_version r.
Definition enc_request (r : Request) : bytes :=
  crlf (request_line r) ++ enc_lines (header_line <$> w_headers r) ++ enc_body (w_body r).

(** What its head states. *)
Definition head_of (r : Request) (xs : list Said) : Head :=
  foldl stated
    (mkHead (eq_ignore_ascii_case (w_method r) "POST" || eq_ignore_ascii_case (w_method r) "PUT")
       (normalise_path (before_query (w_target r))) None false false None) xs.

Definition graphic (l : bytes) : Prop := Forall (λ b, 33 ≤ b ≤ 126) l.
Record request_ok (r : Request) (xs : list Said) : Prop := {
  rq_method : graphic (w_method r) ∧ w_method r ≠ [];
  rq_target : graphic (w_target r) ∧ w_target r ≠ [];
  rq_line : line_text (request_line r);
  rq_headers : Forall2 header_ok (w_headers r) xs;
  rq_count : (length (w_headers r) < MAX_HEADERS)%nat;
  rq_bytes : zlen (crlf (request_line r) ++ enc_lines (header_line <$> w_headers r)) ≤ MAX_HEADER_BYTES;
  rq_body : body_ok (head_of r xs) (w_body r)
}.

Lemma split_ascii cur b t : 33 ≤ b ≤ 126 → split_whitespace cur (b :: t) = split_whitespace (cur ++ [b]) t.
Proof.
  intros Hb. cbn [split_whitespace]. unfold ws1. replace (_ || _) with false by lia.
  destruct t as [|b1 t]; [done|]. unfold ws2. replace ((b =? 0xC2) && _) with false by lia.
  destruct t as [|b2 t]; [done|]. unfold ws3.
  replace (((b =? 225) && _ && _) || _ || _ || _) with false by lia. done.
Qed.

Lemma split_word w : graphic w → ∀ cur t, cur ++ w ≠ [] →
  split_whitespace cur (w ++ 32 :: t) = (cur ++ w) :: split_whitespace [] t.
Proof.
  induction 1 as [|b w Hb Hw IH]; intros cur t Hne.
  - rewrite app_nil_r in *. cbn. destruct cur; done.
  - cbn [app]. rewrite split_ascii, IH, <- app_assoc by (done || by destruct cur). done.
Qed.

(** The request line alone. *)
Lemma read_head_line r k :
  graphic (w_method r) ∧ w_method r ≠ [] → graphic (w_target r) ∧ w_target r ≠ [] → line_text (request_line r) →
  zlen (crlf (request_line r)) ≤ MAX_HEADER_BYTES →
  read_head (crlf (request_line r) ++ k)
  = headers MAX_HEADERS (head_of r []) k (MAX_HEADER_BYTES - zlen (crlf (request_line r))).
Proof.
  intros [Hm Hm0] [Ht Ht0] Hl Hb. unfold read_head.
  rewrite read_line_crlf by done. cbn [mbind res_bind].
  assert (split_whitespace [] (request_line r) = w_method r :: w_target r :: split_whitespace [] (w_version r)) as ->
    by (unfold request_line; rewrite split_word by done; by rewrite split_word by done).
  cbn [app lookup list_lookup default from_option]. unfold id.
  assert (∀ l : bytes, l ≠ [] → (zlen l =? 0) = false) as Hz.
  { intros l Hl0. apply Z.eqb_neq. destruct l; [done|]. rewrite zlen_cons. pose proof (zlen_nonneg l). lia. }
  by rewrite !Hz by done.
Qed.

Lemma read_head_enc r xs k : request_ok r xs →
  read_head (crlf (request_line r) ++ enc_lines (header_line <$> w_headers r) ++ k) = Ok (head_of r xs, k).
Proof.
  intros [Hm Ht Hl Hh Hc Hb _]. rewrite zlen_app in Hb.
  pose proof (zlen_nonneg (enc_lines (header_line <$> w_headers r))).
  rewrite read_head_line by (done || lia). by rewrite (headers_enc _ xs) by (done || lia).
Qed.

(** What the connection does for a delivery: the interim line if it was asked
    for, the frame if the channel takes it, and the answer. *)
Definition delivered (r : Request) (xs : list Said) (t : Turn) : list Act :=
  match w_body r with
  | WNone => [Wrote (respond Accepted true)]
  | b =>
      (if expect_continue (head_of r xs) then [Wrote CONTINUE] else [])
      ++ match send t with
         | Sent => [Queued (frame_of b); Wrote (respond Accepted true)]
         | _ => [Wrote (respond Saturated true)]
         end
  end.

(** A turn in which neither the timers nor the writes interfere. *)
Definition quiet (t : Turn) : Prop :=
  idle t = false ∧ late t = false ∧ continue_ok t = true ∧ send t ≠ Closed ∧ respond_ok t = true.

Lemma admits_refusal s h : admits s h → (∀ n, content_length h = Some n → n ≤ MAX_FRAME) → refusal s h = None.
Proof.
  intros (Hp & Hm & Ht) Hn. unfold refusal. rewrite bool_decide_true, Hm by done. cbn [negb].
  destruct (s_token s) as [e|]; [rewrite (Ht e eq_refl), secret_eq_spec, bool_decide_true by done; cbn [negb]|].
  all: destruct (content_length h) as [n|]; [|done]; destruct (Z.ltb_spec MAX_FRAME n); [|done]; specialize (Hn n eq_refl); lia.
Qed.

Lemma body_length h b : body_ok h b → ∀ n, content_length h = Some n → n ≤ MAX_FRAME.
Proof.
  intros [Hm Hb] n Hn. destruct b as [|b|cs z ts]; [by destruct Hb; congruence| |by apply Hb].
  destruct Hb as [Hc _]. rewrite Hc in Hn. by injection Hn as <-.
Qed.

Lemma serve_enc s t r xs k : request_ok r xs → admits s (head_of r xs) → quiet t →
  ∃ acts a, serve s t (enc_request r ++ k) = Ok (acts, (a, true), k) ∧ acts ++ [Wrote (respond a true)] = delivered r xs t.
Proof.
  intros Hr Ha (_ & _ & Hcont & Hsend & _). unfold serve, enc_request. rewrite <- !app_assoc, (read_head_enc r xs) by done.
  destruct Hr as [_ _ _ _ _ _ Hb]. rewrite (admits_refusal s _ Ha (body_length _ _ Hb)).
  unfold delivered. destruct (w_body r) as [|b|cs z ts] eqn:E.
  - destruct Hb as [_ [-> ->]]. rewrite bool_decide_true by done. cbn [negb andb enc_body app]. by eexists _, _.
  - assert (bool_decide (content_length (head_of r xs) = None) = false) as ->.
    { destruct Hb as [_ [-> _]]. by rewrite bool_decide_false. }
    rewrite Hcont, andb_false_r, body_enc by done. cbn [andb].
    destruct (send t); [..|done]; eexists _, _; (split; [done|]); by rewrite <- ?app_assoc.
  - assert (negb (chunked (head_of r xs)) = false) as -> by (destruct Hb as [_ [-> _]]; done).
    rewrite Hcont, !andb_false_r, body_enc by done.
    destruct (send t); [..|done]; eexists _, _; (split; [done|]); by rewrite <- ?app_assoc.
Qed.

Lemma enc_request_pos r : (zlen (enc_request r) =? 0) = false.
Proof.
  apply Z.eqb_neq. unfold enc_request. rewrite !zlen_app, crlf_zlen.
  pose proof (zlen_nonneg (request_line r)). pose proof (zlen_nonneg (enc_lines (header_line <$> w_headers r))).
  pose proof (zlen_nonneg (enc_body (w_body r))). lia.
Qed.

(** * Properties *)

(** C29: requests sent one after the other on a connection are delivered one by
    one: whatever the order, case and spacing of their headers, and whether a body
    has a stated length or comes in chunks with extensions and trailers, each
    body is queued as one frame and answered 204, or, when the channel is full,
    answered 503 with the connection kept for the retry, and the next request is
    read from where this one ends. *)
Theorem http_pipeline s ds k :
  Forall (λ '(r, xs, t), request_ok r xs ∧ admits s (head_of r xs) ∧ quiet t) ds →
  connection_loop s ds.*2 (concat ((λ d, enc_request d.1.1) <$> ds) ++ k)
  = Ok (concat ((λ d, delivered d.1.1 d.1.2 d.2) <$> ds)).
Proof.
  induction 1 as [|[[r xs] t] ds (Hr & Ha & Ht) Hds IH]; [done|]. cbn [fmap list_fmap concat fst snd connection_loop].
  rewrite <- app_assoc. destruct (serve_enc s t r xs (concat ((λ d, enc_request d.1.1) <$> ds) ++ k) Hr Ha Ht) as (acts & a & Hs & Hd).
  destruct Ht as (-> & -> & _ & _ & Hres). rewrite zlen_app. pose proof (enc_request_pos r) as Hz%Z.eqb_neq.
  pose proof (zlen_nonneg (enc_request r)). pose proof (zlen_nonneg (concat ((λ d, enc_request d.1.1) <$> ds) ++ k)).
  replace (_ =? 0) with false by lia. cbn [orb]. rewrite Hs. cbn [mbind res_bind]. rewrite Hres. cbn [negb].
  rewrite IH. cbn [mbind res_bind]. by rewrite <- Hd.
Qed.

(** C30: whatever bytes arrive, a request is served to an answer, and reads only
    from the front; a frame is queued only for a request that named the
    configured path with POST or PUT and, where a token is set, presented it, whose
    body arrived whole, in the bytes right after the head: as many as stated, or
    chunks of the stated sizes up to the empty one and the trailer; it fits a frame
    and is answered 204. And so the runtime's buffer receives whole every frame a
    connection ever queues. *)
Theorem http_gate s t turns input :
  (∃ acts a rest, serve s t input = Ok (acts, a, rest) ∧ served s t input acts a rest)
  ∧ ∃ acts, connection_loop s turns input = Ok acts ∧ ∀ f, Queued f ∈ acts → recv MAX_FRAME (Some f) = Some f.
Proof.
  split; [apply serve_spec|]. destruct (connection_ok s turns input) as (acts & -> & Hf). exists acts. split; [done|].
  intros f Hin. apply recv_fits. rewrite Forall_forall in Hf. by apply (Hf (Queued f)).
Qed.

(** A request of as many header lines as [MAX_HEADERS] is refused: the blank line
    that ends them takes a turn of the loop too. *)
Lemma header_limit r xs k :
  graphic (w_method r) ∧ w_method r ≠ [] → graphic (w_target r) ∧ w_target r ≠ [] → line_text (request_line r) →
  Forall2 header_ok (w_headers r) xs → length (w_headers r) = MAX_HEADERS →
  zlen (crlf (request_line r) ++ enc_lines (header_line <$> w_headers r)) ≤ MAX_HEADER_BYTES →
  read_head (crlf (request_line r) ++ enc_lines (header_line <$> w_headers r) ++ k) = Err BadRequest.
Proof.
  intros Hm Ht Hl Hh Hc Hb. rewrite zlen_app in Hb.
  pose proof (zlen_nonneg (enc_lines (header_line <$> w_headers r))).
  rewrite read_head_line by (done || lia). by apply (headers_short _ xs); [|lia..].
Qed.
End reader.

(** * Opening the listener *)

(** @src rust/connectors/common/src/http_server.rs 102-108 Tls *)
Record Tls := mkTls { cert : option bytes; tls_key : option bytes; client_ca : option bytes }.

Inductive OpenError := ClientCaNeedsTls | TokenNeedsTls | HalfPair | TlsConfig | Binding.

Section open.
(** Whether the files load into a TLS configuration, and the address bound. *)
Variable tls_acceptor : bytes → bytes → option bytes → bool.
Variable bind_to : bytes → option bytes.

(** Whether connections are wrapped in TLS. *)
(** @src rust/connectors/common/src/http_server.rs 119-138 open *)
Definition acceptor_of (tok : option bytes) (tls : Tls) : res OpenError bool :=
  match cert tls, tls_key tls with
  | Some c, Some k => guard_res (tls_acceptor c k (client_ca tls)) TlsConfig ;; Ok true
  | None, None =>
      guard_res (bool_decide (client_ca tls = None)) ClientCaNeedsTls ;;
      guard_res (bool_decide (tok = None)) TokenNeedsTls ;;
      Ok false
  | _, _ => Err HalfPair
  end.

(** @src rust/connectors/common/src/http_server.rs 110-157 open *)
Definition open (bind : bytes) (pa : bytes) (tok : option bytes) (tls : Tls) : res OpenError (Settings * bool * bytes) :=
  acceptor ← acceptor_of tok tls;
  local ← ok_or Binding (bind_to bind);
  let settings := mkSettings (normalise_path pa) tok in
  let scheme := if (acceptor : bool) then match client_ca tls with Some _ => "https+mtls"%string | None => "https"%string end else "http"%string in
  Ok (settings, acceptor, s2b "http-server " ++ s2b scheme ++ s2b "://" ++ local ++ s_path settings).

(** A token is never asked for in the clear, nor a client certificate. *)
Lemma open_never_in_the_clear bind pa tok tls s acceptor d :
  open bind pa tok tls = Ok (s, acceptor, d) →
  s = mkSettings (normalise_path pa) tok ∧ (is_Some tok ∨ is_Some (client_ca tls) → acceptor = true).
Proof.
  intros (acc & Ha & H)%bind_Ok. apply bind_Ok in H as (local & _ & [= <- <- <-]). split; [done|].
  unfold acceptor_of in Ha. destruct (cert tls), (tls_key tls); try done.
  - by apply bind_Ok in Ha as (? & _ & [= <-]).
  - apply bind_Ok in Ha as (? & Hc%guard_Ok & Ha). apply bind_Ok in Ha as (? & Ht%guard_Ok & _).
    apply bool_decide_eq_true in Hc, Ht. rewrite Hc, Ht. intros [H|H]; by apply is_Some_None in H.
Qed.
End open.

(** * Witnesses *)

Definition ex_settings : Settings := mkSettings (s2b "/hook") (Some (s2b "secret")).
Definition ex_turn (r : SendResult) : Turn := mkTurn false false true r true.

(** A body in two chunks, the first with an extension, and one trailer. *)
Definition ex_chunked : Request :=
  mkRequest (s2b "post") (s2b "/hook/?q=1") (s2b "HTTP/1.1")
    [(s2b "Transfer-Encoding", s2b " Chunked"); (s2b "X-Ajar-Token", s2b "secret"); (s2b "Host", s2b " h:1")]
    (WChunks [(mkSize (s2b "03") (Some (s2b "x=1")), [1; 2; 3]); (mkSize (s2b "1") None, [10])] (mkSize (s2b "0") None) [s2b "T: v"]).
Definition ex_chunked_says : list Said := [SChunked; SToken (s2b "secret"); SOther].

(** A body of a stated length, announced first. *)
Definition ex_sized : Request :=
  mkRequest (s2b "PUT") (s2b "hook") (s2b "HTTP/1.1")
    [(s2b "content-length", s2b " 2 "); (s2b "x-ajar-token", s2b "secret"); (s2b "EXPECT", s2b "100-Continue")]
    (WSized [13; 10]).
Definition ex_sized_says : list Said := [SLength 2; SToken (s2b "secret"); SExpect true].

Definition ex_deliveries : list (Request * list Said * Turn) :=
  [(ex_chunked, ex_chunked_says, ex_turn Sent); (ex_sized, ex_sized_says, ex_turn Full); (ex_sized, ex_sized_says, ex_turn Sent)].

(** Decidable forms, to check the requests above by computation. *)
Definition line_textb (l : bytes) : bool := negb (existsb (Z.eqb 10) l) && bool_decide (last l ≠ Some 13) && utf8_valid l.
Lemma line_textb_ok l : line_textb l = true → line_text l.
Proof.
  unfold line_textb. rewrite !andb_true_iff, negb_true_iff, bool_decide_eq_true. intros [[H1 H2] H3]. split; [|done..].
  intros Hin. apply list_elem_of_In in Hin. assert (existsb (Z.eqb 10) l = true) as H; [|congruence].
  apply existsb_exists. by exists 10.
Qed.
Definition absentb (c : Z) (l : bytes) : bool := negb (existsb (Z.eqb c) l).
Lemma absentb_ok c l : absentb c l = true → c ∉ l.
Proof.
  unfold absentb. rewrite negb_true_iff. intros H Hin. apply list_elem_of_In in Hin.
  assert (existsb (Z.eqb c) l = true) as H'; [|congruence]. apply existsb_exists. exists c. by rewrite Z.eqb_refl.
Qed.
Ltac header_tac := split; [by apply absentb_ok|split; [by apply line_textb_ok|cbn [says fst snd]; try (split; reflexivity); repeat constructor]].
Ltac size_tac := split; [done|reflexivity|by apply line_textb_ok|by vm_compute].

Lemma http_pipeline_witness :
  connection_loop false ex_settings ex_deliveries.*2 (concat ((λ d, enc_request d.1.1) <$> ex_deliveries) ++ [1])
  = Ok [Queued [1; 2; 3; 10]; Wrote (respond Accepted true);
        Wrote CONTINUE; Wrote (respond Saturated true);
        Wrote CONTINUE; Queued [13; 10]; Wrote (respond Accepted true)].
Proof.
  rewrite (http_pipeline false ex_settings ex_deliveries [1]); [reflexivity|].
  assert (request_ok ex_chunked ex_chunked_says) as Hc.
  { split; [by split; [repeat constructor|]..| | | | |].
    - by apply line_textb_ok.
    - repeat (constructor; [header_tac|]). constructor.
    - by vm_compute; repeat constructor.
    - by vm_compute.
    - split; [by vm_compute|]. split_and!; [done|done| | | |by vm_compute].
      + repeat (constructor; [split; [size_tac|done]|]). constructor.
      + size_tac.
      + constructor; [split; [by apply line_textb_ok|done]|constructor]. }
  assert (request_ok ex_sized ex_sized_says) as Hz.
  { split; [by split; [repeat constructor|]..| | | | |].
    - by apply line_textb_ok.
    - repeat (constructor; [header_tac|]). constructor.
    - by vm_compute; repeat constructor.
    - by vm_compute.
    - split; [by vm_compute|done]. }
  repeat (constructor; [split; [done|split; [split_and!; [reflexivity|reflexivity|by intros ? [= <-]]|by split_and!]]|]). constructor.
Defined.
