(* ===== verification/Follow.v ===== *)
(** The file transport (rust/connectors/common/src/file.rs): following a file a
    source appends to. What the reads return, and what the polls at its end find,
    are the events of a list. *)
From Stdlib Require Import ZArith Lia.
From S2P Require Export Stream.

Local Open Scope Z_scope.

(** @src rust/connectors/common/src/lib.rs 52-55 MAX_FRAME_BYTES *)
Definition MAX_FRAME_BYTES : Z := 64 * 1024.

(** @src rust/connectors/common/src/file.rs 15-17 MAX_HELD *)
Definition MAX_HELD : Z := MAX_FRAME_BYTES + 4.

(** @src rust/connectors/common/src/file.rs 19-27 FileSource *)
Record FileSource := mkFile { framing : Framing; held : bytes; pos : Z }.

(** What a call waits for: bytes from the file (of a line framing, up to and
    with the next newline or to the end as it stands), or, at its end, half a
    second later, the file's length, if it has one, and whether it reopens. *)
Inductive ReadEvent := Chunk (b : bytes) | AtEnd (meta : option Z) (reopens : bool).

Inductive FileError := BadFrame | NoBoundary | BadText | Reopen.

(** What a call returns: a frame, an error, or nothing yet. *)
Inductive Received := Frame (b : bytes) | Failed (e : FileError) | Waiting.

(** @src rust/connectors/common/src/file.rs 30-43 declared *)
Definition declared (self : FileSource) : option (Z * Z) :=
  match framing self with
  | Line => None
  | LengthDelimited => if 2 <=? zlen (held self) then Some (2, be_val (take 2 (held self))) else None
  | LengthU32le => if 4 <=? zlen (held self) then Some (4, le_val (take 4 (held self))) else None
  end.

(** @src rust/connectors/common/src/file.rs 45-62 take_frame *)
Definition take_frame (buf_len : Z) (self : FileSource) : FileSource * res FileError (option bytes) :=
  match declared self with
  | None => (self, Ok None)
  | Some (prefix, n) =>
      if buf_len <? n then (self, Err BadFrame)
      else if zlen (held self) <? prefix + n then (self, Ok None)
      else
        match get_range (held self) prefix (prefix + n) with
        | Some frame => (mkFile (framing self) (drop (Z.to_nat (prefix + n)) (held self)) (pos self), Ok (Some frame))
        | None => (self, Panic)
        end
  end.

(** @src rust/connectors/common/src/file.rs 64-76 reopen_if_rotated *)
Definition reopen_if_rotated (meta : option Z) (reopens : bool) (self : FileSource) : res FileError FileSource :=
  match meta with
  | Some len =>
      if len <? pos self then (if reopens then Ok (mkFile (framing self) [] 0) else Err Reopen) else Ok self
  | None => Ok self
  end.

(** [trim_end_matches(['\r', '\n'])]. *)
Definition trim_newline (l : bytes) : bytes := trim_end_matches (λ b, (b =? 13) || (b =? 10)) l.

(** The events left are the next call's. *)
(** @src rust/connectors/common/src/file.rs 81-114 recv *)
Fixpoint recv (buf_len : Z) (evs : list ReadEvent) (self : FileSource) : list ReadEvent * FileSource * res FileError Received :=
  let wait evs self :=
    match evs with
    | [] => ([], self, Ok Waiting)
    | Chunk b :: evs =>
        let pos' := pos self + zlen b in
        match framing self with
        | Line =>
            if utf8_valid b then
              let bytes := trim_newline b in
              (evs, mkFile Line (held self) pos', Ok (Frame (take (Z.to_nat (Z.min (zlen bytes) buf_len)) bytes)))
            else (evs, self, Ok (Failed BadText))
        | f =>
            if MAX_HELD <? zlen (held self) + zlen b then (evs, mkFile f (held self) pos', Ok (Failed NoBoundary))
            else recv buf_len evs (mkFile f (held self ++ b) pos')
        end
    | AtEnd meta reopens :: evs =>
        match reopen_if_rotated meta reopens self with
        | Ok self => recv buf_len evs self
        | Err e => (evs, self, Ok (Failed e))
        | Panic => (evs, self, Panic)
        | NoFuel => (evs, self, NoFuel)
        end
    end in
  match framing self with
  | Line => wait evs self
  | _ =>
      match take_frame buf_len self with
      | (self, Ok (Some f)) => (evs, self, Ok (Frame f))
      | (self, Ok None) => wait evs self
      | (self, Err e) => (evs, self, Ok (Failed e))
      | (self, Panic) => (evs, self, Panic)
      | (self, NoFuel) => (evs, self, NoFuel)
      end
  end.

(** @src rust/connectors/common/src/file.rs 121-137 open *)
Definition open (from_start : bool) (f : Framing) (len : Z) : FileSource := mkFile f [] (if from_start then 0 else len).

(** Call after call, until one is left waiting; [n] bounds the calls. *)
Fixpoint recv_all (n : nat) (buf_len : Z) (evs : list ReadEvent) (self : FileSource) : list (res FileError Received) :=
  match n with
  | O => []
  | S n =>
      match recv buf_len evs self with
      | (_, _, Ok Waiting) => []
      | (evs, self, r) => r :: recv_all n buf_len evs self
      end
  end.

(** * Lemmas *)

Lemma declared_range self p n : bytes_ok (held self) → declared self = Some (p, n) → 0 ≤ p ≤ zlen (held self) ∧ 0 ≤ n.
Proof.
  unfold declared. intros Hb H. destruct (framing self); [done|..].
  - destruct (Z.leb_spec 2 (zlen (held self))); [|done]. injection H as <- <-. split; [lia|]. by apply be_val_nonneg, bytes_ok_take.
  - destruct (Z.leb_spec 4 (zlen (held self))); [|done]. injection H as <- <-. split; [lia|].
    by apply be_val_nonneg, bytes_ok_rev, bytes_ok_take.
Qed.

(** The bytes the reads return, and those the file held before. *)
Definition chunks_of (evs : list ReadEvent) : bytes := concat ((λ e, match e with Chunk b => b | AtEnd _ _ => [] end) <$> evs).

(** The file only grew: every length found is at least what was read, every read
    returns between 1 byte and the 8,192 asked for. *)
Fixpoint steady (at_ : Z) (evs : list ReadEvent) : Prop :=
  match evs with
  | [] => True
  | Chunk b :: evs => 0 < zlen b ≤ 8192 ∧ steady (at_ + zlen b) evs
  | AtEnd meta _ :: evs => (∀ len, meta = Some len → at_ ≤ len) ∧ steady at_ evs
  end.

(** The frame's prefix. *)
Definition prefix_len (f : Framing) : Z := match f with Line => 0 | LengthDelimited => 2 | LengthU32le => 4 end.
Definition enc_prefix (f : Framing) (l : bytes) : bytes :=
  match f with Line => [] | LengthDelimited => be_enc 2 (zlen l) | LengthU32le => rev (be_enc 4 (zlen l)) end.

Lemma enc_frame_prefix f l : f ≠ Line → enc_frame f l = enc_prefix f l ++ l.
Proof. by destruct f. Qed.
Lemma enc_prefix_len f l : zlen (enc_prefix f l) = prefix_len f.
Proof. unfold enc_prefix. destruct f; [done|by rewrite be_enc_zlen|by rewrite zlen_rev, be_enc_zlen]. Qed.

(** A frame the buffer and the prefix have room for, and one short enough that a
    whole read beyond it still fits what is held. *)
Definition fits (f : Framing) (buf_len : Z) (l : bytes) : Prop := zlen l ≤ buf_len ∧ zlen l < 256 ^ prefix_len f.
Definition small (f : Framing) (buf_len : Z) (l : bytes) : Prop :=
  fits f buf_len l ∧ prefix_len f + zlen l ≤ MAX_HELD - 8191.

(** With the whole prefix held, the length is the one it was written from. *)
Lemma declared_enc f l h p k : f ≠ Line → zlen l < 256 ^ prefix_len f →
  h ++ k = enc_frame f l ++ p →
  declared (mkFile f h 0) = if prefix_len f <=? zlen h then Some (prefix_len f, zlen l) else None.
Proof.
  intros Hf Hl E. rewrite enc_frame_prefix, <- app_assoc in E by done. unfold declared. cbn [framing held].
  assert (∀ j, prefix_len f ≤ zlen h → Z.of_nat j = prefix_len f → take j h = enc_prefix f l) as Ht.
  { intros j Hz Hj. assert (take j (h ++ k) = take j (enc_prefix f l ++ l ++ p)) as E' by by rewrite E.
    rewrite take_app_le in E' by (unfold zlen in Hz; lia). rewrite E'. apply take_app_length'.
    pose proof (enc_prefix_len f l). unfold zlen in *. lia. }
  pose proof (zlen_nonneg l). destruct f; [done|..]; cbn [prefix_len] in *.
  - destruct (Z.leb_spec 2 (zlen h)); [|done]. rewrite (Ht 2%nat) by done. unfold enc_prefix. rewrite be_val_enc.
    rewrite Z.mod_small; [done|]. change (256 ^ Z.of_nat 2) with (256 ^ 2). lia.
  - destruct (Z.leb_spec 4 (zlen h)); [|done]. rewrite (Ht 4%nat) by done. unfold enc_prefix, le_val. rewrite rev_involutive, be_val_enc.
    rewrite Z.mod_small; [done|]. change (256 ^ Z.of_nat 4) with (256 ^ 4). lia.
Qed.

Lemma declared_pos f h a b : declared (mkFile f h a) = declared (mkFile f h b).
Proof. done. Qed.

(** Held and still to come make up the frames: the frame is taken once it is all
    held, and not before. *)
Lemma take_frame_enc f buf_len l h p k a : f ≠ Line → fits f buf_len l → h ++ k = enc_frame f l ++ p →
  take_frame buf_len (mkFile f h a) =
    if zlen (enc_frame f l) <=? zlen h
    then (mkFile f (drop (length (enc_frame f l)) h) a, Ok (Some l)) else (mkFile f h a, Ok None).
Proof.
  intros Hf (Hb & Hl) E. unfold take_frame. rewrite (declared_pos _ _ a 0), (declared_enc f l h p k) by done.
  pose proof (zlen_nonneg l). pose proof (enc_prefix_len f l) as Hp.
  assert (zlen (enc_frame f l) = prefix_len f + zlen l) as Hz by by rewrite enc_frame_prefix, zlen_app, Hp.
  destruct (Z.leb_spec (prefix_len f) (zlen h)) as [H1|H1].
  2: { destruct (Z.leb_spec (zlen (enc_frame f l)) (zlen h)); [lia|done]. }
  destruct (Z.ltb_spec buf_len (zlen l)); [lia|]. cbn [held framing pos].
  destruct (Z.ltb_spec (zlen h) (prefix_len f + zlen l)) as [H2|H2].
  { destruct (Z.leb_spec (zlen (enc_frame f l)) (zlen h)); [lia|done]. }
  destruct (Z.leb_spec (zlen (enc_frame f l)) (zlen h)); [|lia].
  assert (h = enc_frame f l ++ drop (length (enc_frame f l)) h) as Eh.
  { rewrite <- (take_drop (length (enc_frame f l)) h) at 1. f_equal.
    assert (take (length (enc_frame f l)) (h ++ k) = enc_frame f l) as Et by by rewrite E, take_app_length.
    rewrite take_app_le in Et; [done|]. unfold zlen in *. lia. }
  assert (get_range h (prefix_len f) (prefix_len f + zlen l) = Some l) as ->.
  { rewrite Eh, enc_frame_prefix, <- app_assoc by done. by apply get_range_app. }
  do 3 f_equal. unfold zlen in *. lia.
Qed.

Lemma reopen_steady meta reopens self at_ : (∀ len, meta = Some len → at_ ≤ len) → pos self = at_ →
  reopen_if_rotated meta reopens self = Ok self.
Proof.
  intros Hm <-. unfold reopen_if_rotated. destruct meta as [len|]; [|done].
  specialize (Hm len eq_refl). destruct (Z.ltb_spec len (pos self)); [lia|done].
Qed.

(** One turn of the loop of a length-prefixed framing. *)
Lemma recv_prefixed f buf_len evs h a self r : f ≠ Line → take_frame buf_len (mkFile f h a) = (self, r) →
  recv buf_len evs (mkFile f h a) =
    match r with
    | Ok (Some l) => (evs, self, Ok (Frame l))
    | Ok None =>
        match evs with
        | [] => ([], self, Ok Waiting)
        | Chunk b :: evs =>
            if MAX_HELD <? zlen h + zlen b then (evs, mkFile f h (a + zlen b), Ok (Failed NoBoundary))
            else recv buf_len evs (mkFile f (h ++ b) (a + zlen b))
        | AtEnd meta reopens :: evs =>
            match reopen_if_rotated meta reopens self with
            | Ok self => recv buf_len evs self
            | Err e => (evs, self, Ok (Failed e))
            | Panic => (evs, self, Panic)
            | NoFuel => (evs, self, NoFuel)
            end
        end
    | Err e => (evs, self, Ok (Failed e))
    | Panic => (evs, self, Panic)
    | NoFuel => (evs, self, NoFuel)
    end.
Proof.
  intros Hf Ht. assert (r = Ok None → self = mkFile f h a) as Hself.
  { intros ->. unfold take_frame in Ht. destruct (declared _) as [[p n]|]; [|by injection Ht].
    destruct (_ <? _); [done|]. destruct (_ <? _); [by injection Ht|]. by destruct (get_range _ _ _). }
  destruct evs as [|[b|meta reopens] evs]; cbn [recv framing]; (destruct f; [done|..]); rewrite Ht;
    (destruct r as [[l|]| | |]; try done); by rewrite (Hself eq_refl).
Qed.

Lemma recv_frame f buf_len l ls : f ≠ Line → small f buf_len l → ∀ evs h a,
  steady a evs → h ++ chunks_of evs = enc_frame f l ++ concat (enc_frame f <$> ls) →
  ∃ evs' h' a', recv buf_len evs (mkFile f h a) = (evs', mkFile f h' a', Ok (Frame l))
    ∧ steady a' evs' ∧ h' ++ chunks_of evs' = concat (enc_frame f <$> ls).
Proof.
  intros Hf Hs. set (rest := concat (enc_frame f <$> ls)).
  assert (∀ evs h a, h ++ chunks_of evs = enc_frame f l ++ rest → steady a evs → zlen (enc_frame f l) ≤ zlen h →
    ∃ evs' h' a', (evs, mkFile f (drop (length (enc_frame f l)) h) a, Ok (E := FileError) (Frame l)) = (evs', mkFile f h' a', Ok (Frame l))
    ∧ steady a' evs' ∧ h' ++ chunks_of evs' = rest) as Hdone.
  { intros evs h a E Hst Hz. eexists _, _, _. split; [done|]. split; [done|].
    rewrite <- drop_app_le by (unfold zlen in *; lia). by rewrite E, drop_app_length. }
  destruct Hs as [Hs Hmax]. pose proof (zlen_nonneg l).
  assert (zlen (enc_frame f l) = prefix_len f + zlen l) as Hz by by rewrite enc_frame_prefix, zlen_app, enc_prefix_len.
  induction evs as [|[b|meta reopens] evs IH]; intros h a Hst E;
    pose proof (take_frame_enc f buf_len l h rest _ a Hf Hs E) as Ht;
    (destruct (Z.leb_spec (zlen (enc_frame f l)) (zlen h)) as [Hl|Hl]; rewrite (recv_prefixed _ _ _ _ _ _ _ Hf Ht);
    [by apply Hdone|]).
  - cbn in E. rewrite app_nil_r in E. rewrite E, zlen_app in Hl. pose proof (zlen_nonneg rest). lia.
  - cbn [steady] in Hst. destruct Hst as [Hb Hst]. destruct (Z.ltb_spec MAX_HELD (zlen h + zlen b)); [lia|].
    apply IH; [done|]. by rewrite <- app_assoc.
  - cbn [steady] in Hst. destruct Hst as [Hb Hst]. rewrite (reopen_steady _ _ _ a) by done. by apply IH.
Qed.

Lemma recv_waits f buf_len evs : ∀ a, f ≠ Line → steady a evs → chunks_of evs = [] →
  ∃ self, recv buf_len evs (mkFile f [] a) = ([], self, Ok Waiting).
Proof.
  intros a Hf. assert (∀ a, take_frame buf_len (mkFile f [] a) = (mkFile f [] a, Ok None)) as Ht by by destruct f.
  induction evs as [|[b|meta reopens] evs IH]; intros Hst E; rewrite (recv_prefixed _ _ _ _ _ _ _ Hf (Ht a)).
  - by eexists.
  - destruct Hst as [[Hb _] _]. apply app_nil in E as [-> _]. by vm_compute in Hb.
  - destruct Hst as [Hb Hst]. rewrite (reopen_steady _ _ _ a) by done. by apply IH.
Qed.

Lemma recv_all_frames f buf_len ls : f ≠ Line → Forall (small f buf_len) ls → ∀ evs h a,
  steady a evs → h ++ chunks_of evs = concat (enc_frame f <$> ls) →
  recv_all (S (length ls)) buf_len evs (mkFile f h a) = (λ l, Ok (Frame l)) <$> ls.
Proof.
  intros Hf. induction 1 as [|l ls Hl Hls IH]; intros evs h a Hst E.
  - cbn in E. apply app_nil in E as [-> E]. cbn [length recv_all]. by destruct (recv_waits f buf_len evs a Hf Hst E) as (self & ->).
  - destruct (recv_frame f buf_len l ls Hf Hl evs h a Hst E) as (evs' & h' & a' & Hr & Hst' & E').
    cbn [length fmap list_fmap]. change (recv_all (S (S (length ls))) buf_len evs (mkFile f h a)) with
      (match recv buf_len evs (mkFile f h a) with (_, _, Ok Waiting) => [] | (evs, self, r) => r :: recv_all (S (length ls)) buf_len evs self end).
    rewrite Hr. f_equal. by apply IH.
Qed.

Lemma prefix_le f : prefix_len f ≤ 4.
Proof. by destruct f. Qed.

(** Reading a frame but for its end byte by byte: nothing is delivered. *)
Lemma recv_bytes f buf_len l t : f ≠ Line → fits f buf_len l → t ≠ [] → ∀ w h a evs,
  h ++ w ++ t = enc_frame f l → zlen h + zlen w ≤ MAX_HELD →
  recv buf_len (((λ b, Chunk [b]) <$> w) ++ evs) (mkFile f h a) = recv buf_len evs (mkFile f (h ++ w) (a + zlen w)).
Proof.
  intros Hf Hl Ht. induction w as [|b w IH]; intros h a evs E Hm; cbn [fmap list_fmap app].
  { by rewrite app_nil_r, zlen_nil, Z.add_0_r. }
  assert (h ++ (b :: w) ++ t = enc_frame f l ++ []) as E' by (rewrite app_nil_r; exact E).
  pose proof (take_frame_enc f buf_len l h [] ((b :: w) ++ t) a Hf Hl E') as Hk.
  rewrite zlen_cons in Hm. pose proof (zlen_nonneg w).
  destruct (Z.leb_spec (zlen (enc_frame f l)) (zlen h)) as [Hz|Hz] in Hk.
  { rewrite <- E, !zlen_app, zlen_cons in Hz. pose proof (zlen_nonneg t). lia. }
  rewrite (recv_prefixed _ _ _ _ _ _ _ Hf Hk). change (zlen [b]) with 1.
  destruct (Z.ltb_spec MAX_HELD (zlen h + 1)); [lia|]. rewrite IH.
  - rewrite <- app_assoc, zlen_cons. do 2 f_equal. lia.
  - by rewrite <- app_assoc.
  - rewrite zlen_app. change (zlen [b]) with 1. lia.
Qed.

(** * Properties *)

(** ** Lines *)

(** The file only grew, as for [steady]; a line is read whole, however long. *)
Fixpoint grown (at_ : Z) (evs : list ReadEvent) : Prop :=
  match evs with
  | [] => True
  | Chunk b :: evs => b ≠ [] ∧ grown (at_ + zlen b) evs
  | AtEnd meta _ :: evs => (∀ len, meta = Some len → at_ ≤ len) ∧ grown at_ evs
  end.

(** What was read, read by read. *)
Definition reads_of (evs : list ReadEvent) : list bytes := omap (λ e, match e with Chunk b => Some b | AtEnd _ _ => None end) evs.

Lemma recv_line_reads buf_len evs : ∀ h a,
  grown a evs → Forall (λ b, utf8_valid b = true) (reads_of evs) →
  recv_all (S (length (reads_of evs))) buf_len evs (mkFile Line h a)
  = (λ b, Ok (Frame (take (Z.to_nat (Z.min (zlen (trim_newline b)) buf_len)) (trim_newline b)))) <$> reads_of evs.
Proof.
  induction evs as [|[b|meta reopens] evs IH]; intros h a Hg Hu; [done| |].
  - destruct Hg as [_ Hg]. change (reads_of (Chunk b :: evs)) with (b :: reads_of evs) in *. apply Forall_cons in Hu as [Hb Hu].
    cbn [length fmap list_fmap]. rewrite <- (IH h (a + zlen b)) by done.
    cbn [recv_all recv framing pos held]. by rewrite Hb.
  - destruct Hg as [Hm Hg]. change (reads_of (AtEnd meta reopens :: evs)) with (reads_of evs) in *. rewrite <- (IH h a) by done.
    cbn [recv_all recv framing]. by rewrite (reopen_steady _ _ _ a).
Qed.


(** An oversized length is never got past: it stays at the front of what is held,
    so every later call fails on it without reading the file or noticing a
    rotation. *)
Lemma oversize_is_stuck f buf_len h a p n evs :
  f ≠ Line → declared (mkFile f h a) = Some (p, n) → buf_len < n →
  recv buf_len evs (mkFile f h a) = (evs, mkFile f h a, Ok (Failed BadFrame)).
Proof.
  intros Hf Hd Hn. assert (take_frame buf_len (mkFile f h a) = (mkFile f h a, Err BadFrame)) as Ht.
  { unfold take_frame. rewrite Hd. destruct (Z.ltb_spec buf_len n); [done|lia]. }
  by rewrite (recv_prefixed _ _ _ _ _ _ _ Hf Ht).
Qed.

(** that bound is not far from tight, though the runtime's buffer has room for
    more: for every longer frame there are reads, none beyond what the follower
    asks for, of the whole frame and what follows it, after which the follower
    reports that there is no frame boundary, and the frame is lost. *)
Theorem file_large_frame_lost f l next :
  f ≠ Line → fits f MAX_FRAME_BYTES l → MAX_HELD - 8191 < prefix_len f + zlen l → zlen next = 8191 →
  ∃ evs self, steady 0 evs ∧ chunks_of evs = enc_frame f l ++ next
    ∧ recv MAX_FRAME_BYTES evs (open true f 0) = ([], self, Ok (Failed NoBoundary)).
Proof.
  intros Hf Hl Hmax Hn. assert (zlen (enc_frame f l) = prefix_len f + zlen l) as Hz by by rewrite enc_frame_prefix, zlen_app, enc_prefix_len.
  destruct (enc_frame f l) as [|x w _] eqn:E using rev_ind; [rewrite zlen_nil in Hz; unfold MAX_HELD, MAX_FRAME_BYTES in *; lia|].
  rewrite zlen_app in Hz. change (zlen [x]) with 1 in Hz.
  exists (((λ b, Chunk [b]) <$> w) ++ [Chunk (x :: next)]), (mkFile f w (zlen w + (1 + zlen next))).
  split; [|split].
  - assert (∀ a, steady a (((λ b, Chunk [b]) <$> w) ++ [Chunk (x :: next)])) as Hst; [|apply Hst].
    clear -Hn. induction w as [|b w IH]; intros a; cbn [fmap list_fmap app steady]; [rewrite zlen_cons; split; [lia|done]|by split].
  - clear -w. rewrite <- app_assoc. unfold chunks_of. induction w as [|b w IH]; [cbn; by rewrite app_nil_r|].
    cbn [fmap list_fmap app concat] in *. by rewrite IH.
  - destruct Hl as [Hl1 Hl2]. pose proof (prefix_le f) as Hp. change (open true f 0) with (mkFile f [] 0). rewrite (recv_bytes f _ l [x]); try done.
    + cbn [app]. pose proof (take_frame_enc f MAX_FRAME_BYTES l w next ([x] ++ next) (0 + zlen w) Hf) as Ht.
      rewrite E, app_assoc in Ht. specialize (Ht (conj Hl1 Hl2) eq_refl). rewrite zlen_app in Ht. change (zlen [x]) with 1 in Ht.
      destruct (Z.leb_spec (zlen w + 1) (zlen w)) in Ht; [lia|]. rewrite (recv_prefixed _ _ _ _ _ _ _ Hf Ht).
      rewrite zlen_cons. destruct (Z.ltb_spec MAX_HELD (zlen w + (1 + zlen next))); [by rewrite Z.add_0_l|lia].
    + rewrite zlen_nil. unfold MAX_HELD in *. lia.
Qed.

(** * Witnesses *)


Lemma file_large_frame_lost_witness : ∃ evs self, steady 0 evs
  ∧ recv MAX_FRAME_BYTES evs (open true LengthU32le 0) = ([], self, Ok (Failed NoBoundary)).
Proof.
  assert (∀ n (x : Z), 0 ≤ n → zlen (replicate (Z.to_nat n) x) = n) as Hr
    by (intros n x Hn; unfold zlen; rewrite length_replicate; lia).
  destruct (file_large_frame_lost LengthU32le (replicate (Z.to_nat 60000) 7) (replicate (Z.to_nat 8191) 0)) as (evs & self & H1 & _ & H2);
    [done|unfold fits; rewrite Hr by done; by vm_compute|rewrite Hr by done; by vm_compute|by apply Hr|].
  exists evs, self. by split.
Defined.
