(* ===== verification/DirWatch.v ===== *)
(** The directory transport (rust/connectors/common/src/dir.rs): files dropped
    into a folder, each read line by line once its size is the same at two polls.
    The listings the polls find, and the files' contents, are inputs. *)
From Stdlib Require Import ZArith Lia.
From S2P Require Export Stream.

Local Open Scope Z_scope.

(** @src rust/connectors/common/src/dir.rs 16-18 MAX_SEEN *)
Definition MAX_SEEN : Z := 100000.

(** A path is the name of a file in the folder, as the system has it; [name] is
    that name as text. *)
Definition name (path : bytes) : bytes := utf8_lossy path.

(** The file being streamed is the chunks left of it. *)
(** @src rust/connectors/common/src/dir.rs 20-31 DirSource *)
Record DirSource := mkDir {
  seen : gset bytes;
  seen_order : list bytes;
  settling : gmap bytes Z;
  ready : list bytes;
  current : option (list bytes)
}.

(** A listing: each entry's path, and its size if it is a file whose metadata can
    be read; and whether reading the listing failed after these. *)
Record Listing := mkListing { entries : list (bytes * option Z); broken : bool }.

Inductive DirError := NotADirectory | CannotList | Oversized.

(** The entries at the start that are files. *)
(** @src rust/connectors/common/src/dir.rs 33-63 open *)
Definition open (is_dir process_existing : bool) (existing : option (list (bytes * bool))) : res DirError DirSource :=
  guard_res is_dir NotADirectory ;;
  let names := if process_existing then [] else name <$> ((filter (λ e, e.2 = true) (default [] existing)).*1) in
  Ok (mkDir (list_to_set names) names ∅ [] None).

(** The [while] loop of [remember]. *)
Fixpoint forget (seen : gset bytes) (order : list bytes) : gset bytes * list bytes :=
  if Z.of_nat (size seen) <=? MAX_SEEN then (seen, order)
  else match order with [] => (seen, []) | oldest :: order => forget (seen ∖ {[ oldest ]}) order end.

(** @src rust/connectors/common/src/dir.rs 66-77 remember *)
Definition remember (n : bytes) (self : DirSource) : DirSource :=
  if bool_decide (n ∈ seen self) then self
  else
    let '(s, o) := forget ({[ n ]} ∪ seen self) (seen_order self ++ [n]) in
    mkDir s o (settling self) (ready self) (current self).

(** One entry that is a file. *)
(** @src rust/connectors/common/src/dir.rs 88-103 scan *)
Definition scan_file (path : bytes) (size : Z) (self : DirSource) : DirSource :=
  let n := name path in
  if bool_decide (n ∈ seen self) then self
  else if bool_decide (settling self !! n = Some size) then
    let self := remember n (mkDir (seen self) (seen_order self) (delete n (settling self)) (ready self) (current self)) in
    mkDir (seen self) (seen_order self) (settling self) (ready self ++ [path]) (current self)
  else mkDir (seen self) (seen_order self) (<[n := size]> (settling self)) (ready self) (current self).

(** @src rust/connectors/common/src/dir.rs 79-106 scan *)
Definition scan (l : Listing) (self : DirSource) : DirSource * res DirError unit :=
  (fold_left (λ self '(path, meta), match meta with Some size => scan_file path size self | None => self end) (entries l) self,
   guard_res (negb (broken l)) CannotList).

(** What a call returns: a line, an error, or nothing yet. *)
Inductive Received := Frame (b : bytes) | Failed (e : DirError) | Waiting.

Section recv.
(** What opening a path yields while so many polls are still to come: the file's
    content in the chunks its reads return, or [None]. *)
Variable content : nat → bytes → option (list bytes).
Variable buf_len : Z.

(** Lines of the file being streamed, then of the next that opens and has any. *)
Fixpoint next_line (k : nat) (cur : option (list bytes)) (ready : list bytes) : option (list bytes) * list bytes * option (res DirError Received) :=
  let other := match ready with [] => (None, [], None) | p :: ready => next_line k (content k p) ready end in
  match cur with
  | None => other
  | Some chunks =>
      match read_line buf_len chunks with
      | (chunks, Ok l) => (Some chunks, ready, Some (Ok (Frame l)))
      | (_, Err UnexpectedEof) => other
      | (chunks, Err InvalidData) => (Some chunks, ready, Some (Ok (Failed Oversized)))
      | (chunks, Panic) => (Some chunks, ready, Some Panic)
      | (chunks, NoFuel) => (Some chunks, ready, Some NoFuel)
      end
  end.

(** The polls left are the next call's. *)
(** @src rust/connectors/common/src/dir.rs 110-138 recv *)
Fixpoint recv (polls : list Listing) (self : DirSource) : list Listing * DirSource * res DirError Received :=
  match next_line (length polls) (current self) (ready self) with
  | (cur, rdy, Some r) => (polls, mkDir (seen self) (seen_order self) (settling self) rdy cur, r)
  | (cur, rdy, None) =>
      let self := mkDir (seen self) (seen_order self) (settling self) rdy cur in
      match polls with
      | [] => ([], self, Ok Waiting)
      | l :: polls =>
          match scan l self with
          | (self, Ok _) => recv polls self
          | (self, Err e) => (polls, self, Ok (Failed e))
          | (self, Panic) => (polls, self, Panic)
          | (self, NoFuel) => (polls, self, NoFuel)
          end
      end
  end.

(** Call after call, until one is left waiting; [n] bounds the calls. *)
Fixpoint recv_all (n : nat) (polls : list Listing) (self : DirSource) : list (res DirError Received) :=
  match n with
  | O => []
  | S n =>
      match recv polls self with
      | (_, _, Ok Waiting) => []
      | (polls, self, r) => r :: recv_all n polls self
      end
  end.
End recv.

(** * What the polls should settle *)

Definition files (l : Listing) : list (bytes * Z) := omap (λ e, (λ s, (e.1, s)) <$> e.2) (entries l).
Definition size_in (p : bytes) (l : Listing) : option Z := list_to_map (M := gmap bytes Z) (files l) !! p.

(** The size a path had at the last of the polls, newest first, that listed it. *)
Fixpoint last_size (p : bytes) (polls : list Listing) : option Z :=
  match polls with
  | [] => None
  | l :: polls => match size_in p l with Some s => Some s | None => last_size p polls end
  end.

(** The files the polls, newest first, queue beyond the first ones: at a poll, in
    its order, those that have the size they last had, and were not queued yet. *)
Fixpoint queued (first : list bytes) (polls : list Listing) : list bytes :=
  match polls with
  | [] => []
  | l :: polls =>
      queued first polls
      ++ (filter (λ '(p, s), p ∉ first ++ queued first polls ∧ last_size p polls = Some s) (files l)).*1
  end.

(** A listing names each file once, by a name that is text. *)
Definition listing_ok (l : Listing) : Prop := NoDup (files l).*1 ∧ Forall (λ p, name p = p) (files l).*1 ∧ broken l = false.

(** * Lemmas *)

Lemma scan_files l self :
  fold_left (λ self '(path, meta), match meta with Some size => scan_file path size self | None => self end) (entries l) self
  = fold_left (λ self '(path, size), scan_file path size self) (files l) self.
Proof.
  unfold files. revert self. induction (entries l) as [|[p [s|]] es IH]; intros self; [done|..]; cbn; apply IH.
Qed.

(** The state after the polls: what is remembered and what is settling. *)
Record watched (first q : list bytes) (polls : list Listing) (self : DirSource) : Prop := {
  w_order : seen_order self = first ++ q;
  w_seen : seen self = list_to_set (first ++ q);
  w_nodup : NoDup (first ++ q);
  w_settling : ∀ p, p ∉ first ++ q → settling self !! p = last_size p polls
}.

Lemma forget_few s o : Z.of_nat (size s) ≤ MAX_SEEN → forget s o = (s, o).
Proof. intros. destruct o; cbn [forget]; by destruct (Z.leb_spec (Z.of_nat (size s)) MAX_SEEN); [|lia]. Qed.

Section settle.
Variables (first q : list bytes) (polls : list Listing).

(** What one poll queues. *)
Definition newly (es : list (bytes * Z)) : list bytes := (filter (λ '(p, s), p ∉ first ++ q ∧ last_size p polls = Some s) es).*1.

Lemma newly_snoc es p s :
  newly (es ++ [(p, s)]) = newly es ++ (if decide (p ∉ first ++ q ∧ last_size p polls = Some s) then [p] else []).
Proof.
  unfold newly. rewrite filter_app, fmap_app. f_equal. rewrite filter_cons. cbn.
  by destruct (decide _).
Qed.

Lemma newly_elem es p : p ∈ newly es → p ∈ es.*1.
Proof.
  unfold newly. rewrite !list_elem_of_fmap. intros (e & -> & [_ He]%list_elem_of_filter). by exists e.
Qed.

Lemma newly_fresh es p : p ∈ newly es → p ∉ first ++ q.
Proof.
  unfold newly. rewrite list_elem_of_fmap. intros ([p' s] & -> & [[Hp _] _]%list_elem_of_filter). done.
Qed.

(** The state in the middle of a poll. *)
Record scanned (es : list (bytes * Z)) (self0 self : DirSource) : Prop := {
  n_order : seen_order self = first ++ q ++ newly es;
  n_seen : seen self = list_to_set (first ++ q ++ newly es);
  n_nodup : NoDup (first ++ q ++ newly es);
  n_settling : ∀ p, p ∉ first ++ q ++ newly es →
    settling self !! p = match list_to_map (M := gmap bytes Z) es !! p with Some s => Some s | None => last_size p polls end;
  n_ready : ready self = ready self0 ++ newly es;
  n_current : current self = current self0
}.

Lemma scan_file_ok es p s self0 self :
  p ∉ es.*1 → name p = p → Z.of_nat (length (first ++ q ++ newly (es ++ [(p, s)]))) ≤ MAX_SEEN →
  scanned es self0 self → scanned (es ++ [(p, s)]) self0 (scan_file p s self).
Proof.
  intros Hp Hn Hlen [Ho Hs Hnd Hset Hr Hc]. unfold scan_file. rewrite Hn.
  assert (p ∉ newly es) as Hpn by (intros Hin; apply Hp; by apply newly_elem).
  assert (∀ p', p' ≠ p → list_to_map (M := gmap bytes Z) (es ++ [(p, s)]) !! p' = list_to_map (M := gmap bytes Z) es !! p') as Hmap.
  { intros p' Hne. rewrite list_to_map_snoc by done. by rewrite lookup_insert_ne. }
  assert (list_to_map (M := gmap bytes Z) es !! p = None) as Hnone by by apply not_elem_of_list_to_map_1.
  rewrite newly_snoc in Hlen. rewrite Hs. case_bool_decide as Hin.
  { assert (newly (es ++ [(p, s)]) = newly es) as E.
    { rewrite newly_snoc, decide_False, app_nil_r; [done|]. rewrite elem_of_list_to_set, !elem_of_app in Hin. rewrite elem_of_app. naive_solver. }
    split; rewrite ?E; try done. intros p' Hp'. rewrite Hmap; [by apply Hset|].
    intros ->. apply Hp'. by rewrite elem_of_list_to_set in Hin. }
  rewrite elem_of_list_to_set in Hin. pose proof (Hset p Hin) as Hsp. rewrite Hnone in Hsp.
  assert (p ∉ first ++ q) as Hpq by (rewrite !elem_of_app in *; naive_solver).
  case_bool_decide as Hst; rewrite Hsp in Hst.
  - rewrite decide_True in Hlen by done.
    assert (newly (es ++ [(p, s)]) = newly es ++ [p]) as E by by rewrite newly_snoc, decide_True.
    unfold remember. cbn [seen seen_order settling ready current]. rewrite bool_decide_false, Ho by by rewrite elem_of_list_to_set.
    assert (NoDup ((first ++ q ++ newly es) ++ [p])) as Hnd'.
    { apply NoDup_app. split; [done|]. split; [|apply NoDup_singleton]. intros x Hx ->%list_elem_of_singleton. done. }
    assert ({[p]} ∪ list_to_set (first ++ q ++ newly es) =@{gset bytes} list_to_set ((first ++ q ++ newly es) ++ [p])) as Eset.
    { rewrite list_to_set_app_L. cbn [list_to_set foldr]. set_solver. }
    rewrite Eset, forget_few.
    2: { rewrite size_list_to_set by done. rewrite !app_assoc in *. done. }
    cbn [seen seen_order settling ready current]. split; cbn [seen seen_order settling ready current]; rewrite ?E, ?app_assoc in *; try done.
    + intros p' Hp'. rewrite elem_of_app, list_elem_of_singleton in Hp'. rewrite lookup_delete_ne by naive_solver.
      rewrite Hmap by naive_solver. apply Hset. naive_solver.
    + by rewrite Hr.
  - assert (newly (es ++ [(p, s)]) = newly es) as E.
    { rewrite newly_snoc, decide_False, app_nil_r; [done|]. naive_solver. }
    split; cbn [seen seen_order settling ready current]; rewrite ?E; try done. intros p' Hp'.
    destruct (decide (p' = p)) as [->|Hne].
    + rewrite lookup_insert_eq. rewrite list_to_map_snoc by done. by rewrite lookup_insert_eq.
    + rewrite lookup_insert_ne, Hmap by done. by apply Hset.
Qed.

Lemma scan_ok es self0 : watched first q polls self0 → NoDup es.*1 → Forall (λ p, name p = p) es.*1 →
  Z.of_nat (length (first ++ q ++ newly es)) ≤ MAX_SEEN →
  scanned es self0 (fold_left (λ self '(path, size), scan_file path size self) es self0).
Proof.
  intros [Ho Hs Hnd Hset]. induction es as [|[p s] es IH] using rev_ind; intros Hnp Hn Hlen.
  - split; unfold newly; cbn; rewrite ?app_nil_r; done.
  - rewrite fold_left_app. cbn [fold_left]. rewrite fmap_app in Hnp, Hn. cbn [fmap list_fmap fst] in *.
    apply NoDup_app in Hnp as (Hnp & Hdis & _). apply Forall_app in Hn as [Hn Hp]. apply Forall_cons in Hp as [Hp _].
    apply scan_file_ok; [|done|done|].
    + intros Hin. apply (Hdis p Hin). by apply list_elem_of_singleton.
    + apply IH; [done|done|]. rewrite newly_snoc in Hlen. rewrite !length_app in *. lia.
Qed.
End settle.

(** A poll keeps what is watched. *)
Lemma scan_watched first l polls self :
  listing_ok l → Z.of_nat (length (first ++ queued first (l :: polls))) ≤ MAX_SEEN →
  watched first (queued first polls) polls self →
  ∃ self', scan l self = (self', Ok tt) ∧ watched first (queued first (l :: polls)) (l :: polls) self'
    ∧ ready self' = ready self ++ newly first (queued first polls) polls (files l) ∧ current self' = current self.
Proof.
  intros (Hnd & Hn & Hb) Hlen Hw. unfold scan. rewrite scan_files, Hb.
  destruct (scan_ok first (queued first polls) polls (files l) self Hw Hnd Hn Hlen) as [Ho Hs Hnd' Hset Hr Hc].
  eexists. split; [done|]. split; [|done]. split; [done..|]. intros p Hp. cbn [last_size]. unfold size_in. by apply Hset.
Qed.

(** * Lines of the files *)

Section lines.
Variable content : bytes → option (list bytes).
Variable buf_len : Z.
Hypothesis buf_nonneg : 0 ≤ buf_len.
Hypothesis content_ok : ∀ p cs, content p = Some cs → chunks_ok cs.

Definition line_result (r : res FrameError bytes) : res DirError Received :=
  match r with Ok l => Ok (Frame l) | Err _ => Ok (Failed Oversized) | Panic => Panic | NoFuel => NoFuel end.

(** The lines of a file, an oversized one an error in its place. *)
Definition lines_of (chunks : option (list bytes)) : list (res DirError Received) :=
  match chunks with Some cs => line_result <$> read_all (S (length (concat cs))) Line buf_len cs | None => [] end.

Lemma line_of_shorter cap input : (line_of cap input).2 = Err UnexpectedEof ∨ (length (line_of cap input).1 < length input)%nat.
Proof.
  unfold line_of. destruct (find_byte 10 input) as [k|] eqn:E.
  - right. apply find_byte_Some in E as [Hk _]. cbn. rewrite length_drop. unfold zlen in Hk. lia.
  - destruct input; [by left|right]. cbn. lia.
Qed.

(** More fuel than bytes makes no difference. *)
Lemma read_all_fuel n : ∀ cs m, chunks_ok cs → (length (concat cs) < n)%nat → (length (concat cs) < m)%nat →
  read_all n Line buf_len cs = read_all m Line buf_len cs.
Proof.
  induction n as [|n IH]; intros cs m Hok Hn Hm; [lia|]. destruct m as [|m]; [lia|]. cbn [read_all read_frame].
  destruct (read_line_spec buf_len cs buf_nonneg Hok) as (cs' & Hok' & -> & E).
  destruct (line_of_shorter buf_len (concat cs)) as [->|Hl]; [done|]. rewrite <- E in Hl.
  destruct (line_of buf_len (concat cs)).2 as [b|[]| |]; try done; f_equal; apply IH; (done || lia).
Qed.

(** One more line, or the end of the file. *)
Lemma lines_of_step cs : chunks_ok cs →
  match read_line buf_len cs with
  | (_, Err UnexpectedEof) => lines_of (Some cs) = []
  | (cs', r) => chunks_ok cs' ∧ lines_of (Some cs) = line_result r :: lines_of (Some cs')
  end.
Proof.
  intros Hok. unfold lines_of. change (read_all (S (length (concat cs))) Line buf_len cs) with
    (match read_line buf_len cs with (_, Err UnexpectedEof) => [] | (cs', r) => r :: read_all (length (concat cs)) Line buf_len cs' end).
  destruct (read_line_spec buf_len cs buf_nonneg Hok) as (cs' & Hok' & -> & E).
  destruct (line_of_shorter buf_len (concat cs)) as [->|Hl]; [done|]. rewrite <- E in Hl.
  rewrite (read_all_fuel (length (concat cs)) cs' (S (length (concat cs')))) by (done || lia).
  by destruct (line_of buf_len (concat cs)).2 as [b|[]| |].
Qed.

(** What is left of the file being read and of the files queued. *)
Definition pending (cur : option (list bytes)) (ready : list bytes) : list (res DirError Received) :=
  lines_of cur ++ (ready ≫= λ p, lines_of (content p)).

Definition cur_ok (cur : option (list bytes)) : Prop := ∀ cs, cur = Some cs → chunks_ok cs.

Lemma next_line_pending k ready : ∀ cur, cur_ok cur →
  match next_line (λ _, content) buf_len k cur ready with
  | (cur', ready', Some r) => cur_ok cur' ∧ pending cur ready = r :: pending cur' ready' ∧ r ≠ Ok Waiting
  | (cur', ready', None) => cur' = None ∧ ready' = [] ∧ pending cur ready = []
  end.
Proof.
  induction ready as [|p ready IH]; intros cur Hok.
  - destruct cur as [cs|]; cbn [next_line]; [|done]. pose proof (lines_of_step cs (Hok cs eq_refl)) as Hl.
    destruct (read_line buf_len cs) as [cs' [l|[]| |]].
    2: { unfold pending. by rewrite Hl. }
    all: destruct Hl as [Hc Hl]; unfold pending at 1; rewrite Hl; cbn; (split; [by intros ? [= <-]|done]).
  - assert (match next_line (λ _, content) buf_len k (content p) ready with
      | (cur', ready', Some r) => cur_ok cur' ∧ pending None (p :: ready) = r :: pending cur' ready' ∧ r ≠ Ok Waiting
      | (cur', ready', None) => cur' = None ∧ ready' = [] ∧ pending None (p :: ready) = []
      end) as Hnone.
    { specialize (IH (content p)). apply IH. intros cs. apply content_ok. }
    destruct cur as [cs|]; cbn [next_line]; [|done]. pose proof (lines_of_step cs (Hok cs eq_refl)) as Hl.
    destruct (read_line buf_len cs) as [cs' [l|[]| |]].
    2: { unfold pending at 1 3. rewrite Hl. exact Hnone. }
    all: destruct Hl as [Hc Hl]; unfold pending at 1; rewrite Hl; cbn; (split; [by intros ? [= <-]|done]).
Qed.

(** * The whole run *)

Fixpoint to_come (first : list bytes) (past polls : list Listing) : list bytes :=
  match polls with
  | [] => []
  | l :: polls => newly first (queued first past) past (files l) ++ to_come first (l :: past) polls
  end.

Lemma queued_to_come first polls : ∀ past, queued first (rev polls ++ past) = queued first past ++ to_come first past polls.
Proof.
  induction polls as [|l polls IH]; intros past; [by rewrite app_nil_r|]. cbn [rev to_come].
  rewrite <- app_assoc. cbn [app]. rewrite IH. cbn [queued]. by rewrite <- app_assoc.
Qed.

Lemma recv_step first polls : ∀ past self,
  Forall listing_ok polls → Z.of_nat (length (first ++ queued first (rev polls ++ past))) ≤ MAX_SEEN →
  watched first (queued first past) past self → cur_ok (current self) →
  match pending (current self) (ready self) ++ (to_come first past polls ≫= λ p, lines_of (content p)) with
  | [] => ∃ polls' self', recv (λ _, content) buf_len polls self = (polls', self', Ok Waiting)
  | r :: rs => ∃ polls' past' self', recv (λ _, content) buf_len polls self = (polls', self', r) ∧ r ≠ Ok Waiting
      ∧ rev polls' ++ past' = rev polls ++ past ∧ Forall listing_ok polls' ∧ watched first (queued first past') past' self'
      ∧ cur_ok (current self')
      ∧ rs = pending (current self') (ready self') ++ (to_come first past' polls' ≫= λ p, lines_of (content p))
  end.
Proof.
  induction polls as [|l polls IH]; intros past self Hok Hlen Hw Hcur.
  all: assert (∀ rdy cur, watched first (queued first past) past (mkDir (seen self) (seen_order self) (settling self) rdy cur)) as Hw'
    by (intros rdy cur; destruct Hw; by split).
  all: cbn [recv length]; match goal with |- context [next_line _ _ ?k] => pose proof (next_line_pending k (ready self) (current self) Hcur) as Hp end.
  all: destruct (next_line _ _ _ _ _) as [[cur rdy] [r|]]; [destruct Hp as (Hc & -> & Hr)|destruct Hp as (-> & -> & ->)].
  - cbn [app]. exists [], past, (mkDir (seen self) (seen_order self) (settling self) rdy cur).
    split_and!; [done|done|done|done|apply Hw'|done|done].
  - cbn. by eexists _, _.
  - cbn [app]. exists (l :: polls), past, (mkDir (seen self) (seen_order self) (settling self) rdy cur).
    split_and!; [done|done|done|done|apply Hw'|done|done].
  - apply Forall_cons in Hok as [Hl Hok]. cbn [rev] in Hlen. rewrite <- app_assoc in Hlen. cbn [app] in Hlen.
    destruct (scan_watched first l past (mkDir (seen self) (seen_order self) (settling self) [] None) Hl) as (self' & -> & Hw1 & Hr & Hc); [|apply Hw'|].
    { rewrite queued_to_come in Hlen. rewrite !length_app in *. lia. }
    cbn [ready current app] in Hr, Hc. cbn [app to_come]. rewrite bind_app.
    specialize (IH (l :: past) self' Hok Hlen Hw1). rewrite Hc, Hr in IH.
    assert (cur_ok None) as Hcn by by intros ?. specialize (IH Hcn). unfold pending in IH at 1. cbn [lines_of app] in IH.
    destruct (_ ++ _) as [|r rs]; [done|]. destruct IH as (p' & past' & s' & H1 & H2 & H3 & H4). exists p', past', s'.
    split_and!; try done; try apply H4. rewrite H3. cbn [rev]. by rewrite <- app_assoc.
Qed.

Lemma recv_all_lines first rs : ∀ polls past self,
  Forall listing_ok polls → Z.of_nat (length (first ++ queued first (rev polls ++ past))) ≤ MAX_SEEN →
  watched first (queued first past) past self → cur_ok (current self) →
  pending (current self) (ready self) ++ (to_come first past polls ≫= λ p, lines_of (content p)) = rs →
  ∀ n, (length rs < n)%nat → recv_all (λ _, content) buf_len n polls self = rs.
Proof.
  induction rs as [|r rs IH]; intros polls past self Hok Hlen Hw Hcur E n Hn;
    pose proof (recv_step first polls past self Hok Hlen Hw Hcur) as Hs; rewrite E in Hs; (destruct n as [|n]; [cbn in Hn; lia|]); cbn [recv_all].
  - by destruct Hs as (p & s & ->).
  - destruct Hs as (p' & past' & s' & -> & Hr & Hpp & Hok' & Hw' & Hc' & E'). cbn [length] in Hn.
    rewrite <- Hpp in Hlen. assert (recv_all (λ _, content) buf_len n p' s' = rs) as Hrs by (eapply IH; [done|done|done|done|by rewrite E'|lia]).
    destruct r as [[b|e|]|e| |]; try (by rewrite Hrs). done.
Qed.
End lines.

Lemma queued_nodup first polls : NoDup first → Forall listing_ok polls → NoDup (first ++ queued first polls).
Proof.
  intros Hf. induction 1 as [|l polls (Hnd & _ & _) Hls IH]; cbn [queued]; [by rewrite app_nil_r|].
  change ((filter _ (files l)).*1) with (newly first (queued first polls) polls (files l)). rewrite app_assoc.
  apply NoDup_app. split; [done|]. split.
  - intros p Hp Hn. by apply newly_fresh in Hn.
  - unfold newly. clear -Hnd. induction (files l) as [|[p s] es IH]; [constructor|]. cbn [fmap list_fmap fst] in Hnd.
    apply NoDup_cons in Hnd as [Hp Hnd]. rewrite filter_cons. destruct (decide _); [|by apply IH]. cbn [fmap list_fmap fst].
    apply NoDup_cons. split; [|by apply IH]. rewrite list_elem_of_fmap. intros (e & -> & [_ He]%list_elem_of_filter).
    apply Hp. rewrite list_elem_of_fmap. by exists e.
Qed.

(** * Properties *)

(** over any polls, the directory source delivers, in order, the lines of each
    file that settles, once: a file is read at the first poll that finds it with
    the size it had when last listed, unless it was there at the start, and never
    again; while no more than [MAX_SEEN] files have been seen. *)
Theorem dir_delivers content buf_len existing polls first self :
  0 ≤ buf_len → (∀ p cs, content p = Some cs → chunks_ok cs) →
  open true false (Some ((λ p, (p, true)) <$> existing)) = Ok self → first = name <$> existing → NoDup first →
  Forall listing_ok polls → Z.of_nat (length (first ++ queued first (rev polls))) ≤ MAX_SEEN →
  NoDup (first ++ queued first (rev polls))
  ∧ ∀ n, (length (queued first (rev polls) ≫= λ p, lines_of buf_len (content p)) < n)%nat →
      recv_all (λ _, content) buf_len n polls self = (queued first (rev polls) ≫= λ p, lines_of buf_len (content p)).
Proof.
  intros Hbuf Hcs [= <-] -> Hnd Hok Hlen.
  assert ((filter (λ e : bytes * bool, e.2 = true) ((λ p, (p, true)) <$> existing)).*1 = existing) as E.
  { clear. induction existing as [|p existing IH]; [done|]. cbn [fmap list_fmap]. rewrite filter_cons_True by done.
    cbn [fmap list_fmap fst]. by f_equal. }
  set (self := mkDir _ _ _ _ _).
  assert (watched (name <$> existing) (queued (name <$> existing) []) [] self) as Hw.
  { unfold self. cbn [default from_option]. unfold id. rewrite E.
    split; cbn [seen seen_order settling queued]; rewrite ?app_nil_r; try done. }
  pose proof (queued_to_come (name <$> existing) polls []) as Hq. rewrite app_nil_r in Hq. cbn [queued app] in Hq. split.
  - apply queued_nodup; [done|]. by apply Forall_rev.
  - intros n Hn. rewrite Hq in *. apply (recv_all_lines content buf_len Hbuf Hcs (name <$> existing) _ polls [] self); try done.
    rewrite app_nil_r. by rewrite Hq.
Qed.

(** The two listings need not follow each other: a file that was gone at the poll
    between them is settled too. *)
Lemma settled_across_a_gap :
  queued [] [mkListing [([97], Some 3)] false; mkListing [] false; mkListing [([97], Some 3)] false] = [[97]].
Proof. vm_compute. reflexivity. Qed.

(** * Witnesses *)

(** A file from before, one that grows once, one that is read at once. *)
Definition ex_polls : list Listing :=
  [mkListing [([111], Some 9); ([97], Some 1); ([98], Some 2); ([100], None)] false;
   mkListing [([111], Some 9); ([98], Some 2); ([97], Some 4)] false;
   mkListing [([97], Some 4); ([98], Some 2)] false;
   mkListing [([97], Some 4)] false].
Definition ex_content (p : bytes) : option (list bytes) :=
  if decide (p = [97]) then Some [[1]; [10; 2]] else if decide (p = [98]) then Some [[7; 13; 10; 8; 9; 5; 6; 10]] else None.
Definition ex_dir : DirSource := mkDir {[ [111] ]} [[111]] ∅ [] None.

Lemma dir_delivers_witness :
  recv_all (λ _, ex_content) 3 9 ex_polls ex_dir = [Ok (Frame [7]); Ok (Failed Oversized); Ok (Frame [1]); Ok (Frame [2])].
Proof.
  assert (queued [[111]] (rev ex_polls) ≫= (λ p, lines_of 3 (ex_content p))
    = [Ok (Frame [7]); Ok (Failed Oversized); Ok (Frame [1]); Ok (Frame [2])]) as E by (vm_compute; reflexivity).
  destruct (dir_delivers ex_content 3 [[111]] ex_polls [[111]] ex_dir) as [_ H].
  - lia.
  - unfold ex_content. intros p cs Hp. repeat case_decide; try done; injection Hp as <-; by repeat constructor.
  - vm_compute. reflexivity.
  - reflexivity.
  - apply NoDup_singleton.
  - repeat (constructor; [split; [|split; [|reflexivity]]; [apply (bool_decide_unpack _); vm_compute; exact I|cbn; by repeat constructor]|]). constructor.
  - vm_compute. discriminate.
  - rewrite E in H. apply H. cbn. lia.
Defined.
