(* ===== verification/SapientWire.v ===== *)
(** The SAPIENT stream framing (rust/connectors/sapient-wire/src/lib.rs) and the
    fusion-node acceptor that reads it (rust/connectors/sapient/src/dmm.rs). *)
From Stdlib Require Import ZArith Lia.
From Stdlib Require Import Strings.String.
From S2P Require Export SapientMsg.

Local Open Scope Z_scope.

(** @src rust/connectors/sapient-wire/src/lib.rs 36-36 PREFIX_LEN *)
Definition PREFIX_LEN : Z := 4.
(** @src rust/connectors/sapient-wire/src/lib.rs 38-40 MAX_MESSAGE_LEN *)
Definition MAX_MESSAGE_LEN : Z := 64 * 1024.

(** @src rust/connectors/sapient-wire/src/lib.rs 42-51 FrameError *)
Inductive FrameError := NeedPrefix | TooLong (n : Z) | Incomplete (declared have : Z).
(** @src rust/connectors/sapient-wire/src/lib.rs 53-62 ReadError *)
Inductive ReadError := ReadTooLong (n : Z) | Closed | Io.

Definition le_enc (n : nat) (v : Z) : bytes := rev (be_enc n v).

(** @src rust/connectors/sapient-wire/src/lib.rs 74-80 frame *)
Definition frame (payload : bytes) : bytes := le_enc 4 (zlen payload mod 2 ^ 32) ++ payload.

(** @src rust/connectors/sapient-wire/src/lib.rs 82-96 unframe *)
Definition unframe (b : bytes) : res FrameError (bytes * bytes) :=
  if zlen b <? PREFIX_LEN then Err NeedPrefix
  else
    p ← slice b 0 4;
    let declared := le_val p in
    if MAX_MESSAGE_LEN <? declared then Err (TooLong declared)
    else
      let have := zlen b - PREFIX_LEN in
      if have <? declared then Err (Incomplete declared have)
      else
        tail ← slice b PREFIX_LEN (zlen b);
        Ok (take (Z.to_nat declared) tail, drop (Z.to_nat declared) tail).

(** What a read of the socket returns: some bytes, at most 8192 of them, or an
    error. After the last, the peer has closed. *)
Inductive Read := Data (chunk : bytes) | Fault.

(** @src rust/connectors/sapient-wire/src/lib.rs 98-121 read_frame *)
Fixpoint read_frame (reads : list Read) (held : bytes) : list Read * bytes * res ReadError bytes :=
  match unframe held with
  | Ok (payload, _) => (reads, drop (Z.to_nat (PREFIX_LEN + zlen payload)) held, Ok payload)
  | Err (TooLong n) => (reads, held, Err (ReadTooLong n))
  | Err _ =>
      match reads with
      | [] | Data [] :: _ => (reads, held, Err Closed)
      | Fault :: reads => (reads, held, Err Io)
      | Data chunk :: reads => read_frame reads (held ++ chunk)
      end
  | Panic => (reads, held, Panic)
  | NoFuel => (reads, held, NoFuel)
  end.

(** * The acceptor *)

(** @src rust/connectors/sapient/src/dmm.rs 24-30 DmmCounters *)
Record DmmCounters := mkDmmCounters { registrations : Z; bad_framing : Z }.

(** What a connection does, in order: write an acknowledgement to the sensor, or
    hand a frame to the runtime. *)
Inductive Action := WriteAck (ack : bytes) | Forward (payload : bytes).

(** Why it ended. *)
Inductive Ending := Disconnected | AboveBound | ReadFailed | AckFailed | RuntimeGone.

Section dmm.
Variable decode : bytes → option SapientMessage.
Variable encode : SapientMessage → bytes.
Variable node_id : string.
(** The clock at each acknowledgement, whether its write succeeds, and whether the
    runtime still takes the n-th frame. *)
Variable clock : nat → Timestamp.
Variable write_ok : nat → bool.
Variable send_ok : nat → bool.

(** @src rust/connectors/sapient/src/dmm.rs 146-164 registration_ack *)
Definition registration_ack (now : Timestamp) (payload : bytes) : option bytes :=
  message ← decode payload;
  match m_content message with
  | Some (CRegistration _) =>
      Some (frame (encode (mkMessage (Some now) (Some node_id) (m_node_id message) (Some (CRegistrationAck (mkRegistrationAck (Some true) []))))))
  | _ => None
  end.

Definition connection_end (e : ReadError) (c : DmmCounters) : DmmCounters * Ending :=
  match e with
  | Closed => (c, Disconnected)
  | ReadTooLong _ => (mkDmmCounters (registrations c) (fetch_add (bad_framing c) 1), AboveBound)
  | Io => (c, ReadFailed)
  end.

(** [acks] and [sent] number the acknowledgements and the frames so far. *)
(** @src rust/connectors/sapient/src/dmm.rs 102-144 connection_loop *)
Fixpoint connection_loop (fuel acks sent : nat) (reads : list Read) (held : bytes) (c : DmmCounters) :
    list Action * DmmCounters * res unit Ending :=
  match fuel with
  | O => ([], c, NoFuel)
  | S fuel =>
      match read_frame reads held with
      | (reads, held, Ok payload) =>
          let forward (acks : nat) (c : DmmCounters) :=
            if send_ok sent then
              let '(acts, c, r) := connection_loop fuel acks (S sent) reads held c in (Forward payload :: acts, c, r)
            else ([], c, Ok RuntimeGone) in
          match registration_ack (clock acks) payload with
          | Some ack =>
              if write_ok acks then
                let '(acts, c, r) := forward (S acks) (mkDmmCounters (fetch_add (registrations c) 1) (bad_framing c)) in
                (WriteAck ack :: acts, c, r)
              else ([], c, Ok AckFailed)
          | None => forward acks c
          end
      | (_, _, Err e) => let '(c, e) := connection_end e c in ([], c, Ok e)
      | (_, _, Panic) => ([], c, Panic)
      | (_, _, NoFuel) => ([], c, NoFuel)
      end
  end.

Definition read_bytes (r : Read) : bytes := match r with Data b => b | Fault => [] end.
(** Every turn but the last takes four bytes or more. *)
Definition connection (reads : list Read) : list Action * DmmCounters * res unit Ending :=
  connection_loop (S (length (concat (read_bytes <$> reads)))) 0 0 reads [] (mkDmmCounters 0 0).
End dmm.

(** * Framing *)

Lemma prefix_zlen n v : zlen (le_enc n v) = Z.of_nat n.
Proof. unfold le_enc. by rewrite zlen_rev, be_enc_zlen. Qed.

Lemma le_val_enc n v : le_val (le_enc n v) = v mod 256 ^ Z.of_nat n.
Proof. unfold le_val, le_enc. by rewrite rev_involutive, be_val_enc. Qed.

Lemma take_zlen_app {A} (l k : list A) : take (Z.to_nat (zlen l)) (l ++ k) = l.
Proof. unfold zlen. rewrite Nat2Z.id. apply take_app_length. Qed.
Lemma drop_zlen_app {A} (l k : list A) : drop (Z.to_nat (zlen l)) (l ++ k) = k.
Proof. unfold zlen. rewrite Nat2Z.id. apply drop_app_length. Qed.

Lemma frame_zlen m : zlen (frame m) = PREFIX_LEN + zlen m.
Proof. unfold frame. by rewrite zlen_app, prefix_zlen. Qed.

Lemma unframe_frame m k : zlen m ≤ MAX_MESSAGE_LEN → unframe (frame m ++ k) = Ok (m, k).
Proof.
  intros Hm. unfold unframe. pose proof (zlen_nonneg m). pose proof (zlen_nonneg k).
  rewrite zlen_app, frame_zlen. replace (_ <? PREFIX_LEN) with false by (unfold PREFIX_LEN; lia).
  set (p := le_enc 4 (zlen m mod 2 ^ 32)). assert (zlen p = 4) as Hp by apply prefix_zlen.
  unfold frame. fold p. rewrite <- app_assoc.
  rewrite (proj2 (slice_Ok _ 0 4 p)) by (by apply get_range_head). cbn [mbind res_bind].
  assert (le_val p = zlen m) as ->.
  { unfold p. rewrite le_val_enc. unfold MAX_MESSAGE_LEN in Hm. change (256 ^ Z.of_nat 4) with 4294967296. change (2 ^ 32) with 4294967296. rewrite Z.mod_mod, Z.mod_small; lia. }
  replace (MAX_MESSAGE_LEN <? zlen m) with false by lia. replace (_ <? zlen m) with false by (unfold PREFIX_LEN; lia).
  rewrite (proj2 (slice_Ok _ PREFIX_LEN _ (m ++ k))); cbn [mbind res_bind].
  - by rewrite take_zlen_app, drop_zlen_app.
  - rewrite <- (app_nil_r (m ++ k)) at 1. apply get_range_app; [done|]. rewrite zlen_app. unfold PREFIX_LEN. lia.
Qed.

(** What [unframe] makes of a buffer of at least the prefix. *)
Lemma unframe_long p t :
  zlen p = 4 → unframe (p ++ t) =
    if MAX_MESSAGE_LEN <? le_val p then Err (TooLong (le_val p))
    else if zlen t <? le_val p then Err (Incomplete (le_val p) (zlen t))
    else Ok (take (Z.to_nat (le_val p)) t, drop (Z.to_nat (le_val p)) t).
Proof.
  intros Hp. unfold unframe. pose proof (zlen_nonneg t). rewrite zlen_app, Hp.
  replace (_ <? PREFIX_LEN) with false by (unfold PREFIX_LEN; lia).
  rewrite (proj2 (slice_Ok _ 0 4 p)) by (by apply get_range_head). cbn [mbind res_bind].
  replace (4 + zlen t - PREFIX_LEN) with (zlen t) by (unfold PREFIX_LEN; lia).
  destruct (MAX_MESSAGE_LEN <? le_val p); [done|]. destruct (zlen t <? le_val p); [done|].
  rewrite (proj2 (slice_Ok _ PREFIX_LEN _ t)); [done|].
  rewrite <- (app_nil_r t) at 1. by apply get_range_app; rewrite ?Hp.
Qed.

Lemma unframe_short b : zlen b < PREFIX_LEN → unframe b = Err NeedPrefix.
Proof. intros. unfold unframe. by replace (zlen b <? PREFIX_LEN) with true by lia. Qed.

Lemma prefix_split (b : bytes) : PREFIX_LEN ≤ zlen b → ∃ p t, b = p ++ t ∧ zlen p = 4.
Proof.
  intros Hb. exists (take 4 b), (drop 4 b). split; [by rewrite take_drop|].
  unfold zlen in *. rewrite length_take. unfold PREFIX_LEN in *. lia.
Qed.

Lemma unframe_cases b :
  (∃ e, unframe b = Err e) ∨
  (∃ m k, unframe b = Ok (m, k) ∧ zlen m ≤ MAX_MESSAGE_LEN ∧ zlen b = PREFIX_LEN + zlen m + zlen k ∧ drop (Z.to_nat (PREFIX_LEN + zlen m)) b = k).
Proof.
  destruct (Z.ltb_spec (zlen b) PREFIX_LEN) as [Hs|Hl]; [left; eexists; by apply unframe_short|].
  apply prefix_split in Hl as (p & t & -> & Hp). rewrite unframe_long by done.
  destruct (Z.ltb_spec MAX_MESSAGE_LEN (le_val p)); [left; by eexists|].
  destruct (Z.ltb_spec (zlen t) (le_val p)); [left; by eexists|]. right. do 2 eexists. split; [done|].
  set (n := Z.to_nat (le_val p)). assert (zlen (take n t) = Z.of_nat n) as Hn.
  { unfold zlen. rewrite length_take. unfold zlen in *. lia. }
  rewrite zlen_app, Hp, Hn. split; [unfold MAX_MESSAGE_LEN in *; lia|]. split.
  - unfold zlen in *. rewrite length_drop. unfold PREFIX_LEN. lia.
  - rewrite drop_app_ge; [f_equal|]; unfold PREFIX_LEN, zlen in *; lia.
Qed.

(** More bytes never change what is already decided. *)
Lemma unframe_app a b :
  match unframe a with
  | Ok (m, k) => unframe (a ++ b) = Ok (m, k ++ b)
  | Err (TooLong n) => unframe (a ++ b) = Err (TooLong n)
  | _ => True
  end.
Proof.
  destruct (Z.ltb_spec (zlen a) PREFIX_LEN) as [Hs|Hl]; [by rewrite unframe_short|].
  apply prefix_split in Hl as (p & t & -> & Hp). rewrite <- app_assoc, !unframe_long by done.
  destruct (MAX_MESSAGE_LEN <? le_val p); [done|]. pose proof (zlen_nonneg b).
  destruct (Z.ltb_spec (zlen t) (le_val p)); [done|]. rewrite zlen_app. replace (_ <? _) with false by lia.
  assert (Z.to_nat (le_val p) ≤ length t)%nat by (unfold zlen in *; lia).
  by rewrite take_app_le, drop_app_le by done.
Qed.

(** * Reading *)

(** Reads that bring bytes. *)
Definition brings (r : Read) : Prop := match r with Data (_ :: _) => True | _ => False end.
Definition stream (reads : list Read) : bytes := concat (read_bytes <$> reads).

(** A reader sees its stream alone, however it is cut. *)
Lemma read_frame_stream reads held :
  Forall brings reads →
  match unframe (held ++ stream reads) with
  | Ok (m, k) => ∃ reads' held', read_frame reads held = (reads', held', Ok m) ∧ Forall brings reads' ∧ held' ++ stream reads' = k
  | Err (TooLong n) => (read_frame reads held).2 = Err (ReadTooLong n)
  | Err _ => (read_frame reads held).2 = Err Closed
  | _ => False
  end.
Proof.
  intros Hr. revert held. induction Hr as [|r reads Hb Hr IH]; intros held.
  - unfold stream. cbn [fmap list_fmap concat]. rewrite app_nil_r. cbn [read_frame].
    destruct (unframe_cases held) as [[e He]|(m & k & He & _ & _ & Hd)]; rewrite He; [by destruct e|].
    exists [], (drop (Z.to_nat (PREFIX_LEN + zlen m)) held). split; [done|]. split; [done|]. by rewrite app_nil_r.
  - destruct r as [[|x chunk]|]; try done. set (c := x :: chunk) in *.
    assert (stream (Data c :: reads) = c ++ stream reads) as Hs by done. rewrite Hs.
    specialize (IH (held ++ c)). rewrite <- app_assoc in IH.
    pose proof (unframe_app held (c ++ stream reads)) as Ha.
    cbn [read_frame]. destruct (unframe_cases held) as [[e He]|(m & k & He & _ & _ & Hd)]; rewrite He in Ha |- *.
    + destruct e; [exact IH|by rewrite Ha|exact IH].
    + rewrite Ha. eexists _, _. split; [done|]. split; [by constructor|]. by rewrite Hd, Hs.
Qed.

(** Nothing is lost or left looping: a frame leaves fewer bytes to come. *)
Lemma read_frame_progress reads held :
  match read_frame reads held with
  | (reads', held', Ok m) => zlen m ≤ MAX_MESSAGE_LEN ∧
      (length held' + length (stream reads') + 4 <= length held + length (stream reads))%nat
  | (_, _, Err _) => True
  | _ => False
  end.
Proof.
  revert held. induction reads as [|r reads IH]; intros held; cbn [read_frame];
    (destruct (unframe_cases held) as [[e He]|(m & k & He & Hm & Hz & Hd)]; rewrite He;
      [|split; [done|]; rewrite Hd; unfold zlen, PREFIX_LEN in *; lia]).
  - by destruct e.
  - assert (match (match r with Data [] => (r :: reads, held, Err Closed) | Data chunk => read_frame reads (held ++ chunk) | Fault => (reads, held, Err Io) end) with
      | (reads', held', Ok m) => zlen m ≤ MAX_MESSAGE_LEN ∧ (length held' + length (stream reads') + 4 <= length held + length (stream (r :: reads)))%nat
      | (_, _, Err _) => True | _ => False end) as H.
    { destruct r as [[|x chunk]|]; try done. specialize (IH (held ++ x :: chunk)).
      destruct (read_frame reads (held ++ x :: chunk)) as [[reads' held'] [m| | |]]; try done.
      assert (stream (Data (x :: chunk) :: reads) = (x :: chunk) ++ stream reads) as -> by done.
      rewrite !length_app in *. lia. }
    destruct e; [exact H|done|exact H].
Qed.

(** * The acceptor's conversation *)

Section conversation.
Context (decode : bytes → option SapientMessage) (encode : SapientMessage → bytes) (node_id : string).
Context (clock : nat → Timestamp) (write_ok send_ok : nat → bool).

Abbreviation ack_of n m := (registration_ack decode encode node_id (clock n) m).
Abbreviation loop := (connection_loop decode encode node_id clock write_ok send_ok).

(** Each message forwarded as it came, a registration acknowledged first. *)
Fixpoint handled (acks : nat) (ms : list bytes) : list Action :=
  match ms with
  | [] => []
  | m :: ms =>
      match ack_of acks m with
      | Some ack => WriteAck ack :: Forward m :: handled (S acks) ms
      | None => Forward m :: handled acks ms
      end
  end.
Definition is_ack (a : Action) : bool := match a with WriteAck _ => true | Forward _ => false end.
Definition acks_in (l : list Action) : Z := zlen (filter is_ack l).

Lemma acks_in_ack a l : acks_in (WriteAck a :: l) = 1 + acks_in l.
Proof. unfold acks_in. rewrite filter_cons_True by done. apply zlen_cons. Qed.

(** How a stream ends that holds no further frame. *)
Definition ends_as (tail : bytes) : Ending := match unframe tail with Err (TooLong _) => AboveBound | _ => Disconnected end.
Definition above (tail : bytes) : Z := match ends_as tail with AboveBound => 1 | _ => 0 end.

Definition counted (c : DmmCounters) (acks bad : Z) : DmmCounters :=
  mkDmmCounters (wrap 64 (registrations c + acks)) (wrap 64 (bad_framing c + bad)).
Definition counters_ok (c : DmmCounters) : Prop := 0 ≤ registrations c < 2 ^ 64 ∧ 0 ≤ bad_framing c < 2 ^ 64.

Lemma counted_fetch c n bad :
  counted (mkDmmCounters (fetch_add (registrations c) 1) (bad_framing c)) n bad = counted c (1 + n) bad.
Proof.
  unfold counted, fetch_add, wrap. cbn [registrations bad_framing]. f_equal. rewrite Z.add_mod_idemp_l by done. f_equal. lia.
Qed.

Lemma counted_end c e tail :
  counters_ok c → match unframe tail with Err (TooLong n) => e = ReadTooLong n | _ => e = Closed end →
  connection_end e c = (counted c 0 (above tail), ends_as tail).
Proof.
  intros [H1 H2] He. unfold counted, above, ends_as. rewrite Z.add_0_r, (wrap_small 64 (registrations c)) by done.
  destruct (unframe tail) as [|[]| |]; subst e; cbn [connection_end]; try done; rewrite Z.add_0_r, wrap_small by done; by destruct c.
Qed.

Lemma loop_spec ms : ∀ fuel acks sent reads held c tail,
  Forall brings reads → held ++ stream reads = concat (frame <$> ms) ++ tail → Forall (λ m, zlen m ≤ MAX_MESSAGE_LEN) ms →
  (∀ m k, unframe tail ≠ Ok (m, k)) → (length ms < fuel)%nat → counters_ok c →
  let '(acts, c', r) := loop fuel acks sent reads held c in
  acts `prefix_of` handled acks ms ∧
  ((∀ n, write_ok n = true) → (∀ n, send_ok n = true) →
    acts = handled acks ms ∧ r = Ok (ends_as tail) ∧ c' = counted c (acks_in acts) (above tail)).
Proof.
  induction ms as [|m ms IH]; intros fuel acks sent reads held c tail Hr Hs Hm Ht Hf Hc;
    destruct fuel as [|fuel]; try (cbn in Hf; lia); cbn [connection_loop].
  - pose proof (read_frame_stream reads held Hr) as H. rewrite Hs in H. cbn [fmap list_fmap concat app] in H.
    assert (∃ e, (read_frame reads held).2 = Err e ∧ match unframe tail with Err (TooLong n) => e = ReadTooLong n | _ => e = Closed end) as (e & He & Hte).
    { destruct (unframe_cases tail) as [[e He]|(m & k & He & _)]; [|by destruct (Ht m k)]. rewrite He in H |- *.
      destruct e; by eexists. }
    destruct (read_frame reads held) as [[reads' held'] r]. cbn [snd] in He. subst r.
    rewrite (counted_end c e tail Hc Hte). split; [apply prefix_nil|]. by intros _ _.
  - inversion Hm as [|? ? Hm1 Hm2]; subst. pose proof (read_frame_stream reads held Hr) as H. rewrite Hs in H.
    cbn [fmap list_fmap concat] in H. rewrite <- app_assoc, unframe_frame in H by done.
    destruct H as (reads' & held' & -> & Hr' & Hs'). cbn [handled].
    set (c1 := mkDmmCounters _ _). assert (counters_ok c1) as Hc1 by (split; [apply wrap_range; lia|apply Hc]).
    assert (∀ a d, counters_ok d →
      let '(acts, c', r) := (if send_ok sent then let '(acts, c, r) := loop fuel a (S sent) reads' held' d in (Forward m :: acts, c, r) else ([], d, Ok RuntimeGone)) in
      acts `prefix_of` Forward m :: handled a ms ∧
      ((∀ n, write_ok n = true) → (∀ n, send_ok n = true) →
        acts = Forward m :: handled a ms ∧ r = Ok (ends_as tail) ∧ c' = counted d (acks_in acts) (above tail))) as Hfw.
    { intros a d Hd. destruct (send_ok sent) eqn:Hsent; [|split; [apply prefix_nil|]; intros _ Hall; by rewrite Hall in Hsent].
      specialize (IH fuel a (S sent) reads' held' d tail Hr' Hs' Hm2 Ht ltac:(cbn in Hf; lia) Hd).
      destruct (loop fuel a (S sent) reads' held' d) as [[acts c'] r]. destruct IH as [Hp Hall]. split; [by apply prefix_cons|].
      intros Hw Hsd. destruct (Hall Hw Hsd) as (-> & -> & ->). done. }
    destruct (ack_of acks m) as [ack|]; [|by apply Hfw].
    destruct (write_ok acks) eqn:Hw; [|split; [apply prefix_nil|]; intros Hall; by rewrite Hall in Hw].
    specialize (Hfw (S acks) c1 Hc1). destruct (if send_ok sent then _ else _) as [[acts c'] r]. destruct Hfw as [Hp Hall].
    split; [by apply prefix_cons|]. intros H1 H2. destruct (Hall H1 H2) as (-> & -> & ->). split; [done|]. split; [done|].
    unfold c1. by rewrite counted_fetch, acks_in_ack.
Qed.

Lemma loop_returns fuel : ∀ acks sent reads held c,
  (length held + length (stream reads) < fuel)%nat →
  ∃ acts c' e, loop fuel acks sent reads held c = (acts, c', Ok e) ∧ Forall (λ a, match a with Forward m => zlen m ≤ MAX_MESSAGE_LEN | _ => True end) acts.
Proof.
  induction fuel as [|fuel IH]; intros acks sent reads held c Hf; [lia|]. cbn [connection_loop].
  pose proof (read_frame_progress reads held) as H. destruct (read_frame reads held) as [[reads' held'] [m|e| |]]; try done.
  2: { destruct (connection_end e c) as [c' e']. by eexists _, _, _. }
  destruct H as [Hm Hl].
  assert (∀ a d, ∃ acts c' e, (if send_ok sent then let '(acts, c, r) := loop fuel a (S sent) reads' held' d in (Forward m :: acts, c, r) else ([], d, Ok RuntimeGone))
    = (acts, c', Ok e) ∧ Forall (λ a, match a with Forward m => zlen m ≤ MAX_MESSAGE_LEN | _ => True end) acts) as Hfw.
  { intros a d. destruct (send_ok sent); [|by eexists _, _, _]. destruct (IH a (S sent) reads' held' d) as (acts & c' & e & -> & Ha); [lia|].
    eexists _, _, _. split; [done|]. by constructor. }
  destruct (ack_of acks m) as [ack|]; [|apply Hfw]. destruct (write_ok acks); [|by eexists _, _, _].
  destruct (Hfw (S acks) (mkDmmCounters (fetch_add (registrations c) 1) (bad_framing c))) as (acts & c' & e & -> & Ha).
  eexists _, _, _. split; [done|]. by constructor.
Qed.

Lemma frames_length ms tail : (length ms <= length (concat (frame <$> ms) ++ tail))%nat.
Proof.
  induction ms as [|m ms IH]; cbn [fmap list_fmap concat length]; [lia|]. rewrite length_app in *. rewrite length_app.
  pose proof (frame_zlen m) as H. pose proof (zlen_nonneg m). unfold zlen, PREFIX_LEN in *. lia.
Qed.

(** C16: a sensor's connection ends, whatever arrives on it and whatever write
    fails, with every frame it forwarded within the bound. Of messages framed one
    after the other and cut anywhere, each is forwarded as it was sent and in
    order, a registration only after its acknowledgement was written, up to the
    first failure; and with none, all of them, the connection then ending as its
    tail says and the counters telling the acknowledgements and the oversized
    frame. *)
Theorem dmm_connection reads :
  let '(acts, c, r) := connection decode encode node_id clock write_ok send_ok reads in
  (∃ e, r = Ok e) ∧ Forall (λ a, match a with Forward m => zlen m ≤ MAX_MESSAGE_LEN | _ => True end) acts ∧
  ∀ ms tail, Forall brings reads → stream reads = concat (frame <$> ms) ++ tail → Forall (λ m, zlen m ≤ MAX_MESSAGE_LEN) ms →
    (∀ m k, unframe tail ≠ Ok (m, k)) →
    acts `prefix_of` handled 0 ms ∧
    ((∀ n, write_ok n = true) → (∀ n, send_ok n = true) →
      acts = handled 0 ms ∧ r = Ok (ends_as tail) ∧ c = counted (mkDmmCounters 0 0) (acks_in acts) (above tail)).
Proof.
  unfold connection. fold (stream reads).
  destruct (loop_returns (S (length (stream reads))) 0 0 reads [] (mkDmmCounters 0 0)) as (acts & c & e & He & Ha); [cbn; lia|].
  rewrite He. split; [by eexists|]. split; [done|]. intros ms tail Hr Hs Hm Ht.
  pose proof (loop_spec ms (S (length (stream reads))) 0 0 reads [] (mkDmmCounters 0 0) tail Hr Hs Hm Ht) as H.
  rewrite He in H. apply H; [|by split]. pose proof (frames_length ms tail) as Hl. rewrite Hs. lia.
Qed.
End conversation.

(** * Witnesses *)

(** A registration and a status report, in frames of one byte. *)
Definition ex_wire_decode (b : bytes) : option SapientMessage :=
  match b with
  | [1] => Some (mkMessage None (Some "sensor"%string) None (Some (CRegistration (mkRegistration [] None None None [] None [] []))))
  | [2] => Some (mkMessage None (Some "sensor"%string) None (Some CAlertAck))
  | _ => None
  end.
Definition ex_wire_encode (m : SapientMessage) : bytes := match m_destination_id m with Some _ => [7] | None => [9] end.

Lemma dmm_connection_witness :
  connection ex_wire_decode ex_wire_encode "fusion" (λ _, (0, 0)) (λ _, true) (λ _, true)
    [Data [1; 0; 0]; Data [0; 1; 1]; Data [0; 0; 0; 2; 1; 0; 2]; Data [0]]
  = ([WriteAck [1; 0; 0; 0; 7]; Forward [1]; Forward [2]], mkDmmCounters 1 1, Ok AboveBound).
Proof.
  pose proof (dmm_connection ex_wire_decode ex_wire_encode "fusion" (λ _, (0, 0)) (λ _, true) (λ _, true)
    [Data [1; 0; 0]; Data [0; 1; 1]; Data [0; 0; 0; 2; 1; 0; 2]; Data [0]]) as H.
  destruct (connection _ _ _ _ _ _ _) as [[acts c] r]. destruct H as (_ & _ & H).
  destruct (H [[1]; [2]] [1; 0; 2; 0]) as [_ (-> & -> & ->)]; [by repeat constructor|reflexivity|by repeat constructor|done|done|done|].
  vm_compute. reflexivity.
Defined.
