(* ===== verification/Ulid.v ===== *)
(** ULIDs (rust/connectors/sapient-egress/src/ulid.rs): 48 bits of time and 80
    random bits as 26 characters. *)
From Stdlib Require Import ZArith Lia.
From Stdlib Require Import Strings.String.
From S2P Require Export Text.

Local Open Scope Z_scope.

(** @src rust/connectors/sapient-egress/src/ulid.rs 6-6 ALPHABET *)
Definition ALPHABET : bytes := s2b "0123456789ABCDEFGHJKMNPQRSTVWXYZ".

Definition MASK80 : Z := Z.shiftl 1 80 - 1.

(** [(0..n).rev().map(..)]: the character of each five bits, highest first. *)
Fixpoint ulid_chars (n : nat) (value : Z) : res unit bytes :=
  match n with
  | O => Ok []
  | S i =>
      c ← idx ALPHABET (Z.land (Z.shiftr value (5 * Z.of_nat i)) 31);
      cs ← ulid_chars i value;
      Ok (c :: cs)
  end.

(** @src rust/connectors/sapient-egress/src/ulid.rs 17-24 encode *)
Definition encode (millis random80 : Z) : res unit bytes :=
  ulid_chars 26 (Z.lor (Z.shiftl (Z.land millis 0xFFFFFFFFFFFF) 80) (Z.land random80 MASK80)).

(** @src rust/connectors/sapient-egress/src/ulid.rs 26-33 is_valid *)
Definition is_valid (s : bytes) : res unit bool :=
  if (zlen s =? 26) && forallb (λ b, has_byte (to_upper b) ALPHABET) s then
    c ← idx s 0;
    Ok (c <=? 55)
  else Ok false.

(** The clock's milliseconds and a fresh UUID's 128 bits. *)
(** @src rust/connectors/sapient-egress/src/ulid.rs 8-15 new *)
Definition ulid_new (millis uuid : Z) : res unit bytes := encode millis (Z.land uuid MASK80).

(** * The inverse *)

Definition char_value (c : Z) : option Z := find_byte c ALPHABET.
Fixpoint ulid_value (acc : Z) (s : bytes) : option Z :=
  match s with
  | [] => Some acc
  | c :: s => v ← char_value c; ulid_value (acc * 32 + v) s
  end.

Lemma alphabet_ok : forallb (λ v, match idx (E := unit) ALPHABET v with
  | Ok c => bool_decide (char_value c = Some v) && has_byte (to_upper c) ALPHABET && (negb (v <? 8) || (c <=? 55))
  | _ => false end) (seqZ 0 32) = true.
Proof. vm_compute. reflexivity. Qed.

Lemma alphabet_char v :
  0 ≤ v < 32 → ∃ c, idx (E := unit) ALPHABET v = Ok c ∧ char_value c = Some v ∧ has_byte (to_upper c) ALPHABET = true ∧ (v < 8 → c ≤ 55).
Proof.
  intros Hv. pose proof (proj1 (List.forallb_forall _ _) alphabet_ok v) as H. cbv beta in H.  rewrite <- list_elem_of_In, elem_of_seqZ in H. specialize (H ltac:(lia)).
  destruct (idx ALPHABET v) as [c| | |]; try done. exists c.
  apply andb_prop in H as [H H3]. apply andb_prop in H as [H1 H2]. apply bool_decide_eq_true in H1. split_and!; [done..|].
  intros Hlt. apply orb_prop in H3 as [H3|H3]; lia.
Qed.

Lemma ulid_digit value i : 0 ≤ Z.land (Z.shiftr value (5 * Z.of_nat i)) 31 < 32.
Proof. change 31 with (2 ^ 5 - 1). rewrite land_mask by lia. apply Z.mod_pos_bound. lia. Qed.

(** The characters of [n] groups of five bits state the value below them. *)
Lemma ulid_chars_spec value n acc : ∃ s,
  ulid_chars n value = Ok s ∧ length s = n ∧ forallb (λ b, has_byte (to_upper b) ALPHABET) s = true
  ∧ ulid_value acc s = Some (acc * 32 ^ Z.of_nat n + value mod 32 ^ Z.of_nat n).
Proof.
  revert acc. induction n as [|n IH]; intros acc; cbn [ulid_chars].
  { exists []. split_and!; [done..|]. cbn [ulid_value]. f_equal. rewrite Z.mod_1_r. lia. }
  set (d := Z.land (Z.shiftr value (5 * Z.of_nat n)) 31). pose proof (ulid_digit value n) as Hd. fold d in Hd.
  destruct (alphabet_char d Hd) as (c & Hc & Hv & Hb & _). rewrite Hc.
  destruct (IH (acc * 32 + d)) as (s & Hs & Hl & Hbs & Hvs). rewrite Hs. exists (c :: s).
  split_and!; [done|cbn; by rewrite Hl|cbn [forallb]; by rewrite Hb, Hbs|].
  cbn [ulid_value]. rewrite Hv. cbn [mbind option_bind]. rewrite Hvs. f_equal.
  assert (d = (value / 32 ^ Z.of_nat n) mod 32) as ->.
  { unfold d. change 31 with (2 ^ 5 - 1). rewrite land_mask, Z.shiftr_div_pow2 by lia. rewrite Z.pow_mul_r by lia. done. }
  rewrite Nat2Z.inj_succ, Z.pow_succ_r by lia. assert (0 < 32 ^ Z.of_nat n) by lia.
  rewrite (Z.mul_comm 32), Z.rem_mul_r by lia. ring.
Qed.

Lemma ulid_chars_S n value : ulid_chars (S n) value = (c ← idx ALPHABET (Z.land (Z.shiftr value (5 * Z.of_nat n)) 31); cs ← ulid_chars n value; Ok (c :: cs)).
Proof. done. Qed.

Lemma ulid_head value : 0 ≤ value < 2 ^ 128 → ∃ c s, ulid_chars 26 value = Ok (c :: s) ∧ c ≤ 55.
Proof.
  intros Hv. change 26%nat with (S 25). rewrite ulid_chars_S. set (d := Z.land (Z.shiftr value (5 * Z.of_nat 25)) 31).
  pose proof (ulid_digit value 25) as Hd. fold d in Hd. assert (d < 8) as Hd8.
  { unfold d. change 31 with (2 ^ 5 - 1). rewrite land_mask, Z.shiftr_div_pow2 by lia.
    assert (0 ≤ value / 2 ^ (5 * Z.of_nat 25) < 8) by (split; [apply Z.div_pos; lia|apply Z.div_lt_upper_bound; lia]).
    rewrite Z.mod_small; lia. }
  destruct (alphabet_char d Hd) as (c & Hc & _ & _ & H55). rewrite Hc. cbn [mbind res_bind].
  destruct (ulid_chars_spec value 25 0) as (s & Hs & _). rewrite Hs. exists c, s. split; [done|]. by apply H55.
Qed.

(** an identifier is made for every time and every random value, has the shape
    [is_valid] asks for, and states both: the 48 bits of time above the 80 random
    bits, so that two of one time and one value, and no others, are equal. *)
Theorem ulid_roundtrip millis random80 :
  0 ≤ millis < 2 ^ 48 → 0 ≤ random80 < 2 ^ 80 →
  ∃ s, encode millis random80 = Ok s ∧ is_valid s = Ok true ∧ ulid_value 0 s = Some (millis * 2 ^ 80 + random80).
Proof.
  intros Hm Hr. unfold encode. change 0xFFFFFFFFFFFF with (2 ^ 48 - 1). unfold MASK80. change (Z.shiftl 1 80) with (2 ^ 80).
  rewrite !land_mask by lia. rewrite !Z.mod_small by lia. rewrite lor_shiftl by lia. set (value := millis * 2 ^ 80 + random80).
  assert (0 ≤ value < 2 ^ 128) as Hv by (unfold value; lia).
  destruct (ulid_chars_spec value 26 0) as (s & Hs & Hl & Hb & Hval). exists s. split; [done|]. split.
  - destruct (ulid_head value Hv) as (c & t & Ht & Hc). rewrite Hs in Ht. injection Ht as ->. unfold is_valid.
    assert (zlen (c :: t) = 26) as -> by (unfold zlen; by rewrite Hl). rewrite Hb.
    change (Ok (E := unit) (c <=? 55) = Ok true). f_equal. lia.
  - rewrite Hval. f_equal. change (32 ^ Z.of_nat 26) with (2 ^ 130). rewrite Z.mod_small; [unfold value; lia|].
    pose proof (Z.pow_lt_mono_r 2 128 130). lia.
Qed.

Lemma ulid_roundtrip_witness : ∃ s, encode 1767225600000 12345 = Ok s ∧ is_valid s = Ok true ∧ ulid_value 0 s = Some (1767225600000 * 2 ^ 80 + 12345).
Proof. apply (ulid_roundtrip 1767225600000 12345); lia. Defined.
