(* ===== verification/Json.v ===== *)
(** JSON values as serde_json has them, an object as its entries in key order,
    strings taken apart by a prefix, and sorted lists of them. Parsing and printing
    JSON text are the crate's. *)
From Stdlib Require Import ZArith Lia.
From Stdlib Require Import Strings.String.
From S2P Require Export Event.

Local Open Scope Z_scope.

(** A [serde_json::Number] that is not a float is its text; the connectors make
    only floats. *)
Inductive Value :=
| Null
| Bool (b : bool)
| Number (v : f64)
| Numeral (text : string)
| Str (s : string)
| Arr (l : list Value)
| Obj (m : list (string * Value)).

Section object.
Context {A : Type}.
Implicit Types l : list (string * A).

(** [Map::insert]: in key order, a value under its key replaced. *)
Fixpoint put (k : string) (v : A) l : list (string * A) :=
  match l with
  | [] => [(k, v)]
  | (j, w) :: l =>
      match String.compare k j with
      | Lt => (k, v) :: (j, w) :: l
      | Eq => (k, v) :: l
      | Gt => (j, w) :: put k v l
      end
  end.

(** [Map::get], and the first entry of a key in a list. *)
Fixpoint look (k : string) l : option A :=
  match l with
  | [] => None
  | (j, w) :: l => if String.eqb k j then Some w else look k l
  end.

Lemma compare_eq_iff s t : String.compare s t = Eq ↔ s = t.
Proof. split; [apply String.compare_eq_iff|intros ->]. apply string_compare_refl. Qed.

Lemma look_put_eq k v l : look k (put k v l) = Some v.
Proof.
  induction l as [|[j w] l IH]; cbn [put look]; [by rewrite String.eqb_refl|].
  destruct (String.compare k j) eqn:H; cbn [look]; rewrite ?String.eqb_refl; [done..|].
  destruct (String.eqb_spec k j) as [->|]; [|done]. by rewrite (proj2 (compare_eq_iff j j) eq_refl) in H.
Qed.

Lemma look_put_ne i k v l : i ≠ k → look i (put k v l) = look i l.
Proof.
  intros Hi. assert (String.eqb i k = false) as Hf by by apply String.eqb_neq.
  induction l as [|[j w] l IH]; cbn [put look]; [by rewrite Hf|].
  destruct (String.compare k j) eqn:H; cbn [look].
  - apply compare_eq_iff in H as ->. by rewrite Hf.
  - by rewrite Hf.
  - by rewrite IH.
Qed.

Lemma put_nonempty k v l : put k v l ≠ [].
Proof. destruct l as [|[j w] l]; [done|]. cbn [put]. by destruct (String.compare k j). Qed.

Lemma look_elem k v l : NoDup l.*1 → (k, v) ∈ l → look k l = Some v.
Proof.
  induction l as [|[j w] l IH]; cbn [fmap list_fmap look fst]; intros Hn Hin; [by apply elem_of_nil in Hin|].
  apply NoDup_cons in Hn as [Hj Hn]. apply elem_of_cons in Hin as [[= <- <-]|Hin]; [by rewrite String.eqb_refl|].
  destruct (String.eqb_spec k j) as [->|]; [|by apply IH]. exfalso. apply Hj. apply list_elem_of_fmap. by exists (j, v).
Qed.
End object.

(** [str::strip_prefix]. *)
Fixpoint str_strip (p s : string) : option string :=
  match p, s with
  | EmptyString, _ => Some s
  | String a p, String b s => if Ascii.eqb a b then str_strip p s else None
  | String _ _, EmptyString => None
  end.
Definition str_starts (p s : string) : bool := bool_decide (is_Some (str_strip p s)).

Lemma str_strip_app p s : str_strip p (p ++ s)%string = Some s.
Proof. induction p as [|a p IH]; cbn [str_strip String.append]; [by destruct s|].
  change (String a p +:+ s) with (String a (p +:+ s)). cbn [str_strip]. by rewrite Ascii.eqb_refl. Qed.

Lemma str_strip_Some p s r : str_strip p s = Some r → s = (p ++ r)%string.
Proof.
  revert s. induction p as [|a p IH]; intros s H; [by destruct s; injection H as <-|].
  destruct s as [|b s]; [done|]. cbn [str_strip] in H. destruct (Ascii.eqb_spec a b) as [->|]; [|done].
  rewrite (IH s H). done.
Qed.



(** * Sorted strings *)

(** [dedup]: of equal neighbours the first stays. *)
Fixpoint dedup (l : list string) : list string :=
  match l with
  | a :: ((b :: _) as t) => if String.eqb a b then match dedup t with [] => [] | _ :: t' => a :: t' end else a :: dedup t
  | _ => l
  end.
Definition sort_strings (l : list string) : list string := (sort_keys ((λ s, (s, s)) <$> l)).*1.

Definition str_lt (s t : string) : Prop := String.compare s t = Lt.
Definition str_le (s t : string) : Prop := String.leb s t = true.

Lemma sort_strings_perm l : sort_strings l ≡ₚ l.
Proof.
  unfold sort_strings. rewrite sort_keys_perm. rewrite <- list_fmap_compose. by rewrite list_fmap_id.
Qed.

Lemma sort_strings_sorted l : StronglySorted str_le (sort_strings l).
Proof.
  unfold sort_strings. induction (sort_keys_sorted ((λ s, (s, s)) <$> l)) as [|a k Hk IH Ha]; [constructor|]. cbn.
  constructor; [exact IH|]. apply Forall_fmap. exact Ha.
Qed.

Lemma str_le_lt s t : str_le s t → s ≠ t → str_lt s t.
Proof. intros H Hne. by apply (key_le_lt (s, s) (t, t)). Qed.

Lemma dedup_head b l : ∃ t, dedup (b :: l) = b :: t.
Proof.
  induction l as [|c l IH] in b |- *; [by exists []|]. destruct (IH c) as [t Ht].
  change (∃ u, (if String.eqb b c then match dedup (c :: l) with [] => [] | _ :: t' => b :: t' end else b :: dedup (c :: l)) = b :: u).
  rewrite Ht. destruct (String.eqb b c); by eexists.
Qed.

Lemma elem_of_dedup x l : x ∈ dedup l ↔ x ∈ l.
Proof.
  induction l as [|a [|b l] IH]; [done|done|]. cbn [dedup]. destruct (String.eqb_spec a b) as [->|Hne].
  - change (x ∈ match dedup (b :: l) with [] => [] | _ :: t' => b :: t' end ↔ x ∈ b :: b :: l).
    destruct (dedup_head b l) as [t Ht]. rewrite Ht in *. set_solver.
  - change (x ∈ a :: dedup (b :: l) ↔ x ∈ a :: b :: l). set_solver.
Qed.

Lemma dedup_sorted l : StronglySorted str_le l → StronglySorted str_lt (dedup l).
Proof.
  induction l as [|a [|b l] IH]; intros H; [constructor|by repeat constructor|].
  inversion H as [|? ? Hl Ha]; subst. specialize (IH Hl). cbn [dedup]. destruct (String.eqb_spec a b) as [->|Hne].
  - change (StronglySorted str_lt match dedup (b :: l) with [] => [] | _ :: t' => b :: t' end).
    destruct (dedup_head b l) as [t Ht]. by rewrite Ht in *.
  - change (StronglySorted str_lt (a :: dedup (b :: l))). constructor; [done|].
    apply Forall_forall. intros x Hx. rewrite elem_of_dedup in Hx. inversion Ha as [|? ? Hab Hal]; subst. inversion Hl as [|? ? _ Hbl]; subst.
    rewrite Forall_forall in Hbl. pose proof (str_le_lt a b Hab Hne) as Hlt.
    apply elem_of_cons in Hx as [->|Hx]; [done|]. destruct (decide (b = x)) as [<-|Hbx]; [done|].
    apply (key_lt_trans (a, a) (b, b) (x, x)); [done|]. by apply (str_le_lt b x); [apply Hbl|].
Qed.
