(* ===== verification/Egress.v ===== *)
(** The generic egress (rust/connectors/generic-egress/src): governed events
    verified under Core's egress key, deduplicated, rendered as the consumer's
    JSON and posted. *)
From Stdlib Require Import ZArith Lia.
From Stdlib Require Import Strings.String.
From S2P Require Export Json Seal.

Local Open Scope Z_scope.

(** * Accepting an envelope *)

(** @src rust/connectors/generic-egress/src/lib.rs 35-41 AcceptError *)
Inductive AcceptError := Verify (e : SealError) | Undecodable.

Section accept.
Context `{C : Ed25519}.
Variable decode : bytes → option Event.

(** @src rust/connectors/generic-egress/src/lib.rs 43-46 accept *)
Definition accept (sealed : bytes) (egress_key : vkey) : res AcceptError Event :=
  b ← map_err Verify (verify sealed egress_key);
  ok_or Undecodable (decode b).
End accept.

(** * Deduplication *)

(** @src rust/connectors/generic-egress/src/lib.rs 48-53 Dedupe *)
Record Dedupe := mkDedupe { seen : gset string; order : list string; max_ids : Z }.

(** @src rust/connectors/generic-egress/src/lib.rs 56-62 Dedupe::new *)
Definition dedupe_new (max : Z) : Dedupe := mkDedupe ∅ [] (Z.max max 1).

(** @src rust/connectors/generic-egress/src/lib.rs 64-78 Dedupe::first_time *)
Definition first_time (id : string) (self : Dedupe) : Dedupe * bool :=
  if bool_decide (id ∈ seen self) then (self, false)
  else
    let '(sn, od) :=
      if max_ids self <=? zlen (order self) then
        match order self with
        | old :: rest => (seen self ∖ {[old]}, rest)
        | [] => (seen self, [])
        end
      else (seen self, order self) in
    (mkDedupe ({[id]} ∪ sn) (od ++ [id]) (max_ids self), true).

(** @src rust/connectors/generic-egress/src/lib.rs 21-22 DEDUPE_WINDOW *)
Definition DEDUPE_WINDOW : Z := 4096.

(** * The confidentiality label *)

(** @src rust/connectors/generic-egress/src/label.rs 12-16 LabelConfig *)
Record LabelConfig := mkLabelConfig { policy_identifier : string }.

Definition str_trim (s : string) : string := b2s (trim (s2b s)).

Section render.
(** [str::to_uppercase], over Unicode. *)
Variable to_uppercase : string → string.

(** The loop over the tags: the classification so far, and the releasability. *)
Fixpoint label_tags (tags : list string) (classification : option string) (releasability : list string) : option string * list string :=
  match tags with
  | [] => (classification, releasability)
  | tag :: tags =>
      match str_strip "class:" tag, str_strip "rel:" tag, str_strip "releasable:" tag with
      | Some v, _, _ =>
          label_tags tags
            (if bool_decide (classification = None) && negb (String.eqb (str_trim v) "") then Some (to_uppercase (str_trim v)) else classification)
            releasability
      | None, Some v, _ | None, None, Some v => label_tags tags classification (releasability ++ [to_uppercase (str_trim v)])
      | None, None, None => label_tags tags classification releasability
      end
  end.

(** @src rust/connectors/generic-egress/src/label.rs 18-54 confidentiality_label *)
Definition confidentiality_label (cfg : LabelConfig) (e : Event) : option Value :=
  let '(classification, releasability) := label_tags (ev_policy_tags e) None [] in
  c ← classification;
  let releasability := filter (λ v, String.eqb v "" = false) (dedup (sort_strings releasability)) in
  let label := put "policyIdentifier"%string (Str (policy_identifier cfg))
    (put "classification"%string (Str c) (put "creationDateTime"%string (Str (ev_timestamp e)) [])) in
  Some (Obj (match releasability with
             | [] => label
             | _ => put "categories"%string (Arr [Obj (put "tagName"%string (Str "Releasability")
                      (put "type"%string (Str "PERMISSIVE") (put "values"%string (Arr (Str <$> releasability)) [])))]) label
             end)).

(** * Rendering *)

(** @src rust/connectors/generic-egress/src/map.rs 13-24 PATHS *)
Definition PATHS : list string :=
  ["id"; "source_id"; "entity_type"; "timestamp"; "lat"; "lon"; "alt_m"; "confidence"; "policy_tags"]%string.

(** @src rust/connectors/generic-egress/src/map.rs 26-35 validate_path *)
Definition validate_path (path : string) : bool :=
  bool_decide (path ∈ PATHS) || str_starts "attr:" path || str_starts "meta:" path.

(** [find(|a| a.key == name)]. *)
Definition entry (name : string) (l : list Attribute) : option string :=
  look name ((λ a, (key a, value a)) <$> l).

(** [Number::from_f64]: none of a NaN or an infinity. *)
Definition num (v : f64) : option Value := if is_finite v then Some (Number v) else None.

(** @src rust/connectors/generic-egress/src/map.rs 37-71 lookup *)
Definition lookup_path (e : Event) (path : string) : option Value :=
  match str_strip "attr:" path, str_strip "meta:" path with
  | Some name, _ => Str <$> entry name (ev_attributes e)
  | None, Some name => Str <$> entry name (ev_metadata e)
  | None, None =>
      if String.eqb path "id" then Some (Str (ev_id e))
      else if String.eqb path "source_id" then Some (Str (ev_source_id e))
      else if String.eqb path "entity_type" then Some (Str (ev_entity_type e))
      else if String.eqb path "timestamp" then Some (Str (ev_timestamp e))
      else if String.eqb path "lat" then ev_location e ≫= λ l, num (latitude l)
      else if String.eqb path "lon" then ev_location e ≫= λ l, num (longitude l)
      else if String.eqb path "alt_m" then ev_location e ≫= λ l, num (altitude_m l)
      else if String.eqb path "confidence" then num (ev_confidence e)
      else if String.eqb path "policy_tags" then Some (Arr (Str <$> ev_policy_tags e))
      else None
  end.

(** @src rust/connectors/generic-egress/src/map.rs 73-83 Unmapped *)
Inductive Unmapped := Include | Refuse.

Definition named (prefix : string) (paths : list string) (name : string) : bool :=
  existsb (λ p, bool_decide (str_strip prefix p = Some name)) paths.

(** The entries of a list whose keys no path names. *)
(** @src rust/connectors/generic-egress/src/map.rs 126-145 render *)
Definition extra (prefix : string) (paths : list string) (l : list Attribute) : list (string * Value) :=
  fold_left (λ m a, if named prefix paths (key a) then m else put (key a) (Str (value a)) m) l [].

(** @src rust/connectors/generic-egress/src/map.rs 97-104 render *)
Definition mapped (e : Event) (fields : list (string * string)) : list (string * Value) :=
  fold_left (λ out '(consumer_name, path), match lookup_path e path with Some v => put consumer_name v out | None => out end) fields [].

Definition put_if {A} (c : bool) (k : string) (v : A) (l : list (string * A)) : list (string * A) := if c then put k v l else l.

(** The object without what the mapping leaves out. *)
(** @src rust/connectors/generic-egress/src/map.rs 97-124 render *)
Definition object (e : Event) (fields : list (string * string)) (label : option LabelConfig) : list (string * Value) :=
  let paths := fields.*2 in
  let out := mapped e fields in
  let out := put_if (negb (bool_decide ("id"%string ∈ paths))) "event_id" (Str (ev_id e)) out in
  let out := put_if (negb (bool_decide ("policy_tags"%string ∈ paths))) "policy_tags"
    (default (Arr []) (lookup_path e "policy_tags")) out in
  let out := put "governance"%string (Obj (put "egress_signature"%string (Str "verified") [])) out in
  match label ≫= λ cfg, confidentiality_label cfg e with
  | Some l => put "confidentiality_label"%string l out
  | None => out
  end.

(** @src rust/connectors/generic-egress/src/map.rs 126-156 render *)
Definition left_out (e : Event) (paths : list string) : option (list (string * Value)) :=
  let extra_attrs := extra "attr:" paths (ev_attributes e) in
  let extra_meta := extra "meta:" paths (ev_metadata e) in
  match extra_attrs, extra_meta with
  | [], [] => None
  | _, _ =>
      let u := match extra_attrs with [] => [] | _ => put "attributes"%string (Obj extra_attrs) [] end in
      Some (match extra_meta with [] => u | _ => put "metadata"%string (Obj extra_meta) u end)
  end.

(** @src rust/connectors/generic-egress/src/map.rs 91-162 render *)
Definition render (e : Event) (fields : list (string * string)) (unmapped : Unmapped) (label : option LabelConfig) : option Value :=
  let out := object e fields label in
  match left_out e fields.*2, unmapped with
  | None, _ => Some (Obj out)
  | Some _, Refuse => None
  | Some u, Include => Some (Obj (put "unmapped"%string (Obj u) out))
  end.
End render.

(** * Configuration *)

(** @src rust/connectors/generic-egress/src/config.rs 14-16 EGRESS_PREFIX *)
Definition EGRESS_PREFIX : string := "ajar.egress.".

(** The settings [validate] and the loop read. *)
(** @src rust/connectors/generic-egress/src/config.rs 18-51 Config Deliver Mapping *)
Record Config := mkConfig {
  cfg_subject : string;
  attempts : Z;
  fields : list (string * string);
  cfg_unmapped : Unmapped;
  cfg_label : option LabelConfig
}.

Inductive ConfigError := NotEgress | CueChannel | NoMapping | NoAttempts | UnknownPath (path : string).

(** @src rust/connectors/generic-egress/src/config.rs 72-95 Config::validate *)
Definition validate (self : Config) : res ConfigError unit :=
  let s := str_trim (cfg_subject self) in
  if negb (str_starts EGRESS_PREFIX s) then Err NotEgress
  else if str_starts "ajar.cue." s || String.eqb s "ajar.>" || String.eqb s ">" then Err CueChannel
  else if bool_decide (fields self = []) then Err NoMapping
  else if attempts self =? 0 then Err NoAttempts
  else match filter (λ p, validate_path p = false) (fields self).*2 with
       | p :: _ => Err (UnknownPath p)
       | [] => Ok tt
       end.

(** * The delivery loop *)

(** @src rust/connectors/generic-egress/src/lib.rs 24-33 EgressMetrics *)
Record EgressMetrics := mkEgressMetrics { delivered : Z; rejected : Z; deduped : Z; gap_dropped : Z }.

(** What becomes of a message: without a key, its size is printed; an envelope is
    refused, a known event skipped, an event refused by the mapping, printed in a
    dry run, or posted so many times, the last accepted or not. *)
Inductive Outcome :=
| Unverified (size : Z)
| Rejected (e : AcceptError)
| Deduped (id : string)
| Withheld (e : Event)
| Printed (e : Event) (body : Value)
| Posted (e : Event) (body : Value) (posts : nat) (accepted : bool).

(** [for attempt in 0..attempts]: how many requests were sent, and whether the
    last was answered with a 2xx. *)
Fixpoint deliver (attempts : nat) (ok : list bool) (sent : nat) : nat * bool :=
  match attempts with
  | O => (sent, false)
  | S attempts =>
      match ok with
      | true :: _ => (S sent, true)
      | _ => deliver attempts (tail ok) (S sent)
      end
  end.

Definition count_outcome (o : Outcome) (m : EgressMetrics) : EgressMetrics :=
  match o with
  | Unverified _ => m
  | Rejected _ => mkEgressMetrics (delivered m) (fetch_add (rejected m) 1) (deduped m) (gap_dropped m)
  | Deduped _ => mkEgressMetrics (delivered m) (rejected m) (fetch_add (deduped m) 1) (gap_dropped m)
  | Withheld _ | Posted _ _ _ false => mkEgressMetrics (delivered m) (rejected m) (deduped m) (fetch_add (gap_dropped m) 1)
  | Printed _ _ | Posted _ _ _ true => mkEgressMetrics (fetch_add (delivered m) 1) (rejected m) (deduped m) (gap_dropped m)
  end.

Section run.
Context `{C : Ed25519}.
Variable decode : bytes → option Event.
Variable to_uppercase : string → string.
Variables (cfg : Config) (egress_key : option vkey) (dry_run : bool).

(** One message and the answers to its posts, in order. *)
(** @src rust/connectors/generic-egress/src/main.rs 67-123 main *)
Definition on_message (d : Dedupe) (sealed : bytes) (answers : list bool) : Dedupe * res AcceptError Outcome :=
  match egress_key with
  | None => (d, Ok (Unverified (zlen sealed)))
  | Some k =>
      match accept decode sealed k with
      | Err e => (d, Ok (Rejected e))
      | Ok e =>
          let '(d, first) := first_time (ev_id e) d in
          if negb first then (d, Ok (Deduped (ev_id e)))
          else
            match render to_uppercase e (fields cfg) (cfg_unmapped cfg) (cfg_label cfg) with
            | None => (d, Ok (Withheld e))
            | Some body =>
                if dry_run then (d, Ok (Printed e body))
                else let '(posts, ok) := deliver (Z.to_nat (attempts cfg)) answers 0 in (d, Ok (Posted e body posts ok))
            end
      | Panic => (d, Panic)
      | NoFuel => (d, NoFuel)
      end
  end.

(** The loop over the messages of the subscription. *)
(** @src rust/connectors/generic-egress/src/main.rs 60-72 main *)
Fixpoint run (d : Dedupe) (m : EgressMetrics) (ms : list (bytes * list bool)) : Dedupe * EgressMetrics * res AcceptError (list Outcome) :=
  match ms with
  | [] => (d, m, Ok [])
  | (sealed, answers) :: ms =>
      let '(d, r) := on_message d sealed answers in
      match r with
      | Ok o => let '(d, m, r) := run d (count_outcome o m) ms in (d, m, (λ os, o :: os) <$> r)
      | Err e => (d, m, Err e)
      | Panic => (d, m, Panic)
      | NoFuel => (d, m, NoFuel)
      end
  end.
End run.

(** * The window of ids *)

(** The last [n] of a list. *)
Definition lastn {A} (n : nat) (l : list A) : list A := drop (length l - n) l.

Lemma lastn_all {A} n (l : list A) : (length l <= n)%nat → lastn n l = l.
Proof. intros. unfold lastn. by replace (length l - n)%nat with 0%nat by lia. Qed.

Lemma lastn_length {A} n (l : list A) : length (lastn n l) = Nat.min n (length l).
Proof. unfold lastn. rewrite length_drop. lia. Qed.

Lemma lastn_snoc {A} n (l : list A) x : (n <= length l)%nat → lastn (S n) (l ++ [x]) = lastn n l ++ [x].
Proof. intros. unfold lastn. rewrite length_app. cbn. rewrite drop_app_le by lia. f_equal. f_equal. lia. Qed.

Lemma lastn_tail {A} n (l : list A) : (S n <= length l)%nat → ∃ x, lastn (S n) l = x :: lastn n l.
Proof.
  intros. unfold lastn. destruct (lookup_lt_is_Some_2 l (length l - S n)) as [x Hx]; [lia|]. exists x.
  rewrite (drop_S _ x) by done. f_equal. f_equal. lia.
Qed.

Lemma lastn_NoDup_snoc {A} n (l : list A) x :
  NoDup (lastn (S n) l) → x ∉ lastn (S n) l → NoDup (lastn (S n) (l ++ [x])) .
Proof.
  intros Hn Hx. destruct (decide (n < length l)%nat) as [Hl|Hl].
  - destruct (lastn_tail n l) as [y Hy]; [lia|]. rewrite lastn_snoc by lia. rewrite Hy in Hn, Hx.
    apply NoDup_cons in Hn as [_ Hn]. apply not_elem_of_cons in Hx as [_ Hx]. apply NoDup_app. split; [done|].
    split; [|by apply NoDup_singleton]. intros z Hz ->%list_elem_of_singleton. done.
  - rewrite lastn_all in Hn, Hx by lia. rewrite lastn_all by (rewrite length_app; cbn; lia).
    apply NoDup_app. split; [done|]. split; [|by apply NoDup_singleton]. intros z Hz ->%list_elem_of_singleton. done.
Qed.

(** The window holds the last ids met for the first time, [h] in all. *)
Record remembers (n : nat) (h : list string) (d : Dedupe) : Prop := {
  rem_max : max_ids d = Z.of_nat (S n);
  rem_order : order d = lastn (S n) h;
  rem_seen : seen d = list_to_set (order d);
  rem_nodup : NoDup (order d)
}.

Lemma remembers_new n : remembers n [] (dedupe_new (Z.of_nat (S n))).
Proof. split; [cbn; lia|done|done|constructor]. Qed.

Lemma first_time_spec n h d id :
  remembers n h d →
  let '(d', new) := first_time id d in
  new = bool_decide (id ∉ lastn (S n) h) ∧ remembers n (if new then h ++ [id] else h) d'.
Proof.
  intros [Hm Ho Hs Hn]. unfold first_time. rewrite Hs, Ho. rewrite Ho in Hn.
  assert (bool_decide (id ∈ (list_to_set (lastn (S n) h) : gset string)) = negb (bool_decide (id ∉ lastn (S n) h))) as ->.
  { destruct (decide (id ∈ lastn (S n) h)); [rewrite bool_decide_true by set_solver|rewrite bool_decide_false by set_solver].
    - by rewrite bool_decide_false by tauto.
    - by rewrite bool_decide_true. }
  destruct (decide (id ∈ lastn (S n) h)) as [Hin|Hin].
  { rewrite (bool_decide_false (id ∉ _)) by tauto. cbn [negb]. split; [done|]. split; try done; by rewrite Ho. }
  rewrite (bool_decide_true (id ∉ _)) by done. cbn [negb]. rewrite Hm.
  pose proof (lastn_NoDup_snoc n h id Hn Hin) as Hd.
  destruct (Z.leb_spec (Z.of_nat (S n)) (zlen (lastn (S n) h))) as [Hf|Hf]; unfold zlen in Hf; rewrite lastn_length in Hf.
  - destruct (lastn_tail n h) as [x Hx]; [lia|]. rewrite Hx in Hn |- *. apply NoDup_cons in Hn as [Hxn Hn].
    assert (lastn (S n) (h ++ [id]) = lastn n h ++ [id]) as E by (apply lastn_snoc; lia).
    split; [done|]. split; cbn; [done|done| |by rewrite <- E].
    rewrite list_to_set_app_L. set_solver.
  - rewrite (lastn_all (S n) h) in * by lia.
    assert (lastn (S n) (h ++ [id]) = h ++ [id]) as E by (apply lastn_all; rewrite length_app; cbn; lia).
    split; [done|]. split; cbn; [done|done| |by rewrite <- E].
    rewrite list_to_set_app_L. set_solver.
Qed.

(** Whether each id of a sequence is new: not among the last so many that were. *)
Fixpoint news (n : nat) (h : list string) (ids : list string) : list bool :=
  match ids with
  | [] => []
  | id :: ids => let new := bool_decide (id ∉ lastn n h) in new :: news n (if new then h ++ [id] else h) ids
  end.

(** * What the mapping keeps *)

Definition RESERVED : list string := ["event_id"; "policy_tags"; "governance"; "confidentiality_label"; "unmapped"]%string.

Lemma look_put_if {A} c i k (v : A) l : i ≠ k → look i (put_if c k v l) = look i l.
Proof. intros. destruct c; [by apply look_put_ne|done]. Qed.

Lemma mapped_snoc e fs name path :
  mapped e (fs ++ [(name, path)]) = match lookup_path e path with Some v => put name v (mapped e fs) | None => mapped e fs end.
Proof. unfold mapped. by rewrite fold_left_app. Qed.

(** Under each consumer name, what its path names. *)
Lemma mapped_look e fs name path : NoDup fs.*1 → (name, path) ∈ fs → look name (mapped e fs) = lookup_path e path.
Proof.
  induction fs as [|[n p] fs IH] using rev_ind; intros Hn Hin; [by apply elem_of_nil in Hin|].
  rewrite fmap_app in Hn. apply NoDup_app in Hn as (Hn & Hx & _). rewrite mapped_snoc.
  apply elem_of_app in Hin as [Hin|[= <- <-]%list_elem_of_singleton].
  - assert (name ≠ n) as Hne.
    { intros ->. apply (Hx n); [|by left]. apply list_elem_of_fmap. by exists (n, path). }
    destruct (lookup_path e p); [rewrite look_put_ne by done|]; by apply IH.
  - destruct (lookup_path e path) eqn:E; [apply look_put_eq|].
    clear IH. assert (name ∉ fs.*1) as Hf by (intros H; apply (Hx name H); by left).
    clear -Hf. induction fs as [|[n p] fs IH] using rev_ind; [done|]. rewrite fmap_app in Hf.
    apply not_elem_of_app in Hf as [Hf Hnn]. rewrite mapped_snoc. destruct (lookup_path e p); [|by apply IH].
    rewrite look_put_ne; [by apply IH|]. intros ->. apply Hnn. by left.
Qed.

Lemma extra_snoc prefix paths l a :
  extra prefix paths (l ++ [a]) = if named prefix paths (key a) then extra prefix paths l else put (key a) (Str (value a)) (extra prefix paths l).
Proof. unfold extra. by rewrite fold_left_app. Qed.

Lemma extra_look prefix paths l a :
  NoDup (key <$> l) → a ∈ l → named prefix paths (key a) = false → look (key a) (extra prefix paths l) = Some (Str (value a)).
Proof.
  induction l as [|b l IH] using rev_ind; intros Hn Hin Hnm; [by apply elem_of_nil in Hin|].
  rewrite fmap_app in Hn. apply NoDup_app in Hn as (Hn & Hx & _). rewrite extra_snoc.
  apply elem_of_app in Hin as [Hin|<-%list_elem_of_singleton].
  - assert (key a ≠ key b) as Hne by (intros E; apply (Hx (key a)); [by apply list_elem_of_fmap_2|rewrite E; by left]).
    destruct (named prefix paths (key b)); [|rewrite look_put_ne by done]; by apply IH.
  - rewrite Hnm. apply look_put_eq.
Qed.

Lemma named_path prefix paths name : named prefix paths name = true ↔ (prefix ++ name)%string ∈ paths.
Proof.
  unfold named. rewrite existsb_exists. split.
  - intros (p & Hp & H%bool_decide_eq_true). apply str_strip_Some in H as ->. by apply list_elem_of_In.
  - intros H. exists (prefix ++ name)%string. split; [by apply list_elem_of_In|]. apply bool_decide_eq_true, str_strip_app.
Qed.

Lemma entry_elem a l : NoDup (key <$> l) → a ∈ l → entry (key a) l = Some (value a).
Proof.
  intros Hn Hin. apply look_elem; [by rewrite <- list_fmap_compose|]. apply list_elem_of_fmap. by exists a.
Qed.

Lemma lookup_attr e name : lookup_path e ("attr:" ++ name) = Str <$> entry name (ev_attributes e).
Proof. done. Qed.
Lemma lookup_meta e name : lookup_path e ("meta:" ++ name) = Str <$> entry name (ev_metadata e).
Proof. done. Qed.

Lemma extra_nonempty prefix paths l : (∃ a, a ∈ l ∧ named prefix paths (key a) = false) ↔ extra prefix paths l ≠ [].
Proof.
  induction l as [|b l IH] using rev_ind.
  { split; [intros (a & H%elem_of_nil & _); done|done]. }
  rewrite extra_snoc. split.
  - intros (a & [Hin|<-%list_elem_of_singleton]%elem_of_app & Hn); [|rewrite Hn; apply put_nonempty].
    destruct (named prefix paths (key b)); [apply IH; by eexists|apply put_nonempty].
  - destruct (named prefix paths (key b)) eqn:E; [|intros _; exists b; split; [apply elem_of_app; right; by left|done]].
    intros H. apply IH in H as (a & Hin & Hn). exists a. split; [apply elem_of_app; by left|done].
Qed.

Definition reserved_free (fields : list (string * string)) : Prop := Forall (λ n, n ∉ RESERVED) fields.*1.

Lemma sorted_keys_NoDup l : StronglySorted (λ a b, String.compare (key a) (key b) = Lt) l → NoDup (key <$> l).
Proof.
  induction 1 as [|a l Hl IH Ha]; cbn [fmap list_fmap]; constructor; [|done].
  intros (b & Hb & Hin)%list_elem_of_fmap. rewrite Forall_forall in Ha. specialize (Ha b Hin). rewrite Hb in Ha.
  by rewrite string_compare_refl in Ha.
Qed.

Section render_facts.
Context (to_uppercase : string → string).
Implicit Types (e : Event) (fields : list (string * string)).

Lemma reserved_not fields name path : reserved_free fields → (name, path) ∈ fields → name ∉ RESERVED.
Proof. unfold reserved_free. rewrite Forall_forall. intros Hr Hin. apply Hr, list_elem_of_fmap. by exists (name, path). Qed.
Lemma reserved_ne fields name path r : reserved_free fields → (name, path) ∈ fields → r ∈ RESERVED → name ≠ r.
Proof. intros Hr Hin Hres ->. by apply (reserved_not fields r path). Qed.

Lemma object_field e fields label name path :
  NoDup fields.*1 → reserved_free fields → (name, path) ∈ fields → look name (object to_uppercase e fields label) = lookup_path e path.
Proof.
  intros Hn Hr Hin. rewrite <- (mapped_look e fields name path Hn Hin).
  assert (∀ r, r ∈ RESERVED → name ≠ r) as Hne by (intros r; by eapply reserved_ne).
  unfold object. destruct (label ≫= _); rewrite ?look_put_ne, !look_put_if by (apply Hne; set_solver); done.
Qed.

(** What the mapping does not rename stays under its own name. *)
Lemma object_own e fields label :
  look "governance" (object to_uppercase e fields label) = Some (Obj [("egress_signature"%string, Str "verified")]) ∧
  ("id"%string ∉ fields.*2 → look "event_id" (object to_uppercase e fields label) = Some (Str (ev_id e))) ∧
  ("policy_tags"%string ∉ fields.*2 → look "policy_tags" (object to_uppercase e fields label) = Some (Arr (Str <$> ev_policy_tags e))).
Proof.
  unfold object. split_and!.
  - destruct (label ≫= _); rewrite ?look_put_ne by done; by rewrite look_put_eq.
  - intros Hid. rewrite (bool_decide_false ("id"%string ∈ _)) by done. cbn [negb put_if].
    destruct (label ≫= _); rewrite ?look_put_ne, look_put_if by done; by rewrite look_put_eq.
  - intros Hp. rewrite (bool_decide_false ("policy_tags"%string ∈ _)) by done. cbn [negb put_if].
    destruct (label ≫= _); rewrite ?look_put_ne by done; by rewrite look_put_eq.
Qed.

Lemma object_renames e fields label :
  NoDup fields.*1 → reserved_free fields →
  (∃ name, name ∉ ["governance"; "confidentiality_label"; "unmapped"]%string ∧ look name (object to_uppercase e fields label) = Some (Str (ev_id e))) ∧
  (∃ name, name ∉ ["governance"; "confidentiality_label"; "unmapped"]%string ∧ look name (object to_uppercase e fields label) = Some (Arr (Str <$> ev_policy_tags e))).
Proof.
  intros Hn Hr. destruct (object_own e fields label) as (_ & Hid & Htags). split.
  - destruct (decide ("id"%string ∈ fields.*2)) as [Hin|Hin].
    + apply list_elem_of_fmap in Hin as ([name path] & E & Hf). cbn [snd] in E. subst path. exists name. split.
      * pose proof (reserved_not _ _ _ Hr Hf). set_solver.
      * by rewrite (object_field _ _ _ _ _ Hn Hr Hf).
    + exists "event_id"%string. split; [set_solver|by apply Hid].
  - destruct (decide ("policy_tags"%string ∈ fields.*2)) as [Hin|Hin].
    + apply list_elem_of_fmap in Hin as ([name path] & E & Hf). cbn [snd] in E. subst path. exists name. split.
      * pose proof (reserved_not _ _ _ Hr Hf). set_solver.
      * by rewrite (object_field _ _ _ _ _ Hn Hr Hf).
    + exists "policy_tags"%string. split; [set_solver|by apply Htags].
Qed.

Lemma left_out_None e paths :
  left_out e paths = None ↔ extra "attr:" paths (ev_attributes e) = [] ∧ extra "meta:" paths (ev_metadata e) = [].
Proof. unfold left_out. by destruct (extra "attr:" _ _), (extra "meta:" _ _); naive_solver. Qed.

Lemma left_out_look e paths u :
  left_out e paths = Some u →
  (extra "attr:" paths (ev_attributes e) ≠ [] → look "attributes" u = Some (Obj (extra "attr:" paths (ev_attributes e)))) ∧
  (extra "meta:" paths (ev_metadata e) ≠ [] → look "metadata" u = Some (Obj (extra "meta:" paths (ev_metadata e)))).
Proof.
  unfold left_out. destruct (extra "attr:" _ _) as [|a l], (extra "meta:" _ _) as [|b k]; intros [= <-]; split; intros H; try done;
    rewrite ?look_put_eq, ?look_put_ne by done; by rewrite ?look_put_eq.
Qed.

(** An entry of the event is under the name a field gives it, or under [unmapped]. *)
Definition kept (prefix group : string) (fields : list (string * string)) (out : list (string * Value)) (a : Attribute) : Prop :=
  (∃ name, (name, (prefix ++ key a)%string) ∈ fields ∧ look name out = Some (Str (value a))) ∨
  (∃ u m, look "unmapped" out = Some (Obj u) ∧ look group u = Some (Obj m) ∧ look (key a) m = Some (Str (value a))).

Lemma kept_entry e fields label prefix group l out :
  NoDup fields.*1 → reserved_free fields → NoDup (key <$> l) →
  (∀ name, lookup_path e (prefix ++ name) = Str <$> entry name l) →
  (∀ n, n ∉ RESERVED → look n out = look n (object to_uppercase e fields label)) →
  (extra prefix fields.*2 l ≠ [] → ∃ u, look "unmapped" out = Some (Obj u) ∧ look group u = Some (Obj (extra prefix fields.*2 l))) →
  ∀ a, a ∈ l → kept prefix group fields out a.
Proof.
  intros Hn Hr Hk Hp Ho Hu a Hin. destruct (named prefix fields.*2 (key a)) eqn:E.
  - left. apply named_path in E. apply list_elem_of_fmap in E as ([name path] & E & Hf). cbn [snd] in E. subst path.
    exists name. split; [done|]. rewrite Ho by (by eapply reserved_not). rewrite (object_field _ _ _ _ _ Hn Hr Hf), Hp.
    by rewrite entry_elem.
  - right. destruct Hu as (u & Hu1 & Hu2); [apply extra_nonempty; by exists a|]. exists u, (extra prefix fields.*2 l).
    split_and!; [done..|]. by apply extra_look.
Qed.


(** All of it, of the object as it is sent. *)
Lemma object_kept e fields label out :
  Canonical e → NoDup fields.*1 → reserved_free fields →
  (∀ n, n ≠ "unmapped"%string → look n out = look n (object to_uppercase e fields label)) →
  (extra "attr:" fields.*2 (ev_attributes e) ≠ [] → ∃ u, look "unmapped" out = Some (Obj u) ∧ look "attributes" u = Some (Obj (extra "attr:" fields.*2 (ev_attributes e)))) →
  (extra "meta:" fields.*2 (ev_metadata e) ≠ [] → ∃ u, look "unmapped" out = Some (Obj u) ∧ look "metadata" u = Some (Obj (extra "meta:" fields.*2 (ev_metadata e)))) →
  (∀ name path, (name, path) ∈ fields → look name out = lookup_path e path) ∧
  (∃ name, look name out = Some (Str (ev_id e))) ∧
  (∃ name, look name out = Some (Arr (Str <$> ev_policy_tags e))) ∧
  look "governance" out = Some (Obj [("egress_signature"%string, Str "verified")]) ∧
  (∀ a, a ∈ ev_attributes e → kept "attr:" "attributes" fields out a) ∧
  (∀ a, a ∈ ev_metadata e → kept "meta:" "metadata" fields out a).
Proof.
  intros He Hn Hr Ho Ha Hm. destruct (object_renames e fields label Hn Hr) as [(i & Hi & Hid) (t & Ht & Htags)].
  assert (∀ n, n ∉ RESERVED → look n out = look n (object to_uppercase e fields label)) as Ho' by (intros n H; apply Ho; set_solver).
  split_and!.
  - intros name path Hf. rewrite Ho by (eapply reserved_ne; [done|done|set_solver]). by apply object_field.
  - exists i. rewrite Ho; [done|set_solver].
  - exists t. rewrite Ho; [done|set_solver].
  - rewrite Ho by done. apply object_own.
  - apply (kept_entry e fields label _ _ _ out Hn Hr (sorted_keys_NoDup _ (can_attr_sorted _ He)) (lookup_attr e) Ho' Ha).
  - apply (kept_entry e fields label _ _ _ out Hn Hr (sorted_keys_NoDup _ (can_meta_sorted _ He)) (lookup_meta e) Ho' Hm).
Qed.

(** C13: an object keeps everything governed: with consumer names of its own, no
    reserved one among them, a mapping yields an object with each field it names,
    with the event's id, its policy tags and the proof of its signature, and with
    every attribute and every metadata entry, under a field's name or under
    [unmapped]; only an event with an entry the mapping does not name is refused,
    and only where the configuration refuses it. *)
Theorem render_keeps e fields u label :
  Canonical e → NoDup fields.*1 → reserved_free fields →
  match render to_uppercase e fields u label with
  | None => u = Refuse ∧
      ((∃ a, a ∈ ev_attributes e ∧ named "attr:" fields.*2 (key a) = false) ∨ (∃ a, a ∈ ev_metadata e ∧ named "meta:" fields.*2 (key a) = false))
  | Some v => ∃ out, v = Obj out ∧
      (∀ name path, (name, path) ∈ fields → look name out = lookup_path e path) ∧
      (∃ name, look name out = Some (Str (ev_id e))) ∧
      (∃ name, look name out = Some (Arr (Str <$> ev_policy_tags e))) ∧
      look "governance" out = Some (Obj [("egress_signature"%string, Str "verified")]) ∧
      (∀ a, a ∈ ev_attributes e → kept "attr:" "attributes" fields out a) ∧
      (∀ a, a ∈ ev_metadata e → kept "meta:" "metadata" fields out a)
  end.
Proof.
  intros He Hn Hr. unfold render. destruct (left_out e fields.*2) as [lo|] eqn:Hlo.
  2: { apply left_out_None in Hlo as [Ha Hm]. exists (object to_uppercase e fields label). split; [done|].
       by apply (object_kept e fields label). }
  destruct u.
  - eexists. split; [done|]. apply left_out_look in Hlo as [Ha Hm]. apply (object_kept e fields label); try done.
    + intros n H. by apply look_put_ne.
    + intros H. exists lo. rewrite look_put_eq. split; [done|]. by apply Ha.
    + intros H. exists lo. rewrite look_put_eq. split; [done|]. by apply Hm.
  - split; [done|]. rewrite !extra_nonempty. apply dec_stable. intros H. assert (left_out e fields.*2 = None) as E; [|by rewrite Hlo in E].
    apply left_out_None. destruct (extra "attr:" _ _), (extra "meta:" _ _); try done; exfalso; apply H; (by left) || by right.
Qed.

(** a consumer name that is reserved drops what it maps: of a mapping that
    calls an attribute [governance], the object is the same whatever the attribute
    says, although the mapping names it and nothing is refused. *)
Theorem reserved_name_drops e k v w u label :
  let with_attr x := mkEvent (schema_version e) (ev_id e) (ev_source_id e) (ev_entity_type e) (ev_timestamp e) (received_at e)
    (ev_location e) (ev_payload e) (ev_policy_tags e) (ev_confidence e) [mkAttribute k x] [] in
  render to_uppercase (with_attr v) [("governance"%string, ("attr:" ++ k)%string)] u label
  = render to_uppercase (with_attr w) [("governance"%string, ("attr:" ++ k)%string)] u label
  ∧ is_Some (render to_uppercase (with_attr v) [("governance"%string, ("attr:" ++ k)%string)] u label).
Proof.
  cbv zeta. set (f := [("governance"%string, ("attr:" ++ k)%string)]).
  assert (∀ x, left_out (mkEvent (schema_version e) (ev_id e) (ev_source_id e) (ev_entity_type e) (ev_timestamp e) (received_at e)
    (ev_location e) (ev_payload e) (ev_policy_tags e) (ev_confidence e) [mkAttribute k x] []) f.*2 = None) as Hlo.
  { intros x. apply left_out_None. split; [|done]. unfold extra. cbn [ev_attributes fold_left].
    assert (named "attr:" f.*2 k = true) as Hk by (apply named_path; by left). cbn [key]. by rewrite Hk. }
  unfold render. rewrite !Hlo. split; [|by eexists]. f_equal. f_equal. unfold object.
  assert ("id"%string ∉ f.*2) as Hid by (intros H%list_elem_of_singleton; discriminate H).
  assert ("policy_tags"%string ∉ f.*2) as Hpt by (intros H%list_elem_of_singleton; discriminate H).
  rewrite !bool_decide_false by done. cbn [negb put_if].
  assert (∀ x, mapped (mkEvent (schema_version e) (ev_id e) (ev_source_id e) (ev_entity_type e) (ev_timestamp e) (received_at e)
    (ev_location e) (ev_payload e) (ev_policy_tags e) (ev_confidence e) [mkAttribute k x] []) f = [("governance"%string, Str x)]) as Hmap.
  { intros x. unfold mapped, f. cbn [fold_left]. rewrite lookup_attr. unfold entry. cbn [ev_attributes fmap list_fmap look key].
    by rewrite String.eqb_refl. }
  rewrite !Hmap. reflexivity.
Qed.
End render_facts.

(** * The loop *)

(** The event an outcome hands on, the first time its id is met. *)
Definition handed (o : Outcome) : option Event :=
  match o with Withheld e | Printed e _ | Posted e _ _ _ => Some e | _ => None end.
Definition met (os : list Outcome) : list string := omap (λ o, ev_id <$> handed o) os.

(** The counter of an outcome. *)
Inductive Counted := CDelivered | CRejected | CDeduped | CGap | CNone.
#[export] Instance Counted_eq_dec : EqDecision Counted.
Proof. solve_decision. Defined.
Definition counted (o : Outcome) : Counted :=
  match o with
  | Unverified _ => CNone
  | Rejected _ => CRejected
  | Deduped _ => CDeduped
  | Withheld _ | Posted _ _ _ false => CGap
  | Printed _ _ | Posted _ _ _ true => CDelivered
  end.
Definition number (k : Counted) (os : list Outcome) : Z := zlen (filter (λ o, counted o = k) os).
Definition tally (m : EgressMetrics) (os : list Outcome) : EgressMetrics :=
  mkEgressMetrics (wrap 64 (delivered m + number CDelivered os)) (wrap 64 (rejected m + number CRejected os))
    (wrap 64 (deduped m + number CDeduped os)) (wrap 64 (gap_dropped m + number CGap os)).
Definition metrics_ok (m : EgressMetrics) : Prop :=
  0 ≤ delivered m < 2 ^ 64 ∧ 0 ≤ rejected m < 2 ^ 64 ∧ 0 ≤ deduped m < 2 ^ 64 ∧ 0 ≤ gap_dropped m < 2 ^ 64.

Lemma number_cons k o os : number k (o :: os) = (if decide (counted o = k) then 1 else 0) + number k os.
Proof. unfold number. rewrite filter_cons. destruct (decide _); [by rewrite zlen_cons|done]. Qed.

Lemma wrap_fetch a n : wrap 64 (fetch_add a 1 + n) = wrap 64 (a + (1 + n)).
Proof. unfold fetch_add, wrap. rewrite Z.add_mod_idemp_l by done. f_equal. lia. Qed.

Lemma tally_nil m : metrics_ok m → tally m [] = m.
Proof. intros (H1 & H2 & H3 & H4). unfold tally, number. cbn [filter list_filter]. rewrite zlen_nil, !Z.add_0_r, !wrap_small by done. by destruct m. Qed.

Lemma tally_cons m o os : tally (count_outcome o m) os = tally m (o :: os).
Proof.
  unfold tally. rewrite !number_cons. destruct o as [| | | | |? ? ? []]; cbn [count_outcome counted delivered rejected deduped gap_dropped];
    repeat (destruct (decide _); try done); rewrite ?wrap_fetch, ?Z.add_0_l; done.
Qed.

Lemma count_outcome_ok o m : metrics_ok m → metrics_ok (count_outcome o m).
Proof.
  intros (H1 & H2 & H3 & H4). pose proof (λ n, wrap_range 64 n ltac:(lia)) as Hw. unfold metrics_ok.
  destruct o as [| | | | |? ? ? []]; cbn [count_outcome delivered rejected deduped gap_dropped]; (split; [|split; [|split]]); (done || apply Hw).
Qed.

Lemma deliver_spec n : ∀ ok sent,
  let '(posts, done_) := deliver n ok sent in
  (sent <= posts <= sent + n)%nat ∧
  (∀ i, (i < posts - sent)%nat → ok !! i = Some true → done_ = true ∧ i = (posts - sent - 1)%nat) ∧
  (if done_ then (sent < posts)%nat ∧ ok !! (posts - sent - 1)%nat = Some true else posts = (sent + n)%nat).
Proof.
  induction n as [|n IH]; intros ok sent; cbn [deliver]; [split_and!; try lia|].
  destruct ok as [|[] ok].
  - cbn [tail]. specialize (IH [] (S sent)). destruct (deliver n [] (S sent)) as [p dn]. destruct IH as (H1 & _ & H3).
    split; [lia|]. split; [by intros i _ ?|]. destruct dn; [by destruct H3|lia].
  - split; [lia|]. split; [intros i Hi _; split; [done|lia]|]. split; [lia|]. by replace (S sent - sent - 1)%nat with 0%nat by lia.
  - cbn [tail]. specialize (IH ok (S sent)). destruct (deliver n ok (S sent)) as [p dn]. destruct IH as (H1 & H2 & H3). split; [lia|]. split.
    + intros [|i] Hi Hok; [done|]. cbn in Hok. destruct (H2 i ltac:(lia) Hok) as [-> ->]. split; [done|lia].
    + destruct dn; [|lia]. destruct H3 as [H3 H4]. split; [lia|]. replace (p - sent - 1)%nat with (S (p - S sent - 1)) by lia. done.
Qed.

Section loop.
Context `{C : Ed25519} (decode : bytes → option Event) (to_uppercase : string → string).
Variables (cfg : Config) (k : vkey) (dry_run : bool).

(** What a message and the answers to its posts come to, deduplication apart. *)
Definition agrees (m : bytes * list bool) (o : Outcome) : Prop :=
  match o with
  | Unverified _ => False
  | Rejected err => accept decode m.1 k = Err err
  | Deduped id => ∃ e, accept decode m.1 k = Ok e ∧ ev_id e = id
  | Withheld e => accept decode m.1 k = Ok e ∧ render to_uppercase e (fields cfg) (cfg_unmapped cfg) (cfg_label cfg) = None
  | Printed e body => dry_run = true ∧ accept decode m.1 k = Ok e
      ∧ render to_uppercase e (fields cfg) (cfg_unmapped cfg) (cfg_label cfg) = Some body
  | Posted e body posts ok => dry_run = false ∧ accept decode m.1 k = Ok e
      ∧ render to_uppercase e (fields cfg) (cfg_unmapped cfg) (cfg_label cfg) = Some body
      ∧ (posts <= Z.to_nat (attempts cfg))%nat ∧ (∀ i, (S i < posts)%nat → m.2 !! i ≠ Some true)
      ∧ (if ok then m.2 !! pred posts = Some true else posts = Z.to_nat (attempts cfg))
  end.

Lemma accept_cases sealed : (∃ e, accept decode sealed k = Ok e) ∨ (∃ err, accept decode sealed k = Err err).
Proof.
  unfold accept. pose proof (verify_safe sealed k) as H. destruct (verify sealed k) as [b|err| |]; try done; cbn [map_err mbind res_bind].
  - destruct (decode b); [left|right]; by eexists.
  - right. by eexists.
Qed.

(** One message, against the ids met so far. *)
Lemma on_message_spec n h d m :
  remembers n h d → ∃ d' o, on_message decode to_uppercase cfg (Some k) dry_run d m.1 m.2 = (d', Ok o) ∧ agrees m o ∧
    remembers n (h ++ met [o]) d' ∧
    (∀ e, handed o = Some e → ev_id e ∉ lastn (S n) h) ∧ (∀ id, o = Deduped id → id ∈ lastn (S n) h).
Proof.
  intros Hd. unfold on_message. destruct (accept_cases m.1) as [[e He]|[err He]]; rewrite He.
  2: { exists d, (Rejected err). split_and!; try done. cbn. by rewrite app_nil_r. }
  pose proof (first_time_spec n h d (ev_id e) Hd) as Hf. destruct (first_time (ev_id e) d) as [d' new]. destruct Hf as [-> Hd'].
  destruct (decide (ev_id e ∈ lastn (S n) h)) as [Hin|Hin].
  { rewrite bool_decide_false in * by tauto. cbn [negb]. exists d', (Deduped (ev_id e)). split; [done|]. split; [by exists e|]. split; [cbn; by rewrite app_nil_r|].
    split; [done|]. by intros id [= <-]. }
  rewrite bool_decide_true in * by done. cbn [negb].
  destruct (render _ _ _ _ _) as [body|] eqn:Hr.
  2: { exists d', (Withheld e). split_and!; try done. by intros e' [= <-]. }
  destruct dry_run eqn:Hdry.
  { exists d', (Printed e body). split_and!; try done. by intros e' [= <-]. }
  pose proof (deliver_spec (Z.to_nat (attempts cfg)) m.2 0) as Hp. destruct (deliver _ _ _) as [posts ok]. destruct Hp as (H1 & H2 & H3).
  exists d', (Posted e body posts ok). split; [done|]. split; [|split_and!; try done; by intros e' [= <-]].
  split; [done|]. split; [done|]. split; [done|]. split; [lia|]. split.
  - intros i Hi Hok. destruct (H2 i ltac:(lia) Hok) as [_ ->]. lia.
  - destruct ok; [|lia]. destruct H3 as [Hlt H3]. by replace (pred posts) with (posts - 0 - 1)%nat by lia.
Qed.

Lemma met_cons o os : met (o :: os) = met [o] ++ met os.
Proof. unfold met. cbn. by destruct (handed o). Qed.

Lemma run_spec n ms : ∀ h d m, remembers n h d → metrics_ok m →
  ∃ d' os, run decode to_uppercase cfg (Some k) dry_run d m ms = (d', tally m os, Ok os) ∧ Forall2 agrees ms os ∧
    (∀ p o q, os = p ++ o :: q →
      (∀ e, handed o = Some e → ev_id e ∉ lastn (S n) (h ++ met p)) ∧ (∀ id, o = Deduped id → id ∈ lastn (S n) (h ++ met p))).
Proof.
  induction ms as [|[sealed answers] ms IH]; intros h d m Hd Hm; cbn [run].
  { exists d, []. split; [by rewrite tally_nil|]. split; [done|]. intros p o q E. by destruct p. }
  destruct (on_message_spec n h d (sealed, answers) Hd) as (d' & o & Ho & Ha & Hd' & Hh & Hdd). cbn [fst snd] in Ho. rewrite Ho.
  destruct (IH (h ++ met [o]) d' (count_outcome o m) Hd' (count_outcome_ok o m Hm)) as (d2 & os & -> & Has & Hall).
  exists d2, (o :: os). split; [by rewrite tally_cons|]. split; [by constructor|].
  intros [|p0 p] o' q E; injection E as -> E; [by rewrite app_nil_r|].
  specialize (Hall p o' q E). by rewrite <- app_assoc, <- met_cons in Hall.
Qed.

Lemma number_total os : Forall (λ o, counted o ≠ CNone) os →
  number CDelivered os + number CRejected os + number CDeduped os + number CGap os = zlen os.
Proof.
  induction 1 as [|o os Ho Hos IH]; [done|]. rewrite !number_cons, zlen_cons. destruct (counted o); try done;
    repeat (destruct (decide _); try done); lia.
Qed.

Lemma agrees_counted m o : agrees m o → counted o ≠ CNone.
Proof. by destruct o as [| | | | |? ? ? []]. Qed.

(** C12: every message of the subscription comes to one outcome, in order and
    counted under one counter: what does not verify under the egress key is
    rejected; an event is posted, as the mapping renders it, as often as
    configured or up to the first success; and one of an id met before is skipped,
    exactly when that id is among the last 4096 met, so that no event is handed on
    twice within the window. *)
Theorem egress_loop ms :
  ∃ d os, run decode to_uppercase cfg (Some k) dry_run (dedupe_new DEDUPE_WINDOW) (mkEgressMetrics 0 0 0 0) ms
      = (d, tally (mkEgressMetrics 0 0 0 0) os, Ok os) ∧
    Forall2 agrees ms os ∧
    number CDelivered os + number CRejected os + number CDeduped os + number CGap os = zlen ms ∧
    (∀ p o q, os = p ++ o :: q →
      (∀ e, handed o = Some e → ev_id e ∉ lastn 4096 (met p)) ∧ (∀ id, o = Deduped id → id ∈ lastn 4096 (met p))).
Proof.
  destruct (run_spec 4095 ms [] (dedupe_new DEDUPE_WINDOW) (mkEgressMetrics 0 0 0 0)) as (d & os & Hr & Ha & Hall).
  - apply remembers_new.
  - by split_and!.
  - exists d, os. split; [done|]. split; [done|]. split.
    + rewrite number_total; [unfold zlen; by rewrite (Forall2_length _ _ _ Ha)|].
      clear -Ha. induction Ha; constructor; [by eapply agrees_counted|done].
    + exact Hall.
Qed.
End loop.

(** * The subjects of a configuration *)

(** NATS subjects: tokens between dots; [*] takes one token, a last [>] one or
    more. *)
Fixpoint subject_matches (pattern subject : list bytes) : bool :=
  match pattern, subject with
  | [], [] => true
  | p :: ps, s :: ss =>
      (bool_decide (p = [62]) && bool_decide (ps = [])) || ((bool_decide (p = [42]) || bool_decide (p = s)) && subject_matches ps ss)
  | _, _ => false
  end.
Definition tokens (s : string) : list bytes := split_on 46 (s2b s).


Lemma matches_literal p ps subject :
  p ≠ [62] → p ≠ [42] → subject_matches (p :: ps) subject = true → ∃ ss, subject = p :: ss ∧ subject_matches ps ss = true.
Proof.
  intros H1 H2. destruct subject as [|s ss]; cbn [subject_matches]; [done|].
  rewrite (bool_decide_false (p = [62])), (bool_decide_false (p = [42])) by done. cbn [andb orb]. intros [Hs%bool_decide_eq_true H]%andb_prop. subst. by exists ss.
Qed.

(** a configuration that passes validation subscribes to governed egress
    alone: whatever wildcards its subject has, every subject it matches lies under
    [ajar.egress], and none under the effector cue channel. *)
Theorem validated_subject cfg subject :
  validate cfg = Ok tt → subject_matches (tokens (str_trim (cfg_subject cfg))) (split_on 46 subject) = true →
  ∃ rest, split_on 46 subject = s2b "ajar" :: s2b "egress" :: rest ∧ rest ≠ [] ∧ ∀ t, split_on 46 subject ≠ s2b "ajar" :: s2b "cue" :: t.
Proof.
  unfold validate. destruct (str_starts EGRESS_PREFIX (str_trim (cfg_subject cfg))) eqn:Hp; [|done]. intros _.
  apply bool_decide_eq_true in Hp as [r Hr]. apply str_strip_Some in Hr as ->.
  unfold tokens. rewrite s2b_app. change (s2b EGRESS_PREFIX) with (s2b "ajar" ++ 46 :: s2b "egress" ++ [46]).
  rewrite <- !app_assoc. cbn [app]. rewrite <- app_assoc. cbn [app].
  rewrite split_on_app by (by repeat constructor). rewrite split_on_app by (by repeat constructor).
  pose proof (split_on_ne 46 (s2b r)) as Hne. set (ps := split_on 46 (s2b r)) in *.
  intros (ss & -> & H)%matches_literal; [|done|done]. apply matches_literal in H as (rest & -> & H); [|done|done].
  exists rest. split; [done|]. split; [|done]. intros ->. destruct ps as [|p ps]; [done|].
  done.
Qed.

(** * Witnesses *)

Definition ex_governed : Event := match build (ex_builder [("speed", "4.2"); ("hostility", "HOSTILE")]%string) with Ok e => e | _ => mkEvent "" "" "" "" "" "" None [] [] f_zero [] [] end.
Definition ex_fields : list (string * string) := [("speed_ms", "attr:speed"); ("track", "id")]%string.

Lemma ex_governed_canonical : Canonical ex_governed.
Proof.
  destruct (build (ex_builder [("speed", "4.2"); ("hostility", "HOSTILE")]%string)) as [e| | |] eqn:H; [|by vm_compute in H..].
  assert (ex_governed = e) as -> by (unfold ex_governed; by rewrite H).
  destruct (build_Ok _ _ H) as (i & ts & Hv & ->). by apply built_canonical.
Qed.

Lemma render_keeps_witness :
  ∃ out, render (λ s, s) ex_governed ex_fields Include None = Some (Obj out) ∧ look "speed_ms" out = Some (Str "4.2")
    ∧ kept "attr:" "attributes" ex_fields out (mkAttribute "hostility" "HOSTILE").
Proof.
  pose proof (render_keeps (λ s, s) ex_governed ex_fields Include None ex_governed_canonical) as H.
  destruct (render (λ s, s) ex_governed ex_fields Include None) as [v|] eqn:E; [|by vm_compute in E].
  destruct H as (out & -> & Hf & _ & _ & _ & Ha & _).
  { repeat constructor; [intros H%list_elem_of_singleton; discriminate H|apply not_elem_of_nil]. }
  { repeat constructor; intros H; repeat (apply elem_of_cons in H as [H|H]; [discriminate H|]); by apply elem_of_nil in H. }
  exists out. split; [done|]. split; [by rewrite (Hf "speed_ms"%string "attr:speed"%string ltac:(by left))|].
  apply Ha. vm_compute. by left.
Defined.

Definition ex_config : Config := mkConfig "ajar.egress.*.radar.>" 2 ex_fields Include None.

Lemma validated_subject_witness :
  validate ex_config = Ok tt ∧ ∃ rest, split_on 46 (s2b "ajar.egress.json.radar.north") = s2b "ajar" :: s2b "egress" :: rest.
Proof.
  split; [vm_compute; reflexivity|].
  destruct (validated_subject ex_config (s2b "ajar.egress.json.radar.north")) as (rest & H & _); [vm_compute; reflexivity|vm_compute; reflexivity|].
  by exists rest.
Defined.

Definition ex_messages : list (bytes * list bool) := [(@seal toy [1] 5, [false; true]); (@seal toy [1] 5, []); ([0], [])].

Lemma egress_loop_witness :
  ∃ os, (run (C := toy) toy_decode (λ s, s) ex_config (Some (5 : @vkey toy)) false (dedupe_new DEDUPE_WINDOW) (mkEgressMetrics 0 0 0 0) ex_messages).2 = Ok os
    ∧ number CDelivered os + number CRejected os + number CDeduped os + number CGap os = 3.
Proof.
  destruct (egress_loop (C := toy) toy_decode (λ s, s) ex_config (5 : @vkey toy) false ex_messages) as (d & os & H & _ & Hn & _).
  exists os. split; [by rewrite H|exact Hn].
Defined.

Example ex_outcomes :
  match (run (C := toy) toy_decode (λ s, s) ex_config (Some (5 : @vkey toy)) false (dedupe_new DEDUPE_WINDOW) (mkEgressMetrics 0 0 0 0) ex_messages) with
  | (_, m, Ok [Posted _ _ 2 true; Deduped _; Rejected _]) => m = mkEgressMetrics 1 1 1 0
  | _ => False
  end.
Proof. vm_compute. reflexivity. Qed.
