(* ===== verification/Generic.v ===== *)
(** The config-driven connector (rust/connectors/generic/src): a JSON object or a
    delimited row per frame, mapped to one event. Parsing JSON and formatting
    times are crates'. *)
From Stdlib Require Import ZArith Lia.
From Stdlib Require Import Strings.String.
From S2P Require Export Json Parser.

Local Open Scope Z_scope.

(** @src rust/connectors/generic/src/mapping.rs 9-15 Format *)
Inductive Format := Json | Csv.
(** @src rust/connectors/generic/src/mapping.rs 17-24 TimestampFormat *)
Inductive TimestampFormat := Rfc3339Text | EpochMillis | EpochSeconds.

(** @src rust/connectors/generic/src/mapping.rs 26-56 Mapping *)
Record Mapping := mkMapping {
  format : Format;
  delimiter : string;
  columns : list string;
  entity_type : string;
  timestamp_field : option string;
  timestamp_format : TimestampFormat;
  confidence_field : option string;
  lat_field : option string;
  lon_field : option string;
  alt_field : option string;
  attributes : list (string * string);
  metadata : list (string * string)
}.

(** After TOML's own checks. *)
(** @src rust/connectors/generic/src/mapping.rs 74-77 Mapping::load *)
Definition load (m : Mapping) : option Mapping :=
  match format m, columns m with Csv, [] => None | _, _ => Some m end.

(** @src rust/connectors/generic/src/generic.rs 14-26 GenericError *)
Inductive GenericError := Decode | Missing (field : string) | BadNumber (field : string) | Time | Build (e : BuildError).

(** @src rust/connectors/generic/src/generic.rs 28-32 GenericParser *)
Record GenericParser := mkGeneric { source_id : string; mapping : Mapping; enrichment : Enrichment }.

(** * Splitting a row *)

(** The characters of a text, each with its continuation bytes. *)
Fixpoint characters (l : bytes) : list bytes :=
  match l with
  | [] => []
  | b :: t =>
      match characters t with
      | (c :: cs) :: rest => if cont c then (b :: c :: cs) :: rest else [b] :: (c :: cs) :: rest
      | _ => [[b]]
      end
  end.

(** [str::split] by a text: at each occurrence from the left; by the empty text,
    around every character. *)
Fixpoint split_at (fuel : nat) (d acc l : bytes) : res GenericError (list bytes) :=
  match fuel with
  | O => NoFuel
  | S fuel =>
      match strip_prefix d l, l with
      | Some rest, _ => (λ ps, acc :: ps) <$> split_at fuel d [] rest
      | None, [] => Ok [acc]
      | None, b :: t => split_at fuel d (acc ++ [b]) t
      end
  end.
Definition split_str (d l : bytes) : res GenericError (list bytes) :=
  match d with
  | [] => Ok ([] :: characters l ++ [[]])
  | _ => split_at (S (length l)) d [] l
  end.

(** [i128] and [i64] from their decimal text: a sign, digits, within range. *)
Definition parse_int (w : Z) (l : bytes) : option Z :=
  let '(neg, ds) := match l with 45 :: ds => (true, ds) | 43 :: ds => (false, ds) | _ => (false, l) end in
  match ds with
  | [] => None
  | _ =>
      n ← digits_val 10 0 ds;
      let v := if neg : bool then - n else n in
      if (- 2 ^ (w - 1) <=? v) && (v <? 2 ^ (w - 1)) then Some v else None
  end.

Section generic.
(** JSON text to a value and back, a time in nanoseconds since 1970 as RFC 3339
    if it has one, and whether the build checks arithmetic for overflow. *)
Variable from_str : bytes → option Value.
Variable to_string : Value → string.
Variable rfc3339_of_nanos : Z → option string.
Variable overflow_checks : bool.

(** @src rust/connectors/generic/src/generic.rs 143-152 json_scalar *)
Definition json_scalar (v : Value) : string :=
  match v with
  | Str s => s
  | Null => ""
  | Bool b => if b then "true" else "false"
  | _ => to_string v
  end.

(** [collect] into a map: of a repeated key, the last. *)
Definition collect (l : list (string * string)) : gmap string string := list_to_map (rev l).

(** @src rust/connectors/generic/src/generic.rs 43-67 GenericParser::record *)
Definition record (m : Mapping) (frame : bytes) : res GenericError (gmap string string) :=
  if negb (utf8_valid frame) then Err Decode
  else
    match format m with
    | Json =>
        match from_str (trim frame) with
        | Some (Obj o) => Ok (collect ((λ '(k, v), (k, json_scalar v)) <$> o))
        | _ => Err Decode
        end
    | Csv =>
        parts ← split_str (s2b (delimiter m)) (trim frame);
        Ok (collect (zip (columns m) ((λ p, b2s (trim p)) <$> parts)))
    end.

(** The product of an [i128]: checked, or wrapped around. *)
Definition mul_i128 (a b : Z) : res GenericError Z :=
  if (- 2 ^ 127 <=? a * b) && (a * b <? 2 ^ 127) then Ok (a * b)
  else if overflow_checks then Panic else Ok (to_signed 128 (wrap 128 (a * b))).

(** @src rust/connectors/generic/src/generic.rs 154-173 to_rfc3339 *)
Definition to_rfc3339 (raw : string) (f : TimestampFormat) : res GenericError string :=
  match f with
  | Rfc3339Text => Ok raw
  | EpochMillis =>
      ms ← ok_or Time (parse_int 128 (s2b raw));
      ns ← mul_i128 ms 1000000;
      ok_or Time (rfc3339_of_nanos ns)
  | EpochSeconds =>
      s ← ok_or Time (parse_int 64 (s2b raw));
      ok_or Time (rfc3339_of_nanos (s * 10 ^ 9))
  end.

Definition number (field : string) (raw : string) : res GenericError f64 := ok_or (BadNumber field) (parse_f64 (s2b raw)).

(** [f64::clamp(0.0, 1.0)]: a NaN stays. *)
Definition clamp01 (v : f64) : f64 := if f_ltb v f_zero then f_zero else if f_ltb (f_of_Z 1) v then f_of_Z 1 else v.

(** @src rust/connectors/generic/src/generic.rs 87-105 GenericParser::to_event *)
Definition locate (m : Mapping) (rec : gmap string string) (b : EventBuilder) : res GenericError EventBuilder :=
  match lat_field m, lon_field m with
  | Some latf, Some lonf =>
      match rec !! latf, rec !! lonf with
      | Some la, Some lo =>
          la ← number latf la;
          lo ← number lonf lo;
          alt ← match alt_field m with
                | Some altf => match rec !! altf with Some v => number altf v | None => Ok f_zero end
                | None => Ok f_zero
                end;
          Ok (set_location la lo alt b)
      | _, _ => Ok b
      end
  | _, _ => Ok b
  end.

(** @src rust/connectors/generic/src/generic.rs 107-116 GenericParser::to_event *)
Definition confide (m : Mapping) (rec : gmap string string) (b : EventBuilder) : res GenericError EventBuilder :=
  match confidence_field m with
  | Some field =>
      match rec !! field with
      | Some raw =>
          v ← number field raw;
          let v := if f_ltb (f_of_Z 1) v then f_div v (f_of_Z 100) else v in
          Ok (set_confidence (clamp01 v) b)
      | None => Ok b
      end
  | None => Ok b
  end.

Definition map_fields (add : string → string → EventBuilder → EventBuilder) (fields : list (string * string))
    (rec : gmap string string) (b : EventBuilder) : EventBuilder :=
  fold_left (λ b '(src, key), on_some (rec !! src) (add key) b) fields b.

(** @src rust/connectors/generic/src/generic.rs 69-134 GenericParser::to_event *)
Definition to_event (env : Env) (self : GenericParser) (frame : bytes) : res GenericError Event :=
  let m := mapping self in
  rec ← record m frame;
  let b := set_payload frame (new_id env (builder_new (source_id self) (entity_type m))) in
  b ← match timestamp_field m with
      | Some field =>
          raw ← ok_or (Missing field) (rec !! field);
          ts ← to_rfc3339 raw (timestamp_format m);
          Ok (set_timestamp ts b)
      | None => Ok (now env b)
      end;
  b ← locate m rec b;
  b ← confide m rec b;
  let b := on_some (hostility (enrichment self)) (attribute "hostility") b in
  let b := map_fields attribute (attributes m) rec b in
  let b := map_fields add_metadata (metadata m) rec b in
  map_err Build (build b).

(** @src rust/connectors/generic/src/generic.rs 137-141 GenericParser::parse *)
Definition parse (envs : Envs) (self : GenericParser) (frame : bytes) : GenericParser * res GenericError (list Event) :=
  (self, (λ e, [e]) <$> to_event (envs 0%nat) self frame).

(** * Facts *)

(** The fields of a record a block of the mapping names, under its keys. *)
Definition named_of (fields : list (string * string)) (rec : gmap string string) : list (string * string) :=
  omap (λ '(src, key), (λ v, (key, v)) <$> rec !! src) fields.

Lemma map_fields_attribute fields rec b :
  map_fields attribute fields rec b =
    mkBuilder (Event.source_id b) (Event.entity_type b) (id b) (timestamp b) (location b) (payload b) (policy_tags b) (confidence b)
      (Event.attributes b ++ named_of fields rec) (Event.metadata b) (strict_entity_namespace b).
Proof.
  unfold map_fields, named_of. revert b. induction fields as [|[src key] fields IH]; intros b; cbn [fold_left omap list_omap].
  { rewrite app_nil_r. by destruct b. }
  rewrite IH. destruct (rec !! src) as [v|]; cbn [on_some fmap option_fmap option_map]; [|done]. cbn. by rewrite <- app_assoc.
Qed.

Lemma map_fields_metadata fields rec b :
  map_fields add_metadata fields rec b =
    mkBuilder (Event.source_id b) (Event.entity_type b) (id b) (timestamp b) (location b) (payload b) (policy_tags b) (confidence b)
      (Event.attributes b) (Event.metadata b ++ named_of fields rec) (strict_entity_namespace b).
Proof.
  unfold map_fields, named_of. revert b. induction fields as [|[src key] fields IH]; intros b; cbn [fold_left omap list_omap].
  { rewrite app_nil_r. by destruct b. }
  rewrite IH. destruct (rec !! src) as [v|]; cbn [on_some fmap option_fmap option_map]; [|done]. cbn. by rewrite <- app_assoc.
Qed.

(** The position a record states: both coordinates, and an altitude or zero. *)
Definition position_of (m : Mapping) (rec : gmap string string) : option (string * string * option string) :=
  latf ← lat_field m; lonf ← lon_field m;
  la ← rec !! latf; lo ← rec !! lonf;
  Some (la, lo, alt_field m ≫= λ f, rec !! f).

Lemma number_Ok f raw v : number f raw = Ok v ↔ parse_f64 (s2b raw) = Some v.
Proof. apply ok_or_Ok. Qed.

Lemma locate_Ok m rec b b' :
  locate m rec b = Ok b' →
  match position_of m rec with
  | None => b' = b
  | Some (la, lo, alt) => ∃ x y z, parse_f64 (s2b la) = Some x ∧ parse_f64 (s2b lo) = Some y ∧
      match alt with Some a => parse_f64 (s2b a) = Some z | None => z = f_zero end ∧ b' = set_location x y z b
  end.
Proof.
  unfold locate, position_of. destruct (lat_field m) as [latf|]; [|by intros [= <-]]. destruct (lon_field m) as [lonf|]; [|by intros [= <-]].
  cbn [mbind option_bind]. destruct (rec !! latf) as [la|]; [|by intros [= <-]]. destruct (rec !! lonf) as [lo|]; [|by intros [= <-]].
  cbn [mbind option_bind]. intros H. apply bind_Ok in H as (x & Hx%number_Ok & H). apply bind_Ok in H as (y & Hy%number_Ok & H).
  apply bind_Ok in H as (z & Hz & [= <-]). exists x, y, z. split; [done|]. split; [done|]. split; [|done].
  destruct (alt_field m) as [altf|]; cbn [mbind option_bind]; [|by injection Hz as ->].
  destruct (rec !! altf); [by apply number_Ok in Hz|by injection Hz as ->].
Qed.

Lemma confide_Ok m rec b b' : confide m rec b = Ok b' → ∃ c, b' = set_confidence c b.
Proof.
  unfold confide. destruct (confidence_field m) as [f|]; [destruct (rec !! f) as [raw|]|].
  - intros H. apply bind_Ok in H as (v & _ & [= <-]). by eexists.
  - intros [= <-]. exists (confidence b). by destruct b.
  - intros [= <-]. exists (confidence b). by destruct b.
Qed.

Lemma split_at_on d l : ∀ fuel acc, (length l < fuel)%nat →
  split_at fuel [d] acc l = Ok (match split_on d l with f :: fs => (acc ++ f) :: fs | [] => [] end).
Proof.
  induction l as [|b l IH]; intros [|fuel] acc Hf; try (cbn in Hf; lia); cbn [split_at strip_prefix split_on].
  { by rewrite app_nil_r. }
  destruct (Z.eqb_spec d b) as [->|Hne].
  - rewrite Z.eqb_refl, IH by (cbn in Hf; lia). pose proof (split_on_ne b l). destruct (split_on b l) as [|f fs]; [done|]. cbn.
    by rewrite app_nil_r.
  - rewrite (proj2 (Z.eqb_neq b d)), IH by (done || cbn in Hf; lia). destruct (split_on d l) as [|f fs] eqn:E; [by apply split_on_ne in E|].
    by rewrite <- app_assoc.
Qed.

(** Values joined by the delimiter. *)
Fixpoint join (d : Z) (vs : list bytes) : bytes :=
  match vs with
  | [] => []
  | [v] => v
  | v :: vs => v ++ d :: join d vs
  end.


Lemma split_on_join d vs : vs ≠ [] → Forall (Forall (λ b, b ≠ d)) vs → split_on d (join d vs) = vs.
Proof.
  intros Hne Hvs. induction Hvs as [|v vs Hv Hvs IH]; [done|]. destruct vs as [|w vs]; [by apply split_on_id|].
  change (join d (v :: w :: vs)) with (v ++ d :: join d (w :: vs)). rewrite split_on_app by done. by rewrite IH.
Qed.

Lemma collect_lookup l k v : NoDup l.*1 → (k, v) ∈ l → collect l !! k = Some v.
Proof.
  intros Hn Hin. unfold collect. apply elem_of_list_to_map_1.
  - assert (rev l ≡ₚ l) as -> by (symmetry; apply Permutation_rev). done.
  - assert (rev l ≡ₚ l) as -> by (symmetry; apply Permutation_rev). done.
Qed.

Lemma collect_None l k : k ∉ l.*1 → collect l !! k = None.
Proof.
  intros Hn. apply not_elem_of_list_to_map_1. assert (rev l ≡ₚ l) as -> by (symmetry; apply Permutation_rev). done.
Qed.

(** * Properties *)

(** the event of a record carries the frame, the mapping's type and exactly
    what the mapping names: each attribute and metadata entry whose field the
    record has, under its key, with the operator's hostility; a position only with
    both coordinates, each the number its text states; and the time the timestamp
    field states, or that of receipt. *)
Theorem generic_event env self frame e :
  to_event env self frame = Ok e →
  let m := mapping self in
  ∃ rec, record m frame = Ok rec ∧
    ev_payload e = frame ∧ ev_source_id e = source_id self ∧ ev_entity_type e = entity_type m ∧
    ev_attributes e ≡ₚ to_attrs (match hostility (enrichment self) with Some h => [("hostility"%string, h)] | None => [] end ++ named_of (attributes m) rec) ∧
    ev_metadata e ≡ₚ to_attrs (named_of (metadata m) rec) ∧
    match position_of m rec with
    | None => ev_location e = None
    | Some (la, lo, alt) => ∃ x y z, ev_location e = Some (mkGeoPoint x y z) ∧ parse_f64 (s2b la) = Some x ∧ parse_f64 (s2b lo) = Some y ∧
        match alt with Some a => parse_f64 (s2b a) = Some z | None => z = f_zero end
    end ∧
    match timestamp_field m with
    | None => ev_timestamp e = env_now env
    | Some f => ∃ raw, rec !! f = Some raw ∧ to_rfc3339 raw (timestamp_format m) = Ok (ev_timestamp e)
    end.
Proof.
  unfold to_event. cbv zeta. intros H. set (m := mapping self) in *. apply bind_Ok in H as (rec & Hrec & H).
  apply bind_Ok in H as (b1 & Hts & H). apply bind_Ok in H as (b2 & Hloc & H). apply bind_Ok in H as (b3 & Hc & H).
  destruct (build _) as [e'| | |] eqn:Hb; try done. injection H as ->. apply build_Ok in Hb as (i & ts & Hv & ->).
  exists rec. split; [done|].
  apply locate_Ok in Hloc. apply confide_Ok in Hc as [c ->].
  set (b0 := set_payload frame (new_id env (builder_new (source_id self) (entity_type m)))) in *.
  assert (∃ ts1, b1 = set_timestamp ts1 b0 ∧ match timestamp_field m with
    | None => ts1 = env_now env
    | Some f => ∃ raw, rec !! f = Some raw ∧ to_rfc3339 raw (timestamp_format m) = Ok ts1 end) as (ts1 & -> & Hts1).
  { destruct (timestamp_field m) as [f|]; [|by injection Hts as <-; eexists]. apply bind_Ok in Hts as (raw & Hraw%ok_or_Ok & Hts).
    apply bind_Ok in Hts as (t & Ht & [= <-]). eexists. split; [done|]. by exists raw. }
  pose proof (bv_ts _ _ _ Hv) as Hbt. rewrite map_fields_metadata, map_fields_attribute in Hbt |- *.
  assert (∃ loc, b2 = mkBuilder (Event.source_id b0) (Event.entity_type b0) (id b0) (Some ts1) loc (payload b0) (policy_tags b0) (confidence b0)
    (Event.attributes b0) (Event.metadata b0) (strict_entity_namespace b0) ∧
    match position_of m rec with None => loc = None | Some (la, lo, alt) => ∃ x y z, loc = Some (mkGeoPoint x y z) ∧ parse_f64 (s2b la) = Some x ∧ parse_f64 (s2b lo) = Some y ∧
        match alt with Some a => parse_f64 (s2b a) = Some z | None => z = f_zero end end) as (loc & -> & Hl).
  { destruct (position_of m rec) as [[[la lo] alt]|]; [|by subst b2; exists None].
    destruct Hloc as (x & y & z & H1 & H2 & H3 & ->). eexists. split; [done|]. by exists x, y, z. }
  unfold built.
  destruct (hostility (enrichment self)) as [h|]; cbn [on_some attribute set_confidence Event.source_id Event.entity_type id timestamp location payload
    policy_tags confidence Event.attributes Event.metadata strict_entity_namespace ev_payload ev_source_id ev_entity_type ev_attributes ev_metadata ev_location ev_timestamp] in Hbt |- *;
    injection Hbt as <-; (split; [done|]); (split; [done|]); (split; [done|]); (split; [unfold to_attrs; by rewrite sort_keys_perm|]);
    (split; [unfold to_attrs; by rewrite sort_keys_perm|]); by split.
Qed.

(** a row of values joined by the delimiter is the record of its columns, each
    named by its position; columns past the last value are absent. *)
Theorem csv_row m d vs :
  format m = Csv → s2b (delimiter m) = [d] → NoDup (columns m) → vs ≠ [] →
  Forall (λ v, Forall (λ b, b ≠ d) (s2b v) ∧ trim (s2b v) = s2b v) vs →
  utf8_valid (join d (s2b <$> vs)) = true → trim (join d (s2b <$> vs)) = join d (s2b <$> vs) →
  ∃ rec, record m (join d (s2b <$> vs)) = Ok rec ∧
    ∀ i c, columns m !! i = Some c → rec !! c = vs !! i.
Proof.
  intros Hf Hd Hn Hne Hvs Hu Ht. unfold record. rewrite Hu, Hf, Hd, Ht. cbn [negb split_str].
  rewrite split_at_on by lia. rewrite split_on_join.
  2: { by destruct vs. }
  2: { clear -Hvs. induction Hvs as [|v vs [Hv _] Hvs IH]; constructor; done. }
  assert (match s2b <$> vs with f :: fs => ([] ++ f) :: fs | [] => [] end = s2b <$> vs) as -> by by destruct vs.
  cbn [mbind res_bind].
  assert ((λ p, b2s (trim p)) <$> (s2b <$> vs) = vs) as ->.
  { rewrite <- list_fmap_compose. clear -Hvs.
    induction Hvs as [|v vs [_ Hv] Hvs IH]; [done|]. cbn [fmap list_fmap]. rewrite IH. unfold compose. by rewrite Hv, b2s_s2b. }
  eexists. split; [done|].
  intros i c Hc. destruct (vs !! i) as [v|] eqn:Hi.
  - apply collect_lookup.
    + clear -Hn. revert vs. induction (columns m) as [|c l IH]; intros [|v vs]; cbn; try apply NoDup_nil_2. apply NoDup_cons in Hn as [Hc Hn].
      apply NoDup_cons. split; [|by apply IH]. intros Hin. apply Hc. apply list_elem_of_fmap in Hin as ([k w] & -> & Hin). by apply elem_of_zip_l in Hin.
    + apply list_elem_of_lookup. exists i. rewrite lookup_zip_with, Hc. cbn. by rewrite Hi.
  - apply collect_None. intros Hin. apply list_elem_of_fmap in Hin as ([k w] & -> & Hin). apply list_elem_of_lookup in Hin as [j Hj].
    apply lookup_zip_with_Some in Hj as (k' & w' & [= -> ->] & Hj1 & Hj2). cbn [fst] in Hc.
    rewrite (NoDup_lookup _ _ _ _ Hn Hj1 Hc) in Hj2. congruence.
Qed.
End generic.

(** a count of milliseconds too large for the product is not refused: built
    with overflow checks the connector panics, and without, as a release is, the
    product wraps and 2^122 ms is read as the beginning of 1970. *)
Theorem epoch_millis_wraps rfc3339_of_nanos ts :
  rfc3339_of_nanos 0 = Some ts →
  to_rfc3339 rfc3339_of_nanos true "5316911983139663491615228241121378304" EpochMillis = Panic ∧
  to_rfc3339 rfc3339_of_nanos false "5316911983139663491615228241121378304" EpochMillis = Ok ts.
Proof.
  intros H. split; [vm_compute; reflexivity|]. unfold to_rfc3339.
  assert (parse_int 128 (s2b "5316911983139663491615228241121378304") = Some (2 ^ 122)) as -> by (vm_compute; reflexivity).
  cbn [ok_or mbind res_bind]. assert (mul_i128 false (2 ^ 122) 1000000 = Ok 0) as -> by (vm_compute; reflexivity). cbn [mbind res_bind].
  by rewrite H.
Qed.

(** Without overflow checks, the parser keeps the interface. *)
#[export] Instance generic_parser from_str to_string rfc3339_of_nanos : FrameParser := {|
  fp_state := GenericParser; fp_error := GenericError; fp_parse := parse from_str to_string rfc3339_of_nanos false
|}.

Lemma strip_prefix_length d l rest : strip_prefix d l = Some rest → length l = (length d + length rest)%nat.
Proof.
  revert l. induction d as [|a d IH]; intros l H; [by injection H as ->|]. destruct l as [|b l]; [done|]. cbn in H.
  destruct (a =? b); [|done]. cbn. by rewrite (IH l H).
Qed.

Lemma split_at_returns d fuel : d ≠ [] → ∀ acc l, (length l < fuel)%nat → ∃ ps, split_at fuel d acc l = Ok ps.
Proof.
  intros Hd. induction fuel as [|fuel IH]; intros acc l Hf; [lia|]. cbn [split_at].
  destruct (strip_prefix d l) as [rest|] eqn:Hs.
  - apply strip_prefix_length in Hs. destruct d as [|x d]; [done|]. cbn in Hs. destruct (IH [] rest) as [ps ->]; [lia|]. by eexists.
  - destruct l as [|b t]; [by eexists|]. apply IH. cbn in Hf. lia.
Qed.

Lemma split_str_returns d l : ∃ ps, split_str d l = Ok ps.
Proof. unfold split_str. destruct d; [by eexists|]. apply split_at_returns; [done|lia]. Qed.

Section laws.
Context (from_str : bytes → option Value) (to_string : Value → string) (rfc3339_of_nanos : Z → option string).

Lemma record_safe m frame : safe (record from_str to_string m frame).
Proof.
  unfold record. destruct (negb _); [exact I|]. destruct (format m); [by destruct (from_str _) as [[]|]|].
  by destruct (split_str_returns (s2b (delimiter m)) (trim frame)) as [ps ->].
Qed.

Lemma to_rfc3339_safe raw f : safe (to_rfc3339 rfc3339_of_nanos false raw f).
Proof. unfold to_rfc3339, mul_i128. destruct f; safe_tac. Qed.

Lemma number_safe f raw : safe (number f raw).
Proof. apply safe_ok_or. Qed.

Lemma locate_safe m rec b : safe (locate m rec b).
Proof.
  unfold locate. destruct (lat_field m), (lon_field m); try exact I. destruct (rec !! _); [|exact I]. destruct (rec !! _); [|exact I].
  apply safe_bind; [apply number_safe|]. intros x _. apply safe_bind; [apply number_safe|]. intros y _. apply safe_bind; [|by intros].
  destruct (alt_field m); [|exact I]. destruct (rec !! _); [apply number_safe|exact I].
Qed.

Lemma confide_safe m rec b : safe (confide m rec b).
Proof.
  unfold confide. destruct (confidence_field m); [|exact I]. destruct (rec !! _); [|exact I]. apply safe_bind; [apply number_safe|by intros].
Qed.

Lemma to_event_safe env self frame : safe (to_event from_str to_string rfc3339_of_nanos false env self frame).
Proof.
  unfold to_event. apply safe_bind; [apply record_safe|]. intros rec _. apply safe_bind.
  - destruct (timestamp_field (mapping self)); [|exact I]. apply safe_bind; [apply safe_ok_or|]. intros raw _.
    apply safe_bind; [apply to_rfc3339_safe|by intros].
  - intros b1 _. apply safe_bind; [apply locate_safe|]. intros b2 _. apply safe_bind; [apply confide_safe|]. intros b3 _. apply safe_build.
Qed.

Lemma to_event_canonical env self frame e : to_event from_str to_string rfc3339_of_nanos false env self frame = Ok e → Canonical e.
Proof.
  unfold to_event. intros H. apply bind_Ok in H as (rec & _ & H). apply bind_Ok in H as (b1 & _ & H). apply bind_Ok in H as (b2 & _ & H).
  apply bind_Ok in H as (b3 & _ & H). by eapply build_all_canonical.
Qed.

#[export] Instance generic_laws : FrameParserLaws (generic_parser from_str to_string rfc3339_of_nanos).
Proof.
  refine {| fp_inv := (λ _, True) : @fp_state (generic_parser from_str to_string rfc3339_of_nanos) → Prop |}; intros envs s frame; cbn [fp_parse generic_parser].
  - intros _ _. split; [|done]. unfold parse. cbn [snd]. pose proof (to_event_safe (envs 0%nat) s frame) as H. by destruct (to_event _ _ _ _ _ _ _).
  - intros es _ _. unfold parse. cbn [snd]. pose proof (to_event_canonical (envs 0%nat) s frame) as H. destruct (to_event _ _ _ _ _ _ _) as [e| | |]; try done.
    intros [= <-]. constructor; [by apply H|done].
Defined.
End laws.

(** * Witnesses *)

Definition ex_mapping : Mapping :=
  mkMapping Csv "," ["id"; "lat"; "lon"; "speed"; "conf"] "mim:aircraft" None Rfc3339Text (Some "conf") (Some "lat") (Some "lon") None
    [("speed", "speed")] [("id", "source_uid")]%string.
Definition ex_generic : GenericParser := mkGeneric "sensor-1" ex_mapping (mkEnrichment (Some "HOSTILE"%string)).
Definition ex_generic_env : Env := mkEnv "id-1" "2026-06-10T08:00:00Z" 0.
Definition ex_row : list string := ["T-7"; "25.5"; "51"; "4.2"; "87"]%string.
Definition ex_to_event := to_event (λ _, None) (λ _, ""%string) (λ _, None) false ex_generic_env ex_generic (join 44 (s2b <$> ex_row)).

Lemma generic_event_witness :
  ∃ e, ex_to_event = Ok e ∧ ev_payload e = join 44 (s2b <$> ex_row) ∧ is_Some (ev_location e).
Proof.
  destruct ex_to_event as [e| | |] eqn:H; [|by vm_compute in H..]. exists e. split; [done|].
  destruct (generic_event (λ _, None) (λ _, ""%string) (λ _, None) false ex_generic_env ex_generic (join 44 (s2b <$> ex_row)) e H)
    as (rec & Hr & Hp & _ & _ & _ & _ & Hl & _). split; [exact Hp|].
  assert (rec = collect (zip (columns ex_mapping) ex_row)) as -> by (injection Hr as <-; vm_compute; reflexivity).
  destruct Hl as (x & y & z & -> & _). by eexists.
Defined.

Lemma csv_row_witness :
  ∃ rec, record (λ _, None) (λ _, ""%string) ex_mapping (join 44 (s2b <$> ex_row)) = Ok rec ∧ rec !! "speed"%string = Some "4.2"%string.
Proof.
  destruct (csv_row (λ _, None) (λ _, ""%string) ex_mapping 44 ex_row) as (rec & H & Hrec).
  - reflexivity.
  - reflexivity.
  - apply (bool_decide_eq_true_1 (NoDup (columns ex_mapping))). vm_compute. reflexivity.
  - done.
  - repeat constructor; vm_compute; try discriminate.
  - reflexivity.
  - reflexivity.
  - exists rec. split; [exact H|]. apply (Hrec 3%nat "speed"%string). reflexivity.
Defined.

Lemma epoch_millis_wraps_witness :
  to_rfc3339 (λ _, Some "1970-01-01T00:00:00Z"%string) false "5316911983139663491615228241121378304" EpochMillis = Ok "1970-01-01T00:00:00Z"%string.
Proof. exact (proj2 (epoch_millis_wraps (λ _, Some "1970-01-01T00:00:00Z"%string) "1970-01-01T00:00:00Z"%string eq_refl)). Defined.
