(* ===== verification/Relay.v ===== *)
(** The bounded store-and-forward buffer of the egress connectors
    (rust/connectors/sapient-egress/src/lib.rs, and the same in
    rust/connectors/tak-egress/src/lib.rs), over any link that sends one message at
    a time. *)
From Stdlib Require Import ZArith Lia.
From S2P Require Export Prelude.

Local Open Scope Z_scope.

(** A link: its state, what the network does in one call, what it leaves on the
    wire, and a call to send, which says whether the message went out. *)
Class Link (M : Type) := {
  link : Type;
  net : Type;
  act : Type;
  send : link → net → M → link * list act * bool
}.

Section relay.
Context {M : Type}.

(** The counters of the buffer. *)
(** @src rust/connectors/sapient-egress/src/lib.rs 47-52 Relay *)
Record Relay := mkRelay { buffer : list M; max : Z; delivered : Z; gap_dropped : Z }.

(** @src rust/connectors/sapient-egress/src/lib.rs 55-61 Relay::new *)
Definition relay_new (n : Z) : Relay := mkRelay [] (Z.max n 1) 0 0.

(** @src rust/connectors/sapient-egress/src/lib.rs 63-73 Relay::push *)
Definition push (m : M) (self : Relay) : Relay :=
  if max self <=? zlen (buffer self)
  then mkRelay (tail (buffer self) ++ [m]) (max self) (delivered self) (fetch_add (gap_dropped self) 1)
  else mkRelay (buffer self ++ [m]) (max self) (delivered self) (gap_dropped self).

Context `{L : Link M}.

(** The [while let] loop, [n] messages sent so far. *)
Fixpoint drain_loop (buf : list M) (nets : nat → net) (n : nat) (l : link) : link * list act * list M * nat :=
  match buf with
  | [] => (l, [], [], n)
  | front :: rest =>
      let '(l, acts, ok) := send l (nets n) front in
      if ok then let '(l, acts', rem, n) := drain_loop rest nets (S n) l in (l, acts ++ acts', rem, n)
      else (l, acts, buf, n)
  end.

(** @src rust/connectors/sapient-egress/src/lib.rs 83-98 Relay::drain *)
Definition drain (self : Relay) (nets : nat → net) (l : link) : Relay * link * list act :=
  let '(l, acts, rem, n) := drain_loop (buffer self) nets 0 l in
  (mkRelay rem (max self) (wrap 64 (delivered self + Z.of_nat n)) (gap_dropped self), l, acts).

(** * The buffer is a queue *)

(** What leaves it, in order. *)
Inductive Out := Delivered (m : M) | Dropped (m : M).
Definition out_msg (o : Out) : M := match o with Delivered m | Dropped m => m end.

Definition relay_ok (self : Relay) : Prop := 1 ≤ max self ∧ zlen (buffer self) ≤ max self.

Lemma relay_new_ok n : relay_ok (relay_new n).
Proof. unfold relay_ok, relay_new. cbn [max buffer]. rewrite zlen_nil. lia. Qed.

(** A push adds at the end and, when full, drops the oldest. *)
Definition push_out (m : M) (self : Relay) : list Out :=
  if max self <=? zlen (buffer self) then match buffer self with old :: _ => [Dropped old] | [] => [] end else [].

Lemma push_spec m self :
  relay_ok self →
  relay_ok (push m self) ∧ (out_msg <$> push_out m self) ++ buffer (push m self) = buffer self ++ [m]
  ∧ gap_dropped (push m self) = match push_out m self with [] => gap_dropped self | _ => fetch_add (gap_dropped self) 1 end
  ∧ delivered (push m self) = delivered self ∧ max (push m self) = max self
  ∧ (zlen (buffer self) < max self → push_out m self = []).
Proof.
  intros [H1 H2]. unfold push, push_out. destruct (Z.leb_spec (max self) (zlen (buffer self))) as [Hf|Hf].
  - destruct (buffer self) as [|old rest] eqn:E; [rewrite zlen_nil in *; lia|]. cbn [tail buffer max gap_dropped delivered fmap list_fmap out_msg app].
    split; [|split; [done|split; [done|split; [done|split; [done|lia]]]]].
    split; cbn [max buffer]; [done|]. rewrite zlen_app, zlen_cons, zlen_nil. rewrite zlen_cons in *. lia.
  - cbn [buffer max gap_dropped delivered fmap list_fmap app]. split; [|by split_and!].
    split; cbn [max buffer]; [done|]. rewrite zlen_app, zlen_cons, zlen_nil. lia.
Qed.

(** * The wire *)

(** What the outs were: sent, or lost to make room. *)
Definition sent_of (outs : list Out) : list M := omap (λ o, match o with Delivered m => Some m | Dropped _ => None end) outs.
Definition lost_of (outs : list Out) : list M := omap (λ o, match o with Dropped m => Some m | Delivered _ => None end) outs.

Lemma sent_delivered (ms : list M) : sent_of (Delivered <$> ms) = ms ∧ lost_of (Delivered <$> ms) = [] ∧ out_msg <$> (Delivered <$> ms) = ms.
Proof. induction ms as [|m ms (H1 & H2 & H3)]; [done|]. split_and!; [cbn; f_equal; exact H1|exact H2|cbn; f_equal; exact H3]. Qed.

Lemma sent_push_out m self : sent_of (push_out m self) = [].
Proof. unfold push_out. destruct (_ <=? _); [|done]. by destruct (buffer self). Qed.
End relay.
Arguments Relay : clear implicits.
Arguments Out : clear implicits.

(** What a link promises to the buffer: on the messages the buffer holds, a call
    goes along the protocol of the connection, with the message on the wire exactly
    when the call says so. *)
Class LinkLaws {M : Type} (L : Link M) := {
  sendable : M → Prop;
  goes : link → list act → list M → link → Prop;
  goes_refl l : goes l [] [] l;
  goes_trans a ws rs b ws' rs' c : goes a ws rs b → goes b ws' rs' c → goes a (ws ++ ws') (rs ++ rs') c;
  send_goes l n m : sendable m → let '(l', acts, ok) := send l n m in goes l acts (if ok then [m] else []) l'
}.

Section relays.
Context {M : Type} {L : Link M} {LL : LinkLaws L}.

Definition queue_ok (self : Relay M) : Prop :=
  relay_ok self ∧ Forall sendable (buffer self) ∧ 0 ≤ delivered self < 2 ^ 64 ∧ 0 ≤ gap_dropped self < 2 ^ 64.

Lemma queue_new_ok n : queue_ok (relay_new n).
Proof. split; [apply relay_new_ok|]. by split; [constructor|]. Qed.

(** A step of a loop over the buffer and its link, with [acts] on the wire, puts
    [ins] in the buffer and takes [outs] from it. *)
Record relays (s : Relay M) (l : link) (acts : list act) (ins : list M) (outs : list (Out M)) (s' : Relay M) (l' : link) : Prop := {
  rel_ok : queue_ok s';
  rel_queue : (out_msg <$> outs) ++ buffer s' = buffer s ++ ins;
  rel_goes : goes l acts (sent_of outs) l';
  rel_delivered : delivered s' = wrap 64 (delivered s + zlen (sent_of outs));
  rel_dropped : gap_dropped s' = wrap 64 (gap_dropped s + zlen (lost_of outs));
  rel_max : max s' = max s
}.

(** A call on the link alone. *)
Lemma relays_link s l acts l' : queue_ok s → goes l acts [] l' → relays s l acts [] [] s l'.
Proof. intros H. pose proof H as (_ & _ & H1 & H2). split; try done; [by rewrite app_nil_r|..]; cbn; by rewrite zlen_nil, Z.add_0_r, wrap_small. Qed.

Lemma relays_refl s l : queue_ok s → relays s l [] [] [] s l.
Proof. intros H. apply relays_link; [done|apply goes_refl]. Qed.

Lemma relays_trans a l ws ins outs b l' ws' ins' outs' c l'' :
  relays a l ws ins outs b l' → relays b l' ws' ins' outs' c l'' → relays a l (ws ++ ws') (ins ++ ins') (outs ++ outs') c l''.
Proof.
  intros [H1 H2 H3 H4 H5 H6] [K1 K2 K3 K4 K5 K6]. split; [done|..].
  - rewrite fmap_app, <- app_assoc, K2, app_assoc, H2. by rewrite app_assoc.
  - unfold sent_of in *. rewrite omap_app. by eapply goes_trans.
  - unfold sent_of in *. rewrite K4, H4, omap_app, zlen_app. unfold wrap. rewrite Z.add_mod_idemp_l by done. f_equal. lia.
  - unfold lost_of in *. rewrite K5, H5, omap_app, zlen_app. unfold wrap. rewrite Z.add_mod_idemp_l by done. f_equal. lia.
  - by rewrite K6.
Qed.

Lemma drain_loop_goes nets : ∀ buf n l,
  Forall sendable buf →
  let '(l', acts, rem, n') := drain_loop buf nets n l in
  ∃ sent, buf = sent ++ rem ∧ n' = (n + length sent)%nat ∧ goes l acts sent l'.
Proof.
  induction buf as [|m buf IH]; intros n l Hb; cbn [drain_loop]; [exists []; split; [done|split; [cbn; lia|apply goes_refl]]|].
  inversion Hb as [|? ? Hm Hb']; subst. pose proof (send_goes l (nets n) m Hm) as H. destruct (send l (nets n) m) as [[l1 acts] [|]].
  - specialize (IH (S n) l1 Hb'). destruct (drain_loop buf nets (S n) l1) as [[[l2 acts'] rem] n']. destruct IH as (sent & -> & -> & Hf).
    exists (m :: sent). split; [done|]. split; [cbn; lia|]. by apply (goes_trans l acts [m] l1).
  - exists []. split; [done|]. by split; [cbn; lia|].
Qed.

Lemma drain_relays s nets l :
  queue_ok s → let '(s', l', acts) := drain s nets l in ∃ outs, relays s l acts [] outs s' l' ∧ lost_of outs = [].
Proof.
  intros ((Hr1 & Hr2) & Hs & Hd & Hg). unfold drain. pose proof (drain_loop_goes nets (buffer s) 0 l Hs) as Hf.
  destruct (drain_loop _ _ _ _) as [[[l' acts] rem] n]. destruct Hf as (sent & Hb & -> & F).
  destruct (sent_delivered sent) as (E1 & E2 & E3). exists (Delivered <$> sent). split; [|done].
  rewrite Hb in Hr2, Hs. rewrite zlen_app in Hr2. pose proof (zlen_nonneg sent). apply Forall_app in Hs as [_ Hs].
  split; cbn [buffer max delivered gap_dropped]; try done.
  - split; [split; cbn [buffer max]; [done|lia]|]. cbn [buffer delivered gap_dropped]. split; [done|]. split; [apply wrap_range; lia|done].
  - by rewrite E3, app_nil_r.
  - by rewrite E1.
  - by rewrite E1.
  - by rewrite E2, zlen_nil, Z.add_0_r, wrap_small.
Qed.

Lemma push_relays s m l : queue_ok s → sendable m → relays s l [] [m] (push_out m s) (push m s) l.
Proof.
  intros (H1 & H2 & H3 & H4) Hm. destruct (push_spec m s H1) as (P1 & P2 & P3 & P4 & P5 & _).
  assert (gap_dropped (push m s) = wrap 64 (gap_dropped s + zlen (lost_of (push_out m s)))) as Eg.
  { rewrite P3. unfold push_out. destruct (_ <=? _); [destruct (buffer s)|]; cbn; rewrite ?Z.add_0_r, ?wrap_small by done; done. }
  split; try done.
  - split; [done|]. split; [|split; [by rewrite P4|rewrite Eg; apply wrap_range; lia]].
    assert (Forall sendable (buffer s ++ [m])) as Hall by (apply Forall_app; split; [done|by constructor; [|constructor]]).
    rewrite <- P2 in Hall. by apply Forall_app in Hall as [_ Hall].
  - rewrite sent_push_out. apply goes_refl.
  - by rewrite sent_push_out, P4, zlen_nil, Z.add_0_r, wrap_small.
Qed.
End relays.
