(* ===== verification/SapientReport.v ===== *)
(** What the SAPIENT egress says (rust/connectors/sapient-egress/src/report.rs): its
    registration, status reports and task refusals, and a detection report per
    governed event. *)
From Stdlib Require Import ZArith Lia.
From Stdlib Require Import Strings.String.
From S2P Require Export SapientMsg Json Ulid.
From S2P Require Sapient.

Local Open Scope Z_scope.

(** @src rust/connectors/sapient-egress/src/config.rs 51-58 Site *)
Record Site := mkSite { lat : f64; lon : f64; alt_m : f64 }.

(** @src rust/connectors/sapient-egress/src/report.rs 15-22 Node *)
Record Node := mkNode {
  node_id : string;
  name : string;
  short_name : string;
  status_interval_s : f64;
  location : option Site
}.

(** [x as f32], as the binary64 value it widens to: to nearest, ties to even. *)
Definition as_f32 (x : f64) : f64 :=
  match x with
  | S754_finite s m e =>
      match binary_normalize 24 128 (cond_Zopp s (Zpos m)) e s with
      | S754_finite s m e => binary_normalize prec64 emax64 (cond_Zopp s (Zpos m)) e s
      | y => y
      end
  | _ => x
  end.

(** What the clock and the random generator give one call: the time of its
    envelope, and the milliseconds and random bits of each ULID. *)
Record Draw := mkDraw { d_now : Timestamp; d_report : Z * Z; d_object : Z * Z }.

(** [ulid::new], which always yields one. *)
Definition new_ulid (x : Z * Z) : string := match ulid_new x.1 x.2 with Ok s => b2s s | _ => "" end.

Definition NODE_TYPE_OTHER : Z := 1.
Definition MODE_TYPE_PERMANENT : Z := 1.
Definition TIME_UNITS_SECONDS : Z := 4.
Definition LOCATION_DATUM_WGS84_E : Z := 1.
Definition SPEED_UNITS_MS : Z := 1.
Definition DETECTION_REPORT_CATEGORY_DETECTION : Z := 1.
Definition CONFIDENCE_SINGLE_CLASS : Z := 1.
Definition REGION_TYPE_AREA_OF_INTEREST : Z := 1.
Definition SYSTEM_OK : Z := 1.
Definition INFO_NEW : Z := 1.
Definition INFO_UNCHANGED : Z := 2.
Definition TASK_STATUS_REJECTED : Z := 2.

Section node.
(** The package's version, from the build. *)
Variable CARGO_PKG_VERSION : string.

(** @src rust/connectors/sapient-egress/src/report.rs 35-43 Node::envelope *)
Definition envelope (self : Node) (now : Timestamp) (content : Content) : SapientMessage :=
  mkMessage (Some now) (Some (node_id self)) None (Some content).

Definition seconds (value : f64) : Duration := mkDuration (Some TIME_UNITS_SECONDS) (Some (as_f32 value)).
Definition latlng : LocationType :=
  mkLocationType (Some (LocationUnits LAT_LNG_DEG_M)) (Some (LocationDatum LOCATION_DATUM_WGS84_E)) None.

(** @src rust/connectors/sapient-egress/src/report.rs 45-136 Node::registration *)
Definition registration (self : Node) (now : Timestamp) : SapientMessage :=
  envelope self now (CRegistration (mkRegistration
    [mkNodeDefinition (Some NODE_TYPE_OTHER) ["Ajar governed relay"%string]]
    (Some Sapient.ICD_VERSION_V2)
    (Some (name self))
    (Some (short_name self))
    [mkCapability (Some "Fusion") (Some "Governed track relay") (Some "Ajar") None]%string
    (Some (mkStatusDefinition (Some (seconds (status_interval_s self))) (Some latlng)))
    [mkModeDefinition (Some "Default"%string) (Some MODE_TYPE_PERMANENT) (Some "Relays governed events as detection reports"%string)
       (Some (seconds f_zero))
       [mkDetectionDefinition (Some latlng)
          (Some (mkVelocityType (Some (mkEnuUnits (Some SPEED_UNITS_MS) (Some SPEED_UNITS_MS))) (Some (LocationDatum LOCATION_DATUM_WGS84_E)) None))
          [mkReportDefinition (Some DETECTION_REPORT_CATEGORY_DETECTION) (Some "detection_confidence"%string) (Some "0-1"%string) None]
          [Some CONFIDENCE_SINGLE_CLASS]]
       (Some (mkTaskDefinition (Some 0) [REGION_TYPE_AREA_OF_INTEREST] [latlng]))]
    [mkConfigurationData "Ajar" "ajar-sapient-egress" None (Some CARGO_PKG_VERSION)])).

(** @src rust/connectors/sapient-egress/src/report.rs 138-161 Node::status *)
Definition status (self : Node) (d : Draw) (first : bool) : SapientMessage :=
  let node_location := (λ s, mkLocation (Some (lon s)) (Some (lat s)) (Some (alt_m s)) None None
    (Some LAT_LNG_DEG_M) (Some LOCATION_DATUM_WGS84_E) None) <$> location self in
  envelope self (d_now d) (CStatusReport (mkStatus (Some (new_ulid (d_report d))) (Some SYSTEM_OK)
    (Some (if first then INFO_NEW else INFO_UNCHANGED)) None (Some "Default"%string) None node_location [])).

(** @src rust/connectors/sapient-egress/src/report.rs 163-174 Node::task_rejected *)
Definition task_rejected (self : Node) (now : Timestamp) (task_id : string) (from : option string) : SapientMessage :=
  let m := envelope self now (CTaskAck (mkTaskAck (Some task_id) (Some TASK_STATUS_REJECTED)
    ["this node relays governed events and takes no tasks"%string])) in
  mkMessage (m_timestamp m) (m_node_id m) from (m_content m).
End node.

(** * Detection reports *)

(** @src rust/connectors/sapient-egress/src/report.rs 177-179 MAX_OBJECTS *)
Definition MAX_OBJECTS : Z := 10000.

(** @src rust/connectors/sapient-egress/src/report.rs 181-187 Mapper *)
Record Mapper := mkMapper {
  classification : gmap string string;
  default_classification : string;
  objects : gmap string string;
  order : list string
}.

(** @src rust/connectors/sapient-egress/src/report.rs 189-216 Mapper::new *)
Definition mapper_new (overrides : gmap string string) (default_class : string) : Mapper :=
  mkMapper (overrides ∪ list_to_map
    [("mim:aircraft", "Aircraft"); ("mim:vessel", "Vessel"); ("mim:surface-vessel", "Vessel"); ("mim:subsurface-vessel", "Submarine");
     ("mim:land-vehicle", "Vehicle"); ("mim:person", "Person"); ("mim:unit", "Unit"); ("mim:facility", "Facility");
     ("mim:weapon", "Weapon"); ("mim:sensor", "Sensor"); ("mim:object", "Unknown")]%string)
    default_class ∅ [].

(** @src rust/connectors/sapient-egress/src/report.rs 218-232 Mapper::object_id *)
Definition object_id (self : Mapper) (fresh : string) (key : string) : Mapper * string :=
  match objects self !! key with
  | Some id => (self, id)
  | None =>
      let '(objs, ord) :=
        if MAX_OBJECTS <=? Z.of_nat (size (objects self)) then
          match order self with
          | old :: rest => (delete old (objects self), rest)
          | [] => (objects self, [])
          end
        else (objects self, order self) in
      (mkMapper (classification self) (default_classification self) (<[key := fresh]> objs) (ord ++ [key]), fresh)
  end.

(** @src rust/connectors/sapient-egress/src/report.rs 311-317 info *)
Definition info (kind value : string) : TypedValue := mkTyped (Some kind) (Some value).
(** @src rust/connectors/sapient-egress/src/report.rs 319-325 attribute *)
Definition attribute_of (e : Event) (k : string) : option string := look k ((λ a, (key a, value a)) <$> ev_attributes e).
(** @src rust/connectors/sapient-egress/src/report.rs 327-333 metadata *)
Definition metadata_of (e : Event) (k : string) : option string := look k ((λ a, (key a, value a)) <$> ev_metadata e).
(** @src rust/connectors/sapient-egress/src/report.rs 335-338 number *)
Definition number (s : option string) : option f64 :=
  v ← s ≫= λ s, parse_f64 (trim (s2b s)); if is_finite v then Some v else None.

Section mapper.
Context `{T : Trig}.
(** The time crate's parser. *)
Variable parse_rfc3339 : string → option Timestamp.

(** @src rust/connectors/sapient-egress/src/report.rs 244-260 Mapper::detection *)
Definition velocity (e : Event) : option EnuVelocity :=
  match number (attribute_of e "speed"), number (attribute_of e "course") with
  | Some speed, Some course =>
      if f_leb f_zero speed then
        let c := to_radians course in
        Some (mkEnu (Some (f_mul speed (sin c))) (Some (f_mul speed (cos c))) (number (attribute_of e "vertical_rate")))
      else None
  | _, _ => None
  end.

(** @src rust/connectors/sapient-egress/src/report.rs 262-266 Mapper::detection *)
Definition classify (self : Mapper) (e : Event) : string :=
  match attribute_of e "sapient_classification" with
  | Some c => c
  | None =>
      match attribute_of e "object_class" with
      | Some c => c
      | None => default (default_classification self) (classification self !! ev_entity_type e)
      end
  end.

Definition native_id (e : Event) : string := default (ev_id e) (metadata_of e "source_uid").
Definition track_key (e : Event) : string := (ev_source_id e ++ ":" ++ native_id e)%string.

(** @src rust/connectors/sapient-egress/src/report.rs 267-303 Mapper::detection *)
Definition detection_report (self : Mapper) (e : Event) (loc : GeoPoint) (object : string) (d : Draw) : DetectionReport :=
  let class_confidence := as_f32 <$> (c ← number (attribute_of e "sapient_classification_confidence");
    if in_range f_zero (f_of_Z 1) c then Some c else None) in
  let detection_confidence :=
    if f_ltb f_zero (ev_confidence e) && f_leb (ev_confidence e) (f_of_Z 1) then Some (as_f32 (ev_confidence e)) else None in
  let object_info :=
    [info "Ajar Source" (ev_source_id e); info "Ajar Event" (ev_id e); info "Ajar Type" (ev_entity_type e)]
    ++ match attribute_of e "hostility" with Some h => [info "Hostility" h] | None => [] end in
  mkDetection (Some (new_ulid (d_report d))) (Some object) None None
    (Some (LLocation (mkLocation (Some (longitude loc)) (Some (latitude loc)) (Some (altitude_m loc)) None None
      (Some LAT_LNG_DEG_M) (Some LOCATION_DATUM_WGS84_E) None)))
    detection_confidence [] object_info [mkClass (Some (classify self e)) class_confidence] [] [] []
    (velocity e) None (Some (native_id e)).

(** @src rust/connectors/sapient-egress/src/report.rs 234-308 Mapper::detection *)
Definition detection (self : Mapper) (n : Node) (e : Event) (d : Draw) : Mapper * option SapientMessage :=
  match ev_location e with
  | None => (self, None)
  | Some loc =>
      let '(self, object) := object_id self (new_ulid (d_object d)) (track_key e) in
      let m := envelope n (d_now d) (CDetectionReport (detection_report self e loc object d)) in
      (self, Some (mkMessage (match parse_rfc3339 (ev_timestamp e) with Some t => Some t | None => m_timestamp m end)
        (m_node_id m) (m_destination_id m) (m_content m)))
  end.
End mapper.

(** * Object identifiers *)

(** The identifiers of a sequence of tracks, each with the one drawn in case it is
    new. *)
Fixpoint object_ids (self : Mapper) (l : list (string * string)) : list string :=
  match l with
  | [] => []
  | (key, fresh) :: l => let '(self, id) := object_id self fresh key in id :: object_ids self l
  end.
Definition keys_of (l : list (string * string)) : gset string := list_to_set l.*1.

Lemma look_app_l k (l l' : list (string * string)) v : look k l = Some v → look k (l ++ l') = Some v.
Proof. induction l as [|[j w] l IH]; cbn [app look]; [done|]. by destruct (String.eqb k j). Qed.
Lemma look_app_r k (l l' : list (string * string)) : look k l = None → look k (l ++ l') = look k l'.
Proof. induction l as [|[j w] l IH]; cbn [app look]; [done|]. by destruct (String.eqb k j). Qed.

(** The tracks known are those met, each with the first identifier drawn. *)
Definition knows (self : Mapper) (met : list (string * string)) : Prop :=
  (∀ k, objects self !! k = look k met) ∧ dom (objects self) = keys_of met.

Lemma object_id_knows self met key fresh :
  knows self met → Z.of_nat (size (keys_of (met ++ [(key, fresh)]))) ≤ MAX_OBJECTS →
  let '(self', id) := object_id self fresh key in
  knows self' (met ++ [(key, fresh)]) ∧ look key (met ++ [(key, fresh)]) = Some id.
Proof.
  intros [Hk Hd] Hs. unfold object_id. rewrite Hk. destruct (look key met) as [id|] eqn:Hl.
  - split; [|by apply look_app_l]. split.
    + intros k. rewrite Hk. destruct (look k met) as [v|] eqn:E; [symmetry; by apply look_app_l|]. rewrite look_app_r by done.
      cbn [look]. destruct (String.eqb_spec k key) as [->|]; [congruence|done].
    + rewrite Hd. unfold keys_of. rewrite fmap_app, list_to_set_app_L. cbn [fmap list_fmap fst].
      assert (key ∈ keys_of met) by (rewrite <- Hd; apply elem_of_dom; rewrite Hk, Hl; by eexists). unfold keys_of in *. set_solver.
  - assert (key ∉ keys_of met) as Hn by (rewrite <- Hd; apply not_elem_of_dom; by rewrite Hk).
    assert (keys_of (met ++ [(key, fresh)]) = {[key]} ∪ keys_of met) as E.
    { unfold keys_of. rewrite fmap_app, list_to_set_app_L. cbn [fmap list_fmap fst]. set_solver. }
    rewrite E, size_union, size_singleton, <- Hd, size_dom in Hs by set_solver.
    replace (MAX_OBJECTS <=? _) with false by lia. split.
    + split; cbn [objects].
      * intros k. destruct (decide (k = key)) as [->|Hne].
        { rewrite lookup_insert_eq, look_app_r by done. cbn [look]. by rewrite String.eqb_refl. }
        rewrite lookup_insert_ne, Hk by done. destruct (look k met) as [v|] eqn:E'; [symmetry; by apply look_app_l|].
        rewrite look_app_r by done. cbn [look]. by rewrite (proj2 (String.eqb_neq k key)).
      * by rewrite dom_insert_L, Hd, E.
    + rewrite look_app_r by done. cbn [look]. by rewrite String.eqb_refl.
Qed.

Lemma object_ids_spec l : ∀ self met,
  knows self met → Z.of_nat (size (keys_of (met ++ l))) ≤ MAX_OBJECTS →
  object_ids self l = (λ '(key, _), default ""%string (look key (met ++ l))) <$> l.
Proof.
  induction l as [|[key fresh] l IH]; intros self met Hk Hs; [done|]. cbn [object_ids fmap list_fmap].
  assert (met ++ (key, fresh) :: l = (met ++ [(key, fresh)]) ++ l) as E by by rewrite <- app_assoc. rewrite E in Hs |- *.
  pose proof (object_id_knows self met key fresh Hk) as H. destruct (object_id self fresh key) as [self' id].
  destruct H as [Hk' Hl].
  { etrans; [|exact Hs]. apply inj_le, subseteq_size. unfold keys_of. rewrite !fmap_app, !list_to_set_app_L. set_solver. }
  rewrite (look_app_l _ _ _ _ Hl). cbn [default from_option]. f_equal. by apply IH.
Qed.

(** up to ten thousand tracks, each keeps the identifier drawn when it was
    first reported, whatever is reported between; so its reports are one object to
    the fusion node, and two tracks are two. *)
Theorem object_ids_stable overrides default_class l i j key key' fresh fresh' :
  Z.of_nat (size (keys_of l)) ≤ MAX_OBJECTS → NoDup l.*2 → l !! i = Some (key, fresh) → l !! j = Some (key', fresh') →
  let ids := object_ids (mapper_new overrides default_class) l in
  ids !! i = look key l ∧ (ids !! i = ids !! j ↔ key = key').
Proof.
  intros Hs Hn Hi Hj. cbv zeta. rewrite (object_ids_spec l _ []); [|split; [done|by cbn [objects mapper_new]; rewrite dom_empty_L]|done]. cbn [app].
  rewrite !list_lookup_fmap, Hi, Hj. cbn [fmap option_fmap option_map].
  assert (∀ k f n, l !! n = Some (k, f) → is_Some (look k l)) as Hsome.
  { intros k f n Hl. apply list_elem_of_lookup_2 in Hl. clear -Hl. induction l as [|[j w] l IH]; [by apply elem_of_nil in Hl|]. cbn [look].
    destruct (String.eqb_spec k j); [by eexists|]. apply IH. apply elem_of_cons in Hl as [[= -> ->]|Hl]; [done|done]. }
  assert (∀ k v, look k l = Some v → (k, v) ∈ l) as Hin.
  { intros k v. clear. induction l as [|[j w] l IH]; [done|]. cbn [look]. destruct (String.eqb_spec k j) as [->|]; [intros [= ->]; by left|].
    intros H. right. by apply IH. }
  destruct (Hsome _ _ _ Hi) as [v Hv], (Hsome _ _ _ Hj) as [w Hw]. rewrite Hv, Hw. cbn. split; [done|]. split; [|congruence].
  intros [= <-]. apply Hin, list_elem_of_lookup in Hv as [a Ha]. apply Hin, list_elem_of_lookup in Hw as [b Hb].
  assert (l.*2 !! a = Some v) as H1 by (by rewrite list_lookup_fmap, Ha). assert (l.*2 !! b = Some v) as H2 by (by rewrite list_lookup_fmap, Hb).
  rewrite (NoDup_lookup _ _ _ _ Hn H1 H2) in Ha. congruence.
Qed.

Lemma object_ids_stable_witness :
  object_ids (mapper_new ∅ "Unknown") [("a", "1"); ("b", "2"); ("a", "3")]%string !! 2%nat = Some "1"%string.
Proof.
  refine (proj1 (object_ids_stable ∅ "Unknown" [("a", "1"); ("b", "2"); ("a", "3")]%string 2 0 "a" "a" "3" "1" _ _ eq_refl eq_refl)).
  - vm_compute. discriminate.
  - apply (bool_decide_eq_true_1 (NoDup _)). vm_compute. reflexivity.
Defined.
