(* ===== verification/SapientEgress.v ===== *)
(** The SAPIENT egress (rust/connectors/sapient-egress/src/link.rs and lib.rs): the
    connection to the fusion node, and the loop that relays governed events. *)
From Stdlib Require Import ZArith Lia.
From Stdlib Require Import Strings.String.
From S2P Require Export Egress.
From S2P Require Export SapientReport SapientWire Relay.

Local Open Scope Z_scope.

(** * Configuration *)

(** @src rust/connectors/sapient-egress/src/config.rs 13-49 EgressConfig SapientConfig *)
Record EgressConfig := mkEgressConfig {
  eg_subject : string;
  eg_fusion_node : string;
  eg_status_interval_s : f64;
  eg_location : option Site;
  eg_buffer_max : Z
}.

Inductive EgressConfigError := SubjectNotEgress | NoBuffer | BadInterval | NotHostPort | OffGlobe | BadKey.

(** [key_ok]: the verifying key loads. *)
(** @src rust/connectors/sapient-egress/src/config.rs 90-116 EgressConfig::validate *)
Definition egress_validate (self : EgressConfig) (key_ok : bool) : res EgressConfigError unit :=
  if negb (str_starts EGRESS_PREFIX (eg_subject self)) then Err SubjectNotEgress
  else if eg_buffer_max self =? 0 then Err NoBuffer
  else if negb (is_finite (eg_status_interval_s self) && f_ltb f_zero (eg_status_interval_s self)) then Err BadInterval
  else if negb (has_byte 58 (s2b (eg_fusion_node self))) then Err NotHostPort
  else if match eg_location self with
          | Some site => negb (in_range (f_of_Z (-90)) (f_of_Z 90) (lat site)) || negb (in_range (f_of_Z (-180)) (f_of_Z 180) (lon site))
          | None => false
          end then Err OffGlobe
  else if key_ok then Ok tt else Err BadKey.

(** * The link *)

(** A connection: what is still to arrive on it, and what was read ahead. *)
Record Conn := mkConn { incoming : list Read; held : bytes }.

(** @src rust/connectors/sapient-egress/src/link.rs 23-35 FusionLink *)
Record FusionLink := mkLink {
  node : Node;
  conn : option Conn;
  up : Z;
  reconnects : Z;
  rejected_registrations : Z;
  ever_connected : bool
}.

(** @src rust/connectors/sapient-egress/src/link.rs 38-50 FusionLink::new *)
Definition link_new (n : Node) : FusionLink := mkLink n None 0 0 0 false.
(** @src rust/connectors/sapient-egress/src/link.rs 52-54 FusionLink::connected *)
Definition connected (self : FusionLink) : bool := bool_decide (is_Some (conn self)).

(** What the network does in a call that may connect: whether a connection is
    made in time, what will arrive on it, whether the registration is written, and
    whether its acknowledgement comes in time; and whether the message is written
    then. *)
Record Net := mkNet { connects : bool; arrives : list Read; registers : bool; in_time : bool; writes : bool; n_now : Timestamp }.

(** What is seen on the wire; a connection with the network it was made over. *)
Inductive Wire := Opened (n : Net) | Wrote (m : SapientMessage) | Acked | Shut.

(** @src rust/connectors/sapient-egress/src/link.rs 179-187 FusionLink::drop_connection *)
Definition drop_connection (self : FusionLink) : FusionLink * list Wire :=
  (mkLink (node self) None 0 (reconnects self) (rejected_registrations self) (ever_connected self),
   if connected self then [Shut] else []).

Section egress.
Context `{T : Trig}.
Variable CARGO_PKG_VERSION : string.
Variable parse_rfc3339 : string → option Timestamp.
Variable decode : bytes → option SapientMessage.

(** @src rust/connectors/sapient-egress/src/link.rs 152-159 FusionLink::read_message *)
Definition read_message (c : Conn) : Conn * res ReadError (option SapientMessage) :=
  let '(reads, h, r) := read_frame (incoming c) (held c) in
  (mkConn reads h, decode <$> r).

(** A turn of the loop takes a frame off what is to come, so their bytes bound it. *)
(** @src rust/connectors/sapient-egress/src/link.rs 110-118 FusionLink::await_ack *)
Fixpoint await_ack (fuel : nat) (c : Conn) : Conn * option RegistrationAck :=
  match fuel with
  | O => (c, None)
  | S fuel =>
      match read_message c with
      | (c, Ok (Some m)) => match m_content m with Some (CRegistrationAck a) => (c, Some a) | _ => await_ack fuel c end
      | (c, _) => (c, None)
      end
  end.
Definition ack_fuel (c : Conn) : nat := S (length (held c) + length (concat (read_bytes <$> incoming c))).

(** @src rust/connectors/sapient-egress/src/link.rs 56-108 FusionLink::ensure_registered *)
Definition ensure_registered (self : FusionLink) (n : Net) : FusionLink * list Wire * bool :=
  if connected self then (self, [], true)
  else if negb (connects n) then (self, [], false)
  else
    let c := mkConn (arrives n) [] in
    let self := mkLink (node self) (Some c) (up self) (if ever_connected self then fetch_add (reconnects self) 1 else reconnects self)
      (rejected_registrations self) true in
    let opened := [Opened n] in
    if negb (registers n) then let '(self, shut) := drop_connection self in (self, opened ++ shut, false)
    else
      let wrote := opened ++ [Wrote (registration CARGO_PKG_VERSION (node self) (n_now n))] in
      let '(c, ack) := await_ack (ack_fuel c) c in
      let self := mkLink (node self) (Some c) (up self) (reconnects self) (rejected_registrations self) (ever_connected self) in
      match ack with
      | Some a =>
          if negb (in_time n) then let '(self, shut) := drop_connection self in (self, wrote ++ shut, false)
          else if bool_decide (ra_acceptance a = Some true) then
            (mkLink (node self) (conn self) 1 (reconnects self) (rejected_registrations self) (ever_connected self), wrote ++ [Acked], true)
          else
            let self := mkLink (node self) (conn self) (up self) (reconnects self) (fetch_add (rejected_registrations self) 1) (ever_connected self) in
            let '(self, shut) := drop_connection self in (self, wrote ++ shut, false)
      | None => let '(self, shut) := drop_connection self in (self, wrote ++ shut, false)
      end.

(** @src rust/connectors/sapient-egress/src/link.rs 120-128 FusionLink::send *)
Definition link_send (self : FusionLink) (n : Net) (m : SapientMessage) : FusionLink * list Wire * bool :=
  let '(self, acts, ok) := ensure_registered self n in
  if negb ok then (self, acts, false)
  else if writes n then (self, acts ++ [Wrote m], true)
  else let '(self, shut) := drop_connection self in (self, acts ++ shut, false).

#[export] Instance fusion_link : Link SapientMessage := {| link := FusionLink; net := Net; act := Wire; send := link_send |}.

(** @src rust/connectors/sapient-egress/src/link.rs 140-150 FusionLink::next_inbound *)
Definition next_inbound (self : FusionLink) : FusionLink * list Wire * option SapientMessage :=
  match conn self with
  | None => (self, [], None)
  | Some c =>
      match read_message c with
      | (c, Ok (Some m)) => (mkLink (node self) (Some c) (up self) (reconnects self) (rejected_registrations self) (ever_connected self), [], Some m)
      | _ => let '(self, shut) := drop_connection self in (self, shut, None)
      end
  end.

(** Whether a reply was sent, or the send failed. *)
(** @src rust/connectors/sapient-egress/src/link.rs 161-177 FusionLink::answer *)
Definition answer (self : FusionLink) (n : Net) (m : SapientMessage) : FusionLink * list Wire * option bool :=
  match m_content m with
  | Some (CTask t) =>
      let ack := task_rejected (node self) (n_now n) (default ""%string (t_task_id t)) (m_node_id m) in
      let '(self, acts, ok) := link_send self n ack in
      (self, acts, if ok then Some true else None)
  | _ => (self, [], Some false)
  end.

(** * The loop *)

(** @src rust/connectors/sapient-egress/src/lib.rs 31-45 Metrics *)
Record Metrics := mkMetrics { m_rejected : Z; m_deduped : Z; m_unlocated : Z; m_status_sent : Z; m_tasks_refused : Z }.

(** The loop's state; what the buffer counts is in the buffer. *)
Record Egress := mkEgress {
  e_link : FusionLink;
  e_relay : Relay SapientMessage;
  e_mapper : Mapper;
  e_dedupe : Dedupe;
  e_first_status : bool;
  e_metrics : Metrics
}.

(** What wakes the loop: a message of the bus, the status interval, the fusion
    node, or the retry interval. *)
Inductive Woken := Bus (sealed : bytes) | Tick | Inbound | Retry.

(** What a turn is given: the network at the top, at each send of the drain, and
    in the branch taken; what wakes it; and what the clock and the random generator
    give a report. *)
Record Turn := mkTurn { t_top : Net; t_drain : nat → Net; t_branch : Net; t_woken : Woken; t_draw : Draw }.

Context `{C : Ed25519}.
Variable decode_event : bytes → option Event.
Variable egress_key : vkey.

(** @src rust/connectors/sapient-egress/src/lib.rs 173-196 run *)
Definition on_bus (s : Egress) (sealed : bytes) (d : Draw) : Egress :=
  let m := e_metrics s in
  match accept decode_event sealed egress_key with
  | Ok e =>
      let '(dd, first) := first_time (ev_id e) (e_dedupe s) in
      if negb first then
        mkEgress (e_link s) (e_relay s) (e_mapper s) dd (e_first_status s)
          (mkMetrics (m_rejected m) (fetch_add (m_deduped m) 1) (m_unlocated m) (m_status_sent m) (m_tasks_refused m))
      else
        let '(mapper, report) := detection parse_rfc3339 (e_mapper s) (node (e_link s)) e d in
        match report with
        | Some r => mkEgress (e_link s) (push r (e_relay s)) mapper dd (e_first_status s) m
        | None => mkEgress (e_link s) (e_relay s) mapper dd (e_first_status s)
            (mkMetrics (m_rejected m) (m_deduped m) (fetch_add (m_unlocated m) 1) (m_status_sent m) (m_tasks_refused m))
        end
  | _ => mkEgress (e_link s) (e_relay s) (e_mapper s) (e_dedupe s) (e_first_status s)
      (mkMetrics (fetch_add (m_rejected m) 1) (m_deduped m) (m_unlocated m) (m_status_sent m) (m_tasks_refused m))
  end.

(** @src rust/connectors/sapient-egress/src/lib.rs 197-208 run *)
Definition on_tick (s : Egress) (n : Net) (d : Draw) : Egress * list Wire :=
  if negb (connected (e_link s)) then (s, [])
  else
    let m := e_metrics s in
    let '(l, acts, ok) := link_send (e_link s) n (status (node (e_link s)) d (e_first_status s)) in
    (mkEgress l (e_relay s) (e_mapper s) (e_dedupe s) (if ok then false else e_first_status s)
       (if ok then mkMetrics (m_rejected m) (m_deduped m) (m_unlocated m) (fetch_add (m_status_sent m) 1) (m_tasks_refused m) else m), acts).

(** The branch is open only while connected. *)
(** @src rust/connectors/sapient-egress/src/lib.rs 209-218 run *)
Definition on_inbound (s : Egress) (n : Net) : Egress * list Wire :=
  if negb (connected (e_link s)) then (s, [])
  else
    let m := e_metrics s in
    let '(l, acts, inbound) := next_inbound (e_link s) in
    match inbound with
    | None => (mkEgress l (e_relay s) (e_mapper s) (e_dedupe s) (e_first_status s) m, acts)
    | Some message =>
        let '(l, acts', r) := answer l n message in
        (mkEgress l (e_relay s) (e_mapper s) (e_dedupe s) (e_first_status s)
          (match r with
           | Some true => mkMetrics (m_rejected m) (m_deduped m) (m_unlocated m) (m_status_sent m) (fetch_add (m_tasks_refused m) 1)
           | _ => m
           end), acts ++ acts')
    end.

(** @src rust/connectors/sapient-egress/src/lib.rs 156-165 run *)
Definition on_top (s : Egress) (t : Turn) : Egress * list Wire :=
  let '(l, acts, first) :=
    if connected (e_link s) then (e_link s, [], e_first_status s)
    else let '(l, acts, ok) := ensure_registered (e_link s) (t_top t) in (l, acts, if ok then true else e_first_status s) in
  let '(relay, l, acts') := drain (e_relay s) (t_drain t) l in
  (mkEgress l relay (e_mapper s) (e_dedupe s) first (e_metrics s), acts ++ acts').

(** @src rust/connectors/sapient-egress/src/lib.rs 156-220 run *)
Definition turn (s : Egress) (t : Turn) : Egress * list Wire :=
  let '(s, acts) := on_top s t in
  match t_woken t with
  | Bus sealed => (on_bus s sealed (t_draw t), acts)
  | Tick => let '(s, acts') := on_tick s (t_branch t) (t_draw t) in (s, acts ++ acts')
  | Inbound => let '(s, acts') := on_inbound s (t_branch t) in (s, acts ++ acts')
  | Retry => (s, acts)
  end.

(** @src rust/connectors/sapient-egress/src/lib.rs 101-108 run *)
Definition start (n : Node) (overrides : gmap string string) (default_class : string) (buffer_max : Z) : Egress :=
  mkEgress (link_new n) (relay_new buffer_max) (mapper_new overrides default_class) (dedupe_new 10000) true (mkMetrics 0 0 0 0 0).

Fixpoint turns (s : Egress) (ts : list Turn) : Egress * list Wire :=
  match ts with
  | [] => (s, [])
  | t :: ts => let '(s, acts) := turn s t in let '(s, acts') := turns s ts in (s, acts ++ acts')
  end.

(** * The protocol of a connection *)

Definition is_registration (m : SapientMessage) : bool := match m_content m with Some (CRegistration _) => true | _ => false end.
Definition is_report (m : SapientMessage) : bool := match m_content m with Some (CDetectionReport _) => true | _ => false end.

(** What is heard on a connection before it fails or closes. *)
Fixpoint heard (reads : list Read) : bytes :=
  match reads with
  | Data (b :: chunk) :: reads => (b :: chunk) ++ heard reads
  | _ => []
  end.

(** The bytes begin with whole messages, each its length in four bytes and its
    payload, the last of them the first acknowledgement, [a]. *)
Inductive hears : bytes → RegistrationAck → Prop :=
| hears_ack len payload rest m a :
    zlen len = 4 → length payload = Z.to_nat (le_val len) → decode payload = Some m →
    m_content m = Some (CRegistrationAck a) → hears (len ++ payload ++ rest) a
| hears_other len payload rest m a :
    zlen len = 4 → length payload = Z.to_nat (le_val len) → decode payload = Some m →
    (∀ b, m_content m ≠ Some (CRegistrationAck b)) → hears rest a → hears (len ++ payload ++ rest) a.

(** A connection opens where the network makes one, is registered first, and
    carries anything else only once the fusion node has accepted the registration
    in time: in so many bytes, on that connection. *)
Inductive Phase := Down | Opening (n : Net) | Registering (n : Net) | Registered.
Inductive step : Phase → Wire → Phase → Prop :=
| step_open n : connects n = true → step Down (Opened n) (Opening n)
| step_register n m : is_registration m = true → registers n = true → step (Opening n) (Wrote m) (Registering n)
| step_acked n a :
    in_time n = true → hears (heard (arrives n)) a → ra_acceptance a = Some true → step (Registering n) Acked Registered
| step_message m : is_registration m = false → step Registered (Wrote m) Registered
| step_shut p : p ≠ Down → step p Shut Down.
Inductive steps : Phase → list Wire → Phase → Prop :=
| steps_nil p : steps p [] p
| steps_cons p w p' ws p'' : step p w p' → steps p' ws p'' → steps p (w :: ws) p''.

Lemma steps_app p ws p' ws' p'' : steps p ws p' → steps p' ws' p'' → steps p (ws ++ ws') p''.
Proof. induction 1 as [|p w p' ws p1 Hw Hs IH]; [done|]. intros H. econstructor; [exact Hw|by apply IH]. Qed.

Lemma steps_one p w p' : step p w p' → steps p [w] p'.
Proof. intros. econstructor; [done|constructor]. Qed.

(** A frame read is a length and a payload at the front of what is heard. *)
Lemma read_frame_heard reads : ∀ held reads' held' payload,
  read_frame reads held = (reads', held', Ok payload) →
  ∃ len, held ++ heard reads = len ++ payload ++ held' ++ heard reads' ∧ zlen len = 4 ∧ length payload = Z.to_nat (le_val len).
Proof.
  assert (∀ held m k, unframe held = Ok (m, k) → ∃ len, held = len ++ m ++ drop (Z.to_nat (PREFIX_LEN + zlen m)) held ∧ zlen len = 4 ∧ length m = Z.to_nat (le_val len)) as Hu.
  { intros held m k H. destruct (Z.ltb_spec (zlen held) PREFIX_LEN) as [Hs|Hl]; [by rewrite unframe_short in H|].
    apply prefix_split in Hl as (len & t & -> & Hp). rewrite unframe_long in H by done.
    destruct (MAX_MESSAGE_LEN <? le_val len); [done|]. destruct (Z.ltb_spec (zlen t) (le_val len)); [done|]. injection H as <- <-.
    set (n := Z.to_nat (le_val len)).
    assert (length (take n t) = n) as Hn by (rewrite length_take; unfold n, zlen in *; lia).
    exists len. split; [|done]. rewrite drop_app_ge by (unfold PREFIX_LEN, zlen in *; lia).
    replace (Z.to_nat (PREFIX_LEN + zlen (take n t)) - length len)%nat with n by (unfold PREFIX_LEN, zlen in *; lia).
    by rewrite take_drop. }
  induction reads as [|r reads IH]; intros held reads' held' payload H; cbn [read_frame] in H.
  - destruct (unframe held) as [[m k]|[]| |] eqn:E; try done. injection H as <- <- <-.
    destruct (Hu _ _ _ E) as (len & Hh & ? & ?). exists len. split; [|done]. cbn [heard]. rewrite !app_nil_r. exact Hh.
  - destruct (unframe held) as [[m k]|e| |] eqn:E; try done.
    + injection H as <- <- <-. destruct (Hu _ _ _ E) as (len & Hh & ? & ?). exists len. split; [|done].
      rewrite Hh at 1. by rewrite <- !app_assoc.
    + assert ((match r with Data [] => (r :: reads, held, Err Closed) | Fault => (reads, held, Err Io)
        | Data chunk => read_frame reads (held ++ chunk) end) = (reads', held', Ok payload)) as H' by (by destruct e).
      destruct r as [[|b chunk]|]; try done. destruct (IH _ _ _ _ H') as (len & Hh & ? & ?). exists len. split; [|done].
      cbn [heard]. by rewrite app_assoc.
Qed.

Lemma await_ack_hears fuel : ∀ c c' a, await_ack fuel c = (c', Some a) → hears (held c ++ heard (incoming c)) a.
Proof.
  induction fuel as [|fuel IH]; intros c c' a H; [done|]. cbn [await_ack] in H. unfold read_message in H.
  destruct (read_frame (incoming c) (held c)) as [[reads h] [p| | |]] eqn:E; try done.
  destruct (read_frame_heard _ _ _ _ _ E) as (len & -> & Hl & Hv).
  unfold fmap, res_map in H. destruct (decode p) as [m|] eqn:Hd; [|done].
  destruct (m_content m) as [[]|] eqn:Hm; try (eapply hears_other; [done..|by rewrite Hm|exact (IH _ _ _ H)]).
  injection H as <- <-. by eapply hears_ack.
Qed.

Definition phase (self : FusionLink) : Phase := if connected self then Registered else Down.
Definition reports_on (ws : list Wire) : list SapientMessage :=
  omap (λ w, match w with Wrote m => if is_report m then Some m else None | _ => None end) ws.

Lemma reports_app ws ws' : reports_on (ws ++ ws') = reports_on ws ++ reports_on ws'.
Proof. apply omap_app. Qed.

(** A call keeps the protocol, the gauge, the node, and leaves the reports [rs] on
    the wire. *)
Record follows (self : FusionLink) (acts : list Wire) (rs : list SapientMessage) (self' : FusionLink) : Prop := {
  fol_steps : steps (phase self) acts (phase self');
  fol_up : up self = (if connected self then 1 else 0) → up self' = (if connected self' then 1 else 0);
  fol_reports : reports_on acts = rs;
  fol_node : node self' = node self
}.

Lemma follows_refl self : follows self [] [] self.
Proof. split; try done. constructor. Qed.

Lemma follows_trans a ws rs b ws' rs' c : follows a ws rs b → follows b ws' rs' c → follows a (ws ++ ws') (rs ++ rs') c.
Proof.
  intros [H1 H2 H3 H4] [K1 K2 K3 K4]. split; [by eapply steps_app|auto|by rewrite reports_app, H3, K3|by rewrite K4].
Qed.

Lemma ensure_registered_follows self n :
  let '(self', acts, ok) := ensure_registered self n in
  follows self acts [] self' ∧ (ok = true → connected self' = true).
Proof.
  unfold ensure_registered. destruct (connected self) eqn:Hc; [by split; [apply follows_refl|]|].
  destruct (connects n) eqn:Hn; cbn [negb]; [|by split; [apply follows_refl|]].
  assert (phase self = Down) as Hp by (unfold phase; by rewrite Hc).
  assert (steps Down [Opened n] (Opening n)) as H1 by (by apply steps_one, step_open).
  assert (∀ ws p, steps Down ws p → p ≠ Down → steps Down (ws ++ [Shut]) Down) as Hshut
    by (intros ws p Hs Hd; eapply steps_app; [exact Hs|by apply steps_one, step_shut]).
  set (c := mkConn _ _). destruct (registers n) eqn:Hr; cbn [negb].
  - set (m := registration _ _ _). assert (steps Down [Opened n; Wrote m] (Registering n)) as H2
      by (eapply (steps_app _ [Opened n]); [exact H1|by apply steps_one, step_register]).
    destruct (await_ack _ _) as [c' [a|]] eqn:Ha; [destruct (in_time n) eqn:Ht; cbn [negb]; [case_bool_decide as Hacc|]|];
      cbn [drop_connection node conn up reconnects rejected_registrations ever_connected];
      (split; [|done]); (split; [rewrite Hp|done..]).
    + apply (steps_app _ [Opened n; Wrote m] (Registering n)); [exact H2|]. apply steps_one, (step_acked n a); [done| |done].
      by apply await_ack_hears in Ha.
    + by apply (Hshut [Opened n; Wrote m] (Registering n)).
    + by apply (Hshut [Opened n; Wrote m] (Registering n)).
    + by apply (Hshut [Opened n; Wrote m] (Registering n)).
  - cbn [drop_connection node conn up reconnects rejected_registrations ever_connected]. split; [|done].
    split; [rewrite Hp|done..]. by apply (Hshut [Opened n] (Opening n)).
Qed.

Lemma link_send_follows self n m :
  is_registration m = false →
  let '(self', acts, ok) := link_send self n m in
  follows self acts (if ok && is_report m then [m] else []) self'.
Proof.
  intros Hm. unfold link_send. pose proof (ensure_registered_follows self n) as H.
  destruct (ensure_registered _ _) as [[self1 acts] ok]. destruct H as [Hf Hok].
  destruct ok; cbn [negb]; [|done]. specialize (Hok eq_refl). destruct (writes n); cbn [andb].
  - rewrite <- (app_nil_l (if is_report m then _ else _)). eapply follows_trans; [done|].
    split; [unfold phase; rewrite Hok; by apply steps_one, step_message|done|cbn; by destruct (is_report m)|done].
  - rewrite <- (app_nil_l []). destruct (drop_connection self1) as [self2 shut] eqn:E. eapply follows_trans; [done|].
    unfold drop_connection in E. rewrite Hok in E. injection E as <- <-.
    split; [unfold phase; rewrite Hok; by apply steps_one, step_shut|done..].
Qed.

(** The fuel is enough: a frame read leaves fewer bytes to come. *)
Lemma await_ack_fuel c fuel : (ack_fuel c <= fuel)%nat → await_ack fuel c = await_ack (ack_fuel c) c.
Proof.
  assert (∀ a b c, (ack_fuel c <= a)%nat → (ack_fuel c <= b)%nat → await_ack a c = await_ack b c) as H; [|intros; by apply H].
  clear c fuel. induction a as [|a IH]; intros b c Ha Hb; [unfold ack_fuel in Ha; lia|]. destruct b as [|b]; [unfold ack_fuel in Hb; lia|].
  cbn [await_ack]. unfold read_message. pose proof (read_frame_progress (incoming c) (held c)) as Hp.
  destruct (read_frame (incoming c) (held c)) as [[reads h] [p| | |]]; try done. destruct Hp as [_ Hp].
  assert (ack_fuel (mkConn reads h) < ack_fuel c)%nat as Hlt by (unfold ack_fuel, stream in *; cbn [held incoming]; lia).
  unfold fmap, res_map. destruct (decode p) as [m|]; [|done]. destruct (m_content m) as [[]|]; try done; apply IH; lia.
Qed.

(** * The turns *)

Definition buffered (m : SapientMessage) : Prop := is_registration m = false ∧ is_report m = true.

#[export] Instance fusion_laws : LinkLaws fusion_link.
Proof.
  refine {| sendable := buffered; goes := follows; goes_refl := follows_refl; goes_trans := follows_trans |}.
  intros l n m [H1 H2]. pose proof (link_send_follows l n m H1) as H. cbn [send fusion_link].
  destruct (link_send _ _ _) as [[l' acts] ok]. by rewrite H2, andb_true_r in H.
Defined.

(** The report a bus message puts in the buffer. *)
Definition pushed_by (s : Egress) (t : Turn) : list SapientMessage :=
  match t_woken t with
  | Bus sealed =>
      match accept decode_event sealed egress_key with
      | Ok e =>
          if (first_time (ev_id e) (e_dedupe s)).2 then
            match (detection parse_rfc3339 (e_mapper s) (node (e_link s)) e (t_draw t)).2 with Some r => [r] | None => [] end
          else []
      | _ => []
      end
  | _ => []
  end.

Lemma detection_buffered self n e d r : (detection parse_rfc3339 self n e d).2 = Some r → buffered r.
Proof.
  unfold detection. destruct (ev_location e) as [loc|]; [|done]. destruct (object_id _ _ _) as [self' object]. cbn [snd]. by intros [= <-].
Qed.

(** A status report and a refusal are no reports of the buffer. *)
Lemma link_send_link self n m :
  is_registration m = false → is_report m = false → let '(self', acts, _) := link_send self n m in goes self acts [] self'.
Proof. intros H1 H2. pose proof (link_send_follows self n m H1) as H. destruct (link_send _ _ _) as [[l acts] ok]. by rewrite H2, andb_false_r in H. Qed.

Definition moves (s : Egress) (acts : list Wire) (ins : list SapientMessage) (outs : list (Out SapientMessage)) (s' : Egress) : Prop :=
  relays (e_relay s) (e_link s) acts ins outs (e_relay s') (e_link s').
Notation egress_ok s := (queue_ok (e_relay s)).

Lemma on_top_moves s t : egress_ok s → let '(s', acts) := on_top s t in ∃ outs, moves s acts [] outs s'.
Proof.
  intros Hs. unfold on_top, moves.
  assert (∃ l acts first, (if connected (e_link s) then (e_link s, [], e_first_status s)
    else let '(l, acts, ok) := ensure_registered (e_link s) (t_top t) in (l, acts, if ok then true else e_first_status s)) = (l, acts, first)
    ∧ goes (e_link s) acts [] l) as (l & acts & first & -> & Hf).
  { destruct (connected (e_link s)); [by eexists _, _, _; split; [|apply follows_refl]|].
    pose proof (ensure_registered_follows (e_link s) (t_top t)) as H. destruct (ensure_registered _ _) as [[l acts] ok]. destruct H as [H _].
    by eexists _, _, _. }
  pose proof (drain_relays _ (t_drain t) l Hs) as H2.
  destruct (drain _ _ _) as [[relay l'] acts']. destruct H2 as (outs & H2 & _). exists outs.
  apply (relays_trans _ _ _ [] [] _ _ _ [] _ _ _ (relays_link _ _ _ _ Hs Hf) H2).
Qed.

Lemma on_bus_moves s sealed d t :
  egress_ok s → t_woken t = Bus sealed → t_draw t = d → ∃ outs, moves s [] (pushed_by s t) outs (on_bus s sealed d).
Proof.
  intros Hs Hw Hd. unfold on_bus, pushed_by, moves. rewrite Hw, Hd.
  pose proof (relays_refl _ (e_link s) Hs) as Hid.
  destruct (accept decode_event sealed egress_key) as [e|err| |]; try (by exists []).
  destruct (first_time (ev_id e) (e_dedupe s)) as [dd []] eqn:Hft; cbn [negb fst snd]; [|by exists []].
  pose proof (detection_buffered (e_mapper s) (node (e_link s)) e d) as Hsend.
  destruct (detection parse_rfc3339 (e_mapper s) (node (e_link s)) e d) as [mapper [r|]]; cbn [snd e_relay e_link] in *; [|by exists []].
  exists (push_out r (e_relay s)). apply (push_relays (LL := fusion_laws)); [done|by apply Hsend].
Qed.

Lemma on_tick_moves s n d : egress_ok s → let '(s', acts) := on_tick s n d in moves s acts [] [] s'.
Proof.
  intros Hs. unfold on_tick, moves. destruct (connected (e_link s)); cbn [negb]; [|by apply (relays_refl (LL := fusion_laws))].
  pose proof (link_send_link (e_link s) n (status (node (e_link s)) d (e_first_status s)) eq_refl eq_refl) as H.
  destruct (link_send _ _ _) as [[l acts] ok]. by apply (relays_link (LL := fusion_laws)).
Qed.

Lemma next_inbound_follows self :
  connected self = true → let '(self', acts, m) := next_inbound self in follows self acts [] self' ∧ (is_Some m → connected self' = true).
Proof.
  intros Hc. unfold next_inbound. pose proof Hc as Hs. apply bool_decide_eq_true in Hs as [c Hconn]. rewrite Hconn.
  assert (follows self (drop_connection self).2 [] (drop_connection self).1) as Hd.
  { unfold drop_connection. rewrite Hc. split; [unfold phase; rewrite Hc; by apply steps_one, step_shut|done..]. }
  destruct (read_message c) as [c' [[m|]| | |]]; try (destruct (drop_connection self) as [l shut]; cbn [fst snd] in Hd; split; [done|by intros [? ?]]).
  split; [|done]. split; unfold phase; rewrite ?Hc; try done; exact (steps_nil Registered).
Qed.

Lemma on_inbound_moves s n : egress_ok s → let '(s', acts) := on_inbound s n in moves s acts [] [] s'.
Proof.
  intros Hs. unfold on_inbound, moves. destruct (connected (e_link s)) eqn:Hc; cbn [negb]; [|by apply (relays_refl (LL := fusion_laws))].
  pose proof (next_inbound_follows (e_link s) Hc) as H. destruct (next_inbound (e_link s)) as [[l acts] [m|]]; destruct H as [Hf _]; [|by apply (relays_link (LL := fusion_laws))].
  assert (let '(l', acts', r) := answer l n m in goes l acts' [] l') as Ha.
  { unfold answer. destruct (m_content m) as [[]|]; try apply follows_refl.
    pose proof (link_send_link l n (task_rejected (node l) (n_now n) (default ""%string (t_task_id t)) (m_node_id m)) eq_refl eq_refl) as Hl.
    by destruct (link_send _ _ _) as [[l' acts'] ok]. }
  destruct (answer l n m) as [[l' acts'] r]. apply (relays_link (LL := fusion_laws)); [done|]. by apply (follows_trans _ _ [] l _ []).
Qed.

Lemma turn_moves s t : egress_ok s → ∃ outs, let '(s', acts) := turn s t in moves s acts (pushed_by (on_top s t).1 t) outs s'.
Proof.
  intros Hs. unfold turn, moves. pose proof (on_top_moves s t Hs) as H. destruct (on_top s t) as [s1 acts]. cbn [fst]. destruct H as (outs & H).
  pose proof (rel_ok _ _ _ _ _ _ _ H) as Hs1. unfold pushed_by at 1. destruct (t_woken t) as [sealed| | |] eqn:Hw.
  - destruct (on_bus_moves s1 sealed (t_draw t) t Hs1 Hw eq_refl) as (outs' & H'). exists (outs ++ outs').
    pose proof (relays_trans _ _ _ _ _ _ _ _ _ _ _ _ H H') as Ht. rewrite app_nil_r in Ht. unfold pushed_by in Ht. by rewrite Hw in Ht.
  - pose proof (on_tick_moves s1 (t_branch t) (t_draw t) Hs1) as H'. destruct (on_tick _ _ _) as [s2 acts']. exists outs.
    pose proof (relays_trans _ _ _ _ _ _ _ _ _ _ _ _ H H') as Ht. by rewrite !app_nil_r in Ht.
  - pose proof (on_inbound_moves s1 (t_branch t) Hs1) as H'. destruct (on_inbound _ _) as [s2 acts']. exists outs.
    pose proof (relays_trans _ _ _ _ _ _ _ _ _ _ _ _ H H') as Ht. by rewrite !app_nil_r in Ht.
  - by exists outs.
Qed.

(** The reports put in the buffer over a run. *)
Fixpoint pushed (s : Egress) (ts : list Turn) : list SapientMessage :=
  match ts with [] => [] | t :: ts => pushed_by (on_top s t).1 t ++ pushed (turn s t).1 ts end.

Lemma turns_moves ts : ∀ s, egress_ok s → ∃ outs, let '(s', acts) := turns s ts in moves s acts (pushed s ts) outs s'.
Proof.
  induction ts as [|t ts IH]; intros s Hs; cbn [turns pushed]; [exists []; by apply (relays_refl (LL := fusion_laws))|].
  destruct (turn_moves s t Hs) as [outs H]. destruct (turn s t) as [s1 acts]. cbn [fst].
  destruct (IH s1 (rel_ok _ _ _ _ _ _ _ H)) as [outs' H']. destruct (turns s1 ts) as [s2 acts']. exists (outs ++ outs'). by apply (relays_trans (LL := fusion_laws) _ _ _ _ _ _ _ _ _ _ _ _ H H').
Qed.

(** C14: on every connection to the fusion node the registration goes first, and
    nothing else before the fusion node has acknowledged it: the bytes heard on
    that connection, in time, begin with whole messages of which the first
    acknowledgement accepts. This holds whatever the network does and however the
    turns of the loop fall; and the gauge says so: up exactly while registered. *)
Theorem registration_first n overrides dc mx ts :
  let '(s, acts) := turns (start n overrides dc mx) ts in
  ∃ p, steps Down acts p ∧ (p = Registered ∨ p = Down) ∧ (up (e_link s) = 1 ↔ p = Registered) ∧ (connected (e_link s) = true ↔ p = Registered).
Proof.
  destruct (turns_moves ts (start n overrides dc mx) (queue_new_ok mx)) as [outs H]. destruct (turns _ ts) as [s acts].
  destruct (rel_goes _ _ _ _ _ _ _ H) as [Hst Hup _ _]. exists (phase (e_link s)). split; [exact Hst|]. rewrite (Hup eq_refl). unfold phase.
  destruct (connected (e_link s)); naive_solver.
Qed.

(** the reports of governed events leave the buffer in the order they entered
    it, each once: written on the wire, or, only to make room, dropped and counted;
    and the rest wait, at most as many as configured. *)
Theorem reports_in_order n overrides dc mx ts :
  let '(s, acts) := turns (start n overrides dc mx) ts in
  ∃ outs, (out_msg <$> outs) ++ buffer (e_relay s) = pushed (start n overrides dc mx) ts ∧
    reports_on acts = sent_of outs ∧
    delivered (e_relay s) = wrap 64 (zlen (sent_of outs)) ∧ gap_dropped (e_relay s) = wrap 64 (zlen (lost_of outs)) ∧
    zlen (buffer (e_relay s)) ≤ Z.max mx 1.
Proof.
  destruct (turns_moves ts (start n overrides dc mx) (queue_new_ok mx)) as [outs H]. destruct (turns _ ts) as [s acts].
  destruct H as [([_ Hb] & _) Hq [_ _ Hw _] Hd Hg Hm]. exists outs. split; [exact Hq|]. split; [exact Hw|]. split; [exact Hd|]. split; [exact Hg|].
  by rewrite Hm in Hb.
Qed.

(** a status right after a registration may say that nothing changed: the flag
    is set by the attempt at the top of a turn, and a registration made by the send
    of a buffered report, when that attempt failed, does not set it. *)
Theorem unchanged_after_registration s t m c a :
  let n := t_drain t 0%nat in
  connected (e_link s) = false → e_first_status s = false → buffer (e_relay s) = [m] → connects (t_top t) = false →
  connects n = true → registers n = true → in_time n = true → writes n = true →
  await_ack (ack_fuel (mkConn (arrives n) [])) (mkConn (arrives n) []) = (c, Some a) → ra_acceptance a = Some true →
  t_woken t = Tick → writes (t_branch t) = true →
  (turn s t).2 = [Opened n; Wrote (registration CARGO_PKG_VERSION (node (e_link s)) (n_now n)); Acked; Wrote m;
                  Wrote (status (node (e_link s)) (t_draw t) false)].
Proof.
  cbv zeta. intros H1 H2 H3 H4 H5 H6 H7 H8 H9 H10 H11 H12. unfold turn, on_top. rewrite H1. unfold ensure_registered at 1. rewrite H1, H4. cbn [negb].
  unfold drain. rewrite H3. cbn [drain_loop send fusion_link]. unfold link_send, ensure_registered. rewrite H1, H5, H6, H9, H7. cbn [negb].
  rewrite bool_decide_true by done. cbn [negb]. rewrite H8, H11. unfold on_tick, connected. cbn [e_link conn node].
  rewrite bool_decide_true by (by eexists). cbn [negb]. unfold link_send, ensure_registered, connected. cbn [conn node].
  rewrite bool_decide_true by (by eexists). cbn [negb]. rewrite H12. cbn [snd e_first_status]. by rewrite H2.
Qed.

End egress.

#[local] Instance ex_fusion_trig : Trig := {|
  sin := λ x, x; cos := λ x, x; asin := λ x, x; atan2 := λ x _, x; hypot := λ x _, x
|}.

(** A node that acknowledges whatever it is sent, after a refused connection. *)
Definition ex_ack : SapientMessage := mkMessage None None None (Some (CRegistrationAck (mkRegistrationAck (Some true) []))).
Definition ex_node : Node := mkNode "n" "node" "node" f_zero None.
Definition ex_net (ok : bool) : Net := mkNet ok [Data (frame [7])] true true true (0, 0).
Definition ex_report : SapientMessage := mkMessage None (Some "n"%string) None None.
Definition ex_state : Egress := mkEgress (link_new ex_node) (mkRelay [ex_report] 4 0 0) (mapper_new ∅ "Unknown") (dedupe_new 10) false (mkMetrics 0 0 0 0 0).
Definition ex_turn : Turn := mkTurn (ex_net false) (λ _, ex_net true) (ex_net true) Tick (mkDraw (0, 0) (0, 0) (0, 0)).

Lemma unchanged_after_registration_witness :
  (turn (C := toy) "1" (λ _, None) (λ _, Some ex_ack) (λ _, None) 5 ex_state ex_turn).2
  = [Opened (ex_net true); Wrote (registration "1" ex_node (0, 0)); Acked; Wrote ex_report; Wrote (status ex_node (t_draw ex_turn) false)].
Proof.
  by apply (unchanged_after_registration (C := toy) "1" (λ _, None) (λ _, Some ex_ack) (λ _, None) (5 : @vkey toy) ex_state ex_turn ex_report
    (mkConn [] []) (mkRegistrationAck (Some true) [])).
Defined.
