(* ===== verification/Tak.v ===== *)
(** The TAK egress (rust/connectors/tak-egress): its configuration, the link to a
    TAK server or a mesh, and the loop that relays each payload as it came. *)
From Stdlib Require Import ZArith Lia.
From Stdlib Require Import Strings.String.
From S2P Require Export Text Relay.

Local Open Scope Z_scope.

(** * Configuration *)

(** @src rust/connectors/tak-egress/src/config.rs 19-39 TakConfig *)
Record TakConfig := mkTakConfig {
  tak_url : bytes;
  tls_ca : option bytes;
  tls_cert : option bytes;
  tls_key : option bytes;
  server_name : option bytes;
  tak_interface : option bytes;
  multicast_ttl : Z;
  tak_buffer_max : Z
}.

(** @src rust/connectors/tak-egress/src/config.rs 41-43 default_buffer_max *)
Definition default_buffer_max : Z := 1000.
(** @src rust/connectors/tak-egress/src/config.rs 45-47 default_multicast_ttl *)
Definition default_multicast_ttl : Z := 1.

(** [str::trim_start_matches] for a pattern [p] that is not empty: it is taken off
    as often as it is there. *)
Fixpoint trim_matches (fuel : nat) (p l : bytes) : bytes :=
  match fuel with
  | O => l
  | S fuel => match Text.strip_prefix p l with Some r => trim_matches fuel p r | None => l end
  end.
Definition trim_start_matches (p l : bytes) : bytes := trim_matches (length l) p l.

(** @src rust/connectors/tak-egress/src/config.rs 50-56 TakConfig::endpoint *)
Definition endpoint (self : TakConfig) : bytes :=
  trim_start_matches (s2b "udp://") (trim_start_matches (s2b "tcp://") (trim_start_matches (s2b "tls://") (tak_url self))).

(** @src rust/connectors/tak-egress/src/config.rs 58-60 TakConfig::is_datagram *)
Definition is_datagram (self : TakConfig) : bool := starts_with (s2b "udp://") (tak_url self).

(** @src rust/connectors/tak-egress/src/config.rs 62-72 TakConfig::tls_files *)
Definition tls_files (self : TakConfig) : option (bytes * bytes * bytes) :=
  match tls_ca self, tls_cert self, tls_key self with
  | Some ca, Some cert, Some key => Some (ca, cert, key)
  | _, _, _ => None
  end.

(** @src rust/connectors/tak-egress/src/config.rs 74-84 TakConfig::sni *)
Definition sni (self : TakConfig) : bytes :=
  match server_name self with
  | Some n => n
  | None => match rfind_byte 58 (endpoint self) with Some k => take (Z.to_nat k) (endpoint self) | None => endpoint self end
  end.

Inductive TakConfigError := NoBufferMax | TlsFilesMissing.

(** @src rust/connectors/tak-egress/src/config.rs 98-106 EgressConfig::validate *)
Definition tak_validate (self : TakConfig) : res TakConfigError unit :=
  if tak_buffer_max self =? 0 then Err NoBufferMax
  else if negb (is_datagram self) then match tls_files self with Some _ => Ok tt | None => Err TlsFilesMissing end
  else Ok tt.

(** * The link *)

(** A stream, up or down, or a socket that has no connection. *)
(** @src rust/connectors/tak-egress/src/tak.rs 23-34 Delivery *)
Inductive Delivery := Tls (stream : bool) | Datagram.

(** @src rust/connectors/tak-egress/src/tak.rs 36-40 TakLink *)
Record TakLink := mkTakLink { delivery : Delivery; tak_reconnects : Z; tak_up : Z }.

(** The sockets and the certificates set up. *)
(** @src rust/connectors/tak-egress/src/tak.rs 43-101 TakLink::new *)
Definition tak_link_new (cfg : TakConfig) : TakLink :=
  mkTakLink (if is_datagram cfg then Datagram else Tls false) 0 (if is_datagram cfg then 1 else 0).

(** What the network does in one call: the largest datagram it takes, if any;
    whether a connection is made in time; and how many bytes of a write it takes
    before it fails, if it fails. *)
Record TakNet := mkTakNet { takes : option Z; tak_connects : bool; fails_at : option nat }.

(** What is seen of the link: a connection made, a payload written whole on it, a
    part written and the connection gone, a datagram. *)
Inductive TakWire := TakOpened | Whole (payload : bytes) | Part (prefix : bytes) | Sent (payload : bytes).

(** @src rust/connectors/tak-egress/src/tak.rs 103-145 TakLink::send *)
Definition tak_send (self : TakLink) (n : TakNet) (payload : bytes) : TakLink * list TakWire * bool :=
  match delivery self with
  | Datagram =>
      match takes n with
      | Some most => if zlen payload <=? most then (self, [Sent payload], true) else (self, [], false)
      | None => (self, [], false)
      end
  | Tls stream =>
      let '(self, opened, up) :=
        if stream then (self, [], true)
        else if tak_connects n then (mkTakLink (Tls true) (fetch_add (tak_reconnects self) 1) 1, [TakOpened], true)
        else (mkTakLink (Tls false) (tak_reconnects self) 0, [], false) in
      if negb up then (self, opened, false)
      else
        match fails_at n with
        | None => (self, opened ++ [Whole payload], true)
        | Some k => (mkTakLink (Tls false) (tak_reconnects self) 0, opened ++ [Part (take k payload)], false)
        end
  end.

#[export] Instance tak_link : Link bytes := {| link := TakLink; net := TakNet; act := TakWire; send := tak_send |}.

(** * The loop *)

(** The state of the loop, and what wakes it: a message of the bus or, with
    something to send, a second gone by. The shutdown drains once more and ends. *)
Record TakEgress := mkTakEgress { tk_link : TakLink; tk_relay : Relay bytes }.
Inductive TakWoken := Payload (payload : bytes) | Second.

(** @src rust/connectors/tak-egress/src/lib.rs 74-76 run *)
Definition tak_start (cfg : TakConfig) : TakEgress := mkTakEgress (tak_link_new cfg) (relay_new (tak_buffer_max cfg)).

(** @src rust/connectors/tak-egress/src/lib.rs 106-128 run *)
Definition tak_turn (s : TakEgress) (nets : nat → TakNet) (w : TakWoken) : TakEgress * list TakWire :=
  let '(relay, l, acts) := drain (tk_relay s) nets (tk_link s) in
  (mkTakEgress l (match w with Payload p => push p relay | Second => relay end), acts).

Fixpoint tak_turns (s : TakEgress) (ts : list ((nat → TakNet) * TakWoken)) : TakEgress * list TakWire :=
  match ts with
  | [] => (s, [])
  | (nets, w) :: ts => let '(s, acts) := tak_turn s nets w in let '(s, acts') := tak_turns s ts in (s, acts ++ acts')
  end.

(** * What the link keeps *)

Definition came (w : TakWoken) : list bytes := match w with Payload p => [p] | Second => [] end.
Definition tak_wrote (ws : list TakWire) : list bytes := omap (λ w, match w with Whole p | Sent p => Some p | _ => None end) ws.
Definition is_opened (w : TakWire) : bool := match w with TakOpened => true | _ => false end.

(** A stream opens, carries whole payloads, and at most a last part. *)
Definition tak_step (d : Delivery) (w : TakWire) : option Delivery :=
  match d, w with
  | Tls false, TakOpened => Some (Tls true)
  | Tls true, Whole _ => Some (Tls true)
  | Tls true, Part _ => Some (Tls false)
  | Datagram, Sent _ => Some Datagram
  | _, _ => None
  end.
Fixpoint tak_steps (d : Delivery) (ws : list TakWire) : option Delivery :=
  match ws with [] => Some d | w :: ws => tak_step d w ≫= λ d, tak_steps d ws end.

Lemma tak_steps_app d ws ws' : tak_steps d (ws ++ ws') = tak_steps d ws ≫= λ d, tak_steps d ws'.
Proof. revert d. induction ws as [|w ws IH]; intros d; [done|]. cbn [app tak_steps]. destruct (tak_step d w); [apply IH|done]. Qed.

Definition gauge (d : Delivery) : Z := match d with Tls false => 0 | _ => 1 end.

Record tak_goes (l : TakLink) (acts : list TakWire) (sent : list bytes) (l' : TakLink) : Prop := {
  tk_steps : tak_steps (delivery l) acts = Some (delivery l');
  tk_gauge : tak_up l = gauge (delivery l) → tak_up l' = gauge (delivery l');
  tk_count : 0 ≤ tak_reconnects l < 2 ^ 64 → tak_reconnects l' = wrap 64 (tak_reconnects l + zlen (filter is_opened acts));
  tk_sent : tak_wrote acts = sent
}.

Lemma tak_goes_refl l : tak_goes l [] [] l.
Proof. split; try done. intros H. rewrite filter_nil, zlen_nil, Z.add_0_r. by rewrite wrap_small. Qed.

Lemma tak_goes_trans a ws rs b ws' rs' c : tak_goes a ws rs b → tak_goes b ws' rs' c → tak_goes a (ws ++ ws') (rs ++ rs') c.
Proof.
  intros [H1 H2 H3 H4] [K1 K2 K3 K4]. split; [by rewrite tak_steps_app, H1|auto| |by unfold tak_wrote in *; rewrite omap_app, H4, K4].
  intros Ha. specialize (H3 Ha). rewrite K3 by (rewrite H3; apply wrap_range; lia).
  rewrite H3, filter_app, zlen_app. unfold wrap. rewrite Z.add_mod_idemp_l by done. f_equal. lia.
Qed.

Lemma tak_send_goes l n m :
  let '(l', acts, ok) := tak_send l n m in tak_goes l acts (if ok then [m] else []) l'.
Proof.
  unfold tak_send. destruct l as [[[]|] r u]; cbn [delivery tak_reconnects].
  - destruct (fails_at n) as [k|]; cbn [negb app]; (split; [done|done| |done]); cbn [tak_reconnects]; intros H;
      by rewrite filter_cons_False, filter_nil, zlen_nil, Z.add_0_r, wrap_small by auto.
  - destruct (tak_connects n); cbn [negb app]; [destruct (fails_at n) as [k|]|]; (split; [done|done| |done]); cbn [tak_reconnects]; intros H.
    1-2: by rewrite filter_cons_True, filter_cons_False, filter_nil, zlen_cons, zlen_nil by auto.
    by rewrite filter_nil, zlen_nil, Z.add_0_r, wrap_small.
  - destruct (takes n) as [most|]; [destruct (_ <=? _)|]; try apply tak_goes_refl. split; [done|done| |done]. intros H. cbn [tak_reconnects] in *.
    by rewrite filter_cons_False, filter_nil, zlen_nil, Z.add_0_r, wrap_small by auto.
Qed.

#[export] Instance tak_laws : LinkLaws tak_link.
Proof.
  refine {| sendable := λ _ : bytes, True; goes := tak_goes; goes_refl := tak_goes_refl; goes_trans := tak_goes_trans |}.
  intros l n m _. apply tak_send_goes.
Defined.

(** ** What a stream ends in *)

(** Whatever part is on the wire is the beginning of the payload at the front of
    the buffer: after what was written before it, the next to leave. *)
Definition part_of_next (acts : list TakWire) (outs : list (Out bytes)) (rest : list bytes) : Prop :=
  ∀ a1 p a2, acts = a1 ++ Part p :: a2 →
  ∃ o1 o2 m, outs = o1 ++ o2 ∧ sent_of o1 = tak_wrote a1 ∧ head ((out_msg <$> o2) ++ rest) = Some m ∧ p `prefix_of` m.

Lemma part_of_none outs rest : part_of_next [] outs rest.
Proof. intros a1 p a2 H. by destruct a1. Qed.

Lemma part_of_app acts acts' outs outs' rest ins rest' :
  tak_wrote acts = sent_of outs → (out_msg <$> outs') ++ rest' = rest ++ ins →
  part_of_next acts outs rest → part_of_next acts' outs' rest' → part_of_next (acts ++ acts') (outs ++ outs') rest'.
Proof.
  intros Hw Hq H1 H2 a1 p a2 E. apply app_eq_inv in E as [(l & -> & E)|(l & -> & E)].
  - destruct l as [|w l].
    { cbn in E. destruct (H2 [] p a2) as (o1 & o2 & m & -> & Hs & Hh & Hp); [done|].
      exists (outs ++ o1), o2, m. rewrite app_assoc. split; [done|]. split; [|done]. rewrite app_nil_r in *.
      unfold sent_of, tak_wrote in *. by rewrite omap_app, Hs, app_nil_r, Hw. }
    injection E as <- ->. destruct (H1 a1 p l) as (o1 & o2 & m & -> & Hs & Hh & Hp); [done|].
    exists o1, (o2 ++ outs'), m. rewrite app_assoc. split; [done|]. split; [done|]. split; [|done].
    rewrite fmap_app, <- app_assoc, Hq, app_assoc. by destruct ((out_msg <$> o2) ++ rest).
  - destruct (H2 _ _ _ E) as (o1 & o2 & m & -> & Hs & Hh & Hp). exists (outs ++ o1), o2, m. rewrite app_assoc. split; [done|].
    split; [|done]. unfold sent_of, tak_wrote in *. by rewrite !omap_app, Hs, Hw.
Qed.

Lemma tak_send_parts l n m :
  let '(_, acts, ok) := tak_send l n m in
  ∀ a1 p a2, acts = a1 ++ Part p :: a2 → ok = false ∧ tak_wrote a1 = [] ∧ p `prefix_of` m.
Proof.
  unfold tak_send. destruct l as [[[]|] r u]; cbn [delivery tak_reconnects];
    [destruct (fails_at n) as [k|]|destruct (tak_connects n); [destruct (fails_at n) as [k|]|]|destruct (takes n); [destruct (_ <=? _)|]];
    cbn [negb app]; intros [|w1 [|w2 [|w3 a1]]] p a2 E; try done; injection E as E; subst; try done;
    (split; [done|split; [done|apply prefix_take]]).
Qed.

Lemma tak_drain_parts nets : ∀ buf k l,
  let '(_, acts, rem, _) := drain_loop (L := tak_link) buf nets k l in
  ∃ sent, buf = sent ++ rem ∧ tak_wrote acts = sent ∧ part_of_next acts (Delivered <$> sent) rem.
Proof.
  induction buf as [|m buf IH]; intros k l; cbn [drain_loop send tak_link]; [exists []; split_and!; try done; apply part_of_none|].
  pose proof (tak_send_parts l (nets k) m) as Hp. pose proof (tak_send_goes l (nets k) m) as Hg.
  destruct (tak_send l (nets k) m) as [[l1 acts] [|]].
  - specialize (IH (S k) l1). destruct (drain_loop buf nets (S k) l1) as [[[l2 acts'] rem] k']. destruct IH as (sent & -> & Hw & Hn).
    destruct Hg as [_ _ _ Hs]. exists (m :: sent). split; [done|]. split; [unfold tak_wrote in *; by rewrite omap_app, Hs, Hw|].
    change (Delivered <$> m :: sent) with ([Delivered m] ++ (Delivered <$> sent)).
    apply (part_of_app acts acts' [Delivered m] (Delivered <$> sent) (sent ++ rem) []); try done.
    + destruct (sent_delivered sent) as (_ & _ & ->). by rewrite app_nil_r.
    + intros a1 p a2 E. by destruct (Hp _ _ _ E).
  - destruct Hg as [_ _ _ Hs]. exists []. split; [done|]. split; [done|]. intros a1 p a2 E. destruct (Hp _ _ _ E) as (_ & Hw & Hpre).
    exists [], [], m. by split_and!.
Qed.

Lemma delivered_all (outs : list (Out bytes)) : lost_of outs = [] → outs = Delivered <$> sent_of outs.
Proof. induction outs as [|[m|m] outs IH]; [done| |done]. intros H. cbn. f_equal. by apply IH. Qed.

(** * The loop *)

Lemma tak_turn_moves s nets w :
  queue_ok (tk_relay s) →
  ∃ outs, let '(s', acts) := tak_turn s nets w in
    relays (tk_relay s) (tk_link s) acts (came w) outs (tk_relay s') (tk_link s') ∧ part_of_next acts outs (buffer (tk_relay s')).
Proof.
  intros Hs. unfold tak_turn. pose proof (drain_relays (LL := tak_laws) _ nets (tk_link s) Hs) as H.
  pose proof (tak_drain_parts nets (buffer (tk_relay s)) 0 (tk_link s)) as Hn. unfold drain in *.
  destruct (drain_loop _ _ _ _) as [[[l acts] rem] k]. destruct H as (outs & H & Hl). destruct Hn as (sent & Hb & Hw & Hn).
  set (r := mkRelay rem _ _ _) in *. apply delivered_all in Hl.
  pose proof (tk_sent _ _ _ _ (rel_goes _ _ _ _ _ _ _ H)) as Hs'. rewrite Hw in Hs'. rewrite Hs', <- Hl in Hn.
  destruct w as [p|]; cbn [tk_relay tk_link came]; [|by exists outs].
  exists (outs ++ push_out p r). pose proof (push_relays (LL := tak_laws) r p l (rel_ok _ _ _ _ _ _ _ H) I) as K.
  pose proof (relays_trans (LL := tak_laws) _ _ _ _ _ _ _ _ _ _ _ _ H K) as Ht. rewrite app_nil_r in Ht. split; [done|].
  rewrite <- (app_nil_r acts). apply (part_of_app acts [] outs (push_out p r) rem [p]); [by rewrite Hw| |done|apply part_of_none].
  apply (rel_queue _ _ _ _ _ _ _ K).
Qed.

Lemma tak_turns_moves ts : ∀ s,
  queue_ok (tk_relay s) →
  ∃ outs, let '(s', acts) := tak_turns s ts in
    relays (tk_relay s) (tk_link s) acts (concat (came <$> ts.*2)) outs (tk_relay s') (tk_link s') ∧ part_of_next acts outs (buffer (tk_relay s')).
Proof.
  induction ts as [|[nets w] ts IH]; intros s Hs; cbn [tak_turns fmap list_fmap concat snd].
  { exists []. split; [by apply (relays_refl (LL := tak_laws))|apply part_of_none]. }
  destruct (tak_turn_moves s nets w Hs) as [outs H]. destruct (tak_turn s nets w) as [s1 acts]. destruct H as [H Hn].
  destruct (IH s1 (rel_ok _ _ _ _ _ _ _ H)) as [outs' H']. destruct (tak_turns s1 ts) as [s2 acts']. destruct H' as [H' Hn'].
  exists (outs ++ outs'). split; [apply (relays_trans (LL := tak_laws) _ _ _ _ _ _ _ _ _ _ _ _ H H')|].
  eapply part_of_app; [apply (tk_sent _ _ _ _ (rel_goes _ _ _ _ _ _ _ H))|apply (rel_queue _ _ _ _ _ _ _ H')|done|done].
Qed.

(** C15: each payload of the bus leaves the buffer in order and once, written whole
    and byte for byte, or dropped to make room and counted. A stream carries nothing
    else but, at its end, a part: the beginning of the payload that is then at the
    front of the buffer, still whole there, to be written again on the next stream or
    dropped like any other; and the counters say what happened. *)
Theorem tak_relays_verbatim cfg ts :
  let '(s, acts) := tak_turns (tak_start cfg) ts in
  ∃ outs, (out_msg <$> outs) ++ buffer (tk_relay s) = concat (came <$> ts.*2) ∧ tak_wrote acts = sent_of outs ∧
    part_of_next acts outs (buffer (tk_relay s)) ∧
    tak_steps (delivery (tak_link_new cfg)) acts = Some (delivery (tk_link s)) ∧ tak_up (tk_link s) = gauge (delivery (tk_link s)) ∧
    tak_reconnects (tk_link s) = wrap 64 (zlen (filter is_opened acts)) ∧
    delivered (tk_relay s) = wrap 64 (zlen (sent_of outs)) ∧ gap_dropped (tk_relay s) = wrap 64 (zlen (lost_of outs)) ∧
    zlen (buffer (tk_relay s)) ≤ Z.max (tak_buffer_max cfg) 1.
Proof.
  destruct (tak_turns_moves ts (tak_start cfg) (queue_new_ok _)) as [outs H]. destruct (tak_turns _ ts) as [s acts].
  destruct H as [[([_ Hb] & _) Hq [G1 G2 G3 G4] Hd Hg Hm] Hn]. exists outs. rewrite Hm in Hb. cbn [tk_link tk_relay tak_start] in *.
  split; [exact Hq|]. split; [exact G4|]. split; [exact Hn|]. split; [exact G1|]. split; [apply G2; unfold tak_link_new; by destruct (is_datagram cfg)|].
  split; [rewrite G3; [done|by cbn]|]. split; [exact Hd|]. split; [exact Hg|exact Hb].
Qed.

(** * Liveness, and what holds it up *)

(** What a call delivers: the network is there, and takes the payload. *)
Definition tak_takes (l : TakLink) (n : TakNet) (p : bytes) : bool :=
  match delivery l with
  | Datagram => match takes n with Some most => zlen p <=? most | None => false end
  | Tls _ => tak_connects n && bool_decide (fails_at n = None)
  end.
Definition is_udp (l : TakLink) : bool := match delivery l with Datagram => true | _ => false end.

Lemma tak_send_takes l n p :
  let '(l', _, ok) := tak_send l n p in is_udp l' = is_udp l ∧ (tak_takes l n p = true → ok = true) ∧ (is_udp l = true → ok = tak_takes l n p).
Proof.
  unfold tak_send, tak_takes, is_udp. destruct l as [[[]|] r u]; cbn [delivery tak_reconnects].
  - destruct (fails_at n) as [k|]; cbn [negb delivery]; [|done]. split; [done|]. split; [|done]. by destruct (tak_connects n).
  - destruct (tak_connects n); cbn [negb delivery]; [destruct (fails_at n) as [k|]|]; done.
  - destruct (takes n) as [most|]; [destruct (_ <=? _)|]; done.
Qed.

Lemma tak_drain_all nets : ∀ buf k l,
  (∀ i l' p, is_udp l' = is_udp l → p ∈ buf → tak_takes l' (nets i) p = true) →
  ∃ l' acts k', drain_loop (L := tak_link) buf nets k l = (l', acts, [], k').
Proof.
  induction buf as [|p buf IH]; intros k l H; cbn [drain_loop send tak_link]; [by eexists _, _, _|].
  pose proof (tak_send_takes l (nets k) p) as Hp. destruct (tak_send l (nets k) p) as [[l1 acts] ok]. destruct Hp as (Hu & Hok & _).
  rewrite Hok by (apply H; [done|by left]). destruct (IH (S k) l1) as (l' & acts' & k' & ->); [|by eexists _, _, _].
  intros i l' q Hl Hq. apply H; [congruence|by right].
Qed.

(** once the network takes what is waiting, one turn empties the buffer: all of
    it is written, in order. *)
Theorem tak_delivers s nets :
  queue_ok (tk_relay s) → (∀ k l p, is_udp l = is_udp (tk_link s) → p ∈ buffer (tk_relay s) → tak_takes l (nets k) p = true) →
  let '(s', acts) := tak_turn s nets Second in buffer (tk_relay s') = [] ∧ tak_wrote acts = buffer (tk_relay s).
Proof.
  intros Hs H. unfold tak_turn. pose proof (drain_relays (LL := tak_laws) _ nets (tk_link s) Hs) as K.
  destruct (tak_drain_all nets (buffer (tk_relay s)) 0 (tk_link s) H) as (l' & acts & k & E).
  unfold drain in *. rewrite E in K |- *. destruct K as (outs & K & Hl). cbn [tk_relay buffer]. split; [done|].
  destruct (rel_goes _ _ _ _ _ _ _ K) as [_ _ _ Hw]. rewrite Hw. pose proof (rel_queue _ _ _ _ _ _ _ K) as Hq. cbn [buffer] in Hq.
  rewrite !app_nil_r in Hq. rewrite <- Hq. clear -Hl. induction outs as [|[m|m] outs IH]; [done| |done]. cbn. f_equal. by apply IH.
Qed.

Definition ex_tak (url : string) (n : Z) : TakConfig := mkTakConfig (s2b url) None None None None None default_multicast_ttl n.
Definition ex_tak_net : TakNet := mkTakNet (Some 1472) true None.
Definition ex_tak_state : TakEgress :=
  (tak_turns (tak_start (ex_tak "tls://h:8089" 2)) [(λ _, mkTakNet None false None, Payload [1]); (λ _, mkTakNet None true (Some 0%nat), Payload [2; 3])]).1.

Lemma tak_delivers_witness :
  let '(s', acts) := tak_turn ex_tak_state (λ _, ex_tak_net) Second in buffer (tk_relay s') = [] ∧ tak_wrote acts = [[1]; [2; 3]].
Proof.
  apply (tak_delivers ex_tak_state (λ _, ex_tak_net)).
  - destruct (tak_turns_moves [(λ _, mkTakNet None false None, Payload [1]); (λ _, mkTakNet None true (Some 0%nat), Payload [2; 3])]
      (tak_start (ex_tak "tls://h:8089" 2)) (queue_new_ok _)) as [outs H]. exact (rel_ok _ _ _ _ _ _ _ (proj1 H)).
  - intros k l p Hl _. unfold tak_takes, is_udp in *. by destruct (delivery l).
Defined.

Lemma tak_turn_blocked s nets w p rest :
  delivery (tk_link s) = Datagram → buffer (tk_relay s) = p :: rest → tak_takes (tk_link s) (nets 0%nat) p = false →
  zlen (buffer (tk_relay s) ++ came w) ≤ max (tk_relay s) →
  tak_turn s nets w = (mkTakEgress (tk_link s) (mkRelay (p :: rest ++ came w) (max (tk_relay s)) (wrap 64 (delivered (tk_relay s))) (gap_dropped (tk_relay s))), []).
Proof.
  intros Hd Hb Ht Hn. unfold tak_turn, drain. rewrite Hb in *. cbn [drain_loop send tak_link].
  assert (tak_send (tk_link s) (nets 0%nat) p = (tk_link s, [], false)) as ->.
  { unfold tak_takes, tak_send in *. rewrite Hd in *. destruct (takes _) as [most|]; [|done]. by rewrite Ht. }
  rewrite Z.add_0_r. destruct w as [q|]; cbn [came] in *; [|by rewrite app_nil_r].
  unfold push. cbn [buffer max delivered gap_dropped]. rewrite zlen_app, (zlen_cons q), zlen_nil in Hn.
  by rewrite (proj2 (Z.leb_gt _ _)) by lia.
Qed.

(** a payload larger than a datagram may be holds up all behind it: while it is
    the oldest, nothing is sent, however well the network works, and it is only lost
    once the buffer is full. *)
Theorem tak_oversize_blocks ts : ∀ s p rest,
  delivery (tk_link s) = Datagram → buffer (tk_relay s) = p :: rest → (∀ nets, nets ∈ ts.*1 → tak_takes (tk_link s) (nets 0%nat) p = false) →
  zlen (buffer (tk_relay s) ++ concat (came <$> ts.*2)) ≤ max (tk_relay s) →
  (tak_turns s ts).2 = [] ∧ buffer (tk_relay (tak_turns s ts).1) = p :: rest ++ concat (came <$> ts.*2).
Proof.
  induction ts as [|[nets w] ts IH]; intros s p rest Hd Hb Ht Hn; cbn [tak_turns fmap list_fmap concat fst snd] in *; [by rewrite app_nil_r|].
  rewrite (tak_turn_blocked s nets w p rest Hd Hb); [|apply Ht; by left|].
  - destruct (IH (mkTakEgress (tk_link s) (mkRelay (p :: rest ++ came w) (max (tk_relay s)) (wrap 64 (delivered (tk_relay s))) (gap_dropped (tk_relay s)))) p (rest ++ came w))
      as [H1 H2]; [done|done| | |].
    + intros nets' Hn'. apply Ht. by right.
    + cbn [tk_relay buffer max]. rewrite Hb in Hn. by rewrite <- app_comm_cons, <- app_assoc.
    + destruct (tak_turns _ ts) as [s2 acts']. cbn [fst snd] in *. split; [done|]. by rewrite H2, <- app_assoc.
  - etrans; [|exact Hn]. rewrite !zlen_app. pose proof (zlen_nonneg (concat (came <$> ts.*2))). lia.
Qed.

Lemma tak_oversize_blocks_witness :
  (tak_turns (mkTakEgress (tak_link_new (ex_tak "udp://239.2.3.1:6969" 8)) (mkRelay [replicate 2000 0] 8 0 0))
     [(λ _, ex_tak_net, Payload [1]); (λ _, ex_tak_net, Second); (λ _, ex_tak_net, Payload [2])]).2 = [].
Proof.
  refine (proj1 (tak_oversize_blocks [(λ _, ex_tak_net, Payload [1]); (λ _, ex_tak_net, Second); (λ _, ex_tak_net, Payload [2])]
    (mkTakEgress (tak_link_new (ex_tak "udp://239.2.3.1:6969" 8)) (mkRelay [replicate 2000 0] 8 0 0)) (replicate 2000 0) [] eq_refl eq_refl _ _)).
  - intros nets H. cbn in H. by repeat (apply elem_of_cons in H as [->|H]); [..|apply elem_of_nil in H].
  - vm_compute. discriminate.
Defined.

(** * The target *)


Example endpoint_and_name :
  let cfg := ex_tak "tls://takserver.example:8089" 1000 in
  (endpoint cfg, sni cfg, is_datagram cfg) = (s2b "takserver.example:8089", s2b "takserver.example", false).
Proof. reflexivity. Qed.
