(* ===== verification/Config.v ===== *)
(** The connector's configuration (rust/connectors/common/src/config.rs) and the
    profile the operator registers from it (rust/connectors/common/src/profile.rs).
    The TOML reader is a parameter. *)
From Stdlib Require Import ZArith Lia.
From Stdlib Require Import Strings.String.
From S2P Require Export F64 Stream Marking Parser Json.

Local Open Scope Z_scope.

(** * The file *)

(** @src rust/connectors/common/src/spool.rs 13-23 SpoolConfig *)
Record SpoolConfig := mkSpoolConfig { spool_dir : string; max_bytes : Z; drain_rate : f64 }.

(** @src rust/connectors/common/src/spool.rs 25-42 SpoolConfig::with_dir default_max_bytes default_drain_rate *)
Definition with_dir (dir : string) : SpoolConfig := mkSpoolConfig dir (256 * 1024 * 1024) (f_of_Z 50).

(** @src rust/connectors/common/src/config.rs 148-153 SpoolSetting *)
Inductive SpoolSetting := Dir (dir : string) | Full (cfg : SpoolConfig).

(** @src rust/connectors/common/src/config.rs 182-191 SensorSite *)
Record SensorSite := mkSensorSite { site_lat : f64; site_lon : f64; site_alt_m : option f64 }.

(** @src rust/connectors/common/src/config.rs 123-132 DdsReliability *)
Inductive DdsReliability := BestEffort | Reliable.
(** @src rust/connectors/common/src/config.rs 134-146 DdsPayload *)
Inductive DdsPayload := DBody | DOctets | DString.
(** @src rust/connectors/common/src/config.rs 90-110 DdsOptions *)
Record DdsOptions := mkDdsOptions {
  domain : Z;
  topic : string;
  type_name : string;
  reliability : DdsReliability;
  dds_payload : DdsPayload;
  interface_ip : option string
}.

(** @src rust/connectors/common/src/config.rs 236-358 Transport *)
Inductive Transport :=
| UdpMulticast (bind group : string) (interface : option string)
| Udp (bind : string)
| TcpServer (bind : string) (framing : Framing)
| TcpClient (connect : string) (framing : Framing)
| Directory (path : string) (process_existing : bool)
| File (path : string) (from_start : bool) (framing : Framing)
| Exec (command : string) (args : list string)
| Stdin (framing : Framing)
| HttpServer (bind path : string) (token tls_cert tls_key tls_client_ca : option string)
| PcapReplay (path : string) (speed : f64) (looping : bool) (port : option Z) (max_gap_ms : Z)
| Serial (device : string) (baud : Z)
| Dds (opts : DdsOptions)
| Mqtt (host topic : string)
| WsClient (url : string) (subscribe : option string) (headers : list (string * string))
| RestPoll (url : string) (interval_secs : Z) (auth_header : option string).

(** [entity_map] in the order a run of the process iterates it, which varies. *)
(** @src rust/connectors/common/src/config.rs 14-47 Config *)
Record Config := mkConfig {
  cfg_source_id : string;
  nats_url : string;
  subject_prefix : string;
  signing_key_path : string;
  transport : Transport;
  entity_map : list (string * string);
  default_hostility : option string;
  cfg_marking : option MarkingConfig;
  sensor : option SensorSite;
  cfg_spool : option SpoolSetting
}.

(** @src rust/connectors/common/src/config.rs 68-72 Config::marking *)
Definition marking (self : Config) : res MarkingError (option Marking) :=
  match cfg_marking self with None => Ok None | Some m => m ← from_config m; Ok (Some m) end.

(** @src rust/connectors/common/src/config.rs 74-81 Config::spool_config *)
Definition spool_config (self : Config) : option SpoolConfig :=
  match cfg_spool self with
  | None => None
  | Some (Full cfg) => Some cfg
  | Some (Dir dir) => Some (with_dir dir)
  end.

(** @src rust/connectors/common/src/config.rs 83-87 Config::enrichment *)
Definition enrichment (self : Config) : Enrichment := mkEnrichment (default_hostility self).

(** * The nearest name *)

Section distance.
Context {A : Type} `{EqDecision A}.

(** The inner loop, from column [j]; the cells are read where the code indexes, and
    one that is not there is a panic. *)
Fixpoint next_row (prev : list nat) (ca : A) (j : nat) (b : list A) (cur : list nat) : option (list nat) :=
  match b with
  | [] => Some cur
  | cb :: b =>
      let cost := if decide (ca = cb) then 0%nat else 1%nat in
      diagonal ← prev !! j; above ← prev !! S j; beside ← cur !! j;
      next_row prev ca (S j) b (cur ++ [Nat.min (Nat.min (diagonal + cost) (above + 1)) (beside + 1)])
  end%nat.

Fixpoint rows (a b : list A) (i : nat) (prev : list nat) : option (list nat) :=
  match a with
  | [] => Some prev
  | ca :: a => cur ← next_row prev ca 0 b [(i + 1)%nat]; rows a b (S i) cur
  end.

(** @src rust/connectors/common/src/config.rs 418-432 edit_distance *)
Definition edit_distance (a b : list A) : option nat :=
  prev ← rows a b 0 (seq 0 (S (length b))); prev !! length b.
End distance.

(** [str::chars] of a valid string, as code points. *)
Fixpoint chars (l : bytes) : list Z :=
  match l with
  | [] => []
  | b0 :: t =>
      if b0 <? 0x80 then b0 :: chars t
      else match t with
      | [] => []
      | b1 :: t1 =>
          let c1 := Z.land b1 0x3F in
          if b0 <? 0xE0 then (Z.lor (Z.shiftl (Z.land b0 0x1F) 6) c1) :: chars t1
          else match t1 with
          | [] => []
          | b2 :: t2 =>
              let c2 := Z.land b2 0x3F in
              if b0 <? 0xF0 then (Z.lor (Z.shiftl (Z.land b0 0xF) 12) (Z.lor (Z.shiftl c1 6) c2)) :: chars t2
              else match t2 with
              | [] => []
              | b3 :: t3 =>
                  (Z.lor (Z.shiftl (Z.land b0 0x7) 18) (Z.lor (Z.shiftl c1 12) (Z.lor (Z.shiftl c2 6) (Z.land b3 0x3F)))) :: chars t3
              end
          end
      end
  end.

(** [str::split_once] by a text. *)
Fixpoint split_once (p l : bytes) : option (bytes * bytes) :=
  match Text.strip_prefix p l with
  | Some r => Some ([], r)
  | None => match l with [] => None | x :: l => match split_once p l with Some (h, t) => Some (x :: h, t) | None => None end end
  end.

(** @src rust/connectors/common/src/config.rs 409-416 FEATURE_GATED_KINDS *)
Definition FEATURE_GATED_KINDS : list (string * string) :=
  [("dds", "dds"); ("serial", "serial"); ("mqtt", "mqtt"); ("rest-poll", "rest-poll"); ("ws-client", "websocket")]%string.

(** What the hint says: the feature a kind needs, or the nearest name. *)
Inductive Hint := NeedsFeature (kind feature : string) | DidYouMean (what : string) (name : bytes).

Definition backtick (b : Z) : bool := b =? 96.
(** Of the list after "expected one of", the names. *)
Definition candidates (list_ : bytes) : list bytes :=
  filter (λ c, c ≠ []) (omap (λ c, head (split_on 96 (rev (drop_while backtick (rev (drop_while backtick (trim c))))))) (split_on 44 list_)).

(** The least of (distance, name), in their lexicographic order; an index out of
    range would be a panic. *)
Fixpoint nearest (typo : bytes) (cs : list bytes) : option (option (nat * bytes)) :=
  match cs with
  | [] => Some None
  | c :: cs =>
      d ← edit_distance (chars typo) (chars c);
      best ← nearest typo cs;
      Some (Some (match best with
                  | Some (d', c') => if (d <? d')%nat || ((d =? d')%nat && String.leb (b2s c) (b2s c')) then (d, c) else (d', c')
                  | None => (d, c)
                  end))
  end.

(** @src rust/connectors/common/src/config.rs 374-407 did_you_mean *)
Definition did_you_mean (msg : bytes) : res Empty_set (option Hint) :=
  match match split_once (s2b "unknown field `") msg with
        | Some (_, r) => Some ("field"%string, r)
        | None => match split_once (s2b "unknown variant `") msg with Some (_, r) => Some ("value"%string, r) | None => None end
        end with
  | None => Ok None
  | Some (what, rest) =>
      match split_once [96] rest with
      | None => Ok None
      | Some (typo, rest) =>
          match (if String.eqb what "value" then find_map (λ '(k, f), if bool_decide (s2b k = typo) then Some (k, f) else None) FEATURE_GATED_KINDS else None) with
          | Some (kind, feature) => Ok (Some (NeedsFeature kind feature))
          | None =>
              match split_once (s2b "expected one of ") rest with
              | None => Ok None
              | Some (_, list_) =>
                  match nearest typo (candidates list_) with
                  | None => Panic
                  | Some None => Ok None
                  | Some (Some (d, c)) => Ok (if Z.of_nat d <=? Z.max 2 (zlen typo / 3) then Some (DidYouMean what c) else None)
                  end
              end
          end
      end
  end.

Inductive LoadError := NoFile | BadToml (msg : bytes) (hint : option Hint) | BadMarking (e : MarkingError).

Section load.
(** [toml::from_str], with the text of its error. *)
Variable from_str : bytes → res bytes Config.

(** @src rust/connectors/common/src/config.rs 50-66 Config::load *)
Definition load (file : option bytes) : res LoadError Config :=
  match file with
  | None => Err NoFile
  | Some text =>
      match from_str text with
      | Ok cfg => match marking cfg with Ok _ => Ok cfg | Err e => Err (BadMarking e) | Panic => Panic | NoFuel => NoFuel end
      | Err msg => match did_you_mean msg with Ok hint => Err (BadToml msg hint) | Err e => match e with end | Panic => Panic | NoFuel => NoFuel end
      | Panic => Panic
      | NoFuel => NoFuel
      end
  end.
End load.

(** * The profile *)

(** @src rust/connectors/common/src/profile.rs 12-23 Profile *)
Record Profile := mkProfile {
  p_contract : option string;
  p_source_id : string;
  allowed_entity_types : list string;
  p_max_payload_bytes : option Z;
  verifying_key_hex : string
}.

(** The loop over the mapped types: one no prefix so far covers is added. *)
Fixpoint cover (allowed : list string) (mapped : list string) : list string :=
  match mapped with
  | [] => allowed
  | m :: mapped => cover (if existsb (λ p, str_starts p m) allowed then allowed else allowed ++ [m]) mapped
  end.

(** @src rust/connectors/common/src/profile.rs 26-53 Profile::derive *)
Definition derive (cfg : Config) (key_hex : string) (entity_type_prefixes : list string) : Profile :=
  mkProfile (Some "v1"%string) (cfg_source_id cfg)
    (dedup (sort_strings (cover entity_type_prefixes (entity_map cfg).*2))) (Some (64 * 1024)) key_hex.

(** * Edit distance *)

Section edits.
Context {A : Type} `{EqDecision A}.
Implicit Types a b c : list A.

(** One character put in, left out or replaced. *)
Inductive edit : list A → list A → Prop :=
| insert p x s : edit (p ++ s) (p ++ x :: s)
| remove p x s : edit (p ++ x :: s) (p ++ s)
| replace p x y s : edit (p ++ x :: s) (p ++ y :: s).

(** Two texts side by side, [n] places apart. *)
Inductive aligned : nat → list A → list A → Prop :=
| al_nil : aligned 0 [] []
| al_keep n x a b : aligned n a b → aligned n (x :: a) (x :: b)
| al_replace n x y a b : aligned n a b → aligned (S n) (x :: a) (y :: b)
| al_remove n x a b : aligned n a b → aligned (S n) (x :: a) b
| al_insert n y a b : aligned n a b → aligned (S n) a (y :: b).
Hint Constructors aligned : core.

Lemma aligned_refl a : aligned 0 a a.
Proof. induction a; auto. Qed.

Lemma edit_cons x a b : edit a b → edit (x :: a) (x :: b).
Proof. intros []; [apply (insert (x :: p))|apply (remove (x :: p))|apply (replace (x :: p))]. Qed.

Lemma edits_cons n x a b : nsteps edit n a b → nsteps edit n (x :: a) (x :: b).
Proof. induction 1; [constructor|]. econstructor; [by apply edit_cons|done]. Qed.

Lemma aligned_edits n a b : aligned n a b → nsteps edit n a b.
Proof.
  induction 1 as [|n x a b _ IH|n x y a b _ IH|n x a b _ IH|n y a b _ IH]; [constructor|by apply edits_cons|..].
  - econstructor; [apply (replace [] x y)|]. by apply edits_cons.
  - econstructor; [apply (remove [] x)|done].
  - econstructor; [apply (insert [] y)|]. by apply edits_cons.
Qed.

(** A cell of the row: what its three neighbours make of it. *)
Lemma aligned_remove_inv n a b x : aligned n a b → ∀ b1 b2, b = b1 ++ x :: b2 → ∃ m, (m ≤ S n)%nat ∧ aligned m a (b1 ++ b2).
Proof.
  induction 1 as [|n z a b H IH|n z w a b H IH|n z a b H IH|n w a b H IH]; intros b1 b2 E.
  - by destruct b1.
  - destruct b1 as [|z' b1]; injection E as -> ->; [exists (S n); auto|]. destruct (IH b1 b2 eq_refl) as (m & Hm & Ha). exists m. split; [lia|]. cbn. auto.
  - destruct b1 as [|z' b1]; injection E as -> ->; [exists (S n); auto|]. destruct (IH b1 b2 eq_refl) as (m & Hm & Ha). exists (S m). split; [lia|]. cbn. auto.
  - destruct (IH b1 b2 E) as (m & Hm & Ha). exists (S m). split; [lia|auto].
  - destruct b1 as [|z' b1]; injection E as -> ->; [exists n; auto|]. destruct (IH b1 b2 eq_refl) as (m & Hm & Ha). exists (S m). split; [lia|]. cbn. auto.
Qed.

Lemma aligned_insert n a b x : aligned n a b → ∀ b1 b2, b = b1 ++ b2 → aligned (S n) a (b1 ++ x :: b2).
Proof.
  induction 1 as [|n z a b H IH|n z w a b H IH|n z a b H IH|n w a b H IH]; intros b1 b2 E.
  - destruct b1; [|done]. destruct b2; [|done]. cbn. auto.
  - destruct b1 as [|z' b1]; cbn in E; [subst b2; cbn; auto|]. injection E as -> ->. cbn. auto.
  - destruct b1 as [|z' b1]; cbn in E; [subst b2; cbn; auto|]. injection E as -> ->. cbn. auto.
  - auto.
  - destruct b1 as [|z' b1]; cbn in E; [subst b2; cbn; auto|]. injection E as -> ->. cbn. auto.
Qed.

Lemma aligned_replace n a b x y : aligned n a b → ∀ b1 b2, b = b1 ++ x :: b2 → ∃ m, (m ≤ S n)%nat ∧ aligned m a (b1 ++ y :: b2).
Proof.
  induction 1 as [|n z a b H IH|n z w a b H IH|n z a b H IH|n w a b H IH]; intros b1 b2 E.
  - by destruct b1.
  - destruct b1 as [|z' b1]; injection E as -> ->; [exists (S n); cbn; auto|]. destruct (IH b1 b2 eq_refl) as (m & Hm & Ha). exists m. split; [lia|]. cbn. auto.
  - destruct b1 as [|z' b1]; injection E as -> ->; [exists (S n); cbn; auto|]. destruct (IH b1 b2 eq_refl) as (m & Hm & Ha). exists (S m). split; [lia|]. cbn. auto.
  - destruct (IH b1 b2 E) as (m & Hm & Ha). exists (S m). split; [lia|auto].
  - destruct b1 as [|z' b1]; injection E as -> ->; [exists (S n); cbn; auto|]. destruct (IH b1 b2 eq_refl) as (m & Hm & Ha). exists (S m). split; [lia|]. cbn. auto.
Qed.

Lemma edits_aligned n a b : nsteps edit n a b → ∃ m, (m ≤ n)%nat ∧ aligned m a b.
Proof.
  revert b. induction n as [|n IH]; intros b H; [inversion H; subst; exists 0%nat; split; [lia|apply aligned_refl]|].
  apply nsteps_inv_r in H as (c & Hc & He). destruct (IH c Hc) as (m & Hm & Ha). inversion He as [p x s E1 E2|p x s E1 E2|p x y s E1 E2]; subst.
  - exists (S m). split; [lia|]. by eapply aligned_insert.
  - destruct (aligned_remove_inv m a _ x Ha p s eq_refl) as (k & Hk & Hal). exists k. split; [lia|done].
  - destruct (aligned_replace m a _ x y Ha p s eq_refl) as (k & Hk & Hal). exists k. split; [lia|done].
Qed.

(** The recursion of the distance. *)
Fixpoint lev a b : nat :=
  match a with
  | [] => length b
  | x :: a' =>
      (fix go b := match b with
                   | [] => S (length a')
                   | y :: b' => Nat.min (Nat.min (lev a' b' + (if decide (x = y) then 0 else 1)) (lev a' b + 1)) (go b' + 1)
                   end) b
  end%nat.

Lemma lev_cons x a y b :
  lev (x :: a) (y :: b) = Nat.min (Nat.min (lev a b + (if decide (x = y) then 0 else 1)) (lev a (y :: b) + 1)) (lev (x :: a) b + 1).
Proof. done. Qed.
Lemma lev_nil_r a : lev a [] = length a.
Proof. by destruct a. Qed.

Lemma lev_aligned a b : aligned (lev a b) a b.
Proof.
  revert b. induction a as [|x a IH]; intros b; [induction b; cbn in *; auto|].
  induction b as [|y b IHb']; [rewrite lev_nil_r; pose proof (IH []) as H; rewrite lev_nil_r in H; cbn; auto|].
  rewrite lev_cons. destruct (Nat.min_dec (Nat.min (lev a b + (if decide (x = y) then 0 else 1)) (lev a (y :: b) + 1)) (lev (x :: a) b + 1)) as [-> | ->];
    [destruct (Nat.min_dec (lev a b + (if decide (x = y) then 0 else 1)) (lev a (y :: b) + 1)) as [-> | ->]|].
  - destruct (decide (x = y)) as [->|]; rewrite ?Nat.add_0_r, ?Nat.add_1_r; auto.
  - rewrite Nat.add_1_r. auto.
  - rewrite Nat.add_1_r. auto.
Qed.

Lemma aligned_lev n a b : aligned n a b → (lev a b ≤ n)%nat.
Proof.
  induction 1 as [|n x a b H IH|n x y a b H IH|n x a b H IH|n y a b H IH]; [done|..].
  - rewrite lev_cons, decide_True by done. lia.
  - rewrite lev_cons. destruct (decide (x = y)); lia.
  - destruct b as [|y b]; [rewrite lev_nil_r in *; cbn; lia|]. rewrite lev_cons. lia.
  - destruct a as [|x a]; [cbn in *; lia|]. rewrite lev_cons. lia.
Qed.

Lemma aligned_app n m a b c d : aligned n a b → aligned m c d → aligned (n + m) (a ++ c) (b ++ d).
Proof. induction 1; cbn; auto. Qed.

Lemma aligned_rev n a b : aligned n a b → aligned n (rev a) (rev b).
Proof.
  induction 1 as [|n x a b H IH|n x y a b H IH|n x a b H IH|n y a b H IH]; [done|..]; cbn [rev].
  - rewrite <- (Nat.add_0_r n). apply aligned_app; [done|apply aligned_refl].
  - rewrite <- Nat.add_1_r. apply aligned_app; auto.
  - rewrite <- Nat.add_1_r, <- (app_nil_r (rev b)). apply aligned_app; auto.
  - rewrite <- Nat.add_1_r, <- (app_nil_r (rev a)). apply aligned_app; auto.
Qed.

Lemma lev_rev a b : lev (rev a) (rev b) = lev a b.
Proof.
  apply Nat.le_antisymm; apply aligned_lev; [apply aligned_rev, lev_aligned|].
  rewrite <- (rev_involutive a), <- (rev_involutive b) at 2. apply aligned_rev, lev_aligned.
Qed.

(** ** The table *)

(** Row [a] of the table: the distances from [a] to the beginnings of [b], both
    read from their ends. *)
Definition row a b : list nat := (λ j, lev (rev a) (rev (take j b))) <$> seq 0 (S (length b)).

Lemma row_lookup a b j : (j ≤ length b)%nat → row a b !! j = Some (lev (rev a) (rev (take j b))).
Proof. intros H. unfold row. rewrite list_lookup_fmap, lookup_seq_lt by lia. done. Qed.

Lemma next_row_spec a x b : ∀ j, (j ≤ length b)%nat →
  next_row (row a b) x j (drop j b) ((λ k, lev (rev (a ++ [x])) (rev (take k b))) <$> seq 0 (S j)) = Some (row (a ++ [x]) b).
Proof.
  intros j Hj. remember (length b - j)%nat as d eqn:Hd. revert j Hj Hd. induction d as [|d IH]; intros j Hj Hd.
  - assert (j = length b) as -> by lia. rewrite drop_all. done.
  - destruct (drop j b) as [|y t] eqn:E; [apply (f_equal length) in E; rewrite length_drop in E; cbn in E; lia|].
    assert (b !! j = Some y) as Hy by (by rewrite <- (Nat.add_0_r j), <- lookup_drop, E).
    assert (drop (S j) b = t) as Ht by (rewrite <- Nat.add_1_r, <- drop_drop, E; done).
    cbn [next_row]. rewrite (row_lookup a b j), (row_lookup a b (S j)) by lia.
    rewrite list_lookup_fmap, lookup_seq_lt by lia. cbn [mbind option_bind fmap option_fmap option_map].
    specialize (IH (S j) ltac:(lia) ltac:(lia)). rewrite Ht in IH. rewrite <- IH. f_equal.
    rewrite (seq_S (S j)), fmap_app. f_equal. cbn [fmap list_fmap Nat.add]. f_equal.
    rewrite (take_S_r b j y Hy), !rev_app_distr. cbn [rev app]. rewrite lev_cons. done.
Qed.

Lemma rows_spec a b : ∀ p, rows a b (length p) (row p b) = Some (row (p ++ a) b).
Proof.
  induction a as [|x a IH]; intros p; cbn [rows]; [by rewrite app_nil_r|].
  pose proof (next_row_spec p x b 0 ltac:(lia)) as H. rewrite drop_0 in H. cbn [seq fmap list_fmap] in H.
  assert (lev (rev (p ++ [x])) (rev (take 0 b)) = length p + 1)%nat as E by (rewrite take_0; cbn [rev]; rewrite lev_nil_r, length_rev, length_app; done).
  rewrite E in H. rewrite H. cbn [mbind option_bind]. specialize (IH (p ++ [x])). rewrite length_app, Nat.add_1_r in IH. rewrite IH. by rewrite <- app_assoc.
Qed.

Lemma edit_distance_lev a b : edit_distance a b = Some (lev a b).
Proof.
  unfold edit_distance. assert (seq 0 (S (length b)) = row [] b) as ->.
  { unfold row. rewrite <- (list_fmap_id (seq 0 (S (length b)))) at 1. apply list_fmap_ext. intros i j Hj. cbn [rev lev].
    apply lookup_seq in Hj as [-> Hj]. rewrite length_rev, length_take. cbn. lia. }
  change 0%nat with (length (@nil A)). rewrite rows_spec. cbn [app mbind option_bind]. rewrite row_lookup by lia.
  by rewrite firstn_all, lev_rev.
Qed.

(** the distance the hint measures is the least number of characters to put in,
    leave out or replace to get one name from the other; and no index of its table
    is out of range. *)
Theorem edit_distance_least a b :
  ∃ d, edit_distance a b = Some d ∧ nsteps edit d a b ∧ ∀ n, nsteps edit n a b → (d ≤ n)%nat.
Proof.
  exists (lev a b). split; [apply edit_distance_lev|]. split; [apply aligned_edits, lev_aligned|].
  intros n (m & Hm & Ha)%edits_aligned. apply aligned_lev in Ha. lia.
Qed.
End edits.

(** A hint names one of the candidates, none of which is nearer. *)
Lemma nearest_least typo cs :
  match nearest typo cs with
  | None => False
  | Some None => cs = []
  | Some (Some (d, c)) => c ∈ cs ∧ edit_distance (chars typo) (chars c) = Some d ∧
      ∀ c', c' ∈ cs → ∃ d', edit_distance (chars typo) (chars c') = Some d' ∧ (d ≤ d')%nat
  end.
Proof.
  induction cs as [|c cs IH]; [done|]. cbn [nearest]. rewrite edit_distance_lev. cbn [mbind option_bind].
  destruct (nearest typo cs) as [[[d' c']|]|]; [| |done]; cbn [mbind option_bind].
  - destruct IH as (Hin & Hd & Hall). rewrite edit_distance_lev in Hd. injection Hd as <-.
    set (d := lev (chars typo) (chars c)) in *. set (d' := lev (chars typo) (chars c')) in *.
    destruct ((d <? d')%nat || ((d =? d')%nat && String.leb (b2s c) (b2s c'))) eqn:E.
    + assert (d ≤ d')%nat as Hle by (apply orb_true_iff in E as [E%Nat.ltb_lt|[E%Nat.eqb_eq _]%andb_true_iff]; lia).
      split; [by left|]. split; [by rewrite edit_distance_lev|]. intros e [->|He]%elem_of_cons; [eexists; by rewrite edit_distance_lev|].
      destruct (Hall e He) as (k & Hk & Hl). exists k. split; [done|lia].
    + apply orb_false_iff in E as [E%Nat.ltb_ge _]. split; [by right|]. split; [by rewrite edit_distance_lev|].
      intros e [->|He]%elem_of_cons; [eexists; by rewrite edit_distance_lev|]. by apply Hall.
  - subst cs. split; [by left|]. split; [by rewrite edit_distance_lev|]. intros e [->|He]%elem_of_cons; [eexists; by rewrite edit_distance_lev|by apply elem_of_nil in He].
Qed.

Lemma push_tokens_safe prefix field raws : ∀ ts, safe (push_tokens prefix field raws ts).
Proof.
  induction raws as [|raw raws IH]; intros ts; [done|]. cbn [push_tokens]. apply safe_bind; [|intros; apply IH].
  unfold token. by destruct (_ && _).
Qed.

Lemma from_config_safe cfg : safe (from_config cfg).
Proof.
  unfold from_config. apply safe_bind; [destruct (classification cfg); [apply safe_bind; [apply safe_ok_or|done]|done]|intros t1 _].
  apply safe_bind; [destruct (policy cfg); [apply push_tokens_safe|done]|intros t2 _].
  apply safe_bind; [apply push_tokens_safe|intros t3 _]. apply safe_bind; [apply push_tokens_safe|intros t4 _].
  case_bool_decide; [done|]. by destruct (_ <? _).
Qed.

Lemma marking_safe cfg : safe (marking cfg).
Proof. unfold marking. destruct (cfg_marking cfg); [|done]. apply safe_bind; [apply from_config_safe|done]. Qed.

Lemma did_you_mean_safe msg : safe (did_you_mean msg).
Proof.
  unfold did_you_mean. destruct (match split_once _ msg with Some _ => _ | None => _ end) as [[what rest]|]; [|done].
  destruct (split_once [96] rest) as [[typo rest']|]; [|done].
  destruct (if String.eqb what "value" then _ else None) as [[k f]|]; [done|].
  destruct (split_once _ rest') as [[h l]|]; [|done]. pose proof (nearest_least typo (candidates l)) as Hn.
  by destruct (nearest typo (candidates l)) as [[[d c]|]|].
Qed.

(** Reading a configuration never panics, and one that loads has a valid marking. *)
Lemma load_safe from_str file :
  (∀ text, safe (from_str text)) → safe (load from_str file) ∧ ∀ cfg, load from_str file = Ok cfg → ∃ m, marking cfg = Ok m.
Proof.
  intros Hf. unfold load. destruct file as [text|]; [|done]. specialize (Hf text). destruct (from_str text) as [cfg|msg| |]; try done.
  - pose proof (marking_safe cfg) as Hm. destruct (marking cfg) as [m| | |] eqn:E; try done. split; [done|]. intros c [= <-]. by exists m.
  - pose proof (did_you_mean_safe msg) as Hd. by destruct (did_you_mean msg) as [hint|[]| |].
Qed.

(** * What the profile admits *)

(** Core admits a type that starts with an allowed one. *)
Definition admits (p : Profile) (entity_type : string) : Prop := ∃ a, a ∈ allowed_entity_types p ∧ str_starts a entity_type = true.

Lemma str_starts_refl s : str_starts s s = true.
Proof. apply bool_decide_eq_true. exists ""%string. induction s as [|a s IH]; [done|]. cbn [str_strip]. by rewrite Ascii.eqb_refl. Qed.

Lemma append_assoc (a b c : string) : ((a ++ b) ++ c = a ++ (b ++ c))%string.
Proof. induction a as [|x a IH]; [done|]. exact (f_equal (String x) IH). Qed.

Lemma str_starts_trans a b c : str_starts a b = true → str_starts b c = true → str_starts a c = true.
Proof.
  intros [r Hr]%bool_decide_eq_true [s Hs]%bool_decide_eq_true. apply bool_decide_eq_true. apply str_strip_Some in Hr, Hs. subst.
  exists (r ++ s)%string. rewrite append_assoc. apply str_strip_app.
Qed.

Lemma cover_spec mapped : ∀ allowed,
  let out := cover allowed mapped in
  (∀ m, m ∈ mapped → ∃ p, p ∈ out ∧ str_starts p m = true) ∧ (∀ p, p ∈ allowed → p ∈ out) ∧ (∀ p, p ∈ out → p ∈ allowed ∨ p ∈ mapped).
Proof.
  induction mapped as [|m mapped IH]; intros allowed; cbv zeta; cbn [cover]; [split; [by intros m ?%elem_of_nil|auto]|].
  set (next := if existsb _ allowed then allowed else allowed ++ [m]).
  destruct (IH next) as (H1 & H2 & H3).
  assert (∀ p, p ∈ allowed → p ∈ next) as Hn by (intros p Hp; unfold next; destruct (existsb _ _); [done|apply elem_of_app; by left]).
  assert (∃ p, p ∈ next ∧ str_starts p m = true) as (p & Hp & Hm).
  { unfold next. destruct (existsb _ allowed) eqn:E.
    - apply existsb_exists in E as (p & Hp%list_elem_of_In & Hm). by exists p.
    - exists m. split; [apply elem_of_app; right; by left|apply str_starts_refl]. }
  split; [|split].
  - intros x [->|Hx]%elem_of_cons; [exists p; auto|by apply H1].
  - auto.
  - intros q Hq. destruct (H3 q Hq) as [Hq'|Hq']; [|right; by right]. unfold next in Hq'. destruct (existsb _ _); [by left|].
    apply elem_of_app in Hq' as [Hq'|Hq']; [by left|]. right. apply list_elem_of_singleton in Hq' as ->. by left.
Qed.

(** the profile lets through whatever the connector may emit: every type under
    one of its own prefixes and every type the operator maps to, in whatever order
    the map is read; and it asks for nothing else, each prefix once and in order. *)
Theorem profile_covers cfg hex prefixes :
  let p := derive cfg hex prefixes in
  (∀ x t, x ∈ prefixes → str_starts x t = true → admits p t) ∧ (∀ n t, (n, t) ∈ entity_map cfg → admits p t) ∧
  (∀ a, a ∈ allowed_entity_types p → a ∈ prefixes ∨ ∃ n, (n, a) ∈ entity_map cfg) ∧ StronglySorted str_lt (allowed_entity_types p).
Proof.
  cbv zeta. unfold admits. cbn [derive allowed_entity_types]. destruct (cover_spec (entity_map cfg).*2 prefixes) as (H1 & H2 & H3).
  assert (∀ a, a ∈ dedup (sort_strings (cover prefixes (entity_map cfg).*2)) ↔ a ∈ cover prefixes (entity_map cfg).*2) as He
    by (intros a; by rewrite elem_of_dedup, (sort_strings_perm (cover _ _))).
  split; [|split; [|split]].
  - intros x t Hx Ht. exists x. rewrite He. auto.
  - intros n t Ht. destruct (H1 t) as (p & Hp & Hs); [by apply (list_elem_of_fmap_2 snd _ (n, t))|]. exists p. by rewrite He.
  - intros a Ha. apply He, H3 in Ha as [Ha|Ha]; [by left|]. right. apply list_elem_of_fmap in Ha as ([n a'] & -> & Hin). by exists n.
  - apply dedup_sorted, sort_strings_sorted.
Qed.

Definition ex_config (m : list (string * string)) : Config :=
  mkConfig "s" "nats://h:4222" "ajar.ingest" "k" (Stdin Line) m None None None None.

(** The profile depends on the order the map is read in, all the same. *)
Example profile_varies :
  allowed_entity_types (derive (ex_config [("a", "x:cot:"); ("b", "x:cot:tank")]) "00" [])%string
    ≠ allowed_entity_types (derive (ex_config [("b", "x:cot:tank"); ("a", "x:cot:")]) "00" [])%string.
Proof. vm_compute. discriminate. Qed.

Example hint_for_a_typo :
  did_you_mean (s2b "unknown field `sorce_id`, expected one of `source_id`, `nats_url`, `transport`") = Ok (Some (DidYouMean "field" (s2b "source_id"))).
Proof. vm_compute. reflexivity. Qed.
