(* ===== verification/Transports.v ===== *)
(** The network transports (rust/connectors/common/src/tcp.rs, tcp_server.rs,
    exec.rs, serial.rs, ws.rs, rest.rs, mqtt.rs): what reaches the parser of what
    the network brings. The network is a list of what happens next; when it is
    empty a source waits. *)
From Stdlib Require Import ZArith Lia.
From S2P Require Export Stream.

Local Open Scope Z_scope.

(** * Sources that reconnect *)

(** An attempt to connect, to start a command or to open a device: it fails, or
    brings a stream. *)
Inductive Attempt := Refused | Accepted (chunks : list bytes).

Record Source := mkSource { reader : option (list bytes); net : list Attempt }.

Section reconnecting.
Variable read : list bytes → list bytes * res FrameError bytes.
(** Whether an error is the caller's, and the stream kept. *)
Variable passed_on : FrameError → bool.

(** One read of a stream: a frame, an error passed on, or the stream given up. *)
Definition attempt_read (chunks : list bytes) : option (list bytes * res FrameError bytes) :=
  match read chunks with
  | (chunks, Err e) => if passed_on e then Some (chunks, Err e) else None
  | (chunks, r) => Some (chunks, r)
  end.

(** The loop once there is no reader; nothing left to happen is no result. *)
Fixpoint connect_and_read (net : list Attempt) : Source * option (res FrameError bytes) :=
  match net with
  | [] => (mkSource None [], None)
  | Refused :: net => connect_and_read net
  | Accepted chunks :: net =>
      match attempt_read chunks with
      | Some (chunks, r) => (mkSource (Some chunks) net, Some r)
      | None => connect_and_read net
      end
  end.

Definition recv_with (self : Source) : Source * option (res FrameError bytes) :=
  match reader self with
  | Some chunks =>
      match attempt_read chunks with
      | Some (chunks, r) => (mkSource (Some chunks) (net self), Some r)
      | None => connect_and_read (net self)
      end
  | None => connect_and_read (net self)
  end.
End reconnecting.

(** What repeated calls return, until the source waits. *)
Fixpoint recv_all (recv : Source → Source * option (res FrameError bytes)) (fuel : nat) (self : Source) : list (res FrameError bytes) :=
  match fuel with
  | O => []
  | S fuel => match recv self with (self, Some r) => r :: recv_all recv fuel self | (_, None) => [] end
  end.

(** @src rust/connectors/common/src/tcp.rs 20-55 TcpSource::recv connect *)
Definition tcp_recv (framing : Framing) (cap : Z) : Source → Source * option (res FrameError bytes) :=
  recv_with (read_frame framing cap) (λ _, false).

(** @src rust/connectors/common/src/exec.rs 20-64 ExecSource::recv spawn *)
Definition exec_recv (cap : Z) : Source → Source * option (res FrameError bytes) :=
  recv_with (read_line cap) (λ _, false).

(** @src rust/connectors/common/src/serial.rs 19-59 SerialSource::recv open_port *)
Definition serial_recv (cap : Z) : Source → Source * option (res FrameError bytes) :=
  recv_with (read_line cap) (λ e, bool_decide (e = InvalidData)).

(** * The TCP server *)

(** @src rust/connectors/common/src/tcp_server.rs 15-16 CHANNEL_FRAMES *)
Definition CHANNEL_FRAMES : Z := 256.

(** One turn of a connection: a frame to send, nothing, or the end. *)
Inductive Turned := Send (frame : bytes) (chunks : list bytes) | Skip (chunks : list bytes) | Gone.

(** @src rust/connectors/common/src/tcp_server.rs 83-102 connection_loop *)
Definition connection_turn (framing : Framing) (cap : Z) (chunks : list bytes) : Turned :=
  match read_frame framing cap chunks with
  | (chunks, Ok frame) => Send frame chunks
  | (chunks, Err InvalidData) => Skip chunks
  | _ => Gone
  end.

(** The connections by number, the channel, and what [recv] returned so far, each
    frame with its connection. *)
Record Server := mkServer { conns : gmap nat (list bytes); channel : list (nat * bytes); got : list (nat * bytes) }.
Definition server_new : Server := mkServer ∅ [] [].

(** @src rust/connectors/common/src/tcp_server.rs 26-38 TcpServerSource::recv *)
Definition server_recv (cap : Z) (s : Server) : Server :=
  match channel s with
  | (i, frame) :: rest => mkServer (conns s) rest (got s ++ [(i, take (Z.to_nat (Z.min (zlen frame) cap)) frame)])
  | [] => s
  end.

(** The tasks run in any order; a task waits while the channel is full. *)
(** @src rust/connectors/common/src/tcp_server.rs 46-103 accept_loop connection_loop *)
Inductive server_step (framing : Framing) (cap : Z) : list (nat * list bytes) → Server → Server → Prop :=
| s_accept i chunks s : conns s !! i = None →
    server_step framing cap [(i, chunks)] s (mkServer (<[i := chunks]> (conns s)) (channel s) (got s))
| s_send i chunks frame rest s : conns s !! i = Some chunks → connection_turn framing cap chunks = Send frame rest → zlen (channel s) < CHANNEL_FRAMES →
    server_step framing cap [] s (mkServer (<[i := rest]> (conns s)) (channel s ++ [(i, frame)]) (got s))
| s_skip i chunks rest s : conns s !! i = Some chunks → connection_turn framing cap chunks = Skip rest →
    server_step framing cap [] s (mkServer (<[i := rest]> (conns s)) (channel s) (got s))
| s_gone i chunks s : conns s !! i = Some chunks → connection_turn framing cap chunks = Gone →
    server_step framing cap [] s (mkServer (delete i (conns s)) (channel s) (got s))
| s_recv s : server_step framing cap [] s (server_recv cap s).

(** A run, with the connections accepted in it. *)
Inductive server_runs (framing : Framing) (cap : Z) : list (nat * list bytes) → Server → Prop :=
| run_new : server_runs framing cap [] server_new
| run_step opened new s s' : server_runs framing cap opened s → server_step framing cap new s s' →
    Forall (λ n, n.1 ∉ opened.*1) new → server_runs framing cap (opened ++ new) s'.

(** * WebSocket *)

(** @src rust/connectors/common/src/ws.rs 18-19 RETRY_MIN RETRY_MAX *)
Definition RETRY_MIN : Z := 1.
Definition RETRY_MAX : Z := 30.

(** A text or binary message, a control frame, and the three ways a session ends. *)
Inductive WsEvent := Message (payload : bytes) | Control | Closed | Failed.
(** A dial that fails, or a session; past its last event the stream has ended. *)
Inductive Dial := NoDial | Session (events : list WsEvent).

Record WsSource := mkWs { socket : option (list WsEvent); dials : list Dial; backoff : Z }.

(** @src rust/connectors/common/src/ws.rs 121-155 open *)
Definition ws_open (dials : list Dial) : WsSource := mkWs None dials RETRY_MIN.

(** The loop on a session: a frame and what is left of it, or its end. *)
(** @src rust/connectors/common/src/ws.rs 80-112 WsSource::recv *)
Fixpoint session (cap : Z) (events : list WsEvent) : option (list WsEvent * bytes) :=
  match events with
  | [] | Closed :: _ | Failed :: _ => None
  | Control :: events => session cap events
  | Message payload :: events => if cap <? zlen payload then session cap events else Some (events, payload)
  end.

(** The seconds slept, and the frame if one comes. *)
(** @src rust/connectors/common/src/ws.rs 31-79 WsSource::connect WsSource::recv *)
Fixpoint dial_and_read (cap : Z) (dials : list Dial) (backoff : Z) : WsSource * list Z * option bytes :=
  match dials with
  | [] => (mkWs None [] backoff, [], None)
  | NoDial :: dials =>
      let '(self, slept, r) := dial_and_read cap dials (Z.min (backoff * 2) RETRY_MAX) in (self, backoff :: slept, r)
  | Session events :: dials =>
      match session cap events with
      | Some (events, frame) => (mkWs (Some events) dials RETRY_MIN, [], Some frame)
      | None => dial_and_read cap dials RETRY_MIN
      end
  end.

(** @src rust/connectors/common/src/ws.rs 71-114 WsSource::recv *)
Definition ws_recv (cap : Z) (self : WsSource) : WsSource * list Z * option bytes :=
  match socket self with
  | Some events =>
      match session cap events with
      | Some (events, frame) => (mkWs (Some events) (dials self) (backoff self), [], Some frame)
      | None => dial_and_read cap (dials self) (backoff self)
      end
  | None => dial_and_read cap (dials self) (backoff self)
  end.

Fixpoint ws_all (fuel : nat) (cap : Z) (self : WsSource) : list Z * list bytes :=
  match fuel with
  | O => ([], [])
  | S fuel =>
      match ws_recv cap self with
      | (self, slept, Some frame) => let '(slept', frames) := ws_all fuel cap self in (slept ++ slept', frame :: frames)
      | (_, slept, None) => (slept, [])
      end
  end.

(** * Polling and MQTT *)

Record RestPollSource := mkRest { interval : Z; first : bool }.

(** @src rust/connectors/common/src/rest.rs 60-74 open *)
Definition rest_open (interval_secs : Z) : RestPollSource := mkRest (Z.max interval_secs 1) true.

(** Each poll brings a body or fails; a poll sleeps first, except the first. *)
(** @src rust/connectors/common/src/rest.rs 20-51 RestPollSource::recv *)
Fixpoint rest_recv (cap : Z) (self : RestPollSource) (polls : list (option bytes)) : RestPollSource * list (option bytes) * list Z * option bytes :=
  match polls with
  | [] => (self, [], [], None)
  | poll :: polls =>
      let slept := if first self then [] else [interval self] in
      let self := mkRest (interval self) false in
      match poll with
      | Some body => (self, polls, slept, Some (take (Z.to_nat (Z.min (zlen body) cap)) body))
      | None => let '(self, polls, slept', r) := rest_recv cap self polls in (self, polls, slept ++ slept', r)
      end
  end.

(** @src rust/connectors/common/src/mqtt.rs 61-61 open *)
Definition REQUESTS : Z := 64.

(** Whether the source is subscribed, and how many requests wait in the channel to
    the client. *)
Record MqttSource := mkMqtt { subscribed : bool; queued : Z }.
(** @src rust/connectors/common/src/mqtt.rs 62-67 open *)
Definition mqtt_open : MqttSource := mkMqtt false 0.

(** What a poll of the client brings, having taken [took] requests: a message of
    the topic, another event, or a connection error. *)
Inductive MqttPoll := Publish (payload : bytes) | OtherEvent | Disconnects.
Inductive MqttResult := Frame (payload : bytes) | Blocked | Waits.

(** The channel never closes, the source holding its other end; a subscription
    waits while it is full, and then no poll is made that would empty it. *)
(** @src rust/connectors/common/src/mqtt.rs 17-42 MqttSource::recv *)
Fixpoint mqtt_recv (cap : Z) (self : MqttSource) (polls : list (Z * MqttPoll)) : MqttSource * list (Z * MqttPoll) * MqttResult :=
  if negb (subscribed self) && (REQUESTS <=? queued self) then (self, polls, Blocked)
  else
    let queued := if subscribed self then queued self else queued self + 1 in
    match polls with
    | [] => (mkMqtt true queued, [], Waits)
    | (took, poll) :: polls =>
        let queued := Z.max 0 (queued - took) in
        match poll with
        | Publish payload => (mkMqtt true queued, polls, Frame (take (Z.to_nat (Z.min (zlen payload) cap)) payload))
        | OtherEvent => mqtt_recv cap (mkMqtt true queued) polls
        | Disconnects => mqtt_recv cap (mkMqtt false queued) polls
        end
    end.

(** * What a reconnecting source delivers *)

(** Progress: what a read uses of the stream. *)
Lemma line_of_progress cap input : match line_of cap input with (rest, Err UnexpectedEof) => True | (rest, _) => (length rest < length input)%nat end.
Proof.
  unfold line_of. destruct (find_byte 10 input) as [pos|] eqn:E.
  - apply find_byte_Some in E as [[H1 H2] _].
    assert (length (drop (Z.to_nat (pos + 1)) input) < length input)%nat by (rewrite length_drop; unfold zlen in *; lia).
    by destruct (_ <=? _).
  - destruct input as [|b l]; [done|]. destruct (_ <=? _); cbn; lia.
Qed.

Lemma exact_of_progress n input : (0 < n)%nat → match exact_of n input with (rest, Ok _) => (length rest + n = length input)%nat | _ => True end.
Proof. intros Hn. unfold exact_of. destruct (Nat.leb_spec n (length input)); [|done]. rewrite length_drop. lia. Qed.

Lemma prefixed_of_progress cap n val input :
  (0 < n)%nat → match prefixed_of cap n val input with (rest, Err UnexpectedEof) => True | (rest, _) => (length rest < length input)%nat end.
Proof.
  intros Hn. unfold prefixed_of. pose proof (exact_of_progress n input Hn) as H.
  destruct (exact_of n input) as [rest [len|e| |]] eqn:E.
  - destruct (cap <? val len); [lia|]. unfold exact_of. destruct (Nat.leb_spec (Z.to_nat (val len)) (length rest)); [|done]. rewrite length_drop. lia.
  - unfold exact_of in E. destruct (_ <=? _)%nat; by simplify_eq.
  - unfold exact_of in E. by destruct (_ <=? _)%nat.
  - unfold exact_of in E. by destruct (_ <=? _)%nat.
Qed.

(** A stream read frame by frame: each read is as its bytes say, ends with a frame
    or an error, and takes some of it unless the stream ended. *)
Class StreamRead (read : list bytes → list bytes * res FrameError bytes) (rd : bytes → bytes * res FrameError bytes) := {
  sr_read chunks : chunks_ok chunks →
    ∃ chunks', chunks_ok chunks' ∧ read chunks = (chunks', (rd (concat chunks)).2) ∧ concat chunks' = (rd (concat chunks)).1;
  sr_progress input : match rd input with (rest, Err UnexpectedEof) => True | (rest, _) => (length rest < length input)%nat end;
  sr_safe input : safe (rd input).2
}.

Lemma line_of_safe cap input : safe (line_of cap input).2.
Proof. unfold line_of. destruct (find_byte 10 input); [|destruct input; [done|]]; by destruct (_ <=? _). Qed.

Lemma exact_of_safe n input : safe (exact_of n input).2.
Proof. unfold exact_of. by destruct (_ <=? _)%nat. Qed.

Lemma frame_of_safe f cap input : safe (frame_of f cap input).2.
Proof.
  assert (∀ n val, safe (prefixed_of cap n val input).2) as H.
  { intros n val. unfold prefixed_of. pose proof (exact_of_safe n input). destruct (exact_of n input) as [rest [len| | |]]; try done.
    destruct (_ <? _); [done|]. apply exact_of_safe. }
  destruct f; [apply line_of_safe|apply H|apply H].
Qed.

#[export] Instance frame_read f cap : 0 ≤ cap → StreamRead (read_frame f cap) (frame_of f cap).
Proof.
  intros Hc. split; [by intros; apply read_frame_spec| |apply frame_of_safe].
  intros input. destruct f; [apply line_of_progress|apply prefixed_of_progress; lia..].
Qed.
#[export] Instance line_read cap : 0 ≤ cap → StreamRead (read_line cap) (line_of cap).
Proof. intros Hc. split; [by intros; apply read_line_spec|apply line_of_progress|apply line_of_safe]. Qed.

Section reconnects.
Context (read : list bytes → list bytes * res FrameError bytes) (passed_on : FrameError → bool) (rd : bytes → bytes * res FrameError bytes).
Context {SR : StreamRead read rd}.
Hypothesis eof_given_up : passed_on UnexpectedEof = false.

(** The frames of a stream up to the error that gives it up. *)
Fixpoint results_upto (fuel : nat) (input : bytes) : list (res FrameError bytes) :=
  match fuel with
  | O => []
  | S fuel =>
      match rd input with
      | (rest, Ok frame) => Ok frame :: results_upto fuel rest
      | (rest, Err e) => if passed_on e then Err e :: results_upto fuel rest else []
      | _ => []
      end
  end.
Definition results (input : bytes) : list (res FrameError bytes) := results_upto (S (length input)) input.

Lemma results_fuel fuel input : (length input < fuel)%nat → results_upto fuel input = results input.
Proof.
  unfold results. assert (∀ a b input, (length input < a)%nat → (length input < b)%nat → results_upto a input = results_upto b input) as H;
    [|intros; apply H; lia].
  clear fuel input. induction a as [|a IH]; intros b input Ha Hb; [lia|]. destruct b as [|b]; [lia|]. cbn [results_upto].
  pose proof (sr_progress input) as Hp. destruct (rd input) as [rest [frame|[]| |]]; try done; try (f_equal; apply IH; lia).
  - by rewrite eof_given_up.
  - destruct (passed_on InvalidData); [|done]. f_equal. apply IH; lia.
Qed.

Lemma results_step input :
  results input = match rd input with
                  | (rest, Ok frame) => Ok frame :: results rest
                  | (rest, Err e) => if passed_on e then Err e :: results rest else []
                  | _ => []
                  end.
Proof.
  unfold results at 1. cbn [results_upto]. pose proof (sr_progress input) as Hp.
  destruct (rd input) as [rest [frame|[]| |]]; try done; try (f_equal; apply results_fuel; lia).
  - by rewrite eof_given_up.
  - destruct (passed_on InvalidData); [|done]. f_equal. apply results_fuel; lia.
Qed.

Definition net_ok (n : list Attempt) : Prop := Forall (λ a, match a with Refused => True | Accepted chunks => chunks_ok chunks end) n.
Definition attempt_bytes (a : Attempt) : bytes := match a with Refused => [] | Accepted chunks => concat chunks end.
Definition attempt_results (a : Attempt) : list (res FrameError bytes) := match a with Refused => [] | Accepted chunks => results (concat chunks) end.
Definition to_come (self : Source) : nat := length (concat (default [] (reader self))) + length (concat (attempt_bytes <$> net self)).

Lemma attempt_read_spec chunks :
  chunks_ok chunks →
  match attempt_read read passed_on chunks with
  | Some (chunks', r) => chunks_ok chunks' ∧ results (concat chunks) = r :: results (concat chunks') ∧ (length (concat chunks') < length (concat chunks))%nat
  | None => results (concat chunks) = []
  end.
Proof.
  intros Hok. unfold attempt_read. destruct (sr_read chunks Hok) as (chunks' & Hok' & -> & Hc).
  rewrite (results_step (concat chunks)). pose proof (sr_progress (concat chunks)) as Hp. pose proof (sr_safe (concat chunks)) as Hs.
  destruct (rd (concat chunks)) as [rest [frame|e| |]]; cbn [fst snd] in *; try done.
  - by rewrite Hc.
  - destruct (passed_on e) eqn:E; [|done]. destruct e; [by rewrite eof_given_up in E|]. by rewrite Hc.
Qed.

Lemma connect_and_read_spec n :
  net_ok n →
  match connect_and_read read passed_on n with
  | (self, Some r) => net_ok (net self) ∧ chunks_ok (default [] (reader self)) ∧ is_Some (reader self) ∧
      concat (attempt_results <$> n) = r :: results (concat (default [] (reader self))) ++ concat (attempt_results <$> net self) ∧
      (to_come self < length (concat (attempt_bytes <$> n)))%nat
  | (self, None) => concat (attempt_results <$> n) = []
  end.
Proof.
  induction 1 as [|a n Ha Hn IH]; [done|]. destruct a as [|chunks]; cbn [connect_and_read]; [exact IH|].
  pose proof (attempt_read_spec chunks Ha) as H. destruct (attempt_read read passed_on chunks) as [[chunks' r]|].
  - destruct H as (H1 & H2 & H3). cbn [net reader default from_option fmap list_fmap concat attempt_results attempt_bytes]. unfold id. rewrite H2.
    split; [done|]. split; [done|]. split; [by eexists|]. split; [done|]. unfold to_come. cbn [net reader default from_option]. unfold id. rewrite length_app. lia.
  - destruct (connect_and_read read passed_on n) as [self [r|]]; cbn [fmap list_fmap concat attempt_results attempt_bytes]; rewrite H; cbn [app]; [|done].
    destruct IH as (I1 & I2 & I3 & I4 & I5). rewrite length_app. split; [done|]. split; [done|]. split; [done|]. split; [done|]. lia.
Qed.

Lemma recv_all_spec fuel self :
  (to_come self < fuel)%nat → net_ok (net self) → chunks_ok (default [] (reader self)) →
  recv_all (recv_with read passed_on) fuel self = match reader self with Some c => results (concat c) | None => [] end ++ concat (attempt_results <$> net self).
Proof.
  revert self. induction fuel as [|fuel IH]; intros self Hf Hn Hc; [lia|]. cbn [recv_all]. unfold recv_with. unfold to_come in Hf.
  pose proof (connect_and_read_spec (net self) Hn) as Hr.
  assert (let '(s, r) := connect_and_read read passed_on (net self) in
    match r with Some r => r :: recv_all (recv_with read passed_on) fuel s | None => [] end = concat (attempt_results <$> net self)) as Hnet.
  { destruct (connect_and_read read passed_on (net self)) as [s [r|]]; [|done]. destruct Hr as (R1 & R2 & [c R3] & R4 & R5). rewrite R4. f_equal.
    rewrite IH by (done || lia). by rewrite R3. }
  destruct (reader self) as [chunks|] eqn:E; cbn [default from_option app] in *; unfold id in *.
  - pose proof (attempt_read_spec chunks Hc) as H. destruct (attempt_read read passed_on chunks) as [[chunks' r]|].
    + destruct H as (H1 & H2 & H3). rewrite H2. cbn [app]. f_equal. rewrite IH; cbn [net reader]; [done| |done|done]. unfold to_come. cbn [net reader default from_option]. unfold id. lia.
    + rewrite H. cbn [app]. by destruct (connect_and_read read passed_on (net self)) as [s [r|]].
  - by destruct (connect_and_read read passed_on (net self)) as [s [r|]].
Qed.
End reconnects.

(** a TCP source delivers of each connection the frames up to its first error,
    in order and whole, however the bytes arrive and however often a connection is
    refused or lost between, and nothing else; of a connection that carries frames
    and then a part of one, it delivers exactly the frames. *)
Theorem tcp_delivers f cap n :
  0 ≤ cap → net_ok n →
  let frames chunks := results (λ _, false) (frame_of f cap) (concat chunks) in
  recv_all (tcp_recv f cap) (S (length (concat (attempt_bytes <$> n)))) (mkSource None n)
    = concat ((λ a, match a with Refused => [] | Accepted chunks => frames chunks end) <$> n)
  ∧ ∀ chunks ls tail, Forall (frame_ok f cap) ls → concat chunks = concat (enc_frame f <$> ls) ++ tail → (∃ e, (frame_of f cap tail).2 = Err e) →
      frames chunks = Ok <$> ls.
Proof.
  intros Hc Hn. cbv zeta. pose proof (frame_read f cap Hc) as SR. split.
  - pose proof (recv_all_spec (SR := SR) (read_frame f cap) (λ _, false) (frame_of f cap) eq_refl (S (length (concat (attempt_bytes <$> n)))) (mkSource None n)) as H.
    unfold tcp_recv. rewrite H; [done|unfold to_come; cbn; lia|done|constructor].
  - intros chunks ls tail Hl He (e & Ht). rewrite He. clear He. induction Hl as [|l ls Hl Hls IH].
    + cbn [fmap list_fmap concat app]. rewrite (results_step (read_frame f cap) (λ _, false) (frame_of f cap) eq_refl).
      destruct (frame_of f cap tail) as [rest [| | |]]; cbn in Ht; by simplify_eq.
    + change (concat (enc_frame f <$> l :: ls)) with (enc_frame f l ++ concat (enc_frame f <$> ls)). rewrite <- app_assoc.
      rewrite (results_step (read_frame f cap) (λ _, false) (frame_of f cap) eq_refl), frame_of_enc by done. cbn [fmap list_fmap]. f_equal. exact IH.
Qed.

Lemma tcp_delivers_witness :
  recv_all (tcp_recv LengthDelimited 10) 15 (mkSource None [Accepted [[0; 1]; [7; 0; 2; 8]]; Refused; Accepted [[0; 2; 5]; [6; 0; 0]; [0; 3]]])
  = [Ok [7]; Ok [5; 6]; Ok []].
Proof.
  refine (eq_trans (proj1 (tcp_delivers LengthDelimited 10 [Accepted [[0; 1]; [7; 0; 2; 8]]; Refused; Accepted [[0; 2; 5]; [6; 0; 0]; [0; 3]]] _ _)) _).
  - lia.
  - by repeat constructor.
  - vm_compute. reflexivity.
Defined.

(** A serial line keeps its stream across an overlong line; a command is started
    again, and what it had written is lost. *)
Definition ex_overlong : list Attempt := [Accepted [[97; 97; 97; 97; 97; 10; 98; 10]]].

Example overlong_lines :
  recv_all (serial_recv 4) 9 (mkSource None ex_overlong) = [Err InvalidData; Ok [98]]
  ∧ recv_all (exec_recv 4) 9 (mkSource None ex_overlong) = [].
Proof. split; vm_compute; reflexivity. Qed.

(** A connection cut in a line delivers the part of it as a frame. *)
Example cut_line : recv_all (tcp_recv Line 10) 9 (mkSource None [Accepted [[97; 98; 10; 99]]]) = [Ok [97; 98]; Ok [99]].
Proof. vm_compute. reflexivity. Qed.

(** * The server *)

Section server.
Context (f : Framing) (cap : Z) (cap_ok : 0 ≤ cap).

(** What a connection sends, by its bytes alone: its frames, what is over the bound
    left out, to its end. *)
Definition frames_in (input : bytes) : list bytes :=
  omap (λ r, match r with Ok frame => Some frame | _ => None end) (results (λ e, bool_decide (e = InvalidData)) (frame_of f cap) input).
Definition sends (chunks : list bytes) : list bytes := frames_in (concat chunks).

Lemma frames_in_step input :
  frames_in input = match frame_of f cap input with
                    | (rest, Ok frame) => frame :: frames_in rest
                    | (rest, Err InvalidData) => frames_in rest
                    | _ => []
                    end.
Proof.
  pose proof (frame_read f cap cap_ok) as SR. unfold frames_in at 1.
  rewrite (results_step (read_frame f cap) (λ e, bool_decide (e = InvalidData)) (frame_of f cap)) by done.
  by destruct (frame_of f cap input) as [rest [frame|[]| |]].
Qed.

(** A line too long for the bound: it is skipped to its end. *)
Definition overlong (l : bytes) : Prop := f = Line ∧ 10 ∉ l ∧ cap < zlen l.

Lemma frame_of_overlong l k : overlong l → frame_of f cap (enc_frame f l ++ k) = (k, Err InvalidData).
Proof.
  intros (Hf & Hn & Hz). subst. cbn [frame_of enc_frame]. rewrite <- app_assoc. cbn [app]. unfold line_of. rewrite find_byte_app by done.
  assert (Z.to_nat (zlen l) = length l) as -> by (unfold zlen; lia).
  assert (Z.to_nat (zlen l + 1) = length l + 1)%nat as -> by (unfold zlen; lia).
  rewrite take_app_length. replace (zlen l <=? cap) with false by lia. f_equal. by rewrite <- drop_drop, drop_app_length.
Qed.

(** Frames written one after the other, lines too long among them, and then a part
    of one: the frames that fit are what is sent. *)
Lemma frames_in_written ls tail :
  Forall (λ l, frame_ok f cap l ∨ overlong l) ls → (frame_of f cap tail).2 = Err UnexpectedEof →
  frames_in (concat (enc_frame f <$> ls) ++ tail) = filter (λ l, zlen l ≤ cap) ls.
Proof.
  intros Hl Ht. induction Hl as [|l ls Hl Hls IH].
  - cbn [fmap list_fmap concat app]. rewrite frames_in_step. destruct (frame_of f cap tail) as [rest r]; cbn in Ht; by subst.
  - change (concat (enc_frame f <$> l :: ls)) with (enc_frame f l ++ concat (enc_frame f <$> ls)). rewrite <- app_assoc, frames_in_step.
    destruct Hl as [Hl|Hl].
    + rewrite frame_of_enc by done. rewrite filter_cons_True; [by f_equal|]. by destruct f; apply Hl.
    + rewrite frame_of_overlong by done. rewrite filter_cons_False; [done|]. destruct Hl as (_ & _ & ?). lia.
Qed.

Lemma connection_turn_progress chunks :
  chunks_ok chunks →
  match connection_turn f cap chunks with
  | Send frame rest => chunks_ok rest ∧ (length (concat rest) < length (concat chunks))%nat ∧ zlen frame ≤ cap
  | Skip rest => chunks_ok rest ∧ (length (concat rest) < length (concat chunks))%nat
  | Gone => True
  end.
Proof.
  intros Hok. unfold connection_turn. destruct (read_frame_spec f cap chunks cap_ok Hok) as (chunks' & Hok' & -> & Hc).
  pose proof (sr_progress (StreamRead := frame_read f cap cap_ok) (concat chunks)) as Hp.
  assert (∀ fr, (frame_of f cap (concat chunks)).2 = Ok fr → zlen fr ≤ cap) as Hz.
  { intros fr. assert (∀ n val, (prefixed_of cap n val (concat chunks)).2 = Ok fr → zlen fr ≤ cap) as H.
    { intros n val. unfold prefixed_of. destruct (exact_of n (concat chunks)) as [rest [len| | |]]; try done.
      destruct (Z.ltb_spec cap (val len)); [done|]. unfold exact_of. destruct (Nat.leb_spec (Z.to_nat (val len)) (length rest)); [|done].
      intros [= <-]. unfold zlen. rewrite length_take. lia. }
    destruct f; [|apply H|apply H]. cbn [frame_of]. unfold line_of.
    assert (∀ l : bytes, zlen (strip_cr l) ≤ zlen l) as Hs.
    { intros l. unfold strip_cr, trim_end_matches. rewrite zlen_rev. destruct (drop_while_suffix (Z.eqb 13) (rev l)) as (k & E & _).
      apply (f_equal zlen) in E. rewrite zlen_app, zlen_rev in E. pose proof (zlen_nonneg k). lia. }
    destruct (find_byte 10 (concat chunks)); [|destruct (concat chunks)]; try done;
      match goal with |- context [zlen ?x <=? cap] => destruct (Z.leb_spec (zlen x) cap); [|done]; intros [= <-]; specialize (Hs x); lia end. }
  destruct (frame_of f cap (concat chunks)) as [rest [frame|[]| |]]; cbn [fst snd] in *; subst; try done.
  split; [done|]. split; [lia|]. by apply Hz.
Qed.

Lemma sends_step chunks :
  chunks_ok chunks →
  sends chunks = match connection_turn f cap chunks with Send frame rest => frame :: sends rest | Skip rest => sends rest | Gone => [] end.
Proof.
  intros Hok. unfold sends, connection_turn. destruct (read_frame_spec f cap chunks cap_ok Hok) as (chunks' & _ & -> & Hc).
  rewrite frames_in_step. pose proof (frame_of_safe f cap (concat chunks)) as Hs.
  destruct (frame_of f cap (concat chunks)) as [rest [frame|[]| |]]; cbn [fst snd] in *; by rewrite ?Hc.
Qed.

(** The frames of connection [i]. *)
Definition of_conn (i : nat) (l : list (nat * bytes)) : list bytes := (filter (λ x, x.1 = i) l).*2.
Lemma of_conn_app i l k : of_conn i (l ++ k) = of_conn i l ++ of_conn i k.
Proof. unfold of_conn. by rewrite filter_app, fmap_app. Qed.
Lemma of_conn_one i j frame : of_conn i [(j, frame)] = if decide (j = i) then [frame] else [].
Proof. unfold of_conn. destruct (decide (j = i)); [by rewrite filter_cons_True|by rewrite filter_cons_False]. Qed.

Definition left_of (s : Server) (i : nat) : list bytes := match conns s !! i with Some c => sends c | None => [] end.

(** What each connection sent so far, and has still to send, is what it sends. *)
Record served (opened : list (nat * list bytes)) (s : Server) : Prop := {
  sv_frames i c : (i, c) ∈ opened → of_conn i (got s ++ channel s) ++ left_of s i = sends c;
  sv_conns i c : conns s !! i = Some c → chunks_ok c ∧ i ∈ opened.*1;
  sv_known x : x ∈ got s ++ channel s → x.1 ∈ opened.*1 ∧ zlen x.2 ≤ cap;
  sv_channel : zlen (channel s) ≤ CHANNEL_FRAMES
}.

Lemma served_conn opened s i c frames rest :
  served opened s → conns s !! i = Some c → sends c = frames ++ sends rest → chunks_ok rest → Forall (λ fr, zlen fr ≤ cap) frames →
  zlen (channel s) + zlen frames ≤ CHANNEL_FRAMES →
  served opened (mkServer (<[i := rest]> (conns s)) (channel s ++ (pair i <$> frames)) (got s)).
Proof.
  intros [H1 H2 H3 H4] Hc Hs Hok Hf Hz.
  assert (∀ j, of_conn j (pair i <$> frames) = if decide (i = j) then frames else []) as Hof.
  { intros j. unfold of_conn. destruct (decide (i = j)) as [->|Hne].
    - clear. induction frames as [|fr frames IH]; [done|]. cbn [fmap list_fmap]. rewrite filter_cons_True by done. cbn [fmap list_fmap]. by f_equal.
    - clear -Hne. induction frames as [|fr frames IH]; [done|]. cbn [fmap list_fmap]. by rewrite filter_cons_False. }
  split; cbn [conns channel got].
  - intros j init Hj. specialize (H1 j init Hj). rewrite app_assoc, of_conn_app, Hof, <- app_assoc. unfold left_of in *. cbn [conns].
    destruct (decide (i = j)) as [<-|Hne].
    + rewrite lookup_insert_eq. rewrite Hc in H1. by rewrite <- Hs.
    + rewrite lookup_insert_ne by done. exact H1.
  - intros j k Hj. destruct (decide (i = j)) as [<-|Hne].
    + rewrite lookup_insert_eq in Hj. injection Hj as <-. split; [done|]. by apply (H2 i c).
    + rewrite lookup_insert_ne in Hj by done. by apply H2.
  - intros x Hx. rewrite app_assoc in Hx. apply elem_of_app in Hx as [Hx|Hx]; [by apply H3|].
    apply list_elem_of_fmap in Hx as (fr & -> & Hfr). cbn [fst snd]. split; [by apply (H2 i c)|]. by rewrite Forall_forall in Hf; apply Hf.
  - rewrite zlen_app. unfold zlen at 2. rewrite length_fmap. exact Hz.
Qed.

Lemma runs_served opened s : server_runs f cap opened s → Forall (λ n, chunks_ok n.2) opened → served opened s.
Proof.
  induction 1 as [|opened new s s' Hr IH Hs Hn]; intros Hok.
  - split; cbn; [by intros i c ?%elem_of_nil|by intros i c Hc; rewrite lookup_empty in Hc|by intros x ?%elem_of_nil|by vm_compute].
  - apply Forall_app in Hok as [Hok Hnew]. specialize (IH Hok). destruct Hs as [i c s Hi|i c frame rest s Hi Ht Hz|i c rest s Hi Ht|i c s Hi Ht|s]; rewrite ?app_nil_r.
    + apply Forall_cons in Hn as [Hfresh _]. apply Forall_cons in Hnew as [Hc _]. cbn [fst snd] in *. destruct IH as [H1 H2 H3 H4].
      split; cbn [conns channel got]; [| | |done].
      * intros j init Hj. unfold left_of. cbn [conns]. apply elem_of_app in Hj as [Hj|Hj].
        -- assert (i ≠ j) as Hne by (intros <-; apply Hfresh; by apply (list_elem_of_fmap_2 fst _ (i, init))).
           rewrite lookup_insert_ne by done. by apply H1.
        -- apply list_elem_of_singleton in Hj as [= -> ->]. rewrite lookup_insert_eq.
           assert (of_conn i (got s ++ channel s) = []) as ->; [|done]. unfold of_conn.
           destruct (filter _ _) as [|x l] eqn:E; [done|]. exfalso. assert (x ∈ filter (λ x : nat * bytes, x.1 = i) (got s ++ channel s)) as Hx by (rewrite E; by left).
           apply list_elem_of_filter in Hx as [<- Hx]. by apply H3 in Hx as [Hx _].
      * intros j k Hj. rewrite fmap_app, elem_of_app. destruct (decide (i = j)) as [<-|Hne].
        -- rewrite lookup_insert_eq in Hj. injection Hj as <-. split; [done|]. right. by left.
        -- rewrite lookup_insert_ne in Hj by done. apply H2 in Hj as [? ?]. auto.
      * intros x Hx. rewrite fmap_app, elem_of_app. apply H3 in Hx as [? ?]. auto.
    + pose proof (sv_conns _ _ IH i c Hi) as [Hc _]. pose proof (sends_step c Hc) as Hst. pose proof (connection_turn_progress c Hc) as Hp. rewrite Ht in Hst, Hp.
      apply (served_conn opened s i c [frame] rest IH Hi Hst); [apply Hp|by repeat constructor; apply Hp|]. rewrite zlen_cons, zlen_nil. lia.
    + pose proof (sv_conns _ _ IH i c Hi) as [Hc _]. pose proof (sends_step c Hc) as Hst. pose proof (connection_turn_progress c Hc) as Hp. rewrite Ht in Hst, Hp.
      pose proof (served_conn opened s i c [] rest IH Hi Hst) as H. cbn [fmap list_fmap] in H. rewrite app_nil_r in H.
      apply H; [apply Hp|done|]. rewrite zlen_nil. pose proof (sv_channel _ _ IH). lia.
    + pose proof (sv_conns _ _ IH i c Hi) as [Hc _]. pose proof (sends_step c Hc) as Hst. rewrite Ht in Hst. destruct IH as [H1 H2 H3 H4].
      split; cbn [conns channel got]; [| |done|done].
      * intros j init Hj. specialize (H1 j init Hj). unfold left_of in *. cbn [conns]. destruct (decide (i = j)) as [<-|Hne].
        -- rewrite lookup_delete_eq. rewrite Hi, Hst in H1. exact H1.
        -- by rewrite lookup_delete_ne.
      * intros j k Hj. destruct (decide (i = j)) as [<-|Hne]; [by rewrite lookup_delete_eq in Hj|]. rewrite lookup_delete_ne in Hj by done. by apply H2.
    + unfold server_recv. destruct (channel s) as [|[i frame] ch] eqn:E; [done|]. destruct IH as [H1 H2 H3 H4].
      assert (take (Z.to_nat (Z.min (zlen frame) cap)) frame = frame) as ->.
      { apply take_ge. specialize (H3 (i, frame)). rewrite E in H3. destruct H3 as [_ H3]; [apply elem_of_app; right; by left|]. cbn [snd] in H3. unfold zlen in *. lia. }
      split; cbn [conns channel got]; rewrite <- ?app_assoc; cbn [app]; rewrite <- ?E; [exact H1|exact H2|exact H3|].
      rewrite E, zlen_cons in H4. lia.
Qed.

End server.

Definition ex_opened : list (nat * list bytes) := [(0%nat, [[0; 1; 7]; [0; 1; 9]]); (1%nat, [[0; 1]; [8]])].
(** A run over them: both accepted, a frame of each read, one taken. *)
Definition ex_accepted : Server := mkServer {[ 0%nat := [[0; 1; 7]; [0; 1; 9]]; 1%nat := [[0; 1]; [8]] ]} [] [].
Definition ex_read : Server := mkServer {[ 0%nat := [[0; 1; 9]]; 1%nat := [] ]} [(1%nat, [8]); (0%nat, [7])] [].
Definition ex_server : Server := mkServer {[ 0%nat := [[0; 1; 9]]; 1%nat := [] ]} [(0%nat, [7])] [(1%nat, [8])].

Lemma run_to f cap opened new all s s' s'' :
  server_runs f cap opened s → server_step f cap new s s' → s' = s'' → opened ++ new = all → Forall (λ n, n.1 ∉ opened.*1) new → server_runs f cap all s''.
Proof. intros H1 H2 <- <- H3. by eapply run_step. Qed.

Lemma ex_server_runs : server_runs LengthDelimited 10 ex_opened ex_server.
Proof.
  assert (server_runs LengthDelimited 10 ex_opened ex_accepted) as H1.
  { eapply run_to; [eapply run_to; [apply run_new|by apply (s_accept _ _ 0%nat [[0; 1; 7]; [0; 1; 9]])|reflexivity|reflexivity|]
      |by apply (s_accept _ _ 1%nat [[0; 1]; [8]])|vm_compute; reflexivity|reflexivity|].
    - repeat constructor. by intros ?%elem_of_nil.
    - repeat constructor. cbn. by rewrite list_elem_of_singleton. }
  assert (server_runs LengthDelimited 10 ex_opened ex_read) as H2.
  { eapply run_to; [eapply run_to; [exact H1| |reflexivity|apply app_nil_r|done]| |vm_compute; reflexivity|apply app_nil_r|done].
    - by apply (s_send _ _ 1%nat [[0; 1]; [8]] [8] []).
    - by apply (s_send _ _ 0%nat [[0; 1; 7]; [0; 1; 9]] [7] [[0; 1; 9]]). }
  by eapply run_to; [exact H2|apply s_recv|vm_compute; reflexivity|apply app_nil_r|].
Qed.


(** * WebSocket, polling and MQTT *)

(** The messages of a session that fit, up to its end. *)
Fixpoint session_frames (cap : Z) (events : list WsEvent) : list bytes :=
  match events with
  | [] | Closed :: _ | Failed :: _ => []
  | Control :: events => session_frames cap events
  | Message payload :: events => if cap <? zlen payload then session_frames cap events else payload :: session_frames cap events
  end.
Definition dial_frames (cap : Z) (d : Dial) : list bytes := match d with NoDial => [] | Session events => session_frames cap events end.

(** The sleeps of dials, the last [n] of them failed: doubling to half a minute. *)
Definition nap (n : nat) : Z := Z.min (2 ^ Z.of_nat n) RETRY_MAX.
Fixpoint naps (n : nat) (dials : list Dial) : list Z :=
  match dials with
  | [] => []
  | NoDial :: dials => nap n :: naps (S n) dials
  | Session _ :: dials => naps 0 dials
  end.

Lemma nap_double n : Z.min (nap n * 2) RETRY_MAX = nap (S n).
Proof. unfold nap. rewrite Nat2Z.inj_succ, Z.pow_succ_r by lia. unfold RETRY_MAX. lia. Qed.

Lemma session_spec cap events :
  session_frames cap events = match session cap events with Some (rest, frame) => frame :: session_frames cap rest | None => [] end.
Proof. induction events as [|[payload| | |] events IH]; try done. cbn [session_frames session]. by destruct (cap <? zlen payload). Qed.

Lemma dial_spec cap dials : ∀ n,
  match dial_and_read cap dials (nap n) with
  | (self, slept, Some frame) =>
      ∃ events, socket self = Some events ∧ backoff self = nap 0 ∧ concat (dial_frames cap <$> dials) = frame :: session_frames cap events ++ concat (dial_frames cap <$> Transports.dials self) ∧
        naps n dials = slept ++ naps 0 (Transports.dials self)
  | (self, slept, None) => concat (dial_frames cap <$> dials) = [] ∧ naps n dials = slept
  end.
Proof.
  induction dials as [|[|events] dials IH]; intros n; cbn [dial_and_read]; [done| |].
  - specialize (IH (S n)). rewrite nap_double. destruct (dial_and_read cap dials (nap (S n))) as [[self slept] [frame|]]; cbn [fmap list_fmap concat dial_frames naps app].
    + destruct IH as (events & H1 & H2 & H3 & H4). exists events. by rewrite H4.
    + destruct IH as [H1 H2]. by rewrite H2.
  - cbn [fmap list_fmap concat dial_frames naps]. rewrite (session_spec cap events). destruct (session cap events) as [[rest frame]|].
    + by exists rest.
    + exact (IH 0%nat).
Qed.

Lemma session_shorter cap events : match session cap events with Some (rest, frame) => (length (session_frames cap rest) < length (session_frames cap events))%nat | None => True end.
Proof. rewrite (session_spec cap events). destruct (session cap events) as [[rest frame]|]; [cbn; lia|done]. Qed.

(** a WebSocket feed delivers the messages of each session that fit the buffer,
    in order, up to its end, whatever control frames and oversized messages come
    between, and dials again for ever, waiting 1, 2, 4, 8, 16 and then 30 seconds
    after each failure in a row. *)
Theorem ws_delivers cap dials :
  ws_all (S (length (concat (dial_frames cap <$> dials)))) cap (ws_open dials) = (naps 0 dials, concat (dial_frames cap <$> dials)).
Proof.
  assert (∀ fuel self n, backoff self = nap n → (socket self ≠ None → n = 0%nat) →
    (length (session_frames cap (default [] (socket self)) ++ concat (dial_frames cap <$> Transports.dials self)) < fuel)%nat →
    ws_all fuel cap self = (naps n (Transports.dials self), session_frames cap (default [] (socket self)) ++ concat (dial_frames cap <$> Transports.dials self))) as H.
  { induction fuel as [|fuel IH]; intros self n Hb Hs Hf; [lia|]. cbn [ws_all]. unfold ws_recv.
    pose proof (dial_spec cap (Transports.dials self) n) as Hd. rewrite <- Hb in Hd.
    assert (let '(self', slept, r) := dial_and_read cap (Transports.dials self) (backoff self) in
      (length (concat (dial_frames cap <$> Transports.dials self)) < S fuel)%nat →
      match r with
      | Some frame => let '(slept', frames) := ws_all fuel cap self' in (slept ++ slept', frame :: frames)
      | None => (slept, [])
      end = (naps n (Transports.dials self), concat (dial_frames cap <$> Transports.dials self))) as Hdial.
    { destruct (dial_and_read _ _ _) as [[self' slept] [frame|]].
      - destruct Hd as (events & H1 & H2 & H3 & H4). intros Hl. rewrite H3 in Hl. cbn [length] in Hl. rewrite (IH self' 0%nat); [|done|done|rewrite H1; cbn; lia].
        rewrite H1, H3, H4. done.
      - destruct Hd as [H1 H2]. by rewrite H1, H2. }
    destruct (socket self) as [events|] eqn:E; cbn [default from_option] in *; unfold id in *.
    - rewrite (Hs ltac:(done)) in *. rewrite (session_spec cap events) in Hf |- *. destruct (session cap events) as [[rest frame]|].
      + cbn [length app] in Hf. rewrite (IH _ 0%nat); cbn [socket backoff Transports.dials default from_option]; unfold id; [done|done|done|lia].
      + cbn [app] in *. destruct (dial_and_read _ _ _) as [[self' slept] [frame|]]; apply Hdial; lia.
    - cbn [session_frames app] in *. destruct (dial_and_read _ _ _) as [[self' slept] [frame|]]; apply Hdial; lia. }
  unfold ws_open. rewrite (H _ _ 0%nat); cbn [socket Transports.dials default from_option session_frames app backoff]; [done|done|done|unfold id; cbn; lia].
Qed.

(** A poll sleeps the interval, a second at least, before each request but the very
    first, and returns the first body, cut to the buffer. *)
Lemma rest_recv_spec cap polls : ∀ self,
  let '(self', polls', slept, r) := rest_recv cap self polls in
  interval self' = interval self ∧ ∃ failed, Forall (λ p, p = None) failed ∧
    slept = replicate (length failed + (if r then 1 else 0) - (if first self then 1 else 0)) (interval self) ∧
    match r with
    | Some frame => ∃ body, polls = failed ++ Some body :: polls' ∧ frame = take (Z.to_nat (Z.min (zlen body) cap)) body
    | None => polls = failed ∧ polls' = []
    end.
Proof.
  induction polls as [|[body|] polls IH]; intros self; cbn [rest_recv].
  - split; [done|]. exists []. split; [done|]. split; [|done]. by destruct (first self).
  - split; [done|]. exists []. split; [done|]. split; [by destruct (first self)|]. by exists body.
  - specialize (IH (mkRest (interval self) false)). destruct (rest_recv cap (mkRest (interval self) false) polls) as [[[self' polls'] slept] r].
    destruct IH as (H1 & failed & H2 & H3 & H4). split; [done|]. exists (None :: failed). split; [by constructor|]. cbn [interval first length] in *. split.
    + rewrite H3. rewrite Nat.sub_0_r. destruct (first self); cbn [app]; [f_equal; lia|].
      rewrite Nat.sub_0_r. done.
    + destruct r as [frame|]; [|by destruct H4 as [-> ->]]. destruct H4 as (body & -> & ->). by exists body.
Qed.

(** If each poll takes the requests waiting, MQTT delivers every message, cut to the
    buffer, across reconnections. *)
Fixpoint mqtt_all (fuel : nat) (cap : Z) (self : MqttSource) (polls : list (Z * MqttPoll)) : list bytes * MqttResult :=
  match fuel with
  | O => ([], Waits)
  | S fuel =>
      match mqtt_recv cap self polls with
      | (self, polls, Frame frame) => let '(frames, r) := mqtt_all fuel cap self polls in (frame :: frames, r)
      | (_, _, r) => ([], r)
      end
  end.

Definition published (cap : Z) (polls : list (Z * MqttPoll)) : list bytes :=
  omap (λ p, match p.2 with Publish b => Some (take (Z.to_nat (Z.min (zlen b) cap)) b) | _ => None end) polls.

Lemma mqtt_delivers cap polls : ∀ self,
  0 ≤ queued self < REQUESTS → Forall (λ p, REQUESTS ≤ p.1) polls →
  mqtt_all (S (length polls)) cap self polls = (published cap polls, Waits).
Proof.
  intros self Hq Hp. assert (∀ fuel polls self, (length polls < fuel)%nat → 0 ≤ queued self < REQUESTS → Forall (λ p, REQUESTS ≤ p.1) polls →
    mqtt_all fuel cap self polls = (published cap polls, Waits)) as H; [|apply H; [lia|done|done]].
  clear self polls Hq Hp. induction fuel as [|fuel IH]; intros polls self Hf Hq Hp; [lia|]. cbn [mqtt_all].
  induction polls as [|[took poll] polls IHp] in self, Hf, Hq, Hp |- *; cbn [mqtt_recv].
  - replace (negb (subscribed self) && (REQUESTS <=? queued self)) with false by lia. done.
  - replace (negb (subscribed self) && (REQUESTS <=? queued self)) with false by lia.
    apply Forall_cons in Hp as [Ht Hp]. cbn [fst] in Ht. cbn [length] in Hf.
    assert (Z.max 0 ((if subscribed self then queued self else queued self + 1) - took) = 0) as -> by (destruct (subscribed self); lia).
    destruct poll as [b| |].
    + rewrite IH; [done|lia|cbn; lia|done].
    + by apply IHp; [lia|cbn; lia|].
    + by apply IHp; [lia|cbn; lia|].
Qed.

(** with a client that takes no request from its channel while the connection
    fails, sixty-four failures in a row stop the source for good: it waits for a
    place in the channel that only its own polls would make, and what comes after
    never arrives. *)
Theorem mqtt_outage_blocks cap more : mqtt_recv cap mqtt_open (replicate 64 (0, Disconnects) ++ more) = (mkMqtt false 64, more, Blocked).
Proof. by destruct more. Qed.
