(* ===== verification/Dds.v ===== *)
(** The DDS transport (rust/connectors/common/src/dds.rs): what it takes out of a
    sample, what it delivers of a stream of samples, and what a probe reports. The
    domain participant and its reader are inputs. *)
From Stdlib Require Import ZArith Lia.
From Stdlib Require Import Strings.String.
From S2P Require Export Config.

Local Open Scope Z_scope.

(** @src rust/connectors/common/src/dds.rs 24-26 MAX_DOMAIN *)
Definition MAX_DOMAIN : Z := 232.
(** @src rust/connectors/common/src/dds.rs 28-30 SAMPLE_BUFFER *)
Definition SAMPLE_BUFFER : Z := 4096.

(** @src rust/connectors/common/src/dds.rs 70-87 ALL_ENCODINGS *)
Inductive RepresentationIdentifier :=
| CDR_BE | CDR_LE | PL_CDR_BE | PL_CDR_LE | CDR2_BE | CDR2_LE | PL_CDR2_BE | PL_CDR2_LE
| D_CDR_BE | D_CDR_LE | XCDR2_BE | XCDR2_LE | PL_XCDR2_BE | PL_XCDR2_LE | D_CDR2_BE | D_CDR2_LE.

(** @src rust/connectors/common/src/dds.rs 32-38 RawSample *)
Record RawSample := mkRawSample { encoding : RepresentationIdentifier; sample_bytes : bytes }.

(** @src rust/connectors/common/src/dds.rs 41-43 RawSample::little_endian *)
Definition little_endian (s : RawSample) : bool :=
  match encoding s with
  | CDR_LE | PL_CDR_LE | CDR2_LE | PL_CDR2_LE | D_CDR_LE | XCDR2_LE | PL_XCDR2_LE | D_CDR2_LE => true
  | _ => false
  end.
(** @src rust/connectors/common/src/dds.rs 44-48 RawSample::plain_cdr *)
Definition plain_cdr (s : RawSample) : bool :=
  match encoding s with CDR_BE | CDR_LE | CDR2_BE | CDR2_LE | XCDR2_BE | XCDR2_LE => true | _ => false end.

(** @src rust/connectors/common/src/dds.rs 123-140 unwrap_octets *)
Definition unwrap_octets (s : RawSample) : option bytes :=
  if negb (plain_cdr s) then None
  else
    head ← get_range (sample_bytes s) 0 4;
    let len := if little_endian s then le_val head else be_val head in
    let stop := 4 + len in
    data ← get_range (sample_bytes s) 4 stop;
    if zlen (sample_bytes s) - stop <? 4 then Some data else None.

(** @src rust/connectors/common/src/dds.rs 142-149 unwrap_string *)
Definition unwrap_string (s : RawSample) : option bytes :=
  data ← unwrap_octets s;
  match last data with Some 0 => Some (take (length data - 1) data) | _ => None end.

(** @src rust/connectors/common/src/dds.rs 151-157 frame_of *)
Definition dds_frame (s : RawSample) (payload : DdsPayload) : option bytes :=
  match payload with DBody => Some (sample_bytes s) | DOctets => unwrap_octets s | DString => unwrap_string s end.

(** The reader's stream: samples, and those it could not read. *)
(** @src rust/connectors/common/src/dds.rs 171-201 DdsSource::recv *)
Fixpoint dds_recv (cap : Z) (payload : DdsPayload) (stream : list (option RawSample)) : list (option RawSample) * option bytes :=
  match stream with
  | [] => ([], None)
  | None :: stream => dds_recv cap payload stream
  | Some s :: stream =>
      match dds_frame s payload with
      | None => dds_recv cap payload stream
      | Some b => if cap <? zlen b then dds_recv cap payload stream else (stream, Some b)
      end
  end.

Fixpoint dds_all (fuel : nat) (cap : Z) (payload : DdsPayload) (stream : list (option RawSample)) : list bytes :=
  match fuel with
  | O => []
  | S fuel => match dds_recv cap payload stream with (stream, Some b) => b :: dds_all fuel cap payload stream | (_, None) => [] end
  end.

(** @src rust/connectors/common/src/dds.rs 230-235 participant *)
Definition domain_ok (domain : Z) : bool := domain <=? MAX_DOMAIN.

(** @src rust/connectors/common/src/dds.rs 289-298 Probe *)
Record Probe := mkProbe { matched : bool; first_sample_len : option Z; publishers : list (string * string) }.

(** What a turn of the wait finds: how many publishers each status said are matched,
    and a sample, if there is one to take. *)
(** @src rust/connectors/common/src/dds.rs 300-324 probe *)
Fixpoint probe_turns (turns : list (list Z * option RawSample)) (out : bool) : bool * option Z :=
  match turns with
  | [] => (out, None)
  | (counts, sample) :: turns =>
      let out := out || existsb (λ n, 0 <? n) counts in
      match out, sample with
      | true, Some s => (true, Some (zlen (sample_bytes s)))
      | _, _ => probe_turns turns out
      end
  end.

(** The publishers heard, sorted and each once. *)
Definition dds_probe (turns : list (list Z * option RawSample)) (heard : list (string * string)) : Probe :=
  let '(m, n) := probe_turns turns false in mkProbe m n heard.

(** * What is taken out is what was put in *)

(** The body of a sample of one sequence of octets, as CDR lays it out. *)
Definition enc_octets (e : RepresentationIdentifier) (data pad : bytes) : RawSample :=
  let len := be_enc 4 (zlen data) in
  mkRawSample e ((if little_endian (mkRawSample e []) then rev len else len) ++ data ++ pad).

Lemma octets_length e n pad data :
  zlen data = n → zlen pad < 4 → n < 2 ^ 32 →
  get_range (sample_bytes (enc_octets e data pad)) 0 4 = Some (if little_endian (mkRawSample e []) then rev (be_enc 4 n) else be_enc 4 n)
  ∧ get_range (sample_bytes (enc_octets e data pad)) 4 (4 + n) = Some data
  ∧ zlen (sample_bytes (enc_octets e data pad)) = 4 + n + zlen pad.
Proof.
  intros <- Hp Hn. unfold enc_octets. cbn [sample_bytes].
  set (h := if little_endian _ then _ else _). assert (length h = 4%nat) as Hh by (unfold h; destruct (little_endian _); rewrite ?length_rev; apply be_enc_length).
  pose proof (zlen_nonneg data). pose proof (zlen_nonneg pad). assert (zlen (h ++ data ++ pad) = 4 + zlen data + zlen pad) as Hz by (rewrite !zlen_app; unfold zlen at 1; lia).
  unfold get_range. rewrite Hz. split_and!; [| |done].
  - replace ((0 <=? 0) && (0 <=? 4) && (4 <=? 4 + zlen data + zlen pad)) with true by lia. rewrite drop_0. by rewrite take_app_length'.
  - replace ((0 <=? 4) && (4 <=? 4 + zlen data) && (4 + zlen data <=? 4 + zlen data + zlen pad)) with true by lia.
    replace (4 + zlen data - 4) with (zlen data) by lia. rewrite drop_app_length' by (rewrite Hh; done). unfold zlen. rewrite Nat2Z.id. by rewrite take_app_length.
Qed.

Lemma head_value e n : 0 ≤ n < 2 ^ 32 →
  let h := if little_endian (mkRawSample e []) then rev (be_enc 4 n) else be_enc 4 n in
  (if little_endian (mkRawSample e []) then le_val h else be_val h) = n.
Proof.
  intros Hn. cbv zeta. destruct (little_endian _); unfold le_val; rewrite ?rev_involutive, be_val_enc; apply Z.mod_small; change (256 ^ Z.of_nat 4) with (2 ^ 32); lia.
Qed.

(** exactly the samples that are one sequence of octets in a plain encoding, in
    the byte order the encoding says and with less than four bytes of padding, are
    taken out, and as what was put in. *)
Theorem octets_exact s data :
  bytes_ok (sample_bytes s) →
  unwrap_octets s = Some data ↔
  plain_cdr s = true ∧ zlen data < 2 ^ 32 ∧ ∃ pad, zlen pad < 4 ∧ s = enc_octets (encoding s) data pad.
Proof.
  intros Hok. split.
  - unfold unwrap_octets. destruct (plain_cdr s) eqn:Hpl; [|done]. cbn [negb]. destruct (get_range (sample_bytes s) 0 4) as [h|] eqn:Hh; [|done]. cbn [mbind option_bind].
    set (n := if little_endian s then le_val h else be_val h). destruct (get_range (sample_bytes s) 4 (4 + n)) as [d|] eqn:Hd; [|done]. cbn [mbind option_bind].
    destruct (zlen (sample_bytes s) - (4 + n) <? 4) eqn:Hlt; [|done]. intros [= ->]. split; [done|].
    unfold get_range in Hh, Hd. destruct (_ && _) eqn:C1 in Hh; [|done]. destruct (_ && _) eqn:C2 in Hd; [|done].
    injection Hh as Hh. injection Hd as Hd. change (Z.to_nat (4 - 0)) with 4%nat in Hh. change (drop (Z.to_nat 0) (sample_bytes s)) with (sample_bytes s) in Hh.
    change (Z.to_nat 4) with 4%nat in Hd. replace (4 + n - 4) with n in Hd by lia.
    assert (bytes_ok h) as Hhk by (rewrite <- Hh; by apply Forall_take).
    assert (zlen h = 4) as Hhl by (rewrite <- Hh; unfold zlen in *; rewrite length_take; lia).
    assert (0 ≤ n < 2 ^ 32) as Hn by (change (2 ^ 32) with (256 ^ 4); unfold n; destruct (little_endian s); [by apply le_val_lt|by apply be_val_lt]).
    assert (zlen data = n) as Hdl by (rewrite <- Hd; unfold zlen in *; rewrite length_take, length_drop; lia).
    split; [lia|]. exists (drop (Z.to_nat n) (drop 4 (sample_bytes s))). split; [unfold zlen in *; rewrite !length_drop; lia|].
    destruct s as [e b]. unfold enc_octets. cbn [encoding sample_bytes] in *. f_equal. rewrite <- (take_drop 4 b) at 1. f_equal.
    + rewrite Hh, Hdl. assert (length h = length (be_enc 4 n)) as Hl by (rewrite be_enc_length; unfold zlen in Hhl; lia).
      unfold n, little_endian. cbn [encoding].
      assert (∀ l, bytes_ok l → length l = 4%nat → be_enc 4 (be_val l) = l) as Hinv.
      { intros l Hlk Hll. apply be_val_inj; [apply be_enc_ok|done|by rewrite be_enc_length|]. rewrite be_val_enc. apply Z.mod_small. apply be_val_lt; [done|]. unfold zlen. lia. }
      rewrite be_enc_length in Hl. destruct e; unfold le_val; rewrite Hinv by (try (by apply bytes_ok_rev); rewrite ?length_rev; done); by rewrite ?rev_involutive.
    + rewrite <- Hd at 1. symmetry. apply take_drop.
  - intros (Hpl & Hn & pad & Hp & Hs). destruct (octets_length (encoding s) (zlen data) pad data eq_refl Hp Hn) as (H1 & H2 & H3). rewrite <- Hs in H1, H2, H3.
    unfold unwrap_octets. rewrite Hpl. cbn [negb]. rewrite H1. cbn [mbind option_bind]. pose proof (zlen_nonneg data).
    pose proof (head_value (encoding s) (zlen data) ltac:(lia)) as Hv. cbv zeta in Hv. change (little_endian (mkRawSample (encoding s) [])) with (little_endian s) in *. rewrite Hv, H2, H3. cbn [mbind option_bind].
    by replace (4 + zlen data + zlen pad - (4 + zlen data) <? 4) with true by lia.
Qed.

(** The frames of a stream, in order. *)
Definition dds_frames (cap : Z) (payload : DdsPayload) (stream : list (option RawSample)) : list bytes :=
  omap (λ s, s ← s; b ← dds_frame s payload; if cap <? zlen b then None else Some b) stream.

(** every sample of the shape asked for that fits is delivered, in order, and
    nothing else. *)
Theorem dds_delivers cap payload stream : dds_all (S (length stream)) cap payload stream = dds_frames cap payload stream.
Proof.
  enough (∀ n stream, (length stream < n)%nat → dds_all n cap payload stream = dds_frames cap payload stream) as H by (apply H; lia).
  induction n as [|n IH]; intros l Hl; [lia|]. cbn [dds_all]. induction l as [|[s|] l IHl]; [done| |].
  - cbn [dds_recv dds_frames omap list_omap mbind option_bind]. destruct (dds_frame s payload) as [b|]; [|apply IHl; cbn in Hl; lia]. cbn [mbind option_bind].
    destruct (cap <? zlen b); [apply IHl; cbn in Hl; lia|]. f_equal. apply IH. cbn in Hl. lia.
  - cbn [dds_recv]. apply IHl. cbn in Hl. lia.
Qed.
