(* ===== verification/Nats.v ===== *)
(** The connector's way to the broker (rust/connectors/common/src/nats.rs) and the
    doctor's account of it (rust/connectors/doctor/src/net.rs, tls.rs): the TLS
    policy, the failover list, and the warnings of an outage. The environment is a
    function; the parser of one server address is the client's. *)
From Stdlib Require Import ZArith Lia.
From Stdlib Require Import Strings.String.
From S2P Require Export Marking.

Local Open Scope Z_scope.

Section env.
(** [std::env::var(name).ok()]. *)
Variable var : string → option bytes.

(** @src rust/connectors/common/src/nats.rs 125-127 non_empty_env *)
Definition non_empty_env (name : string) : option bytes :=
  match var name with Some v => if bool_decide (trim v = []) then None else Some v | None => None end.

Definition truthy (v : bytes) : bool :=
  let v := ascii_lower (trim v) in
  negb (bool_decide (v = []) || bool_decide (v = s2b "0") || bool_decide (v = s2b "false") || bool_decide (v = s2b "no")).

(** @src rust/connectors/common/src/nats.rs 111-123 tls_required *)
Definition tls_required (url : bytes) : bool :=
  match var "AJAR_REQUIRE_TLS" with Some v => truthy v | None => false end
  || existsb (λ u, starts_with (s2b "tls://") (ascii_lower (trim u))) (split_on 44 url).

(** How the connection is made. *)
Inductive Security := Mtls (ca cert key : bytes) | Plaintext.
Inductive ConnectError := TlsRequired | PartialTls | BadUrl.

Section connect.
Context {Addr : Type}.
Variable parse_addr : bytes → option Addr.

Fixpoint parse_all (l : list bytes) : option (list Addr) :=
  match l with [] => Some [] | u :: l => a ← parse_addr (trim u); rest ← parse_all l; Some (a :: rest) end.

(** @src rust/connectors/common/src/nats.rs 49-84 connect *)
Definition connect (url : bytes) : res ConnectError (Security * list Addr) :=
  security ← match non_empty_env "AJAR_TLS_CA", non_empty_env "AJAR_TLS_CERT", non_empty_env "AJAR_TLS_KEY" with
             | Some ca, Some cert, Some key => Ok (Mtls ca cert key)
             | None, None, None => if tls_required url then Err TlsRequired else Ok Plaintext
             | _, _, _ => Err PartialTls
             end;
  servers ← ok_or BadUrl (parse_all (split_on 44 url));
  Ok (security, servers).
End connect.

(** * The doctor *)

(** @src rust/connectors/doctor/src/tls.rs 19-19 TLS_VARS *)
Definition TLS_VARS : list string := ["AJAR_TLS_CA"; "AJAR_TLS_CERT"; "AJAR_TLS_KEY"]%string.

(** @src rust/connectors/doctor/src/tls.rs 21-38 Policy *)
Inductive Policy := PMtls (ca cert key : bytes) | Cleartext (required : bool) | Partial (set missing : list string).

(** @src rust/connectors/doctor/src/tls.rs 40-64 policy *)
Definition tls_policy (url_demands_tls : bool) : Policy :=
  match non_empty_env "AJAR_TLS_CA", non_empty_env "AJAR_TLS_CERT", non_empty_env "AJAR_TLS_KEY" with
  | Some ca, Some cert, Some key => PMtls ca cert key
  | None, None, None => Cleartext (url_demands_tls || match var "AJAR_REQUIRE_TLS" with Some v => truthy v | None => false end)
  | _, _, _ =>
      let is_set n := bool_decide (is_Some (non_empty_env n)) in
      Partial (filter (λ n, is_set n = true) TLS_VARS) (filter (λ n, is_set n = false) TLS_VARS)
  end.
End env.

(** @src rust/connectors/doctor/src/net.rs 11-18 Endpoint *)
Record Endpoint := mkEndpoint { host : bytes; port : Z; tls_scheme : bool }.

Inductive UrlError := NotAPort (p : bytes) | NoHost.

(** [rsplit(c).next()]: what follows the last [c]. *)
Definition after_last (c : Z) (l : bytes) : bytes :=
  match rfind_byte c l with Some k => drop (Z.to_nat (k + 1)) l | None => l end.

(** @src rust/connectors/doctor/src/net.rs 33-60 parse_one *)
Definition parse_one (entry : bytes) : res UrlError Endpoint :=
  let lower := ascii_lower entry in
  let '(tls, rest) :=
    match Text.strip_prefix (s2b "tls://") lower with
    | Some r => (true, drop (length entry - length r) entry)
    | None =>
        match Text.strip_prefix (s2b "nats://") lower with
        | Some r => (false, drop (length entry - length r) entry)
        | None => (false, entry)
        end
    end in
  let rest := after_last 64 rest in
  '(h, p) ← match rfind_byte 58 rest with
            | Some k =>
                let p := drop (Z.to_nat (k + 1)) rest in
                n ← ok_or (NotAPort p) (parse_uint 10 65536 p); Ok (take (Z.to_nat k) rest, n)
            | None => Ok (rest, 4222)
            end;
  guard_res (negb (bool_decide (h = []))) NoHost ;;
  Ok (mkEndpoint h p tls).

Fixpoint collect_urls (l : list bytes) : res UrlError (list Endpoint) :=
  match l with [] => Ok [] | u :: l => e ← parse_one (trim u); rest ← collect_urls l; Ok (e :: rest) end.

(** @src rust/connectors/doctor/src/net.rs 26-31 parse_urls *)
Definition parse_urls (url : bytes) : res UrlError (list Endpoint) := collect_urls (split_on 44 url).

(** What the doctor takes the URL to demand. *)
(** @src rust/connectors/doctor/src/lib.rs 111-115 run *)
Definition url_demands_tls (url : bytes) : bool :=
  match parse_urls url with Ok eps => existsb tls_scheme eps | _ => false end.

(** * The policy *)

Lemma ascii_lower_length l : length (ascii_lower l) = length l.
Proof. apply length_fmap. Qed.

Lemma parse_one_tls u e : parse_one u = Ok e → tls_scheme e = starts_with (s2b "tls://") (ascii_lower u).
Proof.
  unfold parse_one, starts_with. destruct (Text.strip_prefix (s2b "tls://") (ascii_lower u)) as [r|] eqn:E.
  - rewrite bool_decide_true by done. intros H. destruct (rfind_byte 58 _) in H; inv_ok; done.
  - rewrite bool_decide_false by (by intros [? ?]). intros H. destruct (Text.strip_prefix (s2b "nats://") (ascii_lower u)); destruct (rfind_byte 58 _) in H; inv_ok; done.
Qed.

Lemma collect_urls_tls l eps : collect_urls l = Ok eps → existsb tls_scheme eps = existsb (λ u, starts_with (s2b "tls://") (ascii_lower (trim u))) l.
Proof.
  revert eps. induction l as [|u l IH]; intros eps H; cbn [collect_urls] in H; [by injection H as <-|].
  apply bind_Ok in H as (e & He & H). apply bind_Ok in H as (rest & Hr & [= <-]). cbn [existsb]. by rewrite (parse_one_tls _ _ He), (IH _ Hr).
Qed.

(** C21: a connector never goes in the clear where TLS is demanded: it connects
    without only if no entry of the URL asks for it, the operator does not, and
    none of the three files is named; with some of the three and not all it does
    not start, whatever the URL; over mutual TLS it goes with the files named. *)
Theorem never_in_the_clear {Addr} var (parse_addr : bytes → option Addr) url :
  (∀ servers, connect var parse_addr url = Ok (Plaintext, servers) →
    Forall (λ u, starts_with (s2b "tls://") (ascii_lower (trim u)) = false) (split_on 44 url) ∧
    (∀ v, var "AJAR_REQUIRE_TLS"%string = Some v → truthy v = false) ∧
    Forall (λ n, non_empty_env var n = None) TLS_VARS) ∧
  (∀ m n, m ∈ TLS_VARS → n ∈ TLS_VARS → is_Some (non_empty_env var m) → non_empty_env var n = None →
    connect var parse_addr url = Err PartialTls) ∧
  (∀ ca cert key servers, connect var parse_addr url = Ok (Mtls ca cert key, servers) →
    non_empty_env var <$> TLS_VARS = [Some ca; Some cert; Some key]).
Proof.
  unfold connect. split; [|split].
  - intros servers H. apply bind_Ok in H as (sec & Hs & H). apply bind_Ok in H as (srv & Hp & [= -> <-]).
    destruct (non_empty_env var "AJAR_TLS_CA") eqn:E1; destruct (non_empty_env var "AJAR_TLS_CERT") eqn:E2;
      destruct (non_empty_env var "AJAR_TLS_KEY") eqn:E3; try done.
    destruct (tls_required var url) eqn:Et; [done|]. unfold tls_required in Et. apply orb_false_iff in Et as [Hv Hu].
    split; [|split].
    + apply Forall_forall. intros u Hin. destruct (starts_with _ _) eqn:E; [|done]. exfalso. rewrite <- not_true_iff_false in Hu. apply Hu.
      apply existsb_exists. exists u. by rewrite <- list_elem_of_In.
    + intros v Hvv. by rewrite Hvv in Hv.
    + by repeat constructor.
  - intros m n Hm Hn [v Hv] Hnone. unfold TLS_VARS in Hm, Hn. rewrite !elem_of_cons, elem_of_nil in Hm, Hn.
    destruct (non_empty_env var "AJAR_TLS_CA") eqn:E1; destruct (non_empty_env var "AJAR_TLS_CERT") eqn:E2;
      destruct (non_empty_env var "AJAR_TLS_KEY") eqn:E3; try done; exfalso;
      repeat (destruct Hm as [->|Hm]; [congruence|]); repeat (destruct Hn as [->|Hn]; [congruence|]); done.
  - intros ca cert key servers H. apply bind_Ok in H as (sec & Hs & H). apply bind_Ok in H as (srv & Hp & [= -> <-]).
    unfold TLS_VARS. cbn [fmap list_fmap].
    destruct (non_empty_env var "AJAR_TLS_CA") eqn:E1; destruct (non_empty_env var "AJAR_TLS_CERT") eqn:E2;
      destruct (non_empty_env var "AJAR_TLS_KEY") eqn:E3; try done; [by injection Hs as -> -> ->|].
    by destruct (tls_required var url).
Qed.

Definition ex_env (name : string) : option bytes := if String.eqb name "AJAR_REQUIRE_TLS" then Some (s2b "no") else None.

Lemma never_in_the_clear_witness :
  Forall (λ u, starts_with (s2b "tls://") (ascii_lower (trim u)) = false) (split_on 44 (s2b "nats://a:4222, b"))
  ∧ connect (λ n, if String.eqb n "AJAR_TLS_CA" then Some (s2b "ca.pem") else None) Some (s2b "nats://a") = Err PartialTls.
Proof.
  split.
  - apply (proj1 (never_in_the_clear ex_env Some (s2b "nats://a:4222, b")) [s2b "nats://a:4222"; s2b "b"]). vm_compute. reflexivity.
  - refine (proj1 (proj2 (never_in_the_clear _ Some (s2b "nats://a"))) "AJAR_TLS_CA"%string "AJAR_TLS_KEY"%string _ _ _ _).
    + apply (bool_decide_eq_true_1 (_ ∈ TLS_VARS)). vm_compute. reflexivity.
    + apply (bool_decide_eq_true_1 (_ ∈ TLS_VARS)). vm_compute. reflexivity.
    + eexists. vm_compute. reflexivity.
    + vm_compute. reflexivity.
Defined.

(** the doctor's verdict on the TLS policy is the connector's: of a list it can
    read, it says mutual TLS, with the same files, exactly when the connector goes
    that way, cleartext allowed exactly when it goes in the clear, and a refusal
    exactly when the connector would not start. *)
Theorem doctor_agrees {Addr} var (parse_addr : bytes → option Addr) url eps servers :
  parse_urls url = Ok eps → parse_all parse_addr (split_on 44 url) = Some servers →
  connect var parse_addr url = match tls_policy var (existsb tls_scheme eps) with
                               | PMtls ca cert key => Ok (Mtls ca cert key, servers)
                               | Cleartext false => Ok (Plaintext, servers)
                               | Cleartext true => Err TlsRequired
                               | Partial _ _ => Err PartialTls
                               end.
Proof.
  intros Hu Hp. unfold connect, tls_policy. rewrite Hp. apply collect_urls_tls in Hu. rewrite Hu. unfold tls_required.
  rewrite (orb_comm (existsb _ _)).
  destruct (non_empty_env var "AJAR_TLS_CA"); destruct (non_empty_env var "AJAR_TLS_CERT"); destruct (non_empty_env var "AJAR_TLS_KEY"); try done.
  by destruct (_ || _).
Qed.

Lemma doctor_agrees_witness : connect ex_env (λ u, Some u) (s2b "nats://u:p@a:1, TLS://b") = Err TlsRequired.
Proof.
  refine (doctor_agrees ex_env (λ u, Some u) (s2b "nats://u:p@a:1, TLS://b") [mkEndpoint (s2b "a") 1 false; mkEndpoint (s2b "b") 4222 true]
    [s2b "nats://u:p@a:1"; s2b "TLS://b"] _ _); vm_compute; reflexivity.
Defined.

(** What the doctor calls missing is what is not set. *)
Lemma partial_names var t s m : tls_policy var t = Partial s m → (∀ n, n ∈ TLS_VARS ↔ n ∈ s ∨ n ∈ m) ∧ s ≠ [] ∧ m ≠ [].
Proof.
  unfold tls_policy. set (is_set n := bool_decide (is_Some (non_empty_env var n))).
  assert (∀ (b : bool) n v, non_empty_env var n = v → n ∈ TLS_VARS → bool_decide (is_Some v) = b → filter (λ n, is_set n = b) TLS_VARS ≠ []) as Hne.
  { intros b n v Hv Hn Hb He. assert (n ∈ filter (λ n, is_set n = b) TLS_VARS) as Hin by (apply list_elem_of_filter; split; [unfold is_set; by rewrite Hv|done]).
    rewrite He in Hin. by apply elem_of_nil in Hin. }
  destruct (non_empty_env var "AJAR_TLS_CA") eqn:E1; destruct (non_empty_env var "AJAR_TLS_CERT") eqn:E2; destruct (non_empty_env var "AJAR_TLS_KEY") eqn:E3; try done;
    intros [= <- <-]; (split; [intros n; rewrite !list_elem_of_filter; destruct (bool_decide (is_Some (non_empty_env var n))); (split; [auto|by intros [[]|[]]])|]);
    split; first [eapply Hne; [exact E1|apply (bool_decide_eq_true_1 (_ ∈ TLS_VARS)); vm_compute; reflexivity|done]|eapply Hne; [exact E2|apply (bool_decide_eq_true_1 (_ ∈ TLS_VARS)); vm_compute; reflexivity|done]|eapply Hne; [exact E3|apply (bool_decide_eq_true_1 (_ ∈ TLS_VARS)); vm_compute; reflexivity|done]].
Qed.

(** * Warnings of an outage *)

(** The warning is due the first time and then once the interval has passed; [last]
    is the clock at the last one. *)
(** @src rust/connectors/common/src/nats.rs 96-109 warn_due *)
Definition warn_due (last every_s now : Z) : Z * bool :=
  if (last =? 0) || (every_s <=? Z.max 0 (now - last)) then (Z.max now 1, true) else (last, false).

Fixpoint warnings (last every_s : Z) (clock : list Z) : list Z :=
  match clock with
  | [] => []
  | now :: clock => let '(last, due) := warn_due last every_s now in if due then now :: warnings last every_s clock else warnings last every_s clock
  end.

(** Two warnings in a row are the interval apart, and the first error warns. *)
Lemma warnings_apart every_s clock : ∀ last,
  1 ≤ last → Forall (λ t, 1 ≤ t) clock →
  match warnings last every_s clock with
  | [] => True
  | t :: rest => every_s ≤ Z.max 0 (t - last) ∧ ∀ i a b, (t :: rest) !! i = Some a → (t :: rest) !! S i = Some b → every_s ≤ Z.max 0 (b - a)
  end.
Proof.
  induction clock as [|now clock IH]; intros last Hl Hc; [done|]. apply Forall_cons in Hc as [Hn Hc]. cbn [warnings]. unfold warn_due.
  replace (last =? 0) with false by lia. cbn [orb]. destruct (Z.leb_spec every_s (Z.max 0 (now - last))); [|by apply IH].
  split; [done|]. rewrite Z.max_l by lia. specialize (IH now Hn Hc). intros i a b Ha Hb. destruct (warnings now every_s clock) as [|t rest]; [by destruct i|].
  destruct IH as [IH1 IH2]. destruct i as [|i]; cbn [lookup list_lookup] in Ha, Hb; [by injection Ha as <-; injection Hb as <-|]. by apply (IH2 i).
Qed.
