(* ===== verification/Onboard.v ===== *)
(** Onboarding from an operator's packet (rust/connectors/up/src): unpacking and
    checking the packet (packet.rs), the connector it sets up (producer.rs), and the
    verified tap of a consumer (consumer.rs). The tar reader, SHA-256, Ed25519, hex
    and the JSON reader are parameters. *)
From Stdlib Require Import ZArith Lia.
From Stdlib Require Import Strings.String.
From S2P Require Export Keys Nats.

Local Open Scope Z_scope.

(** * Paths *)

Inductive Component := RootDir | CurDir | ParentDir | Normal (name : string).

(** [Path::components]. *)
Definition piece (first : bool) (p : bytes) : list Component :=
  match p with
  | [] => []
  | [46] => if first then [CurDir] else []
  | [46; 46] => [ParentDir]
  | _ => [Normal (b2s p)]
  end.
Definition components (p : string) : list Component :=
  match s2b p with
  | 47 :: rest => RootDir :: concat (piece false <$> split_on 47 rest)
  | l => match split_on 47 l with [] => [] | f :: fs => piece true f ++ concat (piece false <$> fs) end
  end.
(** [Path::join]: an absolute path stands for itself. *)
Definition join (d p : string) : string :=
  match s2b p, last (s2b d) with
  | 47 :: _, _ | _, None => p
  | _, Some 47 => d ++ p
  | _, _ => d ++ "/" ++ p
  end%string.
Definition plain_name (p : string) : option string := match components p with [Normal n] => Some n | _ => None end.

(** * The packet *)

(** @src rust/connectors/up/src/packet.rs 15-16 SIG_DOMAIN *)
Definition SIG_DOMAIN : bytes := s2b "ajar-onboard-manifest:1" ++ [10].
(** @src rust/connectors/up/src/packet.rs 17-17 SUPPORTED_MAJOR *)
Definition SUPPORTED_MAJOR : Z := 1.

(** @src rust/connectors/up/src/packet.rs 52-63 Keys *)
Record PacketKeys := mkPacketKeys {
  k_signing : option string; k_cert : option string; k_key : option string; k_ca : option string
}.
(** @src rust/connectors/up/src/packet.rs 65-70 FileEntry *)
Record FileEntry := mkFileEntry { f_path : string; f_sha256 : bytes }.

(** The blocks handed on as they are: the transport and the spool setting. *)
(** @src rust/connectors/up/src/packet.rs 19-50 Manifest *)
Record Manifest := mkManifest {
  manifest_version : string;
  m_role : option string;
  m_source_id : string;
  m_nats_url : bytes;
  m_protocol : option string;
  m_transport : option bytes;
  m_subject : option string;
  m_spool : option bytes;
  egress_subject : option string;
  formats : option (list string);
  egress_verifying_key_hex : option bytes;
  m_keys : PacketKeys;
  m_files : list FileEntry
}.

(** @src rust/connectors/up/src/packet.rs 72-76 Role *)
Inductive Role := Producer | Consumer.

(** @src rust/connectors/up/src/packet.rs 85-94 Packet::role *)
Definition role (m : Manifest) : option Role :=
  match m_role m with
  | None => Some Producer
  | Some r => if String.eqb r "producer" then Some Producer else if String.eqb r "consumer" then Some Consumer else None
  end.

Inductive PacketError :=
| NotPlain (name : string)
| Lacks (name : string)
| BadHex (name : string)
| BadLength (name : string)
| BadKey
| BadSignature
| BadManifest
| BadVersion (v : string)
| OtherMajor (v : string)
| Checksum (path : string).

Section packet.
Context `{C : Ed25519} `{K : !KeyCodec C} `{H : Hex}.
Variable sha256 : bytes → bytes.
(** [serde_json::from_slice], and a file of the machine outside the directory. *)
Variable from_slice : bytes → option Manifest.
Variable outside : string → option bytes.

(** [dir.join(path)] read. *)
Definition read_in (dir : gmap string bytes) (path : string) : option bytes :=
  match plain_name path with Some n => dir !! n | None => outside path end.

(** The entries up to the first that is not a plain filename, unpacked. *)
(** @src rust/connectors/up/src/packet.rs 120-137 open *)
Fixpoint unpack (entries : list (string * bytes)) (dir : gmap string bytes) : gmap string bytes * res PacketError unit :=
  match entries with
  | [] => (dir, Ok tt)
  | (name, data) :: entries =>
      match plain_name name with
      | None => (dir, Err (NotPlain name))
      | Some n => unpack entries (<[n := data]> dir)
      end
  end.

Definition text_in_dir (dir : gmap string bytes) (name : string) : res PacketError bytes :=
  t ← ok_or (Lacks name) (dir !! name); guard_res (utf8_valid t) (Lacks name) ;; Ok t.

(** [u32]'s [parse], which takes a plus sign. *)
Definition parse_u32 (l : bytes) : option Z :=
  let l := match l with 43 :: t => t | _ => l end in
  match l with [] => None | _ => v ← digits_val 10 0 l; if v <? 2 ^ 32 then Some v else None end.

(** @src rust/connectors/up/src/packet.rs 185-198 open *)
Fixpoint check_files (dir : gmap string bytes) (files : list FileEntry) : res PacketError unit :=
  match files with
  | [] => Ok tt
  | f :: files =>
      data ← ok_or (Lacks (f_path f)) (read_in dir (f_path f));
      guard_res (bool_decide (ascii_lower (hex_encode (sha256 data)) = ascii_lower (f_sha256 f))) (Checksum (f_path f)) ;;
      check_files dir files
  end.

(** @src rust/connectors/up/src/packet.rs 139-183 open *)
Definition check_packet (dir : gmap string bytes) : res PacketError Manifest :=
  manifest_bytes ← ok_or (Lacks "manifest.json") (dir !! "manifest.json"%string);
  sig_hex ← text_in_dir dir "manifest.sig";
  pub_hex ← text_in_dir dir "egress.pub";
  key_raw ← ok_or (BadHex "egress.pub") (hex_decode (trim pub_hex));
  key_bytes ← ok_or (BadLength "egress.pub") (exactly 32 key_raw);
  key ← ok_or BadKey (vk_from_bytes key_bytes);
  sig_raw ← ok_or (BadHex "manifest.sig") (hex_decode (trim sig_hex));
  sig_bytes ← ok_or (BadLength "manifest.sig") (exactly 64 sig_raw);
  guard_res (match sig_from_slice sig_bytes with Some s => vk_verify key (SIG_DOMAIN ++ manifest_bytes) s | None => false end) BadSignature ;;
  m ← ok_or BadManifest (from_slice manifest_bytes);
  major ← ok_or (BadVersion (manifest_version m)) (parse_u32 (default [] (head (split_on 46 (s2b (manifest_version m))))));
  guard_res (major =? SUPPORTED_MAJOR) (OtherMajor (manifest_version m)) ;;
  check_files dir (m_files m) ;;
  Ok m.

(** Those of the private keys the manifest names that are there are made mode 600. *)
(** @src rust/connectors/up/src/packet.rs 200-216 open *)
Definition locked (dir : gmap string bytes) (m : Manifest) : list string :=
  omap (λ o, n ← o; _ ← read_in dir n; Some n) [k_signing (m_keys m); k_key (m_keys m)].

(** The directory afterwards, and the packet with the files locked down. *)
(** @src rust/connectors/up/src/packet.rs 102-222 open *)
Definition open_packet (entries : list (string * bytes)) (dir : gmap string bytes) : gmap string bytes * res PacketError (Manifest * list string) :=
  match unpack entries dir with
  | (dir, Ok _) => (dir, (λ m, (m, locked dir m)) <$> check_packet dir)
  | (dir, Err e) => (dir, Err e)
  | (dir, Panic) => (dir, Panic)
  | (dir, NoFuel) => (dir, NoFuel)
  end.

(** * The producer *)

(** @src rust/connectors/up/src/producer.rs 59-64 run *)
Definition subject_prefix (m : Manifest) : string :=
  match m_subject m with
  | Some s => match strip_suffix (s2b ("." ++ m_source_id m)) (s2b s) with Some p => b2s p | None => "ajar.ingest" end
  | None => "ajar.ingest"
  end%string.

Inductive ProducerError := NoProtocol | NoTransport | NoSeedName | NotPlaced | NoSeed | NoConversion | NotWritten | Preflight | NoBinary.

(** What is run: the connector on the configuration at a path, with variables set. *)
Record Setup := mkSetup { u_source_id : string; u_config : string; u_env : list (string * bytes) }.

(** @src rust/connectors/up/src/producer.rs 142-165 mtls_env *)
Definition mtls_env (dir_path : string) (dir : gmap string bytes) (k : PacketKeys) : list (string * bytes) :=
  let path n := s2b (join dir_path n) in
  match k_ca k, k_cert k, k_key k with
  | Some ca, Some cert, Some key =>
      match read_in dir ca, read_in dir cert, read_in dir key with
      | Some _, Some _, Some _ => [("AJAR_TLS_CA", path ca); ("AJAR_TLS_CERT", path cert); ("AJAR_TLS_KEY", path key)]
      | _, _, _ => []
      end
  | _, _, _ => []
  end%string.

(** The configuration of a source id, URL, subject prefix, seed path, transport and
    spool setting as TOML, where the two blocks convert (the toml crate's). *)
Variable config_toml : string → bytes → string → string → bytes → option bytes → option bytes.
(** Whether a path that does not lie in the directory can be written. *)
Variable writable : string → bool.

(** [dir.join(path)] written; what lies outside the directory is not kept. *)
Definition write_in (dir : gmap string bytes) (path : string) (data : bytes) : option (gmap string bytes) :=
  match plain_name path with
  | Some n => Some (<[n := data]> dir)
  | None => if writable path then Some dir else None
  end.

(** The flag's file, if the flag is there, copied to the seed's path. *)
(** @src rust/connectors/up/src/producer.rs 41-49 run *)
Definition place_seed (dir : gmap string bytes) (seed : string) (signing_key : option (option bytes)) : option (gmap string bytes) :=
  match signing_key with None => Some dir | Some file => file ≫= write_in dir seed end.

(** [signing_key] is the flag with what its file holds, [healthy] the doctor's verdict
    on a configuration of the directory, [locate] the search for a program. *)
(** @src rust/connectors/up/src/producer.rs 19-112 run *)
Definition produce (dir_path : string) (dir : gmap string bytes) (m : Manifest) (signing_key : option (option bytes))
    (healthy : gmap string bytes → string → bool) (locate : string → option string)
    : gmap string bytes * res ProducerError (string * Setup) :=
  match m_protocol m, m_transport m, k_signing (m_keys m) with
  | None, _, _ => (dir, Err NoProtocol)
  | _, None, _ => (dir, Err NoTransport)
  | _, _, None => (dir, Err NoSeedName)
  | Some protocol, Some transport, Some seed =>
      match place_seed dir seed signing_key with
      | None => (dir, Err NotPlaced)
      | Some dir =>
          if negb (bool_decide (is_Some signing_key) || bool_decide (is_Some (read_in dir seed))) then (dir, Err NoSeed)
          else
            match config_toml (m_source_id m) (m_nats_url m) (subject_prefix m) (join dir_path seed) transport (m_spool m) with
            | None => (dir, Err NoConversion)
            | Some text =>
                let name := m_source_id m ++ ".toml" in
                match write_in dir name text with
                | None => (dir, Err NotWritten)
                | Some dir =>
                    let config := join dir_path name in
                    let env := mtls_env dir_path dir (m_keys m) in
                    if negb (healthy dir config) then (dir, Err Preflight)
                    else
                      match locate ("ajar-" ++ protocol) with
                      | None => (dir, Err NoBinary)
                      | Some binary => (dir, Ok (binary, mkSetup (m_source_id m) config env))
                      end
                end
            end
      end
  end%string.

(** The variables of the process with those set. *)
Definition with_env (env : list (string * bytes)) (var : string → option bytes) (name : string) : option bytes :=
  match list_find (λ p, p.1 = name) env with Some (_, (_, v)) => Some v | None => var name end.

(** * The consumer *)

Inductive ConsumerError := NoSubject | NoEgressKey | KeyHex | KeyLength | KeyInvalid | NoFormat (want : string) | NotDelivered (path : string).

(** @src rust/connectors/up/src/consumer.rs 44-63 egress *)
Definition egress (m : Manifest) : res ConsumerError (string * vkey) :=
  subject ← ok_or NoSubject (egress_subject m);
  key_hex ← ok_or NoEgressKey (egress_verifying_key_hex m);
  raw ← ok_or KeyHex (hex_decode (trim key_hex));
  b ← ok_or KeyLength (exactly 32 raw);
  key ← ok_or KeyInvalid (vk_from_bytes b);
  Ok (subject, key).

(** @src rust/connectors/up/src/consumer.rs 15-42 check *)
Definition check_consumer (dir : gmap string bytes) (m : Manifest) : res ConsumerError unit :=
  _ ← egress m;
  let named : list string := omap (λ o : option string, o) [k_ca (m_keys m); k_cert (m_keys m); k_key (m_keys m)] in
  match head (filter (λ p : string, read_in dir p = None) named) with
  | None => Ok tt
  | Some p => Err (NotDelivered p)
  end.

(** Where a delivery flag subscribes. *)
(** @src rust/connectors/up/src/consumer.rs 73-88 run *)
Definition delivery (m : Manifest) (to_tak to_http : bool) : res ConsumerError (option string) :=
  _ ← egress m;
  let have (f : string) := bool_decide (f ∈ default [] (formats m)) in
  if to_tak then (if have "cot" then Ok (Some "ajar.egress.cot.>") else Err (NoFormat "cot"))
  else if to_http then
    (if have "geojson" then Ok (Some "ajar.egress.geojson.>") else if have "json" then Ok (Some "ajar.egress.json.>") else Err (NoFormat "geojson/json"))
  else Ok None.

Variable decode : bytes → option Event.

(** The tap: what is written out, and the two counts. *)
(** @src rust/connectors/up/src/consumer.rs 111-136 run *)
Fixpoint tap (key : vkey) (ms : list bytes) (accepted rejected : Z) : bytes * Z * Z :=
  match ms with
  | [] => ([], accepted, rejected)
  | m :: ms =>
      match verify m key with
      | Ok canonical =>
          match decode canonical with
          | Some e => let '(out, a, r) := tap key ms (accepted + 1) rejected in (ev_payload e ++ [10] ++ out, a, r)
          | None => tap key ms accepted (rejected + 1)
          end
      | _ => tap key ms accepted (rejected + 1)
      end
  end.
End packet.

(** * Properties *)

Section packet_laws.
Context `{C : Ed25519} `{K : !KeyCodec C} `{H : Hex} `{HL : !HexLaws H}.
Variables (sha256 : bytes → bytes) (from_slice : bytes → option Manifest) (outside : string → option bytes).
Hypothesis sha_bytes : ∀ x, bytes_ok (sha256 x).

(** What the key in the packet signed. *)
Definition signed_by (dir : gmap string bytes) (key : vkey) (manifest_bytes : bytes) : Prop :=
  dir !! "manifest.json"%string = Some manifest_bytes
  ∧ (∃ t b, dir !! "egress.pub"%string = Some t ∧ hex_decode (trim t) = Some b ∧ vk_from_bytes b = Some key)
  ∧ ∃ t b s, dir !! "manifest.sig"%string = Some t ∧ hex_decode (trim t) = Some b ∧ sig_from_slice b = Some s
      ∧ vk_verify key (SIG_DOMAIN ++ manifest_bytes) s = true.

(** The checksum of a file as the manifest has it. *)
Definition pinned (dir : gmap string bytes) (f : FileEntry) : Prop :=
  ∃ data, read_in outside dir (f_path f) = Some data ∧ ascii_lower (hex_encode (sha256 data)) = ascii_lower (f_sha256 f).

Lemma check_files_Ok dir files u : check_files sha256 outside dir files = Ok u → Forall (pinned dir) files.
Proof.
  induction files as [|f files IH]; intros Hf; [constructor|]. cbn [check_files] in Hf.
  apply bind_Ok in Hf as (data & Hd & Hf). apply ok_or_Ok in Hd. apply bind_Ok in Hf as (v & Hc & Hf). apply guard_res_Ok, bool_decide_eq_true in Hc.
  constructor; [by exists data|by apply IH].
Qed.

Lemma text_in_dir_Ok dir n t : text_in_dir dir n = Ok t → dir !! n = Some t.
Proof. unfold text_in_dir. intros Ht. apply bind_Ok in Ht as (x & Hx & Ht). apply ok_or_Ok in Hx. by apply bind_Ok in Ht as (? & _ & [= ->]). Qed.

Lemma exactly_Some n b c : exactly n b = Some c → c = b.
Proof. unfold exactly. case_match; [by intros [= ->]|done]. Qed.

Lemma check_packet_Ok dir m :
  check_packet sha256 from_slice outside dir = Ok m →
  ∃ key mb, signed_by dir key mb ∧ from_slice mb = Some m ∧ Forall (pinned dir) (m_files m).
Proof.
  unfold check_packet. intros Hc.
  apply bind_Ok in Hc as (mb & Hmb%ok_or_Ok & Hc). apply bind_Ok in Hc as (st & Hst%text_in_dir_Ok & Hc). apply bind_Ok in Hc as (pt & Hpt%text_in_dir_Ok & Hc).
  apply bind_Ok in Hc as (kr & Hkr%ok_or_Ok & Hc). apply bind_Ok in Hc as (kb & Hkb%ok_or_Ok%exactly_Some & Hc). apply bind_Ok in Hc as (key & Hkey%ok_or_Ok & Hc).
  apply bind_Ok in Hc as (sr & Hsr%ok_or_Ok & Hc). apply bind_Ok in Hc as (sb & Hsb%ok_or_Ok%exactly_Some & Hc).
  apply bind_Ok in Hc as (u & Hu%guard_res_Ok & Hc). apply bind_Ok in Hc as (m' & Hm%ok_or_Ok & Hc). apply bind_Ok in Hc as (? & _ & Hc). apply bind_Ok in Hc as (? & _ & Hc).
  apply bind_Ok in Hc as (u' & Hf%check_files_Ok & [= ->]). subst kb sb. destruct (sig_from_slice sr) as [s|] eqn:Hs; [|done].
  exists key, mb. split; [|done]. split; [done|]. split; [by exists pt, kr|by exists st, sr, s].
Qed.

Lemma open_packet_Ok entries dir d m l :
  open_packet sha256 from_slice outside entries dir = (d, Ok (m, l)) → check_packet sha256 from_slice outside d = Ok m.
Proof.
  unfold open_packet. destruct (unpack entries dir) as [d' [u| | |]]; try done. destruct (check_packet sha256 from_slice outside d') eqn:E; try done.
  by intros [= <- -> _].
Qed.

(** C23: a packet is opened only if its manifest is what the key in it signed and every
    file the manifest lists has the checksum it states; so of two packets opened with
    one manifest each listed file is the same, or two files exhibit a SHA-256
    collision. *)
Theorem packet_pinned entries entries' dir dir' d d' m m' l l' :
  open_packet sha256 from_slice outside entries dir = (d, Ok (m, l)) →
  open_packet sha256 from_slice outside entries' dir' = (d', Ok (m', l')) →
  (∃ key mb, signed_by d key mb ∧ from_slice mb = Some m)
  ∧ (d !! "manifest.json"%string = d' !! "manifest.json"%string → m = m' ∧
     ∀ f, f ∈ m_files m → ∃ x y, read_in outside d (f_path f) = Some x ∧ read_in outside d' (f_path f) = Some y
       ∧ (x = y ∨ (x ≠ y ∧ sha256 x = sha256 y))).
Proof.
  intros H1%open_packet_Ok%check_packet_Ok H2%open_packet_Ok%check_packet_Ok.
  destruct H1 as (k1 & mb1 & S1 & M1 & F1), H2 as (k2 & mb2 & S2 & M2 & F2). split; [by exists k1, mb1|]. intros Hmj.
  assert (mb1 = mb2) as <-. { destruct S1 as [S1 _], S2 as [S2 _]. congruence. }
  assert (m = m') as <- by congruence. split; [done|]. intros f Hf. rewrite Forall_forall in F1, F2.
  destruct (F1 f Hf) as (x & Hx & Cx), (F2 f Hf) as (y & Hy & Cy). exists x, y. split_and!; [done..|].
  destruct (decide (x = y)); [by left|right]. split; [done|].
  assert (∀ z, ascii_lower (hex_encode (sha256 z)) = hex_encode (sha256 z)) as Hlow by (intros z; apply lower_hex_text, hex_lower, sha_bytes).
  rewrite Hlow in Cx, Cy. assert (hex_encode (sha256 x) = hex_encode (sha256 y)) as E by congruence.
  apply (f_equal hex_decode) in E. rewrite !hex_roundtrip in E by apply sha_bytes. by injection E.
Qed.
End packet_laws.

(** The connector publishes under the manifest's subject, if that ends in the source. *)
Lemma subject_kept m p : m_subject m = Some (p ++ "." ++ m_source_id m)%string → subject_prefix m = p.
Proof.
  intros Hs. unfold subject_prefix. rewrite Hs. rewrite (s2b_app p). unfold strip_suffix. rewrite rev_app_distr.
  rewrite (proj2 (strip_prefix_Some (rev (s2b ("." ++ m_source_id m))) _ (rev (s2b p))) eq_refl). cbn [fmap option_fmap option_map].
  by rewrite rev_involutive, b2s_s2b.
Qed.

(** ** The way to the broker *)

Definition set_vars (env : list (string * bytes)) : Prop := Forall (λ p, trim p.2 ≠ []) env.

Lemma with_env_set env var n v : NoDup env.*1 → (n, v) ∈ env → with_env env var n = Some v.
Proof.
  intros Hn Hin. unfold with_env. destruct (list_find (λ p, p.1 = n) env) as [[i [n' v']]|] eqn:E.
  - apply list_find_Some in E as (Hi & <- & _). cbn in Hin. apply list_elem_of_lookup in Hin as [j Hj].
    assert (i = j) as <-. { apply (NoDup_lookup env.*1 i j n'); [done|..]; by rewrite list_lookup_fmap, ?Hi, ?Hj. }
    congruence.
  - apply list_find_None in E. rewrite Forall_forall in E. by destruct (E (n, v) Hin).
Qed.

(** a connector set up from a packet that delivers the three TLS files goes over
    mutual TLS with those files and in no other way, whatever the environment was. *)
Theorem packet_goes_tls {Addr} (parse_addr : bytes → option Addr) outside dir_path dir k var url ca cert key :
  k_ca k = Some ca → k_cert k = Some cert → k_key k = Some key →
  is_Some (read_in outside dir ca) → is_Some (read_in outside dir cert) → is_Some (read_in outside dir key) →
  set_vars (mtls_env outside dir_path dir k) →
  ∀ r, connect (with_env (mtls_env outside dir_path dir k) var) parse_addr url = r →
  (∃ servers, r = Ok (Mtls (s2b (join dir_path ca)) (s2b (join dir_path cert)) (s2b (join dir_path key)), servers)) ∨ r = Err BadUrl.
Proof.
  intros Hca Hcert Hkey [x Hx] [y Hy] [z Hz] Hs r <-.
  assert (mtls_env outside dir_path dir k = [("AJAR_TLS_CA", s2b (join dir_path ca)); ("AJAR_TLS_CERT", s2b (join dir_path cert)); ("AJAR_TLS_KEY", s2b (join dir_path key))]%string) as E
    by (unfold mtls_env; by rewrite Hca, Hcert, Hkey, Hx, Hy, Hz).
  rewrite E in Hs |- *. unfold set_vars in Hs. rewrite Forall_forall in Hs.
  assert (∀ n v, (n, v) ∈ [("AJAR_TLS_CA", s2b (join dir_path ca)); ("AJAR_TLS_CERT", s2b (join dir_path cert)); ("AJAR_TLS_KEY", s2b (join dir_path key))]%string →
    non_empty_env (with_env [("AJAR_TLS_CA", s2b (join dir_path ca)); ("AJAR_TLS_CERT", s2b (join dir_path cert)); ("AJAR_TLS_KEY", s2b (join dir_path key))]%string var) n = Some v) as Hv.
  { intros n v Hin. unfold non_empty_env. rewrite (with_env_set _ var n v) by (done || (apply (bool_decide_eq_true_1 (NoDup _)); reflexivity)).
    by rewrite bool_decide_false by (apply (Hs (n, v)); exact Hin). }
  unfold connect. rewrite (Hv "AJAR_TLS_CA"%string _), (Hv "AJAR_TLS_CERT"%string _), (Hv "AJAR_TLS_KEY"%string _) by (repeat constructor).
  cbn [mbind res_bind]. destruct (parse_all parse_addr (split_on 44 url)) as [servers|]; [left; by exists servers|by right].
Qed.

(** ** The tap *)

Section tap.
Context `{C : Ed25519}.
Variable decode : bytes → option Event.

Definition tapped (key : vkey) (m : bytes) : option Event := match verify m key with Ok canonical => decode canonical | _ => None end.

(** the tap writes the payload of every message that verifies under the egress key
    and decodes, in order, each followed by a newline, and nothing of any other; the
    counts are of the two kinds. *)
Theorem tap_verified key ms :
  let es := omap (tapped key) ms in
  tap decode key ms 0 0 = (concat ((λ e, ev_payload e ++ [10]) <$> es), zlen es, zlen ms - zlen es).
Proof.
  cbv zeta. assert (∀ (x y : bytes) (a b c d : Z), x = y → a = b → c = d → (x, a, c) = (y, b, d)) as Heq by congruence.
  enough (∀ a r, tap decode key ms a r = (concat ((λ e, ev_payload e ++ [10]) <$> omap (tapped key) ms), a + zlen (omap (tapped key) ms), r + (zlen ms - zlen (omap (tapped key) ms)))) as Ht
    by (rewrite Ht; apply Heq; [done|lia..]).
  induction ms as [|m ms IH]; intros a r; [apply Heq; [done|unfold zlen; cbn; lia..]|]. cbn [tap omap list_omap]. rewrite zlen_cons.
  assert (tapped key m = match verify m key with Ok canonical => decode canonical | _ => None end) as -> by done.
  destruct (verify m key) as [c| | |]; [destruct (decode c) as [e|]|..]; rewrite IH; apply Heq; try done; rewrite ?zlen_cons; try lia.
  cbn [fmap list_fmap concat]. by rewrite <- app_assoc.
Qed.
End tap.

(** * Witnesses *)

Definition ex_sha (x : bytes) : bytes := [zlen x mod 256].
Definition ex_manifest : Manifest :=
  mkManifest "1.2" None "radar-1" (s2b "nats://core:4222") (Some "asterix"%string) (Some []) (Some "ajar.ingest.radar-1"%string) None None None None
    (mkPacketKeys (Some "radar-1.seed") (Some "client.pem") (Some "client.key") (Some "ca.crt"))%string [mkFileEntry "ca.crt" (s2b "03")].
Definition ex_slice (l : bytes) : option Manifest := if bool_decide (l = s2b "{}") then Some ex_manifest else None.
Definition ex_outside (_ : string) : option bytes := None.
Definition ex_entries (sig : bytes) : list (string * bytes) :=
  [("manifest.json"%string, s2b "{}"); ("manifest.sig"%string, @hex_encode hex_real sig);
   ("egress.pub"%string, @hex_encode hex_real (@vk_to_bytes toy2 toy2_codec true)); ("ca.crt"%string, [1; 2; 3]); ("radar-1.seed"%string, seqZ 1 32)].
Definition ex_sig : bytes := @sig_to_bytes toy2 (@sign toy2 1 (SIG_DOMAIN ++ s2b "{}")).
Definition ex_open (sig : bytes) (dir : gmap string bytes) := @open_packet toy2 toy2_codec hex_real ex_sha ex_slice ex_outside (ex_entries sig) dir.

Lemma packet_pinned_witness :
  (∃ key mb, @signed_by toy2 toy2_codec hex_real (ex_open ex_sig ∅).1 key mb ∧ ex_slice mb = Some ex_manifest)
  ∧ ((ex_open ex_sig ∅).1 !! "manifest.json"%string = (ex_open ex_sig {["x"%string := []]}).1 !! "manifest.json"%string → ex_manifest = ex_manifest ∧
     ∀ f, f ∈ m_files ex_manifest → ∃ x y, read_in ex_outside (ex_open ex_sig ∅).1 (f_path f) = Some x
       ∧ read_in ex_outside (ex_open ex_sig {["x"%string := []]}).1 (f_path f) = Some y ∧ (x = y ∨ (x ≠ y ∧ ex_sha x = ex_sha y))).
Proof.
  apply (@packet_pinned toy2 toy2_codec hex_real hex_real_laws ex_sha ex_slice ex_outside) with
    (entries := ex_entries ex_sig) (entries' := ex_entries ex_sig) (dir := ∅) (dir' := {["x"%string := []]}) (l := ["radar-1.seed"%string]) (l' := ["radar-1.seed"%string]);
    [|vm_compute; reflexivity..].
  intros x. repeat constructor; apply Z.mod_pos_bound; lia.
Defined.

Definition ex_dir : gmap string bytes := {["ca.crt"%string := []; "client.pem"%string := []; "client.key"%string := []]}.

Lemma packet_goes_tls_witness :
  (∃ servers, connect (with_env (mtls_env ex_outside "/opt/ajar" ex_dir (m_keys ex_manifest)) (λ _, None)) (λ u, Some u) (s2b "nats://core:4222")
    = Ok (Mtls (s2b "/opt/ajar/ca.crt") (s2b "/opt/ajar/client.pem") (s2b "/opt/ajar/client.key"), servers))
  ∨ connect (with_env (mtls_env ex_outside "/opt/ajar" ex_dir (m_keys ex_manifest)) (λ _, None)) (λ u, Some u) (s2b "nats://core:4222") = Err BadUrl.
Proof.
  apply (packet_goes_tls (λ u, Some u) ex_outside "/opt/ajar" ex_dir (m_keys ex_manifest) (λ _, None) (s2b "nats://core:4222") "ca.crt" "client.pem" "client.key");
    try (vm_compute; reflexivity); try (eexists; vm_compute; reflexivity).
  apply (bool_decide_eq_true_1 (Forall _ _)). vm_compute. reflexivity.
Defined.

(** A packet that delivers two of the three TLS files: the setting a connector would
    refuse as partial is left out, and it connects in the clear. *)
Example partial_packet_in_the_clear :
  connect (with_env (mtls_env ex_outside "/opt/ajar" (delete "client.key"%string ex_dir) (m_keys ex_manifest)) (λ _, None)) (λ u, Some u) (s2b "nats://core:4222")
  = Ok (Plaintext, [s2b "nats://core:4222"]).
Proof. vm_compute. reflexivity. Qed.

(** A packet is unpacked before it is checked: one that does not verify has replaced
    the files of the last. *)
Example refused_packet_replaces :
  let installed := {["radar-1.seed"%string := seqZ 100 32]} in
  (ex_open (replicate 64 0) installed).2 = Err BadSignature ∧ (ex_open (replicate 64 0) installed).1 !! "radar-1.seed"%string = Some (seqZ 1 32).
Proof. split; vm_compute; reflexivity. Qed.

(** A subject that does not end in the source is not the one published to. *)
Example subject_ignored :
  let m := mkManifest "1" None "radar-1" [] None None (Some "ops.feeds.radar"%string) None None None None (mkPacketKeys None None None None) [] in
  subject_prefix m = "ajar.ingest"%string.
Proof. vm_compute. reflexivity. Qed.
