(* ===== verification/Doctor.v ===== *)
(** The doctor (rust/connectors/doctor/src: lib.rs, report.rs, transport.rs, net.rs,
    certs.rs and tls.rs): the findings of a run, step by step, without their texts.
    The files, the network, the X.509 and TLS crates and the clock are what a host
    finds; the checks that are the product's own run on the product's own definitions. *)
From Stdlib Require Import ZArith Lia.
From Stdlib Require Import Strings.String.
From S2P Require Spool Replay.
From S2P Require Export Keys Nats Dds.

Local Open Scope Z_scope.

(** * Findings *)

(** @src rust/connectors/doctor/src/report.rs 4-12 Status *)
Inductive Status := Fine | Warn | Fail | Skip.

(** @src rust/connectors/doctor/src/report.rs 14-57 Finding *)
Record Finding := mkFinding { step : string; status : Status }.
Definition fine (s : string) : Finding := mkFinding s Fine.
Definition warn (s : string) : Finding := mkFinding s Warn.
Definition fail (s : string) : Finding := mkFinding s Fail.
Definition skip (s : string) : Finding := mkFinding s Skip.

Definition is_fail (f : Finding) : bool := match status f with Fail => true | _ => false end.

(** @src rust/connectors/doctor/src/report.rs 85-96 render *)
Definition healthy (l : list Finding) : bool := match list_find (λ f, is_fail f = true) l with Some _ => false | None => true end.

(** * What the doctor finds *)

(** @src rust/connectors/doctor/src/net.rs 62-69 Dial *)
Inductive Dial := Connected | NoDns | NoAnswer.

(** The addresses a name resolves to, in order, and whether each answers. *)
(** @src rust/connectors/doctor/src/net.rs 71-90 dial *)
Definition dial (addrs : option (list bool)) : Dial :=
  match addrs with
  | None | Some [] => NoDns
  | Some answers => if existsb (λ b, b) answers then Connected else NoAnswer
  end.

(** @src rust/connectors/doctor/src/net.rs 92-97 ServerInfo *)
Record ServerInfo := mkServerInfo { srv_tls_required : bool; tls_available : bool }.

(** What the first read of a connection comes to. *)
Inductive Greeting := Closed | Got (buf : bytes) | ReadFailed | Silent.

(** @src rust/connectors/doctor/src/certs.rs 10-22 CertInfo *)
Record CertInfo := mkCertInfo { common_name : option string; san : list string; not_before : Z; not_after : Z; is_ca : bool }.

(** The certificates of a PEM file as the reader yields them, each its bytes or an error. *)
(** @src rust/connectors/doctor/src/certs.rs 72-81 load_pem_certs *)
Definition load_pem_certs (file : option (list (option bytes))) : option (list bytes) :=
  entries ← file;
  certs ← mapM (λ o : option bytes, o) entries;
  match certs with [] => None | _ => Some certs end.

(** @src rust/connectors/doctor/src/certs.rs 88-93 ClientIdentity *)
Record ClientIdentity := mkIdentity { chain : list bytes; key : bytes; leaf : CertInfo }.

(** What rustls ends a handshake with. *)
Inductive CertificateError := UnknownIssuer | BadCertSignature | Expired | NotValidYet | NotValidForName | OtherCertificate.
Inductive Alert := BadCertificate | CertificateUnknown | UnknownCA | CertificateRequired | CertificateExpired | AccessDenied | HandshakeFailure | OtherAlert.
Inductive RustlsError := InvalidCertificate (e : CertificateError) | AlertReceived (a : Alert) | OtherError.

(** How the handshake went, and what came after the PING. *)
Inductive TlsEnd := Established | TlsFailed (e : RustlsError) | IoFailed | HandshakeTimeout.
Inductive Answer := AClosed | AText (t : bytes) | AFailed (e : option RustlsError) | AQuiet.

(** The problem a diagnosis names. *)
(** @src rust/connectors/doctor/src/tls.rs 66-70 Diagnosis *)
Inductive Diagnosis :=
| NoTlsThere | WrongCa | ServerExpired | ServerNotValidYet | NameNotCovered (names : option (list string)) | UnusableCertificate
| ClientRefused | Aborted | HandshakeFailed | NotTls | HandshakeHung
| ClosedAfter | NatsRefused (text : bytes) | RejectedAfter (a : Alert) | FailedAfter.

(** How far a probe got. *)
Inductive Reached := Answered (line : bytes) | QuietAfter.

(** @src rust/connectors/doctor/src/tls.rs 72-78 Handshake *)
Record Handshake := mkHandshake { server_cert : option CertInfo; outcome : Reached + Diagnosis }.

(** @src rust/connectors/doctor/src/tls.rs 300-395 classify_rustls_error *)
Definition classify_rustls_error (e : RustlsError) (seen : option CertInfo) : Diagnosis :=
  match e with
  | InvalidCertificate c =>
      match c with
      | UnknownIssuer | BadCertSignature => WrongCa
      | Expired => ServerExpired
      | NotValidYet => ServerNotValidYet
      | NotValidForName => NameNotCovered (san <$> seen)
      | OtherCertificate => UnusableCertificate
      end
  | AlertReceived a => match a with OtherAlert => Aborted | _ => ClientRefused end
  | OtherError => HandshakeFailed
  end.

(** [text.contains(p)]. *)
Fixpoint contains (p l : bytes) : bool := starts_with p l || match l with [] => false | _ :: l => contains p l end.

(** [text.lines().next().unwrap_or("")]. *)
Definition first_line (t : bytes) : bytes := match find_byte 10 t with Some k => take (Z.to_nat k) t | None => t end.

(** A serial device. *)
Inductive Device := NoDevice | Readable | Denied | Unopenable.

Section json.
(** [serde_json::from_str]. *)
Variable from_str : bytes → option Value.

(** [v[k].as_bool().unwrap_or(false)]. *)
Definition flag (v : Value) (k : string) : bool :=
  match v with Obj m => match list_find (λ kv, kv.1 = k) m with Some (_, (_, Bool b)) => b | _ => false end | _ => false end.

(** @src rust/connectors/doctor/src/net.rs 120-134 parse_info *)
Definition parse_info (text : bytes) : option ServerInfo :=
  rest ← strip_prefix (s2b "INFO ") (trim_start text);
  let line := match find_byte 10 rest with Some k => take (Z.to_nat k) rest | None => rest end in
  v ← from_str (trim line);
  Some (mkServerInfo (flag v "tls_required") (flag v "tls_available")).

(** @src rust/connectors/doctor/src/net.rs 99-118 read_info *)
Definition read_info (g : Greeting) : option (option ServerInfo) :=
  match g with
  | Closed | ReadFailed => None
  | Got buf => i ← parse_info (utf8_lossy buf); Some (Some i)
  | Silent => Some None
  end.
End json.

Record Host `{C : Ed25519} := mkHost {
  read_file : string → option bytes;
  mode_of : string → option Z;
  spool_disk : string → Spool.Disk * option bytes;
  can_write : string → bool;
  joins : string → string → option string → bool;
  device : string → Device;
  dds : DdsOptions → option Probe;
  (** The first and the second resolution of a name, and the greeting on each connection. *)
  lookup : Endpoint → option (list bool);
  greeting : Endpoint → Greeting;
  lookup_again : Endpoint → option (list bool);
  greeting_again : Endpoint → Greeting;
  (** PEM files as their reader yields them; X.509 fields; what rustls makes of them. *)
  pem_certs : bytes → option (list (option bytes));
  pem_key : bytes → option bytes;
  inspect_der : bytes → option CertInfo;
  trust_root : bytes → bool;
  verifier : list bytes → bool;
  usable_pair : ClientIdentity → bool;
  server_name : bytes → bool;
  (** The handshake, the leaf the server presented in it, and what is read after it. *)
  tls : Endpoint → list bytes → option ClientIdentity → TlsEnd;
  presented : Endpoint → option bytes;
  answer : Endpoint → Answer;
  now : Z;
  var : string → option bytes
}.

(** @src rust/connectors/doctor/src/lib.rs 32-41 Inputs *)
Record Inputs := mkInputs {
  i_source_id : string; i_nats_url : string; i_key_path : string; i_prefix : string;
  i_spool : option SpoolConfig; i_transport : option Transport; i_marking : option Marking
}.

(** @src rust/connectors/doctor/src/lib.rs 20-30 Options *)
Record Options := mkOptions { config_path : option string; sources_dir : option string }.

(** * The checks *)

(** [Path::with_extension("pub")] of a path to a file. *)
Definition with_pub (path : string) : string :=
  match rfind_byte 47 (s2b path) with
  | Some k => b2s (take (Z.to_nat (k + 1)) (s2b path)) ++ stem_of (b2s (drop (Z.to_nat (k + 1)) (s2b path))) ++ ".pub"
  | None => stem_of path ++ ".pub"
  end%string.

Section checks.
Context `{C : Ed25519} `{K : !KeyCodec C} `{H : Hex}.
Variable toml : bytes → res bytes Config.
Variable json : bytes → option Value.
Variable h : Host.

Definition text_file (path : string) : option bytes := t ← read_file h path; if utf8_valid t then Some t else None.
Definition derived (k : skey) : bytes := hex_encode (vk_to_bytes (verifying_key k)).

(** @src rust/connectors/doctor/src/lib.rs 18-18 ENV_VARS *)
Definition ENV_VARS : list string := ["NATS_URL"; "AJAR_SOURCE_ID"; "AJAR_SIGNING_SEED"]%string.

(** @src rust/connectors/doctor/src/lib.rs 160-190 inputs_from_env *)
Definition inputs_from_env : option Inputs :=
  match non_empty_env (var h) "NATS_URL", non_empty_env (var h) "AJAR_SOURCE_ID", non_empty_env (var h) "AJAR_SIGNING_SEED" with
  | Some url, Some src, Some key => Some (mkInputs (b2s src) (b2s url) (b2s key) "ajar.ingest" None None None)
  | _, _, _ => None
  end.

(** @src rust/connectors/doctor/src/lib.rs 47-68 run *)
Definition resolve (o : Options) : option Inputs :=
  match config_path o with
  | Some path =>
      match load toml (read_file h path) with
      | Ok cfg => Some (mkInputs (cfg_source_id cfg) (nats_url cfg) (signing_key_path cfg) (subject_prefix cfg) (spool_config cfg) (Some (transport cfg))
          (match marking cfg with Ok m => m | _ => None end))
      | _ => None
      end
  | None => inputs_from_env
  end.

(** @src rust/connectors/doctor/src/lib.rs 192-257 check_signing_key *)
Definition check_signing_key (i : Inputs) : list Finding * option bytes :=
  match load_key (read_file h (i_key_path i)) with
  | Ok k =>
      let mode := Z.land (default 0 (mode_of h (i_key_path i))) 0x1FF in
      if negb (Z.land mode 0x3F =? 0) then ([warn "signing key"], Some (derived k))
      else match text_file (with_pub (i_key_path i)) with
      | Some registered =>
          if bool_decide (ascii_lower (trim registered) = derived k) then ([fine "signing key"], Some (derived k)) else ([fail "signing key"], Some (derived k))
      | None => ([fine "signing key"], Some (derived k))
      end
  | _ => ([fail "signing key"], None)
  end.

(** @src rust/connectors/doctor/src/lib.rs 259-273 check_marking *)
Definition check_marking (i : Inputs) : list Finding := match i_marking i with Some _ => [fine "marking"] | None => [skip "marking"] end.

(** The finding, and the directory afterwards. *)
(** @src rust/connectors/doctor/src/lib.rs 275-325 check_spool *)
Definition check_spool (i : Inputs) : list Finding * option Spool.Disk :=
  match i_spool i with
  | None => ([skip "spool"], None)
  | Some c =>
      let '(disk, cursor) := spool_disk h (spool_dir c) in
      match Spool.open (max_bytes c) disk cursor with
      | Ok s =>
          (if can_write h (spool_dir c) then (if 0 <? Spool.depth_bytes (Spool.disk s) then [warn "spool"] else [fine "spool"]) else [fail "spool"], Some (Spool.disk s))
      | _ => ([fail "spool"], None)
      end
  end.

(** @src rust/connectors/doctor/src/transport.rs 127-194 dds_verdict *)
Definition dds_verdict (opts : DdsOptions) (p : Probe) : Finding :=
  let same := filter (λ x : string * string, x.1 = topic opts) (publishers p) in
  let exact := existsb (λ x, String.eqb x.2 (type_name opts)) same in
  let other := existsb (λ x, negb (String.eqb x.2 (type_name opts))) same in
  match matched p, first_sample_len p with
  | true, Some _ => fine "transport"
  | true, None => if negb exact && other then fail "transport" else warn "transport"
  | false, _ => fail "transport"
  end.

(** @src rust/connectors/doctor/src/transport.rs 78-125 check_serial_device *)
Definition check_serial_device (d : Device) : Finding := match d with Readable => fine "transport" | _ => fail "transport" end.

(** @src rust/connectors/doctor/src/transport.rs 11-76 check *)
Definition check_transport (t : option Transport) : list Finding :=
  match t with
  | Some (UdpMulticast bind group interface) => if joins h bind group interface then [fine "transport"] else [fail "transport"]
  | Some (Serial dev _) => [check_serial_device (device h dev)]
  | Some (Dds opts) => match dds h opts with Some p => [dds_verdict opts p] | None => [fail "transport"] end
  | Some (PcapReplay path _ _ port _) =>
      match read_file h path with
      | Some data => match Replay.parse_pcap data port with Ok _ => [fine "transport"] | _ => [fail "transport"] end
      | None => [fail "transport"]
      end
  | _ => []
  end.

(** @src rust/connectors/doctor/src/lib.rs 327-411 check_registration *)
Definition check_registration (i : Inputs) (dir : option string) (key : option bytes) : list Finding :=
  match key, dir with
  | None, _ => [skip "registration"]
  | Some _, None => [skip "registration"]
  | Some key, Some dir =>
      match text_file (dir ++ "/" ++ i_source_id i ++ ".pub") with
      | Some registered => if bool_decide (ascii_lower (trim registered) = key) then [fine "registration"] else [fail "registration"]
      | None => [fail "registration"]
      end
  end%string.

(** @src rust/connectors/doctor/src/lib.rs 413-523 check_endpoint *)
Definition check_endpoint (i : Inputs) : list Finding * option Endpoint * option ServerInfo :=
  match parse_urls (s2b (i_nats_url i)) with
  | Ok (ep :: standby) =>
      let failover := match standby with
                      | [] => []
                      | _ => if forallb (λ e, match dial (lookup h e) with Connected => true | _ => false end) standby then [fine "failover"] else [warn "failover"]
                      end in
      match dial (lookup h ep) with
      | Connected =>
          match read_info json (greeting h ep) with
          | Some (Some info) => (failover ++ [fine "endpoint"], Some ep, Some info)
          | Some None => (failover ++ [fine "endpoint"], Some ep, None)
          | None => (failover ++ [fail "endpoint"], None, None)
          end
      | NoDns | NoAnswer => (failover ++ [fail "endpoint"], None, None)
      end
  | _ => ([fail "endpoint"], None, None)
  end.

(** @src rust/connectors/doctor/src/lib.rs 525-585 check_policy *)
Definition check_policy (p : Policy) (g : option ServerInfo) : list Finding * option (bytes * bytes * bytes) :=
  match p with
  | PMtls ca cert key => ([fine "tls policy"], Some (ca, cert, key))
  | Partial _ _ => ([fail "tls policy"], None)
  | Cleartext true => ([fail "tls policy"], None)
  | Cleartext false => ([if match g with Some i => srv_tls_required i | None => false end then fail "tls policy" else warn "tls policy"], None)
  end.

(** @src rust/connectors/doctor/src/certs.rs 95-103 load_client_identity *)
Definition load_client_identity (cert key : bytes) : option ClientIdentity :=
  chain ← load_pem_certs (pem_certs h cert);
  key ← pem_key h key;
  first ← head chain;
  leaf ← inspect_der h first;
  Some (mkIdentity chain key leaf).

(** @src rust/connectors/doctor/src/lib.rs 587-681 check_certificate_files *)
Definition check_certificate_files (i : Inputs) (ca cert key : bytes) : list Finding * option ClientIdentity :=
  match load_pem_certs (pem_certs h ca) ≫= λ c, head c ≫= inspect_der h with
  | None => ([fail "certificate files"], None)
  | Some info =>
      let first := if is_ca info then [] else [warn "certificate files"] in
      match load_client_identity cert key with
      | None => (first ++ [fail "certificate files"], None)
      | Some identity =>
          let leaf := leaf identity in
          (first ++ [if not_after leaf <? now h then fail "certificate files"
                     else if now h <? not_before leaf then fail "certificate files"
                     else match common_name leaf with
                          | Some cn => if String.eqb cn (i_source_id i) then fine "certificate files" else warn "certificate files"
                          | None => warn "certificate files"
                          end], Some identity)
      end
  end.

(** What is read after the PING. *)
(** @src rust/connectors/doctor/src/tls.rs 246-292 probe *)
Definition after_ping (a : Answer) : Reached + Diagnosis :=
  match a with
  | AClosed => inr ClosedAfter
  | AText buf => let text := utf8_lossy buf in
                 if contains (s2b "-ERR") text then inr (NatsRefused (trim text)) else inl (Answered (trim (first_line text)))
  | AFailed (Some (AlertReceived a)) => inr (RejectedAfter a)
  | AFailed _ => inr FailedAfter
  | AQuiet => inl QuietAfter
  end.

(** [None]: the handshake was not attempted. *)
(** @src rust/connectors/doctor/src/tls.rs 125-298 probe *)
Definition probe (ep : Endpoint) (ca : bytes) (client : option ClientIdentity) : option Handshake :=
  roots ← load_pem_certs (pem_certs h ca);
  guard (forallb (trust_root h) roots = true) ;;
  guard (verifier h roots = true) ;;
  guard (from_option (usable_pair h) true client = true) ;;
  match dial (lookup_again h ep) with
  | Connected =>
      match read_info json (greeting_again h ep) with
      | Some (Some (mkServerInfo false false)) => Some (mkHandshake None (inr NoTlsThere))
      | _ =>
          guard (server_name h (host ep) = true) ;;
          let seen := presented h ep ≫= inspect_der h in
          Some (mkHandshake seen
            match tls h ep roots client with
            | Established => after_ping (answer h ep)
            | TlsFailed e => inr (classify_rustls_error e seen)
            | IoFailed => inr NotTls
            | HandshakeTimeout => inr HandshakeHung
            end)
      end
  | NoDns | NoAnswer => None
  end.

(** @src rust/connectors/doctor/src/lib.rs 683-713 check_handshake *)
Definition check_handshake (ep : Endpoint) (ca : bytes) (identity : option ClientIdentity) : list Finding * option CertInfo :=
  match probe ep ca identity with
  | Some hs => ([match outcome hs with inl _ => fine "tls handshake" | inr _ => fail "tls handshake" end], server_cert hs)
  | None => ([fail "tls handshake"], None)
  end.

(** @src rust/connectors/doctor/src/lib.rs 715-757 check_clock *)
Definition check_clock (server : option CertInfo) : list Finding :=
  match server with
  | None => [skip "clock"]
  | Some c => [if now h <? not_before c then fail "clock" else if not_after c <? now h then warn "clock" else fine "clock"]
  end.

Definition BLOCKED : list string :=
  ["signing key"; "spool"; "marking"; "registration"; "endpoint"; "tls policy"; "certificate files"; "tls handshake"; "clock"]%string.

(** @src rust/connectors/doctor/src/lib.rs 111-157 run *)
Definition check_link (i : Inputs) : list Finding :=
  let '(found, endpoint, info) := check_endpoint i in
  let '(on_policy, mtls) := check_policy (tls_policy (var h) (url_demands_tls (s2b (i_nats_url i)))) info in
  found ++ on_policy ++
  match mtls, endpoint with
  | Some (ca, cert, key), Some ep =>
      let '(on_files, identity) := check_certificate_files i ca cert key in
      let '(on_handshake, server) := check_handshake ep ca identity in
      on_files ++ on_handshake ++ check_clock server
  | _, _ => [skip "certificate files"; skip "tls handshake"; skip "clock"]
  end.

(** @src rust/connectors/doctor/src/lib.rs 43-158 run *)
Definition run (o : Options) : list Finding :=
  match resolve o with
  | None => fail "config" :: (skip <$> BLOCKED)
  | Some i =>
      let '(on_key, key) := check_signing_key i in
      fine "config" :: on_key ++ (check_spool i).1 ++ check_marking i ++ check_transport (i_transport i)
        ++ check_registration i (sources_dir o) key ++ check_link i
  end.
End checks.

(** * What the findings mean *)

Lemma healthy_Forall l : healthy l = true ↔ Forall (λ f, is_fail f = false) l.
Proof.
  unfold healthy. destruct (list_find _ l) as [[i f]|] eqn:E.
  - apply list_find_Some in E as (Hi & Hf & _). split; [done|]. intros Hl. apply (Forall_lookup_1 _ _ _ _ Hl) in Hi. congruence.
  - split; [intros _|done]. apply list_find_None in E. eapply Forall_impl; [exact E|]. intros f Hf. by apply not_true_iff_false.
Qed.

Lemma Forall_app_fail (l k : list Finding) : Forall (λ f, is_fail f = false) (l ++ k) ↔ Forall (λ f, is_fail f = false) l ∧ Forall (λ f, is_fail f = false) k.
Proof. apply Forall_app. Qed.

(** Nothing failed: what is on the list is no failure. *)
Ltac no_fail :=
  repeat match goal with
  | H : Forall (λ f, is_fail f = false) (_ ++ _) |- _ => apply Forall_app_fail in H as [? ?]
  | H : Forall (λ f, is_fail f = false) (_ :: _) |- _ => apply Forall_cons in H as [? H]
  | H : is_fail (fail _) = false |- _ => discriminate H
  end.

Section meaning.
Context `{C : Ed25519} `{CL : !Ed25519Laws C} `{K : !KeyCodec C} `{KL : !KeyCodecLaws K} `{H : Hex} `{HL : !HexLaws H}.
Variable toml : bytes → res bytes Config.
Variable json : bytes → option Value.
Variable h : Host.

Lemma key_found i found key : check_signing_key h i = (found, key) → Forall (λ f, is_fail f = false) found →
  ∃ k, load_key (read_file h (i_key_path i)) = Ok k ∧ key = Some (derived k).
Proof.
  unfold check_signing_key. intros Hc Hf. destruct (load_key _) as [k| | |] eqn:E; try (injection Hc as <- <-; no_fail).
  exists k. split; [done|]. by repeat case_match; simplify_eq.
Qed.

Lemma registration_found i dir k : Forall (λ f, is_fail f = false) (check_registration h i (Some dir) (Some (derived k))) →
  ∃ registered, text_file h (dir ++ "/" ++ i_source_id i ++ ".pub")%string = Some registered ∧ ascii_lower (trim registered) = derived k.
Proof.
  unfold check_registration. destruct (text_file _ _) as [registered|]; [|intros; no_fail].
  case_bool_decide; intros; no_fail. by eexists.
Qed.

Lemma spool_found i c : i_spool i = Some c → Forall (λ f, is_fail f = false) (check_spool h i).1 →
  ∃ s, Spool.open (max_bytes c) (spool_disk h (spool_dir c)).1 (spool_disk h (spool_dir c)).2 = Ok s.
Proof.
  intros Hi. unfold check_spool. rewrite Hi. destruct (spool_disk _ _) as [disk cursor]. destruct (Spool.open _ _ _) as [s| | |]; cbn; intros; no_fail. by eexists.
Qed.

Lemma endpoint_found i found ep info : check_endpoint json h i = (found, ep, info) → Forall (λ f, is_fail f = false) found →
  ∃ e standby, parse_urls (s2b (i_nats_url i)) = Ok (e :: standby) ∧ ep = Some e ∧ dial (lookup h e) = Connected ∧ read_info json (greeting h e) = Some info.
Proof.
  unfold check_endpoint. destruct (parse_urls _) as [[|e standby]| | |]; intros Hc Hf; try (injection Hc as <- <- <-; no_fail).
  destruct (dial (lookup h e)) eqn:Ed; [|injection Hc as <- <- <-; no_fail..].
  destruct (read_info _ _) as [[srv|]|] eqn:Er; injection Hc as <- <- <-; no_fail; by eexists _, _.
Qed.

(** A connector is let through where the doctor has nothing against its TLS. *)
Lemma policy_found p g found mtls : check_policy p g = (found, mtls) → Forall (λ f, is_fail f = false) found →
  (∃ ca cert key, p = PMtls ca cert key ∧ mtls = Some (ca, cert, key))
  ∨ p = Cleartext false ∧ mtls = None ∧ ∀ srv, g = Some srv → srv_tls_required srv = false.
Proof.
  unfold check_policy. intros Hc Hf. destruct p as [ca cert key|[]|]; injection Hc as <- <-; no_fail.
  - left. by eexists _, _, _.
  - right. split_and!; [done..|]. intros srv ->. by destruct (srv_tls_required srv).
Qed.

Lemma files_found i ca cert key found identity : check_certificate_files h i ca cert key = (found, identity) → Forall (λ f, is_fail f = false) found →
  ∃ client, load_client_identity h cert key = Some client ∧ identity = Some client ∧ not_before (leaf client) ≤ now h ≤ not_after (leaf client).
Proof.
  unfold check_certificate_files. intros Hc Hf. destruct (load_pem_certs _ ≫= _) as [info|]; [|injection Hc as <- <-; no_fail].
  destruct (load_client_identity h cert key) as [client|]; [|injection Hc as <- <-; no_fail].
  injection Hc as <- <-. exists client. split_and!; [done..| |]; no_fail;
    destruct (not_after (leaf client) <? now h) eqn:E1; no_fail; try done; destruct (now h <? not_before (leaf client)) eqn:E2; no_fail; try done; lia.
Qed.

(** A handshake the doctor is content with was made, and what came after it was
    neither an error nor a refusal. *)
Lemma handshake_found ep ca identity found server : check_handshake json h ep ca identity = (found, server) → Forall (λ f, is_fail f = false) found →
  ∃ roots, load_pem_certs (pem_certs h ca) = Some roots ∧ tls h ep roots identity = Established
    ∧ match answer h ep with AQuiet => True | AText t => contains (s2b "-ERR") (utf8_lossy t) = false | _ => False end.
Proof.
  unfold check_handshake. intros Hc Hf. destruct (probe json h ep ca identity) as [hs|] eqn:Ep; [|injection Hc as <- <-; no_fail].
  injection Hc as <- <-. destruct (outcome hs) as [r|d] eqn:Eo; [|no_fail]. clear Hf.
  unfold probe in Ep. apply bind_Some in Ep as (roots & Hr & Ep). exists roots. split; [done|].
  repeat (apply bind_Some in Ep as (_ & _ & Ep)). destruct (dial (lookup_again h ep)); [|done..].
  assert (match tls h ep roots identity with
          | Established => after_ping (answer h ep)
          | TlsFailed e => inr (classify_rustls_error e (presented h ep ≫= inspect_der h))
          | IoFailed => inr NotTls
          | HandshakeTimeout => inr HandshakeHung
          end = inl r) as Ho.
  { destruct (read_info json (greeting_again h ep)) as [[[[] []]|]|]; try (apply bind_Some in Ep as (_ & _ & [= <-]); exact Eo). by injection Ep as <-. }
  destruct (tls h ep roots identity); try done. split; [done|]. unfold after_ping in Ho.
  destruct (answer h ep) as [|t|[[]|]|]; try done. by destruct (contains _ _).
Qed.
End meaning.

(** * Properties *)

Section green.
Context `{C : Ed25519} `{CL : !Ed25519Laws C} `{K : !KeyCodec C} `{KL : !KeyCodecLaws K} `{H : Hex} `{HL : !HexLaws H}.
Context {Addr : Type}.
Variable toml : bytes → res bytes Config.
Variable json : bytes → option Value.
Variable h : Host.
Variable decode : bytes → option Event.
Local Notation seal := Seal.seal.
Variable parse_addr : bytes → option Addr.

(** A sink that reads the directory takes what the seed seals. *)
Definition registered (dir source_id : string) (k : skey) : Prop :=
  ∀ table entries keys, NoDup entries.*1 → (∀ name text, read_file h (dir ++ "/" ++ name)%string = Some text → (name, text) ∈ entries) →
    sink_keys table (Some entries) = Ok keys →
    ∀ canonical e, decode canonical = Some e → ev_source_id e = source_id → accept decode keys (seal canonical k) = Ok e.

(** The connector gets through to the first server of its list. *)
Definition gets_through (url : bytes) : Prop :=
  ∃ ep standby info, parse_urls url = Ok (ep :: standby) ∧ dial (lookup h ep) = Connected ∧ read_info json (greeting h ep) = Some info ∧
    ∀ servers, parse_all parse_addr (split_on 44 url) = Some servers →
      ∃ security, connect (var h) parse_addr url = Ok (security, servers) ∧
      match security with
      | Plaintext => ∀ srv, info = Some srv → srv_tls_required srv = false
      | Mtls ca cert key => ∃ client roots, load_client_identity h cert key = Some client ∧ not_before (leaf client) ≤ now h ≤ not_after (leaf client)
                              ∧ load_pem_certs (pem_certs h ca) = Some roots ∧ tls h ep roots (Some client) = Established
                              ∧ match answer h ep with AQuiet => True | AText t => contains (s2b "-ERR") (utf8_lossy t) = false | _ => False end
      end.

Lemma registered_key dir source_id k text :
  source_id ≠ ""%string → text_file h (dir ++ "/" ++ source_id ++ ".pub")%string = Some text → ascii_lower (trim text) = derived k → registered dir source_id k.
Proof.
  intros Hs Ht Hk table entries keys Hn Hall Hkeys canonical e Hd <-. apply registered_accepts; [|done].
  unfold text_file in Ht. apply bind_Some in Ht as (t & Hr & Ht). destruct (utf8_valid t); [|done]. injection Ht as ->.
  unfold sink_keys in Hkeys. apply bind_Ok in Hkeys as (m0 & _ & Hkeys).
  destruct (file_keys_found entries m0 keys Hn Hkeys) as [Hfound _].
  destruct (Hfound (ev_source_id e) text Hs (Hall _ _ Hr)) as (v & Hv & ->). rewrite (decode_key_hex (verifying_key k)) in Hv by done. by injection Hv as ->.
Qed.

Lemma link_found i : Forall (λ f, is_fail f = false) (check_link json h i) → gets_through (s2b (i_nats_url i)).
Proof.
  unfold check_link. destruct (check_endpoint json h i) as [[found ep] info] eqn:Ee. destruct (check_policy _ info) as [on_policy mtls] eqn:Ep.
  intros Hf. no_fail. destruct (endpoint_found _ _ _ _ _ _ Ee) as (e & standby & Hu & -> & Hd & Hr); [done|].
  exists e, standby, info. split_and!; [done..|]. intros servers Hs.
  rewrite (doctor_agrees (var h) parse_addr _ _ _ Hu Hs). unfold url_demands_tls in Ep. rewrite Hu in Ep.
  destruct (policy_found _ _ _ _ Ep) as [(ca & cert & key & -> & ->)|(-> & -> & Hg)]; [done| |by exists Plaintext].
  exists (Mtls ca cert key). split; [done|].
  destruct (check_certificate_files h i ca cert key) as [on_files identity] eqn:Ec. destruct (check_handshake json h e ca identity) as [on_hs server] eqn:Eh.
  no_fail. destruct (files_found _ _ _ _ _ _ _ Ec) as (client & Hc & -> & Hnow); [done|].
  apply handshake_found in Eh as (roots & Hrt & Ht & Ha); [|done]. by exists client, roots.
Qed.

(** What a connector sets up before its loop: its seed, the marking, the servers and
    how it goes to them, and its spool. The client's own dial comes after. *)
Inductive StartError :=
| NoSeed (e : KeyError)
| NoMarking (e : MarkingError)
| NoLink (e : ConnectError)
| NoSpool (e : Spool.SpoolError).

(** @src rust/connectors/common/src/runtime.rs 76-118 run *)
Definition start (cfg : Config) : res StartError (skey * option Marking * (Security * list Addr) * option Spool.Spool) :=
  k ← map_err NoSeed (load_key (read_file h (signing_key_path cfg)));
  m ← map_err NoMarking (marking cfg);
  link ← map_err NoLink (connect (var h) parse_addr (s2b (nats_url cfg)));
  s ← match spool_config cfg with
      | Some c => let '(disk, cursor) := spool_disk h (spool_dir c) in Some <$> map_err NoSpool (Spool.open (max_bytes c) disk cursor)
      | None => Ok None
      end;
  Ok (k, m, link, s).

Lemma load_marking file cfg : load toml file = Ok cfg → ∃ m, marking cfg = Ok m.
Proof.
  unfold load. destruct file as [text|]; [|done]. destruct (toml text) as [c|msg| |]; [|destruct (did_you_mean msg) as [|[]| |]; done|done..].
  destruct (marking c) as [m| | |] eqn:E; [|done..]. intros [= <-]. by exists m.
Qed.

(** C24: a doctor that finds nothing wrong is right: the configuration loads, and so does
    the seed it names; a sink that reads the directory accepts every event the
    connector seals with it; the spool opens; the connector gets through to its
    first server, in the clear only where that does not demand TLS, and otherwise with
    a certificate valid at the time, a handshake that was established and no refusal
    after it; and a connector started there on servers whose addresses parse has all
    it needs for its loop. *)
Theorem doctor_green o path dir :
  config_path o = Some path → sources_dir o = Some dir → healthy (run toml json h o) = true →
  ∃ cfg k, load toml (read_file h path) = Ok cfg ∧ load_key (read_file h (signing_key_path cfg)) = Ok k
    ∧ (cfg_source_id cfg ≠ ""%string → registered dir (cfg_source_id cfg) k)
    ∧ (∀ c, spool_config cfg = Some c → ∃ s, Spool.open (max_bytes c) (spool_disk h (spool_dir c)).1 (spool_disk h (spool_dir c)).2 = Ok s)
    ∧ gets_through (s2b (nats_url cfg))
    ∧ ∀ servers, parse_all parse_addr (split_on 44 (s2b (nats_url cfg))) = Some servers →
        ∃ m security s, start cfg = Ok (k, m, (security, servers), s) ∧ (is_Some s ↔ is_Some (spool_config cfg)).
Proof.
  intros Hp Hd Hh. apply healthy_Forall in Hh. unfold run, resolve in Hh. rewrite Hp, Hd in Hh.
  destruct (load toml (read_file h path)) as [cfg| | |] eqn:El; [|no_fail..]. cbn zeta in Hh.
  match type of Hh with context [check_signing_key h ?i] => set (inp := i) in *; destruct (check_signing_key h inp) as [on_key key] eqn:Ek end.
  no_fail. destruct (key_found _ _ _ _ Ek) as (k & Hk & ->); [done|]. exists cfg, k.
  assert (∀ c, spool_config cfg = Some c → ∃ s, Spool.open (max_bytes c) (spool_disk h (spool_dir c)).1 (spool_disk h (spool_dir c)).2 = Ok s) as Hspool
    by (intros c Hc; by apply (spool_found h inp)).
  assert (gets_through (s2b (nats_url cfg))) as Hlink by (by apply (link_found inp)).
  split_and!; [done|done| |done|done|].
  - intros Hs. destruct (registration_found h inp dir k) as (text & Ht & Hx); [done|]. by eapply registered_key.
  - intros servers Hs. destruct Hlink as (ep & standby & info & _ & _ & _ & Hsec). destruct (Hsec servers Hs) as (security & Hc & _).
    destruct (load_marking _ _ El) as [m Hm]. change (i_key_path inp) with (signing_key_path cfg) in Hk. unfold start. rewrite Hk. cbn [map_err mbind res_bind]. rewrite Hm. cbn [map_err mbind res_bind]. rewrite Hc. cbn [map_err mbind res_bind].
    destruct (spool_config cfg) as [c|]; [|by exists m, security, None].
    destruct (Hspool c eq_refl) as [s Ho]. destruct (spool_disk h (spool_dir c)) as [disk cursor]. cbn [fst snd] in Ho. rewrite Ho.
    by exists m, security, (Some s).
Qed.

(** The steps a run may report, in the order it reports them; the first certificate
    may be warned of before the second is judged. *)
Definition ONBOARDING : list string :=
  ["config"; "signing key"; "spool"; "marking"; "transport"; "registration"; "failover"; "endpoint"; "tls policy";
   "certificate files"; "certificate files"; "tls handshake"; "clock"]%string.

Ltac one_step := repeat case_match; simplify_eq; cbn; by eauto.

Lemma key_step i : step <$> (check_signing_key h i).1 = ["signing key"%string].
Proof. unfold check_signing_key. one_step. Qed.

Lemma spool_step i : step <$> (check_spool h i).1 = ["spool"%string].
Proof. unfold check_spool. one_step. Qed.

Lemma registration_step i dir key : step <$> check_registration h i dir key = ["registration"%string].
Proof. unfold check_registration. one_step. Qed.

Lemma transport_step t : step <$> check_transport h t = [] ∨ step <$> check_transport h t = ["transport"%string].
Proof. unfold check_transport, check_serial_device, dds_verdict. one_step. Qed.

Lemma endpoint_step i : let f := (check_endpoint json h i).1.1 in step <$> f = ["endpoint"%string] ∨ step <$> f = ["failover"; "endpoint"]%string.
Proof. unfold check_endpoint. one_step. Qed.

Lemma policy_step p g : step <$> (check_policy p g).1 = ["tls policy"%string].
Proof. unfold check_policy. one_step. Qed.

Lemma files_step i ca cert key : let f := (check_certificate_files h i ca cert key).1 in
  step <$> f = ["certificate files"%string] ∨ step <$> f = ["certificate files"; "certificate files"]%string.
Proof. unfold check_certificate_files. one_step. Qed.

Lemma handshake_step ep ca identity : step <$> (check_handshake json h ep ca identity).1 = ["tls handshake"%string].
Proof. unfold check_handshake. one_step. Qed.

Lemma clock_step server : step <$> check_clock h server = ["clock"%string].
Proof. unfold check_clock. one_step. Qed.

Lemma link_step i : ∃ a b, (a = [] ∨ a = ["failover"%string]) ∧ (b = [] ∨ b = ["certificate files"%string])
  ∧ step <$> check_link json h i = a ++ ["endpoint"; "tls policy"; "certificate files"]%string ++ b ++ ["tls handshake"; "clock"]%string.
Proof.
  unfold check_link. pose proof (endpoint_step i) as He. destruct (check_endpoint json h i) as [[found ep] info].
  match goal with |- context [check_policy ?p info] => pose proof (policy_step p info) as Hp; destruct (check_policy p info) as [on_policy mtls] end.
  cbn in He, Hp. rewrite !fmap_app, Hp.
  match goal with |- context [step <$> ?x] => lazymatch x with found => fail | _ => set (a := x) end end.
  assert (∃ b, (b = [] ∨ b = ["certificate files"%string]) ∧ step <$> a = ["certificate files"%string] ++ b ++ ["tls handshake"; "clock"]%string) as (b & Hb & ->).
  { subst a. destruct mtls as [[[ca cert] key]|]; [destruct ep as [ep|]|]; [|exists []; auto..].
    pose proof (files_step i ca cert key) as Hf. destruct (check_certificate_files h i ca cert key) as [on_files identity].
    pose proof (handshake_step ep ca identity) as Hh. destruct (check_handshake json h ep ca identity) as [on_hs server].
    cbn in Hf, Hh. rewrite !fmap_app, Hh, clock_step. destruct Hf as [-> | ->]; [exists []|eexists]; eauto. }
  destruct He as [-> | ->]; [exists []|exists ["failover"%string]]; exists b; auto.
Qed.

(** Every step of the way is reported, in the order of the way, whatever the run
    came across. *)
Lemma doctor_order o :
  (step <$> run toml json h o) `sublist_of` ONBOARDING ∧ ∀ s, s ∈ "config"%string :: BLOCKED → s ∈ step <$> run toml json h o.
Proof.
  unfold run. destruct (resolve toml h o) as [i|].
  2: { split; [|intros s Hs; exact Hs]. cbn. repeat first [apply sublist_skip|apply sublist_cons|apply sublist_nil]. }
  pose proof (key_step i) as Hk. destruct (check_signing_key h i) as [on_key key]. cbn [fst] in Hk.
  destruct (link_step i) as (a & b & Ha & Hb & Hl).
  assert (step <$> check_marking i = ["marking"%string]) as Hm by (unfold check_marking; by case_match).
  rewrite fmap_cons, !fmap_app, Hk, spool_step, Hm, registration_step, Hl.
  destruct (transport_step (i_transport i)) as [-> | ->]; destruct Ha as [-> | ->]; destruct Hb as [-> | ->];
    (split; [cbn; repeat first [apply sublist_skip|apply sublist_cons|apply sublist_nil]
            |apply Forall_forall, (bool_decide_eq_true_1 (Forall _ _)); vm_compute; reflexivity]).
Qed.
End green.

(** * Witnesses *)

Definition ex_cfg : Config :=
  mkConfig "radar-1" "tls://a:4222" "ajar.ingest" "r.seed" (Stdin Line) [] None None None (Some (Dir "q")).

Definition ex_files : gmap string bytes :=
  {["c.toml" := []; "r.seed" := ex_seed; "keys/radar-1.pub" := hex_encode (Hex := hex_real) (replicate 32 1)]}%string.

Definition ex_leaf : CertInfo := mkCertInfo (Some "radar-1"%string) [] 10 20 false.

Definition host_with (d : Spool.Disk) : @Host toy2 := {|
  read_file := λ p, ex_files !! p; mode_of := λ _, Some 0x180; spool_disk := λ _, (d, None); can_write := λ _, true;
  joins := λ _ _ _, true; device := λ _, Readable; dds := λ _, None;
  lookup := λ _, Some [false; true]; greeting := λ _, Silent; lookup_again := λ _, Some [true]; greeting_again := λ _, Silent;
  pem_certs := λ p, Some [Some p]; pem_key := Some; inspect_der := λ _, Some ex_leaf; trust_root := λ _, true; verifier := λ _, true;
  usable_pair := λ _, true; server_name := λ _, true; tls := λ _ _ _, Established; presented := λ _, None; answer := λ _, AText (s2b "PONG");
  now := 15; var := λ _, Some (s2b "f.pem")
|}.
Definition ex_host := host_with [].

Definition ex_toml (text : bytes) : res bytes Config := Ok ex_cfg.

Lemma doctor_green_witness :
  ∃ cfg k, load ex_toml (read_file ex_host "c.toml") = Ok cfg ∧ @load_key toy2 toy2_codec hex_real (read_file ex_host (signing_key_path cfg)) = Ok k
    ∧ (cfg_source_id cfg ≠ ""%string → registered (C := toy2) (K := toy2_codec) (H := hex_real) ex_host toy_decode "keys" (cfg_source_id cfg) k)
    ∧ (∀ c, spool_config cfg = Some c → ∃ s, Spool.open (max_bytes c) (spool_disk ex_host (spool_dir c)).1 (spool_disk ex_host (spool_dir c)).2 = Ok s)
    ∧ gets_through (λ _, None) ex_host (λ u, Some u) (s2b (nats_url cfg))
    ∧ ∀ servers, parse_all (λ u, Some u) (split_on 44 (s2b (nats_url cfg))) = Some servers →
        ∃ m security s, start (K := toy2_codec) (H := hex_real) ex_host (λ u, Some u) cfg = Ok (k, m, (security, servers), s) ∧ (is_Some s ↔ is_Some (spool_config cfg)).
Proof.
  apply (@doctor_green toy2 toy2_laws toy2_codec toy2_codec_laws hex_real hex_real_laws bytes ex_toml (λ _, None) ex_host toy_decode (λ u, Some u)
    (mkOptions (Some "c.toml"%string) (Some "keys"%string))); [reflexivity..|vm_compute; reflexivity].
Defined.

(** The spool of a connector that is running, opened by the doctor: the record the
    connector is half way through writing is cut off its segment. *)
Example doctor_cuts_a_record :
  let half := take 9 (Spool.enc_record (Spool.ex_rec 7)) in
  check_spool (C := toy2) (host_with [(0, half)]) (mkInputs "radar-1" "tls://a:4222" "r.seed" "ajar.ingest" (spool_config ex_cfg) None None)
  = ([fine "spool"], Some [(0, [])]).
Proof. vm_compute. reflexivity. Qed.
