(* ===== verification/Xml.v ===== *)
(** What the XML connectors see of a document: the items quick-xml's reader pulls,
    one after the other, with the reader's position before and after each. How the
    crate takes a text apart is its own; the connectors are functions of the items.
    And the numbers in it: an i64 read, a float
    printed as Rust prints it. *)
From Stdlib Require Import ZArith Lia.
From Stdlib Require Import Strings.String.
From S2P Require Export F64 Parser.

Local Open Scope Z_scope.

(** A tag with its attributes that could be read, a text, or another item (a
    comment, a declaration, a reference). *)
Inductive XmlItem :=
| XStart (name : string) (attrs : list (string * string))
| XEmpty (name : string) (attrs : list (string * string))
| XEnd (name : string)
| XText (text : bytes)
| XOther.

Record Pulled := mkPulled { before : Z; after : Z; item : XmlItem }.

(** A document is its items up to the end, or up to an error. *)
Record Document := mkDocument { items : list Pulled; failed : option string }.

(** * Numbers read and written *)

(** [str::parse::<i64>]. *)
Definition parse_i64 (l : bytes) : option Z :=
  let '(s, t) := take_sign l in
  match t with
  | [] => None
  | _ => v ← digits_val 10 0 t; let v := if s : bool then - v else v in if (- 2 ^ 63 <=? v) && (v <? 2 ^ 63) then Some v else None
  end.

(** * A float as text *)

(** The number of digits before the point of [n / d], at least the one it has with
    [k]; [fuel] more are tried. *)
Fixpoint whole_digits (fuel : nat) (k n d : Z) : Z :=
  match fuel with
  | O => k
  | S fuel => if n <? d * 10 ^ k then k else whole_digits fuel (k + 1) n d
  end.
(** And the zeros after it, of a fraction: the least [k] with [n / d < 10^-k]. *)
Fixpoint leading_zeros (fuel : nat) (k n d : Z) : Z :=
  match fuel with
  | O => k
  | S fuel => if n * 10 ^ (k + 1) <? d then leading_zeros fuel (k + 1) n d else k
  end.

(** [n / d] to [p] significant digits: [q] and [x] with [n / d] about [q * 10^x]. *)
Definition significant (p : Z) (n d : Z) : Z * Z :=
  let e := if n <? d then - leading_zeros 330 0 n d else whole_digits 310 1 n d in
  let x := e - p in
  (div_half_even (n * 10 ^ Z.max 0 (- x)) (d * 10 ^ Z.max 0 x), x).

(** [q * 10^x] without an exponent. *)
Definition plain (q x : Z) : bytes :=
  if 0 <=? x then show_bytes (q * 10 ^ x)
  else
    let fp := pad_zeros (Z.to_nat (- x)) (show_bytes (q mod 10 ^ (- x))) in
    show_bytes (q / 10 ^ (- x)) ++ 46 :: fp.

(** The fewest digits that read back as the number, seventeen at most. *)
Fixpoint shortest (fuel : nat) (p : Z) (s : bool) (x : f64) (n d : Z) : bytes :=
  let '(q, e) := significant p n d in
  match fuel with
  | O => plain q e
  | S fuel =>
      if bool_decide (f_of_decimal s q e = x) then (if q mod 10 =? 0 then plain (q / 10) (e + 1) else plain q e)
      else shortest fuel (p + 1) s x n d
  end.

(** [format!("{}", x)]. *)
Definition fmt_display (x : f64) : string :=
  match x with
  | S754_nan => "NaN"
  | S754_infinity s => if s then "-inf" else "inf"
  | S754_zero s => if s then "-0" else "0"
  | S754_finite s m e =>
      let body := (if 0 <=? e then shortest 16 1 s x (Zpos m * 2 ^ e) 1 else shortest 16 1 s x (Zpos m) (2 ^ (- e)))%Z in
      b2s ((if s then [45] else []) ++ body)%list%Z
  end%string.

Definition reads_as (t : string) : option f64 := parse_f64 (s2b t).

Example display_ex :
  (λ t, fmt_display <$> reads_as t) <$> ["49.4756"; "-0.1"; "9999999"; "0.000001"; "1e21"; "5e-324"; "12.5"; "100"; "0.30000000000000004"; "-9.999999999999998"]%string
  = Some <$> ["49.4756"; "-0.1"; "9999999"; "0.000001"; "1000000000000000000000";
     String.concat "" ("0." :: repeat "0" 323 ++ ["5"]); "12.5"; "100"; "0.30000000000000004"; "-9.999999999999998"]%string.
Proof. vm_compute. reflexivity. Qed.
