(* ===== verification/Cot.v ===== *)
(** Cursor-on-Target: the connector that reads it
    (rust/connectors/tak-cot/src/cot.rs) and the rendering of an event by the sink
    (rust/connectors/sink/src/cot_out.rs). *)
From Stdlib Require Import ZArith Lia.
From Stdlib Require Import Strings.String.
From S2P Require Export Xml.

Local Open Scope Z_scope.

(** * The connector *)

(** @src rust/connectors/tak-cot/src/cot.rs 14-24 CotError *)
Inductive CotError := BadXml (e : string) | Missing (what : string) | BadNumber (what : string) | Build (e : BuildError).

(** @src rust/connectors/tak-cot/src/cot.rs 26-29 CotParser *)
Record CotParser := mkCotParser { cot_source_id : string; overrides : gmap string string }.

(** @src rust/connectors/tak-cot/src/cot.rs 34-43 CotParser::new *)
Definition cot_new (source_id : string) (o : gmap string string) (_ : Enrichment) : CotParser := mkCotParser source_id o.

(** @src rust/connectors/tak-cot/src/cot.rs 194-196 parse_finite *)
Definition parse_finite (raw : string) : option f64 :=
  v ← parse_f64 (trim (s2b raw)); if is_finite v then Some v else None.

(** The [n]-th field between dashes. *)
Definition field_of (cot_type : string) (n : nat) : option bytes := split_on 45 (s2b cot_type) !! n.

(** @src rust/connectors/tak-cot/src/cot.rs 198-213 hostility *)
Definition cot_hostility (cot_type : string) : string :=
  match b2s <$> field_of cot_type 1 with
  | Some "f" => "Friend"
  | Some "a" => "AssumedFriend"
  | Some "h" => "Hostile"
  | Some "s" => "Suspect"
  | Some "n" => "Neutral"
  | Some "p" => "Pending"
  | Some "j" => "Joker"
  | Some "k" => "Faker"
  | _ => "Unknown"
  end%string.

(** [f64::clamp(0.0, 1.0)], which leaves a NaN. *)
Definition clamp01 (v : f64) : f64 := let v := if f_ltb v f_zero then f_zero else v in if f_ltb (f_of_Z 1) v then f_of_Z 1 else v.

(** @src rust/connectors/tak-cot/src/cot.rs 215-220 normalize_confidence *)
Definition normalize_confidence (raw : bytes) : option f64 :=
  v ← parse_f64 raw; Some (clamp01 (if f_ltb (f_of_Z 1) v then f_div v (f_of_Z 100) else v)).

(** @src rust/connectors/tak-cot/src/cot.rs 172-185 CotParser::map_type *)
Definition map_type (self : CotParser) (cot_type : string) : string :=
  match overrides self !! cot_type with
  | Some mapped => mapped
  | None =>
      match b2s <$> field_of cot_type 2 with
      | Some "A" => "mim:aircraft"
      | Some "S" => "mim:vessel"
      | Some "U" => "mim:subsurface-vessel"
      | _ => ("x:cot:" ++ b2s ((λ b, if b =? 45 then 95 else b)%Z <$> s2b cot_type))
      end
  end%string.

(** What the loop has read. *)
(** @src rust/connectors/tak-cot/src/cot.rs 48-59 CotParser::to_event *)
Record Read := mkRead {
  uid : option string;
  cot_type : option string;
  time : option string;
  r_lat : option f64;
  r_lon : option f64;
  hae_m : f64;
  callsign : option string;
  course_deg : option f64;
  speed_mps : option f64;
  r_confidence : option f64;
  in_confidence : bool;
  saw_event : bool
}.
Definition read_new : Read := mkRead None None None None None f_zero None None None None false false.

(** The loops over the attributes of a tag. *)
Definition event_attr (r : Read) (a : string * string) : Read :=
  let '(mkRead u t ti la lo ha ca co sp cf ic se) := r in
  if String.eqb a.1 "uid" then mkRead (Some a.2) t ti la lo ha ca co sp cf ic se
  else if String.eqb a.1 "type" then mkRead u (Some a.2) ti la lo ha ca co sp cf ic se
  else if String.eqb a.1 "time" then mkRead u t (Some a.2) la lo ha ca co sp cf ic se
  else r.

Definition with_lat (r : Read) (v : f64) : Read :=
  mkRead (uid r) (cot_type r) (time r) (Some v) (r_lon r) (hae_m r) (callsign r) (course_deg r) (speed_mps r) (r_confidence r) (in_confidence r) (saw_event r).
Definition with_lon (r : Read) (v : f64) : Read :=
  mkRead (uid r) (cot_type r) (time r) (r_lat r) (Some v) (hae_m r) (callsign r) (course_deg r) (speed_mps r) (r_confidence r) (in_confidence r) (saw_event r).
Definition with_hae (r : Read) (v : f64) : Read :=
  mkRead (uid r) (cot_type r) (time r) (r_lat r) (r_lon r) v (callsign r) (course_deg r) (speed_mps r) (r_confidence r) (in_confidence r) (saw_event r).

(** @src rust/connectors/tak-cot/src/cot.rs 75-93 CotParser::to_event *)
Fixpoint point_attrs (r : Read) (attrs : list (string * string)) : res CotError Read :=
  match attrs with
  | [] => Ok r
  | (k, s) :: attrs =>
      r ← (if String.eqb k "lat" then v ← ok_or (BadNumber "point/@lat") (parse_f64 (s2b s)); Ok (with_lat r v)
           else if String.eqb k "lon" then v ← ok_or (BadNumber "point/@lon") (parse_f64 (s2b s)); Ok (with_lon r v)
           else if String.eqb k "hae" then Ok (with_hae r (default f_zero (parse_f64 (s2b s))))
           else Ok r);
      point_attrs r attrs
  end.

Definition contact_attr (r : Read) (a : string * string) : Read :=
  let '(mkRead u t ti la lo ha ca co sp cf ic se) := r in
  if String.eqb a.1 "callsign" then mkRead u t ti la lo ha (Some a.2) co sp cf ic se else r.
Definition track_attr (r : Read) (a : string * string) : Read :=
  let '(mkRead u t ti la lo ha ca co sp cf ic se) := r in
  if String.eqb a.1 "course" then mkRead u t ti la lo ha ca (parse_finite a.2) sp cf ic se
  else if String.eqb a.1 "speed" then mkRead u t ti la lo ha ca co (parse_finite a.2) cf ic se
  else r.
Definition confidence_attr (r : Read) (a : string * string) : Read :=
  let '(mkRead u t ti la lo ha ca co sp cf ic se) := r in
  if String.eqb a.1 "value" then mkRead u t ti la lo ha ca co sp (normalize_confidence (s2b a.2)) ic se else r.

Definition mark_event (r : Read) : Read :=
  let '(mkRead u t ti la lo ha ca co sp cf ic _) := r in mkRead u t ti la lo ha ca co sp cf ic true.
Definition enter_confidence (r : Read) : Read :=
  let '(mkRead u t ti la lo ha ca co sp cf _ se) := r in mkRead u t ti la lo ha ca co sp cf true se.

(** @src rust/connectors/tak-cot/src/cot.rs 61-136 CotParser::to_event *)
Definition read_item (r : Read) (i : XmlItem) : res CotError Read :=
  match i with
  | XStart name attrs | XEmpty name attrs =>
      if String.eqb name "event" then Ok (fold_left event_attr attrs (mark_event r))
      else if String.eqb name "point" then point_attrs r attrs
      else if String.eqb name "contact" then Ok (fold_left contact_attr attrs r)
      else if String.eqb name "track" then Ok (fold_left track_attr attrs r)
      else if String.eqb name "confidence" then Ok (fold_left confidence_attr attrs (enter_confidence r))
      else Ok r
  | XText t =>
      if in_confidence r then
        let '(mkRead u ty ti la lo ha ca co sp cf _ se) := r in
        Ok (mkRead u ty ti la lo ha ca co sp (match cf with None => normalize_confidence (trim t) | _ => cf end) false se)
      else Ok r
  | XEnd _ | XOther => Ok r
  end.

Fixpoint read_items (r : Read) (l : list XmlItem) : res CotError Read :=
  match l with [] => Ok r | i :: l => r ← read_item r i; read_items r l end.

Section cot.
(** The items of a text. *)
Variable pull : bytes → Document.

(** @src rust/connectors/tak-cot/src/cot.rs 141-169 CotParser::to_event *)
Definition event_builder (env : Env) (self : CotParser) (native : bytes) (u ty ti : string) (r : Read) : EventBuilder :=
  let b := attribute "hostility" (cot_hostility ty) (identity "CoT" u (add_metadata "source_uid" u
    (set_timestamp ti (set_payload native (new_id env (builder_new (cot_source_id self) (map_type self ty))))))) in
  let b := on_some (callsign r) (attribute "callsign") b in
  let b := on_some (course_deg r) (λ c, on_true (in_range f_zero (f_of_Z 360) c) (attribute "course" (fmt_fixed 1 c))) b in
  let b := on_some (speed_mps r) (λ s, on_true (f_leb f_zero s) (attribute "speed" (fmt_fixed 2 s))) b in
  let b := on_some (r_confidence r) set_confidence b in
  match r_lat r, r_lon r with Some la, Some lo => set_location la lo (hae_m r) b | _, _ => b end.

(** @src rust/connectors/tak-cot/src/cot.rs 45-170 CotParser::to_event *)
Definition cot_to_event (env : Env) (self : CotParser) (native : bytes) : res CotError Event :=
  let d := pull native in
  r ← read_items read_new (item <$> items d);
  match failed d with
  | Some e => Err (BadXml e)
  | None =>
      guard_res (saw_event r) (Missing "<event>") ;;
      u ← ok_or (Missing "event/@uid") (uid r);
      ty ← ok_or (Missing "event/@type") (cot_type r);
      ti ← ok_or (Missing "event/@time") (time r);
      map_err Build (build (event_builder env self native u ty ti r))
  end.

(** @src rust/connectors/tak-cot/src/cot.rs 188-192 CotParser::parse *)
Definition cot_parse (envs : Envs) (self : CotParser) (frame : bytes) : CotParser * res CotError (list Event) :=
  (self, (λ e, [e]) <$> cot_to_event (envs 0%nat) self frame).
End cot.

(** * The sink's rendering *)

(** @src rust/connectors/sink/src/cot_out.rs 14-15 STALE_S *)
Definition STALE_S : Z := 60.

(** @src rust/connectors/sink/src/cot_out.rs 56-62 attribute *)
Definition attr_of (e : Event) (k : string) : option string := value <$> head (filter (λ a, key a = k) (ev_attributes e)).
(** @src rust/connectors/sink/src/cot_out.rs 64-70 metadata *)
Definition meta_of (e : Event) (k : string) : option string := value <$> head (filter (λ a, key a = k) (ev_metadata e)).

(** @src rust/connectors/sink/src/cot_out.rs 72-85 affiliation *)
Definition affiliation (e : Event) : string :=
  match attr_of e "hostility" with
  | Some h =>
      if String.eqb h "Friend" then "f"
      else if String.eqb h "AssumedFriend" then "a"
      else if String.eqb h "Hostile" then "h"
      else if String.eqb h "Suspect" then "s"
      else if String.eqb h "Neutral" then "n"
      else if String.eqb h "Pending" then "p"
      else if String.eqb h "Joker" then "j"
      else if String.eqb h "Faker" then "k"
      else "u"
  | None => "u"
  end%string.

(** @src rust/connectors/sink/src/cot_out.rs 87-104 dimension *)
Definition dimension (e : Event) : string :=
  match attr_of e "environment" with
  | Some "AIR" => "A"
  | Some "LAND" => "G"
  | Some "SURFACE" => "S"
  | Some "SUBSURFACE" => "U"
  | Some "SPACE" => "P"
  | Some _ => "X"
  | None =>
      let ty := ev_entity_type e in
      if String.eqb ty "mim:aircraft" then "A"
      else if String.eqb ty "mim:vessel" || String.eqb ty "mim:surface-vessel" then "S"
      else if String.eqb ty "mim:subsurface-vessel" then "U"
      else if String.eqb ty "mim:land-vehicle" then "G"
      else "X"
  end%string.

(** @src rust/connectors/sink/src/cot_out.rs 106-119 escape *)
Fixpoint escape (s : string) : string :=
  match s with
  | EmptyString => ""
  | String c s =>
      (if (a2z c =? 38)%Z then "&amp;"
       else if (a2z c =? 60)%Z then "&lt;"
       else if (a2z c =? 62)%Z then "&gt;"
       else if (a2z c =? 34)%Z then "&quot;"
       else if (a2z c =? 39)%Z then "&apos;"
       else String c "") ++ escape s
  end%string.

(** The pieces of [splitn(3, ':')], when there are three. *)
Definition split3 (l : bytes) : option (bytes * bytes * bytes) :=
  k ← find_byte 58 l;
  let rest := drop (Z.to_nat (k + 1)) l in
  j ← find_byte 58 rest;
  Some (take (Z.to_nat k) l, take (Z.to_nat j) rest, drop (Z.to_nat (j + 1)) rest).

Definition pad2 (z : Z) : bytes := pad_zeros 2 (show_bytes z).

(** The sums are of i64 and checked only for the moderate fields a time has. *)
(** @src rust/connectors/sink/src/cot_out.rs 154-171 stale_after *)
Definition stale_after (t : bytes) : option bytes :=
  k ← find_byte 84 t;
  let date := take (Z.to_nat k) t in
  '(h, m, s) ← split3 (trim_end_matches (Z.eqb 90) (drop (Z.to_nat (k + 1)) t));
  h ← parse_i64 h;
  m ← parse_i64 m;
  s ← parse_i64 (match find_byte 46 s, find_byte 43 s with
                 | Some a, Some b => take (Z.to_nat (Z.min a b)) s
                 | Some a, None | None, Some a => take (Z.to_nat a) s
                 | None, None => s
                 end);
  let total := Z.min (h * 3600 + m * 60 + s + STALE_S) (24 * 3600 - 1) in
  Some (date ++ [84] ++ pad2 (Z.quot total 3600) ++ [58] ++ pad2 (Z.quot (Z.rem total 3600) 60) ++ [58] ++ pad2 (Z.rem total 60) ++ [90]).

(** The tags of the rendering, before they are written out. *)
Record Rendered := mkRendered {
  o_uid : string; o_type : string; o_time : string; o_stale : string; o_lat : string; o_lon : string; o_hae : string; o_callsign : string
}.

(** @src rust/connectors/sink/src/cot_out.rs 124-151 render *)
Definition rendered (e : Event) : option Rendered :=
  loc ← ev_location e;
  let u := match meta_of e "source_uid" with
           | Some u => u
           | None => match meta_of e "native_id" with Some u => u | None => ev_id e end
           end in
  let stale := match stale_after (s2b (ev_timestamp e)) with Some t => b2s t | None => ev_timestamp e end in
  Some (mkRendered (escape u) ("a-" ++ affiliation e ++ "-" ++ dimension e) (escape (ev_timestamp e)) (escape stale)
    (fmt_display (latitude loc)) (fmt_display (longitude loc)) (fmt_display (altitude_m loc)) (escape (default u (attr_of e "callsign"))))%string.

(** The items a reader finds in the text of a rendering. *)
Definition rendered_items (o : Rendered) : list XmlItem :=
  [XOther;
   XStart "event" [("version", "2.0"); ("uid", o_uid o); ("type", o_type o); ("time", o_time o); ("start", o_time o); ("stale", o_stale o); ("how", "m-g")];
   XEmpty "point" [("lat", o_lat o); ("lon", o_lon o); ("hae", o_hae o); ("ce", "9999999"); ("le", "9999999")];
   XStart "detail" []; XEmpty "contact" [("callsign", o_callsign o)]; XEnd "detail"; XEnd "event"]%string.

(** * The interface *)

Lemma point_attrs_safe attrs : ∀ r, safe (point_attrs r attrs).
Proof.
  induction attrs as [|[k s] attrs IH]; intros r; [done|]. cbn [point_attrs]. apply safe_bind; [|intros; apply IH].
  destruct (String.eqb k "lat"); [apply safe_bind; [apply safe_ok_or|done]|]. destruct (String.eqb k "lon"); [apply safe_bind; [apply safe_ok_or|done]|].
  by destruct (String.eqb k "hae").
Qed.

Lemma read_items_safe l : ∀ r, safe (read_items r l).
Proof.
  induction l as [|i l IH]; intros r; [done|]. cbn [read_items]. apply safe_bind; [|intros; apply IH].
  destruct i; cbn [read_item]; repeat (match goal with |- context [if ?c then _ else _] => destruct c end); try done; try apply point_attrs_safe.
  by destruct r.
Qed.

Lemma cot_to_event_safe pull env self native : safe (cot_to_event pull env self native).
Proof.
  unfold cot_to_event. apply safe_bind; [apply read_items_safe|intros r _]. destruct (failed (pull native)); [done|].
  apply safe_bind; [by destruct (saw_event r)|intros _ _]. do 3 (apply safe_bind; [apply safe_ok_or|intros ? _]). apply safe_build.
Qed.

Lemma cot_to_event_canonical pull env self native e : cot_to_event pull env self native = Ok e → Canonical e.
Proof.
  unfold cot_to_event. intros H. apply bind_Ok in H as (r & _ & H). destruct (failed (pull native)); [done|].
  apply bind_Ok in H as (? & _ & H). do 3 (apply bind_Ok in H as (? & _ & H)). by eapply build_all_canonical.
Qed.

#[export] Instance cot_parser (pull : bytes → Document) : FrameParser :=
  {| fp_state := CotParser; fp_error := CotError; fp_parse envs self frame := cot_parse pull envs self frame |}.
#[export] Instance cot_laws (pull : bytes → Document) : FrameParserLaws (cot_parser pull).
Proof.
  refine {| fp_inv := λ _ : fp_state (FrameParser := cot_parser pull), True |}.
  - intros envs s frame _ _. split; [|done]. cbn [fp_parse cot_parser cot_parse snd].
    pose proof (cot_to_event_safe pull (envs 0%nat) s frame) as H. by destruct (cot_to_event pull (envs 0%nat) s frame).
  - intros envs s frame es _ _. cbn [fp_parse cot_parser cot_parse snd]. destruct (cot_to_event pull (envs 0%nat) s frame) as [e| | |] eqn:E; try done.
    intros [= <-]. constructor; [by apply (cot_to_event_canonical pull (envs 0%nat) s frame)|constructor].
Defined.

(** * The sink's rendering, read by the connector *)

Lemma head_filter_key k v (l : list Attribute) : NoDup (key <$> l) → mkAttribute k v ∈ l → value <$> head (filter (λ a, key a = k) l) = Some v.
Proof.
  induction l as [|a l IH]; intros Hn Hin; [by apply elem_of_nil in Hin|]. cbn [fmap list_fmap] in Hn. apply NoDup_cons in Hn as [Ha Hn].
  apply elem_of_cons in Hin as [<-|Hin].
  - by rewrite filter_cons_True.
  - rewrite filter_cons_False; [by apply IH|]. intros <-. apply Ha. by apply (list_elem_of_fmap_2 key _ (mkAttribute _ v)).
Qed.

Lemma built_look k v l : NoDup l.*1 → (k, v) ∈ l → value <$> head (filter (λ a, key a = k) (to_attrs (sort_keys l))) = Some v.
Proof.
  intros Hn Hin. assert (key <$> to_attrs (sort_keys l) ≡ₚ l.*1) as Hp.
  { unfold to_attrs. rewrite <- list_fmap_compose, sort_keys_perm. apply Permutation_refl. }
  apply head_filter_key; [by rewrite Hp|]. unfold to_attrs. apply (list_elem_of_fmap_2 (λ kv, mkAttribute kv.1 kv.2) (sort_keys l) (k, v)). by rewrite sort_keys_perm.
Qed.

(** The identity a rendering carries, and what is read of its type. *)
Definition track_of (e : Event) : string :=
  match meta_of e "source_uid" with Some u => u | None => match meta_of e "native_id" with Some u => u | None => ev_id e end end.

Definition AFFILIATIONS : list string := ["f"; "a"; "h"; "s"; "n"; "p"; "j"; "k"; "u"]%string.
Definition DIMENSIONS : list string := ["A"; "G"; "S"; "U"; "P"; "X"]%string.
Definition HOSTILITY : list string := ["Friend"; "AssumedFriend"; "Hostile"; "Suspect"; "Neutral"; "Pending"; "Joker"; "Faker"]%string.

(** The hostility a reader is left with: one CoT has no letter for is unknown. *)
Definition hostility_read (e : Event) : string :=
  match attr_of e "hostility" with Some h => if bool_decide (h ∈ HOSTILITY) then h else "Unknown" | None => "Unknown" end%string.

(** The entity type: the sink's place for it, no more. *)
Definition type_read (e : Event) : string :=
  let d := dimension e in
  if String.eqb d "A" then "mim:aircraft"
  else if String.eqb d "S" then "mim:vessel"
  else if String.eqb d "U" then "mim:subsurface-vessel"
  else ("x:cot:a_" ++ affiliation e ++ "_" ++ d).

Lemma affiliation_in e : affiliation e ∈ AFFILIATIONS.
Proof.
  unfold affiliation. destruct (attr_of e "hostility") as [h|]; [|by apply (bool_decide_eq_true_1 (_ ∈ AFFILIATIONS))].
  repeat (case_match; [by apply (bool_decide_eq_true_1 (_ ∈ AFFILIATIONS))|]). by apply (bool_decide_eq_true_1 (_ ∈ AFFILIATIONS)).
Qed.

Lemma dimension_in e : dimension e ∈ DIMENSIONS.
Proof. unfold dimension. repeat case_match; by apply (bool_decide_eq_true_1 (_ ∈ DIMENSIONS)). Qed.

(** The code of a rendering taken apart again, every one there is. *)
Lemma code_read a d self : a ∈ AFFILIATIONS → d ∈ DIMENSIONS → overrides self = ∅ →
  let ty := ("a-" ++ a ++ "-" ++ d)%string in
  let read := (if String.eqb d "A" then "mim:aircraft" else if String.eqb d "S" then "mim:vessel" else if String.eqb d "U" then "mim:subsurface-vessel" else ("x:cot:a_" ++ a ++ "_" ++ d))%string in
  map_type self ty = read ∧ is_namespaced read = true
  ∧ cot_hostility ty = default "Unknown"%string (list_find (λ x, x = a) AFFILIATIONS ≫= λ p, HOSTILITY !! p.1).
Proof.
  destruct self as [src o]. cbn [overrides]. intros Ha Hd ->. unfold map_type. cbn [overrides]. rewrite lookup_empty.
  unfold AFFILIATIONS in Ha. unfold DIMENSIONS in Hd.
  repeat (apply elem_of_cons in Ha as [->|Ha]; [clear -Hd; repeat (apply elem_of_cons in Hd as [->|Hd]; [clear; vm_compute; done|]); by apply elem_of_nil in Hd|]).
  by apply elem_of_nil in Ha.
Qed.

Lemma hostility_back e : default "Unknown"%string (list_find (λ x, x = affiliation e) AFFILIATIONS ≫= λ p, HOSTILITY !! p.1) = hostility_read e.
Proof.
  unfold affiliation, hostility_read. destruct (attr_of e "hostility") as [h|]; [|by vm_compute].
  destruct (bool_decide (h ∈ HOSTILITY)) eqn:E.
  - apply bool_decide_eq_true in E. unfold HOSTILITY in E. repeat (apply elem_of_cons in E as [->|E]; [by vm_compute|]). by apply elem_of_nil in E.
  - apply bool_decide_eq_false in E. unfold HOSTILITY in E. repeat (apply not_elem_of_cons in E as [?%String.eqb_neq E]).
    repeat match goal with H : String.eqb h _ = false |- _ => rewrite H; clear H end. by vm_compute.
Qed.

(** What a rendering leaves in the connector's hands. *)
Lemma rendered_read o la lo al :
  reads_as (o_lat o) = Some la → reads_as (o_lon o) = Some lo → reads_as (o_hae o) = Some al →
  read_items read_new (rendered_items o)
  = Ok (mkRead (Some (o_uid o)) (Some (o_type o)) (Some (o_time o)) (Some la) (Some lo) al (Some (o_callsign o)) None None None false true).
Proof. unfold reads_as. intros Hla Hlo Hal. cbn. rewrite Hla. cbn. rewrite Hlo. cbn. by rewrite Hal. Qed.

(** The builder of such a reading. *)
Definition relay_read (u ty ti cs : string) (la lo al : f64) : Read :=
  mkRead (Some u) (Some ty) (Some ti) (Some la) (Some lo) al (Some cs) None None None false true.

Lemma relay_builder env self native u ty ti cs la lo al :
  ∃ pre, (pre = [] ∨ pre = [("alt_id", u); ("alt_id_standard", "CoT")]%string)
  ∧ event_builder env self native u ty ti (relay_read u ty ti cs la lo al)
    = mkBuilder (cot_source_id self) (map_type self ty) (Some (env_uuid env)) (Some ti) (Some (mkGeoPoint la lo al)) native [] f_zero
        (pre ++ [("hostility", cot_hostility ty); ("callsign", cs)]%string) [("source_uid", u)]%string true.
Proof.
  unfold event_builder, identity, relay_read. destruct (_ || _); [exists []|exists [("alt_id", u); ("alt_id_standard", "CoT")]%string]; (split; [auto|done]).
Qed.

Lemma relay_builds env self native u ty ti cs la lo al :
  cot_source_id self ≠ ""%string → Rfc3339 (s2b ti) → location_ok (mkGeoPoint la lo al) = true →
  is_namespaced (map_type self ty) = true →
  ∃ e', build (event_builder env self native u ty ti (relay_read u ty ti cs la lo al)) = Ok e'
    ∧ ev_location e' = Some (mkGeoPoint la lo al) ∧ ev_timestamp e' = ti ∧ ev_payload e' = native
    ∧ meta_of e' "source_uid" = Some u ∧ attr_of e' "callsign" = Some cs
    ∧ attr_of e' "hostility" = Some (cot_hostility ty) ∧ ev_entity_type e' = map_type self ty.
Proof.
  intros Hs Ht Hl Hn. destruct (relay_builder env self native u ty ti cs la lo al) as (pre & Hpre & ->).
  set (b := mkBuilder _ _ _ _ _ _ _ _ _ _ _).
  assert (NoDup (attributes b).*1) as Hk.
  { destruct Hpre as [->| ->]; apply (bool_decide_eq_true_1 (NoDup _)); vm_compute; reflexivity. }
  assert (zlen (attributes b) ≤ MAX_ATTRIBUTES) as Hz by (destruct Hpre as [->| ->]; vm_compute; done).
  assert (builder_valid b (env_uuid env) ti) as Hv.
  { split; try done.
    - by intros l [= <-].
    - cbn. intros E. by rewrite E in Hn.
    - intros _. by apply is_namespaced_spec.
    - apply (bool_decide_eq_true_1 (NoDup _)). vm_compute. reflexivity. }
  exists (built b (env_uuid env) ti). split; [by apply build_valid|]. do 3 (split; [done|]).
  assert (∀ k v, (k, v) ∈ attributes b → attr_of (built b (env_uuid env) ti) k = Some v) as Ha by (intros; by apply built_look).
  split_and!; [done| | |done]; apply Ha; cbn [attributes b]; set_solver.
Qed.

(** The five characters XML has names for. *)
Definition plain_char (z : Z) : bool := negb ((z =? 38) || (z =? 60) || (z =? 62) || (z =? 34) || (z =? 39)).

Lemma string_length_app (a b : string) : String.length (a ++ b)%string = (String.length a + String.length b)%nat.
Proof. induction a as [|c a IH]; [done|]. change (S (String.length (a ++ b)%string) = S (String.length a + String.length b)%nat). by f_equal. Qed.

Lemma escape_plain x : escape x = x ↔ Forall (λ z, plain_char z = true) (s2b x).
Proof.
  assert (∀ x, (String.length x ≤ String.length (escape x))%nat) as Hle.
  { clear. induction x as [|c x IH]; [done|]. cbn [escape]. rewrite string_length_app. cbn [String.length].
    assert (∀ a, (1 ≤ String.length a → S (String.length x) ≤ String.length a + String.length (escape x))%nat) as Ha by lia.
    apply Ha. repeat case_match; cbn; lia. }
  induction x as [|c x IH]; [split; [constructor|done]|]. change (s2b (String c x)) with (a2z c :: s2b x). rewrite Forall_cons. cbn [escape].
  destruct (plain_char (a2z c)) eqn:Ep.
  - unfold plain_char in Ep. apply negb_true_iff in Ep. repeat (apply orb_false_iff in Ep as [Ep ->]). rewrite Ep. cbn [String.append]. rewrite <- IH.
    split; [by intros [= ?]|by intros [_ ->]].
  - split; [|by intros []]. intros E. exfalso. apply (f_equal String.length) in E. rewrite string_length_app in E. cbn [String.length] in E. specialize (Hle x).
    unfold plain_char in Ep. destruct (a2z c =? 38); [cbn in E; lia|]. destruct (a2z c =? 60); [cbn in E; lia|]. destruct (a2z c =? 62); [cbn in E; lia|].
    destruct (a2z c =? 34); [cbn in E; lia|]. destruct (a2z c =? 39); [cbn in E; lia|done].
Qed.

Lemma timestamp_plain x : Rfc3339 (s2b x) → escape x = x.
Proof.
  assert (∀ c, is_digit c = true → plain_char c = true) as Hd by (unfold is_digit, plain_char; lia).
  assert (∀ lo hi l, two_digits lo hi l → Forall (λ c, plain_char c = true) l) as H2 by (intros lo hi l (a & b & -> & Ha & Hb & _); repeat constructor; by apply Hd).
  intros (y0 & y1 & y2 & y3 & mo & da & t & ho & mi & se & fr & z & E & Hy & Hmo & Hda & Ht & Hho & Hmi & Hse & Hfr & Hz). apply escape_plain. rewrite E.
  assert (Forall (λ c, plain_char c = true) fr) as Hf.
  { destruct Hfr as [->|(ds & -> & _ & Hds)]; [constructor|]. constructor; [done|]. by apply (Forall_impl _ _ _ Hds). }
  assert (Forall (λ c, plain_char c = true) z) as Hzz.
  { destruct Hz as [->|[->|(sg & h & m & -> & Hsg & Hh & Hm)]]; [by repeat constructor..|]. constructor; [by destruct Hsg as [->| ->]|].
    apply Forall_app. split; [by eapply H2|]. constructor; [done|by eapply H2]. }
  apply Forall_app. split.
  { repeat (apply Forall_cons in Hy as [? Hy]). repeat (constructor; [by apply Hd|]). by repeat constructor. }
  apply Forall_app. split; [by eapply H2|]. constructor; [done|]. apply Forall_app. split; [by eapply H2|]. constructor; [by destruct Ht as [->| ->]|].
  apply Forall_app. split; [by eapply H2|]. constructor; [done|]. apply Forall_app. split; [by eapply H2|]. constructor; [done|].
  apply Forall_app. split; [by eapply H2|]. by apply Forall_app.
Qed.


(** A report with an offset from UTC of two hours: sent to be stale a minute later,
    it is stale two hours and a minute later. *)
Example stale_drops_the_zone : b2s <$> stale_after (s2b "2026-06-10T08:00:00.5+02:00") = Some "2026-06-10T08:01:00Z"%string.
Proof. vm_compute. reflexivity. Qed.

(** Close to midnight a marker is stale early, and one with a leap second too. *)
Example stale_clamped :
  (λ t, b2s <$> stale_after (s2b t)) <$> ["2026-06-10T23:59:30Z"; "2026-06-10T12:00:60Z"; "2026-06-10 08:00:00Z"; "2026-06-10T08:00:00-05:00"]%string
  = [Some "2026-06-10T23:59:59Z"; Some "2026-06-10T12:02:00Z"; None; None]%string.
Proof. vm_compute. reflexivity. Qed.

Definition ex_sent : Event :=
  match build (ex_builder [("hostility", "Hostile"); ("callsign", "EAGLE-1"); ("environment", "AIR")]%string) with Ok e => e | _ => mkEvent "" "" "" "" "" "" None [] [] f_zero [] [] end.
Definition ex_rendered : Rendered := default (mkRendered "" "" "" "" "" "" "" "") (rendered ex_sent).
Definition ex_pull (_ : bytes) : Document := mkDocument (mkPulled 0 0 <$> rendered_items ex_rendered) None.


(** It goes out as an aircraft and comes back as one, hostile and under its callsign. *)
Example cot_relay_ex :
  (λ e, (ev_entity_type e, attr_of e "hostility", attr_of e "callsign", meta_of e "source_uid")) <$> cot_to_event ex_pull (mkEnv "id-2" "" 0) (mkCotParser "tak-1" ∅) [60]
  = Ok ("mim:aircraft", Some "Hostile", Some "EAGLE-1", Some "id-1")%string.
Proof. vm_compute. reflexivity. Qed.

(** A callsign with an ampersand comes back with the name XML has for it. *)
Example callsign_stays_escaped :
  let sent := match build (ex_builder [("callsign", "R&D 1")]%string) with Ok e => e | _ => ex_sent end in
  let text (_ : bytes) := mkDocument (mkPulled 0 0 <$> rendered_items (default ex_rendered (rendered sent))) None in
  attr_of sent "callsign" = Some "R&D 1"%string
  ∧ (λ e, attr_of e "callsign") <$> cot_to_event text (mkEnv "id-2" "" 0) (mkCotParser "tak-1" ∅) [60] = Ok (Some "R&amp;D 1"%string).
Proof. split; vm_compute; reflexivity. Qed.
