(* ===== verification/S4676.v ===== *)
(** STANAG 4676 tracks (rust/connectors/stanag4676/src/s4676.rs): the walk over the
    items of a message, the points it gathers and the events of a track, with the
    tree a message is and what it means as the reference. *)
From Stdlib Require Import ZArith Lia.
From Stdlib Require Import Strings.String.
From S2P Require Export Xml Marking Ontology.

Local Open Scope Z_scope.

(** What is used of the time crate: RFC 3339 read and written, a duration of so
    many seconds, and their sum where it is in range. *)
Class TimeCrate := {
  OffsetDateTime : Type;
  Duration : Type;
  rfc3339_parse : string → option OffsetDateTime;
  rfc3339_format : OffsetDateTime → option string;
  checked_seconds_f64 : f64 → option Duration;
  checked_add : OffsetDateTime → Duration → option OffsetDateTime
}.

(** * Base64 *)

(** @src rust/connectors/stanag4676/src/s4676.rs 418-427 base64_decode *)
Definition b64_val (c : Z) : option Z :=
  if (65 <=? c) && (c <=? 90) then Some (c - 65)
  else if (97 <=? c) && (c <=? 122) then Some (c - 97 + 26)
  else if (48 <=? c) && (c <=? 57) then Some (c - 48 + 52)
  else if c =? 43 then Some 62
  else if c =? 47 then Some 63
  else None.

(** The shifts are of u8, which lose what leaves it. *)
Definition b64_first (c0 c1 : Z) : Z := Z.lor (Z.land (Z.shiftl c0 2) 255) (Z.shiftr c1 4).
Definition b64_second (c1 c2 : Z) : Z := Z.lor (Z.land (Z.shiftl c1 4) 255) (Z.shiftr c2 2).
Definition b64_third (c2 c3 : Z) : Z := Z.lor (Z.land (Z.shiftl c2 6) 255) c3.

(** [chunk] holds the symbols of the group being read. *)
(** @src rust/connectors/stanag4676/src/s4676.rs 428-455 base64_decode *)
Fixpoint base64_loop (chunk s : bytes) : option bytes :=
  match s with
  | [] =>
      match chunk with
      | [] => Some []
      | [c0; c1] => Some [b64_first c0 c1]
      | [c0; c1; c2] => Some [b64_first c0 c1; b64_second c1 c2]
      | _ => None
      end
  | c :: s =>
      if (c =? 61) || is_ascii_ws c then base64_loop chunk s
      else
        v ← b64_val c;
        match chunk with
        | [c0; c1; c2] => rest ← base64_loop [] s; Some (b64_first c0 c1 :: b64_second c1 c2 :: b64_third c2 v :: rest)
        | _ => base64_loop (chunk ++ [v]) s
        end
  end.

(** @src rust/connectors/stanag4676/src/s4676.rs 416-455 base64_decode *)
Definition base64_decode (s : bytes) : option bytes := base64_loop [] s.

Definition uuid_text (b : bytes) : bytes :=
  let h (i n : nat) : bytes := concat (hex2 <$> take n (drop i b)) in
  h 0%nat 4%nat ++ [45] ++ h 4%nat 2%nat ++ [45] ++ h 6%nat 2%nat ++ [45] ++ h 8%nat 2%nat ++ [45] ++ h 10%nat 6%nat.

(** @src rust/connectors/stanag4676/src/s4676.rs 403-414 decode_uid *)
Definition decode_uid (text : bytes) : option string :=
  b ← base64_decode text;
  if 16 <=? zlen b then Some (b2s (uuid_text (take 16 b))) else None.

(** * What is gathered *)

(** @src rust/connectors/stanag4676/src/s4676.rs 21-27 S4676Error *)
Inductive S4676Error := BadXml (e : string) | Build (e : BuildError).

(** @src rust/connectors/stanag4676/src/s4676.rs 29-34 S4676Parser *)
Record S4676Parser := mkS4676Parser { s_source_id : string; s_overrides : gmap string string; s_enrichment : Enrichment }.

(** @src rust/connectors/stanag4676/src/s4676.rs 125-137 S4676Parser::new *)
Definition s4676_new (source_id : string) (o : gmap string string) (en : Enrichment) : S4676Parser := mkS4676Parser source_id o en.

(** @src rust/connectors/stanag4676/src/s4676.rs 36-44 MessageCtx *)
Record MessageCtx := mkMessageCtx {
  base_time : option string;
  rel_increment : option f64;
  nits_version : option string;
  classification : option string;
  policy_id : option string
}.
Definition no_message : MessageCtx := mkMessageCtx None None None None None.

(** @src rust/connectors/stanag4676/src/s4676.rs 46-53 PointCtx *)
Record PointCtx := mkPointCtx {
  rel_time : option Z;
  p_status : option string;
  cs : option string;
  pos : option (list f64);
  vel : option (list f64)
}.
Definition no_point : PointCtx := mkPointCtx None None None None None.

(** @src rust/connectors/stanag4676/src/s4676.rs 55-64 TrackCtx *)
Record TrackCtx := mkTrackCtx {
  t_uid : option string;
  t_identity : option string;
  t_environment : option string;
  object_class : option string;
  points : list PointCtx;
  start : Z
}.
Definition no_track : TrackCtx := mkTrackCtx None None None None [] 0.

(** @src rust/connectors/stanag4676/src/s4676.rs 66-75 Walk *)
Record Walk := mkWalk {
  msg : MessageCtx;
  track : TrackCtx;
  seg_status : option string;
  tp : PointCtx;
  dynamics_cs : option string
}.
Definition walk_new : Walk := mkWalk no_message no_track None no_point None.

Definition with_msg (m : MessageCtx) (w : Walk) : Walk := mkWalk m (track w) (seg_status w) (tp w) (dynamics_cs w).
Definition with_track (t : TrackCtx) (w : Walk) : Walk := mkWalk (msg w) t (seg_status w) (tp w) (dynamics_cs w).
Definition with_status (s : option string) (w : Walk) : Walk := mkWalk (msg w) (track w) s (tp w) (dynamics_cs w).
Definition with_tp (p : PointCtx) (w : Walk) : Walk := mkWalk (msg w) (track w) (seg_status w) p (dynamics_cs w).
Definition with_dynamics (c : option string) (w : Walk) : Walk := mkWalk (msg w) (track w) (seg_status w) (tp w) c.

(** @src rust/connectors/stanag4676/src/s4676.rs 457-462 parse_floats *)
Definition parse_floats (text : bytes) : option (list f64) := mapM parse_f64 (split_whitespace [] text).

Definition is_wgs (c : option string) : bool := bool_decide (c = Some "WGS_84"%string).

(** @src rust/connectors/stanag4676/src/s4676.rs 326-340 prefer_wgs *)
Definition prefer_wgs (slot : option (list f64)) (have_cs new_cs : option string) (v : list f64) : option (list f64) * bool :=
  let store := match slot with None => true | Some _ => false end || (is_wgs new_cs && negb (is_wgs have_cs)) in
  (if store then Some v else slot, store).

(** @src rust/connectors/stanag4676/src/s4676.rs 98-108 Walk::route_text *)
Definition point_pos (dcs : option string) (v : list f64) (p : PointCtx) : PointCtx :=
  let '(slot, stored) := prefer_wgs (pos p) (cs p) dcs v in
  mkPointCtx (rel_time p) (p_status p) (if stored then dcs else cs p) slot (vel p).

(** @src rust/connectors/stanag4676/src/s4676.rs 109-118 Walk::route_text *)
Definition point_vel (dcs : option string) (v : list f64) (p : PointCtx) : PointCtx :=
  mkPointCtx (rel_time p) (p_status p) (cs p) (pos p) (prefer_wgs (vel p) (cs p) dcs v).1.

(** @src rust/connectors/stanag4676/src/s4676.rs 77-122 Walk::route_text *)
Definition route_text (parent cur : string) (text : bytes) (w : Walk) : Walk :=
  let at_ p c := String.eqb parent p && String.eqb cur c in
  let '(mkMessageCtx bt ri nv cl pid) := msg w in
  let '(mkTrackCtx u i e oc ps st) := track w in
  let t := Some (b2s text) in
  if at_ "nitsRoot" "nitsVersion" then with_msg (mkMessageCtx bt ri t cl pid) w
  else if at_ "message" "baseTime" then with_msg (mkMessageCtx t ri nv cl pid) w
  else if at_ "message" "relTimeIncrement" then with_msg (mkMessageCtx bt (parse_f64 text) nv cl pid) w
  else if at_ "ConfidentialityInformation" "Classification" then with_msg (mkMessageCtx bt ri nv t pid) w
  else if at_ "ConfidentialityInformation" "PolicyIdentifier" then with_msg (mkMessageCtx bt ri nv cl t) w
  else if at_ "track" "uid" then with_track (mkTrackCtx (decode_uid text) i e oc ps st) w
  else if at_ "id1241" "identity" then with_track (mkTrackCtx u t e oc ps st) w
  else if at_ "id1241" "environment" then with_track (mkTrackCtx u i t oc ps st) w
  else if at_ "objectClass" "code" then with_track (mkTrackCtx u i e t ps st) w
  else if at_ "segment" "status" then with_status t w
  else if at_ "tp" "relTime" then with_tp (mkPointCtx (parse_i64 text) (p_status (tp w)) (cs (tp w)) (pos (tp w)) (vel (tp w))) w
  else if at_ "dynamics" "pos" then
    match parse_floats text with Some v => with_tp (point_pos (dynamics_cs w) v (tp w)) w | None => w end
  else if at_ "dynamics" "vel" then
    match parse_floats text with Some v => with_tp (point_vel (dynamics_cs w) v (tp w)) w | None => w end
  else w.

(** * The events of a track *)

(** @src rust/connectors/stanag4676/src/s4676.rs 312-324 environment_code *)
Definition environment_code (raw : option string) : string :=
  match raw with
  | Some r =>
      let t := b2s (trim (s2b r)) in
      if String.eqb t "AIR" then "AIR"
      else if String.eqb t "LAND" then "LAND"
      else if String.eqb t "SURFACE" then "SURFACE"
      else if String.eqb t "SUB-SURFACE" || String.eqb t "SUBSURFACE" then "SUBSURFACE"
      else if String.eqb t "SPACE" then "SPACE"
      else "UNKNOWN"
  | None => "UNKNOWN"
  end%string.

(** @src rust/connectors/stanag4676/src/s4676.rs 276-286 S4676Parser::entity_type *)
Definition s_entity_type (self : S4676Parser) (environment : option string) : string :=
  match s_overrides self !! default ""%string environment with
  | Some t => t
  | None => default "mim:object"%string (s_overrides self !! environment_code environment)
  end.

(** @src rust/connectors/stanag4676/src/s4676.rs 288-303 S4676Parser::hostility *)
Definition s_hostility (self : S4676Parser) (identity : option string) : string :=
  match identity with
  | Some "FRIEND" => "Friend"
  | Some "ASSUMED_FRIEND" => "AssumedFriend"
  | Some "HOSTILE" => "Hostile"
  | Some "SUSPECT" => "Suspect"
  | Some "NEUTRAL" => "Neutral"
  | _ => default "Unknown" (hostility (s_enrichment self))
  end%string.

(** @src rust/connectors/stanag4676/src/s4676.rs 382-392 normalize_status *)
Definition normalize_status (status : string) : string :=
  match status with
  | "INITIATING" => "new"
  | "MAINTAINING" => "update"
  | "SEARCHING" => "coast"
  | "TERMINATED" => "drop"
  | "GROUND_TRUTH" => "truth"
  | _ => "unknown"
  end%string.

Section s4676.
Context `{Trig} `{TimeCrate}.
(** The ontology the connectors ship with. *)
Variable ont : Ontology.

(** @src rust/connectors/stanag4676/src/s4676.rs 394-401 point_time *)
Definition point_time (base : option string) (incr_s : option f64) (rel : option Z) : option string :=
  base ← base;
  dt ← rfc3339_parse base;
  dur ← checked_seconds_f64 (f_mul (f_of_Z (default 0 rel)) (default f_zero incr_s));
  sum ← checked_add dt dur;
  rfc3339_format sum.

(** @src rust/connectors/stanag4676/src/s4676.rs 18-19 EARTH_RADIUS_M *)
Definition EARTH_RADIUS_M : f64 := f_of_Z 6371000.

(** @src rust/connectors/stanag4676/src/s4676.rs 342-380 apply_kinematics *)
Definition apply_kinematics (b : EventBuilder) (p : PointCtx) : EventBuilder :=
  if negb (is_wgs (cs p)) then
    on_some (cs p) (λ c b,
      let b := add_metadata "coordinate_system" c b in
      on_some (pos p) (λ l, add_metadata "position_raw" (String.concat " " (fmt_display <$> l))) b) b
  else
    match pos p with
    | Some (lat :: lon :: pos_rest) =>
        let b := set_location lat lon (default f_zero (head pos_rest)) b in
        match vel p with
        | Some (lat_dps :: lon_dps :: vel_rest) =>
            let north_mps := f_mul (to_radians lat_dps) EARTH_RADIUS_M in
            let east_mps := f_mul (f_mul (to_radians lon_dps) EARTH_RADIUS_M) (cos (to_radians lat)) in
            let speed_mps := hypot north_mps east_mps in
            let course_deg := rem_euclid (to_degrees (atan2 east_mps north_mps)) (f_of_Z 360) in
            let b := attribute "speed" (fmt_fixed 2 speed_mps) b in
            let b := attribute "course" (fmt_fixed 1 course_deg) b in
            let b := add_metadata "vel_lat_dps" (fmt_fixed 6 lat_dps) b in
            let b := add_metadata "vel_lon_dps" (fmt_fixed 6 lon_dps) b in
            on_some (head vel_rest) (λ up, attribute "vertical_rate" (fmt_fixed 2 up)) b
        | _ => b
        end
    | _ => b
    end.

(** @src rust/connectors/stanag4676/src/s4676.rs 215-271 S4676Parser::flush_track *)
Definition point_builder (env : Env) (self : S4676Parser) (t : TrackCtx) (raw : bytes) (m : MessageCtx) (p : PointCtx) : EventBuilder :=
  let entity := s_entity_type self (t_environment t) in
  let b := attribute "hostility" (s_hostility self (t_identity t)) (set_payload raw (new_id env (builder_new (s_source_id self) entity))) in
  let b := match point_time (base_time m) (rel_increment m) (rel_time p) with Some ts => set_timestamp ts b | None => now env b end in
  let b := on_some (t_uid t) (λ u b, identity "STANAG4676" u (add_metadata "source_uid" u b)) b in
  let b := on_some (policy_id m) (add_metadata "nits_policy_identifier") b in
  let b := on_some (classification m) (λ c b,
    fold_left (λ b t, policy_tag t b) (wire_classification (s2b c) (policy_id m)) (add_metadata "nits_classification" c b)) b in
  let b := on_some (nits_version m) (add_metadata "nits_version") b in
  let b := on_some (t_identity t) (add_metadata "identity") b in
  let env_code := environment_code (t_environment t) in
  let b := governed ont entity "environment" env_code b in
  let b := on_some (t_environment t) (λ wire,
    on_true (String.eqb env_code "UNKNOWN" && negb (String.eqb wire "UNKNOWN")) (add_metadata "environment_source" wire)) b in
  let b := on_some (object_class t) (governed ont entity "object_class") b in
  let b := on_some (p_status p) (λ st b, add_metadata "s4676_status" st (governed ont entity "track_status" (normalize_status st) b)) b in
  let b := on_some (rel_time p) (λ rt, add_metadata "rel_time" (b2s (show_bytes rt))) b in
  apply_kinematics b p.

Fixpoint flush_points (envs : Envs) (self : S4676Parser) (t : TrackCtx) (raw : bytes) (m : MessageCtx) (ps : list PointCtx) (out : list Event)
    : res S4676Error (list Event) :=
  match ps with
  | [] => Ok out
  | p :: ps =>
      e ← map_err Build (build (point_builder (envs (length out)) self t raw m p));
      flush_points envs self t raw m ps (out ++ [e])
  end.

(** @src rust/connectors/stanag4676/src/s4676.rs 205-274 S4676Parser::flush_track *)
Definition flush_track (envs : Envs) (self : S4676Parser) (t : TrackCtx) (raw : bytes) (m : MessageCtx) (out : list Event) : res S4676Error (list Event) :=
  flush_points envs self t raw m (points t) out.

(** * The walk *)

(** @src rust/connectors/stanag4676/src/s4676.rs 464-470 local *)
Definition local (qname : string) : string :=
  match find_byte 58 (s2b qname) with
  | Some i => b2s (drop (Z.to_nat (i + 1)) (s2b qname))
  | None => qname
  end.

(** The names of the open elements, the innermost first; what is gathered; the
    events so far. *)
Record Loop := mkLoop { stack : list string; w : Walk; events : list Event }.

(** @src rust/connectors/stanag4676/src/s4676.rs 149-166 S4676Parser::to_events *)
Definition open_tag (at_ : Z) (name : string) (attrs : list (string * string)) (l : Loop) : Loop :=
  let ln := local name in
  let w := if String.eqb ln "track" then with_track (mkTrackCtx None None None None [] at_) (w l)
           else if String.eqb ln "dynamics" then with_dynamics (snd <$> head (filter (λ a, local a.1 = "cs"%string) attrs)) (w l)
           else w l in
  mkLoop (ln :: stack l) w (events l).

(** @src rust/connectors/stanag4676/src/s4676.rs 167-186 S4676Parser::to_events *)
Definition close_tag (envs : Envs) (self : S4676Parser) (native : bytes) (end_ : Z) (name : string) (l : Loop) : res S4676Error Loop :=
  let ln := local name in
  let x := w l in
  let rest := tail (stack l) in
  if String.eqb ln "tp" then
    let p := mkPointCtx (rel_time (tp x)) (seg_status x) (cs (tp x)) (pos (tp x)) (vel (tp x)) in
    let t := track x in
    Ok (mkLoop rest (with_tp no_point (with_track (mkTrackCtx (t_uid t) (t_identity t) (t_environment t) (object_class t) (points t ++ [p]) (start t)) x)) (events l))
  else if String.eqb ln "dynamics" then Ok (mkLoop rest (with_dynamics None x) (events l))
  else if String.eqb ln "segment" then Ok (mkLoop rest (with_status None x) (events l))
  else if String.eqb ln "track" then
    let raw := default native (get_range native (start (track x)) end_) in
    out ← flush_track envs self (track x) raw (msg x) (events l);
    Ok (mkLoop rest (with_track no_track x) out)
  else Ok (mkLoop rest x (events l)).

(** @src rust/connectors/stanag4676/src/s4676.rs 187-196 S4676Parser::to_events *)
Definition text_in (text : bytes) (l : Loop) : Loop :=
  match trim text with
  | [] => l
  | t =>
      let cur := default ""%string (stack l !! 0%nat) in
      let parent := default ""%string (stack l !! 1%nat) in
      mkLoop (stack l) (route_text parent cur t (w l)) (events l)
  end.

(** @src rust/connectors/stanag4676/src/s4676.rs 146-200 S4676Parser::to_events *)
Definition walk_item (envs : Envs) (self : S4676Parser) (native : bytes) (p : Pulled) (l : Loop) : res S4676Error Loop :=
  match item p with
  | XStart name attrs => Ok (open_tag (before p) name attrs l)
  | XEnd name => close_tag envs self native (after p) name l
  | XText t => Ok (text_in t l)
  | XEmpty _ _ | XOther => Ok l
  end.

Fixpoint walk (envs : Envs) (self : S4676Parser) (native : bytes) (ps : list Pulled) (l : Loop) : res S4676Error Loop :=
  match ps with
  | [] => Ok l
  | p :: ps => l ← walk_item envs self native p l; walk envs self native ps l
  end.

(** @src rust/connectors/stanag4676/src/s4676.rs 139-203 S4676Parser::to_events *)
Definition to_events (pull : bytes → Document) (envs : Envs) (self : S4676Parser) (native : bytes) : res S4676Error (list Event) :=
  let d := pull native in
  l ← walk envs self native (items d) (mkLoop [] walk_new []);
  match failed d with Some e => Err (BadXml e) | None => Ok (events l) end.

(** @src rust/connectors/stanag4676/src/s4676.rs 306-310 S4676Parser::parse *)
Definition s4676_parse (pull : bytes → Document) (envs : Envs) (self : S4676Parser) (frame : bytes) : S4676Parser * res S4676Error (list Event) :=
  (self, to_events pull envs self frame).
End s4676.

(** * Laws *)

Section laws.
Context `{Trig} `{TimeCrate}.
Variables (ont : Ontology) (envs : Envs) (self : S4676Parser) (native : bytes).

Lemma flush_points_safe t raw m ps : ∀ out, safe (flush_points ont envs self t raw m ps out).
Proof. induction ps as [|p ps IH]; intros out; [done|]. cbn [flush_points]. apply safe_bind; [apply safe_build|intros; apply IH]. Qed.

Lemma flush_points_canonical t raw m ps : ∀ out es, Forall Canonical out → flush_points ont envs self t raw m ps out = Ok es → Forall Canonical es.
Proof.
  induction ps as [|p ps IH]; intros out es Ho Hf; cbn [flush_points] in Hf; [by injection Hf as <-|].
  apply bind_Ok in Hf as (e & He & Hf). apply (IH (out ++ [e]) es); [|done]. apply Forall_app_2; [done|]. constructor; [by eapply build_all_canonical|constructor].
Qed.

Lemma close_tag_safe end_ name l : safe (close_tag ont envs self native end_ name l).
Proof. unfold close_tag. repeat case_match; try done. apply safe_bind; [apply flush_points_safe|done]. Qed.

Lemma walk_safe ps : ∀ l, safe (walk ont envs self native ps l).
Proof.
  induction ps as [|p ps IH]; intros l; [done|]. cbn [walk]. apply safe_bind; [|intros; apply IH].
  unfold walk_item. destruct (item p); try done. apply close_tag_safe.
Qed.

Lemma walk_item_canonical p l l' : Forall Canonical (events l) → walk_item ont envs self native p l = Ok l' → Forall Canonical (events l').
Proof.
  unfold walk_item. intros Hl Hw. destruct (item p); try (by injection Hw as <-).
  - unfold close_tag in Hw. repeat case_match; try (by injection Hw as <-).
    apply bind_Ok in Hw as (out & Ho & Hw). injection Hw as <-. by eapply flush_points_canonical.
  - injection Hw as <-. unfold text_in. by case_match.
Qed.

Lemma walk_canonical ps : ∀ l l', Forall Canonical (events l) → walk ont envs self native ps l = Ok l' → Forall Canonical (events l').
Proof.
  induction ps as [|p ps IH]; intros l l' Hl Hw; cbn [walk] in Hw; [by injection Hw as <-|].
  apply bind_Ok in Hw as (l1 & H1 & Hw). eapply IH; [|done]. by eapply walk_item_canonical.
Qed.
End laws.

#[export] Instance s4676_parser `{Trig} `{TimeCrate} (ont : Ontology) (pull : bytes → Document) : FrameParser :=
  {| fp_state := S4676Parser; fp_error := S4676Error; fp_parse envs self frame := s4676_parse ont pull envs self frame |}.
#[export] Instance s4676_laws `{Trig} `{TimeCrate} (ont : Ontology) (pull : bytes → Document) : FrameParserLaws (s4676_parser ont pull).
Proof.
  refine {| fp_inv := λ _ : fp_state (FrameParser := s4676_parser ont pull), True |}.
  - intros envs s frame _ _. split; [|done]. cbn [fp_parse s4676_parser s4676_parse snd]. unfold to_events.
    apply safe_bind; [apply walk_safe|]. intros l _. by destruct (failed (pull frame)).
  - intros envs s frame es _ _. cbn [fp_parse s4676_parser s4676_parse snd]. unfold to_events. intros Hw.
    apply bind_Ok in Hw as (l & Hl & Hw). destruct (failed (pull frame)); [done|]. injection Hw as <-. by eapply walk_canonical; [|exact Hl].
Defined.

(** * Base64 and identifiers *)

(** RFC 4648: the symbol of a value, and a group of bytes written out. *)
Definition b64_sym (v : Z) : Z :=
  if v <? 26 then 65 + v else if v <? 52 then 71 + v else if v <? 62 then v - 4 else if v =? 62 then 43 else 47.
Definition b64_triple (a b c : Z) : bytes :=
  [b64_sym (a / 4); b64_sym (16 * (a mod 4) + b / 16); b64_sym (4 * (b mod 16) + c / 64); b64_sym (c mod 64)].

(** RFC 4648: three bytes to four symbols, the last group padded. *)
Fixpoint base64_encode (l : bytes) : bytes :=
  match l with
  | a :: b :: c :: l => b64_triple a b c ++ base64_encode l
  | [a; b] => [b64_sym (a / 4); b64_sym (16 * (a mod 4) + b / 16); b64_sym (4 * (b mod 16)); 61]
  | [a] => [b64_sym (a / 4); b64_sym (16 * (a mod 4)); 61; 61]
  | [] => []
  end.

Lemma below_cases (n : nat) (P : Z → bool) v : forallb P (seqZ 0 (Z.of_nat n)) = true → 0 ≤ v < Z.of_nat n → P v = true.
Proof. rewrite forallb_forall. intros H Hv. apply H, list_elem_of_In, elem_of_seqZ. lia. Qed.

Lemma b64_sym_val v : 0 ≤ v < 64 → b64_val (b64_sym v) = Some v ∧ (b64_sym v =? 61) || is_ascii_ws (b64_sym v) = false.
Proof.
  intros Hv. pose proof (below_cases 64 (λ v, bool_decide (b64_val (b64_sym v) = Some v) && negb ((b64_sym v =? 61) || is_ascii_ws (b64_sym v))) v) as H.
  specialize (H ltac:(by vm_compute) Hv). apply andb_prop in H as [H1 H2]. apply bool_decide_eq_true in H1. by apply negb_true_iff in H2.
Qed.

(** A symbol read, where the group is not full. *)
Lemma base64_sym chunk v s : 0 ≤ v < 64 → base64_loop chunk (b64_sym v :: s) =
  match chunk with
  | [c0; c1; c2] => rest ← base64_loop [] s; Some (b64_first c0 c1 :: b64_second c1 c2 :: b64_third c2 v :: rest)
  | _ => base64_loop (chunk ++ [v]) s
  end.
Proof. intros [H1 H2]%b64_sym_val. cbn [base64_loop]. by rewrite H2, H1. Qed.

Lemma byte_pair (P : Z → Z → bool) a b :
  forallb (λ a, forallb (P a) (seqZ 0 256)) (seqZ 0 256) = true → 0 ≤ a < 256 → 0 ≤ b < 256 → P a b = true.
Proof. intros H Ha Hb. apply (below_cases 256 (P a) b); [|done]. by apply (below_cases 256 (λ a, forallb (P a) (seqZ 0 256)) a). Qed.

Lemma b64_first_ok a b : 0 ≤ a < 256 → 0 ≤ b < 256 → b64_first (a / 4) (16 * (a mod 4) + b / 16) = a.
Proof. intros. apply Z.eqb_eq, (byte_pair (λ a b, b64_first (a / 4) (16 * (a mod 4) + b / 16) =? a)); [by vm_compute|done..]. Qed.
Lemma b64_third_ok b c : 0 ≤ b < 256 → 0 ≤ c < 256 → b64_third (4 * (b mod 16) + c / 64) (c mod 64) = c.
Proof. intros. apply Z.eqb_eq, (byte_pair (λ b c, b64_third (4 * (b mod 16) + c / 64) (c mod 64) =? c)); [by vm_compute|done..]. Qed.
Lemma b64_second_ok x b y : 0 ≤ x < 4 → 0 ≤ b < 256 → 0 ≤ y < 4 → b64_second (16 * x + b / 16) (4 * (b mod 16) + y) = b.
Proof.
  intros Hx Hb Hy. apply Z.eqb_eq.
  apply (below_cases 4 (λ y, b64_second (16 * x + b / 16) (4 * (b mod 16) + y) =? b) y); [|done].
  apply (below_cases 4 (λ x, forallb (λ y, b64_second (16 * x + b / 16) (4 * (b mod 16) + y) =? b) (seqZ 0 (Z.of_nat 4))) x); [|done].
  apply (below_cases 256 (λ b, forallb (λ x, forallb (λ y, b64_second (16 * x + b / 16) (4 * (b mod 16) + y) =? b) (seqZ 0 (Z.of_nat 4))) (seqZ 0 (Z.of_nat 4))) b); [by vm_compute|done].
Qed.

Lemma base64_group a b c s : 0 ≤ a < 256 → 0 ≤ b < 256 → 0 ≤ c < 256 →
  base64_loop [] (b64_triple a b c ++ s) = rest ← base64_loop [] s; Some (a :: b :: c :: rest).
Proof.
  intros Ha Hb Hc. unfold b64_triple. cbn [app].
  rewrite 4!base64_sym by (Z.div_mod_to_equations; lia). cbn [app].
  by rewrite b64_first_ok, b64_third_ok, b64_second_ok by (done || (Z.div_mod_to_equations; lia)).
Qed.

(** the Base64 reader returns what RFC 4648 writes, padded or not a multiple of
    three, and a track's identifier is the UUID whose sixteen bytes were written. *)
Theorem base64_roundtrip l :
  bytes_ok l → base64_decode (base64_encode l) = Some l ∧ (zlen l = 16 → decode_uid (base64_encode l) = Some (b2s (uuid_text l))).
Proof.
  intros Hl. assert (base64_decode (base64_encode l) = Some l) as H.
  { unfold base64_decode. revert Hl. enough (∀ n l, (length l < n)%nat → bytes_ok l → base64_loop [] (base64_encode l) = Some l) as Hn by (apply (Hn (S (length l))); lia).
    clear l. induction n as [|n IH]; intros l Hn Hl; [lia|]. destruct l as [|a [|b [|c l]]]; cbn [base64_encode].
    - done.
    - assert (0 ≤ a < 256) as Ha by (apply (Forall_inv Hl)). rewrite 2!base64_sym by (Z.div_mod_to_equations; lia). cbn [app base64_loop Z.eqb Pos.eqb orb].
      pose proof (b64_first_ok a 0 Ha ltac:(lia)) as E. rewrite Z.div_0_l, Z.add_0_r in E by lia. by rewrite E.
    - assert (0 ≤ a < 256 ∧ 0 ≤ b < 256) as [Ha Hb] by (apply Forall_cons in Hl as [Ha Hl]; by split; [|apply (Forall_inv Hl)]). rewrite 3!base64_sym by (Z.div_mod_to_equations; lia). cbn [app base64_loop Z.eqb Pos.eqb orb].
      rewrite b64_first_ok by lia. rewrite <- (Z.add_0_r (4 * (b mod 16))). by rewrite b64_second_ok by (Z.div_mod_to_equations; lia).
    - apply Forall_cons in Hl as [Ha Hl]. apply Forall_cons in Hl as [Hb Hl]. apply Forall_cons in Hl as [Hc Hl].
      rewrite base64_group by done. cbn [length] in Hn. by rewrite IH by (lia || done). }
  split; [done|]. intros Hz. unfold decode_uid. rewrite H. cbn [mbind option_bind]. rewrite Hz, Z.leb_refl.
  by rewrite take_ge by (unfold zlen in Hz; lia).
Qed.

Lemma base64_roundtrip_witness :
  let l := [12; 88; 203; 192; 13; 182; 69; 120; 138; 72; 5; 161; 217; 224; 78; 25] in
  base64_decode (base64_encode l) = Some l ∧ (zlen l = 16 → decode_uid (base64_encode l) = Some (b2s (uuid_text l))).
Proof. cbv zeta. apply base64_roundtrip. apply (bool_decide_eq_true_1 (bytes_ok _)). vm_compute. reflexivity. Defined.

Example uid_ex : decode_uid (s2b "DFjLwA22RXiKSAWh2eBOGQ==") = Some "0c58cbc0-0db6-4578-8a48-05a1d9e04e19"%string.
Proof. vm_compute. reflexivity. Qed.

(** * A message as a tree *)

(** The texts of the leaves as written, absent or not. *)
Record Dynamics := mkDynamics { d_cs : option string; d_pos : option bytes; d_vel : option bytes }.
Record Point := mkPoint { k_uid : option bytes; k_rel : option bytes; k_dyns : list Dynamics }.
Record Segment := mkSegment { g_uid : option bytes; g_status : option bytes; g_points : list Point }.
Record Track := mkTrack { r_uid : option bytes; r_segments : list Segment; r_identity : option bytes; r_environment : option bytes; r_class : option bytes }.
Record Message := mkMessage {
  m_policy : option bytes; m_classification : option bytes; m_version : option bytes; m_base : option bytes; m_increment : option bytes; m_tracks : list Track
}.

(** ** What it means *)

Definition text_of (o : option bytes) : option bytes := t ← o; match trim t with [] => None | t => Some t end.
Definition str_of (o : option bytes) : option string := b2s <$> text_of o.

Definition add_dynamics (p : PointCtx) (d : Dynamics) : PointCtx :=
  let p := match text_of (d_pos d) ≫= parse_floats with Some v => point_pos (d_cs d) v p | None => p end in
  match text_of (d_vel d) ≫= parse_floats with Some v => point_vel (d_cs d) v p | None => p end.

Definition point_ctx (status : option string) (p : Point) : PointCtx :=
  fold_left add_dynamics (k_dyns p) (mkPointCtx (text_of (k_rel p) ≫= parse_i64) status None None None).

Definition track_ctx (at_ : Z) (t : Track) : TrackCtx :=
  mkTrackCtx (text_of (r_uid t) ≫= decode_uid) (str_of (r_identity t)) (str_of (r_environment t)) (str_of (r_class t))
    (concat ((λ g, point_ctx (str_of (g_status g)) <$> g_points g) <$> r_segments t)) at_.

Definition message_ctx (m : Message) : MessageCtx :=
  mkMessageCtx (str_of (m_base m)) (text_of (m_increment m) ≫= parse_f64) (str_of (m_version m)) (str_of (m_classification m)) (str_of (m_policy m)).

(** ** Its items *)

Section items.
(** The prefix each name is written with. *)
Variable qn : string → string.

Definition elem (n : string) (attrs : list (string * string)) (body : list XmlItem) : list XmlItem :=
  XStart (qn n) attrs :: body ++ [XEnd (qn n)].
Definition leaf (n : string) (o : option bytes) : list XmlItem := match o with Some t => elem n [] [XText t] | None => [] end.

Definition dynamics_items (d : Dynamics) : list XmlItem :=
  elem "dynamics" (match d_cs d with Some c => [("cs", c)]%string | None => [] end) (leaf "pos" (d_pos d) ++ leaf "vel" (d_vel d)).
Definition point_items (p : Point) : list XmlItem :=
  elem "tp" [] (leaf "uid" (k_uid p) ++ leaf "relTime" (k_rel p) ++ concat (dynamics_items <$> k_dyns p)).
Definition segment_items (g : Segment) : list XmlItem :=
  elem "segment" [] (leaf "uid" (g_uid g) ++ leaf "status" (g_status g) ++ concat (point_items <$> g_points g)).
Definition object_items (t : Track) : list XmlItem :=
  elem "object" [] (elem "id1241" [] (leaf "identity" (r_identity t) ++ leaf "environment" (r_environment t)) ++ elem "objectClass" [] (leaf "code" (r_class t))).
Definition track_body (t : Track) : list XmlItem := leaf "uid" (r_uid t) ++ concat (segment_items <$> r_segments t) ++ object_items t.
Definition track_items (t : Track) : list XmlItem := elem "track" [] (track_body t).

(** Before the tracks, and after them. *)
Definition head_items (m : Message) : list XmlItem :=
  [XStart (qn "nitsRoot") []] ++
  elem "originatorConfidentialityLabel" [] (elem "ConfidentialityInformation" [] (leaf "PolicyIdentifier" (m_policy m) ++ leaf "Classification" (m_classification m))) ++
  leaf "nitsVersion" (m_version m) ++ [XStart (qn "message") []] ++ leaf "baseTime" (m_base m) ++ leaf "relTimeIncrement" (m_increment m).
Definition tail_items : list XmlItem := [XEnd (qn "message"); XEnd (qn "nitsRoot")].
End items.

(** A reader's layout: blank texts, comments and declarations. *)
Definition blank (i : XmlItem) : bool := match i with XText t => bool_decide (trim t = []) | XEmpty _ _ | XOther => true | _ => false end.

(** ** The walk over a tree *)

Section tree.
Context `{Trig} `{TimeCrate}.
Variables (ont : Ontology) (envs : Envs) (self : S4676Parser) (native : bytes) (qn : string → string).
Hypothesis local_qn : ∀ n, local (qn n) = n.

(** A step that closes no track asks nothing of the text or the builder. *)
Definition quiet (i : XmlItem) : bool := match i with XStart n _ | XEnd n => negb (String.eqb (local n) "track") | _ => true end.
Definition step (l : Loop) (i : XmlItem) : Loop := match walk_item ont envs self [] (mkPulled 0 0 i) l with Ok l' => l' | _ => l end.
Definition steps (xs : list XmlItem) (l : Loop) : Loop := fold_left step xs l.

Lemma walk_item_quiet p l : quiet (item p) = true → walk_item ont envs self native p l = Ok (step l (item p)).
Proof.
  unfold step, walk_item. destruct p as [b a i]. cbn [item before after]. destruct i as [n at_|n at_|n|t|]; try done; cbn [quiet]; intros Hq%negb_true_iff.
  - unfold open_tag. by rewrite Hq.
  - unfold close_tag. rewrite Hq. by repeat case_match.
Qed.

Lemma walk_quiet ps : ∀ l, forallb quiet (item <$> ps) = true → walk ont envs self native ps l = Ok (steps (item <$> ps) l).
Proof.
  induction ps as [|p ps IH]; intros l Hq; [done|]. cbn [fmap list_fmap forallb] in Hq. apply andb_prop in Hq as [Hp Hq].
  cbn [walk fmap list_fmap steps fold_left]. rewrite walk_item_quiet by done. cbn. by rewrite IH.
Qed.

Lemma walk_app ps qs l : walk ont envs self native (ps ++ qs) l = l ← walk ont envs self native ps l; walk ont envs self native qs l.
Proof.
  revert l. induction ps as [|p ps IH]; intros l; [done|]. cbn [app walk]. destruct (walk_item ont envs self native p l); cbn; [apply IH|done..].
Qed.

(** Layout is passed over. *)
Lemma walk_layout ps : ∀ l, walk ont envs self native ps l = walk ont envs self native (filter (λ p, blank (item p) = false) ps) l.
Proof.
  induction ps as [|p ps IH]; intros l; [done|]. rewrite filter_cons. destruct (decide (blank (item p) = false)) as [Hb|Hb%not_false_iff_true].
  - cbn [walk]. destruct (walk_item ont envs self native p l); cbn; [apply IH|done..].
  - cbn [walk]. replace (walk_item ont envs self native p l) with (Ok (E := S4676Error) l); [apply IH|].
    unfold walk_item. destruct (item p) as [| | |t|]; try done. cbn [blank] in Hb. apply bool_decide_eq_true in Hb. unfold text_in. by rewrite Hb.
Qed.

Lemma steps_both xs ys l : steps (xs ++ ys) l = steps ys (steps xs l).
Proof. apply fold_left_app. Qed.

Definition plain (n : string) : bool := negb (String.eqb n "track" || String.eqb n "tp" || String.eqb n "dynamics" || String.eqb n "segment").

Lemma plain_names n : plain n = true →
  String.eqb n "track" = false ∧ String.eqb n "tp" = false ∧ String.eqb n "dynamics" = false ∧ String.eqb n "segment" = false.
Proof. unfold plain. intros Hp%negb_true_iff. repeat (apply orb_false_iff in Hp as [Hp ?]). done. Qed.

Lemma step_open n attrs S x es : plain n = true → step (mkLoop S x es) (XStart (qn n) attrs) = mkLoop (n :: S) x es.
Proof. intros (H1 & _ & H2 & _)%plain_names. unfold step, walk_item, open_tag. cbn [item before stack w events]. by rewrite !local_qn, H1, H2. Qed.
Lemma step_close n m S x es : plain n = true → step (mkLoop (m :: S) x es) (XEnd (qn n)) = mkLoop S x es.
Proof. intros (H1 & H2 & H3 & H4)%plain_names. unfold step, walk_item, close_tag. cbn [item after stack w events]. by rewrite !local_qn, H1, H2, H3, H4. Qed.

(** An element that only names its place. *)
Lemma steps_elem n body S x es x' es' : plain n = true →
  steps body (mkLoop (n :: S) x es) = mkLoop (n :: S) x' es' → steps (elem qn n [] body) (mkLoop S x es) = mkLoop S x' es'.
Proof. intros Hp Hb. unfold elem. cbn [steps fold_left]. rewrite step_open by done. fold (steps (body ++ [XEnd (qn n)]) (mkLoop (n :: S) x es)). rewrite steps_both, Hb. cbn. by apply step_close. Qed.

Definition route_opt (p n : string) (o : option bytes) (x : Walk) : Walk := match text_of o with Some t => route_text p n t x | None => x end.

Lemma steps_leaf n o p S x es : plain n = true → steps (leaf qn n o) (mkLoop (p :: S) x es) = mkLoop (p :: S) (route_opt p n o x) es.
Proof.
  intros Hp. unfold leaf, route_opt, text_of. destruct o as [t|]; [|done]. apply steps_elem; [done|]. cbn. unfold step, walk_item, text_in. cbn.
  by destruct (trim t).
Qed.

Lemma steps_dynamics d S m t st p es :
  steps (dynamics_items qn d) (mkLoop ("tp" :: S)%string (mkWalk m t st p None) es) = mkLoop ("tp" :: S)%string (mkWalk m t st (add_dynamics p d) None) es.
Proof.
  destruct m, t. unfold dynamics_items, elem. cbn [steps fold_left].
  replace (step (mkLoop ("tp" :: S)%string _ es) _) with (mkLoop ("dynamics" :: "tp" :: S)%string (mkWalk (mkMessageCtx base_time0 rel_increment0 nits_version0 classification0 policy_id0) (mkTrackCtx t_uid0 t_identity0 t_environment0 object_class0 points0 start0) st p (d_cs d)) es)
    by (unfold step, walk_item, open_tag; cbn [item before]; rewrite local_qn; by destruct (d_cs d)).
  match goal with |- fold_left step ?xs ?l = _ => fold (steps xs l) end. rewrite !steps_both, !steps_leaf by done. cbn [steps fold_left].
  unfold step, walk_item, close_tag. cbn [item after]. rewrite local_qn. cbn [String.eqb Ascii.eqb Bool.eqb stack tail w events].
  unfold route_opt, add_dynamics. destruct (text_of (d_pos d)) as [tp_|], (text_of (d_vel d)) as [tv|]; cbn -[point_pos point_vel parse_floats];
    repeat (destruct (parse_floats _); cbn -[point_pos point_vel parse_floats]); done.
Qed.

Lemma steps_dynamics_all ds S m t st p es :
  steps (concat (dynamics_items qn <$> ds)) (mkLoop ("tp" :: S)%string (mkWalk m t st p None) es)
  = mkLoop ("tp" :: S)%string (mkWalk m t st (fold_left add_dynamics ds p) None) es.
Proof. revert p. induction ds as [|d ds IH]; intros p; [done|]. cbn [fmap list_fmap concat]. rewrite steps_both, steps_dynamics. apply IH. Qed.

Definition add_points (t : TrackCtx) (ps : list PointCtx) : TrackCtx :=
  mkTrackCtx (t_uid t) (t_identity t) (t_environment t) (object_class t) (points t ++ ps) (start t).

(** Dynamics leave the time and the status of a point alone. *)
Lemma add_dynamics_status ds : ∀ rel s s' c po ve,
  let '(mkPointCtx r _ c' po' ve') := fold_left add_dynamics ds (mkPointCtx rel s c po ve) in
  fold_left add_dynamics ds (mkPointCtx rel s' c po ve) = mkPointCtx r s' c' po' ve'.
Proof.
  induction ds as [|d ds IH]; intros rel s s' c po ve; [done|]. cbn [fold_left].
  assert (∃ c1 po1 ve1, ∀ s, add_dynamics (mkPointCtx rel s c po ve) d = mkPointCtx rel s c1 po1 ve1) as (c1 & po1 & ve1 & Hd).
  { unfold add_dynamics, point_pos, point_vel. destruct (text_of (d_pos d) ≫= parse_floats), (text_of (d_vel d) ≫= parse_floats); cbn -[prefer_wgs];
      repeat match goal with |- context [let '(_, _) := prefer_wgs ?a ?b ?c ?d in _] => destruct (prefer_wgs a b c d) end; cbn -[prefer_wgs]; eauto. }
  rewrite !Hd. apply IH.
Qed.

Lemma steps_point p S m t st es :
  steps (point_items qn p) (mkLoop ("segment" :: S)%string (mkWalk m t st no_point None) es)
  = mkLoop ("segment" :: S)%string (mkWalk m (add_points t [point_ctx st p]) st no_point None) es.
Proof.
  unfold point_items, elem. cbn [steps fold_left].
  replace (step _ (XStart (qn "tp") [])) with (mkLoop ("tp" :: "segment" :: S)%string (mkWalk m t st no_point None) es)
    by (unfold step, walk_item, open_tag; cbn [item before]; by rewrite local_qn).
  match goal with |- fold_left step ?xs ?l = _ => fold (steps xs l) end. rewrite !steps_both, !steps_leaf by done.
  assert (route_opt "tp" "relTime" (k_rel p) (route_opt "tp" "uid" (k_uid p) (mkWalk m t st no_point None))
    = mkWalk m t st (mkPointCtx (text_of (k_rel p) ≫= parse_i64) None None None None) None) as ->.
  { unfold route_opt. destruct m, t, (text_of (k_uid p)), (text_of (k_rel p)); done. }
  rewrite steps_dynamics_all. cbn [steps fold_left]. unfold step, walk_item, close_tag. cbn [item after]. rewrite local_qn. cbn [String.eqb Ascii.eqb Bool.eqb stack tail w events track tp].
  unfold point_ctx. pose proof (add_dynamics_status (k_dyns p) (text_of (k_rel p) ≫= parse_i64) None st None None None) as Hs.
  destruct (fold_left add_dynamics (k_dyns p) (mkPointCtx (text_of (k_rel p) ≫= parse_i64) None None None None)). rewrite Hs. done.
Qed.

Lemma add_points_app t ps qs : add_points (add_points t ps) qs = add_points t (ps ++ qs).
Proof. unfold add_points. cbn. by rewrite app_assoc. Qed.
Lemma add_points_nil t : add_points t [] = t.
Proof. unfold add_points. rewrite app_nil_r. by destruct t. Qed.

Lemma steps_points ps S m t st es :
  steps (concat (point_items qn <$> ps)) (mkLoop ("segment" :: S)%string (mkWalk m t st no_point None) es)
  = mkLoop ("segment" :: S)%string (mkWalk m (add_points t (point_ctx st <$> ps)) st no_point None) es.
Proof.
  revert t. induction ps as [|p ps IH]; intros t; [by rewrite add_points_nil|]. cbn [fmap list_fmap concat].
  by rewrite steps_both, steps_point, IH, add_points_app.
Qed.

Definition segment_points (g : Segment) : list PointCtx := point_ctx (str_of (g_status g)) <$> g_points g.

Lemma steps_segment g S m t es :
  steps (segment_items qn g) (mkLoop ("track" :: S)%string (mkWalk m t None no_point None) es)
  = mkLoop ("track" :: S)%string (mkWalk m (add_points t (segment_points g)) None no_point None) es.
Proof.
  unfold segment_items, elem. cbn [steps fold_left].
  replace (step _ (XStart (qn "segment") [])) with (mkLoop ("segment" :: "track" :: S)%string (mkWalk m t None no_point None) es)
    by (unfold step, walk_item, open_tag; cbn [item before]; by rewrite local_qn).
  match goal with |- fold_left step ?xs ?l = _ => fold (steps xs l) end. rewrite !steps_both, !steps_leaf by done.
  assert (route_opt "segment" "status" (g_status g) (route_opt "segment" "uid" (g_uid g) (mkWalk m t None no_point None))
    = mkWalk m t (str_of (g_status g)) no_point None) as ->.
  { unfold route_opt, str_of. destruct m, t, (text_of (g_uid g)), (text_of (g_status g)); done. }
  rewrite steps_points. cbn [steps fold_left]. unfold step, walk_item, close_tag. cbn [item after]. by rewrite local_qn.
Qed.

Lemma steps_segments gs S m t es :
  steps (concat (segment_items qn <$> gs)) (mkLoop ("track" :: S)%string (mkWalk m t None no_point None) es)
  = mkLoop ("track" :: S)%string (mkWalk m (add_points t (concat (segment_points <$> gs))) None no_point None) es.
Proof.
  revert t. induction gs as [|g gs IH]; intros t; [by rewrite add_points_nil|]. cbn [fmap list_fmap concat].
  by rewrite steps_both, steps_segment, IH, add_points_app.
Qed.

Lemma steps_object t S m u es ps at_ :
  steps (object_items qn t) (mkLoop ("track" :: S)%string (mkWalk m (mkTrackCtx u None None None ps at_) None no_point None) es)
  = mkLoop ("track" :: S)%string (mkWalk m (mkTrackCtx u (str_of (r_identity t)) (str_of (r_environment t)) (str_of (r_class t)) ps at_) None no_point None) es.
Proof.
  apply steps_elem; [done|]. rewrite steps_both.
  rewrite (steps_elem "id1241" _ _ _ _ (mkWalk m (mkTrackCtx u (str_of (r_identity t)) (str_of (r_environment t)) None ps at_) None no_point None) es) by
    (done || (rewrite steps_both, !steps_leaf by done; unfold route_opt, str_of; destruct m, (text_of (r_identity t)), (text_of (r_environment t)); done)).
  apply steps_elem; [done|]. rewrite steps_leaf by done. unfold route_opt, str_of. by destruct m, (text_of (r_class t)).
Qed.

Lemma steps_track_body t S m at_ es :
  steps (track_body qn t) (mkLoop ("track" :: S)%string (mkWalk m (mkTrackCtx None None None None [] at_) None no_point None) es)
  = mkLoop ("track" :: S)%string (mkWalk m (track_ctx at_ t) None no_point None) es.
Proof.
  unfold track_body. rewrite !steps_both, steps_leaf by done.
  replace (route_opt "track" "uid" (r_uid t) _) with (mkWalk m (mkTrackCtx (text_of (r_uid t) ≫= decode_uid) None None None [] at_) None no_point None)
    by (unfold route_opt; destruct m, (text_of (r_uid t)); done).
  rewrite steps_segments. unfold add_points. cbn [t_uid t_identity t_environment object_class points start app]. rewrite steps_object. done.
Qed.

Lemma steps_head m : steps (head_items qn m) (mkLoop [] walk_new []) = mkLoop ["message"; "nitsRoot"]%string (mkWalk (message_ctx m) no_track None no_point None) [].
Proof.
  unfold head_items. rewrite !steps_both. cbn [steps fold_left]. unfold walk_new. rewrite step_open by done.
  rewrite (steps_elem "originatorConfidentialityLabel" _ _ _ _ (mkWalk (mkMessageCtx None None None (str_of (m_classification m)) (str_of (m_policy m))) no_track None no_point None) []).
  2: done.
  2: { apply steps_elem; [done|]. rewrite steps_both, !steps_leaf by done. unfold route_opt, str_of. by destruct (text_of (m_policy m)), (text_of (m_classification m)). }
  rewrite !steps_leaf by done. cbn [steps fold_left]. rewrite step_open by done. rewrite !steps_leaf by done.
  unfold route_opt, message_ctx, str_of. by destruct (text_of (m_version m)), (text_of (m_base m)), (text_of (m_increment m)).
Qed.
End tree.

(** * Properties *)

(** ** The coordinate system of a point *)

Definition position_of (d : Dynamics) : option (list f64) := text_of (d_pos d) ≫= parse_floats.
Definition velocity_of (d : Dynamics) : option (list f64) := text_of (d_vel d) ≫= parse_floats.

(** The first position in WGS-84, or the first there is. *)
Definition first_position (ds : list Dynamics) : option (option string * list f64) :=
  head (omap (λ d, pair (d_cs d) <$> position_of d) ds).
Definition first_wgs (ds : list Dynamics) : option (option string * list f64) := first_position (filter (λ d, is_wgs (d_cs d) = true) ds).
Definition chosen (ds : list Dynamics) : option (option string * list f64) :=
  match first_wgs ds with Some x => Some x | None => first_position ds end.

Definition place (p : PointCtx) : option (option string * list f64) := pair (cs p) <$> pos p.

Lemma place_add p d :
  (pos p = None → cs p = None) →
  (pos (add_dynamics p d) = None → cs (add_dynamics p d) = None)
  ∧ place (add_dynamics p d) = match place p, position_of d with
      | Some (c, v), Some v' => if is_wgs (d_cs d) && negb (is_wgs c) then Some (d_cs d, v') else Some (c, v)
      | None, Some v' => Some (d_cs d, v')
      | x, None => x
      end.
Proof.
  intros Hn. unfold add_dynamics, place, position_of.
  destruct (text_of (d_pos d) ≫= parse_floats) as [v|]; destruct (text_of (d_vel d) ≫= parse_floats) as [vv|]; unfold point_vel; cbn [cs pos].
  all: try (unfold point_pos, prefer_wgs; destruct (pos p) as [v0|]; cbn; [|done]; by destruct (is_wgs (d_cs d)), (is_wgs (cs p))).
  all: by destruct (pos p).
Qed.

Lemma first_wgs_cons d ds :
  first_wgs (d :: ds) = if is_wgs (d_cs d) then match position_of d with Some v => Some (d_cs d, v) | None => first_wgs ds end else first_wgs ds.
Proof. unfold first_wgs, first_position. rewrite filter_cons. case_decide as Hd; [rewrite Hd|by destruct (is_wgs (d_cs d))]. cbn. by destruct (position_of d). Qed.

Lemma place_fold ds : ∀ p, (pos p = None → cs p = None) →
  place (fold_left add_dynamics ds p) = match place p with
    | Some (c, v) => if is_wgs c then Some (c, v) else match first_wgs ds with Some x => Some x | None => Some (c, v) end
    | None => chosen ds
    end.
Proof.
  induction ds as [|d ds IH]; intros p Hp; cbn [fold_left].
  - destruct (place p) as [[c v]|]; [by destruct (is_wgs c)|done].
  - destruct (place_add p d Hp) as [Hp' Hpl]. rewrite IH by done. rewrite Hpl. unfold chosen. rewrite first_wgs_cons. unfold first_position. cbn [omap list_omap].
    destruct (place p) as [[c v]|], (position_of d) as [v'|]; cbn; try done.
    + destruct (is_wgs c) eqn:Hc; rewrite ?andb_false_r, ?andb_true_r; [by rewrite Hc|]. cbn.
      destruct (is_wgs (d_cs d)) eqn:Hd; by rewrite ?Hd, ?Hc.
    + destruct (is_wgs c); [done|]. by destruct (is_wgs (d_cs d)).
    + by destruct (is_wgs (d_cs d)).
    + by destruct (is_wgs (d_cs d)).
Qed.

Lemma vel_add p d : (velocity_of d ≠ None → position_of d ≠ None) →
  vel (add_dynamics p d) = match vel p with Some v => Some v | None => velocity_of d end.
Proof.
  intros Hd. unfold velocity_of, position_of, add_dynamics in *.
  assert (∀ q dcs v, vel (point_pos dcs v q) = vel q) as Hpos by (intros; unfold point_pos; by destruct (prefer_wgs _ _ _ _)).
  destruct (text_of (d_pos d) ≫= parse_floats) as [v|].
  - destruct (text_of (d_vel d) ≫= parse_floats) as [w|]; rewrite ?Hpos; [|by destruct (vel p)].
    unfold point_vel. cbn [vel]. rewrite Hpos. unfold prefer_wgs. destruct (vel p) as [u|] eqn:Hu; [|done]. cbn [orb].
    unfold point_pos, prefer_wgs. destruct (pos p); cbn; destruct (is_wgs (d_cs d)) eqn:E1, (is_wgs (cs p)) eqn:E2; cbn; rewrite ?E1, ?E2; done.
  - destruct (text_of (d_vel d) ≫= parse_floats) as [w|]; [by destruct Hd|by destruct (vel p)].
Qed.

Lemma vel_fold ds : Forall (λ d, velocity_of d ≠ None → position_of d ≠ None) ds → ∀ p,
  vel (fold_left add_dynamics ds p) = match vel p with Some v => Some v | None => head (omap velocity_of ds) end.
Proof.
  induction 1 as [|d ds Hd Hds IH]; intros p; cbn [fold_left]; [by destruct (vel p)|]. rewrite IH, vel_add by done.
  destruct (vel p); [done|]. cbn [omap list_omap]. by destruct (velocity_of d).
Qed.

(** of a point given in several coordinate systems the position read is the first
    in WGS-84, and the first of all where there is none, with its system; but the
    velocity is the first of all, whatever its system. *)
Theorem wgs_preferred status p :
  place (point_ctx status p) = chosen (k_dyns p)
  ∧ (Forall (λ d, velocity_of d ≠ None → position_of d ≠ None) (k_dyns p) → vel (point_ctx status p) = head (omap velocity_of (k_dyns p))).
Proof. split; [|intros Hd]; unfold point_ctx; [by rewrite place_fold|by rewrite vel_fold]. Qed.

Definition ex_ecef : Point := mkPoint None None
  [mkDynamics (Some "ECEF"%string) (Some (s2b "4000000 3000000 5000000")) (Some (s2b "100 0 0"));
   mkDynamics (Some "WGS_84"%string) (Some (s2b "26.3 50.6 3000")) (Some (s2b "0.0 0.0009 5.0"))].

Lemma wgs_preferred_witness :
  place (point_ctx None ex_ecef) = chosen (k_dyns ex_ecef)
  ∧ (Forall (λ d, velocity_of d ≠ None → position_of d ≠ None) (k_dyns ex_ecef) → vel (point_ctx None ex_ecef) = head (omap velocity_of (k_dyns ex_ecef))).
Proof. apply wgs_preferred. Defined.

(** The place of the WGS-84 report goes with the velocity of the other: a hundred
    metres a second towards the Greenwich meridian becomes a hundred degrees a
    second to the north. *)
Example velocity_of_another_system :
  place (point_ctx None ex_ecef) = pair (Some "WGS_84"%string) <$> parse_floats (s2b "26.3 50.6 3000")
  ∧ vel (point_ctx None ex_ecef) = parse_floats (s2b "100 0 0").
Proof. split; vm_compute; reflexivity. Qed.

(** ** The walk reads the tree *)

Section read.
Context `{Trig} `{TimeCrate}.
Variables (ont : Ontology) (envs : Envs) (self : S4676Parser) (native : bytes).

(** From the start of an element to its end. *)
Definition span (c : list Pulled) : Z * Z := (default 0 (before <$> head c), default 0 (after <$> last c)).

(** A message's events: every track's, in order, under the message's own facts. *)
Fixpoint flush_all (m : MessageCtx) (l : list (list Pulled * Track)) (out : list Event) : res S4676Error (list Event) :=
  match l with
  | [] => Ok out
  | (c, t) :: l =>
      let '(from, to) := span c in
      out ← flush_track ont envs self (track_ctx from t) (default native (get_range native from to)) m out;
      flush_all m l out
  end.

Section named.
Variable qn : string → string.
Hypothesis local_qn : ∀ n, local (qn n) = n.

Lemma quiet_elem n attrs body : String.eqb n "track" = false → forallb quiet body = true → forallb quiet (elem qn n attrs body) = true.
Proof. intros Hn Hb. unfold elem. cbn [forallb quiet]. rewrite forallb_app, Hb. cbn [forallb quiet]. by rewrite local_qn, Hn. Qed.
Lemma quiet_leaf n o : String.eqb n "track" = false → forallb quiet (leaf qn n o) = true.
Proof. intros Hn. destruct o; [by apply quiet_elem|done]. Qed.
Lemma quiet_concat {A} (f : A → list XmlItem) l : (∀ x, forallb quiet (f x) = true) → forallb quiet (concat (f <$> l)) = true.
Proof. intros Hf. induction l as [|x l IH]; [done|]. cbn [fmap list_fmap concat]. by rewrite forallb_app, Hf. Qed.

Ltac quiet_tac := repeat first
  [ done | rewrite forallb_app; apply andb_true_intro; split | apply quiet_elem; [done|] | apply quiet_leaf; done
  | apply quiet_concat; intros ? | progress unfold track_body, segment_items, point_items, dynamics_items, object_items
  | cbn [forallb quiet]; rewrite local_qn ].

Lemma quiet_head m : forallb quiet (head_items qn m) = true.
Proof. unfold head_items. quiet_tac. Qed.
Lemma quiet_track t : forallb quiet (track_body qn t) = true.
Proof. quiet_tac. Qed.

Lemma walk_track c t m es S : item <$> c = track_items qn t →
  walk ont envs self native c (mkLoop S (mkWalk m no_track None no_point None) es)
  = (out ← flush_track ont envs self (track_ctx (span c).1 t) (default native (get_range native (span c).1 (span c).2)) m es;
     Ok (mkLoop S (mkWalk m no_track None no_point None) out)).
Proof.
  unfold track_items, elem. destruct c as [|p c]; [done|]. cbn [fmap list_fmap]. intros [= Hp Hc].
  apply fmap_app_inv in Hc as (b & q & Hb & Hq & ->). destruct q as [|z [|? ?]]; [done| |done]. injection Hq as Hz.
  assert (span (p :: b ++ [z]) = (before p, after z)) as -> by (unfold span; by rewrite app_comm_cons, last_snoc).
  cbn [fst snd walk]. unfold walk_item at 1. rewrite Hp. unfold open_tag. rewrite local_qn. cbn [String.eqb Ascii.eqb Bool.eqb stack w events mbind res_bind].
  rewrite walk_app, walk_quiet by (rewrite <- Hb; apply quiet_track). rewrite <- Hb.
  cbn [mbind res_bind]. unfold with_track. cbn [msg track seg_status tp dynamics_cs]. rewrite (steps_track_body _ _ _ _ local_qn).
  cbn [walk]. unfold walk_item. rewrite <- Hz. unfold close_tag. rewrite local_qn. cbn [String.eqb Ascii.eqb Bool.eqb stack w events track msg start track_ctx tail].
  by destruct (flush_track _ _ _ _ _ _ _).
Qed.

Lemma walk_tracks m S : ∀ chunks tracks es, Forall2 (λ c t, item <$> c = track_items qn t) chunks tracks →
  walk ont envs self native (concat chunks) (mkLoop S (mkWalk m no_track None no_point None) es)
  = (out ← flush_all m (zip chunks tracks) es; Ok (mkLoop S (mkWalk m no_track None no_point None) out)).
Proof.
  intros chunks tracks es Hct. revert es. induction Hct as [|c t cs ts Hc Hct IH]; intros es; [done|].
  cbn [concat zip zip_with flush_all]. rewrite walk_app, (walk_track c t) by done. destruct (span c) as [from to]. cbn [fst snd].
  destruct (flush_track _ _ _ _ _ _ _); [|done..]. cbn. apply IH.
Qed.
End named.
End read.

(** C17: read as a stream, with one element at a time in hand, a message yields what it
    means as a tree: every track's events in order, each point with its own segment's
    status and its own dynamics, the identity that follows the points in the document,
    the message's label and times, and the bytes of its own track element; whatever
    prefixes the names carry and whatever layout stands between them. *)
Theorem walk_message `{Trig} `{TimeCrate} ont pull envs self native qn m pre chunks post :
  (∀ n, local (qn n) = n) → failed (pull native) = None →
  filter (λ p, blank (item p) = false) (items (pull native)) = pre ++ concat chunks ++ post →
  item <$> pre = head_items qn m → Forall2 (λ c t, item <$> c = track_items qn t) chunks (m_tracks m) → item <$> post = tail_items qn →
  to_events ont pull envs self native = flush_all ont envs self native (message_ctx m) (zip chunks (m_tracks m)) [].
Proof.
  intros Hq Hf Hitems Hpre Hct Hpost. unfold to_events. rewrite walk_layout, Hitems, walk_app, walk_quiet by (rewrite Hpre; by apply quiet_head).
  rewrite Hpre. cbn [mbind res_bind]. rewrite (steps_head _ _ _ _ Hq), walk_app, (walk_tracks _ _ _ _ qn Hq _ _ _ _ _ Hct), Hf.
  destruct (flush_all _ _ _ _ _ _ _) as [es| | |]; [|done..]. cbn [mbind res_bind].
  rewrite walk_quiet by (rewrite Hpost; unfold tail_items; cbn; by rewrite !Hq). rewrite Hpost. cbn [mbind res_bind steps fold_left tail_items].
  by rewrite !(step_close _ _ _ _ Hq) by done.
Qed.

(** * Witnesses *)

#[local] Instance ex_trig : Trig := {|
  sin := λ x, x; cos := λ x, x; asin := λ x, x; atan2 := λ x _, x; hypot := λ x _, x
|}.
(** A clock of one base time and whole seconds after it. *)
#[local] Instance ex_time : TimeCrate := {|
  OffsetDateTime := Z; Duration := Z;
  rfc3339_parse := λ s, if String.eqb s "2026-08-06T12:00:00.000Z" then Some 0 else None;
  rfc3339_format := λ z, if z =? 0 then Some "2026-08-06T12:00:00Z"%string else if z =? 1 then Some "2026-08-06T12:00:01Z"%string else None;
  checked_seconds_f64 := λ s, if f_ltb s (f_ratio 1 2) then Some 0 else Some 1;
  checked_add := λ a b, Some (a + b)
|}.

Lemma local_prefix n : local ("ns2:" ++ n) = n.
Proof.
  unfold local. rewrite s2b_app. change (s2b "ns2:" ++ s2b n) with (110 :: 115 :: 50 :: 58 :: s2b n). cbn -[s2b]. apply b2s_s2b.
Qed.

(** Two points a second apart, of a friend in the air. *)
Definition ex_air : Message :=
  mkMessage (Some (s2b "TEST")) (Some (s2b "NATO UNCLASSIFIED")) (Some (s2b "B.1")) (Some (s2b "2026-08-06T12:00:00.000Z")) (Some (s2b "0.001"))
    [mkTrack (Some (s2b "DFjLwA22RXiKSAWh2eBOGQ==")) [mkSegment None (Some (s2b "MAINTAINING"))
       [mkPoint None (Some (s2b "0")) [mkDynamics (Some "WGS_84"%string) (Some (s2b "26.30000 50.60000 3000.0")) (Some (s2b "0.0 0.0009 5.0"))];
        mkPoint None (Some (s2b "1000")) [mkDynamics (Some "WGS_84"%string) (Some (s2b "26.30100 50.60000 3005.0")) None]]]
      (Some (s2b "FRIEND")) (Some (s2b "AIR")) None].

Definition ex_prefix (n : string) : string := ("ns2:" ++ n)%string.
Definition ex_pulled (from : Z) (l : list XmlItem) : list Pulled := imap (λ k i, mkPulled (from + Z.of_nat k) (from + Z.of_nat k + 1) i) l.
Definition ex_pre : list Pulled := ex_pulled 0 (head_items ex_prefix ex_air).
Definition ex_chunks : list (list Pulled) := (λ t, ex_pulled 30 (track_items ex_prefix t)) <$> m_tracks ex_air.
Definition ex_post : list Pulled := ex_pulled 80 (tail_items ex_prefix).
Definition ex_items : list Pulled := [mkPulled 0 0 XOther; mkPulled 0 0 (XText [10])] ++ ex_pre ++ [mkPulled 20 22 (XText [32; 32])] ++ concat ex_chunks ++ ex_post.
Definition ex_native : bytes := seqZ 0 100.
Definition ex_self : S4676Parser := mkS4676Parser "isr-1" ∅ (mkEnrichment None).
Definition ex_envs : Envs := λ k, mkEnv (b2s [97 + Z.of_nat k]) "" 0.
Definition ex_4676_pull (_ : bytes) : Document := mkDocument ex_items None.

Lemma walk_message_witness :
  to_events ex_ontology ex_4676_pull ex_envs ex_self ex_native = flush_all ex_ontology ex_envs ex_self ex_native (message_ctx ex_air) (zip ex_chunks (m_tracks ex_air)) [].
Proof.
  apply (walk_message ex_ontology ex_4676_pull ex_envs ex_self ex_native ex_prefix ex_air ex_pre ex_chunks ex_post); try (vm_compute; reflexivity).
  - exact local_prefix.
  - constructor; [vm_compute; reflexivity|constructor].
Defined.

(** The events: the second point's later by the relative time, the payload the bytes
    of the track, the label as policy tags. *)
Definition ex_facts (e : Event) : string * list string * bool := (ev_timestamp e, ev_policy_tags e, bool_decide (ev_payload e = seqZ 30 (zlen (concat ex_chunks)))).
Example ex_air_events :
  match to_events ex_ontology ex_4676_pull ex_envs ex_self ex_native with Ok es => ex_facts <$> es | _ => [] end
  = [("2026-08-06T12:00:00Z", ["class:unclassified"; "policy:TEST"], true); ("2026-08-06T12:00:01Z", ["class:unclassified"; "policy:TEST"], true)]%string.
Proof. vm_compute. reflexivity. Qed.
