(* ===== verification/Connectors.v ===== *)
(** The connectors under the runtime: each parser that needs no assumption about
    its input (all but the AIS one, which a sentence that is not ASCII can stop), the state its binary starts it in (each connector's main.rs), and
    what the run loop then guarantees (rust/connectors/common/src/runtime.rs). *)
From Stdlib Require Import ZArith Lia.
From Stdlib Require Import Strings.String.
From S2P Require Klv Mavlink Adsb Gmti S4586 Asterix Sapient Generic Cot S4676.
From S2P Require Import Runtime.

Local Open Scope Z_scope.

Inductive Connector := KLV | MAVLINK | ADSB | GMTI | STANAG4586 | ASTERIX | SAPIENT | GENERIC | TAKCOT | STANAG4676.

(** What the connectors take from other crates: time, protobuf, JSON and XML; and
    from the standard library the lower case of a text and the order of a map. *)
Record Crates := mkCrates {
  rfc3339_of_nanos : Z → option string;
  rfc3339 : SapientMsg.Timestamp → option string;
  decode : bytes → option SapientMsg.SapientMessage;
  from_str : bytes → option Json.Value;
  to_string : Json.Value → string;
  pull : bytes → Xml.Document;
  to_lowercase : string → string;
  any_key : gmap string Sapient.Node → option string
}.

Section connectors.
Context `{T : Trig} `{X : S4676.TimeCrate} `{C : Ed25519}.
Variable marking : option Marking.Marking.
Variable signing_key : skey.
Variable canonical_bytes : Event → bytes.
Variable ont : Ontology.
Variable k : Crates.

Definition parser_of (c : Connector) : FrameParser :=
  match c with
  | KLV => Klv.klv_parser (rfc3339_of_nanos k)
  | MAVLINK => Mavlink.mav_parser
  | ADSB => Adsb.adsb_parser
  | GMTI => Gmti.gmti_parser
  | STANAG4586 => S4586.s4586_parser atan2 hypot (rfc3339_of_nanos k)
  | ASTERIX => Asterix.asterix_parser ont
  | SAPIENT => Sapient.sapient_parser ont (decode k) (rfc3339 k) (to_lowercase k) (any_key k)
  | GENERIC => Generic.generic_parser (from_str k) (to_string k) (rfc3339_of_nanos k)
  | TAKCOT => Cot.cot_parser (pull k)
  | STANAG4676 => S4676.s4676_parser ont (pull k)
  end.

(** What a connector's own configuration adds. *)
Record Settings := mkSettings {
  sensor : option AstWire.Sensor;
  types : Sapient.Types;
  entity_map : list (string * string);
  mapping : Generic.Mapping
}.

(** [cfg.entity_map], which is a [HashMap]. *)
Definition overrides (st : Settings) : gmap string string := list_to_map (entity_map st).

(** The parser each binary builds from its configuration, unless it refuses to
    start. *)
Definition initial (c : Connector) (src : string) (en : Enrichment) (st : Settings) : option (fp_state (FrameParser := parser_of c)) :=
  match c with
  | KLV => Some (Klv.mkKlvParser src en)
  | MAVLINK => Some (Mavlink.mav_new src en)
  | ADSB => Some (Adsb.adsb_new src en)
  | GMTI => Some (Gmti.mkGmti src en)
  | STANAG4586 => Some (S4586.with_entity_type (S4586.s4586_new src en) (overrides st !! "default"%string))
  | ASTERIX =>
      match Asterix.with_entity_map ont (Asterix.with_sensor (Asterix.asterix_new src en) (sensor st)) (overrides st) with
      | Ok s => Some s
      | _ => None
      end
  | SAPIENT => Sapient.with_entity_map (to_lowercase k) (Sapient.with_types (Sapient.sapient_new src en) (types st)) (entity_map st)
  | GENERIC => Some (Generic.mkGeneric src (mapping st) en)
  | TAKCOT => Some (Cot.cot_new src (overrides st) en)
  | STANAG4676 => Some (S4676.s4676_new src (overrides st) en)
  end.

#[export] Instance laws_of c : FrameParserLaws (parser_of c).
Proof.
  destruct c; [apply Klv.klv_laws|apply Mavlink.mav_laws|apply Adsb.adsb_laws|apply Gmti.gmti_laws
    |apply S4586.s4586_laws|apply Asterix.asterix_laws|apply Sapient.sapient_laws|apply Generic.generic_laws|apply Cot.cot_laws|apply S4676.s4676_laws].
Defined.

Lemma initial_inv c src en st s : initial c src en st = Some s → fp_inv s.
Proof. destruct c; try done; intros [= <-]; [apply Mavlink.mav_new_ok|apply Adsb.adsb_new_ok]. Qed.

(** C37: every one of these connectors, started as its binary starts it, keeps
    running: however its frames and the turns of its drain interleave, the next
    frame, whatever its bytes, is parsed to the end without a panic, and yields a
    world to go on from and canonical events only. *)
Theorem connectors_run c src en st w t w' :
  initial c src en st = Some (parser w) →
  steps (P := parser_of c) marking signing_key canonical_bytes ont w t w' →
  ∀ envs frame, bytes_ok frame →
  ∃ w2 t2, handle_frame (P := parser_of c) envs frame w' = Ok (w2, t2) ∧ Forall Canonical (parsed t2).
Proof.
  intros Hw Hs envs frame Hb. eapply (keeps_running (P := parser_of c)); [|exact Hs|done].
  by eapply initial_inv.
Qed.
End connectors.

(** * Witnesses *)

Definition ex_sensor : AstWire.Sensor := AstWire.mkSensor f_zero f_zero f_zero.
Definition ex_conn_rfc (n : Z) : option string := Some "1970-01-01T00:00:00Z"%string.
#[local] Existing Instance Asterix.ex_trig.

Definition ex_settings : Settings := mkSettings (Some ex_sensor) Sapient.default_types [] Generic.ex_mapping.

#[local] Existing Instance S4676.ex_time.
Definition ex_crates : Crates :=
  mkCrates ex_conn_rfc (λ _, None) (λ _, None) (λ _, None) (λ _, ""%string) (λ _, Xml.mkDocument [] None) (λ s, s) (λ _, None).
Abbreviation ex_parser_of := (parser_of ex_ontology ex_crates).

Definition ex_conn_w : World (P := ex_parser_of ASTERIX) :=
  mkWorld (P := ex_parser_of ASTERIX) (Asterix.with_sensor (Asterix.asterix_new "radar-1" (mkEnrichment None)) (Some ex_sensor))
    (mkMetrics 0 0 0 0 0 0 0 0 0 0) None ∅ [] true None.

Lemma connectors_run_witness :
  ∃ w2 t2, handle_frame (P := ex_parser_of ASTERIX) ex_envs [48; 0; 9; 255; 255; 255; 255; 255; 255] ex_conn_w
    = Ok (w2, t2) ∧ Forall Canonical (parsed t2).
Proof.
  apply (connectors_run (C := toy) None (5 : @skey toy) ev_payload ex_ontology ex_crates ASTERIX "radar-1" (mkEnrichment None) ex_settings ex_conn_w [] ex_conn_w); [reflexivity|apply steps_refl|by apply bytes_okb_ok].
Defined.
