(* ===== verification/Scenario.v ===== *)
(** The fixture of the synthetic feed (rust/connectors/feed-synthetic/src/scenario.rs):
    where each object is at a time. libm's functions are parameters. *)
From Stdlib Require Import ZArith Lia.
From Stdlib Require Import Strings.String.
From S2P Require Export F64.

Local Open Scope Z_scope.

(** The casts of a double to an integer type: truncated, saturated. *)
Definition as_i16 (x : f64) : Z := f_to_Z (- 2 ^ 15) (2 ^ 15 - 1) x.
Definition as_i32 (x : f64) : Z := f_to_Z (- 2 ^ 31) (2 ^ 31 - 1) x.
Definition as_i64 (x : f64) : Z := f_to_Z (- 2 ^ 63) (2 ^ 63 - 1) x.
Definition as_u16 (x : f64) : Z := f_to_Z 0 (2 ^ 16 - 1) x.
Definition as_u32 (x : f64) : Z := f_to_Z 0 (2 ^ 32 - 1) x.
Definition as_u64 (x : f64) : Z := f_to_Z 0 (2 ^ 64 - 1) x.

(** @src rust/connectors/feed-synthetic/src/scenario.rs 8-13 Fix *)
Record Fix := mkFix { fix_lat : f64; fix_lon : f64 }.

(** A decimal literal of the source. *)
Local Notation "n # d" := (f_ratio n d) (at level 40).

(** @src rust/connectors/feed-synthetic/src/scenario.rs 15-20 RADAR *)
Definition RADAR : Fix := mkFix (507900 # 10000) ((-11000) # 10000).
(** @src rust/connectors/feed-synthetic/src/scenario.rs 21-22 RADAR_ALT_M *)
Definition RADAR_ALT_M : f64 := f_of_Z 30.
(** @src rust/connectors/feed-synthetic/src/scenario.rs 23-24 RADAR_SAC *)
Definition RADAR_SAC : Z := 25.
(** @src rust/connectors/feed-synthetic/src/scenario.rs 25-25 RADAR_SIC *)
Definition RADAR_SIC : Z := 10.
(** @src rust/connectors/feed-synthetic/src/scenario.rs 26-26 RADAR_SCAN_PERIOD_S *)
Definition RADAR_SCAN_PERIOD_S : f64 := 5 # 2.
(** @src rust/connectors/feed-synthetic/src/scenario.rs 27-29 RADAR_WINDOW *)
Definition RADAR_WINDOW : f64 * f64 * f64 * f64 := (1 # 2, f_of_Z 12, f_of_Z 90, f_of_Z 270).

(** @src rust/connectors/feed-synthetic/src/scenario.rs 31-40 Sensor *)
Inductive Sensor := SAis | SAdsb | SAsterix | SMavlink | SCot | SEsm | SSapient.

(** @src rust/connectors/feed-synthetic/src/scenario.rs 43-55 Sensor::latency_s *)
Definition latency_s (s : Sensor) : f64 :=
  match s with
  | SMavlink => 2 # 10 | SSapient => 3 # 10 | SAdsb => 5 # 10 | SAsterix => f_of_Z 1
  | SEsm => 15 # 10 | SCot => f_of_Z 3 | SAis => f_of_Z 4
  end.

(** @src rust/connectors/feed-synthetic/src/scenario.rs 57-67 Sensor::period_s *)
Definition period_s (s : Sensor) : f64 :=
  match s with
  | SMavlink | SSapient | SAdsb => f_of_Z 1
  | SAsterix => RADAR_SCAN_PERIOD_S
  | SEsm | SAis => f_of_Z 2
  | SCot => f_of_Z 5
  end.

(** @src rust/connectors/feed-synthetic/src/scenario.rs 74-85 Sensor::name *)
Definition sensor_name (s : Sensor) : string :=
  match s with
  | SAis => "ais" | SAdsb => "adsb" | SAsterix => "asterix" | SMavlink => "mavlink" | SCot => "cot" | SEsm => "esm" | SSapient => "sapient"
  end.

(** @src rust/connectors/feed-synthetic/src/scenario.rs 98-98 M_PER_DEG_LAT *)
Definition M_PER_DEG_LAT : f64 := f_of_Z 111320.
(** @src rust/connectors/feed-synthetic/src/scenario.rs 101-101 FT_PER_M *)
Definition FT_PER_M : f64 := f_div (f_of_Z 1) (3048 # 10000).
(** @src rust/connectors/feed-synthetic/src/scenario.rs 102-102 MPS_TO_KN *)
Definition MPS_TO_KN : f64 := f_div (f_of_Z 1) (514444 # 1000000).
(** @src rust/connectors/feed-synthetic/src/scenario.rs 103-103 FTMIN_PER_MPS *)
Definition FTMIN_PER_MPS : f64 := f_mul FT_PER_M (f_of_Z 60).

(** @src rust/connectors/feed-synthetic/src/scenario.rs 131-136 VesselState *)
Record VesselState := mkVesselState { v_fix : Fix; v_course_deg : f64; v_speed_mps : f64 }.
(** @src rust/connectors/feed-synthetic/src/scenario.rs 175-182 AircraftState *)
Record AircraftState := mkAircraftState { a_fix : Fix; a_course_deg : f64; a_speed_mps : f64; a_alt_m : f64; a_vertical_rate_mps : f64 }.
(** @src rust/connectors/feed-synthetic/src/scenario.rs 224-230 UavState *)
Record UavState := mkUavState { u_fix : Fix; u_alt_m : f64; u_heading_deg : f64; u_speed_mps : f64 }.
(** @src rust/connectors/feed-synthetic/src/scenario.rs 285-293 EmitterState *)
Record EmitterState := mkEmitterState { e_fix : Fix; e_bearing_deg : f64; e_power_dbm : f64 }.

Section libm.
Variables sin cos log10 : f64 → f64.
Variables atan2 hypot : f64 → f64 → f64.

(** @src rust/connectors/feed-synthetic/src/scenario.rs 88-96 step *)
Definition step (from : Fix) (course_deg speed_mps secs : f64) : Fix :=
  let d := f_mul speed_mps secs in
  let s := sin (to_radians course_deg) in
  let c := cos (to_radians course_deg) in
  mkFix (f_add (fix_lat from) (f_div (f_mul d c) M_PER_DEG_LAT))
        (f_add (fix_lon from) (f_div (f_mul d s) (f_mul M_PER_DEG_LAT (cos (to_radians (fix_lat from)))))).

(** @src rust/connectors/feed-synthetic/src/scenario.rs 105-116 racetrack *)
Definition racetrack (start : Fix) (course_deg speed_mps leg_s secs : f64) : Fix * f64 :=
  let t := rem_euclid secs (f_mul (f_of_Z 2) leg_s) in
  let far := step start course_deg speed_mps leg_s in
  if f_ltb t leg_s then (step start course_deg speed_mps t, course_deg)
  else
    let back := f_rem (f_add course_deg (f_of_Z 180)) (f_of_Z 360) in
    (step far back speed_mps (f_sub t leg_s), back).

(** @src rust/connectors/feed-synthetic/src/scenario.rs 118-125 bearing_range *)
Definition bearing_range (from to : Fix) : f64 * f64 :=
  let dn := f_mul (f_sub (fix_lat to) (fix_lat from)) M_PER_DEG_LAT in
  let de := f_mul (f_mul (f_sub (fix_lon to) (fix_lon from)) M_PER_DEG_LAT) (cos (to_radians (fix_lat from))) in
  (f_rem (f_add (to_degrees (atan2 de dn)) (f_of_Z 360)) (f_of_Z 360), hypot dn de).

(** @src rust/connectors/feed-synthetic/src/scenario.rs 138-169 Vessel::at *)
Definition vessel_at (secs : f64) : VesselState :=
  let speed := f_of_Z 8 in
  let '(fix_, course) := racetrack (mkFix (507700 # 10000) ((-11300) # 10000)) (f_of_Z 118) speed (f_of_Z 900) secs in
  mkVesselState fix_ course speed.

(** @src rust/connectors/feed-synthetic/src/scenario.rs 184-218 Aircraft::at *)
Definition aircraft_at (secs : f64) : AircraftState :=
  let speed := 2315 # 10 in
  let '(fix_, course) := racetrack (mkFix (509300 # 10000) ((-5000) # 10000)) (f_of_Z 271) speed (f_of_Z 240) secs in
  mkAircraftState fix_ course speed (f_of_Z 10668) ((-254) # 100).

Definition TAU : f64 := f_mul (f_of_Z 2) PI.

(** @src rust/connectors/feed-synthetic/src/scenario.rs 232-263 Uav::at *)
Definition uav_at (secs : f64) : UavState :=
  let radius := f_of_Z 900 in
  let period := f_of_Z 240 in
  let centre := mkFix (507950 # 10000) ((-11050) # 10000) in
  let ang := f_div (f_mul TAU (f_rem secs period)) period in
  mkUavState
    (mkFix (f_add (fix_lat centre) (f_div (f_mul radius (cos ang)) M_PER_DEG_LAT))
           (f_add (fix_lon centre) (f_div (f_mul radius (sin ang)) (f_mul M_PER_DEG_LAT (cos (to_radians (fix_lat centre)))))))
    (f_of_Z 120) (f_rem (f_add (to_degrees ang) (f_of_Z 90)) (f_of_Z 360)) (f_div (f_mul TAU radius) period).

(** @src rust/connectors/feed-synthetic/src/scenario.rs 295-321 Emitter::at *)
Definition emitter_at (secs : f64) : EmitterState :=
  let v := vessel_at secs in
  let '(bearing, range_m) := bearing_range RADAR (v_fix v) in
  mkEmitterState (v_fix v) bearing
    (f_add (f_sub ((-472) # 10) (f_mul (f_of_Z 20) (log10 (f_div range_m (f_of_Z 5000)))))
           (f_mul (15 # 10) (sin (f_div secs (f_of_Z 7))))).
End libm.

(** @src rust/connectors/feed-synthetic/src/scenario.rs 332-342 seconds_since_midnight *)
Definition seconds_since_midnight (h m s ms : Z) : f64 :=
  f_add (f_add (f_add (f_mul (f_of_Z h) (f_of_Z 3600)) (f_mul (f_of_Z m) (f_of_Z 60))) (f_of_Z s)) (f_div (f_of_Z ms) (f_of_Z 1000)).
