(* ===== verification/FeedAis.v ===== *)
(** The AIS side of the synthetic feed (rust/connectors/feed-synthetic/src/ais.rs),
    against the parser that reads it. *)
From Stdlib Require Import ZArith Lia.
From Stdlib Require Import Strings.String.
From S2P Require Export Ais Scenario.

Local Open Scope Z_scope.

(** * The generator *)

(** @src rust/connectors/feed-synthetic/src/ais.rs 9-17 armour *)
Definition armour (six : Z) : Z := let v := six + 48 in if 87 <? v then v + 8 else v.

(** A payload as it is written: its bits. *)
(** @src rust/connectors/feed-synthetic/src/ais.rs 19-23 Bits *)
Definition BitsW : Type := list bool.

(** @src rust/connectors/feed-synthetic/src/ais.rs 26-31 Bits::u *)
Fixpoint put_u (value : Z) (width : nat) : BitsW :=
  match width with
  | O => []
  | S i => (Z.land (Z.shiftr value (Z.of_nat i)) 1 =? 1) :: put_u value i
  end.

(** @src rust/connectors/feed-synthetic/src/ais.rs 33-35 Bits::i *)
Definition put_i (value : Z) (width : nat) : BitsW := put_u (Z.land (wrap 64 value) (Z.shiftl 1 (Z.of_nat width) - 1)) width.

(** @src rust/connectors/feed-synthetic/src/ais.rs 37-51 Bits::text *)
Fixpoint put_text (s : bytes) (chars : nat) : BitsW :=
  match chars with
  | O => []
  | S n =>
      let c := to_upper (default 32 (head s)) in
      let six := if (64 <=? c) && (c <=? 95) then c - 64 else if (32 <=? c) && (c <=? 63) then c else 32 in
      put_u six 6 ++ put_text (tail s) n
  end.

(** The six bits from [i] on, those past the end zero. *)
Definition six_at (bits : BitsW) : Z :=
  fold_left (λ six k, Z.lor (wrap 8 (Z.shiftl six 1)) (Z.b2z (default false (bits !! k)))) (seq 0 6) 0.

Fixpoint six_all (fuel : nat) (bits : BitsW) : list Z :=
  match fuel, bits with
  | S fuel, _ :: _ => six_at bits :: six_all fuel (drop 6 bits)
  | _, _ => []
  end.

(** @src rust/connectors/feed-synthetic/src/ais.rs 53-70 Bits::armoured *)
Definition armoured (bits : BitsW) : bytes * Z :=
  let fill := (6 - zlen bits mod 6) mod 6 in
  (armour <$> six_all (length bits) bits, fill).

(** [{:02X}]. *)
Definition upper_digit (n : Z) : Z := if n <? 10 then 48 + n else 55 + n.
Definition hex2_upper (b : Z) : bytes := [upper_digit (b / 16); upper_digit (b mod 16)].

(** @src rust/connectors/feed-synthetic/src/ais.rs 73-78 sentence *)
Definition sentence (body : bytes) : bytes := s2b "!" ++ body ++ s2b "*" ++ hex2_upper (xor_all body) ++ [13; 10].

Definition MAX_CHARS : nat := 56.

Fixpoint chunks (fuel : nat) (l : bytes) : list bytes :=
  match fuel, l with
  | S fuel, _ :: _ => take MAX_CHARS l :: chunks fuel (drop MAX_CHARS l)
  | _, _ => []
  end.

(** @src rust/connectors/feed-synthetic/src/ais.rs 80-109 sentences *)
Definition sentences (payload : bytes) (fill seq : Z) (channel : Z) : list bytes :=
  let cs := chunks (length payload) payload in
  let total := zlen cs in
  imap (λ i chunk,
    let seq_field := if 1 <? total then show_bytes seq else [] in
    let f := if Z.of_nat i + 1 =? total then fill else 0 in
    sentence (s2b "AIVDM," ++ show_bytes total ++ s2b "," ++ show_bytes (Z.of_nat i + 1) ++ s2b "," ++ seq_field ++ s2b "," ++ [channel] ++ s2b "," ++ chunk ++ s2b "," ++ show_bytes f)) cs.

Definition MMSI : Z := 235009870.
Definition NAV_STATUS : Z := 0.
Definition SHIP_TYPE : Z := 70.


(** The fields of a position report in wire order. *)
Definition report_sog (v : VesselState) : Z := as_u64 (f_round (f_mul (f_mul (v_speed_mps v) MPS_TO_KN) (f_of_Z 10))).
Definition report_lon (v : VesselState) : Z := as_i64 (f_round (f_mul (fix_lon (v_fix v)) (f_of_Z 600000))).
Definition report_lat (v : VesselState) : Z := as_i64 (f_round (f_mul (fix_lat (v_fix v)) (f_of_Z 600000))).
Definition report_cog (v : VesselState) : Z := as_u64 (f_round (f_mul (v_course_deg v) (f_of_Z 10))).
Definition report_heading (v : VesselState) : Z := as_u64 (f_round (v_course_deg v)) mod 360.

Definition report_parts (v : VesselState) (timestamp_s : Z) : list BitsW :=
  [put_u 1 6; put_u 0 2; put_u MMSI 30; put_u NAV_STATUS 4; put_i 0 8; put_u (report_sog v) 10; put_u 1 1;
   put_i (report_lon v) 28; put_i (report_lat v) 27; put_u (report_cog v) 12; put_u (report_heading v) 9;
   put_u (timestamp_s mod 60) 6; put_u 0 2; put_u 0 3; put_u 0 1; put_u 0 19].

(** @src rust/connectors/feed-synthetic/src/ais.rs 111-132 position_report *)
Definition position_report (v : VesselState) (timestamp_s : Z) : bytes :=
  let '(payload, fill) := armoured (concat (report_parts v timestamp_s)) in
  concat (sentences payload fill 0 65).

Definition static_bits : BitsW :=
  concat [put_u 5 6; put_u 0 2; put_u MMSI 30; put_u 0 2; put_u 0 30; put_text (s2b "MSCL") 7; put_text (s2b "MSC LEANNE") 20;
    put_u SHIP_TYPE 8; put_u 180 9; put_u 120 9; put_u 20 6; put_u 25 6; put_u 1 4; put_u 0 20; put_u 105 8;
    put_text (s2b "ROTTERDAM") 20; put_u 0 1; put_u 0 1].

(** @src rust/connectors/feed-synthetic/src/ais.rs 134-157 static_report *)
Definition static_report (seq : Z) : bytes :=
  let '(payload, fill) := armoured static_bits in
  concat (sentences payload fill seq 65).

Example static_lines : length (sentences (armoured static_bits).1 (armoured static_bits).2 3 65) = 2%nat.
Proof. vm_compute. reflexivity. Qed.

(** * The bits of a payload *)

Definition bval (l : BitsW) : Z := fold_left (λ a b, 2 * a + Z.b2z b) l 0.

Lemma bval_fold l a : fold_left (λ a b, 2 * a + Z.b2z b) l a = a * 2 ^ zlen l + bval l.
Proof.
  unfold bval. revert a. induction l as [|b l IH]; intros a; cbn [fold_left]; [change (2 ^ zlen []) with 1; lia|].
  rewrite IH, (IH (2 * 0 + Z.b2z b)), zlen_cons, Z.pow_add_r by (pose proof (zlen_nonneg l); lia). change (2 ^ 1) with 2. ring.
Qed.

Lemma bval_app l k : bval (l ++ k) = bval l * 2 ^ zlen k + bval k.
Proof. unfold bval at 1. by rewrite fold_left_app, bval_fold. Qed.

Lemma bval_range l : 0 ≤ bval l < 2 ^ zlen l.
Proof.
  induction l as [|b l IH]; [done|]. change (b :: l) with ([b] ++ l). rewrite bval_app, zlen_app, Z.pow_add_r by (unfold zlen; lia).
  change (2 ^ zlen [b]) with 2. change (bval [b]) with (2 * 0 + Z.b2z b). destruct b; cbn [Z.b2z]; nia.
Qed.

Lemma put_u_len v w : zlen (put_u v w) = Z.of_nat w.
Proof. induction w as [|w IH]; [done|]. cbn [put_u]. rewrite zlen_cons, IH. lia. Qed.

Lemma put_u_val v w : bval (put_u v w) = v mod 2 ^ Z.of_nat w.
Proof.
  induction w as [|w IH]; [by rewrite Z.mod_1_r|]. cbn [put_u].
  match goal with |- bval (?b :: ?l) = _ => change (b :: l) with ([b] ++ l) end.
  rewrite bval_app, put_u_len, IH. rewrite land_1_testbit by lia. set (k := Z.of_nat w).
  replace (Z.of_nat (S w)) with (1 + k) by lia. rewrite Z.pow_add_r by lia. change (2 ^ 1) with 2.
  assert (0 < 2 ^ k) by (apply Z.pow_pos_nonneg; lia).
  rewrite (Z.mul_comm 2), Z.rem_mul_r by lia. rewrite <- Z.shiftr_div_pow2 by lia.
  rewrite <- (Z.bit0_mod (Z.shiftr v k)), Z.shiftr_spec by lia. rewrite Z.add_0_l.
  destruct (Z.testbit v k); cbn; lia.
Qed.

Lemma put_i_val v w : (0 < w < 64)%nat → bval (put_i v w) = v mod 2 ^ Z.of_nat w ∧ zlen (put_i v w) = Z.of_nat w.
Proof.
  intros Hw. split; [|apply put_u_len]. unfold put_i. rewrite put_u_val. rewrite Z.shiftl_mul_pow2, Z.mul_1_l by lia.
  rewrite land_mask by lia. rewrite Z.mod_mod by lia. unfold wrap.
  replace (2 ^ 64) with (2 ^ Z.of_nat w * 2 ^ (64 - Z.of_nat w)) by (rewrite <- Z.pow_add_r by lia; f_equal; lia).
  assert (0 < 2 ^ Z.of_nat w) by (apply Z.pow_pos_nonneg; lia). assert (0 < 2 ^ (64 - Z.of_nat w)) by (apply Z.pow_pos_nonneg; lia).
  rewrite Z.rem_mul_r by lia. rewrite Z.mul_comm, Z.mod_add by lia. apply Z.mod_mod. lia.
Qed.

(** The bits are what the characters hold, up to the fill. *)
Lemma six_at_val bits : 0 ≤ six_at bits < 64
  ∧ six_at bits * 2 ^ zlen (take 6 bits) = bval (take 6 bits) * 64.
Proof.
  destruct bits as [|b0 [|b1 [|b2 [|b3 [|b4 [|b5 l]]]]]]; [by vm_compute|destruct b0; by vm_compute|..].
  - destruct b0, b1; by vm_compute.
  - destruct b0, b1, b2; by vm_compute.
  - destruct b0, b1, b2, b3; by vm_compute.
  - destruct b0, b1, b2, b3, b4; by vm_compute.
  - destruct b0, b1, b2, b3, b4, b5; by vm_compute.
Qed.

Lemma six_all_val fuel : ∀ bits, (length bits <= fuel)%nat → let s := six_all fuel bits in
  six_ok s ∧ ∃ f, 0 ≤ f < 6 ∧ 6 * zlen s = zlen bits + f ∧ payload_val s = bval bits * 2 ^ f.
Proof.
  induction fuel as [|fuel IH]; intros bits Hl; cbv zeta.
  { destruct bits; [|cbn in Hl; lia]. split; [constructor|]. by exists 0. }
  destruct bits as [|b bits]; [split; [constructor|]; by exists 0|]. cbn [six_all]. set (bs := b :: bits) in *.
  destruct (six_at_val bs) as [Hr Hv].
  destruct (IH (drop 6 bs)) as (Hs & f & Hf & Hz & Hp); [subst bs; rewrite length_drop; cbn in *; lia|].
  split; [by constructor|].
  match goal with |- context [six_at bs :: ?t] => change (six_at bs :: t) with ([six_at bs] ++ t) end.
  rewrite payload_val_app, zlen_app, Hp. change (payload_val [six_at bs]) with (0 * 64 + six_at bs). change (zlen [six_at bs]) with 1.
  assert (zlen bs = zlen (take 6 bs) + zlen (drop 6 bs)) as Hsum by (rewrite <- zlen_app; by rewrite take_drop).
  destruct (decide (6 <= length bs)%nat) as [Hlong|Hshort].
  - assert (zlen (take 6 bs) = 6) as H6 by (unfold zlen; rewrite length_take; lia). rewrite H6 in Hv, Hsum. change (2 ^ 6) with 64 in Hv.
    assert (six_at bs = bval (take 6 bs)) as -> by lia.
    exists f. split_and!; [lia..|]. rewrite Hz. replace (bval bs) with (bval (take 6 bs ++ drop 6 bs)) by (by rewrite take_drop).
    rewrite bval_app, Z.pow_add_r by (try lia; apply zlen_nonneg). ring.
  - rewrite drop_ge in * by lia. rewrite take_ge in * by lia.
    assert (1 ≤ zlen bs) by (subst bs; rewrite zlen_cons; pose proof (zlen_nonneg bits); lia). change (zlen []) with 0 in Hz, Hsum.
    assert (zlen bs < 6) by (unfold zlen; lia). assert (f = 0 ∧ zlen (six_all fuel []) = 0) as [-> Hz0] by (pose proof (zlen_nonneg (six_all fuel [])); lia).
    rewrite Hz0. exists (6 - zlen bs). split_and!; [lia..|]. change (bval []) with 0. change (2 ^ (6 * 0)) with 1.
    replace 64 with (2 ^ zlen bs * 2 ^ (6 - zlen bs)) in Hv by (rewrite <- Z.pow_add_r by lia; by replace (zlen bs + (6 - zlen bs)) with 6 by lia).
    assert (0 < 2 ^ zlen bs) by (apply Z.pow_pos_nonneg; lia). nia.
Qed.

Lemma armour_is v : armour v = armor v.
Proof. unfold armour, armor. destruct (v <? 40) eqn:E; destruct (87 <? v + 48) eqn:E'; lia. Qed.

(** What the parser makes of a payload it was sent. *)
Lemma from_armoured bits : ∃ b, from_payload (armoured bits).1 (armoured bits).2 = Ok b ∧ bits_ok b ∧ valid_bits b = zlen bits
  ∧ ∀ l k y, bits = concat l → l !! k = Some y → field (six b) (zlen (concat (take k l))) (length y) = bval y.
Proof.
  assert (∀ b : Bits, (∀ x y z, bits = x ++ y ++ z → field (six b) (zlen x) (length y) = bval y) →
    ∀ l k y, bits = concat l → l !! k = Some y → field (six b) (zlen (concat (take k l))) (length y) = bval y) as Hl.
  { intros b Hb l k y -> Hk. apply (Hb _ _ (concat (drop (S k) l))). rewrite <- (take_drop_middle _ _ _ Hk) at 1. rewrite concat_app. done. }
  unfold armoured, from_payload. cbn [fst snd]. destruct (six_all_val (length bits) bits) as (Hs & f & Hf & Hz & Hp); [lia|].
  set (s := six_all (length bits) bits) in *. pose proof (zlen_nonneg bits) as Hn.
  assert ((6 - zlen bits mod 6) mod 6 = f) as -> by (Z.div_mod_to_equations; lia).
  assert ((armour <$> s) = (armor <$> s)) as -> by (apply list_fmap_ext; intros; apply armour_is).
  rewrite unarmor_armor by done. cbn [mbind res_bind].
  eexists. split; [done|]. split_and!; [split; [done|]; cbn [six valid_bits]; lia|cbn; lia|].
  apply Hl. intros x y z ->. unfold field. cbn [six]. rewrite Hp, Hz, !zlen_app. rewrite !bval_app, zlen_app.
  change (Z.of_nat (length y)) with (zlen y). pose proof (zlen_nonneg x). pose proof (zlen_nonneg y). pose proof (zlen_nonneg z).
  replace (zlen x + (zlen y + zlen z) + f - zlen x - zlen y) with (zlen z + f) by lia.
  rewrite (Z.pow_add_r 2 (zlen z) f) by lia. assert (0 < 2 ^ f) by (apply Z.pow_pos_nonneg; lia). assert (0 < 2 ^ zlen z) by (apply Z.pow_pos_nonneg; lia).
  rewrite Z.div_mul_cancel_r by lia. rewrite (Z.pow_add_r 2 (zlen y)) by lia.
  pose proof (bval_range y). pose proof (bval_range z).
  replace (bval x * (2 ^ zlen y * 2 ^ zlen z) + (bval y * 2 ^ zlen z + bval z)) with (bval z + (bval x * 2 ^ zlen y + bval y) * 2 ^ zlen z) by ring.
  rewrite Z.div_add by lia. rewrite Z.div_small by lia. rewrite Z.add_0_l, Z.add_comm, Z.mod_add by lia. by apply Z.mod_small.
Qed.

(** * A sentence *)

(** What stands between the commas of a sentence. *)
Definition part_ok (l : bytes) : Prop := Forall (λ b, 33 ≤ b < 128 ∧ b ≠ 42 ∧ b ≠ 44) l.
Definition body_of (f0 f1 f2 f3 f4 f5 f6 : bytes) : bytes := f0 ++ 44 :: f1 ++ 44 :: f2 ++ 44 :: f3 ++ 44 :: f4 ++ 44 :: f5 ++ 44 :: f6.
Definition shown (body : bytes) : bytes := s2b "!" ++ body ++ s2b "*" ++ hex2_upper (xor_all body).

Lemma part_apart c l : part_ok l → c = 42 ∨ c = 44 → Forall (λ b, b ≠ c) l.
Proof. intros Hl Hc. eapply Forall_impl; [exact Hl|]. cbn. intros b Hb. lia. Qed.

Lemma xor_all_byte l : bytes_ok l → byte_ok (xor_all l).
Proof.
  unfold xor_all. enough (∀ a, byte_ok a → bytes_ok l → byte_ok (fold_left Z.lxor l a)) as H by (apply H; unfold byte_ok; lia).
  induction l as [|b l IH]; intros a Ha Hl; [done|]. apply Forall_cons in Hl as [Hb Hl]. cbn [fold_left]. apply IH; [by apply lxor_byte|done].
Qed.

Lemma hex2_upper_val b : byte_ok b → parse_uint 16 256 (hex2_upper b) = Some b ∧ Forall (λ c, 48 ≤ c < 71) (hex2_upper b).
Proof.
  intros Hb. assert (b ∈ seqZ 0 256) as Hin by (apply elem_of_seqZ; unfold byte_ok in Hb; lia). clear Hb. revert b Hin. apply Forall_forall.
  apply (bool_decide_eq_true_1 (Forall _ _)). vm_compute. reflexivity.
Qed.

Section sentence.
Context {f0 f1 f2 f3 f4 f5 f6 : bytes}.
Hypothesis parts : Forall part_ok [f0; f1; f2; f3; f4; f5; f6].
Let body := body_of f0 f1 f2 f3 f4 f5 f6.

Lemma body_ok : Forall (λ b, 33 ≤ b < 128 ∧ b ≠ 42) body.
Proof.
  unfold body, body_of. repeat (apply Forall_cons in parts as [? parts]).
  repeat first [apply Forall_app; split | apply Forall_cons; split; [lia|]]; (eapply Forall_impl; [eassumption|]); cbn; intros; lia.
Qed.

Lemma shown_ok : Forall (λ b, 33 ≤ b < 128) (shown body).
Proof.
  pose proof body_ok as Hb. unfold shown. rewrite !Forall_app. split_and!; [by repeat constructor| |by repeat constructor|].
  - eapply Forall_impl; [exact Hb|]. cbn. lia.
  - eapply Forall_impl; [apply hex2_upper_val, xor_all_byte; eapply Forall_impl; [exact Hb|]; cbn; unfold byte_ok; lia|]. cbn. lia.
Qed.

(** The parser trims a written sentence to what stands before the line end. *)
Lemma sentence_trim : utf8_valid (sentence body) = true ∧ trim (sentence body) = shown body.
Proof.
  pose proof shown_ok as Hs. assert (sentence body = shown body ++ [13; 10]) as -> by (unfold sentence, shown; by rewrite !app_assoc).
  split.
  - apply utf8_ascii, Forall_app. split; [eapply Forall_impl; [exact Hs|]; cbn; lia|by repeat constructor].
  - apply trim_line; [|done]. eapply Forall_impl; [exact Hs|]. cbn. unfold ws1. lia.
Qed.

Lemma shown_split : split_on 44 body = [f0; f1; f2; f3; f4; f5; f6].
Proof.
  unfold body, body_of. repeat (apply Forall_cons in parts as [? parts]).
  do 6 (rewrite split_on_app by (eapply part_apart; [eassumption|by right])). f_equal. f_equal. f_equal. f_equal. f_equal. f_equal.
  apply split_on_id. eapply part_apart; [eassumption|by right].
Qed.

(** The fragment a written sentence is read as. *)
Lemma read_shown count num :
  (ends_with (s2b "VDM") f0 || ends_with (s2b "VDO") f0) = true → parse_u8 f1 = Some count → parse_u8 f2 = Some num → 0 < num ≤ count →
  read_fragment (shown body) = Ok (Some (mkFragment (f0, f4, default 0 (parse_u8 f3)) count num f5 (default 0 (parse_u8 f6)))).
Proof.
  intros Hv Hc Hn Hle. pose proof body_ok as Hb. pose proof shown_ok as Hs.
  assert (bytes_ok body) as Hbb by (eapply Forall_impl; [exact Hb|]; cbn; unfold byte_ok; lia).
  destruct (hex2_upper_val (xor_all body) (xor_all_byte _ Hbb)) as [Hx Hxr].
  set (star := 1 + zlen body). pose proof (zlen_nonneg body).
  assert (shown body = (33 :: body) ++ 42 :: hex2_upper (xor_all body)) as Esh by done.
  assert (zlen (33 :: body) = star) as Est by (rewrite zlen_cons; unfold star; lia).
  assert (zlen (shown body) = star + 3) as Elen by (rewrite Esh, zlen_app, Est; done).
  assert (∀ i, 0 ≤ i ≤ star + 3 → char_boundary (shown body) i = true) as Hcb.
  { intros i Hi. apply char_boundary_all_ascii; [|lia]. eapply Forall_impl; [exact Hs|]. cbn. lia. }
  assert (get_range (shown body) 1 star = Some body) as Hbody.
  { change (shown body) with ([33] ++ body ++ 42 :: hex2_upper (xor_all body)). apply get_range_app; done || (unfold star; lia). }
  assert (find_byte 42 (shown body) = Some star) as Hfind.
  { rewrite Esh, <- Est. apply find_byte_app. intros [E|Hin]%elem_of_cons; [done|]. rewrite Forall_forall in Hb. by apply Hb in Hin as [_ ?]. }
  assert (verify_checksum (shown body) = Ok tt) as Hver.
  { unfold verify_checksum. rewrite Esh at 1. rewrite rfind_byte_app.
    2: { intros Hin. rewrite Forall_forall in Hxr. specialize (Hxr _ Hin). lia. }
    rewrite Est. cbn [ok_or mbind res_bind]. unfold str_get. rewrite !Hcb by lia.
    assert (get_range (shown body) (star + 1) (star + 3) = Some (hex2_upper (xor_all body))) as Hhex.
    { assert (shown body = (33 :: body ++ [42]) ++ hex2_upper (xor_all body) ++ []) as -> by (by rewrite Esh, app_nil_r; cbn; rewrite <- app_assoc).
      assert (zlen (33 :: body ++ [42]) = star + 1) as Ez by (rewrite zlen_cons, zlen_app; change (zlen [42]) with 1; unfold star; lia).
      apply get_range_app; [done|]. change (zlen (hex2_upper _)) with 2. lia. }
    rewrite Hhex. cbn [andb ok_or mbind res_bind]. rewrite Hx. cbn [ok_or mbind res_bind]. unfold str_slice. rewrite !Hcb by lia.
    unfold slice. rewrite Hbody. cbn. by rewrite Z.eqb_refl. }
  unfold read_fragment. assert (strip_tag_block (shown body) = shown body) as -> by done. change (is_sentence (shown body)) with true.
  cbn [guard_res mbind res_bind]. rewrite Hver. cbn [mbind res_bind].
  assert (sentence_fields (shown body) = Ok [f0; f1; f2; f3; f4; f5; f6]) as ->.
  { unfold sentence_fields. rewrite Hfind. change (default (zlen (shown body)) (Some star)) with star. unfold str_slice. rewrite !Hcb by lia. unfold slice. rewrite Hbody. cbn. by rewrite shown_split. }
  cbn [mbind res_bind]. change (idx [f0; f1; f2; f3; f4; f5; f6] 0) with (@Ok AisError _ f0). cbn [mbind res_bind]. rewrite Hv.
  change (zlen [f0; f1; f2; f3; f4; f5; f6] <? 7) with false. cbn [negb].
  change (idx [f0; f1; f2; f3; f4; f5; f6] 1) with (@Ok AisError _ f1). change (idx [f0; f1; f2; f3; f4; f5; f6] 2) with (@Ok AisError _ f2).
  change (idx [f0; f1; f2; f3; f4; f5; f6] 3) with (@Ok AisError _ f3). change (idx [f0; f1; f2; f3; f4; f5; f6] 4) with (@Ok AisError _ f4).
  change (idx [f0; f1; f2; f3; f4; f5; f6] 5) with (@Ok AisError _ f5). change (idx [f0; f1; f2; f3; f4; f5; f6] 6) with (@Ok AisError _ f6).
  cbn [mbind res_bind]. rewrite Hc, Hn. cbn [ok_or mbind res_bind].
  replace (count =? 0) with false by lia. replace (num =? 0) with false by lia. by replace (count <? num) with false by lia.
Qed.
End sentence.

(** * A position report, as the parser reads it *)

Lemma armoured_ok bits : part_ok (armoured bits).1.
Proof.
  unfold armoured, part_ok. cbn [fst]. apply Forall_fmap. destruct (six_all_val (length bits) bits) as [Hs _]; [lia|].
  eapply Forall_impl; [exact Hs|]. intros v Hv. cbn in *. unfold armour. case_match; lia.
Qed.

Lemma armoured_len bits : 6 * zlen (armoured bits).1 = zlen bits + (armoured bits).2 ∧ 0 ≤ (armoured bits).2 < 6.
Proof.
  unfold armoured. cbn [fst snd]. unfold zlen at 1. rewrite length_fmap. fold (zlen (six_all (length bits) bits)).
  destruct (six_all_val (length bits) bits) as (_ & f & Hf & Hz & _); [lia|]. rewrite Hz. split; [|apply Z.mod_pos_bound; lia].
  pose proof (zlen_nonneg (six_all (length bits) bits)). Z.div_mod_to_equations. lia.
Qed.

(** A payload of one fragment is one sentence. *)
Lemma sentences_one payload fill seq channel :
  payload ≠ [] → zlen payload ≤ 56 →
  sentences payload fill seq channel = [sentence (body_of (s2b "AIVDM") (s2b "1") (s2b "1") [] [channel] payload (show_bytes fill))].
Proof.
  intros Hn Hl. unfold sentences. assert (chunks (length payload) payload = [payload]) as ->; [|done].
  destruct payload as [|b p]; [done|]. cbn [chunks length]. unfold zlen in Hl. cbn in Hl.
  rewrite take_ge, drop_ge by (unfold MAX_CHARS; cbn; lia). by destruct p.
Qed.

Lemma digit_shown n : 0 ≤ n < 10 → part_ok (show_bytes n) ∧ parse_u8 (show_bytes n) = Some n.
Proof.
  intros Hn. assert (n ∈ seqZ 0 10) as Hin by (apply elem_of_seqZ; lia). clear Hn. revert n Hin. apply Forall_forall.
  apply (bool_decide_eq_true_1 (Forall _ _)). vm_compute. reflexivity.
Qed.

(** One sentence is one message. *)
Lemma parse_one clock s bits : bits ≠ [] → zlen bits ≤ 336 →
  ∃ b raw, parse_sentence clock s (concat (sentences (armoured bits).1 (armoured bits).2 0 65)) = Ais.decode s b [raw]
    ∧ bits_ok b ∧ valid_bits b = zlen bits ∧ ∀ l k y, bits = concat l → l !! k = Some y → field (six b) (zlen (concat (take k l))) (length y) = bval y.
Proof.
  intros Hn Hl. destruct (from_armoured bits) as (b & Hb & Hok & Hv & Hf). destruct (armoured_len bits) as [Hz Hr].
  pose proof (armoured_ok bits) as Hp. set (payload := (armoured bits).1) in *. set (fill := (armoured bits).2) in *.
  assert (0 < zlen bits) by (destruct bits; [done|]; rewrite zlen_cons; pose proof (zlen_nonneg bits); lia).
  rewrite sentences_one; [|intros E; rewrite E in Hz; change (zlen []) with 0 in Hz; lia|lia].
  cbn [concat]. rewrite app_nil_r.
  destruct (digit_shown fill) as [Hfp Hfv]; [lia|].
  assert (Forall part_ok [s2b "AIVDM"; s2b "1"; s2b "1"; []; [65]; payload; show_bytes fill]) as Hparts.
  { repeat (apply Forall_cons; split); try done; apply (bool_decide_eq_true_1 (Forall _ _)); vm_compute; reflexivity. }
  destruct (sentence_trim Hparts) as [Hu Ht]. unfold parse_sentence. rewrite Hu, Ht. cbn [negb].
  rewrite (read_shown Hparts 1 1); [|vm_compute; reflexivity..|lia]. unfold reassemble. cbn [f_count f_payload f_fill].
  change (1 =? 1) with true. cbn iota. rewrite Hfv. change (default 0 (Some fill)) with fill. unfold decode_payload. rewrite Hb. by eexists _, _.
Qed.

(** A position report of the vessel is one of the values it was made of. *)
Definition report_fits (v : VesselState) : Prop :=
  report_sog v < 1023 ∧ - 2 ^ 27 ≤ report_lon v < 2 ^ 27 ∧ - 2 ^ 26 ≤ report_lat v < 2 ^ 26 ∧ report_cog v < 3600.

Definition angle_of (n : Z) : f64 := f_div (f_of_Z n) (f_of_Z 600000).
Definition tenth_of (n : Z) : f64 := f_div (f_of_Z n) (f_of_Z 10).

(** What the parser is to say of the vessel. *)
Definition vessel_said (v : VesselState) (id : Identity) (p : AisPosition) : Prop :=
  msg_type p = 1 ∧ mmsi p = MMSI ∧ p_identity p = id ∧ nav_status p = Some "under-way-using-engine"%string
  ∧ lat p = keep (in_range (f_of_Z (-90)) (f_of_Z 90)) (Some (angle_of (report_lat v)))
  ∧ lon p = keep (in_range (f_of_Z (-180)) (f_of_Z 180)) (Some (angle_of (report_lon v)))
  ∧ sog_kn p = Some (tenth_of (report_sog v)) ∧ cog_deg p = Some (tenth_of (report_cog v)) ∧ heading_deg p = Some (f_of_Z (report_heading v)).

Lemma position_said clock s v ts : report_fits v → 0 ≤ ts →
  ∃ s' p, parse_sentence clock s (position_report v ts) = (s', Ok (Some p))
    ∧ vessel_said v (default no_identity (cache_get (identities s) MMSI)) p.
Proof.
  intros (Hsog & Hlon & Hlat & Hcog) Hts.
  assert (0 ≤ report_sog v) as Hsog0 by (apply f_to_Z_range; lia). assert (0 ≤ report_cog v) as Hcog0 by (apply f_to_Z_range; lia).
  assert (0 ≤ report_heading v < 360) as Hhdg by (apply Z.mod_pos_bound; lia).
  unfold position_report. set (parts := report_parts v ts).
  destruct (parse_one clock s (concat parts)) as (b & raw & Hp & Hok & Hv & Hf); [done|subst parts; cbn [concat report_parts]; unfold put_i; rewrite !zlen_app, !put_u_len; done|].
  assert (valid_bits b = 168) as Hvb by (rewrite Hv; subst parts; cbn [concat report_parts]; unfold put_i; rewrite !zlen_app, !put_u_len; done).
  assert (∀ k y w start, parts !! k = Some y → zlen (concat (take k parts)) = start → zlen y = Z.of_nat w → field (six b) start w = bval y) as Hfield.
  { intros k y w start Hk <- Hw. rewrite <- (Hf parts k y eq_refl Hk). f_equal. unfold zlen in Hw. lia. }
  clear Hf. rewrite (surjective_pairing (armoured (concat parts))). cbn iota. rewrite Hp. unfold Ais.decode. rewrite Hvb. change (168 <? 38) with false. cbn iota.
  pose proof Hok as [H6 H7]. rewrite Hvb in H7.
  assert (∀ k w start x, parts !! k = Some (put_u x w) → zlen (concat (take k parts)) = start → field (six b) start w = x mod 2 ^ Z.of_nat w) as Hu.
  { intros k w start x Hk Hs. rewrite (Hfield k (put_u x w) w) by (done || apply put_u_len). apply put_u_val. }
  assert (∀ k w start x, parts !! k = Some (put_i x w) → (0 < w < 64)%nat → zlen (concat (take k parts)) = start → field (six b) start w = x mod 2 ^ Z.of_nat w) as Hi.
  { intros k w start x Hk Hw Hs. destruct (put_i_val x w Hw). by rewrite (Hfield k (put_i x w) w). }
  rewrite !u_spec by (done || lia).
  rewrite (Hu 0%nat 6%nat 0 1), (Hu 2%nat 30%nat 8 MMSI) by done. change (1 mod 2 ^ Z.of_nat 6) with 1. change (MMSI mod 2 ^ Z.of_nat 30) with MMSI.
  change (1 =? 5) with false. change (1 =? 24) with false. change (layout_of 1) with (Some ClassA). cbn iota.
  destruct (entry no_carry MMSI (carry s)) as [cache e]. destruct (drain_with e [raw]) as [e' [joined trunc]].
  unfold position. cbn [offsets]. rewrite !opt_u_spec, !opt_i_spec by (done || lia). rewrite Hvb.
  rewrite (Hu 3%nat 4%nat 38 NAV_STATUS), (Hi 4%nat 8%nat 42 0), (Hu 5%nat 10%nat 50 (report_sog v)), (Hi 7%nat 28%nat 61 (report_lon v)), (Hi 8%nat 27%nat 89 (report_lat v)),
    (Hu 9%nat 12%nat 116 (report_cog v)), (Hu 10%nat 9%nat 128 (report_heading v)) by (try done; try lia; subst parts; cbn [concat take report_parts]; unfold put_i; rewrite !zlen_app, !put_u_len; done).
  pose proof (λ k x, to_signed_wrap (Z.of_nat k) x) as Hs. unfold wrap in Hs. rewrite !Hs by lia. rewrite (Z.mod_small (report_sog v)), (Z.mod_small (report_cog v)), (Z.mod_small (report_heading v)) by lia.
  cbn [mbind res_bind]. change (0 mod 2 ^ Z.of_nat 8) with 0.
  repeat match goal with |- context [if ?a <=? ?b then _ else _] => change (a <=? b) with true end. cbn iota.
  eexists _, _. split; [reflexivity|]. cbn [msg_type mmsi p_identity nav_status lat lon sog_kn cog_deg heading_deg fmap option_fmap option_map keep].
  replace (report_sog v =? 1023) with false by lia. replace (report_cog v =? 3600) with false by lia. replace (report_heading v =? 511) with false by lia.
  by split_and!.
Qed.

(** * The static report, as the parser reads it *)

Definition static_frames (seq : Z) : list bytes := sentences (armoured static_bits).1 (armoured static_bits).2 seq 65.
Definition static_half (n : nat) : bytes := if n is O then take 56 (armoured static_bits).1 else drop 56 (armoured static_bits).1.

Definition frame_read (l : bytes) (f : Fragment) : Prop := utf8_valid l = true ∧ read_fragment (trim l) = Ok (Some f).

Lemma static_read seq : 0 ≤ seq < 10 →
  ∃ a b, static_frames seq = [a; b] ∧ frame_read a (mkFragment (s2b "AIVDM", [65], seq) 2 1 (static_half 0) 0)
    ∧ frame_read b (mkFragment (s2b "AIVDM", [65], seq) 2 2 (static_half 1) 2).
Proof.
  intros Hs. destruct (digit_shown seq Hs) as [Hp Hv].
  assert (chunks (length (armoured static_bits).1) (armoured static_bits).1 = [static_half 0; static_half 1]) as Hc by (vm_compute; reflexivity).
  unfold static_frames, sentences. rewrite Hc. cbn [imap zlen]. change (zlen [static_half 0; static_half 1]) with 2. change (1 <? 2) with true. cbn iota.
  eexists _, _. split; [reflexivity|].
  assert (∀ payload k f, part_ok payload → 0 ≤ f < 10 → 1 ≤ k ≤ 2 →
    frame_read (sentence (body_of (s2b "AIVDM") (s2b "2") (show_bytes k) (show_bytes seq) [65] payload (show_bytes f)))
      (mkFragment (s2b "AIVDM", [65], seq) 2 k payload f)) as Hr.
  { intros payload k f Hn Hf Hk. destruct (digit_shown k) as [Hkp Hkv]; [lia|]. destruct (digit_shown f Hf) as [Hfp Hfv].
    assert (Forall part_ok [s2b "AIVDM"; s2b "2"; show_bytes k; show_bytes seq; [65]; payload; show_bytes f]) as Hparts.
    { repeat (apply Forall_cons_2; [first [assumption|apply (bool_decide_eq_true_1 (Forall _ _)); vm_compute; reflexivity]|]). constructor. }
    destruct (sentence_trim Hparts) as [Hu Ht]. split; [exact Hu|]. rewrite Ht.
    rewrite (read_shown Hparts 2 k); [by rewrite Hv, Hfv|vm_compute; reflexivity..|exact Hkv|lia]. }
  pose proof (armoured_ok static_bits) as Hok.
  split; [apply (Hr _ 1 0); [by apply Forall_take|lia..]|apply (Hr _ 2 2); [by apply Forall_drop|lia..]].
Qed.

Definition vessel_identity (old : option Z) : Identity := mkIdentity (Some "MSC LEANNE"%string) (Some "MSCL"%string) (Some "cargo"%string) old.

Lemma static_said t0 t1 s seq : vessels_ok (identities s) → 0 ≤ seq < 10 → t1 - t0 < REASM_TTL →
  ∃ a b s1 s2 i, static_frames seq = [a; b] ∧ parse_sentence t0 s a = (s1, Ok None) ∧ parse_sentence t1 s1 b = (s2, Ok None)
    ∧ cache_get (identities s2) MMSI = Some (vessel_identity i).
Proof.
  intros Hs Hseq Ht. destruct (static_read seq Hseq) as (a & b & Hab & [Hua Hra] & [Hub Hrb]). exists a, b.
  unfold parse_sentence at 1 2. rewrite Hua, Hra, Hub, Hrb. cbn [negb].
  destruct (feed_all (s2b "AIVDM", [65], seq) 2 2 s (static_half 0) (trim a) t0 [(static_half 1, trim b, t1)]) as [pend Hf]; [done|done|by repeat constructor|].
  rewrite feed_cons in Hf.
  match goal with |- context [reassemble t0 s ?f (trim a)] => destruct (reassemble t0 s f (trim a)) as [s1 r1] eqn:E1 end.
  assert (reassemble t0 s (mkFragment (s2b "AIVDM", [65], seq) 2 1 (static_half 0) 2) (trim a) = (s1, r1)) as E2 by exact E1. rewrite E2 in Hf.
  assert (r1 = Ok None) as -> by (unfold reassemble in E1; cbn [f_count f_num] in E1; change (2 =? 1) with false in E1; change (1 =? 1) with true in E1; change (1 <? 2) with true in E1; cbn iota in E1; by injection E1 as _ <-).
  cbn [feed] in Hf. change (1 + 1) with 2 in Hf. match type of Hf with context [reassemble t1 s1 ?f (trim b)] => destruct (reassemble t1 s1 f (trim b)) as [s2 r2] eqn:E3 end.
  cbn [concat fmap list_fmap fst snd] in Hf. rewrite app_nil_r in Hf.
  set (rs := [trim a; trim b]) in Hf. unfold decode_payload in Hf.
  assert (∃ B, from_payload (static_half 0 ++ static_half 1) 2 = Ok B ∧ (valid_bits B <? 38) = false ∧ u B 0 6 = Ok 5 ∧ u B 8 30 = Ok MMSI
    ∧ opt_u B 40 30 = Ok (Some 0) ∧ opt_text B 70 42 = Ok (Some "MSCL"%string) ∧ opt_text B 112 120 = Ok (Some "MSC LEANNE"%string) ∧ opt_u B 232 8 = Ok (Some 70)) as (B & HB & H1 & H2 & H3 & H4 & H5 & H6 & H7).
  { eexists. split; [vm_compute; reflexivity|]. split_and!; vm_compute; reflexivity. }
  rewrite HB in Hf. unfold Ais.decode in Hf. rewrite H1, H2, H3 in Hf. change (5 =? 5) with true in Hf. cbn iota in Hf.
  unfold static_class_a in Hf. rewrite H4, H5, H6, H7 in Hf. cbn [mbind res_bind option_bind] in Hf. change (ship_type_of 70) with (Some "cargo"%string) in Hf.
  change (layout_of 5) with (@None Layout) in Hf.
  set (s' := merge_identity (with_pending s pend) MMSI (Some "MSC LEANNE"%string) (Some "MSCL"%string) (Some "cargo"%string) None) in Hf.
  destruct (entry no_carry MMSI (carry s')) as [cache e]. destruct (push_all rs e (dropped s')) as [e' d]. injection Hf as -> ->.
  eexists s1, _, _. split; [exact Hab|]. split; [done|]. split; [exact E3|]. subst s'.
  etransitivity; [exact (proj1 (merge_identity_get (with_pending s pend) MMSI (Some "MSC LEANNE"%string) (Some "MSCL"%string) (Some "cargo"%string) None Hs))|reflexivity].
Qed.

(** * Properties *)

(** C32: what the synthetic feed says of its vessel is what the connector reads: its two
    static sentences, then a position report, come out as one position with the
    vessel's number, name, call sign and type, and its speed, course, heading and
    coordinates to the step the wire has for each. *)
Theorem feed_vessel s t0 t1 t2 seq v ts :
  vessels_ok (identities s) → 0 ≤ seq < 10 → t1 - t0 < REASM_TTL → report_fits v → 0 ≤ ts →
  ∃ a b s1 s2 s3 i p, static_report seq = a ++ b ∧ parse_sentence t0 s a = (s1, Ok None) ∧ parse_sentence t1 s1 b = (s2, Ok None)
    ∧ parse_sentence t2 s2 (position_report v ts) = (s3, Ok (Some p)) ∧ vessel_said v (vessel_identity i) p.
Proof.
  intros Hs Hseq Ht Hv Hts. destruct (static_said t0 t1 s seq Hs Hseq Ht) as (a & b & s1 & s2 & i & Hab & H1 & H2 & Hi).
  destruct (position_said t2 s2 v ts Hv Hts) as (s3 & p & Hp & Hsaid). rewrite Hi in Hsaid.
  exists a, b, s1, s2, s3, i, p. split; [|done].
  unfold static_report. rewrite (surjective_pairing (armoured static_bits)). cbn iota.
  change (concat (static_frames seq) = a ++ b). rewrite Hab. cbn [concat]. by rewrite app_nil_r.
Qed.

(** * Witnesses *)

Definition ex_vessel : VesselState := mkVesselState (mkFix (f_ratio 507700 10000) (f_ratio (-11300) 10000)) (f_of_Z 118) (f_of_Z 8).

Lemma feed_vessel_witness : ∃ a b s1 s2 s3 i p, static_report 7 = a ++ b ∧ parse_sentence 0 ex_ais a = (s1, Ok None) ∧ parse_sentence 5 s1 b = (s2, Ok None)
    ∧ parse_sentence 9 s2 (position_report ex_vessel 61) = (s3, Ok (Some p)) ∧ vessel_said ex_vessel (vessel_identity i) p.
Proof.
  apply (feed_vessel ex_ais 0 5 9 7 ex_vessel 61); [apply no_vessels_ok|lia|vm_compute; reflexivity| |lia].
  unfold report_fits. split_and!; apply (bool_decide_eq_true_1 _); vm_compute; reflexivity.
Defined.


(** The vessel's first report on the wire. *)
Example first_report : position_report ex_vessel 1 = s2b "!AIVDM,1,1,,A,13P7oCP02LwrltPM3@<4W3d20000,0*38" ++ [13; 10].
Proof. vm_compute. reflexivity. Qed.
