(* ===== verification/FeedMav.v ===== *)
(** The MAVLink side of the synthetic feed
    (rust/connectors/feed-synthetic/src/mavlink.rs), against the parser that reads it. *)
From Stdlib Require Import ZArith Lia.
From Stdlib Require Import Strings.String.
From S2P Require Export Mavlink Scenario.

Local Open Scope Z_scope.

(** * The generator *)

Module Feed.
Definition HEARTBEAT : Z := 0.
Definition GLOBAL_POSITION_INT : Z := 33.
Definition GPS_RAW_INT : Z := 24.

(** [unreachable!] on any other message. *)
(** @src rust/connectors/feed-synthetic/src/mavlink.rs 13-20 crc_extra_and_len *)
Definition extra_and_len (msg_id : Z) : Z * Z :=
  if msg_id =? HEARTBEAT then (50, 9) else if msg_id =? GLOBAL_POSITION_INT then (104, 28) else (24, 52).

(** @src rust/connectors/feed-synthetic/src/mavlink.rs 22-31 crc *)
Definition checksum (data : bytes) (extra : Z) : Z :=
  fold_left (λ c b,
    let tmp := Z.lxor b (Z.land c 0xFF) in
    let tmp := Z.lxor tmp (wrap 8 (Z.shiftl tmp 4)) in
    Z.lxor (Z.lxor (Z.lxor (Z.shiftr c 8) (wrap 16 (Z.shiftl tmp 8))) (wrap 16 (Z.shiftl tmp 3))) (Z.shiftr tmp 4))
    (data ++ [extra]) 0xFFFF.

(** The link is its sequence counter: the frame, and the counter after it. *)
(** @src rust/connectors/feed-synthetic/src/mavlink.rs 33-53 Link::frame *)
Definition frame (seq msg_id : Z) (payload : bytes) : bytes * Z :=
  let '(extra, len) := extra_and_len msg_id in
  let out := [0xFE; wrap 8 len; seq; 1; 1; msg_id] ++ payload in
  let out := take (Z.to_nat (6 + len)) out ++ replicate (Z.to_nat (6 + len - zlen out)) 0 in
  (out ++ le_enc 2 (checksum (tail out) extra), wrap 8 (seq + 1)).

(** @src rust/connectors/feed-synthetic/src/mavlink.rs 55-65 Link::heartbeat *)
Definition heartbeat (seq : Z) : bytes * Z := frame seq HEARTBEAT (le_enc 4 0 ++ [2; 3; 0x80; 4; 3]).


Definition wire_lat (u : UavState) : Z := as_i32 (f_mul (fix_lat (u_fix u)) (f_of_Z 10000000)).
Definition wire_lon (u : UavState) : Z := as_i32 (f_mul (fix_lon (u_fix u)) (f_of_Z 10000000)).
Definition wire_alt (u : UavState) : Z := as_i32 (f_mul (u_alt_m u) (f_of_Z 1000)).
Definition wire_heading (u : UavState) : Z := as_u16 (f_mul (u_heading_deg u) (f_of_Z 100)).
Definition wire_speed (u : UavState) : Z := as_u16 (f_mul (u_speed_mps u) (f_of_Z 100)).

Section libm.
Variables sin cos : f64 → f64.

Definition wire_vx (u : UavState) : Z := as_i16 (f_mul (f_mul (u_speed_mps u) (cos (to_radians (u_heading_deg u)))) (f_of_Z 100)).
Definition wire_vy (u : UavState) : Z := as_i16 (f_mul (f_mul (u_speed_mps u) (sin (to_radians (u_heading_deg u)))) (f_of_Z 100)).

(** @src rust/connectors/feed-synthetic/src/mavlink.rs 67-82 Link::global_position_int *)
Definition global_position_int (seq : Z) (u : UavState) (boot_ms : Z) : bytes * Z :=
  frame seq GLOBAL_POSITION_INT
    (le_enc 4 boot_ms ++ le_enc 4 (wire_lat u) ++ le_enc 4 (wire_lon u) ++ le_enc 4 (wire_alt u) ++ le_enc 4 (wire_alt u)
     ++ le_enc 2 (wire_vx u) ++ le_enc 2 (wire_vy u) ++ le_enc 2 0 ++ le_enc 2 (wire_heading u)).
End libm.

Definition H_ACC_M : f64 := f_ratio 18 10.
Definition V_ACC_M : f64 := f_ratio 25 10.
Definition VEL_ACC_MPS : f64 := f_ratio 4 10.
Definition HDG_ACC_DEG : f64 := f_ratio 25 10.

(** @src rust/connectors/feed-synthetic/src/mavlink.rs 84-104 Link::gps_raw_int *)
Definition gps_raw_int (seq : Z) (u : UavState) (boot_us : Z) : bytes * Z :=
  frame seq GPS_RAW_INT
    (le_enc 8 boot_us ++ le_enc 4 (wire_lat u) ++ le_enc 4 (wire_lon u) ++ le_enc 4 (wire_alt u) ++ le_enc 2 120 ++ le_enc 2 150
     ++ le_enc 2 (wire_speed u) ++ le_enc 2 (wire_heading u) ++ [3; 14] ++ le_enc 4 0
     ++ le_enc 4 (as_u32 (f_mul H_ACC_M (f_of_Z 1000))) ++ le_enc 4 (as_u32 (f_mul V_ACC_M (f_of_Z 1000)))
     ++ le_enc 4 (as_u32 (f_mul VEL_ACC_MPS (f_of_Z 1000))) ++ le_enc 4 (as_u32 (f_mul HDG_ACC_DEG (f_of_Z 100000)))).
End Feed.

(** * Frames *)

(** The feed's checksum, written apart from the connector's, is the connector's. *)
Lemma checksum_crc data extra : Feed.checksum data extra = crc data extra.
Proof. unfold Feed.checksum. by rewrite fold_left_app. Qed.

Definition filled (full : Z) (payload : bytes) : bytes := payload ++ replicate (Z.to_nat (full - zlen payload)) 0.

Lemma frame_enc seq mid extra full payload :
  crc_extra_and_len mid = Some (extra, full) → Feed.extra_and_len mid = (extra, full) → zlen payload ≤ full → full < 256 →
  (Feed.frame seq mid payload).1 = enc_frame false seq 1 1 mid extra (filled full payload) ∧ zlen (filled full payload) = full.
Proof.
  intros Hc He Hl Hf. pose proof (zlen_nonneg payload). unfold Feed.frame. rewrite He. cbn [fst].
  rewrite wrap_small by lia. set (out := [_; _; _; _; _; _] ++ payload).
  assert (zlen out = 6 + zlen payload) as Hz by (subst out; rewrite zlen_app; done).
  assert (zlen (filled full payload) = full) as Hfull.
  { unfold filled; rewrite zlen_app; assert (∀ k, zlen (replicate k 0) = Z.of_nat k) as -> by (intros; unfold zlen; by rewrite length_replicate).
    lia. }
  split; [|done]. rewrite take_ge by (unfold zlen in *; lia). rewrite Hz, checksum_crc.
  replace (6 + full - (6 + zlen payload)) with (full - zlen payload) by lia.
  unfold enc_frame, enc_head, magic_of. rewrite Hfull. subst out. reflexivity.
Qed.

(** A frame of the feed is taken, and its payload dispatched whole. *)
Lemma feed_parsed s seq mid extra full payload :
  crc_extra_and_len mid = Some (extra, full) → Feed.extra_and_len mid = (extra, full) → zlen payload ≤ full → byte_ok seq → bytes_ok payload →
  zlen (pending (vehicle s 1)) < MAX_PENDING_FRAMES → pending_bytes (vehicle s 1) + full + 8 ≤ MAX_PENDING_BYTES →
  let raw := (Feed.frame seq mid payload).1 in
  zlen raw = full + 8 ∧
  parse_frame s raw = finish s (dispatch (put s 1 (mkVehicle (v_state (vehicle s 1)) (pending (vehicle s 1) ++ [raw])
                                 (pending_bytes (vehicle s 1) + zlen raw) (dropped_since_emit (vehicle s 1)))) 1 mid (filled full payload)).
Proof.
  intros Hc He Hl Hs Hp Hf Hb raw. pose proof (crc_table_full _ _ _ Hc) as (Hfull & Hx & Hm).
  destruct (frame_enc seq mid extra full payload) as [Hraw Hlen]; [done..|lia|]. fold raw in Hraw.
  set (body := filled full payload) in *.
  assert (bytes_ok body) as Hbok by (apply bytes_ok_app; split; [done|]; apply Forall_replicate; unfold byte_ok; lia).
  assert (zlen raw = full + 8) as Hz.
  { rewrite Hraw. unfold enc_frame. rewrite zlen_cons, !zlen_app, enc_head_zlen, le_enc_zlen, Hlen. lia. }
  split; [done|]. clearbody raw. subst raw. set (head := enc_head false seq 1 1 mid body).
  assert (enc_frame false seq 1 1 mid extra body = magic_of false :: head ++ body ++ le_enc 2 (crc (head ++ body) extra) ++ []) as E
    by (rewrite app_nil_r; done).
  rewrite E at 1. rewrite (parse_enc s false seq 1 1 mid extra full body); [|done| |done].
  2: { apply crc_range; [|done]. apply bytes_ok_app. split; [|done]. apply enc_head_ok; try done; lia. }
  fold head. rewrite Z.eqb_refl.
  assert (magic_of false :: head ++ body ++ le_enc 2 (crc (head ++ body) extra) = enc_frame false seq 1 1 mid extra body) as -> by done.
  rewrite <- (take_ge body (length body)) at 2 by lia. rewrite padded_trim by (try done; rewrite drop_ge by lia; constructor).
  rewrite carry_fits by (done || lia). done.
Qed.

(** * What the parser makes of the three messages *)


Definition after_heartbeat (st : VehicleState) : VehicleState :=
  let '(mkState _ _ _ _ _ ro pi ya ai th cl bv bc br bm bt cp gf gs gh ga gv gl gd) := st in
  mkState (Some "multirotor"%string) (Some "active"%string) (Some true) None None ro pi ya ai th cl bv bc br bm bt cp gf gs gh ga gv gl gd.

Definition thousandths (n : Z) : f64 := f_div (f_of_Z n) (f_of_Z 1000).

Definition after_gps (st : VehicleState) : VehicleState :=
  let '(mkState vt sta ar mo cm ro pi ya ai th cl bv bc br bm bt cp _ _ _ _ _ _ _) := st in
  mkState vt sta ar mo cm ro pi ya ai th cl bv bc br bm bt cp (Some "3d"%string) (Some 14) (Some (f_div (f_of_Z 120) (f_of_Z 100)))
    (Some (thousandths 1800)) (Some (thousandths 2500)) (Some (thousandths 400)) (Some (f_div (f_of_Z 250000) (f_of_Z 100000))).

Lemma heartbeat_taken st : MavMsg.heartbeat st (le_enc 4 0 ++ [2; 3; 0x80; 4; 3]) = Ok (after_heartbeat st).
Proof. by destruct st. Qed.

Lemma u32le_at p v t off : zlen p = off → 0 ≤ v < 2 ^ 32 → u32le (p ++ le_enc 4 v ++ t) off = Ok v.
Proof. intros Hp Hv. unfold u32le. rewrite (read_le_at 4 4) by done. f_equal. by apply Z.mod_small. Qed.

Section gps.
Variables boot la lo al vel cog : Z.
Let p := le_enc 8 boot ++ le_enc 4 la ++ le_enc 4 lo ++ le_enc 4 al ++ le_enc 2 120 ++ le_enc 2 150
     ++ le_enc 2 vel ++ le_enc 2 cog ++ [3; 14] ++ le_enc 4 0 ++ le_enc 4 1800 ++ le_enc 4 2500 ++ le_enc 4 400 ++ le_enc 4 250000.

Lemma gps_taken s : int32 la → int32 lo → int32 al → 0 ≤ vel < 2 ^ 16 → 0 ≤ cog < 2 ^ 16 →
  gps_raw s 1 (p ++ [0; 0]) =
  Ok (put s 1 (mkVehicle (after_gps (v_state (vehicle s 1))) [] 0 false),
      mkMavPosition 1 24 (f_div (f_of_Z la) E7) (f_div (f_of_Z lo) E7) (thousandths al) None None
        (if cog =? 65535 then None else Some (f_div (f_of_Z cog) (f_of_Z 100)))
        (if vel =? 65535 then None else Some (f_div (f_of_Z vel) (f_of_Z 100)))
        None (after_gps (v_state (vehicle s 1))) (concat (pending (vehicle s 1))) (dropped_since_emit (vehicle s 1))).
Proof.
  intros Hla Hlo Hal Hvel Hcog. unfold p. rewrite <- !app_assoc.
  set (a8 := le_enc 8 boot). set (a20 := a8 ++ le_enc 4 la ++ le_enc 4 lo ++ le_enc 4 al). set (a28 := a20 ++ le_enc 2 120 ++ le_enc 2 150 ++ le_enc 2 vel ++ le_enc 2 cog).
  match goal with |- gps_raw s 1 ?q = _ => set (d := q) end.
  assert (i32le d 8 = Ok la) as E8 by exact (i32le_at a8 la _ 8 eq_refl Hla).
  assert (i32le d 12 = Ok lo) as E12 by exact (i32le_at (a8 ++ le_enc 4 la) lo _ 12 eq_refl Hlo).
  assert (i32le d 16 = Ok al) as E16 by exact (i32le_at (a8 ++ le_enc 4 la ++ le_enc 4 lo) al _ 16 eq_refl Hal).
  assert (u16le d 20 = Ok 120) as E20 by (apply (u16le_at a20); [done|lia]).
  assert (u16le d 24 = Ok vel) as E24 by exact (u16le_at (a20 ++ le_enc 2 120 ++ le_enc 2 150) vel _ 24 eq_refl Hvel).
  assert (u16le d 26 = Ok cog) as E26 by exact (u16le_at (a20 ++ le_enc 2 120 ++ le_enc 2 150 ++ le_enc 2 vel) cog _ 26 eq_refl Hcog).
  assert (idx (E := MavError) d 28 = Ok 3) as E28 by done. assert (idx (E := MavError) d 29 = Ok 14) as E29 by done.
  assert (u32le d 34 = Ok 1800) as E34 by (apply (u32le_at (a28 ++ [3; 14] ++ le_enc 4 0)); [done|lia]).
  assert (u32le d 38 = Ok 2500) as E38 by (apply (u32le_at (a28 ++ [3; 14] ++ le_enc 4 0 ++ le_enc 4 1800)); [done|lia]).
  assert (u32le d 42 = Ok 400) as E42 by (apply (u32le_at (a28 ++ [3; 14] ++ le_enc 4 0 ++ le_enc 4 1800 ++ le_enc 4 2500)); [done|lia]).
  assert (u32le d 46 = Ok 250000) as E46 by (apply (u32le_at (a28 ++ [3; 14] ++ le_enc 4 0 ++ le_enc 4 1800 ++ le_enc 4 2500 ++ le_enc 4 400)); [done|lia]).
  clearbody d. unfold gps_raw. rewrite E20, E24, E26, E28, E29. cbn [mbind res_bind].
  assert (∀ st, gps_quality d 120 14 (gps_fix 3) st = Ok (after_gps st)) as Hq.
  { intros []. unfold gps_quality, ext. rewrite E34, E38, E42, E46. reflexivity. }
  unfold mutate. rewrite Hq. cbn [mbind res_bind]. unfold drain. rewrite vehicle_put. unfold drain_payload, with_state.
  cbn [v_state pending pending_bytes dropped_since_emit]. rewrite E8, E12, E16. cbn [mbind res_bind]. rewrite put_put, snapshot_vehicle, vehicle_put.
  cbn [v_state]. by destruct (cog =? 65535), (vel =? 65535).
Qed.
End gps.

(** An encoded payload is bytes. *)
Ltac enc_ok :=
  lazymatch goal with
  | |- bytes_ok (_ ++ _) => apply bytes_ok_app; split; enc_ok
  | |- bytes_ok (le_enc _ _) => apply le_enc_ok
  | |- _ => apply bytes_okb_ok; reflexivity
  end.

(** * Properties *)

Definition centidegrees (n : Z) : f64 := f_div (f_of_Z n) (f_of_Z 100).

Section uav.
Variables sin cos : f64 → f64.

(** what the synthetic feed says of its aircraft is what the connector reads. After
    any event, a heartbeat, a fused position and a raw fix come out as the two
    positions, at the coordinates put on the wire, with the vehicle's type, state and
    accuracies, and each with the very frames it came from. *)
Theorem feed_uav s st n u boot_ms boot_us :
  vehicle s 1 = mkVehicle st [] 0 false → byte_ok n → 0 ≤ Feed.wire_heading u < 65535 → 0 ≤ Feed.wire_speed u < 65535 →
  let '(hb, n1) := Feed.heartbeat n in
  let '(gpi, n2) := Feed.global_position_int sin cos n1 u boot_ms in
  let '(gps, _) := Feed.gps_raw_int n2 u boot_us in
  let vx := f_of_Z (Feed.wire_vx cos u) in let vy := f_of_Z (Feed.wire_vy sin u) in
  let la := f_div (f_of_Z (Feed.wire_lat u)) E7 in let lo := f_div (f_of_Z (Feed.wire_lon u)) E7 in
  let st1 := after_heartbeat st in
  ∃ s1 s2 s3, parse_frame s hb = (s1, Ok None)
    ∧ parse_frame s1 gpi = (s2, Ok (Some (mkMavPosition 1 33 la lo (thousandths (Feed.wire_alt u)) (Some (thousandths (Feed.wire_alt u)))
        (Some (centidegrees (Feed.wire_heading u))) None (Some (f_div (f_sqrt (f_add (f_mul vx vx) (f_mul vy vy))) (f_of_Z 100))) (Some f_zero) st1 (hb ++ gpi) false)))
    ∧ parse_frame s2 gps = (s3, Ok (Some (mkMavPosition 1 24 la lo (thousandths (Feed.wire_alt u)) None None
        (Some (centidegrees (Feed.wire_heading u))) (Some (centidegrees (Feed.wire_speed u))) None (after_gps st1) gps false))).
Proof.
  intros Hv Hn Hh Hsp.
  assert (0 ≤ Feed.wire_heading u < 2 ^ 16) as Hh' by lia. assert (0 ≤ Feed.wire_speed u < 2 ^ 16) as Hsp' by lia.
  assert (∀ x, int32 (as_i32 x)) as H32 by (intros x; pose proof (f_to_Z_range (- 2 ^ 31) (2 ^ 31 - 1) x); unfold int32, as_i32; lia).
  assert (∀ x, int16 (as_i16 x)) as H16 by (intros x; pose proof (f_to_Z_range (- 2 ^ 15) (2 ^ 15 - 1) x); unfold int16, as_i16; lia).
  unfold Feed.heartbeat, Feed.global_position_int, Feed.gps_raw_int.
  match goal with |- context [Feed.frame n ?m ?p] => pose proof (feed_parsed s n m 50 9 p) as H1; destruct (Feed.frame n m p) as [hb n1] eqn:E1 end.
  assert (byte_ok n1) as Hn1 by (apply (f_equal snd) in E1; cbn in E1; rewrite <- E1; apply (wrap_range 8); lia).
  match goal with |- context [Feed.frame n1 ?m ?p] => pose proof (λ s, feed_parsed s n1 m 104 28 p) as H2; destruct (Feed.frame n1 m p) as [gpi n2] eqn:E2 end.
  assert (byte_ok n2) as Hn2 by (apply (f_equal snd) in E2; cbn in E2; rewrite <- E2; apply (wrap_range 8); lia).
  match goal with |- context [Feed.frame n2 ?m ?p] => pose proof (λ s, feed_parsed s n2 m 24 52 p) as H3; destruct (Feed.frame n2 m p) as [gps n3] eqn:E3 end.
  cbn [fst] in H1, H2, H3.
  destruct H1 as [Z1 P1]; [done|done|done|done|enc_ok|rewrite Hv; done|rewrite Hv; done|].
  rewrite Hv in P1. cbn [v_state pending pending_bytes dropped_since_emit app] in P1.
  change (filled 9 _) with (le_enc 4 0 ++ [2; 3; 0x80; 4; 3]) in P1. unfold dispatch, Feed.HEARTBEAT in P1. cbn [Z.eqb] in P1.
  unfold mutate in P1. rewrite vehicle_put in P1. cbn [v_state] in P1. rewrite heartbeat_taken in P1. cbn [mbind res_bind] in P1. rewrite put_put in P1.
  unfold with_state in P1. cbn [pending pending_bytes dropped_since_emit no_position mbind res_bind finish] in P1. rewrite Z1 in P1.
  set (s1 := put s 1 _) in P1.
  assert (vehicle s1 1 = mkVehicle (after_heartbeat st) [hb] (0 + (9 + 8)) false) as Hv1 by apply vehicle_put.
  destruct (H2 s1) as [Z2 P2]; [done|done|done|done|enc_ok|rewrite Hv1; done|rewrite Hv1; done|].
  rewrite Hv1 in P2. cbn [v_state pending pending_bytes dropped_since_emit app] in P2.
  change (filled 28 _) with (gpi_payload boot_ms (Feed.wire_lat u) (Feed.wire_lon u) (Feed.wire_alt u) (Feed.wire_alt u) (Feed.wire_vx cos u) (Feed.wire_vy sin u) 0 (Feed.wire_heading u)) in P2.
  unfold dispatch, Feed.GLOBAL_POSITION_INT in P2. cbn [Z.eqb Pos.eqb] in P2.
  rewrite global_position_payload, vehicle_put, put_put in P2 by (first [apply H32|apply H16|unfold int16; lia|done]).
  cbn [v_state pending pending_bytes dropped_since_emit concat a_position mbind res_bind finish] in P2. rewrite app_nil_r in P2.
  match type of P2 with _ = (?x, _) => set (s2 := x) in P2 end.
  assert (vehicle s2 1 = mkVehicle (after_heartbeat st) [] 0 false) as Hv2 by apply vehicle_put.
  destruct (H3 s2) as [Z3 P3]; [done|done|done|done|enc_ok|rewrite Hv2; done|rewrite Hv2; done|].
  rewrite Hv2 in P3. cbn [v_state pending pending_bytes dropped_since_emit app] in P3.
  match type of P3 with context [filled 52 ?q] => assert (filled 52 q = q ++ [0; 0]) as Ef by done; rewrite Ef in P3; clear Ef end.
  unfold dispatch, Feed.GPS_RAW_INT in P3. cbn [Z.eqb Pos.eqb] in P3.
  pose proof (gps_taken boot_us (Feed.wire_lat u) (Feed.wire_lon u) (Feed.wire_alt u) (Feed.wire_speed u) (Feed.wire_heading u)) as Hg.
  match type of P3 with context [gps_raw ?x 1 _] => specialize (Hg x ltac:(apply H32) ltac:(apply H32) ltac:(apply H32) Hsp' Hh'); rewrite vehicle_put in Hg end.
  match type of P3 with context [gps_raw ?x 1 ?d] => match type of Hg with gps_raw x 1 ?d' = _ => change d with d' in P3 end end.
  rewrite Hg in P3. cbn [v_state pending pending_bytes dropped_since_emit concat a_position mbind res_bind finish] in P3. rewrite app_nil_r in P3.
  replace (Feed.wire_heading u =? 65535) with false in * by lia. replace (Feed.wire_speed u =? 65535) with false in P3 by lia.
  exists s1, s2. eexists. split; [exact P1|]. split; [exact P2|exact P3].
Qed.
End uav.

(** * Witness *)

Definition ex_uav : UavState := mkUavState (mkFix (f_ratio 507950 10000) (f_ratio (-11050) 10000)) (f_of_Z 120) (f_of_Z 90) (f_ratio 235 10).

Lemma feed_uav_witness :
  let '(hb, n1) := Feed.heartbeat 255 in
  let '(gpi, n2) := Feed.global_position_int (λ x, x) (λ x, x) n1 ex_uav 1000 in
  let '(gps, _) := Feed.gps_raw_int n2 ex_uav 1000000 in
  ∃ s1 s2 s3 p q, parse_frame ex_mav hb = (s1, Ok None) ∧ parse_frame s1 gpi = (s2, Ok (Some p)) ∧ parse_frame s2 gps = (s3, Ok (Some q))
    ∧ raw p = hb ++ gpi ∧ raw q = gps.
Proof.
  pose proof (feed_uav (λ x, x) (λ x, x) ex_mav no_state 255 ex_uav 1000 1000000 eq_refl ltac:(unfold byte_ok; lia)
    ltac:(apply (bool_decide_eq_true_1 _); vm_compute; reflexivity) ltac:(apply (bool_decide_eq_true_1 _); vm_compute; reflexivity)) as H.
  destruct (Feed.heartbeat 255) as [hb n1]. destruct (Feed.global_position_int _ _ n1 ex_uav 1000) as [gpi n2]. destruct (Feed.gps_raw_int n2 ex_uav 1000000) as [gps n3].
  destruct H as (s1 & s2 & s3 & H1 & H2 & H3). exists s1, s2, s3. eexists _, _. split; [exact H1|]. split; [exact H2|]. split; [exact H3|]. by split.
Defined.
