(* ===== verification/FeedAst.v ===== *)
(** The synthetic feed's radar (rust/connectors/feed-synthetic/src/asterix.rs): a
    rotation of the radar as two datagrams, and what the ASTERIX connector makes of
    them. *)
From Stdlib Require Import ZArith Lia.
From Stdlib Require Import Strings.String.
From S2P Require Import Scenario.
From S2P Require Export Asterix.

Local Open Scope Z_scope.

(** * The generator *)

Module Radar.

(** An instant, as the time of day of it that is sent. *)
Record Observed := mkObserved { o_hour : Z; o_minute : Z; o_second : Z; o_milli : Z }.

Definition seconds (t : Observed) : f64 := seconds_since_midnight (o_hour t) (o_minute t) (o_second t) (o_milli t).

(** @src rust/connectors/feed-synthetic/src/asterix.rs 15-17 LSB_105 LSB_120 ANGLE_16 *)
Definition LSB_105 : f64 := f_div (f_of_Z 180) (f_of_Z (2 ^ 25)).
Definition LSB_120 : f64 := f_div (f_of_Z 180) (f_of_Z (2 ^ 23)).
Definition ANGLE_16 : f64 := f_div (f_of_Z 360) (f_of_Z 65536).
Definition NORTH_MARKER : Z := 1.

(** @src rust/connectors/feed-synthetic/src/asterix.rs 21-35 fspec *)
Definition fspec (frns : list Z) : bytes :=
  let octets := Z.to_nat ((foldr Z.max 0 frns + 6) / 7) in
  let f := fold_left (λ f n, alter (λ o, Z.lor o (Z.shiftr 0x80 ((n - 1) mod 7))) (Z.to_nat ((n - 1) / 7)) f)
             frns (replicate octets 0) in
  imap (λ i o, if (i <? octets - 1)%nat then Z.lor o 1 else o) f.

(** @src rust/connectors/feed-synthetic/src/asterix.rs 37-45 block *)
Definition block (cat : Z) (record : bytes) : bytes := cat :: be_enc 2 (wrap 16 (3 + zlen record)) ++ record.

Definition ticks (t : Observed) : Z := Z.land (as_u32 (f_mul (seconds t) (f_of_Z 128))) 0xFFFFFF.

(** @src rust/connectors/feed-synthetic/src/asterix.rs 47-51 tod *)
Definition tod (t : Observed) : bytes :=
  [wrap 8 (Z.shiftr (ticks t) 16); wrap 8 (Z.shiftr (ticks t) 8); wrap 8 (ticks t)].

(** @src rust/connectors/feed-synthetic/src/asterix.rs 53-66 aircraft_id *)
Definition aircraft_id (s : bytes) : bytes :=
  let v := fold_left (λ v k,
    let c := default 32 (s !! k) in
    let six := if (65 <=? c) && (c <=? 90) then c - 65 + 1 else if (48 <=? c) && (c <=? 57) then c - 48 + 48 else 32 in
    Z.lor v (Z.shiftl six (42 - 6 * Z.of_nat k))) (seq 0 8) 0 in
  drop 2 (be_enc 8 v).

(** @src rust/connectors/feed-synthetic/src/asterix.rs 68-72 i24 *)
Definition i24 (v : Z) : bytes :=
  let u := Z.land (wrap 32 v) 0xFFFFFF in
  [wrap 8 (Z.shiftr u 16); wrap 8 (Z.shiftr u 8); wrap 8 u].

Definition ICAO24 : bytes := [0x4C; 0xA2; 0xD6].
Definition CALLSIGN : bytes := s2b "BAW117".
Definition TRACK_NUMBER : Z := 4095.

Definition wire_lat (a : AircraftState) : Z := as_i32 (f_div (fix_lat (a_fix a)) LSB_105).
Definition wire_lon (a : AircraftState) : Z := as_i32 (f_div (fix_lon (a_fix a)) LSB_105).
Definition wire_level (a : AircraftState) : Z := as_i16 (f_div (f_mul (a_alt_m a) FT_PER_M) (f_of_Z 25)).
Definition wire_climb (a : AircraftState) : Z :=
  as_i16 (f_div (f_mul (f_mul (a_vertical_rate_mps a) FT_PER_M) (f_of_Z 60)) (f_ratio 25 4)).

Section radar.
Context `{T : Trig}.

Definition wire_vx (a : AircraftState) : Z :=
  as_i16 (f_mul (f_mul (a_speed_mps a) (sin (to_radians (a_course_deg a)))) (f_of_Z 4)).
Definition wire_vy (a : AircraftState) : Z :=
  as_i16 (f_mul (f_mul (a_speed_mps a) (cos (to_radians (a_course_deg a)))) (f_of_Z 4)).

(** @src rust/connectors/feed-synthetic/src/asterix.rs 74-93 cat062_track *)
Definition cat062_track (a : AircraftState) (observed : Observed) : bytes :=
  block 62
    (fspec [1; 4; 5; 7; 9; 11; 12; 17; 20] ++ [RADAR_SAC; RADAR_SIC] ++ tod observed
     ++ be_enc 4 (wire_lat a) ++ be_enc 4 (wire_lon a) ++ be_enc 2 (wire_vx a) ++ be_enc 2 (wire_vy a)
     ++ be_enc 2 668 ++ [0xC0] ++ ICAO24 ++ aircraft_id CALLSIGN ++ be_enc 2 TRACK_NUMBER
     ++ be_enc 2 (wire_level a) ++ be_enc 2 (wire_climb a)).

Definition plot_range (v : VesselState) : Z := as_u16 (f_round (bearing_range cos atan2 hypot RADAR (v_fix v)).2).
Definition plot_bearing (v : VesselState) : Z :=
  as_u16 (f_round (f_div (bearing_range cos atan2 hypot RADAR (v_fix v)).1 ANGLE_16)).

(** @src rust/connectors/feed-synthetic/src/asterix.rs 95-105 cat010_plot *)
Definition cat010_plot (v : VesselState) : bytes :=
  block 10 (fspec [1; 2; 6] ++ [RADAR_SAC; RADAR_SIC] ++ [1] ++ be_enc 2 (plot_range v) ++ be_enc 2 (plot_bearing v)).
End radar.

(** @src rust/connectors/feed-synthetic/src/asterix.rs 107-126 cat034_heartbeat *)
Definition cat034_heartbeat (observed : Observed) : bytes :=
  let '(r0, r1, a0, a1) := RADAR_WINDOW in
  block 34
    (fspec [1; 2; 3; 5; 9; 11] ++ [RADAR_SAC; RADAR_SIC] ++ [NORTH_MARKER] ++ tod observed
     ++ be_enc 2 (as_u16 (f_mul RADAR_SCAN_PERIOD_S (f_of_Z 128)))
     ++ be_enc 2 (as_u16 (f_mul r0 (f_of_Z 256))) ++ be_enc 2 (as_u16 (f_mul r1 (f_of_Z 256)))
     ++ be_enc 2 (as_u16 (f_div a0 ANGLE_16)) ++ be_enc 2 (as_u16 (f_div a1 ANGLE_16))
     ++ be_enc 2 (as_i16 RADAR_ALT_M) ++ i24 (as_i64 (f_div (fix_lat RADAR) LSB_120)) ++ i24 (as_i64 (f_div (fix_lon RADAR) LSB_120))).

(** @src rust/connectors/feed-synthetic/src/asterix.rs 128-134 rotation *)
Definition rotation `{Trig} (v : VesselState) (a : AircraftState) (observed : Observed) : bytes * bytes :=
  (cat034_heartbeat observed ++ cat010_plot v, cat062_track a observed).
End Radar.

(** * The octets of a value *)

Lemma u16_of p v t i : zlen p = i → u16_at (p ++ be_enc 2 v ++ t) i = Ok (v mod 2 ^ 16).
Proof.
  intros <-. pose proof (be_val_enc 2 v) as Hv. pose proof (be_enc_length 2 v) as Hl.
  destruct (be_enc 2 v) as [|a [|b [|? ?]]]; try done. unfold u16_at, idx. cbn [app]. rewrite get_at_app. cbn [or_panic mbind res_bind].
  pose proof (get_at_app (p ++ [a]) b t) as Hb. rewrite zlen_app, <- app_assoc in Hb. cbn [app] in Hb. change (zlen [a]) with 1 in Hb.
  rewrite Hb. cbn [or_panic mbind res_bind]. f_equal. change (be_val [a; b]) with (be_val ([a] ++ [b])) in Hv. rewrite be_val_app in Hv.
  change (be_val [a]) with (0 * 256 + a) in Hv. change (be_val [b]) with (0 * 256 + b) in Hv. change (256 ^ zlen [b]) with 256 in Hv.
  change (2 ^ 16) with (256 ^ Z.of_nat 2). lia.
Qed.

Lemma u16_small p v t i : zlen p = i → 0 ≤ v < 2 ^ 16 → u16_at (p ++ be_enc 2 v ++ t) i = Ok v.
Proof. intros Hp Hv. by rewrite (u16_of p v t i Hp), Z.mod_small. Qed.

Lemma i16_of p v t i : zlen p = i → - 2 ^ 15 ≤ v < 2 ^ 15 → i16_at (p ++ be_enc 2 v ++ t) i = Ok v.
Proof. intros Hp Hv. unfold i16_at. rewrite (u16_of p v t i Hp). cbn [mbind res_bind]. f_equal. by apply (to_signed_wrap 16). Qed.

Lemma signed_of p v t i n : zlen p = i → (0 < n <= 7)%nat → - 2 ^ (8 * Z.of_nat n - 1) ≤ v < 2 ^ (8 * Z.of_nat n - 1) →
  signed (p ++ be_enc n v ++ t) i n = Ok (f_of_Z v).
Proof.
  intros <- Hn Hv. unfold signed. rewrite be_uint_at; [|by rewrite be_enc_length|apply be_enc_ok|lia]. cbn [mbind res_bind].
  rewrite be_val_enc. assert (256 ^ Z.of_nat n = 2 ^ (8 * Z.of_nat n)) as -> by (rewrite Z.pow_mul_r by lia; done).
  pose proof (wrap_range (8 * Z.of_nat n) v ltac:(lia)) as Hw. fold (wrap (8 * Z.of_nat n) v).
  rewrite sign_extend_spec by lia. by rewrite to_signed_wrap by lia.
Qed.

(** Three octets taken by shifts are the three of the encoding. *)
Lemma three_octets v : 0 ≤ v → [wrap 8 (Z.shiftr v 16); wrap 8 (Z.shiftr v 8); wrap 8 v] = be_enc 3 v.
Proof.
  intros Hv. unfold wrap. rewrite !Z.shiftr_div_pow2 by lia. cbn [be_enc]. change (256 ^ Z.of_nat 2) with (2 ^ 16).
  change (256 ^ Z.of_nat 1) with (2 ^ 8). change (256 ^ Z.of_nat 0) with 1. by rewrite Z.div_1_r.
Qed.

Lemma ticks_range t : 0 ≤ Radar.ticks t < 2 ^ 24.
Proof. unfold Radar.ticks. change 0xFFFFFF with (Z.ones 24). rewrite Z.land_ones by lia. by apply Z.mod_pos_bound. Qed.

Lemma tod_enc t : Radar.tod t = be_enc 3 (Radar.ticks t).
Proof. pose proof (ticks_range t). unfold Radar.tod. rewrite three_octets by lia. reflexivity. Qed.

Lemma i24_enc v : Radar.i24 v = be_enc 3 (wrap 24 v).
Proof.
  unfold Radar.i24. change 0xFFFFFF with (Z.ones 24). rewrite Z.land_ones by lia. unfold wrap at 1 2 3 4 5 6.
  rewrite <- Znumtheory.Zmod_div_mod by (try lia; by exists (2 ^ 8)). apply three_octets. by apply Z.mod_pos_bound.
Qed.

Lemma tod_read t : time_of_day (Radar.tod t) = Ok (f_div (f_of_Z (Radar.ticks t)) (f_of_Z 128)).
Proof.
  unfold time_of_day. rewrite tod_enc. pose proof (be_uint_at [] (be_enc 3 (Radar.ticks t)) [] 3 ltac:(by rewrite be_enc_length) (be_enc_ok _ _) ltac:(lia)) as H.
  cbn [app] in H. rewrite app_nil_r in H. change (zlen []) with 0 in H. rewrite H. cbn [mbind res_bind]. do 3 f_equal.
  rewrite be_val_enc. apply Z.mod_small. apply ticks_range.
Qed.

Lemma i16_cast x : - 2 ^ 15 ≤ as_i16 x < 2 ^ 15.
Proof. pose proof (f_to_Z_range (- 2 ^ 15) (2 ^ 15 - 1) x). unfold as_i16. lia. Qed.
Lemma i32_cast x : - 2 ^ 31 ≤ as_i32 x < 2 ^ 31.
Proof. pose proof (f_to_Z_range (- 2 ^ 31) (2 ^ 31 - 1) x). unfold as_i32. lia. Qed.
Lemma u16_cast x : 0 ≤ as_u16 x < 2 ^ 16.
Proof. pose proof (f_to_Z_range 0 (2 ^ 16 - 1) x). unfold as_u16. lia. Qed.

(** * The datagrams as blocks of records *)

Lemma block_enc w : 3 + zlen (w_body w) < 2 ^ 16 → Radar.block (w_cat w) (w_body w) = enc_block w.
Proof. intros H. unfold Radar.block, enc_block. rewrite wrap_small; [done|]. pose proof (zlen_nonneg (w_body w)). lia. Qed.

Section radar.
Context `{T : Trig}.

Definition rec_plot (v : VesselState) : Rec :=
  ([(true, true, false, false, false, true, false)],
   [(10, [RADAR_SAC; RADAR_SIC]); (0, [1]); (40, be_enc 2 (Radar.plot_range v) ++ be_enc 2 (Radar.plot_bearing v))]).

Definition rec_track (a : AircraftState) (t : Radar.Observed) : Rec :=
  ([(true, false, false, true, true, false, true); (false, true, false, true, true, false, false); (false, false, true, false, false, true, false)],
   [(10, [RADAR_SAC; RADAR_SIC]); (70, Radar.tod t); (105, be_enc 4 (Radar.wire_lat a) ++ be_enc 4 (Radar.wire_lon a));
    (185, be_enc 2 (Radar.wire_vx a) ++ be_enc 2 (Radar.wire_vy a)); (60, be_enc 2 668);
    (380, 0xC0 :: Radar.ICAO24 ++ Radar.aircraft_id Radar.CALLSIGN); (40, be_enc 2 Radar.TRACK_NUMBER);
    (136, be_enc 2 (Radar.wire_level a)); (220, be_enc 2 (Radar.wire_climb a))]).

Definition site_bytes : bytes := Eval vm_compute in
  be_enc 2 (as_i16 RADAR_ALT_M) ++ Radar.i24 (as_i64 (f_div (fix_lat RADAR) Radar.LSB_120)) ++ Radar.i24 (as_i64 (f_div (fix_lon RADAR) Radar.LSB_120)).
Definition window_bytes : bytes := [0; 128; 12; 0; 64; 0; 192; 0].
Definition period_bytes : bytes := [1; 64].

Definition rec_north (t : Radar.Observed) : Rec :=
  ([(true, true, true, false, true, false, false); (false, true, false, true, false, false, false)],
   [(10, [RADAR_SAC; RADAR_SIC]); (0, [1]); (30, Radar.tod t); (41, period_bytes); (100, window_bytes); (120, site_bytes)]).

Lemma plot_ok v : record_ok UAP_010 (rec_plot v).1 (rec_plot v).2.
Proof.
  split; [done|]. cbn [rec_plot snd fst bitmap_bits mbind list_bind group_bits app UAP_010 items_wire].
  split_and!; try done; cbn [wire]; by rewrite ?zlen_app, ?be_enc_zlen.
Qed.

Lemma track_ok a t : record_ok UAP_062 (rec_track a t).1 (rec_track a t).2.
Proof.
  split; [done|]. cbn [rec_track snd fst bitmap_bits mbind list_bind group_bits app UAP_062 items_wire].
  split_and!; try done; cbn [wire]; rewrite ?zlen_app, ?be_enc_zlen; try done.
  exists [(true, true, false, false, false, false, false)], [Radar.ICAO24; Radar.aircraft_id Radar.CALLSIGN]. by vm_compute.
Qed.

Lemma north_ok t : record_ok UAP_034 (rec_north t).1 (rec_north t).2.
Proof. split; [done|]. cbn. done. Qed.

Lemma plot_bytes v : Radar.cat010_plot v = enc_block (WTracks CAT010 [rec_plot v]).
Proof.
  rewrite <- block_enc.
  - unfold Radar.cat010_plot. cbn [w_cat w_body fmap list_fmap concat rec_bytes rec_plot enc_record]. rewrite app_nil_r. done.
  - cbn [w_body fmap list_fmap concat rec_bytes]. rewrite app_nil_r. unfold rec_bytes, enc_record, rec_plot. cbn [fst snd fmap list_fmap concat].
    rewrite !zlen_app, !be_enc_zlen. done.
Qed.

Lemma track_bytes a t : Radar.cat062_track a t = enc_block (WTracks CAT062 [rec_track a t]).
Proof.
  rewrite <- block_enc.
  - unfold Radar.cat062_track. cbn [w_cat w_body fmap list_fmap concat rec_bytes rec_track enc_record]. rewrite app_nil_r.
    unfold rec_bytes, enc_record, rec_track. cbn [fst snd fmap list_fmap concat]. rewrite <- !app_assoc. done.
  - cbn [w_body fmap list_fmap concat]. unfold rec_bytes, enc_record, rec_track. cbn [fst snd fmap list_fmap concat].
    rewrite !zlen_app, !be_enc_zlen. done.
Qed.

Lemma north_bytes t : Radar.cat034_heartbeat t = enc_block (WService [rec_north t]).
Proof.
  rewrite <- block_enc.
  - unfold Radar.cat034_heartbeat. cbn [w_cat w_body fmap list_fmap concat]. rewrite app_nil_r.
    unfold rec_bytes, enc_record, rec_north. cbn [fst snd fmap list_fmap concat]. unfold RADAR_WINDOW.
    generalize (Radar.tod t). intros l. vm_compute. reflexivity.
  - done.
Qed.

(** * What the connector makes of the records *)

Definition plot_said (s : option Sensor) (v : VesselState) (x : AsterixTarget) : Prop :=
  AstWire.category x = CAT010 ∧ sac x = RADAR_SAC ∧ sic x = RADAR_SIC ∧ message_type x = Some TARGET_REPORT
  ∧ polar x = Some (f_div (f_of_Z (Radar.plot_range v)) NM_TO_M, f_mul (f_of_Z (Radar.plot_bearing v)) ANGLE_16)
  ∧ match s with
    | Some s => (lat x, lon x) = let '(la, lo) := forward_geodetic (s_lat s) (s_lon s) (f_mul (f_of_Z (Radar.plot_bearing v)) ANGLE_16)
                                   (f_mul (f_div (f_of_Z (Radar.plot_range v)) NM_TO_M) NM_TO_M) in (Some la, Some lo)
    | None => (lat x, lon x) = (None, None)
    end
  ∧ track x = None ∧ icao x = None ∧ callsign x = None ∧ squawk x = None ∧ time_of_day_s x = None
  ∧ raw x = drop 3 (Radar.cat010_plot v).

Definition track_said (a : AircraftState) (t : Radar.Observed) (x : AsterixTarget) : Prop :=
  let vx := f_mul (f_of_Z (Radar.wire_vx a)) (f_ratio 1 4) in
  let vy := f_mul (f_of_Z (Radar.wire_vy a)) (f_ratio 1 4) in
  AstWire.category x = CAT062 ∧ sac x = RADAR_SAC ∧ sic x = RADAR_SIC
  ∧ lat x = Some (f_mul (f_of_Z (Radar.wire_lat a)) LSB_105) ∧ lon x = Some (f_mul (f_of_Z (Radar.wire_lon a)) LSB_105)
  ∧ icao x = Some 0x4CA2D6 ∧ callsign x = Some "BAW117"%string ∧ squawk x = Some "1234"%string ∧ track x = Some Radar.TRACK_NUMBER
  ∧ alt_ft x = Some (f_mul (f_of_Z (Radar.wire_level a)) (f_of_Z 25))
  ∧ vertical_rate_ftmin x = Some (f_mul (f_of_Z (Radar.wire_climb a)) (f_ratio 25 4))
  ∧ ground_speed_kn x = Some (f_div (f_sqrt (f_add (f_mul vx vx) (f_mul vy vy))) KNOTS_TO_MPS)
  ∧ track_angle_deg x = Some (bearing vx vy)
  ∧ time_of_day_s x = Some (f_div (f_of_Z (Radar.ticks t)) (f_of_Z 128))
  ∧ raw x = drop 3 (Radar.cat062_track a t).

Definition north_said (known : RadarStatus) (t : Radar.Observed) (r : ServiceReport) : Prop :=
  r_sac r = RADAR_SAC ∧ r_sic r = RADAR_SIC ∧ r_message_type r = NORTH_MARKER ∧ is_published r = true
  ∧ r_tod r = Some (f_div (f_of_Z (Radar.ticks t)) (f_of_Z 128)) ∧ rotation_period_s r = Some RADAR_SCAN_PERIOD_S
  ∧ r_position r = Some (f_mul (f_of_Z (as_i64 (f_div (fix_lat RADAR) LSB_120))) LSB_120, f_mul (f_of_Z (as_i64 (f_div (fix_lon RADAR) LSB_120))) LSB_120, RADAR_ALT_M)
  ∧ window r = Some RADAR_WINDOW ∧ r_status r = known ∧ r_raw r = drop 3 (Radar.cat034_heartbeat t).

Lemma block_raw w : drop 3 (enc_block w) = w_body w.
Proof.
  unfold enc_block. pose proof (be_enc_length 2 (3 + zlen (w_body w))) as Hl. destruct (be_enc 2 _) as [|a [|b [|? ?]]]; try done.
Qed.

Lemma site_read t : site [RADAR_SAC; RADAR_SIC] t = Ok (set_site RADAR_SAC RADAR_SIC t).
Proof. reflexivity. Qed.

Lemma plot_read s v : ∃ x, decode_010 (rec_plot v).2 s = Ok x ∧ plot_said s v (set_raw (rec_bytes (rec_plot v)) x) ∧ is_track CAT010 x = true.
Proof.
  unfold decode_010. cbn [rec_plot snd for_items item_010 Z.eqb Pos.eqb].
  pose proof (u16_small [] (Radar.plot_range v) (be_enc 2 (Radar.plot_bearing v)) 0 eq_refl (u16_cast _)) as Hr. cbn [app] in Hr.
  pose proof (u16_small (be_enc 2 (Radar.plot_range v)) (Radar.plot_bearing v) [] 2 (be_enc_zlen _ _) (u16_cast _)) as Hb. rewrite app_nil_r in Hb.
  rewrite site_read. cbn [mbind res_bind]. change (idx [1] 0) with (@Ok AsterixError Z 1). cbn [mbind res_bind]. rewrite Hr, Hb. cbn [mbind res_bind].
  eexists. split; [reflexivity|]. unfold plot_said. rewrite plot_bytes, block_raw.
  cbn [w_body fmap list_fmap concat]. rewrite app_nil_r.
  destruct s as [s|]; [|done]. cbn -[forward_geodetic f_mul f_div f_of_Z]. by destruct (forward_geodetic _ _ _ _) as [la lo].
Qed.

Lemma sub_380_read t :
  for_items sub_380 (walk_compound SUB_380 (0xC0 :: Radar.ICAO24 ++ Radar.aircraft_id Radar.CALLSIGN)) t
  = Ok (set_callsign (Some "BAW117"%string) (set_icao (Some 0x4CA2D6) t)).
Proof.
  assert (walk_compound SUB_380 (0xC0 :: Radar.ICAO24 ++ Radar.aircraft_id Radar.CALLSIGN)
    = [(0%nat, Radar.ICAO24); (1%nat, Radar.aircraft_id Radar.CALLSIGN)]) as -> by (vm_compute; reflexivity).
  cbn [for_items sub_380].
  assert (be_uint Radar.ICAO24 0 3 = Ok 0x4CA2D6) as -> by (vm_compute; reflexivity). cbn [mbind res_bind].
  assert (aircraft_id (Radar.aircraft_id Radar.CALLSIGN) = Ok (Some "BAW117"%string)) as -> by (vm_compute; reflexivity). done.
Qed.

Lemma track_read a t : ∃ x, decode_062 (rec_track a t).2 = Ok x ∧ track_said a t (set_raw (rec_bytes (rec_track a t)) x) ∧ is_track CAT062 x = true.
Proof.
  unfold decode_062. cbn [rec_track snd for_items item_062 Z.eqb Pos.eqb].
  pose proof (signed_of [] (Radar.wire_lat a) (be_enc 4 (Radar.wire_lon a)) 0 4 eq_refl ltac:(lia) (i32_cast _)) as Hla.
  pose proof (signed_of (be_enc 4 (Radar.wire_lat a)) (Radar.wire_lon a) [] 4 4 (be_enc_zlen _ _) ltac:(lia) (i32_cast _)) as Hlo.
  pose proof (i16_of [] (Radar.wire_vx a) (be_enc 2 (Radar.wire_vy a)) 0 eq_refl (i16_cast _)) as Hx.
  pose proof (i16_of (be_enc 2 (Radar.wire_vx a)) (Radar.wire_vy a) [] 2 (be_enc_zlen _ _) (i16_cast _)) as Hy.
  pose proof (i16_of [] (Radar.wire_level a) [] 0 eq_refl (i16_cast _)) as Hl.
  pose proof (i16_of [] (Radar.wire_climb a) [] 0 eq_refl (i16_cast _)) as Hc.
  cbn [app] in Hla, Hx, Hl, Hc. rewrite app_nil_r in Hlo, Hy, Hl, Hc.
  assert (u16_at (be_enc 2 668) 0 = Ok 668) as Hs by (vm_compute; reflexivity).
  assert (u16_at (be_enc 2 Radar.TRACK_NUMBER) 0 = Ok Radar.TRACK_NUMBER) as Hn by (vm_compute; reflexivity).
  rewrite site_read. cbn [mbind res_bind]. rewrite tod_read, Hla, Hlo, Hx, Hy, Hs. cbn [mbind res_bind].
  rewrite sub_380_read. cbn [mbind res_bind]. rewrite Hn, Hl, Hc. cbn [mbind res_bind].
  eexists. split; [reflexivity|]. unfold track_said. rewrite track_bytes, block_raw.
  cbn [w_body fmap list_fmap concat]. rewrite app_nil_r. done.
Qed.

(** The marker's report, its time of day [d]. *)
Definition north_report (d : f64) : ServiceReport :=
  mkReport RADAR_SAC RADAR_SIC NORTH_MARKER (Some d) None (Some RADAR_SCAN_PERIOD_S)
    (Some (f_mul (f_of_Z (as_i64 (f_div (fix_lat RADAR) LSB_120))) LSB_120, f_mul (f_of_Z (as_i64 (f_div (fix_lon RADAR) LSB_120))) LSB_120, RADAR_ALT_M)) no_status (Some RADAR_WINDOW) [].

Lemma north_read t : decode_034 (rec_north t).2 = Ok (north_report (f_div (f_of_Z (Radar.ticks t)) (f_of_Z 128))).
Proof.
  unfold decode_034. cbn [rec_north snd]. generalize (tod_read t). generalize (Radar.tod t), (f_div (f_of_Z (Radar.ticks t)) (f_of_Z 128)). intros l d Hd.
  change (for_items item_034 ([(10, [RADAR_SAC; RADAR_SIC]); (0, [1]); (30, l); (41, period_bytes); (100, window_bytes); (120, site_bytes)]) no_report)
    with (t ← (v ← time_of_day l; Ok (mkReport RADAR_SAC RADAR_SIC 1 (Some v) None None None no_status None []));
       for_items item_034 [(41, period_bytes); (100, window_bytes); (120, site_bytes)] t).
  rewrite Hd. vm_compute. reflexivity.
Qed.

Lemma first_block_ok v t : Forall block_ok [WService [rec_north t]; WTracks CAT010 [rec_plot v]].
Proof.
  constructor; [|constructor; [|constructor]].
  - split; [done|]. constructor; [apply north_ok|constructor].
  - split.
    + cbn [w_body fmap list_fmap concat]. unfold rec_bytes, enc_record, rec_plot. cbn [fst snd fmap list_fmap concat].
      rewrite !zlen_app, !be_enc_zlen. done.
    + eexists _, _. split; [reflexivity|]. constructor; [apply plot_ok|constructor].
Qed.

Lemma second_block_ok a t : Forall block_ok [WTracks CAT062 [rec_track a t]].
Proof.
  constructor; [|constructor]. split.
  - cbn [w_body fmap list_fmap concat]. unfold rec_bytes, enc_record, rec_track. cbn [fst snd fmap list_fmap concat].
    rewrite !zlen_app, !be_enc_zlen. done.
  - eexists _, _. split; [reflexivity|]. constructor; [apply track_ok|constructor].
Qed.

(** A datagram of good blocks is read as what they are. *)
Lemma datagram_read self ws : Forall block_ok ws → parse_datagram self (concat (enc_block <$> ws)) = datagram_of self ws.
Proof. intros H. apply blocks_enc; [done|apply enc_blocks_length]. Qed.

(** What the parser keeps of the radar after a north marker. *)
Definition known_of (self : AsterixParser) : RadarStatus := merge_status (default no_status (radar_status self !! (RADAR_SAC, RADAR_SIC))) no_status.
Definition after_north (self : AsterixParser) : AsterixParser :=
  let s := count NorthMarkers (put_status (RADAR_SAC, RADAR_SIC) (known_of self) self) in
  if degraded (known_of self) then count RadarDegraded s else s.

Lemma sensor_after self : sensor (after_north self) = sensor self.
Proof. unfold after_north. destruct (degraded _); by destruct self. Qed.

Lemma north_service self d b : service_report self (with_raw (north_report d) b) = (after_north self, with_status (with_raw (north_report d) b) (known_of self)).
Proof. reflexivity. Qed.

(** * Properties *)

(** C33: what the synthetic feed's radar says in a rotation is what the connector reads.
    The first datagram is a north marker with the radar's site, window and period,
    then the vessel's plot, with no time and no identity, at the range and bearing put
    on the wire, placed from the configured sensor; the second is the airliner's track,
    with its address, call sign, squawk and track number, at the position, level and
    velocity put on the wire. Each carries its own record's bytes, and the marker
    keeps what was known of the radar and is counted, as degraded if it was. *)
Theorem feed_radar self v a t :
  let '(first, second) := Radar.rotation v a t in
  ∃ plot north track,
    parse_datagram self first = (after_north self, Ok ([plot], [north]))
    ∧ parse_datagram (after_north self) second = (after_north self, Ok ([track], []))
    ∧ plot_said (sensor self) v plot ∧ north_said (known_of self) t north ∧ track_said a t track.
Proof.
  unfold Radar.rotation. destruct (plot_read (sensor self) v) as (x & Hx & Hxs & Hxt). destruct (track_read a t) as (y & Hy & Hys & Hyt).
  eexists _, _, _. split; [|split; [|split; [exact Hxs|split; [|exact Hys]]]].
  - rewrite north_bytes, plot_bytes. pose proof (datagram_read self _ (first_block_ok v t)) as H. cbn [fmap list_fmap concat] in H.
    rewrite app_nil_r in H. rewrite H. cbn [datagram_of block_of services_of]. rewrite north_read.
    rewrite north_service. cbn [mbind res_bind]. change (Asterix.category CAT010) with (Some (UAP_010, decode_010)). cbn [tracks_of].
    rewrite sensor_after, Hx. cbn [mbind res_bind]. rewrite Hxt. cbn [app]. reflexivity.
  - rewrite track_bytes. pose proof (datagram_read (after_north self) _ (second_block_ok a t)) as H. cbn [fmap list_fmap concat] in H.
    rewrite app_nil_r in H. rewrite H. cbn [datagram_of block_of]. change (Asterix.category CAT062) with (Some (UAP_062, λ items (_ : option Sensor), decode_062 items)).
    cbn [tracks_of]. rewrite Hy. cbn [mbind res_bind]. rewrite Hyt. cbn [app]. reflexivity.
  - unfold north_said. rewrite north_bytes, block_raw. cbn [w_body fmap list_fmap concat]. rewrite app_nil_r. done.
Qed.
End radar.

(** * An example *)

#[local] Instance ex_trig : Trig := {|
  sin := λ x, x; cos := λ x, x; asin := λ x, x; atan2 := λ x _, x; hypot := λ x _, x
|}.

(** The vessel east of the radar, one second past midnight. *)
Example first_rotation :
  (Radar.rotation (mkVesselState (mkFix (f_ratio 507900 10000) (f_of_Z (-1))) (f_of_Z 118) (f_of_Z 8)) (aircraft_at sin cos (f_of_Z 0)) (Radar.mkObserved 0 0 1 0)).1
  = [34; 0; 29; 0xE9; 0x50; 25; 10; 1; 0; 0; 128; 1; 64] ++ window_bytes ++ site_bytes ++ [10; 0; 11; 0xC4; 25; 10; 1; 0; 0; 138; 40].
Proof. vm_compute. reflexivity. Qed.
