(* ===== verification/FeedSbs.v ===== *)
(** The synthetic feed's ADS-B receiver (rust/connectors/feed-synthetic/src/adsb.rs):
    a report cycle as SBS-1 lines, and what the ADS-B connector makes of them. *)
From Stdlib Require Import ZArith Lia.
From Stdlib Require Import Strings.String.
From S2P Require Import Scenario.
From S2P Require Export Event Adsb.

Local Open Scope Z_scope.

(** * The generator *)

Module Sbs.

(** An instant as a calendar date and a time of day in UTC. *)
Record Instant := mkInstant { year : Z; month : Z; day : Z; hour : Z; minute : Z; second : Z; millisecond : Z }.

(** [join]. *)
Fixpoint join (sep : Z) (l : list bytes) : bytes :=
  match l with [] => [] | [a] => a | a :: l => a ++ sep :: join sep l end.

Definition padded (w : nat) (n : Z) : bytes := pad_zeros w (show_bytes n).
Definition date (t : Instant) : bytes := padded 4 (year t) ++ [47] ++ padded 2 (month t) ++ [47] ++ padded 2 (day t).
Definition clock (t : Instant) : bytes :=
  padded 2 (hour t) ++ [58] ++ padded 2 (minute t) ++ [58] ++ padded 2 (second t) ++ [46] ++ padded 3 (millisecond t).

Definition ICAO24_HEX : bytes := s2b "4CA2D6".
Definition CALLSIGN : bytes := s2b "BAW117".
Definition SQUAWK : bytes := s2b "1234".

(** The fields of a line: those every line has, then the ones given. *)
(** @src rust/connectors/feed-synthetic/src/adsb.rs 12-41 line *)
Definition line_fields (msg_type : Z) (t : Instant) (fields : list (nat * bytes)) : list bytes :=
  fold_left (λ f '(i, v), <[i := v]> f) fields
    ([s2b "MSG"; show_bytes msg_type; s2b "1"; s2b "1"; ICAO24_HEX; s2b "1"; date t; clock t; date t; clock t] ++ replicate 12 []).

(** @src rust/connectors/feed-synthetic/src/adsb.rs 42-43 line *)
Definition line (msg_type : Z) (t : Instant) (fields : list (nat * bytes)) : bytes :=
  join 44 (line_fields msg_type t fields) ++ [13; 10].

Definition said (p : nat) (x : f64) : bytes := s2b (fmt_fixed p x).
Definition alt_ft (a : Scenario.AircraftState) : f64 := f_mul (a_alt_m a) FT_PER_M.
Definition speed_kn (a : Scenario.AircraftState) : f64 := f_mul (a_speed_mps a) MPS_TO_KN.
Definition climb_ftmin (a : Scenario.AircraftState) : f64 := f_mul (a_vertical_rate_mps a) FTMIN_PER_MPS.

(** The four messages of a cycle: type, and the fields of each. *)
(** @src rust/connectors/feed-synthetic/src/adsb.rs 48-67 report *)
Definition messages (a : Scenario.AircraftState) : list (Z * list (nat * bytes)) :=
  [(1, [(10%nat, CALLSIGN)]);
   (3, [(11%nat, said 0 (alt_ft a)); (14%nat, said 6 (fix_lat (a_fix a))); (15%nat, said 6 (fix_lon (a_fix a)))]);
   (4, [(12%nat, said 0 (speed_kn a)); (13%nat, said 0 (a_course_deg a)); (16%nat, said 0 (climb_ftmin a))]);
   (6, [(17%nat, SQUAWK)])].

(** @src rust/connectors/feed-synthetic/src/adsb.rs 45-69 report *)
Definition report (a : Scenario.AircraftState) (t : Instant) : bytes :=
  concat ((λ '(ty, fields), line ty t fields) <$> messages a).
End Sbs.

(** * A number printed is read as the decimal it was printed as *)

Lemma digits_Z_fold l acc : fold_left (λ a b, a * 10 + (b - 48)) l acc = acc * 10 ^ zlen l + digits_Z l.
Proof.
  revert acc. unfold digits_Z. induction l as [|b l IH]; intros acc; cbn [fold_left]; [change (10 ^ zlen []) with 1; lia|].
  rewrite IH, (IH (0 * 10 + (b - 48))), zlen_cons, Z.pow_add_r by (pose proof (zlen_nonneg l); lia). change (10 ^ 1) with 10. ring.
Qed.

Lemma digits_Z_app l k : digits_Z (l ++ k) = digits_Z l * 10 ^ zlen k + digits_Z k.
Proof. unfold digits_Z at 1. rewrite fold_left_app. apply digits_Z_fold. Qed.

Lemma digits_val_Z l acc v : Forall (λ b, is_digit b = true) l → digits_val 10 acc l = Some v → v = fold_left (λ a b, a * 10 + (b - 48)) l acc.
Proof.
  intros H. revert acc. induction H as [|b l Hb Hl IH]; intros acc; cbn [digits_val fold_left]; [by intros [= ->]|].
  unfold digit_val. rewrite Hb. replace (b - 48 <? 10) with true by (unfold is_digit in Hb; lia). apply IH.
Qed.

Lemma show_digits_Z n : 0 ≤ n → digits_Z (show_bytes n) = n.
Proof.
  intros Hn. pose proof (show_bytes_digits n Hn) as [_ Hd]. symmetry. by apply (digits_val_Z _ 0 n Hd), show_bytes_val.
Qed.

Lemma dec_digits_len fuel : ∀ z p, 0 ≤ z < 10 ^ Z.of_nat p → (0 < p)%nat → (length (dec_digits fuel z []) <= p)%nat.
Proof.
  induction fuel as [|fuel IH]; intros z p Hz Hp; [cbn; lia|]. cbn [dec_digits]. destruct (Z.ltb_spec z 10); [cbn; lia|].
  rewrite dec_digits_acc, length_app. cbn [length]. destruct p as [|[|p]]; [lia|cbn in Hz; lia|].
  specialize (IH (z / 10) (S p)). rewrite Nat2Z.inj_succ, Z.pow_succ_r in Hz by lia. enough (length (dec_digits fuel (z / 10) []) <= S p)%nat by lia.
  apply IH; [|lia]. split; [apply Z.div_pos; lia|]. apply Z.div_lt_upper_bound; lia.
Qed.

Lemma pad_zeros_digits p n : (0 < p)%nat → 0 ≤ n < 10 ^ Z.of_nat p →
  let l := pad_zeros p (show_bytes n) in zlen l = Z.of_nat p ∧ digits_Z l = n ∧ Forall (λ b, is_digit b = true) l.
Proof.
  intros Hp Hn l. unfold l, pad_zeros. pose proof (show_bytes_digits n ltac:(lia)) as [_ Hd].
  assert (length (show_bytes n) <= p)%nat as Hl by (unfold show_bytes, dec_nat; replace (n <? 0) with false by lia; by apply dec_digits_len).
  split_and!.
  - unfold zlen. rewrite length_app, length_replicate. lia.
  - rewrite digits_Z_app, (show_digits_Z n) by lia. enough (∀ k, digits_Z (replicate k 48) = 0) as -> by lia.
    induction k as [|k IH]; [done|]. exact IH.
  - apply Forall_app. split; [by apply Forall_replicate|done].
Qed.

Lemma digit_lower l k : Forall (λ b, is_digit b = true) l → l ≠ [] → ∃ b m, l ++ k = b :: m ∧ is_digit b = true.
Proof. intros H Hl. destruct l as [|b l]; [done|]. apply Forall_cons in H as [H _]. by exists b, (l ++ k). Qed.

(** A decimal of digits, a point if any, and digits. *)
Lemma parse_decimal (s : bool) ip fp (p : nat) : Forall (λ b, is_digit b = true) ip → ip ≠ [] → Forall (λ b, is_digit b = true) fp →
  (p = O → fp = []) →
  parse_f64 ((if s then [45] else []) ++ ip ++ match p with O => [] | S _ => 46 :: fp end) = Some (f_of_decimal s (digits_Z (ip ++ fp)) (0 - zlen fp)).
Proof.
  intros Hi Hn Hf Hp. set (t := ip ++ _). destruct (digit_lower ip (match p with O => [] | S _ => 46 :: fp end) Hi Hn) as (b & m & Ht & Hb). fold t in Ht.
  assert (take_sign ((if s then [45] else []) ++ t) = (s, t)) as Es.
  { destruct s; [done|]. cbn [app]. rewrite Ht. unfold is_digit in Hb. unfold take_sign.
    destruct (decide (b = 45)) as [->|]; [done|]. destruct (decide (b = 43)) as [->|]; [done|].
    destruct b as [|b|b]; [done| |done]. repeat (destruct b as [b|b|]; try done). }
  unfold parse_f64. rewrite Es.
  assert (∀ c w, is_digit c = false → to_lower <$> t ≠ c :: w) as Hlow.
  { intros c w Hc E. rewrite Ht in E. cbn [fmap list_fmap] in E. injection E as E _. rewrite <- E in Hc. unfold to_lower, is_digit in *.
    replace (is_upper b) with false in Hc by (unfold is_upper; lia). lia. }
  rewrite !bool_decide_false by (apply Hlow; reflexivity). cbn [orb].
  assert (span_digits t = (ip, match p with O => [] | S _ => 46 :: fp end)) as ->.
  { apply span_digits_app; [done|]. intros x. by destruct p; [|intros [= <-]]. }
  destruct p as [|p].
  - rewrite (Hp eq_refl), !app_nil_r. by destruct ip.
  - pose proof (span_digits_app fp [] Hf ltac:(done)) as Hs. rewrite app_nil_r in Hs. rewrite Hs.
    destruct (ip ++ fp) as [|d ds] eqn:E; [by destruct ip|]. reflexivity.
Qed.

(** The decimal [p] places show of a finite number, as a sign and the digits. *)
Definition fixed_of (p : nat) (x : f64) : option (bool * Z) :=
  match x with
  | S754_zero s => Some (s, 0)
  | S754_finite s m e =>
      Some (s, if 0 <=? e then div_half_even (Zpos m * 2 ^ e * 10 ^ Z.of_nat p) 1 else div_half_even (Zpos m * 10 ^ Z.of_nat p) (2 ^ (- e)))
  | _ => None
  end.

(** The number those digits stand for. *)
Definition printed (p : nat) (x : f64) : f64 := match fixed_of p x with Some (s, n) => f_of_decimal s n (- Z.of_nat p) | None => x end.

Lemma div_half_even_nonneg n d : 0 ≤ n → 0 < d → 0 ≤ div_half_even n d.
Proof.
  intros Hn Hd. unfold div_half_even. pose proof (Z.div_pos n d Hn Hd).
  repeat match goal with |- context [if ?b then _ else _] => destruct b end; lia.
Qed.

Lemma fmt_digits p v s : 0 ≤ v →
  let t := (if s : bool then [45] else []) ++ show_bytes (v / 10 ^ Z.of_nat p) ++ match p with O => [] | S _ => 46 :: pad_zeros p (show_bytes (v mod 10 ^ Z.of_nat p)) end in
  Forall (λ b, 45 ≤ b < 58) t ∧ t ≠ [] ∧ parse_f64 t = Some (f_of_decimal s v (- Z.of_nat p)).
Proof.
  intros Hv. pose proof (Z.pow_pos_nonneg 10 (Z.of_nat p) ltac:(lia) ltac:(lia)) as Hp.
  pose proof (Z.div_pos v _ Hv Hp) as Hq. pose proof (Z.mod_pos_bound v _ Hp) as Hr.
  pose proof (show_bytes_digits _ Hq) as [Hn Hd]. cbv zeta.
  assert (∀ l, Forall (λ b, is_digit b = true) l → Forall (λ b, 45 ≤ b < 58) l) as Hdig.
  { intros l H. eapply Forall_impl; [exact H|]. intros b Hb. unfold is_digit in Hb. lia. }
  destruct p as [|p].
  - split_and!.
    + apply Forall_app. split; [destruct s; repeat constructor; lia|]. rewrite app_nil_r. by apply Hdig.
    + destruct s; [done|]. by destruct (show_bytes _).
    + rewrite (parse_decimal s _ [] 0) by done. rewrite app_nil_r, show_digits_Z by done. change (10 ^ Z.of_nat 0) with 1.
      by rewrite Z.div_1_r.
  - destruct (pad_zeros_digits (S p) (v mod 10 ^ Z.of_nat (S p)) ltac:(lia) Hr) as (Hl & Hz & Hf). split_and!.
    + apply Forall_app. split; [destruct s; repeat constructor; lia|]. apply Forall_app. split; [by apply Hdig|].
      constructor; [lia|by apply Hdig].
    + destruct s; [done|]. by destruct (show_bytes _).
    + rewrite (parse_decimal s _ _ (S p)) by done. rewrite digits_Z_app, show_digits_Z, Hl, Hz by done. do 2 f_equal.
      pose proof (Z.div_mod v (10 ^ Z.of_nat (S p)) ltac:(lia)). lia.
Qed.

Lemma fmt_read p x : Forall (λ b, 45 ≤ b < 128) (Sbs.said p x) ∧ Sbs.said p x ≠ [] ∧ parse_f64 (Sbs.said p x) = Some (printed p x).
Proof.
  assert (∀ s v, 0 ≤ v →
    let t := s2b (b2s ((if s : bool then [45] else []) ++ show_bytes (v / 10 ^ Z.of_nat p) ++ match p with O => [] | S _ => 46 :: pad_zeros p (show_bytes (v mod 10 ^ Z.of_nat p)) end)) in
    Forall (λ b, 45 ≤ b < 128) t ∧ t ≠ [] ∧ parse_f64 t = Some (f_of_decimal s v (- Z.of_nat p))) as H.
  { intros s v Hv. destruct (fmt_digits p v s Hv) as (H1 & H2 & H3). cbv zeta in *. rewrite s2b_b2s.
    - split; [|done]. eapply Forall_impl; [exact H1|]. cbn. lia.
    - eapply Forall_impl; [exact H1|]. unfold byte_ok. cbn. lia. }
  unfold Sbs.said, printed. destruct x as [s|s| |s m e]; cbn [fmt_fixed fixed_of].
  - assert (div_half_even (0 * 10 ^ Z.of_nat p) 1 = 0) as -> by done. by apply (H s 0).
  - destruct s; (split; [apply (bool_decide_eq_true_1 _); vm_compute; reflexivity|done]).
  - split; [apply (bool_decide_eq_true_1 _); vm_compute; reflexivity|done].
  - destruct (0 <=? e) eqn:He; apply H, div_half_even_nonneg; try lia.
Qed.

(** * The lines as fields *)

(** The field's bytes stand apart from the separators. *)
Definition plain (l : bytes) : Prop := Forall (λ b, 45 ≤ b < 128) l.

Lemma plain_solid l : plain l → solid l.
Proof. intros H. eapply Forall_impl; [exact H|]. intros b Hb. cbn in *. unfold ws1. lia. Qed.

Lemma split_join l : l ≠ [] → Forall plain l → split_on 44 (Sbs.join 44 l) = l.
Proof.
  intros Hn H. induction H as [|a l Ha Hl IH]; [done|].
  assert (Forall (λ b, b ≠ 44) a) as Ha' by (eapply Forall_impl; [exact Ha|cbn; lia]).
  destruct l as [|b l]; [by apply split_on_id|]. change (Sbs.join 44 (a :: b :: l)) with (a ++ 44 :: Sbs.join 44 (b :: l)).
  by rewrite split_on_app, IH.
Qed.

Lemma join_chars l : Forall plain l → Forall (λ b, 44 ≤ b < 128) (Sbs.join 44 l).
Proof.
  induction 1 as [|a l Ha Hl IH]; [constructor|]. assert (Forall (λ b, 44 ≤ b < 128) a) as Ha' by (eapply Forall_impl; [exact Ha|cbn; lia]).
  destruct l as [|b l]; [done|]. change (Sbs.join 44 (a :: b :: l)) with (a ++ 44 :: Sbs.join 44 (b :: l)).
  apply Forall_app. split; [done|]. constructor; [lia|done].
Qed.

(** How much of a line's end the framing leaves. *)
Definition line_end (e : bytes) : Prop := e = [] ∨ e = [13] ∨ e = [13; 10].

Lemma end_trimmed l e : Forall (λ b, 44 ≤ b < 128) l → line_end e → trim_end_matches (λ b, (b =? 13) || (b =? 10)) (l ++ e) = l.
Proof.
  intros Hl He. unfold trim_end_matches. rewrite rev_app_distr.
  assert (drop_while (λ b, (b =? 13) || (b =? 10)) (rev e ++ rev l) = rev l) as ->; [|apply rev_involutive].
  assert (drop_while (λ b, (b =? 13) || (b =? 10)) (rev l) = rev l) as H.
  { assert (Forall (λ b, 44 ≤ b < 128) (rev l)) as Hr by (by apply Forall_rev). destruct (rev l) as [|b m]; [done|].
    apply Forall_cons in Hr as [Hb _]. cbn [drop_while]. by replace ((b =? 13) || (b =? 10)) with false by lia. }
  by destruct He as [-> | [-> | ->]].
Qed.

Lemma message_of f e : Forall plain f → (∃ m a, get f 4 = Some a ∧ f = s2b "MSG" :: m ∧ m ≠ []) → line_end e →
  message (Sbs.join 44 f ++ e) = a ← ok_or NoIcao (field f 4); Ok (Some (b2s (to_upper <$> a), f, Sbs.join 44 f)).
Proof.
  intros Hf (m & a & Ha & Ef & Hm) He. pose proof (join_chars f Hf) as Hj. unfold message. rewrite utf8_ascii.
  2: { apply Forall_app. split; [eapply Forall_impl; [exact Hj|cbn; lia]|]. destruct He as [-> | [-> | ->]]; repeat (constructor; [lia|]); constructor. }
  cbn [negb]. rewrite end_trimmed by done. pose proof (split_join f ltac:(by rewrite Ef) Hf) as Hs.
  destruct (Sbs.join 44 f) as [|b l] eqn:E.
  { exfalso. rewrite Ef in E. destruct m; [done|]. cbn in E. done. }
  rewrite Hs. assert (idx (E := AdsbError) f 0 = Ok (s2b "MSG")) as -> by (by rewrite Ef).
  cbn [mbind res_bind]. rewrite bool_decide_true by done. done.
Qed.

Lemma field_said f i l : get f i = Some l → plain l → l ≠ [] → field f i = Some l.
Proof. intros Hg Hp Hn. unfold field. rewrite Hg. cbn [fmap option_fmap option_map]. rewrite trim_plain by (by apply plain_solid). by destruct l. Qed.
Lemma field_empty f i : get f i = Some [] → field f i = None.
Proof. intros Hg. unfold field. by rewrite Hg. Qed.
Lemma num_said f i p x : get f i = Some (Sbs.said p x) → num f i = Some (printed p x).
Proof. intros Hg. destruct (fmt_read p x) as (H1 & H2 & H3). unfold num. by rewrite (field_said _ _ _ Hg H1 H2). Qed.
Lemma num_empty f i : get f i = Some [] → num f i = None.
Proof. intros Hg. unfold num. by rewrite field_empty. Qed.

(** * A line and the aircraft's state *)

Definition instant_ok (t : Sbs.Instant) : Prop :=
  0 ≤ Sbs.year t ∧ 0 ≤ Sbs.month t ∧ 0 ≤ Sbs.day t ∧ 0 ≤ Sbs.hour t ∧ 0 ≤ Sbs.minute t ∧ 0 ≤ Sbs.second t ∧ 0 ≤ Sbs.millisecond t.

Lemma padded_plain w n : 0 ≤ n → plain (Sbs.padded w n).
Proof.
  intros Hn. pose proof (show_bytes_digits n Hn) as [_ Hd]. apply Forall_app. split.
  - apply Forall_replicate. cbn. lia.
  - eapply Forall_impl; [exact Hd|]. intros b Hb. cbn. unfold is_digit in Hb. lia.
Qed.

Lemma times_plain t : instant_ok t → plain (Sbs.date t) ∧ plain (Sbs.clock t).
Proof.
  intros (H1 & H2 & H3 & H4 & H5 & H6 & H7).
  assert (∀ a c b, plain a → 45 ≤ c < 128 → plain b → plain (a ++ [c] ++ b)) as H.
  { intros a c b Ha Hc Hb. apply Forall_app. split; [done|]. by constructor. }
  split; repeat (apply H; [by apply padded_plain|lia|]); by apply padded_plain.
Qed.

(** What is kept of an aircraft. *)
Definition state_of (s : AdsbParser) (a : string) : AircraftState := e_state (default no_entry (cmap (aircraft s) !! a)).

Definition altitude_m (st : AircraftState) : f64 := match altitude_ft st with Some ft => f_mul ft FT_TO_M | None => f_zero end.

Lemma line_effect s frame a parts line : adsb_ok s → message frame = Ok (Some (a, parts, line)) →
  let st := update_state parts (state_of s a) in
  ∃ s' rw tr, parse_line s frame
    = (s', Ok ((λ '(ty, la, lo), mkAdsbPosition a ty la lo (altitude_m st) st rw tr) <$> fix_of parts (field parts 1 ≫= parse_u8)))
    ∧ adsb_ok s' ∧ state_of s' a = st.
Proof.
  intros Hok Hm st. pose proof (parse_line_ok s frame Hok) as [Hok' _]. unfold parse_line in *. rewrite Hm in *.
  destruct Hok as [Hc He]. pose proof (entry_get a (aircraft s) Hc) as Hg. destruct (entry a (aircraft s)) as [cache e]. cbn [snd] in Hg.
  assert (entry_ok e) as Hee by (rewrite Hg; destruct (cmap (aircraft s) !! a) eqn:E; [by apply (He a)|apply no_entry_ok]).
  pose proof (adsb_push_spec e line Hee) as Hp. destruct (push_raw e line) as [e' k]. destruct Hp as (_ & Hst & _).
  assert (update_state parts (e_state e') = st) as E by (unfold st, state_of; by rewrite Hst, Hg). rewrite E in *.
  destruct (fix_of _ _) as [[[ty la] lo]|]; cbn [e_state drain_payload pending dropped_since_emit fmap option_fmap option_map] in *.
  - eexists _, _, _. split; [reflexivity|]. split; [exact Hok'|]. unfold state_of. cbn [aircraft put cmap]. by rewrite lookup_insert_eq.
  - eexists _, [], false. split; [reflexivity|]. split; [exact Hok'|]. unfold state_of. cbn [aircraft put cmap]. by rewrite lookup_insert_eq.
Qed.

Definition ICAO : string := "4CA2D6".

(** A line of the cycle is a message about the airliner. *)
Lemma cycle_message ty t fields e : 0 ≤ ty → instant_ok t → line_end e → Forall (λ '(i, v), (10 <= i)%nat ∧ plain v) fields →
  let f := Sbs.line_fields ty t fields in
  message (Sbs.join 44 f ++ e) = Ok (Some (ICAO, f, Sbs.join 44 f)).
Proof.
  intros Hty Ht He Hf f. destruct (times_plain t Ht) as [Hd Hc].
  set (base := [s2b "MSG"; show_bytes ty; s2b "1"; s2b "1"; Sbs.ICAO24_HEX; s2b "1"; Sbs.date t; Sbs.clock t; Sbs.date t; Sbs.clock t]).
  assert (∃ r, f = base ++ r ∧ Forall plain f) as (r & Er & Hp).
  { assert (∀ r, Forall plain (base ++ r) → ∃ r', fold_left (λ f '(i, v), <[i := v]> f) fields (base ++ r) = base ++ r' ∧ Forall plain (base ++ r')) as H.
    { induction Hf as [|[i v] fields [Hi Hv] Hf IH]; intros r Hr; [by exists r|]. cbn [fold_left].
      rewrite insert_app_r_alt by (cbn; lia). apply IH. apply Forall_app in Hr as [Hb Hr]. apply Forall_app. split; [done|]. by apply Forall_insert. }
    destruct (H (replicate 12 [])) as (r & Er & Hp).
    - assert (∀ s, plain (s2b s) → Forall plain [s2b s]) as _ by (intros; by constructor).
      assert (plain (show_bytes ty)) as Hs by (pose proof (show_bytes_digits ty Hty) as [_ H']; eapply Forall_impl; [exact H'|]; intros b Hb; unfold is_digit in Hb; cbn; lia).
      apply Forall_app. split; [|apply Forall_replicate; constructor]. unfold base.
      repeat (constructor; [first [done|apply (bool_decide_eq_true_1 _); vm_compute; reflexivity]|]). constructor.
    - exists r. unfold f, Sbs.line_fields. fold base. rewrite Er. by split. }
  assert (get f 4 = Some Sbs.ICAO24_HEX) as H4 by (rewrite Er; apply (get_at_app (take 4 base))).
  rewrite message_of; [|done| |done].
  - rewrite (field_said f 4 Sbs.ICAO24_HEX H4) by (try done; apply (bool_decide_eq_true_1 _); vm_compute; reflexivity). cbn [ok_or mbind res_bind].
    reflexivity.
  - exists (tail base ++ r), Sbs.ICAO24_HEX. split; [done|]. by rewrite Er.
Qed.

(** What each message of the cycle adds to the state. *)
Ltac read_fields :=
  unfold update_state;
  repeat match goal with
  | |- context [num ?f ?i] => first [rewrite (num_said f i _ _ eq_refl) | rewrite (num_empty f i eq_refl)]
  | |- context [field ?f ?i] =>
      first [rewrite (field_empty f i eq_refl)
            | rewrite (field_said f i _ eq_refl) by first [done | apply (bool_decide_eq_true_1 _); vm_compute; reflexivity]]
  end.

Section cycle.
Variables (t : Sbs.Instant) (a : Scenario.AircraftState).
Implicit Types (st : AircraftState).

Definition with_callsign st : AircraftState :=
  mkAircraft (Some "BAW117"%string) (squawk st) (ground_speed_kn st) (track_deg st) (vertical_rate_ftmin st) (altitude_ft st) (on_ground st).
Definition with_altitude st : AircraftState :=
  mkAircraft (callsign st) (squawk st) (ground_speed_kn st) (track_deg st) (vertical_rate_ftmin st) (Some (printed 0 (Sbs.alt_ft a))) (on_ground st).
Definition with_velocity st : AircraftState :=
  mkAircraft (callsign st) (squawk st) (Some (printed 0 (Sbs.speed_kn a))) (Some (printed 0 (a_course_deg a)))
    (Some (printed 0 (Sbs.climb_ftmin a))) (altitude_ft st) (on_ground st).
Definition with_squawk st : AircraftState :=
  mkAircraft (callsign st) (Some "1234"%string) (ground_speed_kn st) (track_deg st) (vertical_rate_ftmin st) (altitude_ft st) (on_ground st).

Lemma type_said ty fields : 0 ≤ ty < 256 → Forall (λ '(i, _), (10 <= i)%nat) fields →
  field (Sbs.line_fields ty t fields) 1 ≫= parse_u8 = Some ty.
Proof.
  intros Hty Hf. pose proof (show_bytes_digits ty ltac:(lia)) as [Hn Hd].
  assert (get (Sbs.line_fields ty t fields) 1 = Some (show_bytes ty)) as Hg.
  { unfold Sbs.line_fields. change ([s2b "MSG"; show_bytes ty; s2b "1"; s2b "1"; Sbs.ICAO24_HEX; s2b "1"; Sbs.date t; Sbs.clock t; Sbs.date t; Sbs.clock t] ++ replicate 12 [])
      with ([s2b "MSG"; show_bytes ty] ++ ([s2b "1"; s2b "1"; Sbs.ICAO24_HEX; s2b "1"; Sbs.date t; Sbs.clock t; Sbs.date t; Sbs.clock t] ++ replicate 12 [])).
    generalize ([s2b "1"; s2b "1"; Sbs.ICAO24_HEX; s2b "1"; Sbs.date t; Sbs.clock t; Sbs.date t; Sbs.clock t] ++ replicate 12 []).
    induction Hf as [|[i v] fields Hi Hf IH]; intros r; [apply (get_at_app [s2b "MSG"])|]. cbn [fold_left].
    rewrite insert_app_r_alt by (cbn; lia). apply IH. }
  rewrite (field_said _ _ _ Hg); [apply (parse_show 256); lia| |done].
  eapply Forall_impl; [exact Hd|]. intros b Hb. unfold is_digit in Hb. cbn. lia.
Qed.

Lemma identity_read st : update_state (Sbs.line_fields 1 t [(10%nat, Sbs.CALLSIGN)]) st = with_callsign st.
Proof. read_fields. reflexivity. Qed.

Lemma position_read st :
  let f := Sbs.line_fields 3 t [(11%nat, Sbs.said 0 (Sbs.alt_ft a)); (14%nat, Sbs.said 6 (fix_lat (a_fix a))); (15%nat, Sbs.said 6 (fix_lon (a_fix a)))] in
  update_state f st = with_altitude st ∧ num f 14 = Some (printed 6 (fix_lat (a_fix a))) ∧ num f 15 = Some (printed 6 (fix_lon (a_fix a))).
Proof. split; [read_fields; reflexivity|]. split; by apply num_said. Qed.

Lemma velocity_read st :
  update_state (Sbs.line_fields 4 t [(12%nat, Sbs.said 0 (Sbs.speed_kn a)); (13%nat, Sbs.said 0 (a_course_deg a)); (16%nat, Sbs.said 0 (Sbs.climb_ftmin a))]) st
  = with_velocity st.
Proof. read_fields. reflexivity. Qed.

Lemma squawk_read st : update_state (Sbs.line_fields 6 t [(17%nat, Sbs.SQUAWK)]) st = with_squawk st.
Proof. read_fields. reflexivity. Qed.
End cycle.

(** * Properties *)

(** what the synthetic feed's receiver says of its airliner in a report cycle is
    what the connector reads, however much of each line's end the framing leaves: the
    position line comes out as one position, at the coordinates and altitude as they
    were printed and with the call sign; the three other lines report nothing, and
    after them speed, course, climb and squawk as printed are kept for the next
    position. *)
Theorem feed_airliner s a t e1 e2 e3 e4 :
  adsb_ok s → instant_ok t → line_end e1 → line_end e2 → line_end e3 → line_end e4 →
  in_range (f_of_Z (-90)) (f_of_Z 90) (printed 6 (fix_lat (a_fix a))) = true →
  in_range (f_of_Z (-180)) (f_of_Z 180) (printed 6 (fix_lon (a_fix a))) = true →
  let st := with_altitude a (with_callsign (state_of s ICAO)) in
  ∃ l1 l2 l3 l4 s1 s2 s3 s4 rw tr,
    Sbs.report a t = concat ((λ l, l ++ [13; 10]) <$> [l1; l2; l3; l4])
    ∧ parse_line s (l1 ++ e1) = (s1, Ok None)
    ∧ parse_line s1 (l2 ++ e2) = (s2, Ok (Some (mkAdsbPosition ICAO 3 (printed 6 (fix_lat (a_fix a))) (printed 6 (fix_lon (a_fix a)))
        (f_mul (printed 0 (Sbs.alt_ft a)) FT_TO_M) st rw tr)))
    ∧ parse_line s2 (l3 ++ e3) = (s3, Ok None)
    ∧ parse_line s3 (l4 ++ e4) = (s4, Ok None)
    ∧ state_of s4 ICAO = with_squawk (with_velocity a st).
Proof.
  intros Hok Ht He1 He2 He3 He4 Hla Hlo st.
  pose proof (λ p x, proj1 (fmt_read p x)) as Hsaid.
  assert (plain Sbs.CALLSIGN ∧ plain Sbs.SQUAWK) as [Hcs Hsq] by (split; apply (bool_decide_eq_true_1 _); vm_compute; reflexivity).
  assert (∀ ty fields, 0 ≤ ty < 256 → ty ≠ 2 ∧ ty ≠ 3 → Forall (λ '(i, v), (10 <= i)%nat ∧ plain v) fields →
    fix_of (Sbs.line_fields ty t fields) (field (Sbs.line_fields ty t fields) 1 ≫= parse_u8) = None) as Hnone.
  { intros ty fields Hty [H2 H3] Hf. rewrite type_said; [|done|eapply Forall_impl; [exact Hf|by intros [? ?] [? ?]]].
    unfold fix_of. cbn [mbind option_bind]. replace ((ty =? 2) || (ty =? 3)) with false by lia. done. }
  assert (Forall (λ '(i, v), (10 <= i)%nat ∧ plain v) [(10%nat, Sbs.CALLSIGN)]) as F1 by (repeat constructor; done || lia).
  destruct (line_effect s _ _ _ _ Hok (cycle_message 1 t _ e1 ltac:(lia) Ht He1 F1)) as (s1 & rw1 & tr1 & P1 & Ok1 & St1).
  rewrite Hnone in P1 by (done || lia). rewrite identity_read in St1.
  set (f2 := [(11%nat, Sbs.said 0 (Sbs.alt_ft a)); (14%nat, Sbs.said 6 (fix_lat (a_fix a))); (15%nat, Sbs.said 6 (fix_lon (a_fix a)))]).
  assert (Forall (λ '(i, v), (10 <= i)%nat ∧ plain v) f2) as F2 by (repeat constructor; first [lia|apply Hsaid]).
  destruct (line_effect s1 _ _ _ _ Ok1 (cycle_message 3 t f2 e2 ltac:(lia) Ht He2 F2)) as (s2 & rw2 & tr2 & P2 & Ok2 & St2).
  rewrite St1 in P2, St2. destruct (position_read t a (with_callsign (state_of s ICAO))) as (Hu & H14 & H15). fold f2 in Hu, H14, H15.
  rewrite Hu in P2, St2. fold st in P2, St2.
  assert (fix_of (Sbs.line_fields 3 t f2) (field (Sbs.line_fields 3 t f2) 1 ≫= parse_u8) = Some (3, printed 6 (fix_lat (a_fix a)), printed 6 (fix_lon (a_fix a)))) as Hfix.
  { rewrite type_said; [|lia|eapply Forall_impl; [exact F2|by intros [? ?] [? ?]]]. unfold fix_of. cbn [mbind option_bind].
    rewrite H14, H15. cbn [mbind option_bind]. rewrite Hla, Hlo. done. }
  rewrite Hfix in P2. cbn [fmap option_fmap option_map] in P2.
  set (f3 := [(12%nat, Sbs.said 0 (Sbs.speed_kn a)); (13%nat, Sbs.said 0 (a_course_deg a)); (16%nat, Sbs.said 0 (Sbs.climb_ftmin a))]).
  assert (Forall (λ '(i, v), (10 <= i)%nat ∧ plain v) f3) as F3 by (repeat constructor; first [lia|apply Hsaid]).
  destruct (line_effect s2 _ _ _ _ Ok2 (cycle_message 4 t f3 e3 ltac:(lia) Ht He3 F3)) as (s3 & rw3 & tr3 & P3 & Ok3 & St3).
  rewrite Hnone in P3 by (done || lia). pose proof (velocity_read t a st) as Hv. fold f3 in Hv. rewrite St2, Hv in St3.
  assert (Forall (λ '(i, v), (10 <= i)%nat ∧ plain v) [(17%nat, Sbs.SQUAWK)]) as F4 by (repeat constructor; done || lia).
  destruct (line_effect s3 _ _ _ _ Ok3 (cycle_message 6 t _ e4 ltac:(lia) Ht He4 F4)) as (s4 & rw4 & tr4 & P4 & _ & St4).
  rewrite Hnone in P4 by (done || lia). rewrite St3, squawk_read in St4.
  eexists _, _, _, _, s1, s2, s3, s4, rw2, tr2. split_and!; [|exact P1|exact P2|exact P3|exact P4|exact St4].
  reflexivity.
Qed.

(** * Witness *)

Definition ex_airliner : Scenario.AircraftState :=
  Scenario.mkAircraftState (mkFix (f_ratio 509300 10000) (f_ratio (-5000) 10000)) (f_of_Z 271) (f_ratio 2315 10) (f_of_Z 10668) (f_ratio (-254) 100).
Definition ex_instant : Sbs.Instant := Sbs.mkInstant 2026 7 4 12 30 5 250.

Lemma feed_airliner_witness :
  ∃ l1 l2 l3 l4 s1 s2 s3 s4 p,
    Sbs.report ex_airliner ex_instant = concat ((λ l, l ++ [13; 10]) <$> [l1; l2; l3; l4])
    ∧ parse_line (adsb_new "a" (mkEnrichment None)) (l1 ++ []) = (s1, Ok None) ∧ parse_line s1 (l2 ++ [13]) = (s2, Ok (Some p))
    ∧ parse_line s2 (l3 ++ []) = (s3, Ok None) ∧ parse_line s3 (l4 ++ [13; 10]) = (s4, Ok None)
    ∧ lat p = f_ratio 5093 100 ∧ callsign (state p) = Some "BAW117"%string ∧ squawk (state_of s4 ICAO) = Some "1234"%string.
Proof.
  destruct (feed_airliner (adsb_new "a" (mkEnrichment None)) ex_airliner ex_instant [] [13] [] [13; 10]) as (l1 & l2 & l3 & l4 & s1 & s2 & s3 & s4 & rw & tr & H0 & H1 & H2 & H3 & H4 & H5).
  - apply adsb_new_ok.
  - unfold instant_ok. cbn. lia.
  - by left.
  - by right; left.
  - by left.
  - by right; right.
  - vm_compute. reflexivity.
  - vm_compute. reflexivity.
  - exists l1, l2, l3, l4, s1, s2, s3, s4. eexists. split_and!; [exact H0|exact H1|exact H2|exact H3|exact H4|vm_compute; reflexivity|reflexivity|].
    rewrite H5. reflexivity.
Defined.

(** The position line on the wire. *)
Example second_line :
  Sbs.line 3 ex_instant [(11%nat, Sbs.said 0 (Sbs.alt_ft ex_airliner)); (14%nat, Sbs.said 6 (fix_lat (a_fix ex_airliner))); (15%nat, Sbs.said 6 (fix_lon (a_fix ex_airliner)))]
  = s2b "MSG,3,1,1,4CA2D6,1,2026/07/04,12:30:05.250,2026/07/04,12:30:05.250,,35000,,,50.930000,-0.500000,,,,,," ++ [13; 10].
Proof. vm_compute. reflexivity. Qed.
