(* ===== verification/Process.v ===== *)
(** What stands around a connector's loop: the health endpoint
    (rust/connectors/common/src/health.rs), the profile it publishes
    (rust/ajar-connector/src/profile.rs) and the socket of the UDP transport
    (rust/connectors/common/src/udp.rs). *)
From Stdlib Require Import ZArith Lia.
From Stdlib Require Import Strings.String.
From S2P Require Import Runtime.
From S2P Require Export Keys Json.

Local Open Scope Z_scope.

(** * The health endpoint *)

Module Health.

Definition CRLF : bytes := [13; 10].

(** @src rust/connectors/common/src/health.rs 58-83 spawn *)
Definition runtime_counters (m : Metrics) (extra : list (string * Z)) : list (string * Z) :=
  [("connector_received_total", received m); ("connector_published_total", published m);
   ("connector_rejected_total", m_rejected m); ("connector_dropped_backpressure_total", dropped_backpressure m);
   ("connector_ungoverned_total", m_ungoverned m); ("connector_spooled_total", spooled m);
   ("connector_drained_total", drained m); ("connector_spool_corrupt_total", spool_corrupt m);
   ("connector_spool_dropped_segments_total", spool_dropped_segments m); ("connector_spool_failed_total", spool_failed m)]%string
  ++ extra.

(** @src rust/connectors/common/src/health.rs 36-47 spawn_counters *)
Definition body (counters : list (string * Z)) (req : bytes) : bytes :=
  if starts_with (s2b "GET /metrics") req then counters ≫= λ '(name, value), s2b name ++ [32] ++ show_bytes value ++ [10]
  else s2b "ok".

(** What a connection is answered, from what its first read brought; a read that
    failed or timed out brought nothing. *)
(** @src rust/connectors/common/src/health.rs 29-54 spawn_counters *)
Definition answer (counters : list (string * Z)) (first_read : option bytes) : bytes :=
  let req := utf8_lossy (take 512 (default [] first_read)) in
  let b := body counters req in
  s2b "HTTP/1.1 200 OK" ++ CRLF ++ s2b "Content-Type: text/plain" ++ CRLF ++ s2b "Content-Length: " ++ show_bytes (zlen b) ++ CRLF
  ++ s2b "Connection: close" ++ CRLF ++ CRLF ++ b.
End Health.

(** A client of the endpoint: the length stated and the body, of an answer with the
    four lines above. *)
Definition scraped (answer : bytes) : option (Z * bytes) :=
  rest ← strip_prefix (s2b "HTTP/1.1 200 OK" ++ Health.CRLF ++ s2b "Content-Type: text/plain" ++ Health.CRLF ++ s2b "Content-Length: ") answer;
  let '(digits, rest) := span_digits rest in
  len ← parse_uint 10 (2 ^ 64) digits;
  b ← strip_prefix (Health.CRLF ++ s2b "Connection: close" ++ Health.CRLF ++ Health.CRLF) rest;
  Some (len, b).

(** The counters a body states, one to a line, its name up to the space. *)
Fixpoint samples (lines : list bytes) : option (list (string * Z)) :=
  match lines with
  | [] => None
  | [[]] => Some []
  | l :: lines =>
      '(name, value) ← (match split_on 32 l with [n; v] => Some (n, v) | _ => None end);
      v ← parse_u64 value;
      rest ← samples lines;
      Some ((b2s name, v) :: rest)
  end.

(** * The published profile *)

Module Published.

Section profile.
Context `{C : Ed25519} `{K : !KeyCodec C} `{H : Hex}.

(** @src rust/ajar-connector/src/profile.rs 8-23 ConnectorProfile *)
Record ConnectorProfile := mkProfile {
  p_source_id : string;
  p_allowed_entity_types : list string;
  p_max_payload_bytes : Z;
  p_rate_capacity : Z;
  p_rate_refill_per_sec : f64;
  p_verifying_key : vkey
}.

(** @src rust/ajar-connector/src/profile.rs 36-46 ConnectorProfile::new *)
Definition profile_new (source_id : string) (k : vkey) : ConnectorProfile := mkProfile source_id [] (64 * 1024) 100 (f_of_Z 10) k.

(** @src rust/ajar-connector/src/profile.rs 48-52 ConnectorProfile::allow_entity_type *)
Definition allow_entity_type (t : string) (p : ConnectorProfile) : ConnectorProfile :=
  mkProfile (p_source_id p) (p_allowed_entity_types p ++ [t]) (p_max_payload_bytes p) (p_rate_capacity p) (p_rate_refill_per_sec p) (p_verifying_key p).

(** @src rust/ajar-connector/src/profile.rs 54-58 ConnectorProfile::max_payload_bytes *)
Definition with_max_payload_bytes (n : Z) (p : ConnectorProfile) : ConnectorProfile :=
  mkProfile (p_source_id p) (p_allowed_entity_types p) n (p_rate_capacity p) (p_rate_refill_per_sec p) (p_verifying_key p).

(** @src rust/ajar-connector/src/profile.rs 60-65 ConnectorProfile::rate_limit *)
Definition rate_limit (capacity : Z) (refill : f64) (p : ConnectorProfile) : ConnectorProfile :=
  mkProfile (p_source_id p) (p_allowed_entity_types p) (p_max_payload_bytes p) capacity refill (p_verifying_key p).

Definition field (k : string) (v : Value) : string * Value := (k, v).

(** The object serde_json writes, its fields in the order of the structure. *)
(** @src rust/ajar-connector/src/profile.rs 67-76 ConnectorProfile::wire *)
Definition to_wire (p : ConnectorProfile) : Value :=
  Obj [field "source_id" (Str (p_source_id p));
       field "allowed_entity_types" (Arr (Str <$> p_allowed_entity_types p));
       field "max_payload_bytes" (Numeral (show (p_max_payload_bytes p)));
       field "rate_capacity" (Numeral (show (p_rate_capacity p)));
       field "rate_refill_per_sec" (Number (p_rate_refill_per_sec p));
       field "verifying_key_hex" (Str (b2s (hex_encode (vk_to_bytes (p_verifying_key p)))))].
End profile.
End Published.

(** * The UDP socket *)

Module Udp.

(** A dotted IPv4 address: four decimal numbers of at most three digits, without
    leading zeros. *)
Definition octet (l : bytes) : option Z :=
  match l with
  | [] => None
  | 48 :: _ :: _ => None
  | _ => if 3 <? zlen l then None else if forallb is_digit l then parse_uint 10 256 l else None
  end.
Definition parse_ipv4 (l : bytes) : option (list Z) :=
  match split_on 46 l with
  | [a; b; c; d] => a ← octet a; b ← octet b; c ← octet c; d ← octet d; Some [a; b; c; d]
  | _ => None
  end.
Definition UNSPECIFIED : list Z := [0; 0; 0; 0].

(** An IPv4 address and a port; any other text, one of IPv6 among them, has none. *)
Definition parse_socket (l : bytes) : option (list Z * Z) :=
  match split_on 58 l with
  | [a; p] => ip ← parse_ipv4 a; port ← (if forallb is_digit p then parse_uint 10 65536 p else None); Some (ip, port)
  | _ => None
  end.

Inductive OpenError := BadBind | BadGroup | BadInterface | Refused (step : string).

(** The socket: where it listens, and the group it joined on an interface. *)
Record Socket := mkSocket { listens : list Z * Z; joined : option (list Z * list Z) }.

Section kernel.
(** What the kernel answers to [bind] and to [join_multicast_v4]. *)
Variable can_bind : list Z * Z → bool.
Variable can_join : list Z → list Z → bool.

(** @src rust/connectors/common/src/udp.rs 26-89 open *)
Definition open (bind : bytes) (group interface : option bytes) : res OpenError Socket :=
  '(ip, port) ← ok_or BadBind (parse_socket bind);
  match group with
  | Some group =>
      group ← ok_or BadGroup (parse_ipv4 group);
      iface ← match interface with Some i => ok_or BadInterface (parse_ipv4 i) | None => Ok ip end;
      guard_res (can_bind (UNSPECIFIED, port)) (Refused "bind") ;;
      guard_res (can_join group iface) (Refused "join") ;;
      Ok (mkSocket (UNSPECIFIED, port) (Some (group, iface)))
  | None =>
      guard_res (can_bind (ip, port)) (Refused "bind") ;;
      Ok (mkSocket (ip, port) None)
  end.
End kernel.

(** One datagram is one frame, cut to the buffer. *)
(** @src rust/connectors/common/src/udp.rs 16-24 UdpSource::recv *)
Definition recv (buf_len : Z) (datagram : bytes) : bytes := take (Z.to_nat buf_len) datagram.
End Udp.

(** * Lemmas *)

Lemma strip_prefix_app p r : strip_prefix p (p ++ r) = Some r.
Proof. by apply strip_prefix_Some. Qed.

Lemma samples_read counters : Forall (λ '(n, v), Forall (λ b, b ≠ 10 ∧ b ≠ 32) (s2b n) ∧ 0 ≤ v < 2 ^ 64) counters →
  samples (split_on 10 (counters ≫= λ '(name, value), s2b name ++ [32] ++ show_bytes value ++ [10])) = Some counters.
Proof.
  induction 1 as [|[n v] counters [Hn Hv] Hc IH]; [done|]. cbn [mbind list_bind].
  pose proof (show_bytes_digits v ltac:(lia)) as [Hne Hd].
  assert (∀ c, c < 48 → Forall (λ b, b ≠ c) (show_bytes v)) as Happart by (intros c Hc'; eapply Forall_impl; [exact Hd|]; intros b Hb; unfold is_digit in Hb; lia).
  assert (Forall (λ b, b ≠ 10) (s2b n ++ [32] ++ show_bytes v)) as Hline.
  { apply Forall_app. split; [eapply Forall_impl; [exact Hn|by intros b [? _]]|]. constructor; [lia|]. apply Happart. lia. }
  rewrite <- !app_assoc. rewrite (app_assoc [32]), (app_assoc (s2b n)). change ([10] ++ ?l) with (10 :: l). rewrite split_on_app by done.
  cbn [samples]. assert (split_on 32 (s2b n ++ [32] ++ show_bytes v) = [s2b n; show_bytes v]) as Es.
  { change ([32] ++ show_bytes v) with (32 :: show_bytes v). rewrite split_on_app by (eapply Forall_impl; [exact Hn|by intros b [_ ?]]).
    rewrite split_on_id by (apply Happart; lia). done. }
  destruct (s2b n ++ [32] ++ show_bytes v) as [|b l] eqn:E; [by destruct (s2b n)|].
  rewrite Es. cbn [mbind option_bind]. unfold parse_u64. rewrite parse_show by lia. cbn [mbind option_bind]. cbn [mbind list_bind] in IH. rewrite IH.
  cbn [mbind option_bind]. by rewrite b2s_s2b.
Qed.

Lemma utf8_lossy_prefix a t : Forall (λ b, 0 ≤ b < 128) a → utf8_lossy (a ++ t) = a ++ utf8_lossy t.
Proof. induction 1 as [|b a Hb Ha IH]; [done|]. cbn [app utf8_lossy]. replace (b <? 128) with true by lia. by rewrite IH. Qed.

Lemma answer_scraped counters first_read : let b := Health.body counters (utf8_lossy (take 512 (default [] first_read))) in
  zlen b < 2 ^ 64 → scraped (Health.answer counters first_read) = Some (zlen b, b).
Proof.
  intros b Hb. pose proof (zlen_nonneg b) as H0. unfold Health.answer, scraped. fold b.
  set (head := s2b "HTTP/1.1 200 OK" ++ Health.CRLF ++ s2b "Content-Type: text/plain" ++ Health.CRLF ++ s2b "Content-Length: ").
  set (mid := Health.CRLF ++ s2b "Connection: close" ++ Health.CRLF ++ Health.CRLF).
  assert (s2b "HTTP/1.1 200 OK" ++ Health.CRLF ++ s2b "Content-Type: text/plain" ++ Health.CRLF ++ s2b "Content-Length: " ++ show_bytes (zlen b) ++ Health.CRLF
    ++ s2b "Connection: close" ++ Health.CRLF ++ Health.CRLF ++ b = head ++ show_bytes (zlen b) ++ mid ++ b) as -> by (unfold head, mid; by rewrite <- !app_assoc).
  rewrite strip_prefix_app. cbn [mbind option_bind]. rewrite span_digits_app; [|by apply show_bytes_digits|by intros x [= <-]].
  rewrite parse_show by lia. cbn [mbind option_bind]. rewrite strip_prefix_app. done.
Qed.

(** * Properties *)

(** a scrape of the health endpoint reads every counter as it is. To a request for
    the metrics that fits the first read, whatever follows it, the answer states the
    length of its body and the body, a line to a counter, reads back as the runtime's
    ten counters and the parser's, by name, in order and to the last value of 64 bits;
    to any other request, or none, the answer is a well-formed [ok]. *)
Theorem metrics_scraped m extra :
  let counters := Health.runtime_counters m extra in
  Forall (λ '(n, v), Forall (λ b, b ≠ 10 ∧ b ≠ 32) (s2b n) ∧ 0 ≤ v < 2 ^ 64) counters →
  (∀ t, zlen (Health.body counters (s2b "GET /metrics")) < 2 ^ 64 →
     ∃ b, scraped (Health.answer counters (Some (s2b "GET /metrics" ++ t))) = Some (zlen b, b) ∧ samples (split_on 10 b) = Some counters)
  ∧ (∀ r, starts_with (s2b "GET /metrics") (utf8_lossy (take 512 (default [] r))) = false →
       scraped (Health.answer counters r) = Some (2, s2b "ok")).
Proof.
  intros counters Hc. split.
  - intros t Hl. assert (Health.body counters (utf8_lossy (take 512 (default [] (Some (s2b "GET /metrics" ++ t))))) = Health.body counters (s2b "GET /metrics")) as E.
    { unfold Health.body. change (default [] (Some (s2b "GET /metrics" ++ t))) with (s2b "GET /metrics" ++ t). assert (starts_with (s2b "GET /metrics") (utf8_lossy (take 512 (s2b "GET /metrics" ++ t))) = true) as ->; [|done].
      apply starts_with_spec. rewrite take_app_ge by (vm_compute; lia). rewrite utf8_lossy_prefix by (apply (bool_decide_eq_true_1 _); vm_compute; reflexivity).
      by eexists. }
    exists (Health.body counters (s2b "GET /metrics")). split.
    + pose proof (answer_scraped counters (Some (s2b "GET /metrics" ++ t))) as H. cbv zeta in H. rewrite E in H. by apply H.
    + by apply samples_read.
  - intros r Hr. pose proof (answer_scraped counters r) as H. cbv zeta in H. unfold Health.body in H. rewrite Hr in H. by apply H.
Qed.

(** The key in a profile is read by the sink's own reader. *)
Lemma profile_key `{C : Ed25519} `{CL : !Ed25519Laws C} `{K : !KeyCodec C} `{KL : !KeyCodecLaws K} `{H : Hex} `{HL : !HexLaws H} (p : Published.ConnectorProfile) :
  ∃ text, Published.to_wire p = Obj (take 5 (match Published.to_wire p with Obj l => l | _ => [] end) ++ [("verifying_key_hex"%string, Str text)])
    ∧ decode_key (s2b text) = Ok (Published.p_verifying_key p).
Proof.
  eexists. split; [reflexivity|]. rewrite s2b_b2s.
  - apply decode_key_hex, vk_text.
  - eapply Forall_impl; [apply hex_lower, vk_bytes|]. unfold lower_hex, byte_ok. intros b Hb. lia.
Qed.

(** * Witness *)

Definition ex_metrics : Metrics := mkMetrics 5 4 1 0 0 0 0 0 0 (2 ^ 64 - 1).

Lemma metrics_scraped_witness :
  ∃ b, scraped (Health.answer (Health.runtime_counters ex_metrics [("ais_dropped_total"%string, 7)]) (Some (s2b "GET /metrics" ++ s2b " HTTP/1.1"))) = Some (zlen b, b)
    ∧ samples (split_on 10 b) = Some (Health.runtime_counters ex_metrics [("ais_dropped_total"%string, 7)]).
Proof.
  apply (metrics_scraped ex_metrics [("ais_dropped_total"%string, 7)]); [|vm_compute; reflexivity].
  repeat (constructor; [split; [apply (bool_decide_eq_true_1 _); vm_compute; reflexivity|vm_compute; split; [done|reflexivity]]|]). constructor.
Defined.

Example udp_opens :
  Udp.open (λ _, true) (λ _ _, true) (s2b "192.168.1.5:8600") (Some (s2b "232.1.1.1")) None
  = Ok (Udp.mkSocket (Udp.UNSPECIFIED, 8600) (Some ([232; 1; 1; 1], [192; 168; 1; 5])))
  ∧ Udp.open (λ _, true) (λ _ _, true) (s2b "[::]:8600") None None = Err Udp.BadBind
  ∧ Udp.open (λ _, true) (λ _ _, true) (s2b "0.0.0.0:8600") (Some (s2b "239.01.1.1")) None = Err Udp.BadGroup.
Proof. split_and!; vm_compute; reflexivity. Qed.
