(* ===== verification/Tools.v ===== *)
(** The command-line tools that judge events: [ajar-verify]
    (rust/ajar-verify/src/main.rs), which checks one sealed event, and
    [ajar-conformance] (rust/conformance/src/main.rs), which checks an
    implementation against the golden vectors. Files, standard input and the
    implementation's runs are inputs; SHA-256, hex and the protobuf decoder are
    parameters. *)
From Stdlib Require Import ZArith Lia.
From Stdlib Require Import Strings.String.
From S2P Require Import Xml.
From S2P Require Export Keys.

Local Open Scope Z_scope.

(** A line feed ends each of these lines. *)
Definition text_of_lines (ls : list string) : bytes := ls ≫= λ l, s2b l ++ [10].

(** * ajar-verify *)

Module Verify.

(** @src rust/ajar-verify/src/main.rs 14-32 USAGE *)
Definition USAGE : bytes := text_of_lines
  ["ajar-verify — check the seal on an Ajar event"; ""; "USAGE:";
   "    ajar-verify --key <HEX> [FILE]"; "    ajar-verify --key-file <PATH> [FILE]"; "";
   "The event is read from FILE, or from stdin when FILE is omitted."; ""; "OPTIONS:";
   "    --key <HEX>         32-byte Ed25519 verifying key as 64 hex characters";
   "    --key-file <PATH>   file holding the key as raw bytes or hex";
   "    --quiet             verify only; print nothing on success";
   "    --help              show this message"; ""; "EXIT STATUS:";
   "    0   the seal verified"; "    1   the seal did not verify, or the input could not be read"]%string.

(** What a run finds: the files that can be read, and standard input. *)
Record World := mkWorld { files : gmap string bytes; stdin : option bytes }.

(** Why a run fails: the messages of its errors. *)
Inductive VerifyError :=
| NeedsValue (option_ : string)
| UnknownOption (option_ : string)
| BothKeys
| NoKey
| NotRead (path : option string)
| KeyRefused (e : KeyError)
| SealRefused (e : SealError)
| NotAnEvent.

Record Options := mkOptions { key_hex : option string; key_file : option string; input : option string; quiet : bool }.

(** @src rust/ajar-verify/src/main.rs 55-69 run *)
Fixpoint read_args (args : list string) (o : Options) : res VerifyError Options :=
  match args with
  | [] => Ok o
  | arg :: args =>
      if bool_decide (arg = "--key"%string) then
        match args with
        | v :: args => read_args args (mkOptions (Some v) (key_file o) (input o) (quiet o))
        | [] => Err (NeedsValue arg)
        end
      else if bool_decide (arg = "--key-file"%string) then
        match args with
        | v :: args => read_args args (mkOptions (key_hex o) (Some v) (input o) (quiet o))
        | [] => Err (NeedsValue arg)
        end
      else if bool_decide (arg = "--quiet"%string) || bool_decide (arg = "-q"%string) then
        read_args args (mkOptions (key_hex o) (key_file o) (input o) true)
      else if starts_with (s2b "-") (s2b arg) then Err (UnknownOption arg)
      else read_args args (mkOptions (key_hex o) (key_file o) (Some arg) (quiet o))
  end.

Section verify.
Context `{C : Ed25519} `{K : !KeyCodec C} `{H : Hex}.
Variable decode : bytes → option Event.

(** @src rust/ajar-verify/src/main.rs 71-79 run *)
Definition key_of (w : World) (o : Options) : res VerifyError vkey :=
  match key_hex o, key_file o with
  | Some hex, None => map_err KeyRefused (parse_key (trim (s2b hex)))
  | None, Some path => raw ← ok_or (NotRead (Some path)) (files w !! path); map_err KeyRefused (parse_key raw)
  | Some _, Some _ => Err BothKeys
  | None, None => Err NoKey
  end.

(** @src rust/ajar-verify/src/main.rs 81-90 run *)
Definition input_of (w : World) (o : Options) : res VerifyError bytes :=
  match input o with
  | Some path => ok_or (NotRead (Some path)) (files w !! path)
  | None => ok_or (NotRead None) (stdin w)
  end.

(** The lines of the summary of an event. *)
(** @src rust/ajar-verify/src/main.rs 119-154 describe *)
Definition description (e : Event) (sealed_len canonical_len : Z) : list bytes :=
  let t := s2b in
  [t "seal: VERIFIED";
   t "bytes: " ++ show_bytes sealed_len ++ t " sealed (" ++ show_bytes canonical_len ++ t " canonical + 64 signature)";
   t "schema_version: " ++ t (schema_version e);
   t "id: " ++ t (ev_id e);
   t "source_id: " ++ t (ev_source_id e);
   t "entity_type: " ++ t (ev_entity_type e);
   t "timestamp: " ++ t (ev_timestamp e)]
  ++ (if bool_decide (received_at e = ""%string) then [] else [t "received_at: " ++ t (received_at e)])
  ++ match ev_location e with
     | Some loc => [t "location: " ++ t (fmt_fixed 6 (latitude loc)) ++ t ", " ++ t (fmt_fixed 6 (longitude loc)) ++ t " @ " ++ t (fmt_fixed 1 (altitude_m loc)) ++ t " m"]
     | None => []
     end
  ++ (if f_eqb (ev_confidence e) f_zero then [] else [t "confidence: " ++ t (fmt_display (ev_confidence e))])
  ++ match ev_policy_tags e with [] => [] | tags => [t "policy_tags: " ++ t (String.concat ", " tags)] end
  ++ match ev_payload e with [] => [] | p => [t "payload: " ++ show_bytes (zlen p) ++ t " bytes"] end
  ++ ((λ a, t "attribute " ++ t (key a) ++ t ": " ++ t (value a)) <$> ev_attributes e)
  ++ ((λ m, t "metadata " ++ t (key m) ++ t ": " ++ t (value m)) <$> ev_metadata e).

(** @src rust/ajar-verify/src/main.rs 119-156 describe *)
Definition describe (e : Event) (sealed_len canonical_len : Z) : bytes :=
  trim_end (description e sealed_len canonical_len ≫= λ l, l ++ [10]).

(** @src rust/ajar-verify/src/main.rs 49-101 run *)
Definition run (w : World) (args : list string) : res VerifyError (option bytes) :=
  if bool_decide (args = []) || existsb (λ a, bool_decide (a = "--help"%string) || bool_decide (a = "-h"%string)) args
  then Ok (Some (trim_end USAGE))
  else
    o ← read_args args (mkOptions None None None false);
    key ← key_of w o;
    sealed ← input_of w o;
    canonical ← map_err SealRefused (verify sealed key);
    if quiet o then Ok None
    else
      event ← ok_or NotAnEvent (decode canonical);
      Ok (Some (describe event (zlen sealed) (zlen canonical))).

(** The exit status of the program. *)
(** @src rust/ajar-verify/src/main.rs 34-47 main *)
Definition verify_main (w : World) (args : list string) : Z := match run w args with Ok _ => 0 | _ => 1 end.
End verify.
End Verify.

(** * ajar-conformance *)

Module Conformance.

(** @src rust/conformance/src/lib.rs 31-38 ExpectedHashes *)
Record ExpectedHashes := mkExpected { canonical_sha256 : string; sealed_sha256 : string }.

(** The [vectors] map as its entries, in the order of their names. *)
(** @src rust/conformance/src/lib.rs 18-29 Vectors *)
Record Vectors := mkVectors { signing_seed_hex : string; verifying_key_hex : string; vectors : list (string * ExpectedHashes) }.

(** @src rust/conformance/src/main.rs 14-14 MODES *)
Definition MODES : list string := ["canonical"; "sealed"]%string.

(** A run of the implementation, as the operating system reports it. *)
Inductive Ran :=
| NotSpawned
| NotWaitedFor
| Exited (code : option Z) (stdout stderr : bytes).

(** Why a run has no hash. *)
Inductive Failure :=
| CouldNotRun
| WaitFailed
| ExitedWith (code : option Z) (stderr : bytes)
| NoBytes.

(** @src rust/conformance/src/main.rs 20-27 Outcome *)
Record Outcome := mkOutcome { fixture : string; mode : string; expected : string; actual : Failure + string }.

(** @src rust/conformance/src/main.rs 29-33 Outcome::passed *)
Definition passed (o : Outcome) : bool := match actual o with inr a => String.eqb a (expected o) | inl _ => false end.

(** What a command line asks for: nothing it understands, or a run. *)
Inductive Request := Usage | Run (impl_cmd : list string) (report : option string).

(** The words up to the next [--report]. *)
Fixpoint command_words (argv : list string) : list string * list string :=
  match argv with
  | [] => ([], [])
  | a :: rest => if String.eqb a "--report" then ([], argv) else let '(c, r) := command_words rest in (a :: c, r)
  end.

Fixpoint flags (fuel : nat) (argv : list string) (impl_cmd : list string) (report : option string) : option Request :=
  match argv with
  | [] => Some (if bool_decide (impl_cmd = []) then Usage else Run impl_cmd report)
  | a :: rest =>
      match fuel with
      | O => None
      | S fuel =>
          if String.eqb a "--impl" then let '(c, rest) := command_words rest in flags fuel rest (impl_cmd ++ c) report
          else if String.eqb a "--report" then flags fuel (tail rest) impl_cmd (head rest)
          else Some Usage
      end
  end.

(** The arguments after the program's name; each turn of the loop takes a word. *)
(** @src rust/conformance/src/main.rs 103-132 main *)
Definition request (argv : list string) : option Request :=
  match argv with
  | "run"%string :: rest => flags (length rest) rest [] None
  | _ => Some Usage
  end.

Section conformance.
Context `{H : Hex}.
Variable sha256 : bytes → bytes.

(** @src rust/conformance/src/main.rs 16-18 sha256_hex *)
Definition sha256_hex (b : bytes) : string := b2s (hex_encode (sha256 b)).

(** [spawn cmd mode seed body] is what the command does when run so. *)
Variable spawn : list string → string → string → bytes → Ran.

(** @src rust/conformance/src/main.rs 35-84 run_one *)
Definition run_one (impl_cmd : list string) (body : bytes) (mode seed : string) : Failure + string :=
  match spawn impl_cmd mode seed body with
  | NotSpawned => inl CouldNotRun
  | NotWaitedFor => inl WaitFailed
  | Exited code stdout stderr =>
      if negb (bool_decide (code = Some 0)) then inl (ExitedWith code stderr)
      else match stdout with [] => inl NoBytes | _ => inr (sha256_hex stdout) end
  end.

(** The outcomes of the fixtures, in order; [None] for one that cannot be read. *)
(** @src rust/conformance/src/main.rs 138-158 main *)
Fixpoint outcomes (corpus : string → option bytes) (impl_cmd : list string) (seed : string) (vs : list (string * ExpectedHashes)) : option (list Outcome) :=
  match vs with
  | [] => Some []
  | (fixture, e) :: vs =>
      body ← corpus fixture;
      let here := (λ m, mkOutcome fixture m (if String.eqb m "canonical" then canonical_sha256 e else sealed_sha256 e) (run_one impl_cmd body m seed)) <$> MODES in
      rest ← outcomes corpus impl_cmd seed vs;
      Some (here ++ rest)
  end.

(** The exit status and the outcomes printed; [writable] says of a path whether the
    report can be written there. *)
(** @src rust/conformance/src/main.rs 103-209 main *)
Definition conformance_main (argv : list string) (v : Vectors) (corpus : string → option bytes) (writable : string → bool) : Z * list Outcome :=
  match request argv with
  | Some (Run impl_cmd report) =>
      match outcomes corpus impl_cmd (signing_seed_hex v) (vectors v) with
      | None => (2, [])
      | Some os =>
          let failed := filter (λ o, passed o = false) os in
          let written := match report with Some path => writable path | None => true end in
          (if negb written then 2 else if bool_decide (failed = []) then 0 else 1, os)
      end
  | _ => (2, [])
  end.
End conformance.
End Conformance.

(** * Lemmas *)

Section verify.
Context `{C : Ed25519} `{CL : !Ed25519Laws C} `{K : !KeyCodec C} `{KL : !KeyCodecLaws K} `{H : Hex} `{HL : !HexLaws H}.
Variable decode : bytes → option Event.

(** A word that is read as a file's path, and one that is not a call for help. *)
Definition operand (a : string) : Prop := starts_with (s2b "-") (s2b a) = false.
Definition not_help (a : string) : Prop := a ≠ "--help"%string ∧ a ≠ "-h"%string.

Lemma operand_ne a o : operand a → starts_with (s2b "-") (s2b o) = true → a ≠ o.
Proof. intros Ha Ho ->. unfold operand in Ha. congruence. Qed.

Lemma operand_not_help a : operand a → not_help a.
Proof. intros Ha. split; by apply (operand_ne a _ Ha). Qed.

Lemma read_operand a args o : operand a →
  Verify.read_args (a :: args) o = Verify.read_args args (Verify.mkOptions (Verify.key_hex o) (Verify.key_file o) (Some a) (Verify.quiet o)).
Proof.
  intros Ha. cbn [Verify.read_args]. rewrite !bool_decide_false by (by apply (operand_ne a _ Ha)). cbn [orb]. by rewrite Ha.
Qed.

(** Past the options, a run judges what it read under the key it read. *)
Definition judged (q : bool) (v : vkey) (sealed : bytes) : res Verify.VerifyError (option bytes) :=
  canonical ← map_err Verify.SealRefused (verify sealed v);
  if q then Ok None
  else e ← ok_or Verify.NotAnEvent (decode canonical); Ok (Some (Verify.describe e (zlen sealed) (zlen canonical))).

Lemma run_judged w args o v sealed : Forall not_help args → args ≠ [] →
  Verify.read_args args (Verify.mkOptions None None None false) = Ok o → Verify.key_of w o = Ok v → Verify.input_of w o = Ok sealed →
  Verify.run decode w args = judged (Verify.quiet o) v sealed.
Proof.
  intros Hh Hn Ho Hk Hi. unfold Verify.run. rewrite bool_decide_false by done. replace (existsb _ args) with false.
  - cbn [orb]. rewrite Ho. cbn [mbind res_bind]. rewrite Hk. cbn [mbind res_bind]. rewrite Hi. done.
  - symmetry. apply not_true_iff_false. rewrite existsb_exists. intros (a & Ha%list_elem_of_In & [E|E]%orb_true_iff);
      apply bool_decide_eq_true_1 in E; destruct (proj1 (Forall_forall _ _) Hh a Ha); by subst.
Qed.

Lemma judged_seal k canonical e : decode canonical = Some e →
  judged false (verifying_key k) (seal canonical k) = Ok (Some (Verify.describe e (64 + zlen canonical) (zlen canonical))).
Proof.
  intros Hd. unfold judged. rewrite verify_seal. cbn [map_err mbind res_bind]. rewrite Hd. cbn [ok_or mbind res_bind].
  unfold seal. by rewrite zlen_app, sig_len.
Qed.

(** * Properties *)

(** C20: [ajar-verify] speaks for the seal. What it prints is its usage or the summary
    of an event whose seal verified, over the input it was given and under the key it
    was given, and it exits with success on nothing else; and of a source minted in its
    directory it verifies, with the key file [mint] wrote, every event sealed with the
    source's seed, its summary being of that event and its lengths. *)
Theorem verify_speaks :
  (∀ w args, Verify.verify_main decode w args = 0 → ∃ out, Verify.run decode w args = Ok out ∧
     (out = Some (trim_end Verify.USAGE)
     ∨ ∃ o v sealed canonical, Verify.read_args args (Verify.mkOptions None None None false) = Ok o
         ∧ Verify.key_of w o = Ok v ∧ Verify.input_of w o = Ok sealed ∧ verify sealed v = Ok canonical
         ∧ (out = None ∧ Verify.quiet o = true
            ∨ ∃ e, decode canonical = Some e ∧ out = Some (Verify.describe e (zlen sealed) (zlen canonical)))))
  ∧ ∀ source_id fresh dir w path canonical e,
      dir !! (source_id ++ ".seed")%string = None → Verify.files w = <[path := seal canonical (sk_from_bytes fresh)]> (mint source_id fresh dir) →
      path ≠ (source_id ++ ".pub")%string → operand path → decode canonical = Some e →
      Verify.run decode w ["--key-file"%string; (source_id ++ ".pub")%string; path]
      = Ok (Some (Verify.describe e (64 + zlen canonical) (zlen canonical))).
Proof.
  split.
  - intros w args H0. unfold Verify.verify_main in H0. destruct (Verify.run decode w args) as [out|?| |] eqn:Hr; [|done..].
    exists out. split; [done|]. unfold Verify.run in Hr. destruct (_ || _); [injection Hr as <-; by left|]. right.
    apply bind_Ok in Hr as (o & Ho & Hr). apply bind_Ok in Hr as (v & Hv & Hr). apply bind_Ok in Hr as (sealed & Hs & Hr).
    apply bind_Ok in Hr as (c & Hc & Hr). exists o, v, sealed, c. split_and!; [done|done|done| |].
    + by destruct (verify sealed v); [injection Hc as ->|..].
    + destruct (Verify.quiet o); [injection Hr as <-; by left|]. right. apply bind_Ok in Hr as (e & He & Hr). injection Hr as <-.
      exists e. split; [|done]. by destruct (decode c); [injection He as ->|].
  - intros source_id fresh dir w path canonical e Hd Hw Hp Ho He. rewrite <- (judged_seal (sk_from_bytes fresh)) by done.
    assert (∀ x, hd 0 (rev (s2b x)) ≠ 98 → (source_id ++ ".pub")%string ≠ x) as Hx.
    { intros x Hx <-. apply Hx. by rewrite s2b_app, rev_app_distr. }
    assert (Forall not_help ["--key-file"%string; (source_id ++ ".pub")%string; path]) as Hh.
    { constructor; [done|]. constructor; [by split; apply Hx|]. constructor; [by apply operand_not_help|constructor]. }
    rewrite (run_judged w _ (Verify.mkOptions None (Some (source_id ++ ".pub")%string) (Some path) false) (verifying_key (sk_from_bytes fresh)) (seal canonical (sk_from_bytes fresh))).
    + done.
    + done.
    + done.
    + transitivity (Verify.read_args [path] (Verify.mkOptions None (Some (source_id ++ ".pub")%string) None false)); [reflexivity|].
      by rewrite (read_operand path []).
    + unfold Verify.key_of. cbn [Verify.key_hex Verify.key_file]. rewrite Hw, lookup_insert_ne by done. unfold mint. rewrite Hd, lookup_insert_eq.
      cbn [ok_or mbind res_bind]. by rewrite (proj1 (verify_key_forms _)).
    + unfold Verify.input_of. cbn [Verify.input]. by rewrite Hw, lookup_insert_eq.
Qed.
End verify.

Section conformance.
Context `{H : Hex} `{HL : !HexLaws H}.
Variable sha256 : bytes → bytes.
Hypothesis sha256_bytes : ∀ b, bytes_ok (sha256 b).
Variable spawn : list string → string → string → bytes → Conformance.Ran.

Lemma command_words_len argv : (length (Conformance.command_words argv).2 <= length argv)%nat.
Proof.
  induction argv as [|a argv IH]; [done|]. cbn [Conformance.command_words]. destruct (String.eqb a _); [done|].
  destruct (Conformance.command_words argv) as [c r]. cbn in *. lia.
Qed.

Lemma flags_total fuel : ∀ argv impl_cmd report, (length argv <= fuel)%nat → is_Some (Conformance.flags fuel argv impl_cmd report).
Proof.
  induction fuel as [|fuel IH]; intros argv impl_cmd report Hl; (destruct argv as [|a argv]; [by eexists|cbn in Hl]); [lia|].
  cbn [Conformance.flags]. pose proof (command_words_len argv) as Hc.
  destruct (String.eqb a "--impl"); [destruct (Conformance.command_words argv) as [c r]; apply IH; cbn in Hc; lia|].
  destruct (String.eqb a "--report"); [|by eexists]. apply IH. destruct argv; cbn in *; lia.
Qed.

(** The command line is always understood or refused: its loop ends. *)
Lemma request_total argv : is_Some (Conformance.request argv).
Proof. unfold Conformance.request. repeat (case_match; try by eexists). by apply flags_total. Qed.

Lemma hash_inj a b : Conformance.sha256_hex sha256 a = Conformance.sha256_hex sha256 b → sha256 a = sha256 b.
Proof.
  unfold Conformance.sha256_hex. intros E%(f_equal s2b).
  assert (∀ c, bytes_ok (hex_encode (sha256 c))) as Hb by (intros c; eapply Forall_impl; [apply hex_lower, sha256_bytes|]; unfold lower_hex, byte_ok; intros; lia).
  rewrite !s2b_b2s in E by done. apply (f_equal hex_decode) in E. rewrite !hex_roundtrip in E by done. by injection E.
Qed.

(** What a fixture's run in a mode should have come to. *)
Definition expected_of (e : Conformance.ExpectedHashes) (m : string) : string :=
  if String.eqb m "canonical" then Conformance.canonical_sha256 e else Conformance.sealed_sha256 e.

Lemma outcomes_spec corpus impl_cmd seed vs : (∀ f, f ∈ vs.*1 → is_Some (corpus f)) →
  ∃ os, Conformance.outcomes sha256 spawn corpus impl_cmd seed vs = Some os
    ∧ ∀ o, o ∈ os ↔ ∃ f e body m, (f, e) ∈ vs ∧ corpus f = Some body ∧ m ∈ Conformance.MODES
        ∧ o = Conformance.mkOutcome f m (expected_of e m) (Conformance.run_one sha256 spawn impl_cmd body m seed).
Proof.
  induction vs as [|[f e] vs IH]; intros Hc.
  { exists []. split; [done|]. intros o. split; [by intros ?%elem_of_nil|]. by intros (? & ? & ? & ? & ?%elem_of_nil & _). }
  destruct (Hc f) as [body Hb]; [by left|]. destruct IH as (os & Ho & Hs); [intros g Hg; apply Hc; by right|].
  cbn [Conformance.outcomes]. rewrite Hb. cbn [mbind option_bind]. rewrite Ho. cbn [mbind option_bind].
  eexists. split; [reflexivity|]. intros o. rewrite elem_of_app, list_elem_of_fmap, Hs. split.
  - intros [(m & -> & Hm)|(f' & e' & b' & m & Hin & Hr)].
    + exists f, e, body, m. split_and!; [by left|done..].
    + exists f', e', b', m. split; [by right|done].
  - intros (f' & e' & b' & m & [[= -> ->]|Hin]%elem_of_cons & Hcf & Hm & ->).
    + left. exists m. rewrite Hb in Hcf. by injection Hcf as ->.
    + right. by exists f', e', b', m.
Qed.

Lemma run_passed impl_cmd f m e body seed :
  Conformance.passed (Conformance.mkOutcome f m (expected_of e m) (Conformance.run_one sha256 spawn impl_cmd body m seed)) = true
  ↔ ∃ out err, spawn impl_cmd m seed body = Conformance.Exited (Some 0) out err ∧ out ≠ [] ∧ Conformance.sha256_hex sha256 out = expected_of e m.
Proof.
  unfold Conformance.passed, Conformance.run_one. cbn [Conformance.actual Conformance.expected].
  destruct (spawn impl_cmd m seed body) as [| |code out err]; [split; [done|by intros (? & ? & ? & _)]..|].
  case_bool_decide as Hcode; cbn [negb].
  - destruct out as [|b out]; [split; [done|intros (o' & e' & E & Hn & _); injection E as _ E _; by destruct Hn]|]. rewrite String.eqb_eq, Hcode. split.
    + intros E. by exists (b :: out), err.
    + intros (o' & e' & E & _ & Eh). injection E as E _. by rewrite E.
  - split; [done|]. intros (? & ? & E & _). by injection E as E _ _.
Qed.

(** [ajar-conformance] is right about an implementation. On a command line it
    understands, with its fixtures readable and its report writable, it exits with
    success exactly when the implementation, run on every fixture in both modes, exits
    with success and writes bytes of the expected hash; and where the expected hash is
    that of the bytes Ajar accepts, these are the bytes written, or two byte strings
    with one SHA-256 have been found. *)
Theorem conformance_verdict argv impl_cmd report v corpus writable :
  Conformance.request argv = Some (Conformance.Run impl_cmd report) → (∀ p, report = Some p → writable p = true) →
  (∀ f, f ∈ (Conformance.vectors v).*1 → is_Some (corpus f)) →
  let code := (Conformance.conformance_main sha256 spawn argv v corpus writable).1 in
  (code = 0 ∨ code = 1)
  ∧ (code = 0 ↔ ∀ f e body m, (f, e) ∈ Conformance.vectors v → corpus f = Some body → m ∈ Conformance.MODES →
       ∃ out err, spawn impl_cmd m (Conformance.signing_seed_hex v) body = Conformance.Exited (Some 0) out err
         ∧ out ≠ [] ∧ Conformance.sha256_hex sha256 out = expected_of e m)
  ∧ (code = 0 → ∀ f e body m golden, (f, e) ∈ Conformance.vectors v → corpus f = Some body → m ∈ Conformance.MODES →
       expected_of e m = Conformance.sha256_hex sha256 golden →
       (∃ err, spawn impl_cmd m (Conformance.signing_seed_hex v) body = Conformance.Exited (Some 0) golden err)
       ∨ ∃ a b, a ≠ b ∧ sha256 a = sha256 b).
Proof.
  intros Hr Hw Hc code. unfold code, Conformance.conformance_main. rewrite Hr.
  destruct (outcomes_spec corpus impl_cmd (Conformance.signing_seed_hex v) (Conformance.vectors v) Hc) as (os & -> & Hos).
  assert (match report with Some p => writable p | None => true end = true) as -> by (destruct report; [by apply Hw|done]). cbn [negb fst].
  assert (filter (λ o, Conformance.passed o = false) os = [] ↔ ∀ f e body m, (f, e) ∈ Conformance.vectors v → corpus f = Some body → m ∈ Conformance.MODES →
       ∃ out err, spawn impl_cmd m (Conformance.signing_seed_hex v) body = Conformance.Exited (Some 0) out err
         ∧ out ≠ [] ∧ Conformance.sha256_hex sha256 out = expected_of e m) as Hall.
  { split.
    - intros Hf f e body m Hin Hb Hm. apply run_passed with (f := f). apply not_false_iff_true. intros E.
      set (o := Conformance.mkOutcome _ _ _ _) in E. assert (o ∈ filter (λ o, Conformance.passed o = false) os) as Hin'.
      { apply list_elem_of_filter. split; [done|]. apply Hos. by exists f, e, body, m. }
      rewrite Hf in Hin'. by apply elem_of_nil in Hin'.
    - intros Hp. destruct (filter _ os) as [|o l] eqn:E; [done|]. exfalso.
      assert (o ∈ filter (λ o, Conformance.passed o = false) os) as Ho by (rewrite E; by left).
      apply list_elem_of_filter in Ho as [Hf (f & e & body & m & Hin & Hb & Hm & ->)%Hos].
      pose proof (proj2 (run_passed impl_cmd f m e body (Conformance.signing_seed_hex v)) (Hp f e body m Hin Hb Hm)). congruence. }
  split; [case_bool_decide; auto|]. split.
  - rewrite <- Hall. case_bool_decide; split; done.
  - case_bool_decide as Hf; [|done]. intros _ f e body m golden Hin Hb Hm Hg.
    destruct (proj1 Hall Hf f e body m Hin Hb Hm) as (out & err & Hs & _ & Hh). rewrite Hg in Hh. apply hash_inj in Hh.
    destruct (decide (out = golden)) as [->|Hne]; [left; by exists err|right; by exists out, golden].
Qed.
End conformance.

(** * Witnesses *)

Definition ex_seal_path : string := "event.bin".
Definition ex_verify_world : Verify.World :=
  Verify.mkWorld (<[ex_seal_path := @seal toy2 [1] (@sk_from_bytes toy2 toy2_codec ex_seed)]> ex_minted) None.

Lemma verify_speaks_witness :
  @Verify.run toy2 toy2_codec hex_real toy_decode ex_verify_world ["--key-file"; "radar-1.pub"; ex_seal_path]%string
  = Ok (Some (Verify.describe (ex_event "a") 65 1)).
Proof.
  apply (proj2 (@verify_speaks toy2 toy2_laws toy2_codec toy2_codec_laws hex_real hex_real_laws toy_decode) "radar-1"%string ex_seed ∅ ex_verify_world ex_seal_path [1] (ex_event "a"%string));
    [vm_compute; reflexivity|reflexivity|done|vm_compute; reflexivity|vm_compute; reflexivity].
Defined.

(** A toy digest of one byte. *)
Definition toy_sha (b : bytes) : bytes := [toy_sum b].

Lemma toy_sha_bytes b : bytes_ok (toy_sha b).
Proof.
  constructor; [|constructor]. unfold toy_sum. enough (∀ l a, 0 ≤ a < 256 → byte_ok (fold_left (λ a b, (a * 31 + b) mod 256) l a)) as H by (apply H; lia).
  induction l as [|x l IH]; intros a Ha; [exact Ha|]. apply IH. apply Z.mod_pos_bound. lia.
Qed.

(** An implementation that writes its input after a byte for the mode. *)
Definition ex_spawn (cmd : list string) (mode seed : string) (body : bytes) : Conformance.Ran :=
  Conformance.Exited (Some 0) ((if String.eqb mode "canonical" then 1 else 2) :: body) [].
Definition ex_expected : Conformance.ExpectedHashes :=
  Conformance.mkExpected (@Conformance.sha256_hex hex_real toy_sha [1; 9]) (@Conformance.sha256_hex hex_real toy_sha [2; 9]).
Definition ex_vectors : Conformance.Vectors := Conformance.mkVectors "00" "01" [("minimal"%string, ex_expected)].
Definition ex_corpus (f : string) : option bytes := Some [9].

Lemma conformance_verdict_witness :
  let code := (@Conformance.conformance_main hex_real toy_sha ex_spawn ["run"; "--impl"; "python3"; "adapter.py"; "--report"; "r.json"]%string ex_vectors ex_corpus (λ _, true)).1 in
  code = 0 ∧ ∃ err, ex_spawn ["python3"; "adapter.py"]%string "sealed" "00" [9] = Conformance.Exited (Some 0) [2; 9] err.
Proof.
  pose proof (@conformance_verdict hex_real hex_real_laws toy_sha toy_sha_bytes ex_spawn
    ["run"; "--impl"; "python3"; "adapter.py"; "--report"; "r.json"]%string ["python3"; "adapter.py"]%string (Some "r.json"%string) ex_vectors ex_corpus (λ _, true)
    eq_refl ltac:(intros p [= <-]; reflexivity) ltac:(intros f Hf; by exists [9])) as (_ & H2 & H3).
  assert ((@Conformance.conformance_main hex_real toy_sha ex_spawn ["run"; "--impl"; "python3"; "adapter.py"; "--report"; "r.json"]%string ex_vectors ex_corpus (λ _, true)).1 = 0) as H0
    by (vm_compute; reflexivity).
  split; [exact H0|].
  destruct (H3 H0 "minimal"%string ex_expected [9] "sealed"%string [2; 9]) as [H|(a & b & Hab & Hsha)]; [by left|reflexivity|by right; left|reflexivity|exact H|].
  by exists [].
Defined.

(** A value with a line feed in it fills more than its own line of the summary. *)
Example summary_line_forged :
  let e := mkEvent "v1" "id-1" "a" "mim:aircraft" "2026-06-10T08:00:00Z" "" None [] [] f_zero
    [mkAttribute "note" (b2s (s2b "x" ++ [10] ++ s2b "metadata icao: 4CA2D6"))]%string [] in
  (s2b "metadata icao: 4CA2D6") ∈ split_on 10 (Verify.describe e 65 1) ∧ ev_metadata e = [].
Proof. split; [|done]. apply (bool_decide_eq_true_1 _). vm_compute. reflexivity. Qed.
