(* ===== verification/FeedSapient.v ===== *)
(** The synthetic feed's counter-UAS radar
    (rust/connectors/feed-synthetic/src/sapient.rs, and its schedule in main.rs): the
    messages of a SAPIENT node, and what the SAPIENT connector makes of them. *)
From Stdlib Require Import ZArith Lia.
From Stdlib Require Import Strings.String.
From S2P Require Import Scenario Stream SapientReport.
From S2P Require SapientWire.
From S2P Require Import Sapient.

Local Open Scope Z_scope.

(** * The generator *)

Module Cuas.

(** @src rust/connectors/feed-synthetic/src/sapient.rs 13-14 NODE_ID *)
Definition NODE_ID : string := "c0a5f1e2-6b3d-4f8a-9c1e-2d7b4a6f8e01".
(** @src rust/connectors/feed-synthetic/src/sapient.rs 15-15 OBJECT_ID *)
Definition OBJECT_ID : string := "01J9A0SYNTHUAV000000000001".
(** @src rust/connectors/feed-synthetic/src/sapient.rs 16-17 STATUS_EVERY *)
Definition STATUS_EVERY : Z := 5.
(** @src rust/connectors/feed-synthetic/src/sapient.rs 18-18 REGISTER_EVERY *)
Definition REGISTER_EVERY : Z := 60.

(** The loop over the slots, last first. *)
Fixpoint slots (n : nat) (v : Z) (out : bytes) : bytes :=
  match n with O => out | S n => slots n (Z.shiftr v 5) (nth (Z.to_nat (Z.land v 31)) ALPHABET 0 :: out) end.

(** [as_millis] of a time since the epoch, as 64 bits. *)
Definition millis_of (observed : Timestamp) : Z := wrap 64 (observed.1 * 1000 + observed.2 / 1000000).

(** @src rust/connectors/feed-synthetic/src/sapient.rs 22-37 ulid *)
Definition ulid (observed : Timestamp) (seq : Z) : string :=
  b2s (slots 26 (Z.lor (Z.shiftl (Z.land (millis_of observed) 0xFFFFFFFFFFFF) 80) seq) []).

(** The message, before it is encoded and framed. *)
(** @src rust/connectors/feed-synthetic/src/sapient.rs 39-52 envelope *)
Definition envelope (observed : Timestamp) (content : Content) : SapientMessage :=
  mkMessage (Some observed) (Some NODE_ID) None (Some content).

(** @src rust/connectors/feed-synthetic/src/sapient.rs 56-68 latlng *)
Definition latlng : LocationType :=
  mkLocationType (Some (LocationUnits LAT_LNG_DEG_M)) (Some (LocationDatum LOCATION_DATUM_WGS84_E)) None.

Definition NODE_TYPE_RADAR : Z := 2.
Definition DEGREES_M : Z := 1.

(** @src rust/connectors/feed-synthetic/src/sapient.rs 70-149 registration *)
Definition registration (observed : Timestamp) : SapientMessage :=
  envelope observed (CRegistration (mkRegistration
    [mkNodeDefinition (Some NODE_TYPE_RADAR) ["counter-UAS"%string]]
    (Some ICD_VERSION_V2)
    (Some "Synthetic counter-UAS radar"%string)
    (Some "CUAS-1"%string)
    [mkCapability (Some "Radar") (Some "Maximum range") (Some "5000") (Some "m")]%string
    (Some (mkStatusDefinition (Some (seconds (f_of_Z STATUS_EVERY))) (Some latlng)))
    [mkModeDefinition (Some "Scanning"%string) (Some MODE_TYPE_PERMANENT) None (Some (seconds f_zero))
       [mkDetectionDefinition
          (Some (mkLocationType (Some (RangeBearingUnits DEGREES_M)) (Some (RangeBearingDatum RANGE_BEARING_DATUM_TRUE)) None))
          (Some (mkVelocityType (Some (mkEnuUnits (Some SPEED_UNITS_MS) (Some SPEED_UNITS_MS))) (Some (LocationDatum LOCATION_DATUM_WGS84_E)) None))
          [] []]
       (Some (mkTaskDefinition None [REGION_TYPE_AREA_OF_INTEREST] [latlng]))]
    [mkConfigurationData "Ajar" "feed-synthetic" None None])).

(** @src rust/connectors/feed-synthetic/src/sapient.rs 151-176 status *)
Definition status (observed : Timestamp) (seq : Z) (first : bool) : SapientMessage :=
  envelope observed (CStatusReport (mkStatus (Some (ulid observed seq)) (Some SYSTEM_OK)
    (Some (if first then INFO_NEW else INFO_UNCHANGED)) None (Some "Scanning"%string) None
    (Some (mkLocation (Some (fix_lon RADAR)) (Some (fix_lat RADAR)) (Some RADAR_ALT_M) None None
       (Some LAT_LNG_DEG_M) (Some LOCATION_DATUM_WGS84_E) None)) [])).

Section libm.
Context `{T : Trig}.

(** @src rust/connectors/feed-synthetic/src/sapient.rs 181-182 detection *)
Definition range_bearing (u : UavState) : RangeBearing :=
  let '(bearing, range) := bearing_range cos atan2 hypot RADAR (u_fix u) in
  mkRangeBearing (Some (to_degrees (atan2 (f_sub (u_alt_m u) RADAR_ALT_M) range))) (Some bearing) (Some range)
    (Some (f_of_Z 5)) (Some DEGREES_M) (Some RANGE_BEARING_DATUM_TRUE).

(** @src rust/connectors/feed-synthetic/src/sapient.rs 178-223 detection *)
Definition detection (u : UavState) (observed : Timestamp) (seq : Z) : SapientMessage :=
  let heading := to_radians (u_heading_deg u) in
  envelope observed (CDetectionReport (mkDetection (Some (ulid observed seq)) (Some OBJECT_ID) None None
    (Some (LRangeBearing (range_bearing u))) (Some (as_f32 (f_ratio 85 100)))
    [mkTyped (Some "Track Quality") (Some "good")]%string []
    [mkClass (Some "UAV"%string) (Some (as_f32 (f_ratio 9 10)))] [] [] []
    (Some (mkEnu (Some (f_mul (u_speed_mps u) (sin heading))) (Some (f_mul (u_speed_mps u) (cos heading))) (Some f_zero))) None None)).

(** A tick: the source's clock at it, and the aircraft. *)
Definition Tick : Type := Timestamp * UavState.

(** What opens the [n]-th tick, the first being 1: every so often a registration,
    and more often a status. *)
(** @src rust/connectors/feed-synthetic/src/main.rs 343-349 run *)
Definition opening (n : Z) (observed : Timestamp) : list SapientMessage :=
  let registered := n mod REGISTER_EVERY =? 1 in
  (if registered then [registration observed] else []) ++ (if n mod STATUS_EVERY =? 1 then [status observed n registered] else []).

(** @src rust/connectors/feed-synthetic/src/main.rs 342-352 run *)
Definition tick (n : Z) (t : Tick) : list SapientMessage := opening n t.1 ++ [detection t.2 t.1 n].

(** What is sent from the [n]-th tick on. *)
Fixpoint sent (n : Z) (ticks : list Tick) : list SapientMessage :=
  match ticks with [] => [] | t :: ticks => tick n t ++ sent (n + 1) ticks end.
End libm.
End Cuas.

(** * Its identifiers *)

Lemma ulid_chars_low n : ∀ v, 0 ≤ v → ulid_chars (S n) v = cs ← ulid_chars n (Z.shiftr v 5); c ← idx ALPHABET (Z.land v 31); Ok (cs ++ [c]).
Proof.
  induction n as [|n IH]; intros v Hv.
  - rewrite ulid_chars_S. change (5 * Z.of_nat 0) with 0. rewrite Z.shiftr_0_r. cbn [ulid_chars mbind res_bind].
    by destruct (idx ALPHABET (Z.land v 31)).
  - rewrite ulid_chars_S, (IH v Hv), ulid_chars_S, Z.shiftr_shiftr by lia.
    replace (5 + 5 * Z.of_nat n) with (5 * Z.of_nat (S n)) by lia.
    destruct (alphabet_char _ (ulid_digit v (S n))) as (c & -> & _).
    destruct (ulid_chars_spec (Z.shiftr v 5) n 0) as (cs & -> & _). cbn [mbind res_bind].
    by destruct (idx ALPHABET (Z.land v 31)).
Qed.

(** The loop that fills the slots from the last writes what the other writes from the
    first. *)
Lemma slots_ulid n : ∀ v out, 0 ≤ v → ∃ cs, ulid_chars n v = Ok cs ∧ Cuas.slots n v out = cs ++ out.
Proof.
  induction n as [|n IH]; intros v out Hv; [by exists []|]. rewrite ulid_chars_low by done. cbn [Cuas.slots].
  assert (0 ≤ Z.land v 31 < 32) as Hd by (pose proof (ulid_digit v 0) as H; by rewrite Z.shiftr_0_r in H).
  destruct (alphabet_char _ Hd) as (c & Hc & _).
  edestruct (IH (Z.shiftr v 5)) as (cs & Hcs & Hs); [by apply Z.shiftr_nonneg|]. rewrite Hs, Hcs, Hc. exists (cs ++ [c]). cbn [mbind res_bind].
  split; [done|]. rewrite <- app_assoc. f_equal. cbn [app]. f_equal.
  unfold idx, get in Hc. case_match; [|done]. destruct (ALPHABET !! Z.to_nat (Z.land v 31)) as [x|] eqn:E; [|done].
  injection Hc as <-. by apply nth_lookup_Some.
Qed.

Lemma feed_ulid observed seq : 0 ≤ seq < 2 ^ 64 → SapientReport.new_ulid (Cuas.millis_of observed, seq) = Cuas.ulid observed seq.
Proof.
  intros Hs. unfold new_ulid, ulid_new, Ulid.encode, Cuas.ulid. cbn [fst snd]. unfold MASK80. change (Z.shiftl 1 80) with (2 ^ 80).
  rewrite !land_mask, !(Z.mod_small seq) by (rewrite ?Z.mod_small; lia).
  match goal with |- context [ulid_chars 26 ?v] => destruct (slots_ulid 26 v []) as (cs & -> & ->) end; [|by rewrite app_nil_r].
  apply Z.lor_nonneg. split; [|lia]. apply Z.shiftl_nonneg, Z.land_nonneg. by right.
Qed.

(** * What the connector makes of them *)

Section node.
Context `{T : Trig}.
Variable ont : Ontology.
Variable decode : bytes → option SapientMessage.
Variable encode : SapientMessage → bytes.
Variable rfc3339 : Timestamp → option string.
Variable to_lowercase : string → string.
Variable any_key : gmap string Sapient.Node → option string.

(** A stream of frames, each read at its own time, that carries these messages. *)
Definition carries (l : list (Envs * bytes)) (ms : list SapientMessage) : Prop :=
  l.*2 = encode <$> ms ∧ Forall (λ m, decode (encode m) = Some m) ms.

(** Bearing and range are numbers, as libm's are of any two fixes; the connector
    multiplies both by one, the scale of their units. *)
Definition placed (u : UavState) : Prop :=
  let '(bearing, range) := bearing_range cos atan2 hypot RADAR (u_fix u) in
  let bearing := f_mul bearing (f_of_Z 1) in let range := f_mul range (f_of_Z 1) in
  is_finite bearing && is_finite range && f_leb f_zero range = true.

Definition site : f64 * f64 * f64 := (fix_lat RADAR, fix_lon RADAR, RADAR_ALT_M).

Notation hear := (hear ont decode rfc3339 to_lowercase any_key).
Notation report := (report ont to_lowercase any_key).

(** What a parser knows of the node: where it is, how many reports it could not
    place, and how many registrations it has seen. *)
Definition knows (s : SapientParser) (at_ : option (f64 * f64 * f64)) (un reg : Z) : Prop :=
  n_location (node s Cuas.NODE_ID) = at_ ∧ unlocated s = un ∧ registrations s = reg.

Lemma knows_parse self envs m at_ un reg s' : decode (encode m) = Some m → m_node_id m = Some Cuas.NODE_ID →
  (∀ c, m_content m = Some c → s' = (report (envs 0%nat) self Cuas.NODE_ID c (m_timestamp m ≫= rfc3339) (encode m)).1) → is_Some (m_content m) →
  knows s' at_ un reg → knows (parse ont decode rfc3339 to_lowercase any_key envs self (encode m)).1 at_ un reg.
Proof.
  intros Hd Hn Hs [c Hc] Hk. rewrite parse_fst. unfold parse_message. rewrite Hd, Hc, Hn. cbn [default from_option].
  specialize (Hs c Hc). unfold id. destruct (report _ _ _ _ _ _) as [s b]. cbn [fst] in *. by subst.
Qed.

Lemma after_registration self envs now at_ un reg : decode (encode (Cuas.registration now)) = Some (Cuas.registration now) →
  0 ≤ reg → reg + 1 < 2 ^ 64 → knows self at_ un reg →
  knows (parse ont decode rfc3339 to_lowercase any_key envs self (encode (Cuas.registration now))).1 at_ un (reg + 1).
Proof.
  intros Hd Hr Hr' (Ha & Hu & Hg). eapply (knows_parse self envs _ _ _ _ _ Hd eq_refl); [intros c [= <-]; reflexivity|by eexists|].
  cbn [Sapient.report fst]. unfold remember_node. split; [|split].
  - rewrite update_node_same. exact Ha.
  - unfold update_node. by case_match.
  - unfold update_node. assert (registrations (count_registration self) = reg + 1) as E.
    { cbn [count_registration registrations]. unfold fetch_add. rewrite Hg. apply wrap_small. lia. }
    by case_match.
Qed.

Lemma after_status self envs now n first at_ un reg : decode (encode (Cuas.status now n first)) = Some (Cuas.status now n first) →
  knows self at_ un reg → knows (parse ont decode rfc3339 to_lowercase any_key envs self (encode (Cuas.status now n first))).1 (Some site) un reg.
Proof.
  intros Hd (Ha & Hu & Hg). eapply (knows_parse self envs _ _ _ _ _ Hd eq_refl); [intros c [= <-]; reflexivity|by eexists|].
  cbn [Sapient.report fst]. unfold remember_position.
  match goal with |- context [sr_node_location ?x ≫= wgs84] => replace (sr_node_location x ≫= wgs84) with (Some site) by (vm_compute; reflexivity) end. split; [|split].
  - by rewrite update_node_same.
  - unfold update_node. by case_match.
  - unfold update_node. by case_match.
Qed.

(** A range and bearing of the feed is placed as soon as the node is. *)
Lemma feed_relative u : placed u → is_Some (relative (Some site) (Cuas.range_bearing u)).
Proof.
  unfold placed, Cuas.range_bearing. destruct (bearing_range _ _ _ _ _) as [b r]. intros [[Hb Hr]%andb_prop H0]%andb_prop.
  unfold relative. cbn [rb_coordinate_system rb_azimuth rb_range rb_datum rb_elevation]. change (rb_scales _) with (f_of_Z 1, f_of_Z 1).
  unfold site. cbn [mbind option_bind fmap option_fmap option_map]. rewrite Hb, Hr, H0. rewrite bool_decide_true by done. cbn [andb].
  destruct (destination _ _ _ _) as [la lo]. by eexists.
Qed.

Lemma after_detection self envs u now n at_ un reg : decode (encode (Cuas.detection u now n)) = Some (Cuas.detection u now n) →
  at_ = None ∨ at_ = Some site → placed u → 0 ≤ un → un + 1 < 2 ^ 64 → knows self at_ un reg →
  knows (parse ont decode rfc3339 to_lowercase any_key envs self (encode (Cuas.detection u now n))).1 at_ (if at_ then un else un + 1) reg.
Proof.
  intros Hd Hat Hp Hun Hun' (Ha & Hu & Hg). eapply (knows_parse self envs _ _ _ _ _ Hd eq_refl); [intros c [= <-]; reflexivity|by eexists|].
  match goal with |- knows (report ?env ?s ?id ?c ?obs ?raw).1 _ _ _ =>
    destruct (range_bearing_event ont to_lowercase any_key env s id c (Cuas.range_bearing u) obs raw eq_refl) as (b & _ & _ & _ & H) end.
  rewrite Ha, Hu in H. split; [|split].
  - rewrite <- Ha. cbn [Sapient.report]. by destruct (Sapient.detection _ _ _ _ _ _ _) as [? []].
  - rewrite H. destruct Hat as [-> | ->]; [apply wrap_small; lia|]. by destruct (feed_relative u Hp) as [p ->].
  - rewrite <- Hg. cbn [Sapient.report]. by destruct (Sapient.detection _ _ _ _ _ _ _) as [? []].
Qed.

Lemma detection_built s envs u now n : let d := Cuas.detection u now n in decode (encode d) = Some d →
  ∃ b, (parse ont decode rfc3339 to_lowercase any_key envs s (encode d)).2 = (λ e, [e]) <$> map_err Build (build b)
    ∧ payload b = encode d ∧ location b = point <$> relative (n_location (node s Cuas.NODE_ID)) (Cuas.range_bearing u).
Proof.
  intros d Hd. unfold parse, parse_message. rewrite Hd.
  assert (∃ r, m_content d = Some (CDetectionReport r) ∧ d_location r = Some (LRangeBearing (Cuas.range_bearing u))) as (r & Hr & Hl) by (by eexists).
  rewrite Hr. change (default _ (m_node_id d)) with Cuas.NODE_ID.
  destruct (range_bearing_event ont to_lowercase any_key (envs 0%nat) s Cuas.NODE_ID (CDetectionReport r) (Cuas.range_bearing u) (m_timestamp d ≫= rfc3339) (encode d) Hl)
    as (b & Hb & Hpay & Hloc & _).
  destruct (report _ s _ _ _ _) as [s' b']. cbn [snd] in Hb. subst b'. exists b. split; [|done]. by destruct (map_err Build (build b)).
Qed.

(** ** Tick by tick *)

Lemma carries_app l ms ks : carries l (ms ++ ks) → ∃ l1 l2, l = l1 ++ l2 ∧ carries l1 ms ∧ carries l2 ks.
Proof.
  intros [Hl [Hm Hk]%Forall_app]. rewrite fmap_app in Hl. exists (take (length ms) l), (drop (length ms) l). split; [by rewrite take_drop|].
  unfold carries. rewrite !fmap_take, !fmap_drop, Hl. rewrite <- (length_fmap encode ms) at 1 2. rewrite take_app_length, drop_app_length. done.
Qed.

Lemma carries_one l m : carries l [m] → ∃ envs, l = [(envs, encode m)] ∧ decode (encode m) = Some m.
Proof.
  intros [Hl [Hm _]%Forall_cons]. destruct l as [|[envs f] [|x l]]; [done| |done]. cbn in Hl; injection Hl as ->. exists envs. split; [done|exact Hm].
Qed.

Lemma hear_app self l1 l2 : hear self (l1 ++ l2) = hear (hear self l1) l2.
Proof. unfold Sapient.hear. by rewrite fold_left_app. Qed.

Definition counts (b : bool) : Z := if b then 1 else 0.

Lemma after_opening self l n now at_ un reg : carries l (Cuas.opening n now) → 0 ≤ reg → reg + 1 < 2 ^ 64 → knows self at_ un reg →
  knows (hear self l) (if n mod Cuas.STATUS_EVERY =? 1 then Some site else at_) un (reg + counts (n mod Cuas.REGISTER_EVERY =? 1)).
Proof.
  intros (l1 & l2 & -> & H1 & H2)%carries_app Hr Hr' Hk. rewrite hear_app.
  assert (knows (hear self l1) at_ un (reg + counts (n mod Cuas.REGISTER_EVERY =? 1))) as Hk1.
  { destruct (n mod Cuas.REGISTER_EVERY =? 1); cbn [counts].
    - apply carries_one in H1 as (envs & -> & Hd). by apply after_registration.
    - destruct H1 as [H1 _]. destruct l1; [|done]. by rewrite Z.add_0_r. }
  destruct (n mod Cuas.STATUS_EVERY =? 1).
  - apply carries_one in H2 as (envs & -> & Hd). by eapply after_status.
  - destruct H2 as [H2 _]. by destruct l2.
Qed.

(** The ticks until the next status, and the registrations in [k] ticks from [n]. *)
Definition waiting (n : Z) : Z := (1 - n) mod Cuas.STATUS_EVERY.
Definition registrations_in (n k : Z) : Z := (n + k - 2) / Cuas.REGISTER_EVERY - (n - 2) / Cuas.REGISTER_EVERY.

Lemma waiting_over n k : 0 ≤ k → (if (n + k) mod Cuas.STATUS_EVERY =? 1 then true else waiting n <? k) = (waiting n <? k + 1).
Proof.
  intros Hk. unfold waiting, Cuas.STATUS_EVERY. pose proof (Z.mod_pos_bound (1 - n) 5 ltac:(lia)) as Hw.
  destruct (Z.eqb_spec ((n + k) mod 5) 1) as [E|E].
  - symmetry. apply Z.ltb_lt. destruct (Z.lt_ge_cases k ((1 - n) mod 5)) as [H|H]; [|lia]. exfalso.
    pose proof (Z.div_mod (1 - n) 5 ltac:(lia)). pose proof (Z.div_mod (n + k) 5 ltac:(lia)). lia.
  - destruct (Z.ltb_spec ((1 - n) mod 5) k), (Z.ltb_spec ((1 - n) mod 5) (k + 1)); try done; [lia|]. exfalso.
    assert (k = (1 - n) mod 5) as -> by lia. apply E. rewrite Z.add_mod_idemp_r by lia. replace (n + (1 - n)) with 1 by lia. done.
Qed.

Lemma registrations_one n k : 
  registrations_in n (k + 1) = registrations_in n k + counts ((n + k) mod Cuas.REGISTER_EVERY =? 1).
Proof.
  unfold registrations_in, counts, Cuas.REGISTER_EVERY. pose proof (Z.div_mod (n + k) 60 ltac:(lia)) as H. pose proof (Z.mod_pos_bound (n + k) 60 ltac:(lia)) as Hb.
  pose proof (Z.div_mod (n + k - 2) 60 ltac:(lia)) as H1. pose proof (Z.mod_pos_bound (n + k - 2) 60 ltac:(lia)) as Hb1.
  pose proof (Z.div_mod (n + (k + 1) - 2) 60 ltac:(lia)) as H2. pose proof (Z.mod_pos_bound (n + (k + 1) - 2) 60 ltac:(lia)) as Hb2.
  destruct (Z.eqb_spec ((n + k) mod 60) 1); lia.
Qed.

Lemma registrations_bound n k : 0 ≤ k → 0 ≤ registrations_in n k ≤ k.
Proof.
  intros Hk. unfold registrations_in, Cuas.REGISTER_EVERY. pose proof (Z.div_mod (n + k - 2) 60 ltac:(lia)). pose proof (Z.mod_pos_bound (n + k - 2) 60 ltac:(lia)).
  pose proof (Z.div_mod (n - 2) 60 ltac:(lia)). pose proof (Z.mod_pos_bound (n - 2) 60 ltac:(lia)). lia.
Qed.

Lemma sent_app n a b : Cuas.sent n (a ++ b) = Cuas.sent n a ++ Cuas.sent (n + zlen a) b.
Proof.
  revert n. induction a as [|t a IH]; intros n; [cbn; by rewrite Z.add_0_r|]. cbn [app Cuas.sent].
  rewrite IH, zlen_cons, app_assoc. by replace (n + 1 + zlen a) with (n + (1 + zlen a)) by lia.
Qed.

(** What the parser knows after [k] ticks from the [n]-th, wherever it came in. *)
Definition known (n k : Z) (s : SapientParser) : Prop :=
  knows s (if waiting n <? k then Some site else None) (Z.min k (waiting n)) (registrations_in n k).

Lemma after_ticks self n : known n 0 self → ∀ ticks, zlen ticks < 2 ^ 64 - 1 → Forall (λ t, placed t.2) ticks →
  ∀ l, carries l (Cuas.sent n ticks) → known n (zlen ticks) (hear self l).
Proof.
  intros H0 ticks. induction ticks as [|t ticks IH] using rev_ind; intros Hz Hp l Hl.
  - destruct Hl as [Hl _]. by destruct l.
  - rewrite zlen_app in *. change (zlen [t]) with 1 in *. apply Forall_app in Hp as [Hp [Ht _]%Forall_cons].
    rewrite sent_app in Hl. apply carries_app in Hl as (l1 & l2 & -> & H1 & H2). rewrite hear_app.
    cbn [Cuas.sent] in H2. rewrite app_nil_r in H2. apply carries_app in H2 as (l2' & l3 & -> & H2 & H3). rewrite hear_app.
    specialize (IH ltac:(lia) Hp l1 H1). pose proof (zlen_nonneg ticks) as Hn. pose proof (registrations_bound n (zlen ticks) Hn) as Hr.
    pose proof (Z.mod_pos_bound (1 - n) 5 ltac:(lia)) as Hw.
    apply (after_opening _ l2' _ _ _ _ _ H2) in IH; [|lia..]. rewrite <- registrations_one in IH.
    apply carries_one in H3 as (envs & -> & Hd).
    eapply (after_detection _ envs t.2) in IH; [|exact Hd| |done|unfold waiting, Cuas.STATUS_EVERY; lia..].
    2: { destruct (_ =? _); [by right|]. destruct (_ <? _); [by right|by left]. }
    unfold known. pose proof (waiting_over n (zlen ticks) Hn) as Hov. unfold Sapient.hear in IH |- *. cbn [fold_left].
    destruct (_ mod Cuas.STATUS_EVERY =? 1).
    + rewrite <- Hov. replace (Z.min (zlen ticks + 1) (waiting n)) with (Z.min (zlen ticks) (waiting n)) by (symmetry in Hov; apply Z.ltb_lt in Hov; unfold waiting, Cuas.STATUS_EVERY in *; lia).
      exact IH.
    + rewrite <- Hov. destruct (Z.ltb_spec (waiting n) (zlen ticks)) as [Hlt|Hge].
      * replace (Z.min (zlen ticks + 1) (waiting n)) with (Z.min (zlen ticks) (waiting n)) by lia. exact IH.
      * symmetry in Hov. apply Z.ltb_ge in Hov.
        replace (Z.min (zlen ticks + 1) (waiting n)) with (Z.min (zlen ticks) (waiting n) + 1) by lia. exact IH.
Qed.

Lemma cuas_frame_enc l : zlen l < 2 ^ 32 → SapientWire.frame l = enc_frame LengthU32le l.
Proof.
  intros H. unfold SapientWire.frame, enc_frame, SapientWire.le_enc. pose proof (zlen_nonneg l). by rewrite Z.mod_small by lia.
Qed.

(** * Properties *)

End node.

(** * Witness *)

Definition ex_libm : Trig := {|
  sin := λ x, x; cos := λ x, x; asin := λ x, x; atan2 := λ x _, x; hypot := λ x _, x
|}.
Definition ex_drone : UavState := mkUavState (mkFix (f_ratio 508000 10000) (f_ratio (-11050) 10000)) (f_of_Z 120) (f_of_Z 90) (f_ratio 235 10).
Definition ex_ticks : list Cuas.Tick := [((1767225600, 0), ex_drone)].
Definition ex_tick : Cuas.Tick := ((1767225601, 0), ex_drone).
Definition ex_sent : list SapientMessage := @Cuas.sent ex_libm 5 (ex_ticks ++ [ex_tick]).

(** The status is a byte, and so is either detection. *)
Definition ex_encode (m : SapientMessage) : bytes :=
  match m_content m with
  | Some (CStatusReport _) => [2]
  | Some (CDetectionReport r) => if bool_decide (d_report_id r = Some (Cuas.ulid (1767225600, 0) 5)) then [3] else [4]
  | _ => [1]
  end.
Definition ex_decode (f : bytes) : option SapientMessage :=
  match f with [3] => ex_sent !! 0%nat | [2] => ex_sent !! 1%nat | [4] => ex_sent !! 2%nat | _ => None end.

Definition ex_time : Timestamp → option string := λ _, Some "2026-01-01T00:00:01Z"%string.
Definition ex_heard_node : SapientParser :=
  @hear ex_libm ex_ontology ex_decode ex_time (λ s, s) (λ _, None) Sapient.ex_heard [(Sapient.ex_sapient_env, [3]); (Sapient.ex_sapient_env, [2])].
Definition ex_detected : res SapientError (list Event) :=
  (@parse ex_libm ex_ontology ex_decode ex_time (λ s, s) (λ _, None) Sapient.ex_sapient_env ex_heard_node [4]).2.

Lemma ex_detected_one : match ex_detected with Ok [_] => true | _ => false end = true.
Proof. vm_compute. reflexivity. Qed.

