(* ===== verification/FeedMain.v ===== *)
(** The synthetic feed as a program (rust/connectors/feed-synthetic/src/main.rs, with
    cot.rs and esm.rs): its command line, what each sensor sends at a tick, and the
    fan-out of a stream to its readers. *)
From Stdlib Require Import ZArith Lia.
From Stdlib Require Import Strings.String.
From S2P Require Import Process FeedAis FeedMav FeedAst FeedSbs FeedSapient.
From S2P Require Import Scenario.

Local Open Scope Z_scope.

#[export] Instance Sensor_eq_dec : EqDecision Sensor.
Proof. solve_decision. Defined.

(** * The command line *)

(** @src rust/connectors/feed-synthetic/src/main.rs 48-56 ALL *)
Definition ALL : list Sensor := [SAsterix; SAis; SAdsb; SMavlink; SCot; SEsm; SSapient].

(** Nanoseconds. *)
Definition SECOND : Z := 1000000000.
(** @src rust/connectors/feed-synthetic/src/main.rs 35-36 AIS_STATIC_EVERY *)
Definition AIS_STATIC_EVERY : Z := 360 * SECOND.

(** @src rust/connectors/feed-synthetic/src/main.rs 58-65 Options *)
Record Options := mkOptions {
  sensors : list Sensor;
  bind : list Z;
  mavlink_to : string;
  ais_static_every : Z;
  dry_run : bool;
  ticks : option Z
}.

(** [find] by name. *)
Definition sensor_named (name : string) : option Sensor := head (filter (λ s, sensor_name s = name) ALL).

(** The [while let] over the arguments; none is [usage], which ends the process. *)
(** @src rust/connectors/feed-synthetic/src/main.rs 84-102 parse_args *)
Fixpoint read_args (args : list string) (o : Options) : option Options :=
  match args with
  | [] => Some o
  | "all" :: args => read_args args (mkOptions (sensors o ++ ALL) (bind o) (mavlink_to o) (ais_static_every o) (dry_run o) (ticks o))
  | "--bind" :: v :: args =>
      ip ← Udp.parse_ipv4 (s2b v);
      read_args args (mkOptions (sensors o) ip (mavlink_to o) (ais_static_every o) (dry_run o) (ticks o))
  | "--mavlink-to" :: v :: args => read_args args (mkOptions (sensors o) (bind o) v (ais_static_every o) (dry_run o) (ticks o))
  | "--ais-static-every" :: v :: args =>
      secs ← parse_u64 (s2b v);
      read_args args (mkOptions (sensors o) (bind o) (mavlink_to o) (Z.max secs 1 * SECOND) (dry_run o) (ticks o))
  | "--dry-run" :: args => read_args args (mkOptions (sensors o) (bind o) (mavlink_to o) (ais_static_every o) true (ticks o))
  | "--ticks" :: v :: args =>
      n ← parse_u64 (s2b v);
      read_args args (mkOptions (sensors o) (bind o) (mavlink_to o) (ais_static_every o) (dry_run o) (Some n))
  | name :: args =>
      s ← sensor_named name;
      read_args args (mkOptions (sensors o ++ [s]) (bind o) (mavlink_to o) (ais_static_every o) (dry_run o) (ticks o))
  end%string.

(** [retain] of what was not seen before. *)
Fixpoint first_of_each (seen l : list Sensor) : list Sensor :=
  match l with
  | [] => []
  | s :: l => if bool_decide (s ∈ seen) then first_of_each (s :: seen) l else s :: first_of_each (s :: seen) l
  end.

(** @src rust/connectors/feed-synthetic/src/main.rs 75-113 parse_args *)
Definition parse_args (args : list string) : option Options :=
  o ← read_args args (mkOptions [] Udp.UNSPECIFIED "127.0.0.1:14550" AIS_STATIC_EVERY false None);
  let all := match sensors o with [] => ALL | l => l end in
  Some (mkOptions (first_of_each [] all) (bind o) (mavlink_to o) (ais_static_every o) (dry_run o) (ticks o)).

(** * What a sensor sends at a tick *)

(** @src rust/connectors/feed-synthetic/src/scenario.rs 265-279 Unit *)
Definition UNIT_FIX : Fix := mkFix (f_ratio 508020 10000) (f_ratio (-11120) 10000).

Section ticks.
Context `{T : Trig}.
Variable log10 : f64 → f64.
(** The time crate's formatting, serde_json's printing and the generated encoder. *)
Variable rfc3339 : SapientMsg.Timestamp → string.
Variable to_text : Value → bytes.
Variable encode : SapientMsg.SapientMessage → bytes.

Definition q (s : string) : bytes := [34] ++ s2b s ++ [34].

(** @src rust/connectors/feed-synthetic/src/cot.rs 10-33 event *)
Definition cot_event (t stale : SapientMsg.Timestamp) : bytes :=
  s2b "<?xml version=" ++ q "1.0" ++ s2b " encoding=" ++ q "UTF-8" ++ s2b "?>"
  ++ s2b "<event version=" ++ q "2.0" ++ s2b " uid=" ++ q "SHORE-PARTY-1" ++ s2b " type=" ++ q "a-f-G-U-C" ++ s2b " how=" ++ q "m-g"
  ++ s2b " time=" ++ q (rfc3339 t) ++ s2b " start=" ++ q (rfc3339 t) ++ s2b " stale=" ++ q (rfc3339 stale) ++ s2b ">"
  ++ s2b "<point lat=" ++ q (fmt_fixed 6 (fix_lat UNIT_FIX)) ++ s2b " lon=" ++ q (fmt_fixed 6 (fix_lon UNIT_FIX)) ++ s2b " hae=" ++ q (fmt_fixed 1 (f_of_Z 12))
  ++ s2b " ce=" ++ q "9999999.0" ++ s2b " le=" ++ q "9999999.0" ++ s2b "/>"
  ++ s2b "<detail><contact callsign=" ++ q "BRAVO21" ++ s2b "/><__group name=" ++ q "Cyan" ++ s2b " role=" ++ q "Team Member" ++ s2b "/></detail>"
  ++ s2b "</event>".

(** @src rust/connectors/feed-synthetic/src/esm.rs 37-39 round1 *)
Definition round1 (v : f64) : f64 := f_div (f_round (f_mul v (f_of_Z 10))) (f_of_Z 10).

(** @src rust/connectors/feed-synthetic/src/esm.rs 11-31 intercept *)
Definition intercept (e : EmitterState) (observed : SapientMsg.Timestamp) : Value :=
  Obj (fold_right (λ kv m, Json.put kv.1 kv.2 m) []
    [("time", Str (rfc3339 observed)); ("emitter_id", Str "EM-NAV-1"); ("frequency_hz", Numeral "9410000000");
     ("bandwidth_hz", Numeral "20000000"); ("power_dbm", Number (round1 (e_power_dbm e))); ("elnot", Str "G1234");
     ("prf_hz", Number (f_of_Z 2100)); ("pulse_width_us", Number (f_ratio 8 100)); ("scan_type", Str "circular");
     ("scan_period_s", Number (f_ratio 25 10)); ("bearing_deg", Number (round1 (e_bearing_deg e)));
     ("bearing_accuracy_deg", Number (f_of_Z 2)); ("carried_by", Str "235009870"); ("carried_by_standard", Str "AIS");
     ("observed_by", Str (show RADAR_SAC ++ ":" ++ show RADAR_SIC)); ("observed_by_standard", Str "ASTERIX");
     ("truth_lat", Number (fix_lat (e_fix e))); ("truth_lon", Number (fix_lon (e_fix e)))]%string).

(** [f64::max], which passes over what is not a number. *)
Definition f_max (x y : f64) : f64 := match x with S754_nan => y | _ => if f_ltb x y then y else x end.

(** What the clocks say at a tick: the seconds since the start, the source's time of
    observation, as a time since the epoch (and a minute later, [stale]) and as a
    calendar date, and two readings of the monotonic clock, in nanoseconds. *)
Record At := mkAt {
  secs : f64;
  observed : SapientMsg.Timestamp;
  stale : SapientMsg.Timestamp;
  calendar : Sbs.Instant;
  checked : Z;
  sent_at : Z
}.

(** What a sensor keeps between ticks: the count of ticks, the sequence number of its
    MAVLink link, and when it last sent static data. *)
Record State := mkState { n : Z; link : Z; last_static : option Z }.

(** [last_static.is_none_or(..)]; [elapsed] does not go below zero. *)
Definition static_due (every : Z) (st : State) (at_ : At) : bool :=
  match last_static st with None => true | Some t => every <=? Z.max 0 (checked at_ - t) end.

(** The sends of one tick, in order. *)
(** @src rust/connectors/feed-synthetic/src/main.rs 301-353 run *)
Definition on_tick (sensor : Sensor) (every : Z) (st : State) (at_ : At) : State * list bytes :=
  let n := n st + 1 in
  let kept := mkState n (link st) (last_static st) in
  let c := calendar at_ in
  match sensor with
  | SAis =>
      let position := position_report (vessel_at sin cos (secs at_)) (Sbs.second c) in
      if static_due every st at_ then (mkState n (link st) (Some (sent_at at_)), [position; static_report (n / 10 mod 10)])
      else (kept, [position])
  | SAdsb => (kept, [Sbs.report (aircraft_at sin cos (secs at_)) c])
  | SAsterix =>
      let '(first, second) := Radar.rotation (vessel_at sin cos (secs at_)) (aircraft_at sin cos (secs at_))
        (Radar.mkObserved (Sbs.hour c) (Sbs.minute c) (Sbs.second c) (Sbs.millisecond c)) in
      (kept, [first; second])
  | SMavlink =>
      let u := uav_at sin cos (secs at_) in
      let boot_s := f_max (f_sub (secs at_) (latency_s SMavlink)) f_zero in
      let '(heartbeat, l) := Feed.heartbeat (link st) in
      let '(fused, l) := Feed.global_position_int sin cos l u (as_u32 (f_mul boot_s (f_of_Z 1000))) in
      let '(raw, l) := Feed.gps_raw_int l u (as_u64 (f_mul boot_s (f_of_Z 1000000))) in
      (mkState n l (last_static st), [heartbeat; fused; raw])
  | SCot => (kept, [cot_event (observed at_) (stale at_)])
  | SEsm => (kept, [to_text (intercept (emitter_at sin cos log10 atan2 hypot (secs at_)) (observed at_)) ++ [10]])
  | SSapient => (kept, (λ m, SapientWire.frame (encode m)) <$> Cuas.tick n (observed at_, uav_at sin cos (secs at_)))
  end.

(** A sensor for as many ticks as asked, or for as long as there are any. *)
(** @src rust/connectors/feed-synthetic/src/main.rs 285-355 run *)
Fixpoint run (sensor : Sensor) (every : Z) (limit : option Z) (st : State) (clock : list At) : list bytes :=
  match clock with
  | [] => []
  | at_ :: clock =>
      if match limit with None => true | Some t => n st <? t end then
        let '(st, out) := on_tick sensor every st at_ in out ++ run sensor every limit st clock
      else []
  end.
End ticks.

(** @src rust/connectors/feed-synthetic/src/main.rs 296-298 run *)
Definition fresh : State := mkState 0 0 None.

(** * Where it goes *)

(** A name's address: whether it is of IPv4, and what it is. *)
(** @src rust/connectors/feed-synthetic/src/main.rs 183-191 resolve_v4 *)
Definition resolve_v4 {A} (looked_up : option (list (bool * A))) : option A :=
  addrs ← looked_up;
  snd <$> head (filter (λ a, a.1 = true) addrs).

(** @src rust/connectors/feed-synthetic/src/main.rs 42-44 RERESOLVE_EVERY *)
Definition RERESOLVE_EVERY : Z := 30 * SECOND.

(** The address in use and when it was looked up, and the one to send to now. *)
(** @src rust/connectors/feed-synthetic/src/main.rs 158-181 Unicast::target *)
Definition target {A} (to : A * Z) (now : Z) (looked_up : option (list (bool * A))) : (A * Z) * A :=
  let '(addr, at_) := to in
  if Z.max 0 (now - at_) <? RERESOLVE_EVERY then (to, addr)
  else match resolve_v4 looked_up with
       | Some fresh => ((fresh, now), fresh)
       | None => ((addr, now), addr)
       end.

(** The line a dry run prints. *)
(** @src rust/connectors/feed-synthetic/src/main.rs 142-147 Sink::send *)
Definition printed_line (name : string) (b : bytes) : bytes :=
  s2b "[" ++ s2b name ++ s2b "] " ++ (if utf8_valid b then trim_end b else b ≫= hex2).

(** ** The fan-out *)

(** @src rust/connectors/feed-synthetic/src/main.rs 37-39 MAX_READERS *)
Definition MAX_READERS : Z := 64.
Definition CAPACITY : nat := 256.

(** A reader: the frames sent when it attached, the next it will be given, how many
    it was told it missed, and the frames written to it. *)
Record Reader := mkReader { from : nat; next : nat; skipped : nat; written : list bytes }.
(** All that was sent, and the readers attached. *)
Record Fan := mkFan { log : list bytes; readers : gmap nat Reader }.

(** The accept loop and a task per reader, over a broadcast channel of tokio: a
    receiver is given what was sent after it subscribed, in order, and one that is
    more than the capacity behind is told so and goes on with the oldest frame held. *)
(** @src rust/connectors/feed-synthetic/src/main.rs 195-247 tcp_fanout *)
Inductive fan_step : Fan → Fan → Prop :=
| FSend s frame : fan_step s (mkFan (log s ++ [frame]) (readers s))
| FAttach s i : Z.of_nat (size (readers s)) < MAX_READERS → readers s !! i = None →
    fan_step s (mkFan (log s) (<[i := mkReader (length (log s)) (length (log s)) 0 []]> (readers s)))
| FRefuse s : MAX_READERS ≤ Z.of_nat (size (readers s)) → fan_step s s
| FWrite s i r frame : readers s !! i = Some r → (length (log s) - next r <= CAPACITY)%nat → log s !! next r = Some frame →
    fan_step s (mkFan (log s) (<[i := mkReader (from r) (S (next r)) (skipped r) (written r ++ [frame])]> (readers s)))
| FLag s i r : readers s !! i = Some r → (CAPACITY < length (log s) - next r)%nat →
    fan_step s (mkFan (log s) (<[i := mkReader (from r) (length (log s) - CAPACITY) (skipped r + (length (log s) - CAPACITY - next r)) (written r)]> (readers s)))
| FDetach s i : fan_step s (mkFan (log s) (delete i (readers s))).

Definition fan_runs : Fan → Prop := rtc fan_step (mkFan [] ∅).

(** * Properties of the schedule *)

Section schedule.
Context `{T : Trig}.
Variable log10 : f64 → f64.
Variable rfc3339 : SapientMsg.Timestamp → string.
Variable to_text : Value → bytes.
Variable encode : SapientMsg.SapientMessage → bytes.

Notation on_tick := (on_tick log10 rfc3339 to_text encode).
Notation run := (run log10 rfc3339 to_text encode).

Lemma on_tick_n sensor every st at_ : n (on_tick sensor every st at_).1 = n st + 1.
Proof.
  unfold FeedMain.on_tick. repeat case_match; done.
Qed.

(** A run of [t] ticks is the run of the first [t], whatever the clock. *)
Lemma run_ticks sensor every t clock : ∀ st, n st <= t →
  run sensor every (Some t) st clock = run sensor every None st (take (Z.to_nat (t - n st)) clock).
Proof.
  induction clock as [|at_ clock IH]; intros st Ht; [by rewrite take_nil|]. cbn [FeedMain.run].
  destruct (Z.ltb_spec (n st) t) as [H|H].
  - replace (Z.to_nat (t - n st)) with (S (Z.to_nat (t - (n st + 1)))) by lia. cbn [take FeedMain.run].
    pose proof (on_tick_n sensor every st at_) as Hn. destruct (on_tick sensor every st at_) as [st' out]. cbn [fst] in Hn.
    rewrite IH by lia. by rewrite Hn.
  - by replace (Z.to_nat (t - n st)) with 0%nat by lia.
Qed.

(** What the SAPIENT sensor sends is the node of [FeedSapient], frame by frame. *)
Lemma run_sapient every clock : ∀ st,
  run SSapient every None st clock = (λ m, SapientWire.frame (encode m)) <$> Cuas.sent (n st + 1) ((λ a, (observed a, uav_at sin cos (secs a))) <$> clock).
Proof.
  induction clock as [|at_ clock IH]; intros st; [done|]. cbn [FeedMain.run FeedMain.on_tick fmap list_fmap Cuas.sent].
  rewrite IH. cbn [n]. by rewrite fmap_app.
Qed.
End schedule.

(** ** The command line *)

Lemma first_of_each_elem l : ∀ seen s, s ∈ first_of_each seen l ↔ s ∈ l ∧ s ∉ seen.
Proof.
  induction l as [|t l IH]; intros seen s; cbn [first_of_each]; [by rewrite elem_of_nil; naive_solver|]. destruct (decide (t ∈ seen)) as [Ht|Ht]; [rewrite bool_decide_true by done|rewrite bool_decide_false by done]; rewrite ?elem_of_cons, IH, not_elem_of_cons;
    destruct (decide (s = t)) as [->|]; naive_solver.
Qed.

Lemma first_of_each_NoDup l : ∀ seen, NoDup (first_of_each seen l).
Proof.
  induction l as [|t l IH]; intros seen; cbn [first_of_each]; [constructor|]. destruct (bool_decide _); [done|]. constructor; [|done].
  rewrite first_of_each_elem, not_elem_of_cons. naive_solver.
Qed.

(** A feed runs some sensors, each once, so that no two bind one port. *)
Lemma options_sensors args o : parse_args args = Some o → sensors o ≠ [] ∧ NoDup (sensors o).
Proof.
  unfold parse_args. destruct (read_args _ _) as [o'|]; [|done]. cbn [mbind option_bind]. intros [= <-]. cbn [sensors].
  split; [|apply first_of_each_NoDup]. destruct (sensors o') as [|s l]; [done|]. cbn [first_of_each]. by rewrite bool_decide_false by apply not_elem_of_nil.
Qed.

Example command_lines :
  sensors <$> parse_args ["ais"; "--ticks"; "3"; "cot"; "ais"] = Some [SAis; SCot]
  ∧ sensors <$> parse_args ["--bind"; "10.0.0.1"] = Some ALL
  ∧ ais_static_every <$> parse_args ["--ais-static-every"; "0"] = Some SECOND
  ∧ parse_args ["--bind"] = None ∧ parse_args ["radar"] = None.
Proof. by vm_compute. Qed.

(** ** The fan-out *)

(** A reader that missed nothing was written the frames sent since it attached, in
    order, up to the next; and of those one that fell behind was written as many as it
    did not miss, in order. *)
Definition served (s : Fan) (r : Reader) : Prop :=
  (from r <= next r <= length (log s))%nat
  ∧ (length (written r) + skipped r = next r - from r)%nat
  ∧ written r `sublist_of` take (next r - from r) (drop (from r) (log s)).

Lemma served_more s frame readers r : served s r → served (mkFan (log s ++ [frame]) readers) r.
Proof.
  intros ((H1 & H2) & H3 & H4). unfold served. cbn [log]. rewrite length_app. split; [lia|]. split; [done|].
  rewrite drop_app_le by lia. rewrite take_app_le by (rewrite length_drop; lia). done.
Qed.

Lemma take_snoc_next s r frame : (from r <= next r)%nat → log s !! next r = Some frame →
  take (S (next r) - from r) (drop (from r) (log s)) = take (next r - from r) (drop (from r) (log s)) ++ [frame].
Proof.
  intros H Hl. replace (S (next r) - from r)%nat with (S (next r - from r)) by lia. apply take_S_r.
  rewrite lookup_drop. by replace (from r + (next r - from r))%nat with (next r) by lia.
Qed.

Lemma sublist_full {A} (l k : list A) : l `sublist_of` k → (length k <= length l)%nat → l = k.
Proof.
  induction 1 as [|x l k H IH|x l k H IH]; intros Hl; [done| |].
  - f_equal. apply IH. cbn in Hl. lia.
  - apply sublist_length in H. cbn in Hl. lia.
Qed.

Lemma take_sublist {A} a b (l : list A) : (a <= b)%nat → take a l `sublist_of` take b l.
Proof. intros H. rewrite <- (Nat.min_l a b H), <- take_take. apply sublist_take. Qed.

(** however readers come and go while the feed runs, there are at most 64 of them,
    and each is written whole frames in the order they were sent, none of them twice
    and none from before it attached; one that never fell 256 frames behind is written
    every frame sent since. *)
Theorem fan_out s : fan_runs s → Z.of_nat (size (readers s)) ≤ MAX_READERS ∧ ∀ i r, readers s !! i = Some r → served s r
  ∧ (skipped r = 0%nat → written r = take (next r - from r) (drop (from r) (log s))).
Proof.
  intros H. enough (Z.of_nat (size (readers s)) ≤ MAX_READERS ∧ map_Forall (λ _, served s) (readers s)) as [Hs Hr].
  { split; [done|]. intros i r Hi. pose proof (Hr i r Hi) as Hser. split; [done|]. intros H0. destruct Hser as ((H1 & H2) & H3 & H4).
    apply sublist_full; [done|]. rewrite length_take, length_drop. lia. }
  revert s H. apply (rtc_ind_r (λ s, Z.of_nat (size (readers s)) ≤ MAX_READERS ∧ map_Forall (λ _, served s) (readers s))); [by split|].
  intros s s' _ Hstep [Hs Hr]. destruct Hstep as [s frame|s i Hlt Hn|s _|s i r frame Hi Hle Hl|s i r Hi Hlt|s i]; cbn [readers log] in *.
  - split; [done|]. intros i r Hi. apply served_more. by eapply Hr.
  - split; [rewrite map_size_insert_None by done; lia|]. apply map_Forall_insert_2; [|exact Hr]. unfold served. cbn. rewrite Nat.sub_diag.
    split; [lia|]. split; [done|]. apply sublist_nil_l.
  - done.
  - destruct (Hr i r Hi) as ((H1 & H2) & H3 & H4). pose proof (lookup_lt_Some _ _ _ Hl).
    split; [rewrite map_size_insert_Some by done; lia|]. apply map_Forall_insert_2; [|exact Hr]. unfold served. cbn [from next skipped written log].
    split; [lia|]. split; [rewrite length_app; cbn; lia|]. rewrite (take_snoc_next s r frame) by done. by apply sublist_app.
  - destruct (Hr i r Hi) as ((H1 & H2) & H3 & H4). split; [rewrite map_size_insert_Some by done; lia|].
    apply map_Forall_insert_2; [|exact Hr]. unfold served. cbn [from next skipped written log]. split; [lia|]. split; [lia|].
    etransitivity; [exact H4|]. apply take_sublist. lia.
  - split; [|by apply map_Forall_delete]. pose proof (map_size_delete i (readers s)). destruct (readers s !! i); cbn in *; lia.
Qed.

(** * Witness *)

Definition ex_fan : Fan := mkFan [[1]; [2]; [3]] {[ 0%nat := mkReader 1 2 0 [[2]] ]}.

Lemma ex_fan_runs : fan_runs ex_fan.
Proof.
  eapply rtc_l; [apply (FSend _ [1])|]. eapply rtc_l; [apply (FAttach _ 0); [done|reflexivity]|].
  eapply rtc_l; [apply (FSend _ [2])|]. eapply rtc_l; [apply (FWrite _ 0 (mkReader 1 1 0 []) [2]); [reflexivity|cbn; unfold CAPACITY; lia|reflexivity]|].
  eapply rtc_l; [apply (FSend _ [3])|]. apply rtc_refl.
Qed.

Lemma fan_out_witness : ∃ r, readers ex_fan !! 0%nat = Some r ∧ written r = take (next r - from r) (drop (from r) (log ex_fan)).
Proof.
  eexists. split; [reflexivity|]. refine (proj2 (proj2 (fan_out ex_fan ex_fan_runs) 0%nat _ eq_refl) eq_refl).
Defined.
