(* ===== verification/Emits.v ===== *)
(** What each connector can emit: the entity type of every event its parser yields,
    against the parsers of the other files. *)
From Stdlib Require Import ZArith Lia.
From Stdlib Require Import Strings.String.
From S2P Require AstCat AisBits Klv Mavlink Adsb Gmti S4586 Asterix Sapient Generic Cot S4676 Ttm Ais.
From S2P Require Import Runtime Ontology.
From S2P Require Import Json.

Local Open Scope Z_scope.

(** * The type of a builder *)

Definition typed (t : string) (b : EventBuilder) : Prop := Event.entity_type b = t.

(** A step that leaves the type alone. *)
Definition keeps_type (f : EventBuilder → EventBuilder) : Prop := ∀ b, Event.entity_type (f b) = Event.entity_type b.

Lemma typed_step t f b : keeps_type f → typed t b → typed t (f b).
Proof. intros Hf Hb. unfold typed. by rewrite Hf. Qed.

Lemma keeps_attribute k v : keeps_type (attribute k v).
Proof. done. Qed.
Lemma keeps_metadata k v : keeps_type (add_metadata k v).
Proof. done. Qed.
Lemma keeps_governed o ty k v : keeps_type (governed o ty k v).
Proof. intros b. unfold governed. by destruct (governs _ _ _). Qed.
Lemma keeps_identity k v : keeps_type (identity k v).
Proof. intros b. unfold identity. by destruct (_ || _). Qed.
Lemma keeps_set_location la lo al : keeps_type (set_location la lo al).
Proof. done. Qed.
Lemma keeps_set_timestamp ts : keeps_type (set_timestamp ts).
Proof. done. Qed.
Lemma keeps_now env : keeps_type (now env).
Proof. done. Qed.
Lemma keeps_set_confidence c : keeps_type (set_confidence c).
Proof. done. Qed.
Lemma keeps_policy_tag t : keeps_type (policy_tag t).
Proof. done. Qed.
Lemma keeps_set_payload p : keeps_type (set_payload p).
Proof. done. Qed.
Lemma keeps_new_id env : keeps_type (new_id env).
Proof. done. Qed.
Lemma keeps_unnamespaced : keeps_type allow_unnamespaced_entity_type.
Proof. done. Qed.

Lemma typed_on_some {A} t (o : option A) f b : (∀ x b, typed t b → typed t (f x b)) → typed t b → typed t (on_some o f b).
Proof. destruct o; cbn; auto. Qed.
Lemma typed_on_true t c f b : (∀ b, typed t b → typed t (f b)) → typed t b → typed t (on_true c f b).
Proof. destruct c; cbn; auto. Qed.
Lemma typed_fold {A} t (f : EventBuilder → A → EventBuilder) l : (∀ b x, typed t b → typed t (f b x)) → ∀ b, typed t b → typed t (fold_left f l b).
Proof. intros H. induction l as [|x l IH]; intros b Hb; [done|]. cbn [fold_left]. auto. Qed.
Lemma typed_indexed {A} t (f : string → A → EventBuilder → EventBuilder) l :
  (∀ i x b, typed t b → typed t (f i x b)) → ∀ i b, typed t b → typed t (Sapient.add_indexed f i l b).
Proof. intros H. induction l as [|x l IH]; intros i b Hb; [done|]. cbn [Sapient.add_indexed]. auto. Qed.

(** Take a chain of setters apart, outermost first. *)
Ltac typed_step :=
  cbv zeta beta;
  lazymatch goal with
  | H : typed ?t ?b |- typed ?t ?b => exact H
  | |- typed _ (on_some _ _ _) => apply typed_on_some; [intros ? ? ?|]
  | |- typed _ (on_true _ _ _) => apply typed_on_true; [intros ? ?|]
  | |- typed _ (fold_left _ _ _) => apply typed_fold; [intros ? ? ?|]
  | |- typed _ (Sapient.add_all _ _ _) => apply (typed_fold _ (λ b x, _ x b)); [intros ? ? ?|]
  | |- typed _ (Sapient.add_indexed _ _ _ _) => apply typed_indexed; [intros ? ? ? ?|]
  | |- typed _ (match ?x with _ => _ end) => destruct x
  | |- typed _ ((match ?x with _ => _ end) _) => destruct x
  | |- typed _ (attribute _ _ _) => apply typed_step; [apply keeps_attribute|]
  | |- typed _ (add_metadata _ _ _) => apply typed_step; [apply keeps_metadata|]
  | |- typed _ (governed _ _ _ _ _) => apply typed_step; [apply keeps_governed|]
  | |- typed _ (identity _ _ _) => apply typed_step; [apply keeps_identity|]
  | |- typed _ (set_location _ _ _ _) => apply typed_step; [apply keeps_set_location|]
  | |- typed _ (set_timestamp _ _) => apply typed_step; [apply keeps_set_timestamp|]
  | |- typed _ (now _ _) => apply typed_step; [apply keeps_now|]
  | |- typed _ (set_confidence _ _) => apply typed_step; [apply keeps_set_confidence|]
  | |- typed _ (policy_tag _ _) => apply typed_step; [apply keeps_policy_tag|]
  | |- typed _ (set_payload _ _) => apply typed_step; [apply keeps_set_payload|]
  | |- typed _ (new_id _ _) => apply typed_step; [apply keeps_new_id|]
  | |- typed _ (allow_unnamespaced_entity_type _) => apply typed_step; [apply keeps_unnamespaced|]
  | |- typed _ (builder_new _ _) => reflexivity
  end.
Ltac typed_tac := repeat typed_step.

Lemma built_type {E} (f : BuildError → E) b e t : typed t b → map_err f (build b) = Ok e → ev_entity_type e = t.
Proof.
  intros Ht. destruct (build b) as [e'| | |] eqn:H; try done. intros [= ->]. destruct (build_Ok b e H) as (i & ts & _ & ->). exact Ht.
Qed.

(** * The law *)

(** From a state with [I], any frame leaves a state with [I] and yields events of
    types with [A] only. *)
Definition emits (P : FrameParser) (I : fp_state → Prop) (A : string → Prop) : Prop :=
  ∀ envs s frame, I s → I (fp_parse envs s frame).1 ∧ ∀ es, (fp_parse envs s frame).2 = Ok es → Forall (λ e, A (ev_entity_type e)) es.

Lemma emits_ext P I (A B : string → Prop) : (∀ t, A t → B t) → emits P I A → emits P I B.
Proof.
  intros HAB H envs s frame Hs. destruct (H envs s frame Hs) as [H1 H2]. split; [done|]. intros es Hes.
  eapply Forall_impl; [by apply H2|]. intros e. apply HAB.
Qed.

Lemma one_event {E} (f : BuildError → E) b es t (A : string → Prop) : typed t b → A t → (e ← map_err f (build b); Ok [e]) = Ok es → Forall (λ e, A (ev_entity_type e)) es.
Proof.
  intros Ht HA (e & He & [= <-])%bind_Ok. constructor; [|constructor]. by rewrite (built_type f b e t Ht He).
Qed.

Section connectors.
Context `{T : Trig} `{X : S4676.TimeCrate}.
Variable ont : Ontology.

(** ** One type each *)

Lemma klv_emits rfc : emits (Klv.klv_parser rfc) (λ _, True) (eq "mim:aircraft"%string).
Proof.
  intros envs s frame _. split; [done|]. intros es H. cbn in H. unfold Klv.parse in H. apply bind_Ok in H as ([m|] & _ & H); [|by injection H as <-].
  eapply one_event; [|reflexivity|exact H]. unfold Klv.base_builder. typed_tac.
Qed.

Lemma mav_emits : emits Mavlink.mav_parser (λ _, True) (eq "mim:aircraft"%string).
Proof.
  intros envs s frame _. split; [done|]. intros es H. cbn in H. unfold Mavlink.parse in H. destruct (Mavlink.parse_frame s frame) as [s' r]. cbn [snd] in H.
  apply bind_Ok in H as ([p|] & _ & H); [|by injection H as <-].
  eapply one_event; [|reflexivity|exact H]. unfold Mavlink.base_builder. typed_tac.
Qed.

Lemma adsb_emits : emits Adsb.adsb_parser (λ _, True) (eq "mim:aircraft"%string).
Proof.
  intros envs s frame _. split; [done|]. intros es H. cbn in H. unfold Adsb.parse in H. destruct (Adsb.parse_line s frame) as [s' r]. cbn [snd] in H.
  apply bind_Ok in H as ([p|] & _ & H); [|by injection H as <-].
  eapply one_event; [|reflexivity|exact H]. unfold Adsb.base_builder. typed_tac.
Qed.

Lemma gmti_emits : emits Gmti.gmti_parser (λ _, True) (eq "mim:object"%string).
Proof.
  intros envs s frame _. split; [done|]. intros es H. cbn in H. apply bind_Ok in H as (ts & _ & H). revert H.
  generalize 0%nat as i. revert es. induction ts as [|t ts IH]; intros es i; cbn [Gmti.events]; [intros [= <-]; constructor|].
  intros (e & He & (es' & Hes & [= <-])%bind_Ok)%bind_Ok. constructor; [|by eapply IH].
  symmetry. eapply built_type; [|exact He]. unfold Gmti.base_builder. typed_tac.
Qed.

Lemma s4586_emits atan2 hypot rfc t : emits (S4586.s4586_parser atan2 hypot rfc) (λ s, S4586.entity_type s = t) (eq t).
Proof.
  intros envs s frame Hs. split; [done|]. intros es H. cbn in H. unfold S4586.to_events in H. revert H.
  generalize (length frame) as fuel, 0%nat as i, 0 as off. intros fuel. revert es. induction fuel as [|fuel IH]; intros es i off; cbn [S4586.walk];
    (destruct (S4586.message_at frame off) as [[body_len msg_end]|]; [|intros [= <-]; constructor]); [done|].
  intros (c & _ & H)%bind_Ok. destruct (negb _); [done|]. destruct (_ =? S4586.MSG_INERTIAL_STATES); [|by eapply IH].
  apply bind_Ok in H as (body & _ & H). apply bind_Ok in H as (raw & _ & H). apply bind_Ok in H as (e & He & H). apply bind_Ok in H as (es' & Hes & [= <-]).
  constructor; [|by eapply IH]. unfold S4586.decode_inertial in He. apply bind_Ok in He as (x & _ & He). symmetry.
  eapply built_type; [|exact He]. unfold S4586.inertial_builder. rewrite <- Hs. typed_tac.
Qed.

Lemma generic_emits fs ts rfc t : emits (Generic.generic_parser fs ts rfc) (λ s, Generic.entity_type (Generic.mapping s) = t) (eq t).
Proof.
  intros envs s frame Hs. split; [done|]. intros es H. cbn in H.
  destruct (Generic.to_event _ _ _ _ _ _) as [e| | |] eqn:E; try done. injection H as <-. constructor; [|constructor]. unfold Generic.to_event in E.
  apply bind_Ok in E as (rec & _ & E). apply bind_Ok in E as (b1 & Hb1 & E). apply bind_Ok in E as (b2 & Hb2 & E). apply bind_Ok in E as (b3 & Hb3 & E).
  symmetry. eapply built_type; [|exact E]. rewrite <- Hs.
  assert (typed (Generic.entity_type (Generic.mapping s)) b1) as H1.
  { destruct (Generic.timestamp_field _); [apply bind_Ok in Hb1 as (raw & _ & Hb1); apply bind_Ok in Hb1 as (x & _ & [= <-])|injection Hb1 as <-]; typed_tac. }
  assert (typed (Generic.entity_type (Generic.mapping s)) b2) as H2.
  { unfold Generic.locate in Hb2. repeat case_match; try (by injection Hb2 as <-);
      repeat (apply bind_Ok in Hb2 as (? & _ & Hb2)); injection Hb2 as <-; typed_tac. }
  assert (typed (Generic.entity_type (Generic.mapping s)) b3) as H3.
  { unfold Generic.confide in Hb3. repeat case_match; try (by injection Hb3 as <-);
      repeat (apply bind_Ok in Hb3 as (? & _ & Hb3)); injection Hb3 as <-; typed_tac. }
  unfold Generic.map_fields. typed_tac.
Qed.

(** ** Types of a configuration *)

Definition mim (t : string) : Prop := str_starts "mim:" t = true.
Definition mapped (o : gmap string string) (t : string) : Prop := ∃ k, o !! k = Some t.

Lemma cot_emits pull o : emits (Cot.cot_parser pull) (λ s, Cot.overrides s = o) (λ t, mapped o t ∨ mim t ∨ str_starts "x:cot:" t = true).
Proof.
  intros envs s frame Hs. split; [done|]. intros es H. cbn in H.
  destruct (Cot.cot_to_event _ _ _ _) as [e| | |] eqn:E; try done. injection H as <-. constructor; [|constructor]. unfold Cot.cot_to_event in E.
  apply bind_Ok in E as (r & _ & E). destruct (Xml.failed _); [done|]. apply bind_Ok in E as (? & _ & E). apply bind_Ok in E as (u & _ & E).
  apply bind_Ok in E as (ty & _ & E). apply bind_Ok in E as (ti & _ & E).
  assert (ev_entity_type e = Cot.map_type s ty) as ->.
  { eapply built_type; [|exact E]. unfold Cot.event_builder. typed_tac. }
  unfold Cot.map_type. rewrite Hs. destruct (o !! ty) as [t|] eqn:Ho; [left; by exists ty|]. right.
  repeat case_match; try (left; reflexivity). all: right; apply bool_decide_eq_true; eexists; by apply str_strip_app.
Qed.

Lemma s4676_emits pull o : emits (S4676.s4676_parser ont pull) (λ s, S4676.s_overrides s = o) (λ t, mapped o t ∨ t = "mim:object"%string).
Proof.
  set (A := λ t : string, mapped o t ∨ t = "mim:object"%string). intros envs s frame Hs. split; [done|]. intros es H. cbn in H. unfold S4676.to_events in H. apply bind_Ok in H as (l & Hl & H).
  destruct (Xml.failed _); [done|]. injection H as <-.
  assert (∀ en, A (S4676.s_entity_type s en)) as HA.
  { intros en. unfold A, S4676.s_entity_type. rewrite Hs. destruct (o !! default _ en) as [t|] eqn:E; [left; by eexists|].
    destruct (o !! S4676.environment_code en) as [t|] eqn:E'; cbn; [left; by eexists|by right]. }
  assert (∀ t raw m ps out es, Forall (λ e, A (ev_entity_type e)) out → S4676.flush_points ont envs s t raw m ps out = Ok es → Forall (λ e, A (ev_entity_type e)) es) as Hflush.
  { intros t raw m ps. induction ps as [|p ps IH]; intros out es Ho; cbn [S4676.flush_points]; [by intros [= <-]|].
    intros (e & He & Hr)%bind_Ok. eapply IH; [|exact Hr]. apply Forall_app. split; [done|]. constructor; [|constructor].
    assert (ev_entity_type e = S4676.s_entity_type s (S4676.t_environment t)) as ->; [|apply HA].
    eapply built_type; [|exact He]. unfold S4676.point_builder, S4676.apply_kinematics. typed_tac. }
  revert Hl. generalize (Xml.items (pull frame)) as ps. assert (Forall (λ e, A (ev_entity_type e)) (S4676.events (S4676.mkLoop [] S4676.walk_new []))) as H0 by constructor.
  revert H0. generalize (S4676.mkLoop [] S4676.walk_new []) as l0. intros l0 H0 ps. revert l0 H0. induction ps as [|p ps IH]; intros l0 H0; cbn [S4676.walk]; [by intros [= <-]|].
  intros (l1 & H1 & Hw)%bind_Ok. eapply IH; [|exact Hw]. unfold S4676.walk_item in H1. destruct (Xml.item p); try (injection H1 as <-; try exact H0).
  - unfold S4676.close_tag in H1. repeat (destruct (String.eqb _ _); [try (by injection H1 as <-)|]); [|by injection H1 as <-].
    apply bind_Ok in H1 as (out & Hout & [= <-]). by eapply Hflush.
  - unfold S4676.text_in. by destruct (trim _).
Qed.

(** The Asterix parser's own settings outlast any datagram. *)
Definition asterix_kept (s s' : Asterix.AsterixParser) : Prop :=
  Asterix.cat010_type s' = Asterix.cat010_type s ∧ Asterix.cat034_type s' = Asterix.cat034_type s.
#[local] Instance asterix_kept_preorder : PreOrder asterix_kept.
Proof. split; [done|]. intros a b c [H1 H2] [K1 K2]. split; congruence. Qed.

Lemma count_kept c s : asterix_kept s (Asterix.count c s).
Proof. by destruct s, c. Qed.
Lemma service_report_kept s r : asterix_kept s (Asterix.service_report s r).1.
Proof.
  unfold Asterix.service_report. cbv zeta. cbn [fst].
  assert (∀ k v, asterix_kept s (Asterix.put_status k v s)) as H by (intros; by destruct s).
  repeat case_match; repeat (etransitivity; [|apply count_kept]); apply H.
Qed.
Lemma service_records_kept block len fuel : ∀ s off, asterix_kept s (Asterix.service_records fuel s block off len).1.
Proof.
  induction fuel as [|fuel IH]; intros s off; cbn [Asterix.service_records]; destruct (negb _); try done.
  case_match; try done. destruct a as [r next]. pose proof (service_report_kept s r) as H1. destruct (Asterix.service_report s r) as [s1 r1].
  specialize (IH s1 next). destruct (Asterix.service_records _ _ _ _ _) as [s2 rest]. cbn [fst] in *. by transitivity s1.
Qed.
Lemma one_block_kept s cat block : asterix_kept s (Asterix.one_block s cat block).1.
Proof.
  unfold Asterix.one_block. destruct (bool_decide _); [done|]. destruct (_ =? _); [|apply count_kept].
  assert (asterix_kept s (Asterix.parse_service_block s block).1) as H.
  { unfold Asterix.parse_service_block. repeat (case_match; try done). apply service_records_kept. }
  by destruct (Asterix.parse_service_block s block).
Qed.
Lemma blocks_kept fuel : ∀ s rest, asterix_kept s (Asterix.blocks fuel s rest).1.
Proof.
  induction fuel as [|fuel IH]; intros s rest; destruct rest as [|x rest]; cbn [Asterix.blocks]; try done.
  case_match; try done. destruct a as [[cat block] tail]. pose proof (one_block_kept s cat block) as H1.
  destruct (Asterix.one_block s cat block) as [s1 [[ts rs]| | |]]; try done.
  specialize (IH s1 tail). destruct (Asterix.blocks fuel s1 tail) as [s2 more]. cbn [fst] in *. by transitivity s1.
Qed.

Lemma asterix_emits a b : emits (Asterix.asterix_parser ont) (λ s, Asterix.cat010_type s = a ∧ Asterix.cat034_type s = b)
  (λ t, a = Some t ∨ b = Some t ∨ mim t).
Proof.
  set (A := λ t : string, a = Some t ∨ b = Some t ∨ mim t). set (I := λ s : Asterix.AsterixParser, Asterix.cat010_type s = a ∧ Asterix.cat034_type s = b).
  assert (∀ s s', asterix_kept s s' → I s → I s') as HI by (intros s s' [H1 H2] [<- <-]; by split).
  assert (∀ s t, I s → A (Asterix.target_type s t)) as Htt.
  { intros s t [Ha Hb]. unfold A, Asterix.target_type. destruct (negb _); [by right; right|]. rewrite Ha. destruct a as [ty|]; [by left|].
    right; right. repeat case_match; reflexivity. }
  assert (∀ envs ts s i, I s → I (Asterix.target_events ont envs i s ts).1
    ∧ ∀ es, (Asterix.target_events ont envs i s ts).2 = Ok es → Forall (λ e, A (ev_entity_type e)) es) as Hts.
  { intros envs ts. induction ts as [|t ts IH]; intros s i Hs; cbn [Asterix.target_events]; [split; [done|intros es [= <-]; constructor]|].
    destruct (Asterix.is_test t); [apply IH; by eapply HI, Hs; apply count_kept|].
    destruct (map_err _ _) as [e| | |] eqn:He; try done. destruct (IH s (S i) Hs) as [H1 H2]. destruct (Asterix.target_events _ _ _ _ _) as [s2 r].
    split; [done|]. cbn [snd]. intros es (es' & -> & [= <-])%bind_Ok. constructor; [|by apply H2].
    assert (ev_entity_type e = Asterix.target_type s t) as ->; [|by apply Htt]. eapply built_type; [|exact He].
    unfold Asterix.target_builder, Asterix.target_place, Asterix.target_accuracy, Asterix.gov. typed_tac. }
  assert (∀ envs s rs i es, I s → Asterix.build_all envs i ((λ r env, Asterix.service_builder ont env s r) <$> rs) = Ok es → Forall (λ e, A (ev_entity_type e)) es) as Hrs.
  { intros envs s rs. induction rs as [|r rs IH]; intros i es Hs; [intros [= <-]; constructor|]. cbn [fmap list_fmap Asterix.build_all].
    intros (e & He & (es' & Hes & [= <-])%bind_Ok)%bind_Ok. constructor; [|by eapply IH].
    assert (ev_entity_type e = default "mim:sensor"%string (Asterix.cat034_type s)) as ->.
    { eapply built_type; [|exact He]. unfold Asterix.service_builder, Asterix.service_coverage, Asterix.gov. typed_tac. }
    unfold A. destruct Hs as [_ ->]. destruct b as [t|]; [by right; left|by right; right]. }
  intros envs s frame Hs. cbn [fp_parse Asterix.asterix_parser]. unfold Asterix.parse, Asterix.parse_datagram.
  pose proof (HI _ _ (blocks_kept (length frame) s frame) Hs) as H1. destruct (Asterix.blocks _ _ _) as [s1 [[ts rs]| | |]]; try done. cbn [fst] in H1.
  destruct (Asterix.build_all _ _ _) as [es| | |] eqn:He; try done.
  destruct (Hts envs ts s1 (length (filter (λ r, AstCat.is_published r = true) rs)) H1) as [H2 H3]. destruct (Asterix.target_events _ _ _ _ _) as [s2 r].
  split; [done|]. cbn [snd]. intros es0 (es' & Hes & [= <-])%bind_Ok. apply Forall_app. split; [exact (Hrs envs s1 _ 0%nat es H1 He)|exact (H3 es' Hes)].
Qed.

Definition of_types (t : Sapient.Types) (ty : string) : Prop :=
  ty ∈ [Sapient.ty_detection t; Sapient.ty_track t; Sapient.ty_sensor_status t; Sapient.ty_alert t].

Lemma place_typed t ty at_ l b : typed t b → typed t (Sapient.place_oneof ont ty at_ l b).1.
Proof.
  intros H. unfold Sapient.place_oneof, Sapient.place_relative, Sapient.place, Sapient.gov. cbv zeta. repeat (case_match; cbn [fst]); typed_tac.
Qed.

Lemma sapient_builder_typed env s ty nid obs raw : typed ty (Sapient.sapient_builder env s ty nid obs raw).
Proof. unfold Sapient.sapient_builder. typed_tac. Qed.

Lemma detection_typed lower env s nid r obs raw : typed (Sapient.detection_type lower s r) (Sapient.detection ont lower env s nid r obs raw).1.
Proof.
  unfold Sapient.detection. cbv zeta. set (ty := Sapient.detection_type lower s r). pose proof (sapient_builder_typed env s ty nid obs raw) as H0.
  match goal with |- context [Sapient.place_oneof _ _ ?at_ ?l ?b] =>
    assert (typed ty b) as H1 by typed_tac; pose proof (place_typed ty ty at_ l b H1) as H2; destruct (Sapient.place_oneof _ _ at_ l b) as [b2 un] end.
  cbn [fst] in *. unfold Sapient.detection_details, Sapient.detection_velocity, Sapient.gov. typed_tac.
Qed.

(** The type of what a message becomes: that of its kind, or the one its
    classification is mapped to. *)
Lemma report_typed lower any env s nid c obs raw b : (Sapient.report ont lower any env s nid c obs raw).2 = Some b →
  of_types (Sapient.p_types s) (Event.entity_type b) ∨ mapped (Sapient.entity_map s) (Event.entity_type b).
Proof.
  assert (∀ k v, Sapient.p_types (Sapient.remember_position any k v s) = Sapient.p_types s) as Hpos.
  { intros k v. unfold Sapient.remember_position. destruct (_ ≫= _); [|done]. by destruct (Sapient.update_node_config any k (λ n, Sapient.mkNode (Sapient.n_name n) (Sapient.n_type n) (Some p) (Sapient.n_kph n)) s) as (_ & _ & _ & ->). }
  assert (∀ k v, Sapient.p_types (Sapient.remember_node any k v (Sapient.count_registration s)) = Sapient.p_types s) as Hreg.
  { intros k v. unfold Sapient.remember_node. by destruct (Sapient.update_node_config any k (λ n, Sapient.mkNode (SapientMsg.r_name v) (Sapient.node_type v) (Sapient.n_location n) (Sapient.velocity_kph v)) (Sapient.count_registration s)) as (_ & _ & _ & <-). }
  destruct c as [reg| |r|r| | |al| |]; cbn [Sapient.report snd]; try done.
  - intros [= <-]. left. match goal with |- of_types _ (Event.entity_type ?x) => assert (typed (Sapient.ty_sensor_status (Sapient.p_types s)) x) as -> end; [|right; right; by left].
    unfold Sapient.registration, Sapient.gov. rewrite Hreg.
    match goal with |- context [Sapient.sapient_builder ?e ?s ?ty ?n ?o ?r] => pose proof (sapient_builder_typed e s ty n o r) end. typed_tac.
  - intros [= <-]. left. match goal with |- of_types _ (Event.entity_type ?x) => assert (typed (Sapient.ty_sensor_status (Sapient.p_types s)) x) as -> end; [|right; right; by left].
    unfold Sapient.sensor_status, Sapient.status_power, Sapient.status_entry, Sapient.gov. rewrite Hpos.
    match goal with |- context [Sapient.sapient_builder ?e ?s ?ty ?n ?o ?r] => pose proof (sapient_builder_typed e s ty n o r) end.
    unfold Sapient.place, Sapient.gov. typed_tac.
  - pose proof (detection_typed lower env s nid r obs raw) as Hd. destruct (Sapient.detection _ _ _ _ _ _ _ _) as [b1 un]. cbn [fst snd] in *. intros [= <-].
    rewrite Hd. unfold Sapient.detection_type. destruct (_ ≫= _) as [ty|] eqn:E.
    + right. destruct (Sapient.top_classification _) as [[class conf]|]; [|done]. by eexists.
    + left. destruct (SapientMsg.d_track_info r); [by left|right; by left].
  - unfold Sapient.alert. cbv zeta. match goal with |- context [Sapient.place_oneof _ ?ty ?at_ ?l ?b] =>
      assert (typed (Sapient.ty_alert (Sapient.p_types s)) b) as H1;
        [|pose proof (place_typed _ ty at_ l b H1) as H2; destruct (Sapient.place_oneof _ ty at_ l b) as [b2 un]] end.
    { match goal with |- context [Sapient.sapient_builder ?e ?s ?ty ?n ?o ?r] => pose proof (sapient_builder_typed e s ty n o r) end.
      unfold Sapient.gov. typed_tac. }
    cbn [fst snd] in *. intros [= <-]. rewrite H2. left. right; right; right; by left.
Qed.

Lemma sapient_emits decode rfc lower any ty m :
  emits (Sapient.sapient_parser ont decode rfc lower any) (λ s, Sapient.p_types s = ty ∧ Sapient.entity_map s = m) (λ t, of_types ty t ∨ mapped m t).
Proof.
  intros envs s frame [Ht Hm]. cbn [fp_parse Sapient.sapient_parser].
  assert (Sapient.same_config s (Sapient.parse ont decode rfc lower any envs s frame).1) as (_ & _ & E1 & E2).
  { apply (Sapient.hear_config ont decode rfc lower any s [(envs, frame)]). }
  split; [split; [exact (eq_trans (eq_sym E2) Ht)|exact (eq_trans (eq_sym E1) Hm)]|]. intros es H. unfold Sapient.parse, Sapient.parse_message in H.
  destruct (decode frame) as [msg|]; [|done]. destruct (SapientMsg.m_content msg) as [c|]; [|done].
  set (nid := default ""%string (SapientMsg.m_node_id msg)) in *. set (obs := SapientMsg.m_timestamp msg ≫= rfc) in *.
  pose proof (Sapient.report_config ont lower any (envs 0%nat) s nid c obs frame) as (_ & _ & R1 & R2).
  assert (∀ b, (Sapient.report ont lower any (envs 0%nat) s nid c obs frame).2 = Some b → of_types ty (Event.entity_type b) ∨ mapped m (Event.entity_type b)) as Hb.
  { rewrite <- Ht, <- Hm. apply report_typed. }
  destruct (Sapient.report _ _ _ _ _ _ _ _ _) as [s' [b|]]; cbn in H; [|by injection H as <-].
  specialize (Hb b eq_refl). destruct (map_err Sapient.Build (build b)) as [e| | |] eqn:He; try done. injection H as <-. constructor; [|constructor].
  by rewrite (built_type _ _ _ _ eq_refl He).
Qed.

(** ** The AIS connector, radar targets included *)

#[local] Instance ais_program : FrameParser := {|
  fp_state := Ais.AisParser; fp_error := AisBits.AisError;
  fp_parse := Ais.parse sin cos asin atan2
|}.

Lemma ais_emits : emits ais_program (λ _, True) mim.
Proof.
  intros envs s frame _. split; [done|]. intros es. cbn [fp_parse ais_program]. unfold Ais.parse. destruct (_ && _).
  - unfold Ais.parse_radar. destruct (_ ;; _) as [fields| | |]; try done. destruct (Ttm.handle _ _ _ _ _ _ _ _) as [r t]. cbn [snd].
    intros (o & _ & H)%bind_Ok. destruct o as [t'|]; [|by injection H as <-]. unfold Ttm.target_event in H. cbv zeta in H.
    eapply (one_event _ _ _ "mim:object"%string mim); [|reflexivity|exact H]. typed_tac.
  - destruct (Ais.parse_sentence _ _ _) as [s' r]. cbn [snd]. intros (o & _ & H)%bind_Ok. destruct o as [p|]; [|by injection H as <-].
    eapply (one_event _ _ _ "mim:vessel"%string mim); [|reflexivity|exact H]. unfold Ais.base_builder. typed_tac.
Qed.
End connectors.
