(* ===== verification/Programs.v ===== *)
(** The connectors as programs (each connector's main.rs): the arguments, the profile
    a connector prints for the operator to register
    (rust/connectors/common/src/profile.rs), the parser it starts from its
    configuration, and that what it then emits is what the profile asked for. *)
From Stdlib Require Import ZArith Lia.
From Stdlib Require Import Strings.String.
From S2P Require Ais Ttm Generic Sapient AstWire.
From S2P Require Import Ontology Keys Runtime Connectors Emits.
From S2P Require Import Config.

Local Open Scope Z_scope.

(** * What a program is given *)

(** [starts_with("--")]. *)
Definition is_flag (a : string) : bool := starts_with (s2b "--") (s2b a).

(** The first argument after the program's name that is not a flag. *)
(** @src rust/connectors/klv/src/main.rs 17-24 main *)
Definition config_path (default_path : string) (args : list string) : string :=
  default default_path (head (filter (λ a, is_flag a = false) (drop 1 args))).

(** @src rust/connectors/common/src/profile.rs 65-68 requested *)
Definition requested (args : list string) : bool := existsb (λ a, String.eqb a "--profile") args.

(** Every connector: the AIS one, and the family of [Connectors]. *)
Inductive Program := AIS | Of (c : Connector).

Definition default_path (p : Program) : string :=
  match p with
  | AIS => "ais-nmea.toml"
  | Of KLV => "klv.toml" | Of MAVLINK => "mavlink.toml" | Of ADSB => "adsb.toml" | Of GMTI => "gmti.toml"
  | Of STANAG4586 => "stanag4586.toml" | Of ASTERIX => "asterix.toml" | Of SAPIENT => "sapient.toml"
  | Of GENERIC => "generic.toml" | Of TAKCOT => "tak-cot.toml" | Of STANAG4676 => "stanag4676.toml"
  end.

(** ** The SAPIENT options *)

(** @src rust/connectors/sapient/src/sapient.rs 27-35 Role *)
Inductive Role := Dmm | Subscriber.

(** As serde reads the table: a field left out has its default. *)
(** @src rust/connectors/sapient/src/sapient.rs 68-74 OptionsTable *)
Record OptionsTable := mkOptionsTable { t_role : Role; t_node_id : option string; t_types : Sapient.Types }.

(** @src rust/connectors/sapient/src/sapient.rs 37-44 Options *)
Record SapientOptions := mkSapientOptions { o_role : Role; o_node_id : string; o_types : Sapient.Types }.

(** [fresh] is a new UUID. *)
(** @src rust/connectors/sapient/src/sapient.rs 76-101 Options::from_table *)
Definition from_table (fresh : string) (table : option OptionsTable) : option SapientOptions :=
  t ← table;
  let node_id := match t_node_id t with
                 | Some id => match trim (s2b id) with [] => fresh | _ => id end
                 | None => fresh
                 end in
  let ty := t_types t in
  if forallb (λ x, has_byte 58 (s2b x)) [Sapient.ty_detection ty; Sapient.ty_track ty; Sapient.ty_sensor_status ty; Sapient.ty_alert ty]
  then Some (mkSapientOptions (t_role t) node_id ty) else None.

(** * The programs *)

Inductive Refusal :=
| NotLoaded (e : LoadError)
| NoMapping
| NotDeclared (faults : list Fault)
| NoKeyFile (e : KeyError)
| BadOptions
| BadEntityMap
| NotATcpServer
| NoTransport.

Section programs.
Context `{T : Trig} `{X : S4676.TimeCrate} `{C : Ed25519} `{K : !KeyCodec C} `{H : Hex}.
Variable ont : Ontology.
Variable k : Crates.
(** The files, by path; the TOML reader on a configuration, on its [options] and on its
    [mapping]; a new UUID; and whether a transport can be opened. *)
Variable file : string → option bytes.
Variable toml : bytes → res bytes Config.
Variable options_of : bytes → option OptionsTable.
Variable mapping_of : bytes → option Generic.Mapping.
Variable fresh : string.
Variable opens : Transport → bool.

Definition parser_for (p : Program) : FrameParser :=
  match p with AIS => ais_program | Of c => parser_of ont k c end.

(** @src rust/connectors/common/src/profile.rs 70-74 emit *)
Definition emit (cfg : Config) (prefixes : list string) : res Refusal Profile :=
  sk ← map_err NoKeyFile (load_key (file (signing_key_path cfg)));
  Ok (derive cfg (b2s (hex_encode (vk_to_bytes (verifying_key sk)))) prefixes).

(** The mapping the generic connector reads from its own configuration file, and
    declares to the ontology. *)
(** @src rust/connectors/generic/src/main.rs 27-39 main *)
Definition mapping_declared (cfg : Config) (text : bytes) : res Refusal Generic.Mapping :=
  m ← ok_or NoMapping (m ← mapping_of text; Generic.load m);
  map_err NotDeclared (enforce ont (mkDeclared (Generic.entity_type m) (Generic.attributes m).*2
    (match default_hostility cfg with Some v => [("hostility"%string, v)] | None => [] end))) ;;
  Ok m.

(** The entity types a program asks for, as prefixes. *)
(** @src rust/connectors/tak-cot/src/main.rs 28-34 main *)
Definition prefixes (p : Program) (m : Generic.Mapping) : list string :=
  match p with
  | Of SAPIENT => ["sapient:"; "mim:"]
  | Of TAKCOT => ["mim:"; "x:cot:"]
  | Of GENERIC => [Generic.entity_type m]
  | _ => ["mim:"]
  end.

(** @src rust/connectors/ais-nmea/src/main.rs 33-36 main *)
Definition ais_initial (cfg : Config) : Ais.AisParser :=
  Ais.ais_new (cfg_source_id cfg) (enrichment cfg) ((λ s, (site_lat s, site_lon s)) <$> sensor cfg).

(** What the other connectors take from their configuration. *)
(** @src rust/connectors/asterix/src/main.rs 33-41 main *)
Definition settings (cfg : Config) (types : Sapient.Types) (m : Generic.Mapping) : Settings :=
  mkSettings ((λ s, AstWire.mkSensor (site_lat s) (site_lon s) (default f_zero (site_alt_m s))) <$> sensor cfg) types (entity_map cfg) m.

(** Where the SAPIENT connector's frames come from: its own acceptor, or the
    configured transport. *)
(** @src rust/connectors/sapient/src/main.rs 44-79 main *)
Definition sapient_source (o : SapientOptions) (t : Transport) : res Refusal unit :=
  match o_role o, t with
  | Dmm, TcpServer _ _ => guard_res (opens t) NoTransport
  | Dmm, _ => Err NotATcpServer
  | Subscriber, _ => guard_res (opens t) NoTransport
  end.

(** A mapping, for the programs that have none. *)
Definition no_mapping : Generic.Mapping := Generic.mkMapping Generic.Json "" [] "" None Generic.Rfc3339Text None None None None [] [].

(** What a program turns into: it prints its profile and ends, or enters the run loop
    with its parser. *)
Inductive Launch (p : Program) :=
| Prints (profile : Profile)
| Runs (cfg : Config) (s : fp_state (FrameParser := parser_for p)).
Arguments Prints {p} profile.
Arguments Runs {p} cfg s.

Definition initial_of (p : Program) (cfg : Config) (ty : Sapient.Types) (m : Generic.Mapping) : option (fp_state (FrameParser := parser_for p)) :=
  match p with
  | AIS => Some (ais_initial cfg)
  | Of c => initial ont k c (cfg_source_id cfg) (enrichment cfg) (settings cfg ty m)
  end.

(** @src rust/connectors/sapient/src/main.rs 19-82 main *)
Definition main (p : Program) (args : list string) : res Refusal (Launch p) :=
  let path := config_path (default_path p) args in
  cfg ← map_err NotLoaded (load toml (file path));
  let text := default [] (file path) in
  m ← (match p with Of GENERIC => mapping_declared cfg text | _ => Ok no_mapping end);
  if requested args then Prints <$> emit cfg (prefixes p m)
  else
    o ← (match p with Of SAPIENT => ok_or BadOptions (from_table fresh (options_of text)) | _ => Ok (mkSapientOptions Subscriber "" Sapient.default_types) end);
    s ← ok_or BadEntityMap (initial_of p cfg (o_types o) m);
    (match p with Of SAPIENT => sapient_source o (transport cfg) | _ => guard_res (opens (transport cfg)) NoTransport end) ;;
    Ok (Runs cfg s).
End programs.
Arguments Prints {T X ont k p} profile.
Arguments Runs {T X ont k p} cfg s.

(** * What a run emits *)

Section emitted.
Context {P : FrameParser} `{C : Ed25519}.
Variable marking : option Marking.Marking.
Variable signing_key : skey.
Variable canonical_bytes : Event → bytes.
Variable ont : Ontology.

Lemma frame_emits I A envs frame w w' t : emits P I A → I (parser w) → handle_frame envs frame w = Ok (w', t) →
  I (parser w') ∧ Forall (λ e, A (ev_entity_type e)) (parsed t).
Proof.
  intros HP Hi H. unfold handle_frame in H. cbn [bump with_metrics parser] in H. destruct (HP envs (parser w) frame Hi) as [H1 H2].
  destruct (fp_parse envs (parser w) frame) as [s [es|e| |]]; try done; injection H as <- <-; (split; [done|]).
  - unfold parsed. cbn. rewrite app_nil_r. by apply H2.
  - constructor.
Qed.

(** The drain and the events already parsed do not touch the parser. *)
Lemma event_parser net e w w' t : handle_event marking signing_key canonical_bytes ont net e w = (w', t) → parser w' = parser w ∧ parsed t = [].
Proof.
  intros H. unfold handle_event in H. destruct (report_effect canonical_bytes ont (match marking with Some m => Marking.apply m e | None => e end) w) as (_ & _ & _ & Hp & _).
  set (w1 := report_ungoverned _ _ _) in *. rewrite <- Hp. unfold publish_or_spool, spool_append in H.
  repeat match type of H with context [match ?x with _ => _ end] => destruct x end; by injection H as <- <-.
Qed.

Lemma drain_parser ack ok w w' t : drain_step signing_key ack ok w = (w', t) → parser w' = parser w ∧ parsed t = [].
Proof.
  intros H. unfold drain_step in H. repeat match type of H with context [match ?x with _ => _ end] => destruct x end; by injection H as <- <-.
Qed.

Lemma run_emits I A w t w' : emits P I A → I (parser w) → steps marking signing_key canonical_bytes ont w t w' →
  I (parser w') ∧ Forall (λ e, A (ev_entity_type e)) (parsed t).
Proof.
  intros HP Hi Hs. induction Hs as [|w t w' t' w'' Hs IH Hst]; [split; [done|constructor]|]. specialize (IH Hi) as [Hi' Ht].
  rewrite parsed_app, Forall_app. destruct Hst as [v|v envs frame v' t2 _ _ H|v net e es v' t2 _ H|v ack ok v' t2 H].
  - split; [done|]. split; [done|constructor].
  - destruct (frame_emits I A envs frame v v' t2 HP Hi' H) as [H1 H2]. done.
  - destruct (event_parser _ _ _ _ _ H) as [-> ->]. split; [done|]. split; [done|constructor].
  - destruct (drain_parser _ _ _ _ _ H) as [-> ->]. split; [done|]. split; [done|constructor].
Qed.
End emitted.

Section admitted.
Context `{T : Trig} `{X : S4676.TimeCrate} `{C : Ed25519} `{K : !KeyCodec C} `{H : Hex}.
Variable ont : Ontology.
Variable k : Crates.

(** What a program, as configured, may emit. *)
Definition may_emit (p : Program) (cfg : Config) (ty : Sapient.Types) (m : Generic.Mapping) (t : string) : Prop :=
  (∃ n, (n, t) ∈ entity_map cfg) ∨ (∃ x, x ∈ prefixes p m ∧ str_starts x t = true) ∨ (p = Of SAPIENT ∧ of_types ty t).

Lemma mapped_listed (l : list (string * string)) t : mapped (list_to_map l) t → ∃ n, (n, t) ∈ l.
Proof. intros [n Hn]. exists n. by apply elem_of_list_to_map_2. Qed.

Lemma lowered_listed lower l t : ∀ (o : gmap string string), mapped (fold_left (λ m '(class, t), <[lower (b2s (trim (s2b class))) := t]> m) l o) t → mapped o t ∨ ∃ n, (n, t) ∈ l.
Proof.
  induction l as [|[class u] l IH]; intros o Hm; [by left|]. cbn [fold_left] in Hm. apply IH in Hm as [[n Hn]|[n Hn]]; [|right; exists n; by right].
  apply lookup_insert_Some in Hn as [[_ <-]|[_ Hn]]; [right; exists class; by left|left; by exists n].
Qed.

Lemma program_emits p cfg ty m s : initial_of ont k p cfg ty m = Some s →
  ∃ I, I s ∧ emits (parser_for ont k p) I (may_emit p cfg ty m).
Proof.
  assert (∀ q t, "mim:"%string ∈ prefixes q m → mim t → may_emit q cfg ty m t) as Hmim by (intros q t Hq Ht; right; left; by exists "mim:"%string).
  assert (∀ q t, (∃ n, (n, t) ∈ entity_map cfg) → may_emit q cfg ty m t) as Hmap by (intros q t Hn; by left).
  destruct p as [|[]]; cbn [initial_of initial parser_for parser_of settings types entity_map Connectors.sensor mapping overrides].
  - intros _. exists (λ _, True). split; [done|]. eapply emits_ext, ais_emits. intros t. apply Hmim. by left.
  - intros _. exists (λ _, True). split; [done|]. eapply emits_ext, klv_emits. intros t <-. apply Hmim; [by left|reflexivity].
  - intros _. exists (λ _, True). split; [done|]. eapply emits_ext, mav_emits. intros t <-. apply Hmim; [by left|reflexivity].
  - intros _. exists (λ _, True). split; [done|]. eapply emits_ext, adsb_emits. intros t <-. apply Hmim; [by left|reflexivity].
  - intros _. exists (λ _, True). split; [done|]. eapply emits_ext, gmti_emits. intros t <-. apply Hmim; [by left|reflexivity].
  - intros [= <-]. unfold overrides. cbn [Connectors.entity_map]. set (d := list_to_map _ !! _).
    exists (λ s, S4586.entity_type s = default "mim:aircraft"%string d). split; [by destruct d|]. eapply emits_ext, s4586_emits.
    intros t <-. destruct d as [t|] eqn:Ed; [|apply Hmim; [by left|reflexivity]]. apply Hmap, mapped_listed. by eexists.
  - unfold overrides. cbn [Connectors.entity_map]. set (o := list_to_map _ : gmap string string).
    destruct (Asterix.with_entity_map _ _ _) as [s'| | |] eqn:E; try done. intros [= <-].
    exists (λ s, Asterix.cat010_type s = o !! "cat010"%string ∧ Asterix.cat034_type s = o !! "cat034"%string). split.
    + unfold Asterix.with_entity_map, Asterix.with_sensor, Asterix.asterix_new in E. cbn [Asterix.surface_domain] in E.
      destruct (o !! "cat010_domain"%string); [apply bind_Ok in E as ([|] & _ & E); [|done]|]; by injection E as <-.
    + eapply emits_ext, asterix_emits. intros t [Ho|[Ho|Ht]]; [apply Hmap, mapped_listed; by eexists..|]. apply Hmim; [by left|done].
  - unfold Sapient.with_entity_map. destruct (forallb _ _); [|done]. intros [= <-].
    match goal with |- context [Sapient.mkSapient _ _ ?o _ _ _ _ _] => set (o' := o) end.
    exists (λ s, Sapient.p_types s = ty ∧ Sapient.entity_map s = o'). split; [done|]. eapply emits_ext, sapient_emits.
    intros t [Ht|Ht]; [by right; right|]. apply Hmap. apply lowered_listed in Ht as [[n Hn]|Ht]; [by rewrite lookup_empty in Hn|exact Ht].
  - intros [= <-]. exists (λ s, Generic.entity_type (Generic.mapping s) = Generic.entity_type m). split; [done|]. eapply emits_ext, generic_emits.
    intros t <-. right; left. eexists. split; [by left|apply str_starts_refl].
  - intros [= <-]. unfold overrides. cbn [Connectors.entity_map]. exists (λ s, Cot.overrides s = list_to_map (Config.entity_map cfg)). split; [done|].
    eapply emits_ext, cot_emits. intros t [Ht|[Ht|Ht]]; [by apply Hmap, mapped_listed|apply Hmim; [by left|done]|].
    right; left. exists "x:cot:"%string. split; [right; by left|done].
  - intros [= <-]. unfold overrides. cbn [Connectors.entity_map]. exists (λ s, S4676.s_overrides s = list_to_map (Config.entity_map cfg)). split; [done|].
    eapply emits_ext, s4676_emits. intros t [Ht| ->]; [by apply Hmap, mapped_listed|]. apply Hmim; [by left|reflexivity].
Qed.
Lemma mapping_same mapping_of c text m : mapping_declared ont mapping_of c text = Ok m → mapping_of text ≫= Generic.load = Some m.
Proof.
  unfold mapping_declared. intros (x & Hx & Hm)%bind_Ok. apply bind_Ok in Hm as (u & _ & Hm). injection Hm as <-.
  by destruct (mapping_of text ≫= Generic.load); [injection Hx as ->|].
Qed.
End admitted.

Lemma map_err_Ok {A E F} (f : E → F) (r : res E A) a : map_err f r = Ok a → r = Ok a.
Proof. destruct r; [by intros [= ->]|done..]. Qed.

Lemma load_text toml f c : load toml f = Ok c → ∃ text, f = Some text ∧ toml text = Ok c.
Proof.
  unfold load. destruct f as [text|]; [|done]. intros H. exists text. split; [done|].
  destruct (toml text) as [c'|e| |]; [|by destruct (did_you_mean _) as [|[]| |]|done..]. destruct (marking c'); [by injection H as ->|done..].
Qed.

(** * Properties *)

(** C28: what a connector emits is what it asked to be registered for. If a program
    prints its profile and, started again on the same configuration file, enters the
    run loop, then every event its parser yields in any run, whatever the frames and
    however they interleave with the drain, is of a type the profile admits; although
    the two processes read the configured entity types in different orders. The types
    a SAPIENT connector is given under [options] have to be of its own prefixes or
    mapped. *)
Theorem profile_admits `{T : Trig} `{X : S4676.TimeCrate} `{C : Ed25519} `{K : !KeyCodec C} `{H : Hex} ont k p file toml1 toml2 options_of mapping_of
    fresh opens args1 args2 profile cfg s marking signing_key canonical_bytes w t w' :
  main ont k file toml1 options_of mapping_of fresh opens p args1 = Ok (Prints profile) →
  main ont k file toml2 options_of mapping_of fresh opens p args2 = Ok (Runs cfg s) →
  let path := config_path (default_path p) args2 in
  config_path (default_path p) args1 = path →
  (∀ text c1 c2, toml1 text = Ok c1 → toml2 text = Ok c2 → entity_map c1 ≡ₚ entity_map c2) →
  (p = Of SAPIENT → ∀ o ty, from_table fresh (options_of (default [] (file path))) = Some o → of_types (o_types o) ty →
     (∃ n, (n, ty) ∈ entity_map cfg) ∨ ∃ x, x ∈ ["sapient:"; "mim:"]%string ∧ str_starts x ty = true) →
  parser w = s → steps (P := parser_for ont k p) marking signing_key canonical_bytes ont w t w' →
  Forall (λ e, admits profile (ev_entity_type e)) (parsed t).
Proof.
  intros H1 H2 path Hpath Hperm Hty Hw Hs. unfold main in H1, H2. rewrite Hpath in H1. fold path in H1, H2.
  apply bind_Ok in H1 as (c1 & Hc1 & H1). apply bind_Ok in H1 as (m & Hm & H1). apply bind_Ok in H2 as (c2 & Hc2 & H2). apply bind_Ok in H2 as (m' & Hm' & H2).
  assert (m' = m) as ->.
  { destruct p as [|[]]; cbn in Hm, Hm'; try (injection Hm as <-; by injection Hm' as <-).
    apply mapping_same in Hm, Hm'. rewrite Hm in Hm'. by injection Hm'. }
  destruct (requested args1).
  2: { apply bind_Ok in H1 as (? & _ & H1). apply bind_Ok in H1 as (? & _ & H1). by apply bind_Ok in H1 as (? & _ & H1). }
  destruct (requested args2); [by destruct (emit file c2 (prefixes p m))|].
  apply bind_Ok in H2 as (o & Ho & H2). apply bind_Ok in H2 as (s2 & Hs2 & H2). apply bind_Ok in H2 as (_ & _ & H2). injection H2 as <- E.
  apply ok_or_Ok in Hs2. destruct (program_emits ont k p c2 (o_types o) m s2 Hs2) as (I & Hi & HP).
  subst s2. rewrite <- Hw in Hi. destruct (run_emits marking signing_key canonical_bytes ont I _ w t w' HP Hi Hs) as [_ Ha].
  destruct (emit file c1 (prefixes p m)) as [prof| | |] eqn:Em; try done. injection H1 as ->. apply bind_Ok in Em as (sk & _ & Em). injection Em as <-.
  eapply Forall_impl; [exact Ha|]. intros e He. cbn beta in He.
  destruct (profile_covers c1 (b2s (hex_encode (vk_to_bytes (verifying_key sk)))) (prefixes p m)) as (Hpre & Hmap & _).
  assert (∀ n ty, (n, ty) ∈ entity_map c2 → admits (derive c1 (b2s (hex_encode (vk_to_bytes (verifying_key sk)))) (prefixes p m)) ty) as Hmapped.
  { intros n ty Hn. apply (Hmap n). apply map_err_Ok in Hc1, Hc2. apply load_text in Hc1 as (text & Ht & H1), Hc2 as (text' & Ht' & H2).
    rewrite Ht in Ht'. injection Ht' as <-. by rewrite (Hperm text c1 c2 H1 H2). }
  destruct He as [(n & Hn)|[(x & Hx & Hxe)|[-> Ht]]]; [by eapply Hmapped|by eapply Hpre|].
  cbn in Ho. apply ok_or_Ok in Ho. destruct (Hty eq_refl o _ Ho Ht) as [(n & Hn)|(x & Hx & Hxe)]; [by eapply Hmapped|by eapply Hpre].
Qed.

(** * Witnesses and examples *)

(** A SAPIENT type under [options] may be of any namespace; the profile is derived
    without the options and does not ask for it. *)
Example sapient_types_not_asked_for :
  let ty := Sapient.mkTypes "sapient:detection" "x:acme:track" "sapient:sensor-status" "sapient:alert" in
  from_table "u" (Some (mkOptionsTable Subscriber None ty)) = Some (mkSapientOptions Subscriber "u" ty) ∧
  ¬ admits (derive (ex_config []) "00" (prefixes (Of SAPIENT) no_mapping)) "x:acme:track".
Proof.
  split; [vm_compute; reflexivity|]. intros (a & Ha & Hs). revert Ha.
  assert (allowed_entity_types (derive (ex_config []) "00" (prefixes (Of SAPIENT) no_mapping)) = ["mim:"; "sapient:"]%string) as -> by (vm_compute; reflexivity).
  intros [->|[->|[]%elem_of_nil]%elem_of_cons]%elem_of_cons; vm_compute in Hs; discriminate Hs.
Qed.

(** The domain of ASTERIX category 010 stands in the entity map and is no entity
    type; the profile asks for it all the same. *)
Example domain_asked_for :
  allowed_entity_types (derive (ex_config [("cat010", "mim:vehicle"); ("cat010_domain", "SURFACE")]) "00" (prefixes (Of ASTERIX) no_mapping)) = ["SURFACE"; "mim:"]%string.
Proof. vm_compute. reflexivity. Qed.

#[local] Existing Instance Asterix.ex_trig.
#[local] Existing Instance S4676.ex_time.

Definition ex_cfg : Config := ex_config [("default", "x:acme:drone")].
Definition ex_file (path : string) : option bytes := if String.eqb path "s.toml" then Some [] else if String.eqb path "k" then Some ex_seed else None.
Definition ex_main (args : list string) : res Refusal (Launch ex_ontology ex_crates (Of STANAG4586)) :=
  main (C := toy2) (K := toy2_codec) (H := hex_real) ex_ontology ex_crates ex_file (λ _, Ok ex_cfg) (λ _, None) (λ _, None) "u" (λ _, true) (Of STANAG4586) args.

Definition ex_profile : Profile := derive ex_cfg (b2s (@hex_encode hex_real (@vk_to_bytes toy2 toy2_codec (@verifying_key toy2 (default inhabitant (match @load_key toy2 toy2_codec hex_real (Some ex_seed) with Ok k => Some k | _ => None end)))))) ["mim:"].

Definition ex_state : S4586.S4586Parser := S4586.with_entity_type (S4586.s4586_new "s" (enrichment ex_cfg)) (Some "x:acme:drone"%string).
Definition ex_world : World (P := parser_for ex_ontology ex_crates (Of STANAG4586)) :=
  mkWorld (P := parser_for ex_ontology ex_crates (Of STANAG4586)) ex_state (mkMetrics 0 0 0 0 0 0 0 0 0 0) None ∅ [] true None.
Definition ex_handle : res unit (World (P := parser_for ex_ontology ex_crates (Of STANAG4586)) * list Outcome) :=
  handle_frame (P := parser_for ex_ontology ex_crates (Of STANAG4586)) ex_envs (S4586.enc_msg (S4586.ex_msg 101 S4586.ex_body)) ex_world.
Definition ex_trace : list Outcome := match ex_handle with Ok (_, t) => t | _ => [] end.
Definition ex_after : World (P := parser_for ex_ontology ex_crates (Of STANAG4586)) := match ex_handle with Ok (w, _) => w | _ => ex_world end.

Definition printed (r : res Refusal (Launch ex_ontology ex_crates (Of STANAG4586))) : option Profile :=
  match r with Ok (Prints p) => Some p | _ => None end.
Lemma printed_inv r p : printed r = Some p → r = Ok (Prints p).
Proof. destruct r as [[]| | |]; try done. by intros [= ->]. Qed.
Definition running (r : res Refusal (Launch ex_ontology ex_crates (Of STANAG4586))) : option (Config * S4586.S4586Parser) :=
  match r with Ok (Runs c s) => Some (c, s) | _ => None end.
Lemma running_inv r c s : running r = Some (c, s) → r = Ok (Runs (ont := ex_ontology) (k := ex_crates) (p := Of STANAG4586) c s).
Proof. destruct r as [[]| | |]; try done. by intros [= -> ->]. Qed.

Lemma profile_admits_witness :
  ev_entity_type <$> parsed ex_trace = ["x:acme:drone"%string] ∧ Forall (λ e, admits ex_profile (ev_entity_type e)) (parsed ex_trace).
Proof.
  split; [vm_compute; reflexivity|].
  eapply (profile_admits (C := toy2) (K := toy2_codec) (H := hex_real) ex_ontology ex_crates (Of STANAG4586) ex_file (λ _, Ok ex_cfg) (λ _, Ok ex_cfg)
    (λ _, None) (λ _, None) "u" (λ _, true) ["bin"; "s.toml"; "--profile"]%string ["bin"; "s.toml"]%string ex_profile ex_cfg ex_state None
    (5 : @skey toy2) ev_payload ex_world ex_trace ex_after).
  - apply printed_inv. vm_compute. reflexivity.
  - apply running_inv. vm_compute. reflexivity.
  - vm_compute. reflexivity.
  - intros text c1 c2 [= <-] [= <-]. reflexivity.
  - discriminate.
  - reflexivity.
  - apply (steps_snoc _ _ _ _ ex_world [] ex_world ex_trace ex_after); [apply steps_refl|].
    apply (step_frame _ _ _ _ ex_world ex_envs (S4586.enc_msg (S4586.ex_msg 101 S4586.ex_body))); [reflexivity|by apply bytes_okb_ok|].
    reflexivity.
Defined.
