(* ===== verification/Up.v ===== *)
(** ajar-up as a program (rust/connectors/up/src/main.rs): its command line, the two
    egress configurations it writes (consumer.rs), where it looks for a connector
    (producer.rs), what it comes to from an operator's packet,
    and what it leaves in the directory. *)
From Stdlib Require Import ZArith Lia.
From Stdlib Require Import Strings.String.
From S2P Require Import Onboard.

Local Open Scope Z_scope.

(** * The command line *)

Record Flags := mkFlags {
  packet_path : option string; dir : option string; signing_key : option string; no_exec : bool; check : bool;
  to_tak : option string; to_http : option string; timeout_secs : Z
}.
Definition no_flags : Flags := mkFlags None None None false false None None 5.

(** [None] is the usage, and exit status 2. *)
(** @src rust/connectors/up/src/main.rs 31-63 main *)
Fixpoint read_args (args : list string) (f : Flags) : option Flags :=
  let '(mkFlags pa di sk ne ch tak http secs) := f in
  match args with
  | [] => match pa with Some _ => Some f | None => None end
  | arg :: args =>
      if String.eqb arg "--dir" then match args with v :: args => read_args args (mkFlags pa (Some v) sk ne ch tak http secs) | [] => None end
      else if String.eqb arg "--signing-key" then match args with v :: args => read_args args (mkFlags pa di (Some v) ne ch tak http secs) | [] => None end
      else if String.eqb arg "--no-exec" then read_args args (mkFlags pa di sk true ch tak http secs)
      else if String.eqb arg "--check" then read_args args (mkFlags pa di sk ne true tak http secs)
      else if String.eqb arg "--to-tak" then match args with v :: args => read_args args (mkFlags pa di sk ne ch (Some v) http secs) | [] => None end
      else if String.eqb arg "--to-http" then match args with v :: args => read_args args (mkFlags pa di sk ne ch tak (Some v) secs) | [] => None end
      else if String.eqb arg "--timeout-secs" then
        match args with v :: args => match parse_u64 (s2b v) with Some n => read_args args (mkFlags pa di sk ne ch tak http n) | None => None end | [] => None end
      else if String.eqb arg "-h" || String.eqb arg "--help" then None
      else match pa with
           | None => if starts_with (s2b "-") (s2b arg) then None else read_args args (mkFlags (Some arg) di sk ne ch tak http secs)
           | Some _ => None
           end
  end.

(** [Path::file_stem]. *)
Definition file_stem (l : list Component) : option string :=
  match last l with
  | Some (Normal n) =>
      Some match rfind_byte 46 (s2b n) with
           | Some k => if 0 <? k then b2s (take (Z.to_nat k) (s2b n)) else n
           | None => n
           end
  | _ => None
  end.

(** [Path::parent] as components; of the root and of nothing there is none. *)
Definition parent (l : list Component) : option (list Component) :=
  match last l with Some RootDir | None => None | Some _ => Some (removelast l) end.

(** Where a packet unpacks: beside it, under its name without the extension. *)
(** @src rust/connectors/up/src/main.rs 64-73 main *)
Definition default_dir (packet : string) : list Component :=
  let l := components packet in
  default [CurDir] (parent l) ++ [Normal (default "packet"%string (file_stem l))].

Definition show_component (c : Component) : string := match c with RootDir => "" | CurDir => "." | ParentDir => ".." | Normal n => n end.
(** A path from its components; a repeated separator is not kept. *)
Definition render (l : list Component) : string :=
  match l with [RootDir] => "/" | _ => String.concat "/" (show_component <$> l) end.

Definition unpack_dir (f : Flags) (packet : string) : string := default (render (default_dir packet)) (dir f).

(** * What it writes and starts *)

Section up.
Context `{C : Ed25519} `{K : !KeyCodec C} `{H : Hex}.
Variable sha256 : bytes → bytes.
Variable from_slice : bytes → option Manifest.
Variable outside : string → option bytes.
Variable config_toml : string → bytes → string → string → bytes → option bytes → option bytes.
Variable writable : string → bool.
Variable decode : bytes → option Event.
Definition quoted (key : string) (value : bytes) : bytes := s2b key ++ s2b " = " ++ [34] ++ value ++ [34; 10].

(** @src rust/connectors/up/src/consumer.rs 152-183 write_tak_config *)
Definition tak_config (dir_path : string) (m : Manifest) (tak_url : string) : string * bytes :=
  let ca := default "ca.crt"%string (k_ca (m_keys m)) in
  ((m_source_id m ++ "-tak-egress.toml")%string,
   quoted "nats_url" (m_nats_url m)
   ++ s2b "# The CoT egress slug: only rendered CoT, not every format." ++ [10]
   ++ quoted "subject" (s2b "ajar.egress.cot.>")
   ++ quoted "egress_verifying_key" (default [] (egress_verifying_key_hex m)) ++ [10]
   ++ s2b "[tak]" ++ [10]
   ++ quoted "url" (s2b tak_url)
   ++ s2b "# Enrolled with YOUR TAK Server (its owner issues these two):" ++ [10]
   ++ quoted "tls_cert" (s2b "FILL-ME.client.pem")
   ++ quoted "tls_key" (s2b "FILL-ME.client.key")
   ++ s2b "# CA that signed the TAK Server's certificate (often your own PKI's):" ++ [10]
   ++ quoted "tls_ca" (s2b (join dir_path ca))).

(** @src rust/connectors/up/src/consumer.rs 185-210 write_http_config *)
Definition http_config (m : Manifest) (url : string) (subject : string) : string * bytes :=
  ((m_source_id m ++ "-http-egress.toml")%string,
   quoted "nats_url" (m_nats_url m)
   ++ quoted "subject" (s2b subject)
   ++ quoted "egress_verifying_key" (default [] (egress_verifying_key_hex m))
   ++ quoted "unmapped" (s2b "include") ++ [10]
   ++ s2b "[deliver]" ++ [10]
   ++ quoted "url" (s2b url) ++ [10]
   ++ s2b "# Consumer-shaped field names go here; unmapped governed content is" ++ [10]
   ++ s2b "# delivered under `unmapped` either way (markings cannot be mapped away)." ++ [10]
   ++ s2b "[mapping]" ++ [10]).

(** The directory of the program itself, those of [PATH], and what exists. *)
(** @src rust/connectors/up/src/producer.rs 167-189 locate_binary *)
Definition locate_binary (own : option string) (path : option (list string)) (exists_at : string → bool) (name : string) : option string :=
  let dirs := match own with Some d => [d] | None => [] end ++ default [] path in
  head (filter (λ p, exists_at p = true) ((λ d, join d name) <$> dirs)).

(** * The program *)

Inductive UpError :=
| NoPacket
| Refused (e : PacketError)
| UnknownRole
| NotProduced (e : ProducerError)
| NotConsumed (e : ConsumerError)
| CannotWrite (name : string)
| NotConnected (e : ConnectError).

Inductive UpOutcome :=
| Usage
| CheckPassed
| ReadyToRun (checked : bool) (binary : string) (s : Setup)
| Starts (binary : string) (s : Setup)
| Writes (name : string) (text : bytes)
| Taps (security : Security) (subject : string) (out : bytes) (accepted rejected : Z).

(** The machine: packets by path, what a directory already holds, the file of
    [--signing-key], the doctor's verdict on a configuration in the directory as it is
    then, where programs are, the environment, and the messages of the subscription. *)
Record Machine := mkMachine {
  packets : string → option (list (string * bytes));
  files_in : string → gmap string bytes;
  read_file : string → option bytes;
  healthy : gmap string bytes → string → bool;
  own_dir : option string;
  path_dirs : option (list string);
  exists_at : string → bool;
  env : string → option bytes;
  messages : list bytes
}.

Context {Addr : Type}.
Variable parse_addr : bytes → option Addr.

(** The machine with a directory as it is afterwards. *)
Definition with_files (w : Machine) (dir_path : string) (d : gmap string bytes) : Machine :=
  mkMachine (packets w) (λ p, if String.eqb p dir_path then d else files_in w p) (read_file w) (healthy w) (own_dir w) (path_dirs w) (exists_at w) (env w) (messages w).

(** [--check] stops where [--no-exec] does. *)
(** @src rust/connectors/up/src/producer.rs 111-140 run *)
Definition run_producer (dir_path : string) (w : Machine) (d : gmap string bytes) (m : Manifest) (f : Flags)
    : gmap string bytes * res UpError UpOutcome :=
  let '(d, r) := produce outside config_toml writable dir_path d m (read_file w <$> signing_key f) (healthy w)
                   (locate_binary (own_dir w) (path_dirs w) (exists_at w)) in
  (d, '(b, s) ← map_err NotProduced r; Ok (if no_exec f || check f then ReadyToRun (check f) b s else Starts b s)).

(** [std::fs::write] of an egress configuration. *)
Definition written_out (d : gmap string bytes) (nt : string * bytes) : gmap string bytes * res UpError UpOutcome :=
  match write_in writable d nt.1 nt.2 with
  | Some d => (d, Ok (Writes nt.1 nt.2))
  | None => (d, Err (CannotWrite nt.1))
  end.

(** What comes before it has the directory as it is and may fail. *)
Definition on_ok {A B} (d : gmap string bytes) (r : res UpError A) (k : A → gmap string bytes * res UpError B) : gmap string bytes * res UpError B :=
  match r with Ok a => k a | Err e => (d, Err e) | Panic => (d, Panic) | NoFuel => (d, NoFuel) end.

(** @src rust/connectors/up/src/consumer.rs 70-138 run *)
Definition run_consumer (dir_path : string) (w : Machine) (d : gmap string bytes) (m : Manifest) (f : Flags)
    : gmap string bytes * res UpError UpOutcome :=
  on_ok d (map_err NotConsumed (egress m)) (λ '(subject, key),
  on_ok d (map_err NotConsumed (delivery m (bool_decide (is_Some (to_tak f))) (bool_decide (is_Some (to_http f))))) (λ slug,
  match to_tak f, to_http f, slug with
  | Some tak, _, _ => written_out d (tak_config dir_path m tak)
  | None, Some url, Some slug => written_out d (http_config m url slug)
  | _, _, _ =>
      (d, '(security, _) ← map_err NotConnected (connect (with_env (mtls_env outside dir_path d (m_keys m)) (env w)) parse_addr (m_nats_url m));
          let '(out, accepted, rejected) := tap decode key (messages w) 0 0 in
          Ok (Taps security subject out accepted rejected))
  end)).

(** The machine afterwards, and what is shown. *)
(** @src rust/connectors/up/src/main.rs 75-120 main *)
Definition up (w : Machine) (args : list string) : Machine * res UpError UpOutcome :=
  match read_args args no_flags with
  | None => (w, Ok Usage)
  | Some f =>
      let path := default ""%string (packet_path f) in
      let dir_path := unpack_dir f path in
      match packets w path with
      | None => (w, Err NoPacket)
      | Some entries =>
          let '(d, r) := open_packet sha256 from_slice outside entries (files_in w dir_path) in
          let '(d, r) :=
            on_ok d (map_err Refused r) (λ '(m, _),
            on_ok d (ok_or UnknownRole (role m)) (λ who,
            match who with
            | Producer => run_producer dir_path w d m f
            | Consumer => if check f then (d, map_err NotConsumed (check_consumer outside d m) ;; Ok CheckPassed) else run_consumer dir_path w d m f
            end)) in
          (with_files w dir_path d, r)
      end
  end.
End up.

Example default_dirs :
  render (default_dir "radar-1.packet.tar") = "radar-1.packet"%string ∧ render (default_dir "/srv/in/r.tar") = "/srv/in/r"%string
  ∧ render (default_dir "../r") = "../r"%string ∧ render (default_dir "./.tar") = "./.tar"%string.
Proof. by vm_compute. Qed.

(** * Properties *)

Section up_laws.
Context `{C : Ed25519} `{K : !KeyCodec C} `{H : Hex} {Addr : Type}.
Variables (sha256 : bytes → bytes) (from_slice : bytes → option Manifest) (outside : string → option bytes).
Variable config_toml : string → bytes → string → string → bytes → option bytes → option bytes.
Variable writable : string → bool.
Variable decode : bytes → option Event.
Variable parse_addr : bytes → option Addr.

(** The directory with a file at a path, where the path lies in it. *)
Definition put (path : string) (data : bytes) (d d' : gmap string bytes) : Prop :=
  match plain_name path with Some n => d' = <[n := data]> d | None => d' = d end.

Lemma write_in_put d path data d' : write_in writable d path data = Some d' → put path data d d'.
Proof. unfold write_in, put. destruct (plain_name path); [by intros [= <-]|]. destruct (writable path); [by intros [= <-]|done]. Qed.

(** The seed as the flag's file, or as it is there. *)
Definition seed_placed (seed : string) (signing_key : option (option bytes)) (d d' : gmap string bytes) : Prop :=
  match signing_key with
  | Some file => ∃ k, file = Some k ∧ put seed k d d'
  | None => d' = d ∧ is_Some (read_in outside d seed)
  end.

(** A connector set up in the directory: the seed, then the configuration under the
    source's name, which the doctor finds healthy. *)
Definition set_up (dir_path : string) (m : Manifest) (signing_key : option (option bytes)) (healthy : gmap string bytes → string → bool)
    (d d' : gmap string bytes) (protocol : string) (s : Setup) : Prop :=
  ∃ transport seed text d1, m_protocol m = Some protocol ∧ m_transport m = Some transport ∧ k_signing (m_keys m) = Some seed
  ∧ seed_placed seed signing_key d d1
  ∧ config_toml (m_source_id m) (m_nats_url m) (subject_prefix m) (join dir_path seed) transport (m_spool m) = Some text
  ∧ put (m_source_id m ++ ".toml") text d1 d'
  ∧ healthy d' (join dir_path (m_source_id m ++ ".toml")) = true
  ∧ s = mkSetup (m_source_id m) (join dir_path (m_source_id m ++ ".toml")) (mtls_env outside dir_path d' (m_keys m)).

(** Of the directory only the seed, by the flag, and the configuration change. *)
Definition limited (m : Manifest) (signing_key : option (option bytes)) (d d' : gmap string bytes) : Prop :=
  ∀ n, d' !! n ≠ d !! n →
  plain_name (m_source_id m ++ ".toml") = Some n ∨ (is_Some signing_key ∧ (k_signing (m_keys m) ≫= plain_name) = Some n).

Lemma put_other path data d d' n : put path data d d' → plain_name path ≠ Some n → d' !! n = d !! n.
Proof. unfold put. destruct (plain_name path) as [x|]; [|by intros ->]. intros -> Hx. apply lookup_insert_ne. congruence. Qed.

Lemma limited_refl m sk d : limited m sk d d.
Proof. by intros n []. Qed.

Lemma produce_spec dir_path d m sk healthy locate d' r :
  produce outside config_toml writable dir_path d m sk healthy locate = (d', r) →
  limited m sk d d' ∧
  match r with
  | Ok (b, s) => ∃ protocol, set_up dir_path m sk healthy d d' protocol s ∧ locate ("ajar-" ++ protocol)%string = Some b
  | Err _ => True
  | _ => False
  end.
Proof.
  unfold produce. destruct (m_protocol m) as [protocol|] eqn:Ep, (m_transport m) as [transport|] eqn:Et, (k_signing (m_keys m)) as [seed|] eqn:Es;
    try (intros [= <- <-]; by split; [apply limited_refl|]).
  destruct (place_seed _ _ _ _) as [d1|] eqn:Epl; [|intros [= <- <-]; by split; [apply limited_refl|]].
  assert (∀ n, d1 !! n ≠ d !! n → is_Some sk ∧ plain_name seed = Some n) as H1.
  { unfold place_seed in Epl. destruct sk as [file|]; [|by injection Epl as ->].
    destruct file as [k|]; [|done]. cbn in Epl. apply write_in_put in Epl. intros n Hn. split; [by eexists|].
    destruct (decide (plain_name seed = Some n)); [done|]. by rewrite (put_other _ _ _ _ _ Epl) in Hn. }
  assert (limited m sk d d1) as Hl1. { intros n Hn. right. rewrite Es. by apply H1. }
  destruct (bool_decide (is_Some sk) || _) eqn:Ex; [|by intros [= <- <-]]. cbn [negb].
  destruct (config_toml _ _ _ _ _ _) as [text|] eqn:Ec; [|by intros [= <- <-]].
  destruct (write_in writable d1 _ text) as [d2|] eqn:Ew; [|by intros [= <- <-]]. apply write_in_put in Ew.
  assert (limited m sk d d2) as Hl2.
  { intros n Hn. destruct (decide (plain_name (m_source_id m ++ ".toml") = Some n)) as [|Hne]; [by left|].
    rewrite (put_other _ _ _ _ _ Ew Hne) in Hn. by apply Hl1. }
  cbv zeta. destruct (healthy d2 _) eqn:Eh; [|by intros [= <- <-]]. cbn [negb].
  destruct (locate _) as [b|] eqn:El; [|by intros [= <- <-]]. intros [= <- <-]. split; [done|].
  exists protocol. split; [|done]. exists transport, seed, text, d1. split_and!; [done..| |done|done|done|done].
  unfold place_seed in Epl. destruct sk as [file|]; cbn.
  - destruct file as [k|]; [|done]. cbn in Epl. exists k. split; [done|by apply write_in_put in Epl].
  - injection Epl as <-. split; [done|]. rewrite (bool_decide_false (is_Some None)) in Ex by by intros [? ?]. cbn [orb] in Ex. by apply bool_decide_eq_true in Ex.
Qed.

Lemma located own path at_ name b : locate_binary own path at_ name = Some b → at_ b = true.
Proof.
  unfold locate_binary. cbv zeta. set (l := filter _ _). destruct l as [|x l'] eqn:E; [done|]. intros [= <-].
  assert (x ∈ l) as Hx by (rewrite E; left). by apply list_elem_of_filter in Hx as [Hx _].
Qed.

Lemma located_in own path at_ name b : locate_binary own path at_ name = Some b → ∃ dir, b = join dir name.
Proof.
  unfold locate_binary. cbv zeta. set (dirs := _ ++ _). set (l := filter _ _). destruct l as [|x l'] eqn:E; [done|]. intros [= <-].
  assert (x ∈ l) as Hx by (rewrite E; left). apply list_elem_of_filter in Hx as [_ Hx]. apply list_elem_of_fmap in Hx as (y & -> & _). by exists y.
Qed.

(** What an outcome is worth, of a packet unpacked to directory [d] with manifest [m],
    with [d'] what the directory holds afterwards. *)
Definition warranted (w : Machine) (f : Flags) (dir_path : string) (d d' : gmap string bytes) (m : Manifest) (o : UpOutcome) : Prop :=
  let have x := x ∈ default [] (formats m) in
  let runs b s := role m = Some Producer
    ∧ ∃ protocol dir, set_up dir_path m (read_file w <$> signing_key f) (healthy w) d d' protocol s ∧ b = join dir ("ajar-" ++ protocol) ∧ exists_at w b = true in
  match o with
  | Usage => False
  | CheckPassed => check f = true ∧ role m = Some Consumer ∧ d' = d ∧ (∃ subject key, egress m = Ok (subject, key))
      ∧ ∀ p, Some p ∈ [k_ca (m_keys m); k_cert (m_keys m); k_key (m_keys m)] → is_Some (read_in outside d p)
  | ReadyToRun checked b s => checked = check f ∧ (no_exec f = true ∨ check f = true) ∧ runs b s
  | Starts b s => no_exec f = false ∧ check f = false ∧ runs b s
  | Writes n t => check f = false ∧ role m = Some Consumer ∧ put n t d d'
      ∧ ((∃ tak, to_tak f = Some tak ∧ have "cot"%string ∧ (n, t) = tak_config dir_path m tak)
         ∨ (∃ url x, to_tak f = None ∧ to_http f = Some url ∧ (x = "geojson" ∨ x = "json" ∧ ¬ have "geojson")%string ∧ have x
              ∧ (n, t) = http_config m url ("ajar.egress." ++ x ++ ".>")))
  | Taps security subject out accepted rejected => check f = false ∧ role m = Some Consumer ∧ to_tak f = None ∧ to_http f = None ∧ d' = d
      ∧ ∃ key, egress m = Ok (subject, key)
        ∧ (let es := omap (tapped decode key) (messages w) in out = concat ((λ e, ev_payload e ++ [10]) <$> es) ∧ accepted = zlen es ∧ accepted + rejected = zlen (messages w))
        ∧ ∃ servers, connect (with_env (mtls_env outside dir_path d (m_keys m)) (env w)) parse_addr (m_nats_url m) = Ok (security, servers)
  end.

Lemma safe_egress m : safe (egress m).
Proof. unfold egress. repeat (apply safe_bind; [auto with rust|intros ? _]). done. Qed.

Lemma safe_delivery m t h : safe (delivery m t h).
Proof. unfold delivery. apply safe_bind; [apply safe_egress|intros ? _]. cbv zeta. repeat case_match; done. Qed.

Lemma safe_check_consumer d m : safe (check_consumer outside d m).
Proof. unfold check_consumer. apply safe_bind; [apply safe_egress|intros ? _]. cbv zeta. by case_match. Qed.

Lemma safe_check_files d files : safe (check_files sha256 outside d files).
Proof.
  induction files as [|x files IH]; [done|]. cbn [check_files]. apply safe_bind; [auto with rust|intros ? _].
  apply safe_bind; [unfold guard_res; by case_match|by intros ? _].
Qed.

Lemma safe_check_packet d : safe (check_packet sha256 from_slice outside d).
Proof.
  assert (∀ E b (e : E), safe (guard_res b e)) as Hg by (intros ? []; done).
  assert (∀ d n, safe (text_in_dir d n)) as Ht. { intros d' n. unfold text_in_dir. apply safe_bind; [auto with rust|intros ? _]. by apply safe_bind; [apply Hg|]. }
  unfold check_packet. repeat (apply safe_bind; [first [apply Ht|apply Hg|apply safe_check_files|auto with rust]|intros ? _]). done.
Qed.

Lemma safe_connect var url : safe (connect var parse_addr url).
Proof. unfold connect. apply safe_bind; [repeat case_match; done|intros ? _]. by apply safe_bind; [auto with rust|]. Qed.

Lemma producer_warranted dir_path w d m f d' r : role m = Some Producer →
  run_producer outside config_toml writable dir_path w d m f = (d', r) →
  match r with Ok o => warranted w f dir_path d d' m o | Err (Refused _) => False | Err _ => limited m (read_file w <$> signing_key f) d d' | _ => False end.
Proof.
  intros Hr. unfold run_producer. destruct (produce _ _ _ _ _ _ _ _ _) as [d1 r1] eqn:E. apply produce_spec in E as [Hl Hs]. intros [= <- <-].
  destruct r1 as [[b s]| | |]; [|done..]. destruct Hs as (protocol & Hs & Hb). pose proof Hb as [dir Hdir]%located_in. apply located in Hb. cbn.
  assert (∃ p dir, set_up dir_path m (read_file w <$> signing_key f) (healthy w) d d1 p s ∧ b = join dir ("ajar-" ++ p) ∧ exists_at w b = true) as Hrun by by exists protocol, dir.
  destruct (no_exec f) eqn:En, (check f) eqn:Ec; cbn; split_and!; auto.
Qed.

Lemma consumer_checked d m u : check_consumer outside d m = Ok u →
  (∃ subject key, egress m = Ok (subject, key)) ∧ ∀ p, Some p ∈ [k_ca (m_keys m); k_cert (m_keys m); k_key (m_keys m)] → is_Some (read_in outside d p).
Proof.
  unfold check_consumer. intros Hc. apply bind_Ok in Hc as ([subject key] & He & Hc). split; [by exists subject, key|]. cbv zeta in Hc.
  set (named := omap (λ o : option string, o) _) in Hc. set (l := filter _ _) in Hc. intros p Hp.
  assert (p ∈ named) as Hn by (apply list_elem_of_omap; by exists (Some p)).
  destruct (read_in outside d p) eqn:Er; [by eexists|]. assert (p ∈ l) as Hin by by apply list_elem_of_filter.
  destruct l; [by apply not_elem_of_nil in Hin|done].
Qed.

Lemma delivery_tak m h slug : delivery m true h = Ok slug → "cot"%string ∈ default [] (formats m).
Proof. unfold delivery. intros Hd. apply bind_Ok in Hd as (? & _ & Hd). by destruct (bool_decide_reflect ("cot"%string ∈ default [] (formats m))). Qed.

Lemma delivery_http m slug : delivery m false true = Ok slug →
  ∃ x, slug = Some ("ajar.egress." ++ x ++ ".>")%string ∧ x ∈ default [] (formats m) ∧ (x = "geojson" ∨ x = "json" ∧ "geojson" ∉ default [] (formats m))%string.
Proof.
  unfold delivery. intros Hd. apply bind_Ok in Hd as (? & _ & Hd).
  destruct (bool_decide_reflect ("geojson"%string ∈ default [] (formats m))); [injection Hd as <-; exists "geojson"%string; auto|].
  destruct (bool_decide_reflect ("json"%string ∈ default [] (formats m))); [injection Hd as <-; exists "json"%string; auto|done].
Qed.

Lemma written_out_spec d nt d' r : written_out writable d nt = (d', r) →
  r = Ok (Writes nt.1 nt.2) ∧ put nt.1 nt.2 d d' ∨ r = Err (CannotWrite nt.1) ∧ d' = d.
Proof. unfold written_out. destruct (write_in _ _ _ _) as [x|] eqn:E; intros [= <- <-]; [left; by apply write_in_put in E|by right]. Qed.

Lemma consumer_warranted dir_path w d m f d' r : role m = Some Consumer → check f = false →
  run_consumer outside writable decode parse_addr dir_path w d m f = (d', r) →
  match r with Ok o => warranted w f dir_path d d' m o | Err (Refused _) => False | Err _ => d' = d | _ => False end.
Proof.
  intros Hr Hc. unfold run_consumer. pose proof (safe_egress m) as Hse. destruct (egress m) as [[subject key]| | |] eqn:Ee; [|by intros [= <- <-]|done..]. cbn.
  set (t := bool_decide _). set (h := bool_decide (is_Some (to_http f))). pose proof (safe_delivery m t h) as Hsd.
  destruct (delivery m t h) as [slug| | |] eqn:Ed; [|by intros [= <- <-]|done..]. subst t h. cbn.
  destruct (to_tak f) as [tak|] eqn:Et; [|destruct (to_http f) as [url|] eqn:Eh].
  - intros [[-> Hp]|[-> ->]]%written_out_spec; [|done]. split_and!; [done..|]. left. exists tak. split_and!; [done| |by destruct (tak_config _ _ _)].
    rewrite bool_decide_true in Ed by by eexists. by apply delivery_tak in Ed.
  - rewrite (bool_decide_false (is_Some None)), (bool_decide_true (is_Some _)) in Ed by first [by eexists|by intros [? ?]].
    apply delivery_http in Ed as (x & -> & Hx & Hor). intros [[-> Hp]|[-> ->]]%written_out_spec; [|done].
    split_and!; [done..|]. right. exists url, x. split_and!; [done..|by destruct (http_config _ _ _)].
  - assert (∀ X (a b : X), match slug with Some _ => a | None => a end = a) as Hm by by destruct slug.
    intros Ho. assert ((d, '(security, _) ← map_err NotConnected (connect (with_env (mtls_env outside dir_path d (m_keys m)) (env w)) parse_addr (m_nats_url m));
      let '(out, accepted, rejected) := tap decode key (messages w) 0 0 in Ok (Taps security subject out accepted rejected)) = (d', r)) as [= <- <-] by exact Ho. clear Ho Hm.
    pose proof (safe_connect (with_env (mtls_env outside dir_path d (m_keys m)) (env w)) (m_nats_url m)) as Hsc.
    destruct (connect _ _ _) as [[sec servers]| | |] eqn:Ec; [|done..]. cbn [map_err mbind res_bind]. rewrite tap_verified.
    split_and!; [done..|]. exists key. split; [done|]. split; [cbv zeta; split_and!; [reflexivity..|lia]|by exists servers].
Qed.

Lemma unpack_safe entries d : safe (unpack entries d).2.
Proof. revert d. induction entries as [|[n x] entries IH]; intros d; cbn [unpack]; [done|]. by case_match. Qed.

End up_laws.

(** * Witness and examples *)

Definition ex_healthy (d : gmap string bytes) (config : string) : bool :=
  String.eqb config "in/radar-1.packet/radar-1.toml" && bool_decide (is_Some (d !! "radar-1.toml"%string)).
Definition ex_machine : Machine :=
  mkMachine (λ p, if String.eqb p "in/radar-1.packet.tar" then Some (ex_entries ex_sig) else None) (λ _, ∅) (λ _, None) ex_healthy
    (Some "/opt/ajar"%string) None (λ p, String.eqb p "/opt/ajar/ajar-asterix") (λ _, None) [].
Definition ex_toml (id : string) (url : bytes) (prefix seed : string) (transport : bytes) (spool : option bytes) : option bytes :=
  Some (quoted "source_id" (s2b id) ++ quoted "nats_url" url ++ quoted "subject_prefix" (s2b prefix) ++ quoted "signing_key_path" (s2b seed)).
Definition ex_up (w : Machine) (args : list string) : Machine * res UpError UpOutcome :=
  up (C := toy2) (K := toy2_codec) (H := hex_real) ex_sha ex_slice ex_outside ex_toml (λ _, false) (λ _, None) (λ u, Some u) w args.
Definition ex_args : list string := ["--no-exec"; "in/radar-1.packet.tar"]%string.

Definition ex_setup : Setup := mkSetup "radar-1" "in/radar-1.packet/radar-1.toml" [].
Definition ex_flags : Flags := mkFlags (Some "in/radar-1.packet.tar"%string) None None true false None None 5.
Definition ex_text : bytes :=
  s2b "source_id = " ++ [34] ++ s2b "radar-1" ++ [34; 10] ++ s2b "nats_url = " ++ [34] ++ s2b "nats://core:4222" ++ [34; 10]
  ++ s2b "subject_prefix = " ++ [34] ++ s2b "ajar.ingest" ++ [34; 10] ++ s2b "signing_key_path = " ++ [34] ++ s2b "in/radar-1.packet/radar-1.seed" ++ [34; 10].


(** A producer's packet with [--check]: nothing is started, and the configuration is
    there. *)
Example check_sets_up :
  let '(w, r) := ex_up ex_machine ["--check"; "in/radar-1.packet.tar"]%string in
  r = Ok (ReadyToRun true "/opt/ajar/ajar-asterix" ex_setup) ∧ files_in w "in/radar-1.packet" !! "radar-1.toml"%string = Some ex_text.
Proof. vm_compute. split; reflexivity. Qed.

(** The doctor, the setting-up and the start come after the packet's own checks; the
    unpacking does not. *)
Example nothing_from_a_forged_packet :
  let '(w, r) := ex_up (mkMachine (λ _, Some (ex_entries (replicate 64 0))) (λ _, ∅) (λ _, None) (λ _ _, true) None None (λ _, true) (λ _, None) []) ["p.tar"%string] in
  r = Err (Refused BadSignature) ∧ files_in w "p" !! "radar-1.toml"%string = None ∧ files_in w "p" !! "radar-1.seed"%string = Some (seqZ 1 32).
Proof. vm_compute. split_and!; reflexivity. Qed.

(** A URL with a quotation mark in it ends the text it is put in: what follows is
    read as configuration of its own. *)
Example url_ends_its_text :
  let '(_, text) := http_config ex_manifest ("http://h" ++ b2s [34; 10] ++ "insecure = true" ++ b2s [10] ++ "#") "ajar.egress.json.>" in
  s2b "insecure = true" ∈ split_on 10 text.
Proof. vm_compute. by repeat first [left|right]. Qed.
