(* ===== verification/Fixture.v ===== *)
(** The conformance fixtures (rust/conformance/src/lib.rs) and the smallest
    implementation of the contract (rust/examples/conformance-adapter), run by the
    conformance command of [Tools]: the SDK conforms exactly when its own canonical
    and sealed bytes have the hashes of the vectors. *)
From Stdlib Require Import ZArith Lia.
From Stdlib Require Import Strings.String.
From S2P Require Import Tools.

Local Open Scope Z_scope.

(** * The fixtures *)

(** @src rust/conformance/src/lib.rs 72-79 FixtureGeo *)
Record FixtureGeo := mkFixtureGeo { fg_latitude : f64; fg_longitude : f64; fg_altitude_m : f64 }.

(** @src rust/conformance/src/lib.rs 81-85 FixtureAttr *)
Record FixtureAttr := mkFixtureAttr { fa_key : string; fa_value : string }.

(** As serde reads the file: a field left out has its default. *)
(** @src rust/conformance/src/lib.rs 47-70 FixtureEvent *)
Record FixtureEvent := mkFixture {
  fx_schema_version : string; fx_id : string; fx_source_id : string; fx_entity_type : string; fx_timestamp : string;
  fx_received_at : string; fx_location : option FixtureGeo; fx_payload : bytes; fx_policy_tags : list string; fx_confidence : f64;
  fx_attributes : list FixtureAttr; fx_metadata : list FixtureAttr
}.

Section fixture.
Context `{C : Ed25519} `{K : !KeyCodec C} `{H : Hex}.
(** serde_json on a fixture, the base64 crate's standard alphabet, and the SDK's
    protobuf encoding. *)
Variable from_str : bytes → option FixtureEvent.
Variable base64 : bytes → option bytes.
Variable canonical_bytes : Event → bytes.

(** @src rust/conformance/src/lib.rs 94-136 fixture_from_str *)
Definition fixture_from_str (raw : bytes) : option Event :=
  f ← from_str raw;
  payload ← (match fx_payload f with [] => Some [] | p => base64 p end);
  let attribute a := mkAttribute (fa_key a) (fa_value a) in
  Some (mkEvent (fx_schema_version f) (fx_id f) (fx_source_id f) (fx_entity_type f) (fx_timestamp f) (fx_received_at f)
    ((λ g, mkGeoPoint (fg_latitude g) (fg_longitude g) (fg_altitude_m g)) <$> fx_location f)
    payload (fx_policy_tags f) (fx_confidence f) (attribute <$> fx_attributes f) (attribute <$> fx_metadata f)).

(** [args] with the program's name first; [None] is the exit with an error. *)
(** @src rust/examples/conformance-adapter/src/main.rs 12-39 main *)
Definition adapter (args : list string) (seed_var : option string) (stdin : bytes) : option bytes :=
  let mode := default ""%string (args !! 1%nat) in
  if negb (utf8_valid stdin) then None
  else
    event ← fixture_from_str stdin;
    let canonical := canonical_bytes event in
    if String.eqb mode "canonical" then Some canonical
    else if String.eqb mode "sealed" then
      seed_hex ← seed_var;
      raw ← hex_decode (trim (s2b seed_hex));
      seed ← exactly 32 raw;
      Some (seal canonical (sk_from_bytes seed))
    else None.

(** The adapter as a process of the conformance command. *)
Definition adapter_process (cmd : list string) (mode seed : string) (body : bytes) : Conformance.Ran :=
  match adapter (cmd ++ [mode]) (Some seed) body with
  | Some out => Conformance.Exited (Some 0) out []
  | None => Conformance.Exited (Some 1) [] (s2b "Error")
  end.

Lemma adapter_exits cmd mode seed body out err :
  adapter_process cmd mode seed body = Conformance.Exited (Some 0) out err ↔ adapter (cmd ++ [mode]) (Some seed) body = Some out ∧ err = [].
Proof. unfold adapter_process. destruct (adapter _ _ _); (split; [try done; by intros [= -> <-]|by intros [[= ->] ->]]). Qed.
End fixture.

(** * Property *)

Section conforms.
Context `{C : Ed25519} `{CL : !Ed25519Laws C} `{K : !KeyCodec C} `{H : Hex} `{HL : !HexLaws H}.
Variable sha256 : bytes → bytes.
Hypothesis sha256_bytes : ∀ b, bytes_ok (sha256 b).
Variable from_str : bytes → option FixtureEvent.
Variable base64 : bytes → option bytes.
Variable canonical_bytes : Event → bytes.

Lemma seal_filled canonical k : seal canonical k ≠ [].
Proof. unfold seal. intros [E _]%app_eq_nil. pose proof (sig_len (sign k canonical)) as Hl. rewrite E in Hl. done. Qed.

(** the SDK conforms exactly when its bytes are those of the vectors. Run on the
    adapter, with its fixtures readable and the seed of the vectors 32 bytes, the
    conformance command exits with success if and only if of every fixture, as an
    event, the canonical bytes are not empty and have the canonical hash, and the
    bytes sealed with the seed's key have the sealed one. *)
Theorem adapter_conforms argv cmd report v corpus writable seed :
  Conformance.request argv = Some (Conformance.Run [cmd] report) → (∀ p, report = Some p → writable p = true) →
  hex_decode (trim (s2b (Conformance.signing_seed_hex v))) = Some seed → zlen seed = 32 →
  (∀ f, f ∈ (Conformance.vectors v).*1 → ∃ body e, corpus f = Some body ∧ utf8_valid body = true ∧ fixture_from_str from_str base64 body = Some e) →
  (Conformance.conformance_main sha256 (adapter_process from_str base64 canonical_bytes) argv v corpus writable).1 = 0
  ↔ ∀ f x body e, (f, x) ∈ Conformance.vectors v → corpus f = Some body → fixture_from_str from_str base64 body = Some e →
      canonical_bytes e ≠ []
      ∧ Conformance.sha256_hex sha256 (canonical_bytes e) = Conformance.canonical_sha256 x
      ∧ Conformance.sha256_hex sha256 (seal (canonical_bytes e) (sk_from_bytes seed)) = Conformance.sealed_sha256 x.
Proof.
  intros Hr Hw Hs Hl Hc.
  assert (∀ m body e, utf8_valid body = true → fixture_from_str from_str base64 body = Some e →
    adapter from_str base64 canonical_bytes ([cmd] ++ [m]) (Some (Conformance.signing_seed_hex v)) body
    = if String.eqb m "canonical" then Some (canonical_bytes e) else if String.eqb m "sealed" then Some (seal (canonical_bytes e) (sk_from_bytes seed)) else None) as Ha.
  { intros m body e Hu He. unfold adapter. cbn [app lookup list_lookup default]. rewrite Hu, He. cbn [negb mbind option_bind].
    rewrite Hs. cbn [mbind option_bind]. unfold exactly. by rewrite Hl. }
  destruct (conformance_verdict sha256 sha256_bytes (adapter_process from_str base64 canonical_bytes) argv [cmd] report v corpus writable Hr Hw) as (_ & Hv & _).
  { intros f Hf. destruct (Hc f Hf) as (body & _ & -> & _). by eexists. }
  rewrite Hv. split.
  - intros Hall f x body e Hin Hb He. destruct (Hc f) as (body' & e' & Hb' & Hu & He'); [apply list_elem_of_fmap; by exists (f, x)|].
    rewrite Hb in Hb'. injection Hb' as <-. specialize (Ha).
    destruct (Hall f x body "canonical"%string Hin Hb) as (out & err & (E & _)%adapter_exits & Hn & Hh); [by left|]. rewrite (Ha _ _ _ Hu He) in E. injection E as <-.
    destruct (Hall f x body "sealed"%string Hin Hb) as (out & err' & (E & _)%adapter_exits & Hn' & Hh'); [by right; left|]. rewrite (Ha _ _ _ Hu He) in E. injection E as <-. done.
  - intros Hall f x body m Hin Hb Hm. destruct (Hc f) as (body' & e & Hb' & Hu & He); [apply list_elem_of_fmap; by exists (f, x)|].
    rewrite Hb in Hb'. injection Hb' as <-. destruct (Hall f x body e Hin Hb He) as (H1 & H2 & H4). pose proof (seal_filled (canonical_bytes e) (sk_from_bytes seed)) as H3.
    pose proof (Ha m body e Hu He) as Hm'.
    apply elem_of_cons in Hm as [->|[->|[]%elem_of_nil]%elem_of_cons]; eexists _, []; (split; [apply adapter_exits; split; [exact Hm'|done]|done]).
Qed.
End conforms.

(** * Witness *)

Definition ex_fixture : FixtureEvent := mkFixture "v1" "1" "a" "t" "2026-06-10T08:00:00Z" "" None [] [] f_zero [mkFixtureAttr "k" "v"] [].
Definition ex_from_str (raw : bytes) : option FixtureEvent := if bool_decide (raw = s2b "{}") then Some ex_fixture else None.
Definition ex_encode (e : Event) : bytes := s2b (ev_source_id e).
Definition ex_seed_hex : string := b2s (@hex_encode hex_real ex_seed).
Definition ex_hash (b : bytes) : string := @Conformance.sha256_hex hex_real toy_sha b.
Definition ex_golden : Conformance.Vectors :=
  Conformance.mkVectors ex_seed_hex "" [("minimal"%string, Conformance.mkExpected (ex_hash [97]) (ex_hash (@seal toy2 [97] (@sk_from_bytes toy2 toy2_codec ex_seed))))].

Lemma adapter_conforms_witness :
  (@Conformance.conformance_main hex_real toy_sha (@adapter_process toy2 toy2_codec hex_real ex_from_str (λ _, None) ex_encode)
     ["run"; "--impl"; "adapter"]%string ex_golden (λ _, Some (s2b "{}")) (λ _, true)).1 = 0.
Proof.
  apply (@adapter_conforms toy2 toy2_laws toy2_codec hex_real hex_real_laws toy_sha toy_sha_bytes ex_from_str (λ _, None) ex_encode
    ["run"; "--impl"; "adapter"]%string "adapter" None ex_golden (λ _, Some (s2b "{}")) (λ _, true) ex_seed).
  - vm_compute. reflexivity.
  - done.
  - vm_compute. reflexivity.
  - reflexivity.
  - intros f _. exists (s2b "{}"), (mkEvent "v1" "1" "a" "t" "2026-06-10T08:00:00Z" "" None [] [] f_zero [mkAttribute "k" "v"] []).
    split_and!; [reflexivity|vm_compute; reflexivity|vm_compute; reflexivity].
  - intros f x body e Hin [= <-] He. apply list_elem_of_singleton in Hin. injection Hin as -> ->. vm_compute in He. injection He as <-.
    split_and!; [vm_compute; discriminate|vm_compute; reflexivity|vm_compute; reflexivity].
Defined.
